(* ===== verification/_CoqProject ===== *)
-Q . S2P
Prelude.v
Checksum.v
BufferPool.v
Addr.v
Ipv4.v
TcpWire.v
UdpWire.v
Ethernet.v
Route.v
Responder.v
TcpTypes.v
Device.v
Loopback.v
OrdMap.v
Interface.v
InterfaceInv.v
InterfaceStep.v
InterfaceProps.v
UdpSched.v
UdpSchedProps.v
UdpPool.v
UdpPoolInv.v
UdpPoolProps.v
UdpEthernet.v
TcpConn.v
TcpConnInv.v
TcpAckInv.v
TcpInputInv.v
TcpOutputInv.v
TcpTransmit.v
TcpProps.v
TcpPool.v
TcpPoolInv.v
TcpPoolPoll.v
TcpPoolProps.v
DnsWire.v
DnsResolver.v
DnsInv.v
DnsStep.v
DnsProps.v
XdpRing.v
XdpDevice.v
XdpInv.v
XdpProps.v
Tun.v
TunProps.v
Uring.v
UringInv.v
UringProps.v
Simulation.v
SimInv.v
SimProps.v
Telemetry.v
TelemetryProps.v
VhostMemory.v
VhostMemoryProps.v
VhostQueue.v
VhostQueueProps.v
VhostWire.v
VhostWireProps.v
Vhost.v
VhostInv.v
VhostData.v
VhostProps.v
ShmNic.v
ShmNicInv.v
ShmNicStep.v
ShmNicLive.v
ShmNicProps.v
