(* ===== verification/Prelude.v ===== *)
(** * A verified model of async-net-stack-rs

    The program is a userspace TCP/UDP stack in Rust.  Its parts, from the bottom up, and the
    files that model them:

    - Frames.  [src/device/buffer_pool.rs] keeps an arena of fixed frames with a free list and
      hands out exclusive [PacketBuf] handles.  BufferPool.v models the pool and the handles; a
      handle carries the bytes of its frame, which go back to the arena when it is dropped.
      [pool_inv] says that free frames and frames in use partition the arena.
    - Devices.  [src/device/mod.rs] is the trait [Device].  Device.v states it as a class of
      operations and the class [DeviceLaws] of what its clients rely on (who owns which frame,
      which prefix of a batch was taken).  Loopback.v ([device/loopback.rs]), InterfaceStep.v
      ([net/interface.rs], over any other device), XdpProps.v ([device/backend/af_xdp]),
      TunProps.v ([device/backend/tun]) and UringInv.v ([device/backend/uring]) discharge the
      laws; the TCP and UDP pools are proved against them, so every theorem about a pool holds
      over each of these devices and over their compositions.
    - AF_XDP.  XdpRing.v is the shared rings of [umem.rs] and [socket.rs], XdpDevice.v the
      device of [device.rs], XdpInv.v and XdpProps.v its invariant and properties.  The kernel is
      an arbitrary function on the shared rings and frames.
    - TUN.  Tun.v is [device/backend/tun.rs] with [tun/linux.rs] and [tun/macos.rs]; the results
      of the system calls are arguments.  TunProps.v proves the two backends at once, from
      what their loops need of the read and write of one datagram.
    - io_uring.  Uring.v is [device/backend/uring]: the request table, the rings and the device;
      UringInv.v states what the kernel may do with the shared memory ([kernel_step]) and the
      invariant that locates every request, UringProps.v the sessions and the teardown.
    - Packets.  Checksum.v and Responder.v ([net/mod.rs]), Ipv4.v, TcpWire.v and UdpWire.v
      ([transport/]), Ethernet.v ([net/ethernet.rs], [net/arp.rs]), DnsWire.v ([dns/wire.rs]).
      Bytes are integers in lists; every index and slice that could be out of range is a
      [Panic] in the model.
    - Network layer.  Route.v ([net/route.rs], [net/neighbor.rs]); OrdMap.v, the ordered maps;
      Interface.v with InterfaceInv.v, InterfaceStep.v and InterfaceProps.v ([net/interface.rs]):
      routing, ARP resolution, queues, leases.
    - UDP.  UdpSched.v and UdpSchedProps.v ([api/udp/mod.rs]), UdpPool.v with UdpPoolInv.v and
      UdpPoolProps.v ([api/mod.rs]), UdpEthernet.v (the pool over the Ethernet interface).
    - TCP.  TcpTypes.v, TcpConn.v ([api/tcp/connection.rs]) with TcpConnInv.v, TcpAckInv.v,
      TcpInputInv.v, TcpOutputInv.v, TcpTransmit.v and TcpProps.v; TcpPool.v
      ([api/tcp/mod.rs]) with TcpPoolInv.v, TcpPoolPoll.v and TcpPoolProps.v.
    - DNS.  DnsResolver.v ([dns/mod.rs]) over the UDP pool, with DnsInv.v, DnsStep.v, DnsProps.v.
    - Simulation.  Simulation.v ([simulation.rs], [simulation/access_point.rs]), SimInv.v,
      SimProps.v.
    - Telemetry.  Telemetry.v ([telemetry.rs] and the decoder of [scripts/telemetry-client.py]),
      TelemetryProps.v.
    - vhost-user.  The backend of [examples/support/vhost_user] serves the virtqueues of a
      virtual machine: VhostMemory.v ([memory.rs]) is the guest's shared memory and the cache of
      IOMMU translations, VhostQueue.v ([queue.rs]) the virtqueues, VhostWire.v ([wire.rs]) the
      framing of the control socket, Vhost.v ([mod.rs], [vm_packet.rs]) the requests, both data
      paths and the main loop.  VhostMemoryProps.v, VhostQueueProps.v and VhostWireProps.v hold
      the properties of the parts, VhostInv.v the invariant under requests, VhostData.v what is
      written into the guest, VhostProps.v the sessions.  The guest's memory is a function of
      time that nothing constrains.
    - Shared-memory NIC.  ShmNic.v is [examples/support/shm_nic.rs]: the layout, the frames and
      the two processes, each a machine with at most one access to the shared memory in a step;
      a plain write leaves arbitrary content before its final one.  ShmNicInv.v is the
      invariant, ShmNicStep.v shows that every step of either process keeps it, ShmNicLive.v
      measures the work that is left, ShmNicProps.v holds the properties.

    ** How code becomes definitions

    A method with [&mut self] takes and returns the state; its result is an [outcome]: a value,
    an error (its [io::ErrorKind]), a panic, or exhausted fuel.  Operations that change several
    [&mut] arguments are state transformers [ST], which return the state with every result,
    errors included.  Integers keep their width where the code lets them wrap ([u32], [count]
    for the statistics, [mod W64]) and their checks where it does not ([usub], [checked_add]).  A
    [Duration] is a number of nanoseconds up to [DURATION_MAX].  A [BTreeMap] that is only looked
    up is a [gmap], one that is iterated is an ordered list.  Code outside the repository is an
    argument: the random source of initial sequence numbers and DNS identifiers, the kernel
    behind AF_XDP and io_uring, the system calls on a TUN descriptor, the clock and the socket of
    the telemetry exporter, the guest and the frontend of vhost-user, UDP handlers, the clock and
    the notification pipe of the shared-memory NIC.

    Loops that are not structural have fuel: one unit per queued datagram in [flush], per
    connection and burst in the TCP pool, per frame of budget in the AF_XDP refill, per request
    slot when io_uring completions are reaped, per retry of an interrupted call, per byte of a
    control message, per descriptor of a chain, per byte or record in the DNS parser, per alias
    in a DNS chain.  The fuel is computed from the state,
    and the theorems show that the operations return, so that it is always enough.

    ** What the theorems show

    - Wire formats: what a builder writes the parser reads back, parsers never panic, a
      DNS answer is backed by the records of its message; the telemetry decoder reads what
      the exporter wrote.
    - Every component keeps its invariant under every operation, on every branch: tables, queues
      and windows within their bounds, every frame with exactly one owner.  The [_sessions]
      theorems state this for arbitrary sequences of calls, with the result that no call
      panics.
    - TCP: a segment delivers exactly the new in-order bytes and acknowledges exactly the
      acknowledged ones, follows the state diagram and reaches only the connection it belongs
      to; transmission stays within both windows.
    - Neighbour resolution, DNS lookups and telemetry shutdown end in bounded time; UDP
      scheduling is fair and paced; a simulated packet arrives when its delay has passed.
    - Errors take nothing: a failed send, lease or configuration leaves the state as it was, or
      ends what it must end and releases what it held.
    - Interleavings: the AF_XDP and io_uring devices against any kernel, the telemetry threads in
      any order, the vhost-user backend against any guest and frontend: descriptor chains are
      checked before they are used, frames are written where they were offered and nowhere else,
      control messages arrive whole and in order, stale translations are never used.  The two
      processes of the shared-memory NIC, in any order of their steps: every packet is verified
      once and in order, no slot is accessed by both at once, and they never wait for each other.

    ** What is not modelled

    The macOS reactor, the loading and attaching of the XDP program and the raw system calls
    are calls into the kernel with little logic of their own.
    The memory behind pointers (mappings, layouts, alignment) is a list of frames.  Messages of
    errors, [Debug] renderings and accessors without effect are left out.  The other example
    programs are drivers of the library and are not modelled.  [SimDevice] is not an instance of
    [DeviceLaws]: it hands out frames of other ports' pools, for which the laws have no place;
    its own invariant covers all pools of a network. *)
From Stdlib Require Import ZArith Lia Bool.
From stdpp Require Import base numbers option list.
#[local] Open Scope Z_scope.

(** ** Results, panics and termination

    A Rust function that returns [io::Result<T>] can return a value, return
    an error, panic (slice index, [assert!], [unwrap]) or, when the model uses
    fuel for a [while] loop, exhaust that fuel.  Only the [io::ErrorKind] of an
    error is kept, the message is not. *)
Inductive ErrorKind : Type :=
| InvalidInput | InvalidData | WouldBlock | AddrInUse | AddrNotAvailable
| NotConnected | ConnectionReset | TimedOut | NotFound | PermissionDenied
| WriteZero | AlreadyExists | Unsupported | Interrupted | OtherError.

#[export] Instance ErrorKind_eq_dec : EqDecision ErrorKind.
Proof. solve_decision. Defined.

Inductive outcome (A : Type) : Type :=
| Ok (a : A)
| Err (k : ErrorKind)
| Panic
| OutOfFuel.
Arguments Ok {A} a.
Arguments Err {A} k.
Arguments Panic {A}.
Arguments OutOfFuel {A}.

(** The call comes back to its caller: no panic, and the loops end. *)
Definition returns {A} (m : outcome A) : Prop :=
  match m with Ok _ | Err _ => True | Panic | OutOfFuel => False end.

Definition obind {A B} (m : outcome A) (f : A -> outcome B) : outcome B :=
  match m with
  | Ok a => f a
  | Err k => Err k
  | Panic => Panic
  | OutOfFuel => OutOfFuel
  end.

Declare Scope outcome_scope.
Delimit Scope outcome_scope with outcome.
Notation "'let*' x ':=' m 'in' f" := (obind m (fun x => f))
  (at level 10, x name, m at level 100, f at level 200) : outcome_scope.
Notation "'let*' ' p ':=' m 'in' f" := (obind m (fun '(p) => f))
  (at level 10, p pattern, m at level 100, f at level 200) : outcome_scope.
Open Scope outcome_scope.

Lemma obind_Ok {A B} (m : outcome A) (f : A -> outcome B) b :
  obind m f = Ok b <-> exists a, m = Ok a /\ f a = Ok b.
Proof.
  destruct m; simpl; split; try naive_solver.
Qed.

Lemma obind_assoc {A B C} (m : outcome A) (f : A -> outcome B) (g : B -> outcome C) :
  obind (obind m f) g = obind m (fun a => obind (f a) g).
Proof. by destruct m. Qed.

Lemma obind_returns {A B} (m : outcome A) (f : A -> outcome B) :
  returns m -> (forall a, m = Ok a -> returns (f a)) -> returns (obind m f).
Proof. destruct m; simpl; eauto. Qed.

(** ** Machine integers, as [Z] with their wrap-around written out *)
Definition U8MAX : Z := 255.
Definition U16MAX : Z := 65535.
Definition U32MAX : Z := 4294967295.
Definition U64MAX : Z := 18446744073709551615.
Definition W16 : Z := 65536.
Definition W32 : Z := 4294967296.
Definition W64 : Z := 18446744073709551616.

Definition u16 (x : Z) : Z := x mod W16.
Definition u32 (x : Z) : Z := x mod W32.
(** [u32::wrapping_add] and [u32::wrapping_sub]. *)
Definition wadd32 (a b : Z) : Z := u32 (a + b).
Definition wsub32 (a b : Z) : Z := u32 (a - b).
(** [x as i32] for a [u32]. *)
Definition as_i32 (x : Z) : Z := if x <? 2147483648 then x else x - W32.

(** ** Durations: nanoseconds, saturating at [Duration::MAX] *)
Definition SECOND : Z := 1000000000.
Definition MILLI : Z := 1000000.
Definition DURATION_MAX : Z := U64MAX * SECOND + 999999999.
Definition dur_add (a b : Z) : Z := Z.min (a + b) DURATION_MAX.
Definition dur_sub (a b : Z) : Z := Z.max (a - b) 0.
Definition dur_mul (a k : Z) : Z := Z.min (a * k) DURATION_MAX.

Lemma dur_add_mono a b c : a <= b -> dur_add a c <= dur_add b c.
Proof. unfold dur_add. lia. Qed.

Lemma dur_add_ge a b : 0 <= b -> a <= DURATION_MAX -> a <= dur_add a b.
Proof. unfold dur_add. lia. Qed.

(** The minimum of the deadlines that are set. *)
Definition opt_min (a b : option Z) : option Z :=
  match a, b with
  | Some x, Some y => Some (Z.min x y)
  | Some x, None | None, Some x => Some x
  | None, None => None
  end.

(** [stats.f += n] on a [u64]. *)
Definition count (n x : Z) : Z := (x + n) mod W64.

(** ** Byte slices

    A byte is a [Z] in [0, 256); a slice or [Vec<u8>] is a [list Z].  Lengths and
    offsets are [Z], as every other machine integer. *)
Definition zlen {A} (l : list A) : Z := Z.of_nat (length l).
Definition is_byte (b : Z) : Prop := 0 <= b < 256.
Definition bytes_ok (l : list Z) : Prop := Forall is_byte l.

(** [l[i]], which panics out of range. *)
Definition get (l : list Z) (i : Z) : outcome Z :=
  if (0 <=? i) && (i <? zlen l) then Ok (nth (Z.to_nat i) l 0) else Panic.
(** [l[i]] and [l[i] = x] for a slice of any element type. *)
Definition get_at {A} (l : list A) (i : Z) : outcome A :=
  if 0 <=? i then match l !! Z.to_nat i with Some x => Ok x | None => Panic end else Panic.
Definition set_at {A} (l : list A) (i : Z) (x : A) : outcome (list A) :=
  if (0 <=? i) && (i <? zlen l) then Ok (<[Z.to_nat i := x]> l) else Panic.
(** [&l[a..b]], which panics when [a > b] or [b > l.len()]. *)
Definition slice {A} (l : list A) (a b : Z) : outcome (list A) :=
  if (0 <=? a) && (a <=? b) && (b <=? zlen l)
  then Ok (take (Z.to_nat (b - a)) (drop (Z.to_nat a) l)) else Panic.
(** [l[a..a + src.len()].copy_from_slice(src)]. *)
Definition copy_at (l : list Z) (a : Z) (src : list Z) : outcome (list Z) :=
  if (0 <=? a) && (a + zlen src <=? zlen l)
  then Ok (take (Z.to_nat a) l ++ src ++ drop (Z.to_nat a + length src) l) else Panic.
(** [l[a..b].fill(0)]. *)
Definition fill0 (l : list Z) (a b : Z) : outcome (list Z) :=
  if (0 <=? a) && (a <=? b) && (b <=? zlen l)
  then Ok (take (Z.to_nat a) l ++ replicate (Z.to_nat (b - a)) 0 ++ drop (Z.to_nat b) l)
  else Panic.

(** Big-endian encodings: [to_be_bytes], [from_be_bytes]. *)
Definition be16 (v : Z) : list Z := [v / 256 mod 256; v mod 256].
Definition be32 (v : Z) : list Z :=
  [v / 16777216 mod 256; v / 65536 mod 256; v / 256 mod 256; v mod 256].
Definition de16 (h l : Z) : Z := h * 256 + l.
Definition de32 (a b c d : Z) : Z := ((a * 256 + b) * 256 + c) * 256 + d.

Fixpoint list_eqb (a b : list Z) : bool :=
  match a, b with
  | [], [] => true
  | x :: a, y :: b => (x =? y) && list_eqb a b
  | _, _ => false
  end.

Lemma list_eqb_eq a b : list_eqb a b = true <-> a = b.
Proof.
  revert b; induction a as [|x a IH]; intros [|y b]; simpl; try naive_solver.
  rewrite andb_true_iff, IH, Z.eqb_eq. naive_solver.
Qed.

Lemma list_eqb_refl a : list_eqb a a = true.
Proof. by apply list_eqb_eq. Qed.

(** ** Automation

    [bools] turns the boolean guards of the source into propositions that [lia]
    reads; [zl] closes goals about slice lengths. *)
Create Rewrite HintDb bools.
#[export] Hint Rewrite andb_true_iff andb_false_iff orb_true_iff orb_false_iff
  negb_true_iff negb_false_iff Z.eqb_eq Z.eqb_neq Z.ltb_lt Z.ltb_ge Z.leb_le Z.leb_gt
  list_eqb_eq : bools.
Ltac bools := autorewrite with bools in *.

Lemma zlen_nil {A} : zlen (@nil A) = 0.
Proof. done. Qed.
Lemma zlen_cons {A} (x : A) l : zlen (x :: l) = 1 + zlen l.
Proof. unfold zlen. simpl. lia. Qed.
#[export] Instance zlen_proper {A} : Proper ((≡ₚ) ==> eq) (@zlen A).
Proof. intros l l' E. unfold zlen. by rewrite E. Qed.
Lemma zlen_app {A} (l k : list A) : zlen (l ++ k) = zlen l + zlen k.
Proof. unfold zlen. rewrite length_app. lia. Qed.
Lemma zlen_replicate {A} n (x : A) : zlen (replicate n x) = Z.of_nat n.
Proof. unfold zlen. by rewrite length_replicate. Qed.
Lemma zlen_take {A} n (l : list A) : zlen (take n l) = Z.min (Z.of_nat n) (zlen l).
Proof. unfold zlen. rewrite length_take. lia. Qed.
Lemma zlen_drop {A} n (l : list A) : zlen (drop n l) = Z.max 0 (zlen l - Z.of_nat n).
Proof. unfold zlen. rewrite length_drop. lia. Qed.
Lemma zlen_nonneg {A} (l : list A) : 0 <= zlen l.
Proof. unfold zlen. lia. Qed.
Lemma zlen_be16 v : zlen (be16 v) = 2.
Proof. done. Qed.
Lemma zlen_be32 v : zlen (be32 v) = 4.
Proof. done. Qed.
Lemma zlen_zero_nil {A} (l : list A) : zlen l = 0 -> l = [].
Proof. destruct l; [done|]. rewrite zlen_cons. pose proof (zlen_nonneg l). lia. Qed.

Create Rewrite HintDb zlen.
#[export] Hint Rewrite @zlen_nil @zlen_cons @zlen_app @zlen_replicate @zlen_take @zlen_drop
  zlen_be16 zlen_be32 : zlen.

Ltac pose_zlen :=
  repeat match goal with
  | |- context [zlen ?l] =>
      lazymatch goal with H : 0 <= zlen l |- _ => fail | _ => pose proof (zlen_nonneg l) end
  | H : context [zlen ?l] |- _ =>
      lazymatch goal with H' : 0 <= zlen l |- _ => fail | _ => pose proof (zlen_nonneg l) end
  end.
Ltac zl := autorewrite with zlen in *; pose_zlen; lia.

Lemma get_ok l i : 0 <= i < zlen l -> get l i = Ok (nth (Z.to_nat i) l 0).
Proof. intros. unfold get. replace (_ && _) with true; [done|]. symmetry. bools. lia. Qed.

Lemma get_at_ok {A} (l : list A) i x :
  0 <= i -> l !! Z.to_nat i = Some x -> get_at l i = Ok x.
Proof. intros. unfold get_at. rewrite (proj2 (Z.leb_le _ _)) by lia. by simplify_option_eq. Qed.
Lemma set_at_ok {A} (l : list A) i x :
  0 <= i < zlen l -> set_at l i x = Ok (<[Z.to_nat i := x]> l).
Proof. intros. unfold set_at. replace (_ && _) with true; [done|]. symmetry. bools. lia. Qed.

Lemma slice_ok {A} (l : list A) a b :
  0 <= a <= b -> b <= zlen l ->
  slice l a b = Ok (take (Z.to_nat (b - a)) (drop (Z.to_nat a) l)).
Proof. intros. unfold slice. replace (_ && _) with true; [done|]. symmetry. bools. lia. Qed.

Lemma copy_at_ok l a src :
  0 <= a -> a + zlen src <= zlen l ->
  copy_at l a src = Ok (take (Z.to_nat a) l ++ src ++ drop (Z.to_nat a + length src) l).
Proof. intros. unfold copy_at. replace (_ && _) with true; [done|]. symmetry. bools. lia. Qed.

Lemma fill0_ok l a b :
  0 <= a <= b -> b <= zlen l ->
  fill0 l a b =
  Ok (take (Z.to_nat a) l ++ replicate (Z.to_nat (b - a)) 0 ++ drop (Z.to_nat b) l).
Proof. intros. unfold fill0. replace (_ && _) with true; [done|]. symmetry. bools. lia. Qed.

Lemma copy_at_inv l a src l' :
  copy_at l a src = Ok l' -> zlen l' = zlen l /\ 0 <= a /\ a + zlen src <= zlen l.
Proof.
  unfold copy_at. destruct (_ && _) eqn:E; [|done]. bools. intros [= <-].
  split; [|lia]. autorewrite with zlen. pose_zlen. unfold zlen in *. lia.
Qed.

Lemma bytes_nth l i : bytes_ok l -> is_byte (nth i l 0).
Proof.
  intros H. destruct (decide (i < length l)%nat) as [Hi|Hi].
  - unfold bytes_ok in H. rewrite Forall_forall in H. by apply H, list_elem_of_In, nth_In.
  - rewrite nth_overflow by lia. unfold is_byte. lia.
Qed.
Lemma bytes_app l k : bytes_ok (l ++ k) <-> bytes_ok l /\ bytes_ok k.
Proof. apply Forall_app. Qed.
Lemma bytes_take n l : bytes_ok l -> bytes_ok (take n l).
Proof. apply Forall_take. Qed.
Lemma bytes_drop n l : bytes_ok l -> bytes_ok (drop n l).
Proof. apply Forall_drop. Qed.
Lemma bytes_be16 v : bytes_ok (be16 v).
Proof. unfold be16, bytes_ok, is_byte. repeat constructor; try apply Z.mod_pos_bound; lia. Qed.
Lemma bytes_be32 v : bytes_ok (be32 v).
Proof. unfold be32, bytes_ok, is_byte. repeat constructor; try apply Z.mod_pos_bound; lia. Qed.
Lemma bytes_zeros n : bytes_ok (replicate n 0).
Proof. apply Forall_replicate. unfold is_byte. lia. Qed.
#[export] Hint Resolve bytes_nth bytes_take bytes_drop bytes_be16 bytes_be32 bytes_zeros : net.

Lemma byte_land a b : is_byte b -> is_byte (Z.land a b).
Proof.
  unfold is_byte. intros H. replace b with (Z.land b (Z.ones 8))
    by (rewrite Z.land_ones by lia; apply Z.mod_small; lia).
  rewrite Z.land_assoc, Z.land_ones by lia. apply Z.mod_pos_bound. lia.
Qed.

Lemma de16_be16 v : 0 <= v < W16 -> de16 (v / 256 mod 256) (v mod 256) = v.
Proof. unfold W16, de16. intros. Z.div_mod_to_equations. lia. Qed.
Lemma de32_be32 v :
  0 <= v < W32 ->
  de32 (v / 16777216 mod 256) (v / 65536 mod 256) (v / 256 mod 256) (v mod 256) = v.
Proof. unfold W32, de32. intros. Z.div_mod_to_equations. lia. Qed.
Lemma de16_range h l : is_byte h -> is_byte l -> 0 <= de16 h l < W16.
Proof. unfold is_byte, de16, W16. lia. Qed.
Lemma de32_range a b c d :
  is_byte a -> is_byte b -> is_byte c -> is_byte d -> 0 <= de32 a b c d < W32.
Proof. unfold is_byte, de32, W32. lia. Qed.
#[export] Hint Resolve de16_range de32_range : net.

(** [read16] and [read32], which several modules of the source define privately. *)
Definition read16 (bytes : list Z) (offset : Z) : outcome Z :=
  let* h := get bytes offset in let* l := get bytes (offset + 1) in Ok (de16 h l).
Definition read32 (bytes : list Z) (offset : Z) : outcome Z :=
  let* b := slice bytes offset (offset + 4) in
  match b with [b0; b1; b2; b3] => Ok (de32 b0 b1 b2 b3) | _ => Panic end.

#[global] Arguments get : simpl never.
#[global] Arguments get_at : simpl never.
#[global] Arguments set_at : simpl never.
#[global] Arguments slice : simpl never.
#[global] Arguments copy_at : simpl never.
#[global] Arguments fill0 : simpl never.
#[global] Arguments read16 : simpl never.
#[global] Arguments read32 : simpl never.

Lemma read16_ok l i :
  0 <= i -> i + 2 <= zlen l ->
  read16 l i = Ok (de16 (nth (Z.to_nat i) l 0) (nth (Z.to_nat i + 1) l 0)).
Proof.
  intros. unfold read16. rewrite !get_ok by lia. simpl. do 3 f_equal. lia.
Qed.

Lemma read32_ok l i :
  0 <= i -> i + 4 <= zlen l ->
  read32 l i = Ok (de32 (nth (Z.to_nat i) l 0) (nth (Z.to_nat i + 1) l 0)
                        (nth (Z.to_nat i + 2) l 0) (nth (Z.to_nat i + 3) l 0)).
Proof.
  intros. unfold read32. rewrite slice_ok by lia. cbn [obind].
  replace (Z.to_nat (i + 4 - i)) with 4%nat by lia.
  assert (length (drop (Z.to_nat i) l) >= 4)%nat as L
    by (rewrite length_drop; unfold zlen in *; lia).
  assert (forall k, nth (Z.to_nat i + k) l 0 = nth k (drop (Z.to_nat i) l) 0) as N.
  { intros k. by rewrite nth_skipn. }
  rewrite <- (Nat.add_0_r (Z.to_nat i)) at 2. rewrite !N.
  by destruct (drop (Z.to_nat i) l) as [|? [|? [|? [|? ?]]]]; simpl in L; try lia.
Qed.

Lemma read16_range l i v : bytes_ok l -> read16 l i = Ok v -> 0 <= v < W16.
Proof.
  intros H. unfold read16, get. repeat (case_match; try done). intros [= <-].
  apply de16_range; by apply bytes_nth.
Qed.
Lemma read32_range l i v : bytes_ok l -> read32 l i = Ok v -> 0 <= v < W32.
Proof.
  intros H. unfold read32, slice. case_match; [|done]. cbn [obind].
  destruct (take _ _) as [|? [|? [|? [|? [|? ?]]]]] eqn:E; try done. intros [= <-].
  assert (bytes_ok (take (Z.to_nat (i + 4 - i)) (drop (Z.to_nat i) l))) as B by eauto with net.
  rewrite E in B. repeat (apply Forall_cons in B as [? B]). by apply de32_range.
Qed.

(** Writing inside the left part of an append leaves the right part alone. *)
Lemma copy_at_app_l l r a src l' :
  copy_at l a src = Ok l' -> copy_at (l ++ r) a src = Ok (l' ++ r).
Proof.
  intros E. pose proof (copy_at_inv _ _ _ _ E) as (_ & Ha & Hl). revert E.
  rewrite !copy_at_ok by zl. intros [= <-]. f_equal.
  rewrite take_app_le, drop_app_le by (unfold zlen in *; lia). by rewrite <- !app_assoc.
Qed.
Lemma set_at_app_l {A} (l r : list A) i x l' :
  set_at l i x = Ok l' -> set_at (l ++ r) i x = Ok (l' ++ r).
Proof.
  unfold set_at at 1. destruct (_ && _) eqn:E; [|done]. bools. intros [= <-].
  rewrite set_at_ok by zl. by rewrite insert_app_l by (unfold zlen in *; lia).
Qed.
Lemma slice_app_l {A} (l r : list A) a b l' :
  slice l a b = Ok l' -> slice (l ++ r) a b = Ok l'.
Proof.
  unfold slice at 1. destruct (_ && _) eqn:E; [|done]. bools. intros [= <-].
  rewrite slice_ok by zl. f_equal. rewrite drop_app_le by (unfold zlen in *; lia).
  apply take_app_le. rewrite length_drop. unfold zlen in *; lia.
Qed.
(** The final copy, that fills the rest of the packet with the payload. *)
Lemma fill0_app_l l r a b l' : fill0 l a b = Ok l' -> fill0 (l ++ r) a b = Ok (l' ++ r).
Proof.
  unfold fill0 at 1. destruct (_ && _) eqn:E; [|done]. bools. intros [= <-].
  rewrite fill0_ok by zl. f_equal. rewrite take_app_le, drop_app_le by (unfold zlen in *; lia).
  by rewrite <- !app_assoc.
Qed.
Lemma copy_at_tail l r a src :
  zlen l = a -> zlen r = zlen src -> copy_at (l ++ r) a src = Ok (l ++ src).
Proof.
  intros <- E. rewrite copy_at_ok by zl. unfold zlen in *. rewrite Nat2Z.id.
  rewrite take_app_length, drop_ge by (rewrite length_app; lia). by rewrite app_nil_r.
Qed.

Lemma slice_tail {A} (l r : list A) n :
  zlen l = n -> slice (l ++ r) n (zlen (l ++ r)) = Ok r.
Proof.
  intros <-. rewrite slice_ok by zl. f_equal. unfold zlen. rewrite Nat2Z.id, drop_app_length.
  apply take_ge. rewrite length_app. lia.
Qed.

(** [decide_if b] decides the condition of the [if] at the head of the goal. *)
Ltac decide_if b :=
  lazymatch goal with
  | |- (if ?c then _ else _) = _ => replace c with b by reflexivity; cbv iota
  end.

(** [wr] runs one write or slice of a builder: the packet is [l ++ rest] with [l] an
    explicit list, and the operation stays inside [l].  Field values stay symbolic. *)
Ltac run_bytes t :=
  eval cbv [copy_at set_at slice fill0 zlen length Z.of_nat Pos.of_succ_nat Pos.succ Z.leb Z.ltb
    Z.compare Pos.compare Pos.compare_cont Z.add Z.sub Z.opp Z.pos_sub Pos.add Pos.add_carry
    Pos.pred_double Z.succ_double Z.pred_double Z.double andb Z.to_nat Pos.to_nat Pos.iter_op
    Nat.add take drop firstn skipn app insert list_insert be16 be32 replicate] in t.
Ltac wr_with m small lem r :=
  lazymatch run_bytes small with
  | Ok ?x =>
      let y := lazymatch r with Some ?r' => constr:(x ++ r') | None => constr:(x) end in
      let E := fresh in
      assert (m = Ok y) as E by (apply lem; reflexivity);
      rewrite E; clear E; cbn [obind]
  end.
Ltac wr_one m :=
  lazymatch m with
  | copy_at (?l ++ ?r) ?a ?src => wr_with m (copy_at l a src) (copy_at_app_l l r a src) (Some r)
  | set_at (?l ++ ?r) ?a ?x => wr_with m (set_at l a x) (set_at_app_l l r a x) (Some r)
  | fill0 (?l ++ ?r) ?a ?b => wr_with m (fill0 l a b) (fill0_app_l l r a b) (Some r)
  | slice (?l ++ ?r) ?a ?b => wr_with m (slice l a b) (slice_app_l l r a b) (@None (list Z))
  end.
Ltac wr :=
  rewrite ?obind_assoc;
  lazymatch goal with
  | |- obind ?m _ = _ => wr_one m
  | |- ?m = _ => wr_one m
  end.

(** What the code relies on of [/dev/urandom]: four bytes or an error. *)
Definition entropy_ok (urandom : nat -> outcome Z) : Prop := forall k,
  match urandom k with Ok v => 0 <= v < W32 | Err _ => True | _ => False end.
Lemma copy_at_bytes l a src l' : copy_at l a src = Ok l' -> bytes_ok l -> bytes_ok src -> bytes_ok l'.
Proof.
  unfold copy_at. destruct (_ && _); [|done]. intros [= <-] Hl Hs. rewrite !bytes_app. eauto with net.
Qed.
Lemma opt_min_spec a b t :
  opt_min a b = Some t -> (a = Some t \/ b = Some t)
    /\ (forall x, a = Some x -> t <= x) /\ (forall x, b = Some x -> t <= x).
Proof.
  destruct a as [x|], b as [y|]; intros [= <-]; split_and!; try (intros ? [= <-]; lia); try done;
    [destruct (Z.min_dec x y) as [-> | ->]|..]; by auto.
Qed.
Lemma filter_all {A} (P : A -> Prop) `{forall x, Decision (P x)} l : Forall P l -> filter P l = l.
Proof. induction 1 as [|x l Hx _ IH]; [done|]. rewrite filter_cons_True by done. by rewrite IH. Qed.
Lemma sublist_Forall {A} (P : A -> Prop) l k : k `sublist_of` l -> Forall P l -> Forall P k.
Proof.
  induction 1 as [|x k l _ IH|x k l _ IH]; intros F; [done|..]; apply Forall_cons in F as [? ?];
    [constructor|]; auto.
Qed.

(** ** Permutations

    [perm] proves that two concatenations of the same lists are permutations. *)
Lemma perm_pick {A} (a x y1 y2 y : list A) : y = y1 ++ a ++ y2 -> x ≡ₚ y1 ++ y2 -> a ++ x ≡ₚ y.
Proof. intros -> ->. apply Permutation_app_swap_app. Qed.
Ltac perm_find a y :=
  lazymatch y with
  | a ++ ?z => lazymatch type of a with list ?A => constr:((@nil A, z)) end
  | ?b ++ ?z => lazymatch perm_find a z with (?l, ?r) => constr:((b ++ l, r)) end
  | a => lazymatch type of a with list ?A => constr:((@nil A, @nil A)) end
  end.
Ltac perm_norm := rewrite ?app_nil_l, ?app_nil_r, <- ?app_assoc.
Ltac perm :=
  perm_norm;
  lazymatch goal with
  | |- ?x ≡ₚ ?x => reflexivity
  | |- ?a ++ ?x ≡ₚ ?y =>
      lazymatch perm_find a y with
      | (?y1, ?y2) => apply (perm_pick a x y1 y2 y); [perm_norm; reflexivity|]; perm
      end
  end.

(** ** Serial numbers *)
Lemma u32_range x : 0 <= u32 x < W32.
Proof. apply Z.mod_pos_bound. reflexivity. Qed.
Lemma u32_small x : 0 <= x < W32 -> u32 x = x.
Proof. apply Z.mod_small. Qed.
Lemma u32_add_l a b : u32 (u32 a + b) = u32 (a + b).
Proof. apply Zplus_mod_idemp_l. Qed.
Lemma u32_add_r a b : u32 (a + u32 b) = u32 (a + b).
Proof. apply Zplus_mod_idemp_r. Qed.
Lemma u32_sub_l a b : u32 (u32 a - b) = u32 (a - b).
Proof. apply Zminus_mod_idemp_l. Qed.
Lemma u32_sub_r a b : u32 (a - u32 b) = u32 (a - b).
Proof. apply Zminus_mod_idemp_r. Qed.
Create Rewrite HintDb u32.
#[export] Hint Rewrite u32_add_l u32_add_r u32_sub_l u32_sub_r : u32.

(** ** Functional record update

    [r <| f := v |>] is [r] with field [f] replaced.  A record opts in with an [Eta]
    instance, its eta expansion. *)
Class Eta (R : Type) := eta : R -> R.
Class Setter {R T : Type} (proj : R -> T) := setter : (T -> T) -> R -> R.
Arguments setter {R T} proj {_} _ _ /.
Ltac make_setter :=
  lazymatch goal with
  | |- @Setter ?R ?T ?proj =>
      let inst := constr:(_ : Eta R) in
      let body := eval hnf in inst in
      let p := eval pattern proj in body in
      lazymatch p with
      | ?k proj => exact (fun (f : T -> T) (r : R) => k (fun r => f (proj r)) r)
      end
  end.
#[export] Hint Extern 1 (Setter _) => make_setter : typeclass_instances.
Declare Scope record_scope.
Delimit Scope record_scope with record.
Notation "r <| f := v |>" := (setter f (fun _ => v) r)
  (at level 12, left associativity, f at level 9, v at level 200) : record_scope.
Notation "r <| f ::= g |>" := (setter f g r)
  (at level 12, left associativity, f at level 9, g at level 200) : record_scope.
Open Scope record_scope.
