(* ===== verification/Checksum.v ===== *)
(** * The Internet checksum ([src/net/mod.rs]: [checksum], [sum_words], [finish_sum])

    The one's-complement sum of big-endian 16-bit words.  The lemmas relate the
    folded sum to arithmetic modulo 65535, which is what every round trip and
    reply theorem of the development uses. *)
From Stdlib Require Import ZArith Lia Bool Zquot.
From stdpp Require Import base numbers option list.
From S2P Require Import Prelude.
#[local] Open Scope Z_scope.

(** [chunks_exact(2)] followed by the odd remainder, shifted into the high byte. *)
Fixpoint sum_words (bytes : list Z) : Z :=
  match bytes with
  | h :: l :: rest => de16 h l + sum_words rest
  | [last] => Z.shiftl last 8
  | [] => 0
  end.

(** The [while sum >> 16 != 0] loop. *)
Fixpoint fold_carries (fuel : nat) (sum : Z) : outcome Z :=
  match fuel with
  | O => OutOfFuel
  | S fuel =>
      if Z.shiftr sum 16 =? 0 then Ok sum
      else fold_carries fuel (Z.land sum 65535 + Z.shiftr sum 16)
  end.

(** Six rounds are enough for any [u64], see [fold_carries_total]. *)
Definition FOLD_FUEL : nat := 6.

Definition finish_sum (sum : Z) : Z :=
  match fold_carries FOLD_FUEL sum with
  | Ok s => Z.lxor (u16 s) 65535
  | _ => 0
  end.

Definition checksum (bytes : list Z) : Z := finish_sum (sum_words bytes).

(** ** Arithmetic of the fold *)
Lemma fold_step_eq s : 0 <= s -> Z.land s 65535 + Z.shiftr s 16 = s mod 65536 + s / 65536.
Proof.
  intros. rewrite Z.shiftr_div_pow2 by lia.
  change 65535 with (Z.ones 16). by rewrite Z.land_ones.
Qed.

(** The invariant of the loop: congruence modulo 65535, and zero only from zero. *)
Definition folds_to (s r : Z) : Prop :=
  0 <= r < W16 /\ r mod 65535 = s mod 65535 /\ (r = 0 <-> s = 0).

Lemma fold_carries_bound n s b :
  0 <= s <= b -> b < W16 -> exists r, fold_carries (S n) s = Ok r /\ folds_to s r.
Proof.
  intros. exists s. simpl. unfold W16 in *.
  rewrite Z.shiftr_div_pow2, Z.div_small by lia. unfold folds_to, W16. simpl. intuition lia.
Qed.

Lemma fold_carries_step n s b b' :
  0 <= s <= b -> (b + 1) / 65536 + 65535 <= b' ->
  (forall t, 0 <= t <= b' -> exists r, fold_carries n t = Ok r /\ folds_to t r) ->
  exists r, fold_carries (S n) s = Ok r /\ folds_to s r.
Proof.
  intros Hs Hb IH. simpl. destruct (Z.shiftr s 16 =? 0) eqn:E.
  - bools. rewrite Z.shiftr_div_pow2 in E by lia. change (2 ^ 16) with 65536 in E.
    exists s. split; [done|]. unfold folds_to, W16. Z.div_mod_to_equations. lia.
  - rewrite fold_step_eq by lia.
    assert (0 <= s mod 65536 < 65536) by (apply Z.mod_pos_bound; lia).
    assert (0 <= s / 65536) by (apply Z.div_pos; lia).
    assert (s / 65536 <= (b + 1) / 65536) by (apply Z.div_le_mono; lia).
    destruct (IH (s mod 65536 + s / 65536)) as (r & -> & Hr & Hm & Hz); [lia|].
    exists r. split; [done|]. split; [done|].
    rewrite Hm, Hz. split.
    + replace (s mod 65536 + s / 65536) with (s + (- (s / 65536)) * 65535)
        by (Z.div_mod_to_equations; lia).
      apply Z.mod_add. lia.
    + Z.div_mod_to_equations. lia.
Qed.

(** The loop ends within [FOLD_FUEL] rounds for every [u64]. *)
Lemma fold_carries_total s :
  0 <= s <= U64MAX -> exists r, fold_carries FOLD_FUEL s = Ok r /\ folds_to s r.
Proof.
  intros H. unfold FOLD_FUEL.
  eapply (fold_carries_step _ s U64MAX 281474976776191); [lia|done|intros t1 H1].
  eapply (fold_carries_step _ t1 281474976776191 4295032832); [lia|done|intros t2 H2].
  eapply (fold_carries_step _ t2 4295032832 131072); [lia|done|intros t3 H3].
  destruct (decide (t3 < 65536)) as [Hlt|Hge].
  { eapply (fold_carries_bound _ t3 65535); unfold W16; lia. }
  eapply (fold_carries_step _ t3 131072 65537); [lia|done|intros t4 H4].
  destruct (decide (t4 < 65536)) as [Hlt|Hge4].
  { eapply (fold_carries_bound _ t4 65535); unfold W16; lia. }
  assert (t4 = 65536 \/ t4 = 65537) as [-> | ->] by lia; [exists 1|exists 2].
  all: split; [done|]; unfold folds_to, W16; split; [lia|split; [done|lia]].
Qed.

(** What the sender stores and what the receiver tests, in one lemma: the
    complement of the folded sum. *)
Lemma finish_sum_spec s :
  0 <= s <= U64MAX ->
  exists r, finish_sum s = 65535 - r /\ folds_to s r.
Proof.
  intros H. destruct (fold_carries_total s H) as (r & E & Hr).
  exists r. split; [|done]. unfold finish_sum. rewrite E.
  destruct Hr as [Hr _]. unfold u16. rewrite Z.mod_small by done.
  unfold W16 in Hr.
  assert (Z.lxor r 65535 = Z.land (Z.lnot r) 65535) as ->.
  { apply Z.bits_inj'. intros n Hn. rewrite Z.lxor_spec, Z.land_spec, Z.lnot_spec by done.
    change 65535 with (Z.ones 16). destruct (decide (n < 16)).
    - rewrite Z.ones_spec_low by lia. by destruct (Z.testbit r n).
    - rewrite Z.ones_spec_high by lia. rewrite andb_false_r, xorb_false_r.
      apply Z.bits_above_log2; [lia|].
      destruct (decide (r = 0)) as [->|]; [simpl; lia|].
      apply Z.log2_lt_pow2; [lia|]. eapply Z.lt_le_trans with (2 ^ 16); [simpl; lia|].
      apply Z.pow_le_mono_r; lia. }
  change 65535 with (Z.ones 16). rewrite Z.land_ones by lia.
  change (Z.ones 16) with 65535. change (2 ^ 16) with 65536.
  unfold Z.lnot. rewrite <- (Z.mod_add _ 1) by lia. rewrite Z.mod_small; lia.
Qed.

Lemma finish_sum_range s : 0 <= s <= U64MAX -> 0 <= finish_sum s < W16.
Proof.
  intros H. destruct (finish_sum_spec s H) as (r & -> & Hr & _). unfold W16 in *. lia.
Qed.

Lemma finish_sum_zero_iff s :
  0 <= s <= U64MAX -> finish_sum s = 0 <-> s mod 65535 = 0 /\ s <> 0.
Proof.
  intros H. destruct (finish_sum_spec s H) as (r & -> & Hr & Hm & Hz).
  unfold W16 in Hr. rewrite <- Hm. split.
  - intros E. assert (r = 65535) as -> by lia. split; [done|]. intros ->. naive_solver lia.
  - intros [E N]. assert (r <> 0) by naive_solver. Z.div_mod_to_equations. lia.
Qed.

(** Adding the complement completes the sum to a multiple of 65535. *)
Lemma finish_sum_complete s :
  0 <= s <= U64MAX - W16 -> finish_sum (s + finish_sum s) = 0.
Proof.
  intros H. destruct (finish_sum_spec s) as (r & E & Hr & Hm & Hz); [unfold W16 in *; lia|].
  unfold W16 in *. rewrite E. apply finish_sum_zero_iff; [lia|]. split.
  - rewrite <- (Z.mod_add _ (-1)) by lia.
    replace (s + (65535 - r) + -1 * 65535) with (s - r) by lia.
    rewrite Zminus_mod, Hm, Z.sub_diag. done.
  - intros E0. assert (s = 0) by lia. naive_solver lia.
Qed.

(** UDP replaces a zero checksum by its other representation, [0xffff]. *)
Lemma finish_sum_complete_ffff s :
  0 <= s <= U64MAX - W16 -> finish_sum s = 0 -> finish_sum (s + 65535) = 0.
Proof.
  unfold W16. intros H E. apply finish_sum_zero_iff in E; [|lia]. apply finish_sum_zero_iff; [lia|].
  split; [|lia]. rewrite <- (Z.mod_add _ (-1)) by lia.
  replace (s + 65535 + -1 * 65535) with s by lia. apply E.
Qed.

(** ** The word sum *)
Lemma sum_words_bound b : bytes_ok b -> 0 <= sum_words b <= 65535 * zlen b.
Proof.
  revert b. fix IH 1. intros [|h [|l b]] Hb; simpl.
  - unfold zlen. simpl. lia.
  - apply Forall_cons in Hb as [Hh _]. unfold is_byte in Hh.
    rewrite Z.shiftl_mul_pow2 by lia. autorewrite with zlen. lia.
  - apply Forall_cons in Hb as [Hh Hb]. apply Forall_cons in Hb as [Hl Hb].
    specialize (IH b Hb). unfold is_byte, de16 in *. rewrite !zlen_cons. lia.
Qed.

Lemma sum_words_app l k :
  Nat.Even (length l) -> sum_words (l ++ k) = sum_words l + sum_words k.
Proof.
  revert l. fix IH 1. intros [|a [|b l]] H; simpl.
  - done.
  - destruct H as [n Hn]. simpl in Hn. lia.
  - rewrite IH; [lia|]. destruct H as [n Hn]. exists (n - 1)%nat. simpl in Hn. lia.
Qed.

Lemma sum_words_be16 v k : 0 <= v < W16 -> sum_words (be16 v ++ k) = v + sum_words k.
Proof. intros. unfold be16. simpl. by rewrite de16_be16. Qed.

(** A slice shorter than this cannot overflow the [u64] accumulator; a
    datagram has at most 65535 bytes. *)
Lemma sum_words_u64 b :
  bytes_ok b -> zlen b <= 281474976000000 -> 0 <= sum_words b <= U64MAX - W16.
Proof. intros H L. pose proof (sum_words_bound b H). unfold U64MAX, W16. lia. Qed.

(** Even-length chunks may be exchanged: the reply path swaps addresses and ports
    in place and relies on this. *)
Lemma sum_words_swap a b k :
  length a = length b -> Nat.Even (length a) ->
  sum_words (a ++ b ++ k) = sum_words (b ++ a ++ k).
Proof.
  intros E H. rewrite !sum_words_app; [lia|..]; try done; congruence.
Qed.

(** The completed message of a sender that starts from the pseudo-header sum [a]. *)
Lemma finish_sum_stored a pre post :
  0 <= a <= 4294967296 ->
  bytes_ok (pre ++ post) -> Nat.Even (length pre) -> zlen (pre ++ post) <= 281474976000 ->
  finish_sum (a + sum_words (pre ++ be16 (finish_sum (a + sum_words (pre ++ [0; 0] ++ post)))
                                 ++ post)) = 0.
Proof.
  intros Ha Hb He Hl. apply bytes_app in Hb as [Hp Hq]. rewrite zlen_app in Hl. pose_zlen.
  pose proof (sum_words_bound pre Hp). pose proof (sum_words_bound post Hq).
  rewrite !(sum_words_app pre) by done.
  set (s := a + (sum_words pre + sum_words ([0; 0] ++ post))).
  assert (s = a + sum_words pre + sum_words post) as Es by (unfold s; simpl; unfold de16; lia).
  assert (0 <= s <= U64MAX - W16) by (unfold U64MAX, W16; lia).
  rewrite sum_words_be16 by (apply finish_sum_range; unfold W16, U64MAX in *; lia).
  replace (_ + (_ + (_ + _))) with (s + finish_sum s) by lia.
  by apply finish_sum_complete.
Qed.

(** ** Properties *)

(** The checksum a sender computes over a message whose checksum field is
    zero makes the completed message verify: after [checksum(message)] is stored at
    an even offset, [checksum] of the whole message is zero.  This covers odd
    lengths and any contents. *)
Theorem checksum_stored_verifies pre post :
  bytes_ok (pre ++ post) -> Nat.Even (length pre) -> zlen (pre ++ post) <= 65535 ->
  checksum (pre ++ be16 (checksum (pre ++ [0; 0] ++ post)) ++ post) = 0.
Proof. intros. apply (finish_sum_stored 0); try done; lia. Qed.

(** Error detection: in a message that verifies, replacing one aligned 16-bit
    word by a value that is not congruent to it modulo 65535 (so anything except the
    two encodings of zero) makes verification fail. *)
Theorem checksum_detects_word_change pre w w' post :
  bytes_ok (pre ++ post) -> Nat.Even (length pre) -> zlen (pre ++ post) <= 65535 ->
  0 <= w < W16 -> 0 <= w' < W16 -> w mod 65535 <> w' mod 65535 ->
  checksum (pre ++ be16 w ++ post) = 0 -> checksum (pre ++ be16 w' ++ post) <> 0.
Proof.
  intros Hb He Hl Hw Hw' Hne. apply bytes_app in Hb as [Hp Hq]. rewrite zlen_app in Hl. pose_zlen.
  pose proof (sum_words_bound pre Hp). pose proof (sum_words_bound post Hq).
  unfold checksum. rewrite !(sum_words_app pre), !sum_words_be16 by done.
  unfold W16 in *. rewrite !finish_sum_zero_iff by (unfold U64MAX; lia).
  intros [E _] [E' _]. apply Hne.
  set (s := sum_words pre + sum_words post).
  replace (_ + (w + _)) with (w + s) in E by lia.
  replace (_ + (w' + _)) with (w' + s) in E' by lia.
  clearbody s. clear -E E'. Z.div_mod_to_equations. lia.
Qed.

Lemma checksum_stored_verifies_witness :
  checksum ([69; 0; 0; 28] ++ be16 (checksum ([69; 0; 0; 28] ++ [0; 0] ++ [7; 9; 200]))
            ++ [7; 9; 200]) = 0.
Proof.
  apply checksum_stored_verifies.
  - repeat constructor; unfold is_byte; lia.
  - by exists 2%nat.
  - vm_compute. discriminate.
Defined.

Lemma checksum_detects_word_change_witness :
  checksum ([69; 0] ++ be16 0x1234 ++ be16 0xa8cc) <> 0.
Proof.
  apply (checksum_detects_word_change [69; 0] 0x1233).
  - repeat constructor; unfold is_byte; vm_compute; intuition discriminate.
  - by exists 1%nat.
  - vm_compute. discriminate.
  - unfold W16. lia.
  - unfold W16. lia.
  - vm_compute. discriminate.
  - vm_compute. reflexivity.
Defined.

(** The values of the repository's own unit tests. *)
Example checksum_test_even : checksum [0; 1; 0xf2; 3; 0xf4; 0xf5; 0xf6; 0xf7] = 0x220d.
Proof. reflexivity. Qed.
Example checksum_test_odd : checksum [1; 2; 3] = 0xfbfd.
Proof. reflexivity. Qed.
