(* ===== verification/BufferPool.v ===== *)
(** * Frame pools and packet handles ([src/device/buffer_pool.rs])

    [PoolInner] is the shared arena with its LIFO free list; [PacketBuf] is an
    exclusive handle.  A handle carries the bytes of its frame ([buf_mem]): while it
    lives nothing else can reach them, and the bytes go back to the arena when the
    handle is dropped.  The pointer, the allocation layout and the owner that keeps a
    mapping alive have no counterpart.  [in_use] is the [debug_assertions] table, so
    the double-allocation and double-free panics of [mark_used] are modelled. *)
From Stdlib Require Import ZArith Lia Bool.
From stdpp Require Import base numbers option list.
From S2P Require Import Prelude.
#[local] Open Scope Z_scope.

(** ** Packet handles *)
Record PacketBuf : Type := mkPacketBuf {
  buf_mem : list Z;          (* the frame's bytes; capacity is their number *)
  data_offset : Z;
  buf_len : Z;
  buf_idx : Z;
  buf_pool : option Z        (* identity of the owning pool *)
}.
#[export] Instance eta_PacketBuf : Eta PacketBuf :=
  fun b => mkPacketBuf (buf_mem b) (data_offset b) (buf_len b) (buf_idx b) (buf_pool b).

(** [PacketBuf::default()], what [mem::take] leaves behind. *)
Definition packet_default : PacketBuf := mkPacketBuf [] 0 0 0 None.

Definition capacity (b : PacketBuf) : Z := zlen (buf_mem b).
Definition tail_capacity (b : PacketBuf) : Z := capacity b - data_offset b.
Definition is_empty (b : PacketBuf) : bool := buf_len b =? 0.

(** [as_slice]: [buf_len] bytes from [data_offset]. *)
Definition as_slice (b : PacketBuf) : list Z :=
  take (Z.to_nat (buf_len b)) (drop (Z.to_nat (data_offset b)) (buf_mem b)).

(** Writing through [as_mut_packet]: the packet bytes are replaced by as many bytes. *)
Definition store_packet (b : PacketBuf) (bytes : list Z) : PacketBuf :=
  b <| buf_mem := take (Z.to_nat (data_offset b)) (buf_mem b) ++ bytes
                  ++ drop (Z.to_nat (data_offset b + buf_len b)) (buf_mem b) |>.

Definition set_headroom (b : PacketBuf) (headroom : Z) : outcome PacketBuf :=
  if headroom <=? capacity b - buf_len b then Ok (b <| data_offset := headroom |>) else Panic.

Definition set_len (b : PacketBuf) (len : Z) : outcome PacketBuf :=
  if len <=? capacity b - data_offset b then Ok (b <| buf_len := len |>) else Panic.

Definition push_header (b : PacketBuf) (bytes : list Z) : outcome PacketBuf :=
  if zlen bytes <=? data_offset b then
    let b := b <| data_offset ::= fun o => o - zlen bytes |>
               <| buf_len ::= fun n => n + zlen bytes |> in
    let* p := copy_at (as_slice b) 0 bytes in
    Ok (store_packet b p)
  else Panic.

Definition pull_header (b : PacketBuf) (n : Z) : outcome PacketBuf :=
  if n <=? buf_len b then
    Ok (b <| data_offset ::= fun o => o + n |> <| buf_len ::= fun l => l - n |>)
  else Panic.

(** [into_parts]: the frame leaves the handle without returning to the pool. *)
Definition into_parts (b : PacketBuf) : Z * Z := (buf_idx b, buf_len b).

(** ** Frame pools *)
Record PoolInner : Type := mkPool {
  pool_id : Z;               (* identity of the [Rc] *)
  frame_size : Z;
  num_frames : Z;
  free_list : list Z;        (* [num_frames] cells, the first [free_count] are live *)
  free_count : Z;
  in_use : list bool;
  arena : list (list Z)      (* bytes of the frames *)
}.
#[export] Instance eta_PoolInner : Eta PoolInner :=
  fun p => mkPool (pool_id p) (frame_size p) (num_frames p) (free_list p) (free_count p)
                  (in_use p) (arena p).

Definition available (p : PoolInner) : Z := free_count p.

(** [0, 1, .., n - 1] *)
Definition indices (n : Z) : list Z := Z.of_nat <$> seq 0 (Z.to_nat n).

Definition build (id frame_size num_frames : Z) (arena : list (list Z)) : PoolInner :=
  mkPool id frame_size num_frames (reverse (indices num_frames)) num_frames
         (replicate (Z.to_nat num_frames) false) arena.

(** [FramePool::new]: the arena is zeroed once; [assert!] on the geometry and the
    [checked_mul] of the arena size ([usize] has 64 bits). *)
Definition pool_new (id num_frames frame_size : Z) : outcome PoolInner :=
  if (0 <? num_frames) && (0 <? frame_size) && (num_frames * frame_size <=? U64MAX)
  then Ok (build id frame_size num_frames
             (replicate (Z.to_nat num_frames) (replicate (Z.to_nat frame_size) 0)))
  else Panic.

Definition mark_used (p : PoolInner) (idx : Z) (used : bool) : outcome PoolInner :=
  let* old := get_at (in_use p) idx in
  if eqb old used then Panic
  else let* u := set_at (in_use p) idx used in Ok (p <| in_use := u |>).

Definition alloc (p : PoolInner) : outcome (option Z * PoolInner) :=
  let count := available p in
  if count =? 0 then Ok (None, p)
  else
    let* idx := get_at (free_list p) (count - 1) in
    let p := p <| free_count := count - 1 |> in
    let* p := mark_used p idx true in
    Ok (Some idx, p).

Definition free (p : PoolInner) (idx : Z) : outcome PoolInner :=
  let* p := mark_used p idx false in
  let count := available p in
  let* fl := set_at (free_list p) count idx in
  Ok (p <| free_list := fl |> <| free_count := count + 1 |>).

Fixpoint mark_all (p : PoolInner) (ids : list Z) (used : bool) : outcome PoolInner :=
  match ids with
  | [] => Ok p
  | i :: ids => let* p := mark_used p i used in mark_all p ids used
  end.

(** [alloc_n(&mut out[..limit])], returning the indices written to [out]. *)
Definition alloc_n (p : PoolInner) (limit : Z) : outcome (list Z * PoolInner) :=
  let count := available p in
  let n := Z.min limit count in
  let* ids := slice (free_list p) (count - n) count in
  let* p := mark_all p ids true in
  Ok (ids, p <| free_count := count - n |>).

Definition free_n (p : PoolInner) (ids : list Z) : outcome PoolInner :=
  let count := available p in
  let* p := mark_all p ids false in
  let* fl := copy_at (free_list p) count ids in
  Ok (p <| free_list := fl |> <| free_count := count + zlen ids |>).

Definition packet_buf (p : PoolInner) (idx len : Z) : outcome PacketBuf :=
  if (idx <? num_frames p) && (len <=? frame_size p) then
    let* m := get_at (arena p) idx in
    Ok (mkPacketBuf m
          (Z.min (Z.min (frame_size p / 4) 128) (frame_size p - len)) len idx (Some (pool_id p)))
  else Panic.

Fixpoint packet_bufs (p : PoolInner) (ids : list Z) : outcome (list PacketBuf) :=
  match ids with
  | [] => Ok []
  | i :: ids => let* b := packet_buf p i 0 in let* bs := packet_bufs p ids in Ok (b :: bs)
  end.

(** The [while total < max] loop of [alloc_batch], 64 indices at a time. *)
Fixpoint alloc_batch_loop (fuel : nat) (p : PoolInner) (max total : Z) (out : list PacketBuf)
  : outcome (Z * list PacketBuf * PoolInner) :=
  if total <? max then
    match fuel with
    | O => OutOfFuel
    | S fuel =>
        let limit := Z.min 64 (max - total) in
        let* '(ids, p) := alloc_n p limit in
        let* bufs := packet_bufs p ids in
        let n := zlen ids in
        if n <? limit then Ok (total + n, out ++ bufs, p)
        else alloc_batch_loop fuel p max (total + n) (out ++ bufs)
    end
  else Ok (total, out, p).

Definition alloc_batch (p : PoolInner) (max : Z) (out : list PacketBuf)
  : outcome (Z * list PacketBuf * PoolInner) :=
  alloc_batch_loop (S (Z.to_nat max)) p max 0 out.

(** [Drop for PacketBuf]: the frame and its bytes return to the owning pool. *)
Definition drop_packet (p : PoolInner) (b : PacketBuf) : outcome PoolInner :=
  match buf_pool b with
  | Some id =>
      if id =? pool_id p then
        let* p := free p (buf_idx b) in
        let* a := set_at (arena p) (buf_idx b) (buf_mem b) in
        Ok (p <| arena := a |>)
      else Ok p
  | None => Ok p
  end.

(** [alloc] as every backend offers it: [pool.packet_buf(pool.alloc()?, 0)]. *)
Definition alloc_packet (p : PoolInner) : outcome (option PacketBuf * PoolInner) :=
  let* '(i, p) := alloc p in
  match i with
  | None => Ok (None, p)
  | Some i => let* b := packet_buf p i 0 in Ok (Some b, p)
  end.

(** ** The ownership invariant

    [held] lists the frames that live outside the free list: in a handle, or owned by
    the kernel.  Free and held frames together are exactly the frames of the arena, so
    no frame has two owners and none is lost. *)
Definition flags_ok (u : list bool) (n : Z) (held : list Z) : Prop :=
  length u = Z.to_nat n /\
  forall i, i ∈ indices n -> u !! Z.to_nat i = Some (bool_decide (i ∈ held)).

Record pool_inv (p : PoolInner) (held : list Z) : Prop := {
  inv_size : 0 < frame_size p;
  inv_num : 0 <= num_frames p;
  inv_count : 0 <= free_count p <= num_frames p;
  inv_cells : length (free_list p) = Z.to_nat (num_frames p);
  inv_arena : length (arena p) = Z.to_nat (num_frames p);
  inv_frames : Forall (fun m => zlen m = frame_size p) (arena p);
  inv_flags : flags_ok (in_use p) (num_frames p) held;
  inv_part : take (Z.to_nat (free_count p)) (free_list p) ++ held ≡ₚ indices (num_frames p)
}.

Lemma elem_of_indices i n : i ∈ indices n <-> 0 <= i < n.
Proof.
  unfold indices. rewrite list_elem_of_fmap. split.
  - intros (k & -> & Hk). apply elem_of_seq in Hk. lia.
  - intros H. exists (Z.to_nat i). rewrite elem_of_seq. lia.
Qed.
Lemma NoDup_indices n : NoDup (indices n).
Proof. unfold indices. apply NoDup_fmap_2; [apply _|]. apply NoDup_seq. Qed.
Lemma length_indices n : length (indices n) = Z.to_nat n.
Proof. unfold indices. by rewrite length_fmap, length_seq. Qed.

Section PoolLemmas.
Context (p : PoolInner) (held : list Z) (I : pool_inv p held).

Lemma inv_nodup : NoDup (take (Z.to_nat (free_count p)) (free_list p) ++ held).
Proof. rewrite (inv_part _ _ I). apply NoDup_indices. Qed.

(** Every frame is free or held, and the numbers add up. *)
Lemma inv_sum : free_count p + zlen held = num_frames p.
Proof.
  pose proof (Permutation_length (inv_part _ _ I)) as E.
  rewrite length_app, length_indices, length_take, (inv_cells _ _ I) in E.
  pose proof (inv_count _ _ I). unfold zlen. lia.
Qed.

Lemma inv_held_range i : i ∈ held -> 0 <= i < num_frames p.
Proof.
  intros H. apply elem_of_indices. rewrite <- (inv_part _ _ I). apply elem_of_app. by right.
Qed.

Lemma inv_free_range i :
  i ∈ take (Z.to_nat (free_count p)) (free_list p) -> 0 <= i < num_frames p /\ i ∉ held.
Proof.
  intros H. split.
  - apply elem_of_indices. rewrite <- (inv_part _ _ I). apply elem_of_app. by left.
  - pose proof inv_nodup as N. apply NoDup_app in N as (_ & D & _). by apply D.
Qed.
End PoolLemmas.

(** Marking a frame flips exactly its flag, and does not panic when it changes hands. *)
Lemma mark_used_spec p i (used : bool) held held' :
  flags_ok (in_use p) (num_frames p) held -> 0 <= i < num_frames p ->
  bool_decide (i ∈ held) = negb used -> bool_decide (i ∈ held') = used ->
  (forall j, j <> i -> j ∈ held' <-> j ∈ held) ->
  exists u, mark_used p i used = Ok (p <| in_use := u |>) /\ flags_ok u (num_frames p) held'.
Proof.
  intros [Hl Hf] Hi Hold Hnew Hrest. pose proof (Hf i (proj2 (elem_of_indices _ _) Hi)) as E.
  exists (<[Z.to_nat i := used]> (in_use p)). split.
  - unfold mark_used. rewrite (get_at_ok (in_use p) i _ ltac:(lia) E), Hold. simpl.
    replace (eqb (negb used) used) with false by (by destruct used).
    rewrite set_at_ok; [done|]. unfold zlen. lia.
  - split; [by rewrite length_insert|]. intros j Hj.
    destruct (decide (j = i)) as [->|Hne].
    + rewrite list_lookup_insert_eq by lia. by rewrite Hnew.
    + apply elem_of_indices in Hj as Hj'. rewrite list_lookup_insert_ne by lia.
      rewrite (Hf j Hj). f_equal. apply bool_decide_ext. symmetry. by apply Hrest.
Qed.

Lemma mark_all_spec ids p (used : bool) held held' :
  flags_ok (in_use p) (num_frames p) held -> NoDup ids ->
  (forall i, i ∈ ids -> 0 <= i < num_frames p) ->
  (forall i, i ∈ ids -> bool_decide (i ∈ held) = negb used) ->
  (forall i, i ∈ ids -> bool_decide (i ∈ held') = used) ->
  (forall j, j ∉ ids -> j ∈ held' <-> j ∈ held) ->
  exists u, mark_all p ids used = Ok (p <| in_use := u |>) /\ flags_ok u (num_frames p) held'.
Proof.
  revert p held. induction ids as [|i ids IH]; intros p held Hf Hnd Hr Hold Hnew Hrest; simpl.
  - exists (in_use p). split; [by destruct p|]. destruct Hf as [Hl Hf]. split; [done|].
    intros i Hi. rewrite (Hf i Hi). f_equal. apply bool_decide_ext. symmetry. apply Hrest, not_elem_of_nil.
  - apply NoDup_cons in Hnd as [Hni Hnd].
    set (mid := if used then i :: held else filter (fun j => j <> i) held).
    assert (forall j, j ∈ mid <-> if used then j = i \/ j ∈ held else j ∈ held /\ j <> i) as Hm.
    { intros j. unfold mid. destruct used; [by rewrite elem_of_cons|].
      rewrite list_elem_of_filter. tauto. }
    destruct (mark_used_spec p i used held mid) as (u & -> & Hu); try done.
    + apply Hr, elem_of_cons. by left.
    + apply Hold, elem_of_cons. by left.
    + specialize (Hm i).
      destruct used; [apply bool_decide_eq_true|apply bool_decide_eq_false]; rewrite Hm; tauto.
    + intros j Hj. rewrite Hm. destruct used; tauto.
    + simpl. destruct (IH (p <| in_use := u |>) mid) as (u' & E & Hu'); try done.
      * intros j Hj. apply Hr, elem_of_cons. by right.
      * intros j Hj. assert (j <> i) by congruence.
        rewrite <- (Hold j) by (apply elem_of_cons; by right).
        apply bool_decide_ext. rewrite Hm. destruct used; tauto.
      * intros j Hj. apply Hnew, elem_of_cons. by right.
      * intros j Hj. destruct (decide (j = i)) as [->|Hne].
        -- assert (bool_decide (i ∈ held') = used) as Hi by (apply Hnew, elem_of_cons; by left).
           rewrite Hm. destruct used.
           ++ apply bool_decide_eq_true in Hi. tauto.
           ++ apply bool_decide_eq_false in Hi. tauto.
        -- rewrite (Hrest j) by (rewrite elem_of_cons; tauto). rewrite Hm. destruct used; tauto.
      * exists u'. split; [|done]. etrans; [exact E|]. by destruct p.
Qed.

(** The live part of the free list, split at [k]. *)
Lemma take_split {A} (l : list A) (a b : nat) :
  (a <= b)%nat -> take b l = take a l ++ take (b - a) (drop a l).
Proof. intros. rewrite take_take_drop. f_equal. lia. Qed.

(** ** Pool operations keep the invariant *)

(** A fresh pool owns all its frames. *)
Lemma build_inv id n fs a :
  0 <= n -> 0 < fs -> length a = Z.to_nat n -> Forall (fun m => zlen m = fs) a -> pool_inv (build id fs n a) [].
Proof.
  intros Hn Hf La Fa. constructor; simpl; try done; try lia.
  - by rewrite length_reverse, length_indices.
  - split; [by rewrite length_replicate|]. intros i Hi. apply elem_of_indices in Hi.
    by rewrite lookup_replicate_2 by lia.
  - rewrite app_nil_r, take_ge by (rewrite length_reverse, length_indices; lia).
    apply reverse_Permutation.
Qed.
Lemma pool_new_inv id n fs p : pool_new id n fs = Ok p -> pool_inv p [].
Proof.
  unfold pool_new. destruct (_ && _) eqn:E; [|done]. bools. intros [= <-].
  apply build_inv; [lia|lia|by rewrite length_replicate|]. apply Forall_replicate. autorewrite with zlen. lia.
Qed.

Lemma pool_new_zeroed id n fs p :
  pool_new id n fs = Ok p -> Forall bytes_ok (arena p) /\ frame_size p = fs /\ pool_id p = id.
Proof.
  unfold pool_new. destruct (_ && _); [|done]. intros E. injection E as <-. split; [|done].
  apply Forall_replicate, bytes_zeros.
Qed.

Lemma alloc_empty p held : pool_inv p held -> free_count p = 0 -> alloc p = Ok (None, p).
Proof. intros _ E. unfold alloc, available. by rewrite E. Qed.

Lemma alloc_some p held :
  pool_inv p held -> 0 < free_count p ->
  exists i p', alloc p = Ok (Some i, p') /\ i ∉ held /\ 0 <= i < num_frames p
    /\ pool_inv p' (i :: held) /\ free_count p' = free_count p - 1
    /\ arena p' = arena p /\ pool_id p' = pool_id p /\ frame_size p' = frame_size p
    /\ num_frames p' = num_frames p.
Proof.
  intros I Hc. pose proof (inv_count _ _ I) as Hn. pose proof (inv_cells _ _ I) as Hl.
  destruct (lookup_lt_is_Some_2 (free_list p) (Z.to_nat (free_count p - 1))) as [i Hi]; [lia|].
  assert (take (Z.to_nat (free_count p)) (free_list p)
          = take (Z.to_nat (free_count p - 1)) (free_list p) ++ [i]) as Et.
  { replace (Z.to_nat (free_count p)) with (S (Z.to_nat (free_count p - 1))) by lia.
    by apply take_S_r. }
  destruct (inv_free_range _ _ I i) as [Hr Hni].
  { rewrite Et. apply elem_of_app. right. by apply list_elem_of_singleton. }
  unfold alloc, available. rewrite (proj2 (Z.eqb_neq _ _)) by lia.
  rewrite (get_at_ok (free_list p) (free_count p - 1) i) by (done || lia). cbn [obind].
  destruct (mark_used_spec (p <| free_count := free_count p - 1 |>) i true held (i :: held))
    as (u & -> & Hu); simpl; try done.
  - apply (inv_flags _ _ I).
  - by apply bool_decide_eq_false.
  - apply bool_decide_eq_true, elem_of_cons. by left.
  - intros j Hj. rewrite elem_of_cons. tauto.
  - eexists i, _. split; [done|]. split; [done|]. split; [done|].
    split; [|done]. destruct I. constructor; simpl in *; try done; try lia.
    rewrite <- inv_part0, Et, <- (app_assoc _ [i]). done.
Qed.

Lemma free_spec p held held' i :
  pool_inv p held -> held ≡ₚ i :: held' ->
  exists p', free p i = Ok p' /\ pool_inv p' held' /\ free_count p' = free_count p + 1
    /\ arena p' = arena p /\ pool_id p' = pool_id p /\ frame_size p' = frame_size p
    /\ num_frames p' = num_frames p.
Proof.
  intros I Hp. assert (i ∈ held) as Hi by (rewrite Hp; apply elem_of_cons; by left).
  pose proof (inv_held_range _ _ I _ Hi) as Hr.
  pose proof (inv_sum _ _ I) as Hs.
  assert (zlen held = 1 + zlen held') as Hl
    by (unfold zlen; rewrite (Permutation_length Hp); simpl; lia).
  assert (i ∉ held') as Hni.
  { pose proof (inv_nodup _ _ I) as N. apply NoDup_app in N as (_ & _ & N).
    rewrite Hp in N. by apply NoDup_cons in N as [? _]. }
  pose proof (zlen_nonneg held'). pose proof (inv_count _ _ I). pose proof (inv_cells _ _ I) as Hc.
  unfold free.
  destruct (mark_used_spec p i false held held') as (u & -> & Hu); try done.
  - apply (inv_flags _ _ I).
  - by apply bool_decide_eq_true.
  - by apply bool_decide_eq_false.
  - intros j Hj. rewrite Hp, elem_of_cons. tauto.
  - simpl. unfold available. simpl. rewrite set_at_ok by (unfold zlen; lia).
    eexists. split; [done|]. split; [|done].
    destruct I. constructor; simpl in *; try done; try lia.
    + by rewrite length_insert.
    + replace (Z.to_nat (free_count p + 1)) with (S (Z.to_nat (free_count p))) by lia.
      rewrite (take_S_r _ _ i) by (apply list_lookup_insert_eq; lia).
      rewrite take_insert_ge by lia. rewrite <- inv_part0, Hp, <- app_assoc. done.
Qed.

(** [alloc] hands out each frame at most once: from a pool in which [held] lists the
    frames outside the free list it returns a frame that nobody holds and keeps the
    partition of frames into free and held ones, or it returns [None], and then every
    frame is held.  It never panics (the debug check for double allocation included). *)
Theorem alloc_exclusive p held :
  pool_inv p held ->
  match alloc p with
  | Ok (Some i, p') => i ∉ held /\ 0 <= i < num_frames p /\ pool_inv p' (i :: held)
  | Ok (None, p') => p' = p /\ zlen held = num_frames p
  | _ => False
  end.
Proof.
  intros I. destruct (decide (free_count p = 0)) as [E|E].
  - rewrite (alloc_empty p held) by done. split; [done|]. pose proof (inv_sum _ _ I). lia.
  - pose proof (inv_count _ _ I).
    destruct (alloc_some p held I ltac:(lia)) as (i & p' & -> & ? & ? & ? & _). done.
Qed.

(** A frame that is already free cannot be freed again: the debug assertion fires. *)
Lemma free_twice_panics p held i :
  pool_inv p held -> 0 <= i < num_frames p -> i ∉ held -> free p i = Panic.
Proof.
  intros I Hr Hi. destruct (inv_flags _ _ I) as [_ Hf].
  specialize (Hf i (proj2 (elem_of_indices _ _) Hr)).
  unfold free, mark_used. rewrite (get_at_ok (in_use p) i _ ltac:(lia) Hf).
  by rewrite bool_decide_eq_false_2.
Qed.

(** Freeing a held frame returns exactly that frame to the free list and keeps
    the ownership invariant; freeing a frame that is not held panics instead of putting
    it on the free list twice. *)
Theorem free_returns_frame p held i :
  pool_inv p held -> 0 <= i < num_frames p ->
  (i ∈ held -> exists p' held', free p i = Ok p' /\ held ≡ₚ i :: held' /\ pool_inv p' held'
                 /\ available p' = available p + 1) /\
  (i ∉ held -> free p i = Panic).
Proof.
  intros I Hr. split; [|by apply free_twice_panics].
  intros Hi. apply elem_of_Permutation in Hi as [held' Hp].
  destruct (free_spec p held held' i I Hp) as (p' & E & I' & Hc & _). eauto 6.
Qed.

(** The invariant does not depend on the order in which frames are listed. *)
#[export] Instance pool_inv_proper p : Proper ((≡ₚ) ==> iff) (pool_inv p).
Proof.
  assert (forall h k, h ≡ₚ k -> pool_inv p h -> pool_inv p k) as H.
  { intros h k E [? ? ? ? ? ? [Fl Ff] P]. constructor; try done; [|by rewrite <- E].
    split; [done|]. intros i Hi. rewrite (Ff i Hi). f_equal. apply bool_decide_ext. by rewrite E. }
  intros h k E. split; apply H; [done|by symmetry].
Qed.

Lemma alloc_n_spec p held limit :
  pool_inv p held -> 0 <= limit ->
  exists ids p', alloc_n p limit = Ok (ids, p') /\ zlen ids = Z.min limit (free_count p)
    /\ Forall (fun i => 0 <= i < num_frames p) ids
    /\ pool_inv p' (ids ++ held) /\ free_count p' = free_count p - zlen ids
    /\ arena p' = arena p /\ pool_id p' = pool_id p /\ frame_size p' = frame_size p
    /\ num_frames p' = num_frames p.
Proof.
  intros I Hl. pose proof (inv_count _ _ I) as Hn. pose proof (inv_cells _ _ I) as Hc.
  unfold alloc_n, available. set (n := Z.min limit (free_count p)).
  rewrite slice_ok by (unfold zlen; lia). cbn [obind].
  set (ids := take _ (drop _ _)).
  assert (take (Z.to_nat (free_count p)) (free_list p)
          = take (Z.to_nat (free_count p - n)) (free_list p) ++ ids) as Et.
  { unfold ids. rewrite take_take_drop. f_equal. lia. }
  assert (zlen ids = n) as Elen by (unfold ids; autorewrite with zlen; unfold zlen; lia).
  assert (forall i, i ∈ ids -> 0 <= i < num_frames p /\ i ∉ held) as Hids.
  { intros i Hi. apply (inv_free_range _ _ I). rewrite Et. apply elem_of_app. by right. }
  assert (NoDup ids) as Hnd.
  { pose proof (inv_nodup _ _ I) as N. rewrite Et in N.
    by apply NoDup_app in N as [(_ & _ & ?)%NoDup_app _]. }
  destruct (mark_all_spec ids p true held (ids ++ held)) as (u & -> & Hu); try done.
  - apply (inv_flags _ _ I).
  - intros i Hi. by apply Hids.
  - intros i Hi. by apply bool_decide_eq_false, Hids.
  - intros i Hi. apply bool_decide_eq_true, elem_of_app. by left.
  - intros j Hj. rewrite elem_of_app. tauto.
  - exists ids. eexists. split; [done|]. split; [done|]. split.
    { apply Forall_forall. intros i Hi. by apply Hids. }
    split; [|repeat split; simpl; lia]. destruct I. constructor; simpl in *; try done; try lia.
    rewrite <- inv_part0, Et, <- app_assoc. done.
Qed.

Lemma free_n_spec p held held' ids :
  pool_inv p held -> held ≡ₚ ids ++ held' ->
  exists p', free_n p ids = Ok p' /\ pool_inv p' held'
    /\ free_count p' = free_count p + zlen ids /\ arena p' = arena p /\ pool_id p' = pool_id p
    /\ frame_size p' = frame_size p /\ num_frames p' = num_frames p.
Proof.
  intros I Hp. pose proof (inv_sum _ _ I) as Hs.
  assert (zlen held = zlen ids + zlen held') as Hl
    by (unfold zlen; rewrite (Permutation_length Hp), length_app; lia).
  assert (NoDup (ids ++ held')) as Hnd.
  { pose proof (inv_nodup _ _ I) as N. apply NoDup_app in N as (_ & _ & N). by rewrite <- Hp. }
  apply NoDup_app in Hnd as (Hnd & Hdis & _).
  pose proof (inv_count _ _ I). pose proof (inv_cells _ _ I) as Hc. pose_zlen.
  unfold free_n, available.
  destruct (mark_all_spec ids p false held held') as (u & -> & Hu); try done.
  - apply (inv_flags _ _ I).
  - intros i Hi. apply (inv_held_range _ _ I). rewrite Hp. apply elem_of_app. by left.
  - intros i Hi. apply bool_decide_eq_true. rewrite Hp. apply elem_of_app. by left.
  - intros i Hi. apply bool_decide_eq_false. by apply Hdis.
  - intros j Hj. rewrite Hp, elem_of_app. tauto.
  - cbn [obind]. simpl. assert (zlen (free_list p) = num_frames p) by (unfold zlen; lia).
    rewrite copy_at_ok by lia. eexists. split; [done|]. split; [|repeat split; simpl; lia].
    destruct I. constructor; simpl in *; try done; try lia.
    + rewrite !length_app, length_take, length_drop. unfold zlen in *. lia.
    + replace (Z.to_nat (free_count p + zlen ids)) with (Z.to_nat (free_count p) + length ids)%nat
        by (unfold zlen; lia).
      rewrite app_assoc, take_app_length' by (rewrite length_app, length_take; unfold zlen in *; lia).
      rewrite <- inv_part0, Hp, <- app_assoc. done.
Qed.

(** A handle fresh from [packet_buf(idx, 0)]. *)
Definition fresh_buf (p : PoolInner) (b : PacketBuf) : Prop :=
  buf_len b = 0 /\ buf_pool b = Some (pool_id p) /\ capacity b = frame_size p
  /\ 0 <= data_offset b <= frame_size p /\ buf_mem b ∈ arena p.

Lemma packet_buf_spec p held i :
  pool_inv p held -> 0 <= i < num_frames p ->
  exists b, packet_buf p i 0 = Ok b /\ buf_idx b = i /\ fresh_buf p b.
Proof.
  intros I Hi. pose proof (inv_arena _ _ I). pose proof (inv_size _ _ I).
  destruct (lookup_lt_is_Some_2 (arena p) (Z.to_nat i)) as [m Hm]; [lia|].
  unfold packet_buf. rewrite (proj2 (Z.ltb_lt _ _)) by lia. rewrite (proj2 (Z.leb_le _ _)) by lia.
  simpl. rewrite (get_at_ok (arena p) i m) by (done || lia). eexists. split; [done|].
  simpl. split; [done|]. split; [done|]. split; [done|]. unfold capacity. simpl. split; [|split].
  - pose proof (inv_frames _ _ I) as F. rewrite Forall_lookup in F. eauto.
  - pose proof (Z.div_pos (frame_size p) 4). lia.
  - by eapply list_elem_of_lookup_2.
Qed.

Lemma packet_bufs_spec p held ids :
  pool_inv p held -> Forall (fun i => 0 <= i < num_frames p) ids ->
  exists bs, packet_bufs p ids = Ok bs /\ buf_idx <$> bs = ids /\ Forall (fresh_buf p) bs.
Proof.
  intros I. induction ids as [|i ids IH]; intros H; simpl; [by exists []|].
  apply Forall_cons in H as [Hi H]. destruct (packet_buf_spec p held i I Hi) as (b & -> & Hb & Fb).
  destruct (IH H) as (bs & -> & Hbs & Fbs). exists (b :: bs). split; [done|].
  rewrite fmap_cons, Hb, Hbs. split; [done|]. by constructor.
Qed.

(** Pools that differ only in their free list. *)
Definition same_frames (p p' : PoolInner) : Prop :=
  arena p' = arena p /\ pool_id p' = pool_id p /\ frame_size p' = frame_size p
  /\ num_frames p' = num_frames p.
Lemma same_frames_fresh p p' b : same_frames p p' -> fresh_buf p' b -> fresh_buf p b.
Proof. intros (E1 & E2 & E3 & _). unfold fresh_buf. by rewrite E1, E2, E3. Qed.

Lemma alloc_batch_loop_spec fuel p held max total out :
  pool_inv p held -> 0 <= total -> max - total < Z.of_nat fuel ->
  exists bs p', alloc_batch_loop fuel p max total out
                = Ok (total + zlen bs, out ++ bs, p')
    /\ zlen bs = Z.max 0 (Z.min (max - total) (free_count p))
    /\ pool_inv p' ((buf_idx <$> bs) ++ held)
    /\ same_frames p p' /\ Forall (fresh_buf p) bs.
Proof.
  revert p held total out. induction fuel as [|fuel IH]; intros p held total out I H0 Hf;
    unfold alloc_batch_loop; fold alloc_batch_loop.
  - rewrite (proj2 (Z.ltb_ge _ _)) by lia. exists [], p. rewrite app_nil_r, zlen_nil, Z.add_0_r.
    pose proof (inv_count _ _ I). split; [done|]. split; [lia|done].
  - pose proof (inv_count _ _ I). destruct (total <? max) eqn:E; bools.
    2:{ exists [], p. rewrite app_nil_r, zlen_nil, Z.add_0_r. split; [done|]. split; [lia|done]. }
    destruct (alloc_n_spec p held (Z.min 64 (max - total)) I ltac:(lia))
      as (ids & p' & -> & Hlen & Hr & I' & Hc & Ha & Hid & Hsz & Hnum).
    assert (same_frames p p') as Sf by done.
    cbn [obind]. rewrite <- Hnum in Hr.
    destruct (packet_bufs_spec p' _ ids I' Hr) as (bs & -> & Hbs & Fbs). cbn [obind].
    assert (Forall (fresh_buf p) bs) as Fp
      by (eapply Forall_impl; [exact Fbs|]; intros b; by apply same_frames_fresh).
    assert (zlen bs = zlen ids) as Hz by (unfold zlen; rewrite <- Hbs, length_fmap; done).
    destruct (zlen ids <? Z.min 64 (max - total)) eqn:E2; bools.
    + exists bs, p'. rewrite Hz, Hbs. split; [done|]. split; [lia|done].
    + destruct (IH p' _ (total + zlen ids) (out ++ bs) I' ltac:(lia) ltac:(lia))
        as (bs2 & p2 & -> & Hl2 & I2 & Sf2 & F2).
      exists (bs ++ bs2), p2. rewrite zlen_app, Hz, <- app_assoc, Z.add_assoc.
      split; [done|]. split; [lia|]. split.
      { rewrite fmap_app, Hbs. rewrite (Permutation_app_comm ids). by rewrite <- app_assoc. }
      split; [unfold same_frames in *; intuition congruence|].
      apply Forall_app. split; [done|].
      eapply Forall_impl; [exact F2|]. intros b. by apply same_frames_fresh.
Qed.

(** [alloc_batch] from an empty vector. *)
Lemma alloc_batch_spec p held max :
  pool_inv p held -> 0 <= max ->
  exists bs p', alloc_batch p max [] = Ok (zlen bs, bs, p')
    /\ zlen bs = Z.min max (free_count p) /\ pool_inv p' ((buf_idx <$> bs) ++ held)
    /\ same_frames p p' /\ Forall (fresh_buf p) bs.
Proof.
  intros I Hm. pose proof (inv_count _ _ I).
  destruct (alloc_batch_loop_spec (S (Z.to_nat max)) p held max 0 [] I)
    as (bs & p' & E & Hl & I' & S' & F'); [lia..|].
  exists bs, p'. unfold alloc_batch. rewrite E. split; [done|]. split; [lia|done].
Qed.

(** [alloc] of a backend: a fresh handle, or an exhausted pool. *)
Lemma alloc_packet_spec p held :
  pool_inv p held ->
  alloc_packet p = Ok (None, p) /\ free_count p = 0 \/
  exists b p', alloc_packet p = Ok (Some b, p') /\ pool_inv p' (buf_idx b :: held)
    /\ same_frames p p' /\ fresh_buf p b.
Proof.
  intros I. unfold alloc_packet. destruct (decide (free_count p = 0)) as [E|E].
  - left. by rewrite (alloc_empty p held I E).
  - right. pose proof (inv_count _ _ I).
    destruct (alloc_some p held I ltac:(lia)) as (i & p' & -> & _ & Hr & I' & _ & Ha & Hid & Hsz & Hn).
    assert (same_frames p p') as Sf by done.
    cbn [obind]. destruct (packet_buf_spec p' _ i I' ltac:(lia)) as (b & -> & <- & Fb).
    exists b, p'. split_and!; try done. by eapply same_frames_fresh.
Qed.

(** [alloc_batch] is total and allocates exactly [min(max, available)] fresh frames:
    the loop in chunks of 64 ends, appends that many handles to [out], returns
    their number, and the new handles own frames that nobody else holds. *)
Theorem alloc_batch_exact p held max out :
  pool_inv p held -> 0 <= max ->
  exists bs p', alloc_batch p max out = Ok (zlen bs, out ++ bs, p')
    /\ zlen bs = Z.min max (available p)
    /\ pool_inv p' ((buf_idx <$> bs) ++ held).
Proof.
  intros I Hm. pose proof (inv_count _ _ I).
  destruct (alloc_batch_loop_spec (S (Z.to_nat max)) p held max 0 out I)
    as (bs & p' & E & Hl & I' & _); [lia..|].
  exists bs, p'. unfold alloc_batch. rewrite E. split; [done|]. split; [unfold available; lia|done].
Qed.

(** ** Packet handles *)
Definition buf_wf (b : PacketBuf) : Prop :=
  0 <= data_offset b /\ 0 <= buf_len b /\ data_offset b + buf_len b <= capacity b.

Lemma zlen_as_slice b : buf_wf b -> zlen (as_slice b) = buf_len b.
Proof.
  unfold buf_wf, as_slice, capacity. intros. autorewrite with zlen. lia.
Qed.

Lemma set_len_spec b n :
  buf_wf b -> 0 <= n <= tail_capacity b ->
  set_len b n = Ok (b <| buf_len := n |>) /\ buf_wf (b <| buf_len := n |>).
Proof.
  unfold buf_wf, tail_capacity, set_len, capacity. intros H Hn. simpl.
  rewrite (proj2 (Z.leb_le _ _)) by lia. split; [done|]. lia.
Qed.

Lemma store_packet_spec b bytes :
  buf_wf b -> zlen bytes = buf_len b ->
  buf_wf (store_packet b bytes) /\ as_slice (store_packet b bytes) = bytes
  /\ capacity (store_packet b bytes) = capacity b.
Proof.
  unfold buf_wf, as_slice, store_packet, capacity. simpl. intros H E.
  rewrite drop_app_length' by (rewrite length_take; unfold zlen in *; lia).
  rewrite take_app_length' by (unfold zlen in *; lia).
  autorewrite with zlen. split; [|split; [done|]]; pose_zlen; lia.
Qed.

Lemma store_packet_bytes b bytes :
  bytes_ok (buf_mem b) -> bytes_ok bytes -> bytes_ok (buf_mem (store_packet b bytes)).
Proof. intros. unfold store_packet. simpl. rewrite !bytes_app. eauto with net. Qed.

Lemma push_header_spec b bytes :
  buf_wf b -> zlen bytes <= data_offset b ->
  exists b', push_header b bytes = Ok b' /\ buf_wf b' /\ as_slice b' = bytes ++ as_slice b
    /\ data_offset b' = data_offset b - zlen bytes /\ buf_len b' = buf_len b + zlen bytes
    /\ capacity b' = capacity b /\ buf_idx b' = buf_idx b /\ buf_pool b' = buf_pool b.
Proof.
  intros H L. pose proof (zlen_nonneg bytes). unfold push_header.
  rewrite (proj2 (Z.leb_le _ _)) by done. cbv zeta.
  set (b1 := b <| data_offset ::= _ |> <| buf_len ::= _ |>).
  assert (buf_wf b1) as W1 by (unfold b1, buf_wf, capacity in *; simpl; lia).
  assert (drop (length bytes) (as_slice b1) = as_slice b) as Ed.
  { unfold as_slice, b1. simpl. rewrite skipn_firstn_comm, drop_drop.
    unfold buf_wf, zlen in *. f_equal; [lia|]. f_equal. lia. }
  rewrite copy_at_ok by (try rewrite zlen_as_slice by done; unfold b1, buf_wf in *; simpl in *; lia).
  cbn [obind]. change (Z.to_nat 0) with 0%nat. rewrite take_0, Nat.add_0_l, Ed. simpl app.
  assert (zlen (bytes ++ as_slice b) = buf_len b1) as El.
  { rewrite zlen_app, zlen_as_slice by done. unfold b1. simpl. lia. }
  destruct (store_packet_spec b1 _ W1 El) as (W & S & C).
  eexists. split; [done|]. split; [done|]. split; [done|]. rewrite C. by unfold b1.
Qed.

Lemma pull_header_spec b n :
  buf_wf b -> 0 <= n <= buf_len b ->
  exists b', pull_header b n = Ok b' /\ buf_wf b' /\ as_slice b' = drop (Z.to_nat n) (as_slice b)
    /\ data_offset b' = data_offset b + n /\ buf_len b' = buf_len b - n
    /\ capacity b' = capacity b /\ buf_idx b' = buf_idx b /\ buf_pool b' = buf_pool b.
Proof.
  intros H Hn. unfold pull_header. rewrite (proj2 (Z.leb_le _ _)) by lia.
  eexists. split; [done|]. unfold buf_wf, capacity, as_slice in *. simpl. split; [lia|].
  split; [|done]. rewrite skipn_firstn_comm, drop_drop. f_equal; [lia|]. f_equal. lia.
Qed.

(** Prepending a header and removing it again is the identity on the packet: with
    enough headroom [push_header] makes the packet [header ++ packet] without touching
    the payload, and [pull_header] restores offset, length and contents. *)
Theorem push_pull_roundtrip b header :
  buf_wf b -> zlen header <= data_offset b ->
  exists b1 b2, push_header b header = Ok b1 /\ as_slice b1 = header ++ as_slice b
    /\ pull_header b1 (zlen header) = Ok b2 /\ as_slice b2 = as_slice b
    /\ data_offset b2 = data_offset b /\ buf_len b2 = buf_len b /\ buf_wf b2.
Proof.
  intros H L. destruct (push_header_spec b header H L) as (b1 & E1 & W1 & S1 & O1 & L1 & _).
  pose proof (zlen_nonneg header).
  destruct (pull_header_spec b1 (zlen header) W1) as (b2 & E2 & W2 & S2 & O2 & L2 & _).
  { unfold buf_wf in *. lia. }
  exists b1, b2. split_and!; try done; try lia.
  rewrite S2, S1. unfold zlen. rewrite Nat2Z.id. apply drop_app_length.
Qed.

(** Dropping a handle gives its frame back, with the bytes the handle left in it. *)
Lemma drop_packet_spec p held held' b :
  pool_inv p held -> buf_pool b = Some (pool_id p) -> capacity b = frame_size p ->
  held ≡ₚ buf_idx b :: held' ->
  exists p', drop_packet p b = Ok p' /\ pool_inv p' held' /\ available p' = available p + 1
    /\ pool_id p' = pool_id p /\ frame_size p' = frame_size p
    /\ arena p' = <[Z.to_nat (buf_idx b) := buf_mem b]> (arena p).
Proof.
  intros I Hp Hc Hh. unfold drop_packet. rewrite Hp, Z.eqb_refl.
  destruct (free_spec p held held' (buf_idx b) I Hh)
    as (p' & -> & I' & Hf & Ha & Hid & Hs & Hn). cbn [obind].
  assert (0 <= buf_idx b < num_frames p) as Hr.
  { apply (inv_held_range _ _ I). rewrite Hh. apply elem_of_cons. by left. }
  pose proof (inv_arena _ _ I').
  rewrite set_at_ok by (unfold zlen; lia). eexists. split; [done|]. split; [|split_and!; try done; simpl; congruence].
  destruct I'. constructor; simpl; try done.
  - by rewrite length_insert.
  - rewrite Ha in *. apply Forall_insert; [done|]. simpl. unfold capacity in Hc. congruence.
Qed.

(** ** Witnesses *)
Definition pool4 : PoolInner :=
  build 7 64 4 (replicate 4 (replicate 64 0)).
Lemma pool4_inv : pool_inv pool4 [].
Proof. by apply (pool_new_inv 7 4 64). Qed.

Lemma alloc_exclusive_witness : exists p', alloc pool4 = Ok (Some 0, p') /\ pool_inv p' [0].
Proof.
  pose proof (alloc_exclusive pool4 [] pool4_inv) as (_ & _ & H).
  eexists. split; [reflexivity|exact H].
Defined.

Lemma free_returns_frame_witness : free pool4 2 = Panic.
Proof.
  refine (proj2 (free_returns_frame pool4 [] 2 pool4_inv _) _).
  - split; [lia|]. by vm_compute.
  - apply not_elem_of_nil.
Defined.

Lemma alloc_batch_exact_witness :
  exists bs p', alloc_batch pool4 9 [] = Ok (zlen bs, bs, p') /\ zlen bs = 4.
Proof.
  destruct (alloc_batch_exact pool4 [] 9 [] pool4_inv ltac:(lia)) as (bs & p' & E & L & _).
  exists bs, p'. split; [exact E|exact L].
Defined.

Lemma push_pull_roundtrip_witness :
  exists b1 b2, push_header (mkPacketBuf (replicate 8 1) 4 4 0 None) [9; 9] = Ok b1
    /\ pull_header b1 2 = Ok b2 /\ as_slice b2 = [1; 1; 1; 1].
Proof.
  destruct (push_pull_roundtrip (mkPacketBuf (replicate 8 1) 4 4 0 None) [9; 9])
    as (b1 & b2 & E1 & _ & E2 & S2 & _).
  - unfold buf_wf, capacity. simpl. unfold zlen. simpl. lia.
  - vm_compute. discriminate.
  - exists b1, b2. split; [exact E1|]. split; [exact E2|exact S2].
Defined.
