(* ===== verification/Addr.v ===== *)
(** * IPv4 addresses and socket addresses

    An [Ipv4Addr] is the [u32] of its octets in network order, as [u32::from] gives
    it; a [SocketAddrV4] is an address with a port.  Both are standard library types of
    the source; their derived order is the one the ordered maps iterate in. *)
From Stdlib Require Import ZArith Lia Bool.
From stdpp Require Import base numbers option list countable.
From S2P Require Import Prelude.
#[local] Open Scope Z_scope.

Record SocketAddrV4 : Type := mkSock { ip : Z; port : Z }.
#[export] Instance SocketAddrV4_eq_dec : EqDecision SocketAddrV4.
Proof. solve_decision. Defined.

#[export] Instance SocketAddrV4_countable : Countable SocketAddrV4.
Proof.
  refine (inj_countable' (fun a => (ip a, port a)) (fun '(i, p) => mkSock i p) _). by intros [].
Defined.

Definition sock_eqb (a b : SocketAddrV4) : bool := (ip a =? ip b) && (port a =? port b).
Lemma sock_eqb_eq a b : sock_eqb a b = true <-> a = b.
Proof.
  destruct a, b. unfold sock_eqb. simpl. bools. naive_solver.
Qed.
Lemma sock_eqb_refl a : sock_eqb a a = true.
Proof. by apply sock_eqb_eq. Qed.
#[export] Hint Rewrite sock_eqb_eq : bools.

Definition sock_ok (a : SocketAddrV4) : Prop := 0 <= ip a < W32 /\ 0 <= port a < W16.

(** [Ipv4Addr::octets], [Ipv4Addr::new] and the classification predicates. *)
Definition octets (a : Z) : list Z := be32 a.
Definition is_unspecified (a : Z) : bool := a =? 0.
Definition is_broadcast (a : Z) : bool := a =? U32MAX.
Definition is_multicast (a : Z) : bool := Z.land (a / 16777216) 0xf0 =? 0xe0.
Definition is_loopback (a : Z) : bool := a / 16777216 =? 127.

(** The derived order of [SocketAddrV4]: address first, then port. *)
Definition sock_ltb (a b : SocketAddrV4) : bool :=
  (ip a <? ip b) || ((ip a =? ip b) && (port a <? port b)).
Definition sock_leb (a b : SocketAddrV4) : bool := sock_ltb a b || sock_eqb a b.
Definition sock_key (a : SocketAddrV4) : Z := ip a * W16 + port a.

Lemma sock_ltb_key a b : sock_ok a -> sock_ok b -> sock_ltb a b = (sock_key a <? sock_key b).
Proof.
  destruct a as [i p], b as [j q]. unfold sock_ok, sock_ltb, sock_key, W16, W32. simpl. intros.
  destruct (i <? j) eqn:E1, (i =? j) eqn:E2, (p <? q) eqn:E3; bools; simpl; symmetry; bools; lia.
Qed.
Lemma sock_key_inj a b : sock_ok a -> sock_ok b -> sock_key a = sock_key b -> a = b.
Proof.
  destruct a as [i p], b as [j q]. unfold sock_ok, sock_key, W16, W32. simpl. intros.
  f_equal; lia.
Qed.
Lemma sock_leb_key a b : sock_ok a -> sock_ok b -> sock_leb a b = (sock_key a <=? sock_key b).
Proof.
  intros Ha Hb. unfold sock_leb. rewrite sock_ltb_key by done.
  destruct (sock_key a <? sock_key b) eqn:E1, (sock_eqb a b) eqn:E2; simpl; bools; subst;
    symmetry; bools; try lia.
  enough (sock_key a <> sock_key b) by lia. intros E. apply sock_key_inj in E; [|done..].
  subst. by rewrite sock_eqb_refl in E2.
Qed.
