(* ===== verification/Ipv4.v ===== *)
(** * The IPv4 header that the datagram builders write

    [src/transport/tcp.rs] and [src/transport/udp.rs] write the same twenty bytes,
    field by field.  This file states them once, as a value, with the facts
    the parsers rely on. *)
From Stdlib Require Import ZArith Lia Bool.
From stdpp Require Import base numbers option list.
From S2P Require Import Prelude Checksum Addr.
#[local] Open Scope Z_scope.

(** Header bytes before and after the checksum field. *)
Definition header_pre (total id proto : Z) : list Z :=
  [0x45; 0] ++ be16 total ++ be16 id ++ [0x40; 0; 64; proto].
Definition header_post (src dst : Z) : list Z := octets src ++ octets dst.
Definition header_sum (total id proto src dst : Z) : Z :=
  checksum (header_pre total id proto ++ [0; 0] ++ header_post src dst).
Definition ip_header (total id proto src dst : Z) : list Z :=
  header_pre total id proto ++ be16 (header_sum total id proto src dst) ++ header_post src dst.

Lemma zlen_ip_header total id proto src dst : zlen (ip_header total id proto src dst) = 20.
Proof. done. Qed.
Lemma length_ip_header total id proto src dst :
  length (ip_header total id proto src dst) = 20%nat.
Proof. done. Qed.
#[export] Hint Rewrite zlen_ip_header : zlen.

Lemma header_pre_ok total id proto : is_byte proto -> bytes_ok (header_pre total id proto).
Proof.
  intros. unfold header_pre. rewrite !bytes_app. repeat split; eauto with net.
  all: repeat constructor; unfold is_byte in *; lia.
Qed.
Lemma header_post_ok src dst : bytes_ok (header_post src dst).
Proof. unfold header_post. rewrite bytes_app. split; apply bytes_be32. Qed.
#[export] Hint Resolve header_pre_ok header_post_ok : net.

Lemma ip_header_ok total id proto src dst :
  is_byte proto -> bytes_ok (ip_header total id proto src dst).
Proof. intros. unfold ip_header. rewrite !bytes_app. eauto with net. Qed.

Lemma ip_header_verifies total id proto src dst :
  is_byte proto -> checksum (ip_header total id proto src dst) = 0.
Proof.
  intros. unfold ip_header, header_sum. apply (finish_sum_stored 0); [lia|..].
  - rewrite bytes_app. eauto with net.
  - by exists 5%nat.
  - by vm_compute.
Qed.

(** What a parser reads back from a packet that starts with the header. *)
Lemma ip_header_fields total id proto src dst rest :
  0 <= total < W16 -> 0 <= src < W32 -> 0 <= dst < W32 ->
  let p := ip_header total id proto src dst ++ rest in
  get p 0 = Ok 0x45 /\ get p 9 = Ok proto /\ get p 8 = Ok 64
  /\ read16 p 2 = Ok total /\ slice p 0 20 = Ok (ip_header total id proto src dst)
  /\ read16 p 6 = Ok 0x4000 /\ read32 p 12 = Ok src /\ read32 p 16 = Ok dst
  /\ (forall k, 20 <= k <= zlen p -> slice p 20 k = Ok (take (Z.to_nat (k - 20)) rest)).
Proof.
  intros Ht Hs Hd p.
  assert (zlen p = 20 + zlen rest) as L by (unfold p; zl). pose proof (zlen_nonneg rest).
  rewrite !get_ok, !read16_ok, !read32_ok by lia.
  assert (slice p 0 20 = Ok (ip_header total id proto src dst)) as -> by (by apply slice_app_l).
  split_and!; try done.
  - simpl. by rewrite de16_be16.
  - simpl. f_equal. by apply de32_be32.
  - simpl. f_equal. by apply de32_be32.
  - intros k Hk. by rewrite slice_ok by lia.
Qed.
