(* ===== verification/TcpWire.v ===== *)
(** * The TCP wire format ([src/transport/tcp.rs])

    [parse_ipv4] accepts one checksummed IPv4/TCP datagram without IP options,
    [build_ipv4] writes one into a packet handle.  The theorems: the parser never
    panics and its option loop ends, what it accepts is well formed, and it
    recovers every field of every datagram the builder writes. *)
From Stdlib Require Import ZArith Lia Bool.
From stdpp Require Import base numbers option list.
From S2P Require Import Prelude Checksum BufferPool Addr Ipv4.
#[local] Open Scope Z_scope.

Definition FIN : Z := 0x01.
Definition SYN : Z := 0x02.
Definition RST : Z := 0x04.
Definition PSH : Z := 0x08.
Definition ACK : Z := 0x10.
Definition URG : Z := 0x20.
Definition ECE : Z := 0x40.
Definition CWR : Z := 0x80.

Record Segment : Type := mkSegment {
  source : SocketAddrV4;
  destination : SocketAddrV4;
  sequence : Z;
  acknowledgment : Z;
  flags : Z;
  window : Z;
  mss : option Z;
  payload : list Z
}.
#[export] Instance eta_Segment : Eta Segment :=
  fun s => mkSegment (source s) (destination s) (sequence s) (acknowledgment s) (flags s)
                     (window s) (mss s) (payload s).

(** [flags & mask != 0] *)
Definition has (fl mask : Z) : bool := negb (Z.land fl mask =? 0).

(** [u32::from(flag)] *)
Definition flag1 (b : bool) : Z := if b then 1 else 0.

(** The [u32] sum cannot overflow on a parsed segment, see [sequence_len_bound]. *)
Definition sequence_len (s : Segment) : Z :=
  u32 (zlen (payload s)) + flag1 (has (flags s) SYN) + flag1 (has (flags s) FIN).

Definition ipv4_checksum (source destination : Z) (segment : list Z) : Z :=
  finish_sum (sum_words (octets source) + sum_words (octets destination) + 6
              + zlen segment + sum_words segment).

(** [!0x4000] as a [u16] mask: fragment offset, MF and the reserved flag. *)
Definition NOT_DF : Z := 0xbfff.

(** The [while offset < header_len] loop over the TCP options. *)
Fixpoint parse_options (fuel : nat) (tcp : list Z) (header_len offset : Z) (mss : option Z)
  : outcome (option Z) :=
  match fuel with
  | O => OutOfFuel
  | S fuel =>
      if offset <? header_len then
        let* kind := get tcp offset in
        if kind =? 0 then Ok mss
        else if kind =? 1 then parse_options fuel tcp header_len (offset + 1) mss
        else if header_len <? offset + 2 then Err InvalidData
        else
          let* len := get tcp (offset + 1) in
          if (len <? 2) || (header_len <? offset + len) then Err InvalidData
          else if kind =? 2 then
            if negb (len =? 4) || bool_decide (is_Some mss) then Err InvalidData
            else
              let* value := read16 tcp (offset + 2) in
              if value =? 0 then Err InvalidData
              else parse_options fuel tcp header_len (offset + len) (Some value)
          else parse_options fuel tcp header_len (offset + len) mss
      else Ok mss
  end.

Definition parse_ipv4 (bytes : list Z) : outcome Segment :=
  if zlen bytes <? 40 then Err InvalidData else
  let* b0 := get bytes 0 in
  let* b9 := get bytes 9 in
  let* b8 := get bytes 8 in
  if negb (b0 =? 0x45) || negb (b9 =? 6) || (b8 =? 0) then Err InvalidData else
  let* total := read16 bytes 2 in
  let* header := slice bytes 0 20 in
  let* fragment := read16 bytes 6 in
  if (total <? 40) || (zlen bytes <? total) || negb (checksum header =? 0)
     || negb (Z.land fragment NOT_DF =? 0) then Err InvalidData else
  let* source := read32 bytes 12 in
  let* destination := read32 bytes 16 in
  let* tcp := slice bytes 20 total in
  let* b12 := get tcp 12 in
  let header_len := Z.shiftr b12 4 * 4 in
  if (header_len <? 20) || (zlen tcp <? header_len)
     || negb (ipv4_checksum source destination tcp =? 0) then Err InvalidData else
  let* mss := parse_options (S (Z.to_nat header_len)) tcp header_len 20 None in
  let* sport := read16 tcp 0 in
  let* dport := read16 tcp 2 in
  let* sequence := read32 tcp 4 in
  let* acknowledgment := read32 tcp 8 in
  let* flags := get tcp 13 in
  let* window := read16 tcp 14 in
  let* payload := slice tcp header_len (zlen tcp) in
  Ok (mkSegment (mkSock source sport) (mkSock destination dport)
                sequence acknowledgment flags window mss payload).

Definition tcp_header_len (s : Segment) : Z :=
  match mss s with Some _ => 24 | None => 20 end.

(** The writes of [build_ipv4] into the packet bytes, after [set_len(total)]: the IPv4
    header, the segment, and both. *)
Definition write_header (p : list Z) (s : Segment) (total : Z) : outcome (list Z) :=
  let* p := set_at p 0 0x45 in
  let* p := copy_at p 2 (be16 (u16 total)) in
  let* p := set_at p 6 0x40 in
  let* p := set_at p 8 64 in
  let* p := set_at p 9 6 in
  let* p := copy_at p 12 (octets (ip (source s))) in
  let* p := copy_at p 16 (octets (ip (destination s))) in
  let* header := slice p 0 20 in
  copy_at p 10 (be16 (checksum header)).

Definition write_segment (tcp : list Z) (s : Segment) (tcp_header : Z) : outcome (list Z) :=
  let* tcp := copy_at tcp 0 (be16 (port (source s))) in
  let* tcp := copy_at tcp 2 (be16 (port (destination s))) in
  let* tcp := copy_at tcp 4 (be32 (sequence s)) in
  let* tcp := copy_at tcp 8 (be32 (acknowledgment s)) in
  let* tcp := set_at tcp 12 (Z.shiftl (tcp_header / 4) 4) in
  let* tcp := set_at tcp 13 (flags s) in
  let* tcp := copy_at tcp 14 (be16 (window s)) in
  let* tcp :=
    match mss s with
    | Some m =>
        let* tcp := copy_at tcp 20 [2; 4] in copy_at tcp 22 (be16 m)
    | None => Ok tcp
    end in
  let* tcp := copy_at tcp tcp_header (payload s) in
  let sum := ipv4_checksum (ip (source s)) (ip (destination s)) tcp in
  copy_at tcp 16 (be16 sum).

Definition write_ipv4 (bytes : list Z) (s : Segment) (tcp_header total : Z)
  : outcome (list Z) :=
  let* p := fill0 bytes 0 (20 + tcp_header) in
  let* p := write_header p s total in
  let* tcp := slice p 20 (zlen p) in
  let* tcp := write_segment tcp s tcp_header in
  copy_at p 20 tcp.

Definition build_ipv4 (frame : PacketBuf) (s : Segment) : outcome PacketBuf :=
  if bool_decide (mss s = Some 0)
     || (bool_decide (is_Some (mss s)) && (Z.land (flags s) SYN =? 0))
  then Err InvalidInput else
  let tcp_header := tcp_header_len s in
  let total := zlen (payload s) + (20 + tcp_header) in
  if (total <=? U16MAX) && (total <=? tail_capacity frame) then
    let* frame := set_len frame total in
    let* bytes := write_ipv4 (as_slice frame) s tcp_header total in
    Ok (store_packet frame bytes)
  else Err InvalidInput.

(** Serial-number comparison: [(a - b) as i32 < 0]. *)
Definition before (a b : Z) : bool := as_i32 (wsub32 a b) <? 0.

(** ** Well-formed segments: every field in the range of its Rust type *)
Record segment_ok (s : Segment) : Prop := {
  ok_source : sock_ok (source s);
  ok_destination : sock_ok (destination s);
  ok_sequence : 0 <= sequence s < W32;
  ok_acknowledgment : 0 <= acknowledgment s < W32;
  ok_flags : is_byte (flags s);
  ok_window : 0 <= window s < W16;
  ok_mss : forall m, mss s = Some m -> 0 < m < W16;
  ok_payload : bytes_ok (payload s);
  ok_size : zlen (payload s) <= 65495
}.

Lemma flag1_range b : 0 <= flag1 b <= 1.
Proof. by destruct b. Qed.

Lemma sequence_len_bound s :
  segment_ok s -> 0 <= zlen (payload s) <= sequence_len s /\ sequence_len s <= zlen (payload s) + 2.
Proof.
  intros H. pose proof (ok_size _ H). pose_zlen. unfold sequence_len.
  rewrite u32_small by (unfold W32; lia).
  pose proof (flag1_range (has (flags s) SYN)). pose proof (flag1_range (has (flags s) FIN)). lia.
Qed.

(** ** The parser *)
Ltac rd := first [rewrite get_ok by zl | rewrite read16_ok by zl | rewrite read32_ok by zl
                 | rewrite slice_ok by zl]; cbn [obind].

Lemma parse_options_spec fuel tcp hl off m :
  bytes_ok tcp -> 0 <= off <= hl -> hl <= zlen tcp -> hl - off < Z.of_nat fuel ->
  (forall v, m = Some v -> 0 < v < W16) ->
  parse_options fuel tcp hl off m = Err InvalidData \/
  exists m', parse_options fuel tcp hl off m = Ok m' /\ (forall v, m' = Some v -> 0 < v < W16).
Proof.
  intros Hb. revert off m. induction fuel as [|fuel IH]; intros off m Ho Hl Hf Hm; simpl; [lia|].
  destruct (off <? hl) eqn:E1; bools; [|by eauto].
  rd. destruct (_ =? 0); [by eauto|]. destruct (_ =? 1); [apply IH; done || lia|].
  destruct (hl <? off + 2) eqn:E2; bools; [by left|]. rd.
  destruct (_ || _) eqn:E3; bools; [by left|].
  destruct (_ =? 2) eqn:E4; bools; [|apply IH; done || lia].
  destruct (_ || bool_decide _) eqn:E5; [by left|]. bools. destruct E5 as [E5 _].
  rewrite read16_ok by lia. cbn [obind].
  destruct (_ =? 0) eqn:E6; [by left|]. bools.
  apply IH; try lia. intros v [= <-].
  pose proof (de16_range _ _ (bytes_nth tcp (Z.to_nat (off + 2)) Hb)
    (bytes_nth tcp (Z.to_nat (off + 2) + 1) Hb)). lia.
Qed.

(** Every outcome of the parser: an error, or a segment in range whose payload is a
    slice of the input. *)
Lemma parse_ipv4_spec bytes :
  bytes_ok bytes ->
  parse_ipv4 bytes = Err InvalidData \/
  exists s, parse_ipv4 bytes = Ok s /\ segment_ok s /\ zlen (payload s) + 40 <= zlen bytes.
Proof.
  intros Hb. unfold parse_ipv4. destruct (zlen bytes <? 40) eqn:E1; [by left|]. bools.
  rd. rd. rd. destruct (_ || _) eqn:E2; [by left|]. clear E2.
  rewrite read16_ok by lia. cbn [obind]. rewrite slice_ok by lia. cbn [obind].
  rewrite read16_ok by lia. cbn [obind]. set (total := de16 _ _).
  destruct (_ || _) eqn:E3; [by left|]. bools. destruct E3 as [[[E3 E4] _] _].
  assert (total < W16) as Ht by (apply de16_range; by apply bytes_nth).
  rewrite !read32_ok by lia. cbn [obind]. set (src := de32 _ _ _ _). set (dst := de32 _ _ _ _).
  rewrite slice_ok by lia. cbn [obind]. set (tcp := take _ _).
  assert (zlen tcp = total - 20) as Lt by (unfold tcp; zl).
  assert (bytes_ok tcp) as Bt by (unfold tcp; eauto with net).
  rewrite get_ok by lia. cbn [obind]. set (hl := _ * 4).
  destruct (_ || _) eqn:E5; [by left|]. bools. destruct E5 as [[E5 E6] _].
  destruct (parse_options_spec (S (Z.to_nat hl)) tcp hl 20 None) as [->|(m & -> & Hm)];
    try done; try lia; [by left|].
  cbn [obind]. rewrite !read16_ok, !read32_ok, get_ok, slice_ok by lia. cbn [obind].
  right. eexists. split; [done|]. split; [constructor|]; simpl; try done.
  all: try (by eauto 6 with net); try (split; simpl; (apply de32_range || apply de16_range); by apply bytes_nth).
  all: autorewrite with zlen; rewrite ?Lt; unfold W16 in *; pose_zlen; lia.
Qed.

(** ** The builder *)

(** The TCP header before and after its checksum field. *)
Definition tcp_pre (s : Segment) : list Z :=
  be16 (port (source s)) ++ be16 (port (destination s)) ++ be32 (sequence s)
  ++ be32 (acknowledgment s) ++ [Z.shiftl (tcp_header_len s / 4) 4; flags s] ++ be16 (window s).
Definition tcp_post (s : Segment) : list Z :=
  [0; 0] ++ match mss s with Some m => [2; 4] ++ be16 m | None => [] end ++ payload s.
Definition tcp_sum (s : Segment) : Z :=
  ipv4_checksum (ip (source s)) (ip (destination s)) (tcp_pre s ++ [0; 0] ++ tcp_post s).
Definition tcp_bytes (s : Segment) : list Z := tcp_pre s ++ be16 (tcp_sum s) ++ tcp_post s.
Definition total_len (s : Segment) : Z := zlen (payload s) + (20 + tcp_header_len s).

(** The datagram that stands for a segment. *)
Definition datagram (s : Segment) : list Z :=
  ip_header (total_len s) 0 6 (ip (source s)) (ip (destination s)) ++ tcp_bytes s.

Lemma zlen_tcp_bytes s : zlen (tcp_bytes s) = zlen (payload s) + tcp_header_len s.
Proof.
  unfold tcp_bytes, tcp_pre, tcp_post, tcp_header_len. destruct (mss s); zl.
Qed.
Lemma zlen_datagram s : zlen (datagram s) = total_len s.
Proof. unfold datagram, total_len. rewrite zlen_app, zlen_tcp_bytes, zlen_ip_header. lia. Qed.

Lemma write_header_spec s rest :
  0 <= total_len s < W16 ->
  write_header (replicate 20 0 ++ rest) s (total_len s)
  = Ok (ip_header (total_len s) 0 6 (ip (source s)) (ip (destination s)) ++ rest).
Proof.
  intros Hu. unfold write_header, octets.
  assert (u16 (total_len s) = total_len s) as -> by (by apply Z.mod_small).
  do 9 wr. done.
Qed.

Lemma write_segment_spec s rest :
  zlen rest = zlen (payload s) ->
  write_segment (replicate (Z.to_nat (tcp_header_len s)) 0 ++ rest) s (tcp_header_len s)
  = Ok (tcp_bytes s).
Proof.
  intros Hr. unfold write_segment, tcp_bytes, tcp_sum, tcp_pre, tcp_post.
  unfold tcp_header_len in *.
  destruct (mss s) as [m|].
  - do 9 wr. erewrite copy_at_tail by done. cbn [obind]. wr. done.
  - do 7 wr. cbn [obind]. erewrite copy_at_tail by done. cbn [obind]. wr. done.
Qed.

Lemma write_ipv4_spec bytes s :
  zlen bytes = total_len s -> total_len s <= U16MAX ->
  write_ipv4 bytes s (tcp_header_len s) (total_len s) = Ok (datagram s).
Proof.
  intros Hl Ht. unfold write_ipv4.
  assert (20 <= tcp_header_len s) by (unfold tcp_header_len; destruct (mss s); lia).
  assert (total_len s = zlen (payload s) + (20 + tcp_header_len s)) as Et by done. pose_zlen.
  rewrite fill0_ok by lia. cbn [obind]. change (take (Z.to_nat 0) bytes) with (@nil Z).
  rewrite app_nil_l. set (rest := drop _ bytes).
  assert (zlen rest = zlen (payload s)) as Hr by (unfold rest; zl).
  replace (Z.to_nat (20 + tcp_header_len s - 0)) with (20 + Z.to_nat (tcp_header_len s))%nat by lia.
  rewrite replicate_add, <- app_assoc.
  rewrite write_header_spec by (unfold U16MAX, W16 in *; lia). cbn [obind].
  rewrite slice_tail by done. cbn [obind]. rewrite write_segment_spec by done. cbn [obind].
  rewrite copy_at_tail; [done|done|]. rewrite zlen_tcp_bytes. zl.
Qed.

(** Both outcomes of the builder. *)
Definition mss_valid (s : Segment) : bool :=
  match mss s with Some m => negb (m =? 0) && has (flags s) SYN | None => true end.

Lemma build_ipv4_spec b s :
  buf_wf b ->
  if mss_valid s && (total_len s <=? U16MAX) && (total_len s <=? tail_capacity b)
  then exists b', build_ipv4 b s = Ok b' /\ buf_wf b' /\ as_slice b' = datagram s
         /\ capacity b' = capacity b /\ data_offset b' = data_offset b
         /\ buf_idx b' = buf_idx b /\ buf_pool b' = buf_pool b
         /\ b' = store_packet (b <| buf_len := total_len s |>) (datagram s)
  else build_ipv4 b s = Err InvalidInput.
Proof.
  intros W. unfold build_ipv4.
  assert (bool_decide (mss s = Some 0)
     || bool_decide (is_Some (mss s)) && (Z.land (flags s) SYN =? 0) = negb (mss_valid s)) as ->.
  { unfold mss_valid, has. destruct (mss s) as [m|]; [|done].
    rewrite (bool_decide_eq_true_2 (is_Some (Some m))) by done.
    destruct (Z.eqb_spec m 0) as [->|]; [done|].
    rewrite bool_decide_eq_false_2 by congruence. simpl. by destruct (_ =? 0). }
  destruct (mss_valid s); [|done]. cbn [negb andb].
  fold (total_len s). destruct (_ && _) eqn:E; [|done]. bools. destruct E as [E1 E2].
  assert (0 <= total_len s) by (unfold total_len, tcp_header_len; pose_zlen; destruct (mss s); lia).
  destruct (set_len_spec b (total_len s) W) as [-> W1]; [lia|]. cbn [obind].
  rewrite write_ipv4_spec; [|by rewrite zlen_as_slice|done]. cbn [obind].
  edestruct (store_packet_spec _ (datagram s) W1) as (W2 & A2 & C2); [by rewrite zlen_datagram|].
  eexists. split; [done|]. done.
Qed.

(** ** Reading back what the builder wrote *)
Lemma tcp_pre_ok s : segment_ok s -> bytes_ok (tcp_pre s).
Proof.
  intros H. pose proof (ok_flags s H). unfold tcp_pre. rewrite !bytes_app.
  split_and!; eauto with net. apply Forall_cons. split; [|by apply Forall_singleton].
  unfold tcp_header_len. destruct (mss s); by vm_compute.
Qed.
Lemma tcp_post_ok s : segment_ok s -> bytes_ok (tcp_post s).
Proof.
  intros H. pose proof (ok_payload s H). unfold tcp_post. rewrite !bytes_app.
  split; [by repeat constructor|]. split; [|done].
  destruct (mss s) as [m|]; [|by constructor]. rewrite bytes_app.
  split; [by repeat constructor|]. eauto with net.
Qed.

Lemma octets_sum_bound a : 0 <= sum_words (octets a) <= 262140.
Proof. pose proof (sum_words_bound (octets a) (bytes_be32 a)). done. Qed.

Lemma tcp_bytes_verify s :
  segment_ok s -> ipv4_checksum (ip (source s)) (ip (destination s)) (tcp_bytes s) = 0.
Proof.
  intros H. unfold ipv4_checksum, tcp_bytes, tcp_sum, ipv4_checksum.
  pose proof (octets_sum_bound (ip (source s))). pose proof (octets_sum_bound (ip (destination s))).
  pose proof (ok_size s H).
  assert (zlen (tcp_pre s ++ be16 0 ++ tcp_post s) = zlen (payload s) + tcp_header_len s)
    by (unfold tcp_pre, tcp_post, tcp_header_len; destruct (mss s); zl).
  assert (20 <= tcp_header_len s <= 24) by (unfold tcp_header_len; destruct (mss s); lia).
  set (a := sum_words _ + sum_words _ + 6 + zlen (tcp_pre s ++ [0; 0] ++ tcp_post s)).
  assert (0 <= a <= 4294967296) as Ha by (unfold a; pose_zlen; zl).
  match goal with |- finish_sum (?b + _) = 0 => assert (b = a) as -> end.
  { done. }
  apply finish_sum_stored; [done|..].
  - rewrite bytes_app. auto using tcp_pre_ok, tcp_post_ok.
  - by exists 8%nat.
  - zl.
Qed.

Lemma datagram_ok s : segment_ok s -> bytes_ok (datagram s).
Proof.
  intros H. unfold datagram, tcp_bytes. rewrite !bytes_app.
  split_and!; auto using tcp_pre_ok, tcp_post_ok, bytes_be16.
  apply ip_header_ok. unfold is_byte. lia.
Qed.

Lemma tcp_bytes_fields s :
  segment_ok s ->
  let t := tcp_bytes s in
  get t 12 = Ok (Z.shiftl (tcp_header_len s / 4) 4)
  /\ read16 t 0 = Ok (port (source s)) /\ read16 t 2 = Ok (port (destination s))
  /\ read32 t 4 = Ok (sequence s) /\ read32 t 8 = Ok (acknowledgment s)
  /\ get t 13 = Ok (flags s) /\ read16 t 14 = Ok (window s)
  /\ slice t (tcp_header_len s) (zlen t) = Ok (payload s).
Proof.
  intros H t. pose proof (zlen_tcp_bytes s) as L. fold t in L. pose proof (zlen_nonneg (payload s)).
  assert (20 <= tcp_header_len s) by (unfold tcp_header_len; destruct (mss s); lia).
  rewrite !get_ok, !read16_ok, !read32_ok by lia. split_and!; try done.
  1-5: simpl; f_equal; (apply de16_be16 || apply de32_be32); by apply H.
  clear L. unfold t, tcp_bytes, tcp_header_len. destruct (mss s) as [m|] eqn:E.
  - unfold tcp_post. rewrite E, !app_assoc. apply slice_tail. unfold tcp_pre. zl.
  - unfold tcp_post. rewrite E, !app_assoc. apply slice_tail. unfold tcp_pre. zl.
Qed.

Lemma parse_options_end fuel t hl off m : hl <= off -> parse_options (S fuel) t hl off m = Ok m.
Proof. intros. simpl. by rewrite (proj2 (Z.ltb_ge _ _)) by lia. Qed.

Lemma parse_options_mss t m :
  get t 20 = Ok 2 -> get t 21 = Ok 4 -> read16 t 22 = Ok m -> m <> 0 ->
  parse_options 25 t 24 20 None = Ok (Some m).
Proof.
  intros E1 E2 E3 Hm.
  assert (forall n, parse_options (S (S n)) t 24 20 None = Ok (Some m)) as H; [|apply (H 23%nat)].
  intros n. remember (S n) as k. simpl. rewrite E1. simpl. change (20 + 1) with 21. rewrite E2.
  simpl. change (20 + 2) with 22. rewrite E3. simpl.
  rewrite (proj2 (Z.eqb_neq m 0)) by lia. subst k. by apply parse_options_end.
Qed.

Lemma tcp_bytes_options s :
  segment_ok s ->
  parse_options (S (Z.to_nat (tcp_header_len s))) (tcp_bytes s) (tcp_header_len s) 20 None
  = Ok (mss s).
Proof.
  intros H. pose proof (zlen_tcp_bytes s) as L. pose_zlen. pose proof (ok_mss s H) as Hm. revert L.
  unfold tcp_header_len, tcp_bytes, tcp_post. destruct (mss s) as [m|] eqn:E; intros L; [|done].
  specialize (Hm m eq_refl). set (t := tcp_pre s ++ _) in *.
  assert (get t 20 = Ok 2) as E1 by (rewrite get_ok by lia; done).
  assert (get t 21 = Ok 4) as E2 by (rewrite get_ok by lia; done).
  assert (read16 t 22 = Ok m) as E3.
  { rewrite read16_ok by lia. simpl. f_equal. apply de16_be16. lia. }
  apply parse_options_mss; try done; lia.
Qed.

Lemma parse_datagram s pad :
  segment_ok s -> total_len s <= U16MAX -> parse_ipv4 (datagram s ++ pad) = Ok s.
Proof.
  intros H Ht. unfold datagram. rewrite <- app_assoc. set (rest := tcp_bytes s ++ pad).
  pose proof (ok_source s H) as [Hs _]. pose proof (ok_destination s H) as [Hd _].
  assert (20 <= tcp_header_len s <= 24) by (unfold tcp_header_len; destruct (mss s); lia).
  pose proof (zlen_nonneg (payload s)). pose proof (zlen_nonneg pad).
  assert (total_len s = zlen (payload s) + (20 + tcp_header_len s)) as Et by done.
  assert (0 <= total_len s < W16) as Hr by (unfold W16, U16MAX in *; lia).
  destruct (ip_header_fields (total_len s) 0 6 _ _ rest Hr Hs Hd)
    as (E0 & E9 & E8 & E2 & Eh & E6 & E12 & E16 & Esl).
  set (p := ip_header _ _ _ _ _ ++ rest) in *.
  assert (zlen p = total_len s + zlen pad) as Lp.
  { unfold p, rest. rewrite !zlen_app, zlen_tcp_bytes, zlen_ip_header. lia. }
  unfold parse_ipv4. rewrite (proj2 (Z.ltb_ge _ _)) by lia.
  rewrite E0, E9, E8. cbn [obind]. decide_if false.
  rewrite E2, Eh, E6. cbn [obind]. rewrite ip_header_verifies by (unfold is_byte; lia).
  rewrite !(proj2 (Z.ltb_ge _ _)) by lia. decide_if false.
  rewrite E12, E16, Esl by lia. cbn [obind].
  assert (take (Z.to_nat (total_len s - 20)) rest = tcp_bytes s) as ->.
  { unfold rest. pose proof (zlen_tcp_bytes s). unfold zlen in *. apply take_app_length'. lia. }
  destruct (tcp_bytes_fields s H) as (-> & -> & -> & -> & -> & -> & -> & Epl). cbn [obind].
  assert (Z.shiftr (Z.shiftl (tcp_header_len s / 4) 4) 4 * 4 = tcp_header_len s) as ->
    by (unfold tcp_header_len; by destruct (mss s)).
  rewrite zlen_tcp_bytes, !(proj2 (Z.ltb_ge _ _)), tcp_bytes_verify by (done || lia).
  decide_if false.
  rewrite tcp_bytes_options by done. cbn [obind]. rewrite <- zlen_tcp_bytes, Epl. cbn [obind].
  by destruct s as [[] []].
Qed.

(** ** Serial numbers: [before] is [<] on positions less than [2^31] apart *)
Definition HALF : Z := 2147483648.

Lemma before_spec x y : - HALF <= x - y < HALF -> before (u32 x) (u32 y) = (x <? y).
Proof.
  intros H. unfold before, as_i32, wsub32, u32, HALF, W32 in *.
  rewrite <- Zminus_mod.
  destruct (x <? y) eqn:E; bools.
  - assert ((x - y) mod 4294967296 = x - y + 4294967296) as -> by (Z.div_mod_to_equations; lia).
    destruct (_ <? 2147483648) eqn:E2; bools; lia.
  - assert ((x - y) mod 4294967296 = x - y) as -> by (apply Z.mod_small; lia).
    destruct (_ <? 2147483648) eqn:E2; bools; lia.
Qed.

Lemma before_irrefl x : before x x = false.
Proof. unfold before, wsub32. by rewrite Z.sub_diag. Qed.

(** ** Properties *)

(** Totality of the TCP parser on hostile input: for every byte string [parse_ipv4]
    returns (no index is out of range, the option loop ends), with [InvalidData] as
    its only error; an accepted segment has every field in the range of its type, an MSS
    that is not zero, and a payload that lies inside the input. *)
Theorem tcp_parse_total bytes :
  bytes_ok bytes ->
  parse_ipv4 bytes = Err InvalidData \/
  exists s, parse_ipv4 bytes = Ok s /\ segment_ok s /\ zlen (payload s) + 40 <= zlen bytes.
Proof. apply parse_ipv4_spec. Qed.

(** Round trip: [build_ipv4] either refuses the segment with [InvalidInput], exactly
    when the MSS is misplaced or the datagram does not fit, or writes a datagram from which
    [parse_ipv4] recovers the whole segment, also when the link layer padded the packet. *)
Theorem tcp_roundtrip b s pad :
  buf_wf b -> segment_ok s ->
  if mss_valid s && (total_len s <=? U16MAX) && (total_len s <=? tail_capacity b)
  then exists b', build_ipv4 b s = Ok b' /\ buf_wf b' /\ zlen (as_slice b') = total_len s
         /\ parse_ipv4 (as_slice b' ++ pad) = Ok s
  else build_ipv4 b s = Err InvalidInput.
Proof.
  intros W H. pose proof (build_ipv4_spec b s W) as B. destruct (_ && _) eqn:E; [|done].
  bools. destruct B as (b' & E' & W' & A & _). exists b'. split_and!; try done.
  - by rewrite A, zlen_datagram.
  - rewrite A. apply parse_datagram; [done|]. lia.
Qed.

(** ** Witnesses *)
Definition syn_example : Segment :=
  mkSegment (mkSock 0x0a000001 40000) (mkSock 0x0a000002 80) 0xfffffffe 0 SYN 1024 (Some 536) [].
Lemma syn_example_ok : segment_ok syn_example.
Proof.
  constructor; simpl; unfold sock_ok, is_byte, W32, W16, SYN; simpl; try lia.
  - intros m [= <-]. lia.
  - constructor.
  - vm_compute. discriminate.
Qed.

Lemma tcp_parse_total_witness :
  parse_ipv4 [0x45; 0; 0; 1] = Err InvalidData \/
  exists s, parse_ipv4 [0x45; 0; 0; 1] = Ok s /\ segment_ok s /\ zlen (payload s) + 40 <= 4.
Proof.
  apply tcp_parse_total. repeat constructor; unfold is_byte; lia.
Defined.

Lemma tcp_roundtrip_witness :
  exists b', build_ipv4 (mkPacketBuf (replicate 100 7) 32 0 0 None) syn_example = Ok b'
    /\ parse_ipv4 (as_slice b' ++ [0; 0]) = Ok syn_example.
Proof.
  pose proof (tcp_roundtrip (mkPacketBuf (replicate 100 7) 32 0 0 None) syn_example [0; 0]) as T.
  destruct T as (b' & E & _ & _ & P).
  - unfold buf_wf, capacity. simpl. unfold zlen. simpl. lia.
  - exact syn_example_ok.
  - exists b'. split; [exact E|exact P].
Defined.
