(* ===== verification/UdpWire.v ===== *)
(** * UDP datagrams on the wire ([src/transport/udp.rs])

    Construction and validation of IPv4/UDP datagrams.  Addresses are [u32] values and
    [octets] their four bytes in network order, so that the octets of an address that was
    read from a packet are the bytes of the packet. *)
From Stdlib Require Import ZArith Lia Bool.
From stdpp Require Import base numbers option list.
From S2P Require Import Prelude Checksum BufferPool Addr Ipv4.
#[local] Open Scope Z_scope.

Definition udp_checksum (source destination datagram : list Z) : Z :=
  finish_sum (sum_words source + sum_words destination + 17
              + zlen datagram + sum_words datagram).

Record Datagram : Type := mkDatagram {
  dg_source : SocketAddrV4;
  dg_destination : SocketAddrV4;
  dg_payload : list Z
}.

(** The writes of [build_ipv4] into the packet bytes, after [set_len(total)]. *)
Definition udp_write (p : list Z) (source destination : SocketAddrV4) (payload : list Z)
    (identification total : Z) : outcome (list Z) :=
  let* p := fill0 p 0 28 in
  let* p := set_at p 0 0x45 in
  let* p := copy_at p 2 (be16 (u16 total)) in
  let* p := copy_at p 4 (be16 identification) in
  let* p := set_at p 6 0x40 in
  let* p := set_at p 8 64 in
  let* p := set_at p 9 17 in
  let* p := copy_at p 12 (octets (ip source)) in
  let* p := copy_at p 16 (octets (ip destination)) in
  let* header := slice p 0 20 in
  let* p := copy_at p 10 (be16 (checksum header)) in
  let* p := copy_at p 20 (be16 (port source)) in
  let* p := copy_at p 22 (be16 (port destination)) in
  let* p := copy_at p 24 (be16 (u16 (total - 20))) in
  let* p := copy_at p 28 payload in
  let* datagram := slice p 20 (zlen p) in
  let sum := udp_checksum (octets (ip source)) (octets (ip destination)) datagram in
  copy_at p 26 (be16 (if sum =? 0 then 0xffff else sum)).

Definition udp_build (buf : PacketBuf) (source destination : SocketAddrV4) (payload : list Z)
    (identification : Z) : outcome PacketBuf :=
  let total := zlen payload + 28 in
  if (total <=? U16MAX) && (total <=? tail_capacity buf) then
    let* buf := set_len buf total in
    let* p := udp_write (as_slice buf) source destination payload identification total in
    Ok (store_packet buf p)
  else Err InvalidInput.

Definition udp_parse (packet : list Z) : outcome Datagram :=
  if zlen packet <? 28 then Err InvalidData else
  let* b0 := get packet 0 in
  let* b9 := get packet 9 in
  let* b8 := get packet 8 in
  if negb (b0 =? 0x45) || negb (b9 =? 17) || (b8 =? 0) then Err InvalidData else
  let* total := read16 packet 2 in
  let* fragment := read16 packet 6 in
  let* header := slice packet 0 20 in
  if (total <? 28) || (zlen packet <? total) || negb (Z.land fragment 0xbfff =? 0)
     || negb (checksum header =? 0) then Err InvalidData else
  let* source := read32 packet 12 in
  let* destination := read32 packet 16 in
  let* udp := slice packet 20 total in
  let* len := read16 udp 4 in
  let* sum := slice udp 6 8 in
  if negb (len =? zlen udp)
     || (negb (list_eqb sum [0; 0]) && negb (udp_checksum (octets source) (octets destination) udp =? 0))
  then Err InvalidData else
  let* sport := read16 udp 0 in
  let* dport := read16 udp 2 in
  let* payload := slice udp 8 (zlen udp) in
  Ok (mkDatagram (mkSock source sport) (mkSock destination dport) payload).

(** ** The bytes of a datagram *)
Record dg_ok (d : Datagram) : Prop := {
  dg_ok_source : sock_ok (dg_source d);
  dg_ok_destination : sock_ok (dg_destination d);
  dg_ok_payload : bytes_ok (dg_payload d);
  dg_ok_size : zlen (dg_payload d) + 28 <= U16MAX
}.
Definition udp_pre (d : Datagram) : list Z :=
  be16 (port (dg_source d)) ++ be16 (port (dg_destination d)) ++ be16 (zlen (dg_payload d) + 8).
Definition udp_sum (d : Datagram) : Z :=
  udp_checksum (octets (ip (dg_source d))) (octets (ip (dg_destination d))) (udp_pre d ++ [0; 0] ++ dg_payload d).
Definition udp_stored (d : Datagram) : Z := if udp_sum d =? 0 then 0xffff else udp_sum d.
Definition udp_bytes (d : Datagram) : list Z :=
  udp_pre d ++ be16 (udp_stored d) ++ dg_payload d.
Definition udp_datagram (d : Datagram) (identification : Z) : list Z :=
  ip_header (zlen (dg_payload d) + 28) identification 17 (ip (dg_source d)) (ip (dg_destination d))
  ++ udp_bytes d.

Lemma zlen_udp_bytes d : zlen (udp_bytes d) = zlen (dg_payload d) + 8.
Proof. unfold udp_bytes, udp_pre. zl. Qed.
Lemma zlen_udp_datagram d id : zlen (udp_datagram d id) = zlen (dg_payload d) + 28.
Proof. unfold udp_datagram. rewrite zlen_app, zlen_udp_bytes, zlen_ip_header. lia. Qed.

Lemma udp_write_spec d id rest :
  zlen rest = zlen (dg_payload d) + 28 -> zlen (dg_payload d) + 28 <= U16MAX ->
  udp_write rest (dg_source d) (dg_destination d) (dg_payload d) id (zlen (dg_payload d) + 28)
  = Ok (udp_datagram d id).
Proof.
  intros Hl Ht. pose proof (zlen_nonneg (dg_payload d)). unfold udp_write, octets.
  rewrite fill0_ok by lia. cbn [obind]. change (take (Z.to_nat 0) rest) with (@nil Z).
  rewrite app_nil_l. set (r := drop _ rest).
  assert (zlen r = zlen (dg_payload d)) as Hr by (unfold r; zl).
  assert (u16 (zlen (dg_payload d) + 28) = zlen (dg_payload d) + 28) as ->
    by (apply Z.mod_small; unfold U16MAX, W16 in *; lia).
  assert (u16 (zlen (dg_payload d) + 28 - 20) = zlen (dg_payload d) + 8) as ->
    by (unfold u16; rewrite Z.mod_small; unfold U16MAX, W16 in *; lia).
  change (Z.to_nat (28 - 0)) with 28%nat. do 13 wr.
  erewrite copy_at_tail by done. cbn [obind].
  match goal with |- context [slice (?l ++ ?q) 20 _] =>
    assert (slice (l ++ q) 20 (zlen (l ++ q)) = Ok (drop 20 l ++ q)) as ->
      by (apply (slice_tail (take 20 l) (drop 20 l ++ q) 20); done) end.
  cbn [obind]. wr.
  unfold udp_datagram, udp_bytes, udp_stored, udp_sum, udp_pre, ip_header, header_sum, header_pre,
    header_post, octets, be16, be32. cbn [app drop skipn]. reflexivity.
Qed.

(** ** Both outcomes of the builder *)
Lemma udp_build_spec b d id :
  buf_wf b ->
  if (zlen (dg_payload d) + 28 <=? U16MAX) && (zlen (dg_payload d) + 28 <=? tail_capacity b)
  then exists b', udp_build b (dg_source d) (dg_destination d) (dg_payload d) id = Ok b'
         /\ buf_wf b' /\ as_slice b' = udp_datagram d id /\ capacity b' = capacity b
         /\ buf_idx b' = buf_idx b /\ buf_pool b' = buf_pool b
         /\ b' = store_packet (b <| buf_len := zlen (dg_payload d) + 28 |>) (udp_datagram d id)
  else udp_build b (dg_source d) (dg_destination d) (dg_payload d) id = Err InvalidInput.
Proof.
  intros W. unfold udp_build. destruct (_ && _) eqn:E; [|done]. bools. destruct E as [E1 E2].
  pose proof (zlen_nonneg (dg_payload d)).
  destruct (set_len_spec b (zlen (dg_payload d) + 28) W) as [-> W1]; [lia|]. cbn [obind].
  rewrite udp_write_spec; [|by rewrite zlen_as_slice|done]. cbn [obind].
  edestruct (store_packet_spec _ (udp_datagram d id) W1) as (W2 & A2 & C2); [by rewrite zlen_udp_datagram|].
  eexists. split; [done|]. done.
Qed.

(** ** Reading back *)
Lemma udp_pre_ok d : bytes_ok (udp_pre d).
Proof. unfold udp_pre. rewrite !bytes_app. eauto with net. Qed.
Lemma udp_bytes_ok d : dg_ok d -> bytes_ok (udp_bytes d).
Proof.
  intros H. unfold udp_bytes. rewrite !bytes_app. split_and!; [apply udp_pre_ok|apply bytes_be16|apply H].
Qed.
Lemma udp_datagram_ok d id : dg_ok d -> bytes_ok (udp_datagram d id).
Proof.
  intros H. unfold udp_datagram. rewrite bytes_app. split; [|by apply udp_bytes_ok].
  apply ip_header_ok. unfold is_byte. lia.
Qed.

(** The pseudo-header part of the sum, and the sum over the datagram with a zero field. *)
Definition udp_base (d : Datagram) : Z :=
  sum_words (octets (ip (dg_source d))) + sum_words (octets (ip (dg_destination d))) + 17
  + (zlen (dg_payload d) + 8) + sum_words (udp_pre d) + sum_words (dg_payload d).
Lemma udp_base_bound d : dg_ok d -> 0 <= udp_base d <= U64MAX - W16.
Proof.
  intros H. unfold udp_base.
  pose proof (sum_words_bound _ (bytes_be32 (ip (dg_source d)))) as B1.
  pose proof (sum_words_bound _ (bytes_be32 (ip (dg_destination d)))) as B2.
  pose proof (sum_words_bound _ (udp_pre_ok d)) as B3.
  pose proof (sum_words_bound _ (dg_ok_payload _ H)) as B4.
  rewrite zlen_be32 in B1, B2. change (zlen (udp_pre d)) with 6 in B3. unfold octets.
  pose proof (dg_ok_size _ H). pose_zlen. unfold U16MAX, U64MAX, W16 in *. lia.
Qed.
Lemma udp_checksum_with d v :
  0 <= v < W16 ->
  udp_checksum (octets (ip (dg_source d))) (octets (ip (dg_destination d))) (udp_pre d ++ be16 v ++ dg_payload d)
  = finish_sum (udp_base d + v).
Proof.
  intros Hv. unfold udp_checksum, udp_base. rewrite sum_words_app by (by exists 3%nat).
  rewrite sum_words_be16 by done. f_equal. rewrite !zlen_app, zlen_be16.
  change (zlen (udp_pre d)) with 6. lia.
Qed.
Lemma udp_sum_eq d : udp_sum d = finish_sum (udp_base d).
Proof.
  unfold udp_sum. change [0; 0] with (be16 0). rewrite udp_checksum_with by (unfold W16; lia).
  by rewrite Z.add_0_r.
Qed.
Lemma udp_stored_range d : dg_ok d -> 0 < udp_stored d < W16.
Proof.
  intros H. pose proof (udp_base_bound d H).
  pose proof (finish_sum_range (udp_base d)) as R. unfold udp_stored. rewrite udp_sum_eq.
  unfold W16 in *. destruct (_ =? 0) eqn:E; bools; lia.
Qed.
(** The stored checksum verifies, also in its [0xffff] form. *)
Lemma udp_bytes_verify d :
  dg_ok d -> udp_checksum (octets (ip (dg_source d))) (octets (ip (dg_destination d))) (udp_bytes d) = 0.
Proof.
  intros H. pose proof (udp_base_bound d H) as B. pose proof (udp_stored_range d H).
  unfold udp_bytes. rewrite udp_checksum_with by lia. unfold udp_stored. rewrite udp_sum_eq.
  destruct (_ =? 0) eqn:E; bools; [by apply finish_sum_complete_ffff|by apply finish_sum_complete].
Qed.
Lemma udp_bytes_fields d :
  dg_ok d ->
  let u := udp_bytes d in
  read16 u 0 = Ok (port (dg_source d)) /\ read16 u 2 = Ok (port (dg_destination d))
  /\ read16 u 4 = Ok (zlen u) /\ slice u 6 8 = Ok (be16 (udp_stored d))
  /\ slice u 8 (zlen u) = Ok (dg_payload d).
Proof.
  intros H u. pose proof (zlen_udp_bytes d) as L. fold u in L. pose proof (zlen_nonneg (dg_payload d)).
  pose proof (dg_ok_size _ H). pose proof (dg_ok_source _ H) as [_ ?].
  pose proof (dg_ok_destination _ H) as [_ ?].
  rewrite !read16_ok by lia. split_and!.
  - simpl. f_equal. by apply de16_be16.
  - simpl. f_equal. by apply de16_be16.
  - rewrite L. simpl. f_equal. apply de16_be16. unfold U16MAX, W16 in *. lia.
  - rewrite slice_ok by lia. done.
  - clear L. unfold u, udp_bytes. rewrite app_assoc. apply slice_tail. unfold udp_pre. zl.
Qed.

Lemma udp_parse_datagram d id pad : dg_ok d -> udp_parse (udp_datagram d id ++ pad) = Ok d.
Proof.
  intros H. pose proof (dg_ok_source _ H) as [Hs _]. pose proof (dg_ok_destination _ H) as [Hd _].
  pose proof (dg_ok_size _ H) as Hz. pose proof (zlen_nonneg (dg_payload d)). pose proof (zlen_nonneg pad).
  set (total := zlen (dg_payload d) + 28).
  assert (0 <= total < W16) as Hr by (unfold total, W16, U16MAX in *; lia).
  unfold udp_datagram. fold total. rewrite <- app_assoc. set (rest := udp_bytes d ++ pad).
  destruct (ip_header_fields total id 17 _ _ rest Hr Hs Hd)
    as (E0 & E9 & E8 & E2 & Eh & E6 & E12 & E16 & Esl).
  set (p := ip_header _ _ _ _ _ ++ rest) in *.
  assert (zlen p = total + zlen pad) as Lp.
  { unfold p, rest. rewrite !zlen_app, zlen_udp_bytes, zlen_ip_header. lia. }
  unfold udp_parse. rewrite (proj2 (Z.ltb_ge _ _)) by (rewrite Lp; unfold total; lia).
  rewrite E0, E9, E8. cbn [obind]. decide_if false.
  rewrite E2, E6, Eh. cbn [obind]. rewrite ip_header_verifies by (unfold is_byte; lia).
  rewrite !(proj2 (Z.ltb_ge _ _)) by lia. decide_if false.
  rewrite E12, E16, Esl by lia. cbn [obind].
  assert (take (Z.to_nat (total - 20)) rest = udp_bytes d) as ->.
  { unfold rest. pose proof (zlen_udp_bytes d). unfold zlen in *. apply take_app_length'. lia. }
  destruct (udp_bytes_fields d H) as (-> & -> & -> & -> & ->). cbn [obind].
  rewrite Z.eqb_refl, udp_bytes_verify by done. cbn [negb orb]. rewrite andb_false_r.
  by destruct d as [[] [] ?].
Qed.

(** The parser on arbitrary bytes. *)
Lemma udp_parse_spec packet :
  bytes_ok packet ->
  udp_parse packet = Err InvalidData \/
  exists d, udp_parse packet = Ok d /\ dg_ok d /\ zlen (dg_payload d) + 28 <= zlen packet.
Proof.
  intros Hb. unfold udp_parse. destruct (zlen packet <? 28) eqn:E1; [by left|]. bools.
  rewrite !get_ok by lia. cbn [obind]. destruct (_ || _); [by left|].
  rewrite !read16_ok by lia. cbn [obind]. rewrite slice_ok by lia. cbn [obind].
  set (total := de16 _ _).
  destruct (_ || _) eqn:E3; [by left|]. bools. destruct E3 as [[[E3 E4] _] _].
  assert (total < W16) as Ht by (apply de16_range; by apply bytes_nth).
  rewrite !read32_ok, slice_ok by lia. cbn [obind]. set (udp := take _ _).
  assert (zlen udp = total - 20) as Lu by (unfold udp; zl).
  assert (bytes_ok udp) as Bu by (unfold udp; eauto with net).
  rewrite read16_ok, slice_ok by lia. cbn [obind]. destruct (_ || _); [by left|].
  rewrite !read16_ok, slice_ok by lia. cbn [obind]. right. eexists. split; [done|].
  split; [constructor|]; simpl; try (by eauto 6 with net).
  1,2: split; simpl; (apply de32_range || apply de16_range); by apply bytes_nth.
  all: autorewrite with zlen; rewrite ?Lu; unfold W16, U16MAX in *; lia.
Qed.

(** ** Properties *)

(** UDP round trip: [build_ipv4] refuses exactly the payloads that do not fit; what it
    writes parses back to the same endpoints and payload, whatever the identification and
    any link-layer padding, including the datagrams whose checksum is sent as [0xffff]. *)
Theorem udp_roundtrip b d id pad :
  buf_wf b -> sock_ok (dg_source d) -> sock_ok (dg_destination d) -> bytes_ok (dg_payload d) ->
  if (zlen (dg_payload d) + 28 <=? U16MAX) && (zlen (dg_payload d) + 28 <=? tail_capacity b)
  then exists b', udp_build b (dg_source d) (dg_destination d) (dg_payload d) id = Ok b'
         /\ buf_wf b' /\ udp_parse (as_slice b' ++ pad) = Ok d
  else udp_build b (dg_source d) (dg_destination d) (dg_payload d) id = Err InvalidInput.
Proof.
  intros W Hs Hd Hp. pose proof (udp_build_spec b d id W) as B. destruct (_ && _) eqn:E; [|done].
  bools. destruct B as (b' & E' & W' & A & _). exists b'. split_and!; try done. rewrite A.
  apply udp_parse_datagram. constructor; [done..|lia].
Qed.

(** The UDP parser is total: on arbitrary bytes it returns, with [InvalidData] as its
    only error, and an accepted datagram has its fields in range and its payload inside
    the input. *)
Theorem udp_parse_total packet :
  bytes_ok packet ->
  udp_parse packet = Err InvalidData \/
  exists d, udp_parse packet = Ok d /\ dg_ok d /\ zlen (dg_payload d) + 28 <= zlen packet.
Proof. apply udp_parse_spec. Qed.

(** ** Witnesses *)
Definition udp_example : Datagram :=
  mkDatagram (mkSock 0x0a000001 12345) (mkSock 0x0a000002 9000) [104; 101; 108; 108; 111].
Lemma udp_roundtrip_witness :
  exists b', udp_build (mkPacketBuf (replicate 100 7) 32 0 0 None)
               (mkSock 0x0a000001 12345) (mkSock 0x0a000002 9000) [104; 101; 108; 108; 111] 3 = Ok b'
    /\ udp_parse (as_slice b' ++ [0]) = Ok udp_example.
Proof.
  destruct (udp_roundtrip (mkPacketBuf (replicate 100 7) 32 0 0 None) udp_example 3 [0])
    as (b' & E & _ & P).
  - unfold buf_wf, capacity. simpl. unfold zlen. simpl. lia.
  - unfold sock_ok, W32, W16. simpl. lia.
  - unfold sock_ok, W32, W16. simpl. lia.
  - repeat constructor; unfold is_byte; lia.
  - exists b'. split; [exact E|exact P].
Defined.
Lemma udp_parse_total_witness :
  udp_parse [0x45; 0; 0; 1] = Err InvalidData \/
  exists d, udp_parse [0x45; 0; 0; 1] = Ok d /\ dg_ok d /\ zlen (dg_payload d) + 28 <= 4.
Proof. apply udp_parse_total. repeat constructor; unfold is_byte; lia. Defined.
