(* ===== verification/Ethernet.v ===== *)
(** * Ethernet II headers ([src/net/ethernet.rs]) and ARP messages ([src/net/arp.rs])

    A MAC address is a list of six bytes, an IPv4 address a [u32]. *)
From Stdlib Require Import ZArith Lia Bool.
From stdpp Require Import base numbers option list.
From S2P Require Import Prelude BufferPool Addr.
#[local] Open Scope Z_scope.

Definition mac_ok (m : list Z) : Prop := zlen m = 6 /\ bytes_ok m.

(** ** Ethernet *)
Record Header : Type := mkHeader {
  eth_destination : list Z;
  eth_source : list Z;
  ether_type : Z
}.
Definition HEADER : Z := 14.
Definition ETH_IPV4 : Z := 0x0800.
Definition ETH_ARP : Z := 0x0806.
Definition BROADCAST : list Z := [0xff; 0xff; 0xff; 0xff; 0xff; 0xff].

Definition eth_unicast (mac : list Z) : outcome bool :=
  if list_eqb mac [0; 0; 0; 0; 0; 0] then Ok false
  else let* m0 := get mac 0 in Ok (Z.land m0 1 =? 0).

Definition eth_parse (bytes : list Z) : outcome (option Header) :=
  if zlen bytes <? HEADER then Ok None
  else
    let* destination := slice bytes 0 6 in
    let* source := slice bytes 6 12 in
    let* kind := read16 bytes 12 in
    Ok (Some (mkHeader destination source kind)).

Definition eth_encode (h : Header) : outcome (list Z) :=
  let bytes := replicate 14 0 in
  let* bytes := copy_at bytes 0 (eth_destination h) in
  let* bytes := copy_at bytes 6 (eth_source h) in
  copy_at bytes 12 (be16 (ether_type h)).

(** [prepend]: the header and the padding of a short frame. *)
Definition eth_prepend (frame : PacketBuf) (source destination : list Z) (kind : Z)
  : outcome PacketBuf :=
  let* header := eth_encode (mkHeader destination source kind) in
  let* frame := push_header frame header in
  let len := buf_len frame in
  if len <? 60 then
    let* frame := set_len frame 60 in
    let* packet := fill0 (as_slice frame) len 60 in
    Ok (store_packet frame packet)
  else Ok frame.

Definition header_prepend (h : Header) (frame : PacketBuf) : outcome PacketBuf :=
  if (data_offset frame <? HEADER) || (tail_capacity frame + HEADER <? 60)
  then Err InvalidInput
  else eth_prepend frame (eth_source h) (eth_destination h) (ether_type h).

Definition strip (frame : PacketBuf) : outcome (Header * PacketBuf) :=
  let* header := eth_parse (as_slice frame) in
  match header with
  | None => Err InvalidData
  | Some header => let* frame := pull_header frame HEADER in Ok (header, frame)
  end.

(** *** The bytes of a header *)
Definition header_ok (h : Header) : Prop :=
  mac_ok (eth_destination h) /\ mac_ok (eth_source h) /\ 0 <= ether_type h < W16.
Definition header_bytes (h : Header) : list Z :=
  eth_destination h ++ eth_source h ++ be16 (ether_type h).

Lemma mac_cells (m : list Z) : zlen m = 6 -> exists a b c d e f, m = [a; b; c; d; e; f].
Proof.
  intros H. destruct m as [|a [|b [|c [|d [|e [|f [|g m]]]]]]]; unfold zlen in H; simpl in H; try lia.
  by exists a, b, c, d, e, f.
Qed.
Lemma eth_encode_spec h :
  zlen (eth_destination h) = 6 -> zlen (eth_source h) = 6 -> eth_encode h = Ok (header_bytes h).
Proof.
  destruct h as [d s k]. simpl. intros Hd Hs.
  destruct (mac_cells d Hd) as (d0 & d1 & d2 & d3 & d4 & d5 & ->).
  by destruct (mac_cells s Hs) as (s0 & s1 & s2 & s3 & s4 & s5 & ->).
Qed.
Lemma zlen_header_bytes h :
  zlen (eth_destination h) = 6 -> zlen (eth_source h) = 6 -> zlen (header_bytes h) = 14.
Proof. intros. unfold header_bytes. zl. Qed.
Lemma eth_parse_bytes h rest : header_ok h -> eth_parse (header_bytes h ++ rest) = Ok (Some h).
Proof.
  intros ((Hd & _) & (Hs & _) & Hk). pose proof (zlen_nonneg rest).
  pose proof (zlen_header_bytes h Hd Hs) as L. unfold eth_parse.
  rewrite (proj2 (Z.ltb_ge _ _)) by (rewrite zlen_app, L; unfold HEADER; lia).
  assert (0 <= ether_type h < W16) as Hk' by done.
  destruct h as [d s k]. simpl in *.
  destruct (mac_cells d Hd) as (d0 & d1 & d2 & d3 & d4 & d5 & ->).
  destruct (mac_cells s Hs) as (s0 & s1 & s2 & s3 & s4 & s5 & ->). unfold header_bytes. simpl.
  rewrite !slice_ok, read16_ok by zl. simpl. do 3 f_equal. by apply de16_be16.
Qed.

(** The frame after [prepend]: the header, the packet, and zeros up to 60 bytes. *)
Definition padding (n : Z) : list Z := replicate (Z.to_nat (60 - n)) 0.
Lemma eth_prepend_spec b h :
  buf_wf b -> zlen (eth_destination h) = 6 -> zlen (eth_source h) = 6 ->
  HEADER <= data_offset b -> 60 <= tail_capacity b + HEADER ->
  exists b', eth_prepend b (eth_source h) (eth_destination h) (ether_type h) = Ok b' /\ buf_wf b'
    /\ as_slice b' = header_bytes h ++ as_slice b ++ padding (HEADER + buf_len b)
    /\ capacity b' = capacity b /\ data_offset b' = data_offset b - HEADER
    /\ buf_idx b' = buf_idx b /\ buf_pool b' = buf_pool b.
Proof.
  intros W Hd Hs Ho Ht. unfold eth_prepend.
  replace (mkHeader (eth_destination h) (eth_source h) (ether_type h)) with h by (by destruct h).
  rewrite (eth_encode_spec h Hd Hs). cbn [obind]. pose proof (zlen_header_bytes h Hd Hs) as Lh.
  destruct (push_header_spec b (header_bytes h) W) as (b1 & -> & W1 & S1 & O1 & L1 & C1 & I1 & P1).
  { rewrite Lh. exact Ho. }
  cbn [obind]. rewrite Lh in O1, L1. unfold padding.
  destruct (buf_len b1 <? 60) eqn:E; bools.
  - assert (tail_capacity b1 = tail_capacity b + HEADER) as T1
      by (unfold tail_capacity, HEADER in *; rewrite C1, O1; lia).
    destruct (set_len_spec b1 60 W1) as [-> W2]; [rewrite T1; lia|]. cbn [obind].
    pose proof (proj1 (proj2 W1)) as Hn.
    set (b2 := b1 <| buf_len := 60 |>) in *.
    assert (zlen (as_slice b2) = 60) as L2 by (by rewrite zlen_as_slice).
    rewrite fill0_ok by lia. cbn [obind]. rewrite (drop_ge _ (Z.to_nat 60)) by (unfold zlen in *; lia).
    rewrite app_nil_r.
    assert (take (Z.to_nat (buf_len b1)) (as_slice b2) = as_slice b1) as ->.
    { unfold as_slice, b2. simpl. rewrite take_take. f_equal. lia. }
    edestruct (store_packet_spec b2 (as_slice b1 ++ replicate (Z.to_nat (60 - buf_len b1)) 0) W2)
      as (W3 & A3 & C3).
    { rewrite zlen_app, zlen_as_slice, zlen_replicate by done. unfold b2. simpl. lia. }
    eexists. split; [done|]. split; [exact W3|]. split.
    + rewrite A3, S1, <- app_assoc. do 3 f_equal. rewrite L1. unfold HEADER. f_equal. lia.
    + rewrite C3. done.
  - exists b1. split; [done|]. split; [done|]. split; [|done].
    rewrite S1. f_equal. replace (Z.to_nat _) with 0%nat by (unfold HEADER; lia).
    by rewrite app_nil_r.
Qed.

(** Every write keeps the bytes of the frame in range. *)
Lemma fill0_bytes l a b l' : fill0 l a b = Ok l' -> bytes_ok l -> bytes_ok l'.
Proof.
  unfold fill0. destruct (_ && _); [|done]. intros [= <-] Hl. rewrite !bytes_app. eauto with net.
Qed.
Lemma slice_frame_bytes b : bytes_ok (buf_mem b) -> bytes_ok (as_slice b).
Proof. intros H. unfold as_slice. by apply bytes_take, bytes_drop. Qed.
Lemma eth_prepend_bytes b src dst kind b' :
  eth_prepend b src dst kind = Ok b' -> mac_ok src -> mac_ok dst -> bytes_ok (buf_mem b) ->
  bytes_ok (buf_mem b').
Proof.
  intros E [Hs Bs] [Hd Bd] Hb. unfold eth_prepend in E.
  rewrite (eth_encode_spec (mkHeader dst src kind) Hd Hs) in E. cbn [obind] in E.
  apply obind_Ok in E as (f & E1 & E). unfold push_header in E1. destruct (_ <=? _); [|done].
  cbv zeta in E1. apply obind_Ok in E1 as (p & E1 & [= <-]).
  assert (bytes_ok (header_bytes (mkHeader dst src kind))) as Bh.
  { unfold header_bytes. rewrite !bytes_app. split_and!; try done. apply bytes_be16. }
  apply copy_at_bytes in E1; [|by apply slice_frame_bytes|done].
  match type of E with context [store_packet ?x p] => set (f := store_packet x p) in * end.
  assert (bytes_ok (buf_mem f)) as Bf by (by apply store_packet_bytes). clearbody f.
  destruct (_ <? _); [|by injection E as <-].
  apply obind_Ok in E as (f1 & E2 & E). unfold set_len in E2. destruct (_ <=? _); [|done]. injection E2 as <-.
  apply obind_Ok in E as (q & E3 & [= <-]). apply fill0_bytes in E3; [|by apply slice_frame_bytes].
  by apply store_packet_bytes.
Qed.

(** ** ARP *)
Inductive Operation : Type := Request | Reply_.
#[export] Instance Operation_eq_dec : EqDecision Operation.
Proof. solve_decision. Defined.
Record ArpPacket : Type := mkArp {
  operation : Operation;
  sender_mac : list Z;
  sender_ip : Z;
  target_mac : list Z;
  target_ip : Z
}.
Definition ARP_LEN : Z := 28.

Definition arp_parse (bytes : list Z) : outcome (option ArpPacket) :=
  if zlen bytes <? ARP_LEN then Ok None else
  let* fixed := slice bytes 0 6 in
  if negb (list_eqb fixed [0; 1; 8; 0; 6; 4]) then Ok None else
  let* op := read16 bytes 6 in
  let operation := if op =? 1 then Some Request else if op =? 2 then Some Reply_ else None in
  match operation with
  | None => Ok None
  | Some operation =>
      let* smac := slice bytes 8 14 in
      let* sip := read32 bytes 14 in
      let* tmac := slice bytes 18 24 in
      let* tip := read32 bytes 24 in
      Ok (Some (mkArp operation smac sip tmac tip))
  end.

Definition arp_encode (p : ArpPacket) : outcome (list Z) :=
  let bytes := replicate 28 0 in
  let* bytes := copy_at bytes 0 [0; 1; 8; 0; 6; 4] in
  let* bytes := copy_at bytes 6 (be16 match operation p with Request => 1 | Reply_ => 2 end) in
  let* bytes := copy_at bytes 8 (sender_mac p) in
  let* bytes := copy_at bytes 14 (octets (sender_ip p)) in
  let* bytes := copy_at bytes 18 (target_mac p) in
  copy_at bytes 24 (octets (target_ip p)).

Record arp_ok (p : ArpPacket) : Prop := {
  arp_smac : mac_ok (sender_mac p);
  arp_tmac : mac_ok (target_mac p);
  arp_sip : 0 <= sender_ip p < W32;
  arp_tip : 0 <= target_ip p < W32
}.
Definition arp_bytes (p : ArpPacket) : list Z :=
  [0; 1; 8; 0; 6; 4] ++ be16 match operation p with Request => 1 | Reply_ => 2 end
  ++ sender_mac p ++ octets (sender_ip p) ++ target_mac p ++ octets (target_ip p).

Lemma arp_encode_spec p : arp_ok p -> arp_encode p = Ok (arp_bytes p).
Proof.
  intros [[Hs _] [Ht _] _ _]. destruct p as [op s si t ti]. simpl in *.
  destruct (mac_cells s Hs) as (s0 & s1 & s2 & s3 & s4 & s5 & ->).
  destruct (mac_cells t Ht) as (t0 & t1 & t2 & t3 & t4 & t5 & ->). by destruct op.
Qed.
Lemma zlen_arp_bytes p : arp_ok p -> zlen (arp_bytes p) = 28.
Proof. intros [[Hs _] [Ht _] _ _]. unfold arp_bytes, octets. zl. Qed.
Lemma arp_bytes_ok p : arp_ok p -> bytes_ok (arp_bytes p).
Proof.
  intros [[_ Hs] [_ Ht] _ _]. unfold arp_bytes, octets. rewrite !bytes_app. split_and!; try done; eauto with net.
  repeat constructor; unfold is_byte; lia.
Qed.
Lemma be32_cells v : 0 <= v < W32 -> exists a b c d, be32 v = [a; b; c; d] /\ de32 a b c d = v.
Proof. intros H. unfold be32. eexists _, _, _, _. split; [done|]. by apply de32_be32. Qed.
Lemma arp_parse_bytes p pad : arp_ok p -> arp_parse (arp_bytes p ++ pad) = Ok (Some p).
Proof.
  intros H. pose proof (zlen_nonneg pad). set (l := arp_bytes p ++ pad).
  assert (zlen l = 28 + zlen pad) as L by (unfold l; rewrite zlen_app, zlen_arp_bytes; done).
  unfold arp_parse, ARP_LEN. rewrite (proj2 (Z.ltb_ge _ _)) by lia.
  rewrite !slice_ok, read16_ok, !read32_ok by lia. clear L.
  destruct H as [[Hs _] [Ht _] Hsi Hti]. destruct p as [op s si t ti].
  unfold l, arp_bytes, octets. cbn [operation sender_mac sender_ip target_mac target_ip] in *.
  destruct (mac_cells s Hs) as (s0 & s1 & s2 & s3 & s4 & s5 & ->).
  destruct (mac_cells t Ht) as (t0 & t1 & t2 & t3 & t4 & t5 & ->).
  destruct (be32_cells si Hsi) as (a & b & c & d & -> & <-).
  destruct (be32_cells ti Hti) as (e & f & g & h & -> & <-). by destruct op.
Qed.
Lemma arp_parse_spec bytes :
  bytes_ok bytes ->
  arp_parse bytes = Ok None \/ exists p, arp_parse bytes = Ok (Some p) /\ arp_ok p.
Proof.
  intros Hb. unfold arp_parse, ARP_LEN. destruct (_ <? _) eqn:E; bools; [by left|].
  rewrite slice_ok by lia. cbn [obind]. destruct (negb _); [by left|].
  rewrite read16_ok by lia. cbn [obind]. cbv zeta.
  set (op := if _ =? 1 then _ else _). destruct op as [op|]; [|by left].
  rewrite !slice_ok, !read32_ok by lia. cbn [obind]. right. eexists. split; [done|].
  constructor; simpl.
  1,2: split; [zl|eauto with net].
  all: apply de32_range; by apply bytes_nth.
Qed.

(** ** Properties *)

(** Ethernet framing round trip: prepending a header fails, and only then, without
    headroom or room for the minimum frame; otherwise stripping the result yields the
    same header and the same packet followed by the zero padding of a 60-byte frame. *)
Theorem ethernet_roundtrip h b :
  buf_wf b -> header_ok h ->
  if (data_offset b <? HEADER) || (tail_capacity b + HEADER <? 60)
  then header_prepend h b = Err InvalidInput
  else exists b1 b2, header_prepend h b = Ok b1 /\ 60 <= zlen (as_slice b1)
         /\ strip b1 = Ok (h, b2) /\ as_slice b2 = as_slice b ++ padding (HEADER + buf_len b)
         /\ data_offset b2 = data_offset b /\ buf_wf b2.
Proof.
  intros W Hh. unfold header_prepend. destruct (_ || _) eqn:E; [done|]. bools. destruct E as [E1 E2].
  pose proof Hh as ((Hd & _) & (Hs & _) & _).
  destruct (eth_prepend_spec b h W Hd Hs E1 E2) as (b1 & -> & W1 & A1 & C1 & O1 & _).
  pose proof (zlen_header_bytes h Hd Hs) as L. pose proof (zlen_as_slice b W) as Lb.
  pose proof (zlen_as_slice b1 W1) as L1. pose proof (proj1 (proj2 W)).
  assert (60 <= zlen (as_slice b1) /\ HEADER <= buf_len b1) as [L60 L14].
  { rewrite <- L1, A1, !zlen_app, L, Lb. unfold padding. rewrite zlen_replicate. unfold HEADER. lia. }
  destruct (pull_header_spec b1 HEADER W1) as (b2 & E3 & W2 & A2 & O2 & _); [unfold HEADER in *; lia|].
  exists b1, b2. split; [done|]. split; [done|]. split; [|split; [|split; [lia|done]]].
  - unfold strip. rewrite A1, (eth_parse_bytes h _ Hh). cbn [obind]. by rewrite E3.
  - rewrite A2, A1. apply drop_app_length'. unfold zlen, HEADER in *. lia.
Qed.

(** ARP round trip and totality: an encoded message parses back to itself, also
    with Ethernet padding behind it; on arbitrary bytes the parser returns, and what it
    accepts is well formed. *)
Theorem arp_roundtrip p pad bytes :
  arp_ok p -> bytes_ok bytes ->
  (exists l, arp_encode p = Ok l /\ zlen l = ARP_LEN /\ arp_parse (l ++ pad) = Ok (Some p))
  /\ (arp_parse bytes = Ok None \/ exists q, arp_parse bytes = Ok (Some q) /\ arp_ok q).
Proof.
  intros Hp Hb. split; [|by apply arp_parse_spec]. exists (arp_bytes p).
  split; [by apply arp_encode_spec|]. split; [by apply zlen_arp_bytes|by apply arp_parse_bytes].
Qed.

(** ** Witnesses *)
Lemma ethernet_roundtrip_witness :
  exists b1 b2, header_prepend (mkHeader BROADCAST [2; 0; 0; 0; 0; 1] ETH_IPV4)
                  (mkPacketBuf (replicate 100 7) 14 20 0 None) = Ok b1
    /\ 60 <= zlen (as_slice b1)
    /\ strip b1 = Ok (mkHeader BROADCAST [2; 0; 0; 0; 0; 1] ETH_IPV4, b2).
Proof.
  destruct (ethernet_roundtrip (mkHeader BROADCAST [2; 0; 0; 0; 0; 1] ETH_IPV4)
              (mkPacketBuf (replicate 100 7) 14 20 0 None)) as (b1 & b2 & E1 & L & E2 & _).
  - unfold buf_wf, capacity. simpl. unfold zlen. simpl. lia.
  - split; [|split].
    + split; [reflexivity|]. repeat constructor; unfold is_byte; lia.
    + split; [reflexivity|]. repeat constructor; unfold is_byte; lia.
    + unfold ETH_IPV4, W16. simpl. lia.
  - exists b1, b2. split; [exact E1|]. split; [exact L|exact E2].
Defined.
Definition who_has : ArpPacket :=
  mkArp Request [2; 0; 0; 0; 0; 1] 0x0a000001 [0; 0; 0; 0; 0; 0] 0x0a000002.
Lemma arp_roundtrip_witness :
  (exists l, arp_encode who_has = Ok l /\ zlen l = ARP_LEN /\ arp_parse (l ++ [0; 0]) = Ok (Some who_has))
  /\ (arp_parse [1; 2] = Ok None \/ exists q, arp_parse [1; 2] = Ok (Some q) /\ arp_ok q).
Proof.
  apply arp_roundtrip.
  - constructor; simpl; [split; [reflexivity|]; repeat constructor; unfold is_byte; lia..| |];
      unfold W32; lia.
  - repeat constructor; unfold is_byte; lia.
Defined.
