(* ===== verification/Route.v ===== *)
(** * IPv4 routes ([src/net/route.rs]) and neighbour states ([src/net/neighbor.rs]) *)
From Stdlib Require Import ZArith Lia Bool.
From stdpp Require Import base numbers option sets list.
From S2P Require Import Prelude Addr.
#[local] Open Scope Z_scope.

(** ** Routes *)
Record Route : Type := mkRoute { network : Z; prefix_len : Z; gateway : option Z }.
#[export] Instance Route_eq_dec : EqDecision Route.
Proof. solve_decision. Defined.

(** [u32::MAX << (32 - prefix)], the bits beyond 32 are lost. *)
Definition mask (prefix : Z) : Z :=
  if prefix =? 0 then 0 else u32 (Z.shiftl U32MAX (32 - prefix)).
Definition ip_unicast (a : Z) : bool :=
  negb (is_unspecified a) && negb (is_broadcast a) && negb (is_multicast a) && negb (is_loopback a).

Definition route_new (address prefix : Z) (gw : option Z) : outcome Route :=
  if (32 <? prefix) || match gw with Some a => negb (ip_unicast a) | None => false end
  then Err InvalidInput
  else Ok (mkRoute (Z.land address (mask prefix)) prefix gw).
Definition contains (r : Route) (a : Z) : bool := Z.land a (mask (prefix_len r)) =? network r.
Definition next_hop (r : Route) (destination : Z) : Z := default destination (gateway r).

Record RouteTable : Type := mkRouteTable { entries : list Route; limit : Z }.
#[export] Instance eta_RouteTable : Eta RouteTable := fun t => mkRouteTable (entries t) (limit t).
Definition table_new (limit : Z) : RouteTable := mkRouteTable [] limit.

(** The key under which a route is stored. *)
Definition same_prefix (r s : Route) : bool :=
  (network r =? network s) && (prefix_len r =? prefix_len s).
(** [iter_mut().find()] and the assignment through the reference. *)
Fixpoint replace_route (rs : list Route) (route : Route) : option (list Route) :=
  match rs with
  | [] => None
  | r :: rs =>
      if same_prefix r route then Some (route :: rs)
      else match replace_route rs route with Some rs => Some (r :: rs) | None => None end
  end.
Definition route_insert (t : RouteTable) (route : Route) : outcome unit * RouteTable :=
  match replace_route (entries t) route with
  | Some rs => (Ok tt, t <| entries := rs |>)
  | None =>
      if zlen (entries t) =? limit t then (Err WouldBlock, t)
      else (Ok tt, t <| entries ::= fun rs => rs ++ [route] |>)
  end.

(** [max_by_key]: the last of the elements with the greatest key. *)
Definition max_by_key (key : Route -> Z) (rs : list Route) : option Route :=
  foldl (fun best r => match best with
                       | Some b => if key b <=? key r then Some r else Some b
                       | None => Some r
                       end) None rs.
Definition route_lookup (t : RouteTable) (destination : Z) : option Route :=
  max_by_key prefix_len (filter (fun r => contains r destination = true) (entries t)).

Definition route_remove (t : RouteTable) (address prefix : Z) : outcome bool * RouteTable :=
  match route_new address prefix None with
  | Ok key =>
      let t' := t <| entries ::= filter (fun r => same_prefix r key = false) |> in
      (Ok (negb (zlen (entries t') =? zlen (entries t))), t')
  | Err k => (Err k, t)
  | Panic => (Panic, t)
  | OutOfFuel => (OutOfFuel, t)
  end.

(** ** Neighbours *)
Inductive NeighborState : Type :=
| Static (mac : list Z)
| Reachable (mac : list Z) (expires : Z)
| Resolving (attempts next_probe expires : Z)
| NeighborFailed (retry_after : Z).
Definition neighbor_mac (n : NeighborState) (now : Z) : option (list Z) :=
  match n with
  | Static mac => Some mac
  | Reachable mac expires => if now <? expires then Some mac else None
  | _ => None
  end.

(** ** Masks keep the upper bits *)
Lemma mask_eq p : 0 <= p <= 32 -> mask p = W32 - 2 ^ (32 - p).
Proof.
  intros Hp. unfold mask. destruct (p =? 0) eqn:E; bools; [by subst|].
  rewrite Z.shiftl_mul_pow2 by lia. unfold u32, U32MAX.
  assert (0 < 2 ^ (32 - p)) by (apply Z.pow_pos_nonneg; lia).
  assert (2 ^ (32 - p) < W32) by (change W32 with (2 ^ 32); apply Z.pow_lt_mono_r; lia).
  replace (4294967295 * 2 ^ (32 - p)) with (W32 - 2 ^ (32 - p) + (2 ^ (32 - p) - 1) * W32)
    by (unfold W32; lia).
  rewrite Z.mod_add by (unfold W32; lia). apply Z.mod_small. lia.
Qed.
(** Masking rounds down to a multiple of the block size. *)
Lemma land_mask a p : 0 <= a < W32 -> 0 <= p <= 32 ->
  Z.land a (mask p) = a / 2 ^ (32 - p) * 2 ^ (32 - p).
Proof.
  intros Ha Hp. rewrite mask_eq by done. apply Z.bits_inj'. intros n Hn.
  assert (W32 - 2 ^ (32 - p) = Z.shiftl (Z.ones p) (32 - p)) as ->.
  { rewrite Z.shiftl_mul_pow2 by lia. rewrite Z.ones_equiv, <- Z.sub_1_r, Z.mul_sub_distr_r.
    rewrite <- Z.pow_add_r by lia. replace (p + (32 - p)) with 32 by lia.
    change W32 with (2 ^ 32). lia. }
  rewrite <- (Z.shiftr_div_pow2 a), <- Z.shiftl_mul_pow2 by lia.
  rewrite Z.land_spec, !Z.shiftl_spec by lia.
  destruct (decide (n < 32 - p)).
  - rewrite !(Z.testbit_neg_r _ (n - (32 - p))) by lia. by rewrite andb_false_r.
  - rewrite Z.shiftr_spec by lia. replace (n - (32 - p) + (32 - p)) with n by lia.
    destruct (decide (n < 32)).
    + rewrite Z.ones_spec_low by lia. by rewrite andb_true_r.
    + rewrite Z.ones_spec_high by lia. rewrite andb_false_r. symmetry.
      destruct (decide (a = 0)) as [-> |]; [apply Z.bits_0|].
      apply Z.bits_above_log2; [lia|]. apply Z.log2_lt_pow2; [lia|].
      eapply Z.lt_le_trans with (2 ^ 32); [apply Ha|]. apply Z.pow_le_mono_r; lia.
Qed.

(** ** The table invariant *)
Record route_ok (r : Route) : Prop := {
  rt_prefix : 0 <= prefix_len r <= 32;
  rt_network : 0 <= network r < W32;
  rt_normal : Z.land (network r) (mask (prefix_len r)) = network r
}.
Definition key_of (r : Route) : Z * Z := (network r, prefix_len r).
Record table_wf (t : RouteTable) : Prop := {
  tw_routes : Forall route_ok (entries t);
  tw_keys : NoDup (key_of <$> entries t);
  tw_limit : zlen (entries t) <= limit t
}.

Lemma same_prefix_eq r s : same_prefix r s = true <-> key_of r = key_of s.
Proof.
  unfold same_prefix, key_of. rewrite andb_true_iff, !Z.eqb_eq. split; [by intros [-> ->]|by intros [= -> ->]].
Qed.
Lemma mask_block p : 0 <= p <= 32 -> 0 < 2 ^ (32 - p) <= W32.
Proof.
  intros Hp. split; [apply Z.pow_pos_nonneg; lia|]. change W32 with (2 ^ 32). apply Z.pow_le_mono_r; lia.
Qed.
Lemma route_new_ok address prefix gw r :
  0 <= address < W32 -> 0 <= prefix -> route_new address prefix gw = Ok r ->
  route_ok r /\ prefix_len r = prefix /\ gateway r = gw
  /\ network r = address / 2 ^ (32 - prefix) * 2 ^ (32 - prefix).
Proof.
  intros Ha Hp. unfold route_new. destruct (_ || _) eqn:E; [done|]. apply orb_false_iff in E as [E _].
  bools. intros [= <-]. simpl. pose proof (mask_block prefix ltac:(lia)).
  assert (0 <= Z.land address (mask prefix) < W32) as Hr.
  { rewrite land_mask by lia. split; [apply Z.mul_nonneg_nonneg; [apply Z.div_pos; lia|lia]|].
    eapply Z.le_lt_trans; [|apply Ha]. rewrite Z.mul_comm. apply Z.mul_div_le. lia. }
  split; [|split; [done|split; [done|by rewrite land_mask by lia]]]. constructor; simpl; [lia|done|].
  by rewrite <- Z.land_assoc, Z.land_diag.
Qed.
(** [contains] is membership in the block of addresses that share the prefix. *)
Lemma contains_iff r a : route_ok r -> 0 <= a < W32 ->
  contains r a = true <-> a / 2 ^ (32 - prefix_len r) = network r / 2 ^ (32 - prefix_len r).
Proof.
  intros [Hp Hn Hm] Ha. unfold contains. rewrite Z.eqb_eq. pose proof (mask_block _ Hp) as Hb.
  rewrite land_mask in * by done. rewrite <- Hm at 1. split; [|by intros ->].
  intros E. apply Z.mul_cancel_r in E; [done|lia].
Qed.

Lemma max_by_key_spec key rs :
  match max_by_key key rs with
  | Some r => r ∈ rs /\ forall s, s ∈ rs -> key s <= key r
  | None => rs = []
  end.
Proof.
  unfold max_by_key. induction rs as [|r rs IH] using rev_ind; [done|]. rewrite foldl_app. simpl.
  destruct (foldl _ None rs) as [b|].
  - destruct IH as [Hb Hm]. destruct (key b <=? key r) eqn:E; bools; split; [set_solver| |set_solver|];
      intros s Hs; apply elem_of_app in Hs as [Hs|Hs];
      try (apply list_elem_of_singleton in Hs as ->); try specialize (Hm _ Hs); lia.
  - subst rs. split; [set_solver|]. intros s Hs. simpl in Hs. apply list_elem_of_singleton in Hs as ->. lia.
Qed.

Lemma replace_route_spec rs route :
  match replace_route rs route with
  | Some rs' => exists l1 old l2, rs = l1 ++ old :: l2 /\ rs' = l1 ++ route :: l2
      /\ key_of old = key_of route
  | None => forall s, s ∈ rs -> key_of s <> key_of route
  end.
Proof.
  induction rs as [|r rs IH]; simpl; [intros s Hs; by apply elem_of_nil in Hs|].
  destruct (same_prefix r route) eqn:E.
  - exists [], r, rs. by apply same_prefix_eq in E.
  - assert (key_of r <> key_of route) as Hr by (rewrite <- same_prefix_eq; congruence).
    destruct (replace_route rs route) as [rs'|].
    + destruct IH as (l1 & old & l2 & -> & -> & Ek). by exists (r :: l1), old, l2.
    + intros s Hs. apply elem_of_cons in Hs as [-> |Hs]; auto.
Qed.
(** Keys identify the entries of a table. *)
Lemma keys_inj rs r s : NoDup (key_of <$> rs) -> r ∈ rs -> s ∈ rs -> key_of r = key_of s -> r = s.
Proof.
  induction rs as [|x rs IH]; intros N Hr Hs E; [by apply elem_of_nil in Hr|].
  rewrite fmap_cons in N. apply NoDup_cons in N as [Nx N].
  apply elem_of_cons in Hr as [-> |Hr]; apply elem_of_cons in Hs as [-> |Hs]; [done|..|auto];
    exfalso; apply Nx; [rewrite E|rewrite <- E]; by apply list_elem_of_fmap_2.
Qed.

Lemma route_insert_spec t route :
  table_wf t -> route_ok route ->
  match route_insert t route with
  | (Ok _, t') => table_wf t' /\ limit t' = limit t
      /\ forall s, s ∈ entries t' <-> s = route \/ s ∈ entries t /\ key_of s <> key_of route
  | (Err k, t') => t' = t /\ k = WouldBlock /\ zlen (entries t) = limit t
      /\ forall s, s ∈ entries t -> key_of s <> key_of route
  | _ => False
  end.
Proof.
  intros [F N L] Hr. unfold route_insert. pose proof (replace_route_spec (entries t) route) as R.
  destruct (replace_route _ _) as [rs'|].
  - destruct R as (l1 & old & l2 & E & -> & Ek). rewrite E in *.
    assert (forall s, s ∈ l1 ++ l2 -> key_of s <> key_of route) as Hne.
    { rewrite fmap_app, fmap_cons, <- Permutation_middle in N. apply NoDup_cons in N as [N _].
      intros s Hs Es. apply N. rewrite Ek, <- Es, <- fmap_app. by apply list_elem_of_fmap_2. }
    split; [|split; [done|]].
    + apply Forall_app in F as [F1 F2]. apply Forall_cons in F2 as [_ F2]. constructor; simpl.
      * apply Forall_app. split; [done|]. by constructor.
      * rewrite fmap_app, fmap_cons in *. by rewrite <- Ek.
      * rewrite zlen_app, zlen_cons in *. lia.
    + intros s. simpl. rewrite !elem_of_app, !elem_of_cons in *. split.
      * intros [Hs|[-> |Hs]]; [right|by left|right]; (split; [by auto|]); apply Hne, elem_of_app; auto.
      * intros [-> |[[Hs|[-> |Hs]] Hk]]; auto. by destruct Hk.
  - destruct (_ =? _) eqn:El; bools; [done|]. split; [|split; [done|]].
    + constructor; simpl.
      * apply Forall_app. split; [done|]. by repeat constructor; apply Hr.
      * rewrite fmap_app. apply NoDup_app. split; [done|]. split; [|apply NoDup_singleton].
        intros k Hk Hin. apply list_elem_of_singleton in Hin as ->.
        apply list_elem_of_fmap in Hk as (s & Es & Hs). by apply (R s Hs).
      * rewrite zlen_app. change (zlen [route]) with 1. lia.
    + intros s. simpl. rewrite elem_of_app, list_elem_of_singleton. naive_solver.
Qed.

Lemma route_remove_spec t address prefix :
  table_wf t -> 0 <= address < W32 -> 0 <= prefix ->
  match route_remove t address prefix with
  | (Ok b, t') => table_wf t' /\ prefix <= 32
      /\ (forall s, s ∈ entries t' <-> s ∈ entries t
           /\ key_of s <> (address / 2 ^ (32 - prefix) * 2 ^ (32 - prefix), prefix))
      /\ (b = true <-> exists s, s ∈ entries t
           /\ key_of s = (address / 2 ^ (32 - prefix) * 2 ^ (32 - prefix), prefix))
  | (Err k, t') => t' = t /\ 32 < prefix
  | _ => False
  end.
Proof.
  intros [F N L] Ha Hp. unfold route_remove.
  destruct (route_new address prefix None) as [key|k| |] eqn:E;
    [|unfold route_new in E; destruct (_ || _) eqn:E1 in E; [|done]; split; [done|];
      apply orb_true_iff in E1 as [E1|E1]; [bools; lia|done]|..].
  2,3: unfold route_new in E; by destruct (_ || _) in E.
  destruct (route_new_ok _ _ _ _ Ha Hp E) as (Hk & Ep & _ & En).
  assert (key_of key = (address / 2 ^ (32 - prefix) * 2 ^ (32 - prefix), prefix)) as <-
    by (unfold key_of; by rewrite Ep, En).
  cbv zeta. set (rs' := filter (fun r => same_prefix r key = false) (entries t)).
  assert (forall s, s ∈ rs' <-> s ∈ entries t /\ key_of s <> key_of key) as Hin.
  { intros s. unfold rs'. rewrite list_elem_of_filter, <- same_prefix_eq.
    destruct (same_prefix s key); naive_solver. }
  assert (rs' `sublist_of` entries t) as Hsub by apply sublist_filter.
  split_and!; [|pose proof (rt_prefix _ Hk); lia|exact Hin|].
  - constructor; simpl; fold rs'.
    + apply Forall_forall. intros s Hs. rewrite Forall_forall in F. by apply F, Hin.
    + eapply sublist_NoDup; [exact N|]. clear -Hsub. induction Hsub; simpl; [done|by constructor..].
    + apply sublist_length in Hsub. unfold zlen in *. lia.
  - simpl. fold rs'. rewrite negb_true_iff, Z.eqb_neq. split.
    + intros Hl. destruct (decide (Exists (fun s => key_of s = key_of key) (entries t))) as [X|X].
      { by apply Exists_exists in X. }
      apply not_Exists_Forall in X; [|apply _]. destruct Hl. unfold rs'. clear -X. f_equal.
      induction X as [|s rs Hs _ IH]; [done|]. simpl in Hs. rewrite <- same_prefix_eq in Hs.
      rewrite filter_cons_True by (by destruct (same_prefix s key)). by rewrite IH.
    + intros (s & Hs & Es) Hl.
      assert (length rs' < length (entries t))%nat; [|unfold zlen in Hl; lia].
      apply (length_filter_lt _ _ s Hs). apply same_prefix_eq in Es. by rewrite Es.
Qed.

(** ** Properties *)

(** Routing is longest-prefix match: the route found covers the destination (both
    lie in the same aligned block of addresses) and every other covering route of the
    table has a strictly shorter prefix; no route is returned only when none covers. *)
Theorem route_lookup_longest t a :
  table_wf t -> 0 <= a < W32 ->
  match route_lookup t a with
  | Some r => r ∈ entries t
      /\ a / 2 ^ (32 - prefix_len r) = network r / 2 ^ (32 - prefix_len r)
      /\ forall s, s ∈ entries t -> contains s a = true -> s <> r -> prefix_len s < prefix_len r
  | None => forall s, s ∈ entries t -> contains s a = false
  end.
Proof.
  intros [F N _] Ha. unfold route_lookup. rewrite Forall_forall in F.
  pose proof (max_by_key_spec prefix_len (filter (fun r => contains r a = true) (entries t))) as M.
  destruct (max_by_key _ _) as [r|].
  - destruct M as [Hr Hm]. apply list_elem_of_filter in Hr as [Hc Hr].
    split; [done|]. split; [by apply contains_iff; auto|]. intros s Hs Hcs Hne.
    assert (prefix_len s <= prefix_len r) as Hle by (apply Hm, list_elem_of_filter; done).
    destruct (decide (prefix_len s = prefix_len r)) as [Hp|]; [|lia]. destruct Hne.
    apply (keys_inj (entries t)); try done. unfold key_of, contains in *. bools. congruence.
  - intros s Hs. destruct (contains s a) eqn:E; [|done].
    assert (s ∈ filter (fun r => contains r a = true) (entries t)) as Hin by (by apply list_elem_of_filter).
    rewrite M in Hin. by apply elem_of_nil in Hin.
Qed.

(** The route table is a bounded map keyed by the normalised prefix: [insert] stores the
    route and displaces exactly the one with the same prefix, or refuses when the table is
    full of others and changes nothing; [remove] deletes exactly that prefix and reports
    whether it was there.  Both keep the invariant. *)
Theorem route_table_map t route address prefix :
  table_wf t -> route_ok route -> 0 <= address < W32 -> 0 <= prefix ->
  match route_insert t route with
  | (Ok _, t') => table_wf t' /\ limit t' = limit t
      /\ forall s, s ∈ entries t' <-> s = route \/ s ∈ entries t /\ key_of s <> key_of route
  | (Err k, t') => t' = t /\ k = WouldBlock /\ zlen (entries t) = limit t
      /\ forall s, s ∈ entries t -> key_of s <> key_of route
  | _ => False
  end
  /\ match route_remove t address prefix with
     | (Ok b, t') => table_wf t' /\ prefix <= 32
         /\ (forall s, s ∈ entries t' <-> s ∈ entries t
              /\ key_of s <> (address / 2 ^ (32 - prefix) * 2 ^ (32 - prefix), prefix))
         /\ (b = true <-> exists s, s ∈ entries t
              /\ key_of s = (address / 2 ^ (32 - prefix) * 2 ^ (32 - prefix), prefix))
     | (Err k, t') => t' = t /\ 32 < prefix
     | _ => False
     end.
Proof. intros. split; [by apply route_insert_spec|by apply route_remove_spec]. Qed.

(** ** Witnesses *)
Definition table2 : RouteTable := mkRouteTable [mkRoute 0x0a000000 8 None; mkRoute 0x0a010000 16 (Some 0x0a000001)] 4.
Lemma table2_wf : table_wf table2.
Proof.
  constructor; simpl.
  - repeat constructor; try (vm_compute; congruence); simpl; lia.
  - apply NoDup_cons. split; [|apply NoDup_singleton]. intros Hin.
    apply list_elem_of_singleton in Hin. discriminate.
  - vm_compute. discriminate.
Qed.
Lemma route_lookup_longest_witness :
  route_lookup table2 0x0a010203 = Some (mkRoute 0x0a010000 16 (Some 0x0a000001))
  /\ 0x0a010203 / 2 ^ 16 = 0x0a010000 / 2 ^ 16.
Proof.
  pose proof (route_lookup_longest table2 0x0a010203 table2_wf ltac:(unfold W32; lia)) as R.
  assert (route_lookup table2 0x0a010203 = Some (mkRoute 0x0a010000 16 (Some 0x0a000001))) as E
    by (vm_compute; reflexivity).
  rewrite E in R. split; [exact E|]. apply R.
Defined.
Lemma route_table_map_witness :
  exists t', route_insert table2 (mkRoute 0x0b000000 8 None) = (Ok tt, t') /\ table_wf t'.
Proof.
  pose proof (route_table_map table2 (mkRoute 0x0b000000 8 None) 0x0a000000 8 table2_wf) as R.
  eexists. split; [vm_compute; reflexivity|]. apply R; try (unfold W32; lia).
  constructor; simpl; [lia|unfold W32; lia|by vm_compute].
Defined.
