(* ===== verification/Responder.v ===== *)
(** * The stateless responder ([src/net/mod.rs])

    [respond] answers ARP requests, ICMP echo requests and UDP datagrams to one port, in
    place, in the frame that carried the request.  A result that is not a reply leaves the
    frame alone. *)
From Stdlib Require Import ZArith Lia Bool.
From stdpp Require Import base numbers option list.
From S2P Require Import Prelude Checksum BufferPool Addr Ipv4 UdpWire Ethernet.
#[local] Open Scope Z_scope.

Inductive LinkLayer : Type := Ip | EthernetLink.
Inductive Reply : Type := ReplyArp | ReplyIcmp | ReplyUdp | Ignored | Malformed.
#[export] Instance Reply_eq_dec : EqDecision Reply.
Proof. solve_decision. Defined.
Definition is_reply (r : Reply) : bool :=
  match r with ReplyArp | ReplyIcmp | ReplyUdp => true | Ignored | Malformed => false end.

Record Responder : Type := mkResponder {
  rp_ipv4 : list Z;
  rp_mac : list Z;
  rp_udp_port : option Z
}.

(** At most two VLAN tags in front of the protocol. *)
Fixpoint untag (n : nat) (packet : list Z) (offset protocol : Z) : outcome (option (Z * Z)) :=
  match n with
  | O => Ok (Some (offset, protocol))
  | S n =>
      if negb (protocol =? 0x8100) && negb (protocol =? 0x88a8) then Ok (Some (offset, protocol))
      else if zlen packet <? offset + 4 then Ok None
      else
        let* protocol := read16 packet (offset + 2) in
        untag n packet (offset + 4) protocol
  end.
Definition locate (packet : list Z) (link : LinkLayer) : outcome (option (Z * Z)) :=
  match link with
  | EthernetLink =>
      if zlen packet <? 14 then Ok None
      else let* protocol := read16 packet 12 in untag 2 packet 14 protocol
  | Ip => Ok (Some (0, 0x0800))
  end.

Definition finish_frame (frame : PacketBuf) (len : Z) (link : LinkLayer) : outcome PacketBuf :=
  let padded := match link with
                | EthernetLink => Z.min (Z.max len 60) (tail_capacity frame)
                | Ip => len
                end in
  let* frame := set_len frame padded in
  let* packet := fill0 (as_slice frame) len (zlen (as_slice frame)) in
  Ok (store_packet frame packet).

Definition arp_reply (self : Responder) (frame : PacketBuf) (offset : Z)
  : outcome (Reply * PacketBuf) :=
  let packet := as_slice frame in
  let* arp := slice packet offset (zlen packet) in
  if zlen arp <? 28 then Ok (Malformed, frame) else
  let* htype := read16 arp 0 in
  let* ptype := read16 arp 2 in
  let* sizes := slice arp 4 6 in
  let* op := read16 arp 6 in
  let* target := slice arp 24 28 in
  if negb (htype =? 1) || negb (ptype =? 0x0800) || negb (list_eqb sizes [6; 4])
     || negb (op =? 1) || negb (list_eqb target (rp_ipv4 self))
  then Ok (Ignored, frame) else
  let* sender_mac := slice arp 8 14 in
  let* sender_ip := slice arp 14 18 in
  let* arp := copy_at arp 6 (be16 2) in
  let* arp := copy_at arp 8 (rp_mac self) in
  let* arp := copy_at arp 14 (rp_ipv4 self) in
  let* arp := copy_at arp 18 sender_mac in
  let* arp := copy_at arp 24 sender_ip in
  let* packet := copy_at packet offset arp in
  let* packet := copy_at packet 0 sender_mac in
  let* packet := copy_at packet 6 (rp_mac self) in
  let* frame := finish_frame (store_packet frame packet) (offset + 28) EthernetLink in
  Ok (ReplyArp, frame).

(** The validation of the IPv4 header: a verdict, or the total length to go on with. *)
Definition admit_ip (self : Responder) (ip : list Z) : outcome (Reply + Z) :=
  if zlen ip <? 20 then Ok (inl Malformed) else
  let* b0 := get ip 0 in
  if negb (Z.shiftr b0 4 =? 4) then Ok (inl Malformed) else
  let ihl := Z.land b0 15 * 4 in
  let* total := read16 ip 2 in
  if (ihl <? 20) || (total <? ihl) || (zlen ip <? total) then Ok (inl Malformed) else
  let* header := slice ip 0 ihl in
  if negb (checksum header =? 0) then Ok (inl Malformed) else
  let* fragment := read16 ip 6 in
  if negb (Z.land fragment 0xbfff =? 0) then Ok (inl Ignored) else
  let* destination := slice ip 16 20 in
  let* ttl := get ip 8 in
  if negb (list_eqb destination (rp_ipv4 self)) || (ttl =? 0) then Ok (inl Ignored)
  else if negb (ihl =? 20) then Ok (inl Ignored)
  else Ok (inr total).

Definition icmp_body (body : list Z) : outcome (Reply * list Z) :=
  if (zlen body <? 8) || negb (checksum body =? 0) then Ok (Malformed, body) else
  let* kind := get body 0 in
  let* code := get body 1 in
  if negb (kind =? 8) || negb (code =? 0) then Ok (Ignored, body) else
  let* body := set_at body 0 0 in
  let* body := fill0 body 2 4 in
  let sum := checksum body in
  let* body := copy_at body 2 (be16 sum) in
  Ok (ReplyIcmp, body).

(** [slice.swap(i, j)] *)
Definition swap (l : list Z) (i j : Z) : outcome (list Z) :=
  let* a := get l i in
  let* b := get l j in
  let* l := set_at l i b in
  set_at l j a.
Definition udp_body (self : Responder) (source body : list Z) : outcome (Reply * list Z) :=
  if zlen body <? 8 then Ok (Malformed, body) else
  let* len := read16 body 4 in
  if negb (len =? zlen body) then Ok (Malformed, body) else
  let* port := read16 body 2 in
  if negb (bool_decide (Some port = rp_udp_port self)) then Ok (Ignored, body) else
  let* sum := read16 body 6 in
  if negb (sum =? 0) && negb (udp_checksum source (rp_ipv4 self) body =? 0)
  then Ok (Malformed, body) else
  let* body := swap body 0 2 in
  let* body := swap body 1 3 in
  Ok (ReplyUdp, body).

(** The header of a reply: addresses exchanged, a fresh TTL and checksum. *)
Definition reply_header (self : Responder) (source ip : list Z) : outcome (list Z) :=
  let* ip := copy_at ip 12 (rp_ipv4 self) in
  let* ip := copy_at ip 16 source in
  let* ip := set_at ip 8 64 in
  let* ip := fill0 ip 10 12 in
  let* header := slice ip 0 20 in
  copy_at ip 10 (be16 (checksum header)).

Definition respond (self : Responder) (frame : PacketBuf) (link : LinkLayer)
  : outcome (Reply * PacketBuf) :=
  let packet := as_slice frame in
  let* found := locate packet link in
  match found with
  | None => Ok (Malformed, frame)
  | Some (offset, protocol) =>
      if protocol =? 0x0806 then arp_reply self frame offset
      else if negb (protocol =? 0x0800) then Ok (Ignored, frame)
      else
        let* ip := slice packet offset (zlen packet) in
        let* verdict := admit_ip self ip in
        match verdict with
        | inl reply => Ok (reply, frame)
        | inr total =>
            let* source := slice ip 12 16 in
            let* protocol := get ip 9 in
            let* body := slice ip 20 total in
            let* '(reply, body) :=
              if protocol =? 1 then icmp_body body
              else if protocol =? 17 then udp_body self source body
              else Ok (Ignored, body) in
            if negb (is_reply reply) then Ok (reply, frame)
            else
              let* ip := copy_at ip 20 body in
              let* ip := reply_header self source ip in
              let* packet := copy_at packet offset ip in
              let* packet :=
                match link with
                | EthernetLink =>
                    let* sender := slice packet 6 12 in
                    let* packet := copy_at packet 0 sender in
                    copy_at packet 6 (rp_mac self)
                | Ip => Ok packet
                end in
              let* frame := finish_frame (store_packet frame packet) (offset + total) link in
              Ok (reply, frame)
        end
  end.

Record responder_ok (self : Responder) : Prop := {
  ro_ipv4 : zlen (rp_ipv4 self) = 4;
  ro_ipv4_bytes : bytes_ok (rp_ipv4 self);
  ro_mac : mac_ok (rp_mac self)
}.

(** ** Total writes *)
Lemma slice_total {A} (l : list A) a b :
  0 <= a <= b -> b <= zlen l -> exists s, slice l a b = Ok s /\ zlen s = b - a.
Proof. intros. rewrite slice_ok by lia. eexists. split; [done|]. zl. Qed.
Lemma copy_total l a src :
  0 <= a -> a + zlen src <= zlen l -> exists l', copy_at l a src = Ok l' /\ zlen l' = zlen l.
Proof.
  intros. destruct (copy_at l a src) as [l'| | |] eqn:E; [|rewrite copy_at_ok in E by done; done..].
  exists l'. split; [done|]. by apply copy_at_inv in E as [-> _].
Qed.
Lemma set_total (l : list Z) i x :
  0 <= i < zlen l -> exists l', set_at l i x = Ok l' /\ zlen l' = zlen l.
Proof. intros. rewrite set_at_ok by done. eexists. split; [done|]. unfold zlen. by rewrite length_insert. Qed.
Lemma fill_total l a b :
  0 <= a <= b -> b <= zlen l -> exists l', fill0 l a b = Ok l' /\ zlen l' = zlen l.
Proof. intros. rewrite fill0_ok by done. eexists. split; [done|]. zl. Qed.

(** Run the next operation on a byte list; its length conditions are left to [lia]. *)
Ltac run :=
  lazymatch goal with
  | |- context [obind ?m _] =>
      let E := fresh in
      lazymatch m with
      | slice ?l ?a ?b => destruct (slice_total l a b) as (? & E & ?); [lia|lia|rewrite E; clear E]
      | copy_at ?l ?a ?s =>
          destruct (copy_total l a s) as (? & E & ?); [lia|rewrite ?zlen_be16; lia|rewrite E; clear E]
      | set_at ?l ?i ?x => destruct (set_total l i x) as (? & E & ?); [lia|rewrite E; clear E]
      | fill0 ?l ?a ?b => destruct (fill_total l a b) as (? & E & ?); [lia|lia|rewrite E; clear E]
      | get ?l ?i => rewrite (get_ok l i) by lia
      | read16 ?l ?i => rewrite (read16_ok l i) by lia
      end
  end; cbn [obind].

Lemma untag_spec n packet offset protocol :
  bytes_ok packet -> 14 <= offset <= zlen packet ->
  untag n packet offset protocol = Ok None \/
  exists o p, untag n packet offset protocol = Ok (Some (o, p)) /\ 14 <= o <= zlen packet.
Proof.
  intros Hb. revert offset protocol. induction n as [|n IH]; intros offset protocol Ho; simpl; [eauto|].
  destruct (negb _ && _); [eauto|]. destruct (_ <? _) eqn:E; bools; [by left|].
  run. apply IH. lia.
Qed.
Lemma locate_spec packet link :
  bytes_ok packet ->
  locate packet link = Ok None \/
  exists o p, locate packet link = Ok (Some (o, p)) /\ 0 <= o <= zlen packet
    /\ (link = EthernetLink -> 14 <= o) /\ (link = Ip -> o = 0 /\ p = 0x0800).
Proof.
  intros Hb. pose proof (zlen_nonneg packet). destruct link; unfold locate.
  - right. eexists _, _. split; [done|]. split; [lia|]. split; [done|auto].
  - destruct (_ <? _) eqn:E; bools; [by left|]. run.
    match goal with |- context [untag 2 packet 14 ?p] =>
      destruct (untag_spec 2 packet 14 p Hb) as [-> |(o & q & -> & Ho)]; [lia|by left|] end.
    right. exists o, q. split; [done|]. split; [lia|].
    split; [lia|done].
Qed.
Lemma admit_spec self ip :
  (exists r, admit_ip self ip = Ok (inl r) /\ is_reply r = false)
  \/ exists total, admit_ip self ip = Ok (inr total) /\ 20 <= total <= zlen ip.
Proof.
  unfold admit_ip. destruct (_ <? _) eqn:E; bools; [left; eauto|]. run. destruct (negb _); [left; eauto|].
  cbv zeta. run. set (ihl := _ * 4). set (total := de16 _ _).
  destruct (_ || _) eqn:E1; [left; eauto|]. bools. destruct E1 as [[E1 E2] E3].
  run. destruct (negb _); [left; eauto|]. run. destruct (negb _); [left; eauto|]. run. run.
  destruct (_ || _); [left; eauto|]. destruct (negb _) eqn:E4; [left; eauto|]. right.
  exists total. split; [done|]. lia.
Qed.
Lemma icmp_body_spec body :
  exists r body', icmp_body body = Ok (r, body') /\ zlen body' = zlen body.
Proof.
  unfold icmp_body. destruct (_ || _) eqn:E; [eauto|]. bools. destruct E as [E _]. run. run.
  destruct (_ || _); [eauto|]. run. run. cbv zeta. run. eexists _, _. split; [done|]. lia.
Qed.
Lemma swap_spec l i j :
  0 <= i < zlen l -> 0 <= j < zlen l -> exists l', swap l i j = Ok l' /\ zlen l' = zlen l.
Proof.
  intros Hi Hj. unfold swap. run. run. run.
  match goal with |- context [set_at ?l ?i ?x] => destruct (set_total l i x) as (l' & -> & ?); [lia|] end.
  exists l'. split; [done|lia].
Qed.
Lemma udp_body_spec self source body :
  exists r body', udp_body self source body = Ok (r, body') /\ zlen body' = zlen body.
Proof.
  unfold udp_body. destruct (_ <? _) eqn:E; bools; [eauto|]. run. destruct (negb _); [eauto|]. run.
  destruct (negb _); [eauto|]. run. destruct (_ && _); [eauto|].
  destruct (swap_spec body 0 2) as (b1 & -> & L1); [lia|lia|]. cbn [obind].
  destruct (swap_spec b1 1 3) as (b2 & -> & L2); [lia|lia|]. cbn [obind]. eexists _, _. split; [done|lia].
Qed.
Lemma reply_header_spec self source ip :
  responder_ok self -> zlen source = 4 -> 20 <= zlen ip ->
  exists ip', reply_header self source ip = Ok ip' /\ zlen ip' = zlen ip.
Proof.
  intros [Hi _ _] Hs Hl. unfold reply_header. run. run. run. run. run.
  match goal with |- context [copy_at ?l ?i ?x] =>
    destruct (copy_total l i x) as (l' & -> & ?); [lia|rewrite zlen_be16; lia|] end.
  exists l'. split; [done|lia].
Qed.

(** What every step keeps of a frame: its identity and its memory. *)
Definition same_frame (b b' : PacketBuf) : Prop :=
  buf_wf b' /\ capacity b' = capacity b /\ data_offset b' = data_offset b
  /\ buf_idx b' = buf_idx b /\ buf_pool b' = buf_pool b.
Lemma store_same b packet :
  buf_wf b -> zlen packet = buf_len b -> same_frame b (store_packet b packet).
Proof. intros W L. destruct (store_packet_spec b packet W L) as (W' & _ & C). done. Qed.
Lemma finish_spec b len link :
  buf_wf b -> 0 <= len <= buf_len b ->
  exists b', finish_frame b len link = Ok b' /\ same_frame b b'.
Proof.
  intros W Hl. unfold finish_frame.
  set (padded := match link with EthernetLink => _ | Ip => len end).
  assert (buf_len b <= tail_capacity b) by (unfold buf_wf, tail_capacity in *; lia).
  assert (len <= padded <= tail_capacity b) as Hp by (unfold padded; destruct link; lia).
  destruct (set_len_spec b padded W) as [-> W1]; [lia|]. cbn [obind].
  set (b1 := b <| buf_len := padded |>) in *.
  assert (zlen (as_slice b1) = padded) as L1 by (by rewrite zlen_as_slice).
  run. eexists. split; [done|]. destruct (store_same b1 x W1) as (W2 & C2 & O2 & I2 & P2); [by simpl; lia|].
  done.
Qed.

(** ** Safety *)
Lemma arp_reply_spec self b offset :
  responder_ok self -> buf_wf b -> 14 <= offset <= zlen (as_slice b) ->
  exists r b', arp_reply self b offset = Ok (r, b') /\ same_frame b b'
    /\ (is_reply r = false -> b' = b).
Proof.
  intros [Hi _ [Hm _]] W Ho. pose proof (zlen_as_slice b W) as Lb. unfold arp_reply.
  set (p := as_slice b) in *. assert (same_frame b b) as Same by done.
  run. destruct (_ <? _) eqn:E; bools; [by eauto 8|]. do 5 run.
  destruct (_ || _); [by eauto 8|]. do 10 run.
  match goal with |- context [finish_frame (store_packet b ?q)] =>
    destruct (store_packet_spec b q W) as (W1 & _ & C1); [lia|];
    destruct (finish_spec (store_packet b q) (offset + 28) EthernetLink W1) as (b' & -> & S) end.
  { simpl. lia. }
  cbn [obind]. eexists _, b'. split; [done|]. split; [|done].
  destruct S as (W2 & C2 & O2 & I2 & P2). unfold same_frame. by rewrite C2, C1, O2, I2, P2.
Qed.

Lemma respond_spec self b link :
  responder_ok self -> buf_wf b -> bytes_ok (buf_mem b) ->
  exists r b', respond self b link = Ok (r, b') /\ same_frame b b' /\ (is_reply r = false -> b' = b).
Proof.
  intros Hr W Hb. pose proof (zlen_as_slice b W) as Lb. unfold respond.
  assert (bytes_ok (as_slice b)) as Bp by (unfold as_slice; by apply bytes_take, bytes_drop).
  set (p := as_slice b) in *. assert (same_frame b b) as Same by done.
  destruct (locate_spec p link Bp) as [-> |(o & q & -> & Ho & Ho1 & Ho2)]; cbn [obind]; [by eauto 8|].
  destruct (q =? 0x0806) eqn:Eq; bools.
  { destruct link; [destruct (Ho2 eq_refl); lia|]. apply arp_reply_spec; auto. fold p. split; [by auto|lia]. }
  destruct (negb _); [by eauto 8|]. run. rename x into ipb.
  destruct (admit_spec self ipb) as [(r & -> & Er)|(total & -> & Ht)]; cbn [obind]; [by eauto 8|].
  do 3 run. rename x into source, x0 into body.
  set (ans := if _ =? 1 then _ else _).
  assert (exists r body', ans = Ok (r, body') /\ zlen body' = zlen body) as (r & body' & -> & Lb').
  { unfold ans. destruct (_ =? 1); [apply icmp_body_spec|]. destruct (_ =? 17); [apply udp_body_spec|eauto]. }
  cbn [obind]. destruct (is_reply r) eqn:Er; cbn [negb]; [|by eauto 8].
  run. destruct (reply_header_spec self source x Hr) as (ip' & -> & L'); [lia|lia|]. cbn [obind]. run.
  assert (exists p2, match link with
    | Ip => Ok x0
    | EthernetLink => let* sender := slice x0 6 12 in let* packet := copy_at x0 0 sender in
                      copy_at packet 6 (rp_mac self)
    end = Ok p2 /\ zlen p2 = zlen x0) as (p2 & -> & L2).
  { destruct link; [by eauto|]. pose proof (proj1 (ro_mac _ Hr)). specialize (Ho1 eq_refl). run. run.
    match goal with |- context [copy_at ?l ?i ?x] =>
      destruct (copy_total l i x) as (l' & -> & ?); [lia|lia|] end. exists l'. split; [done|lia]. }
  cbn [obind]. destruct (store_packet_spec b p2 W) as (W1 & _ & C1); [lia|].
  destruct (finish_spec (store_packet b p2) (o + total) link W1) as (b' & -> & S).
  { simpl. lia. }
  cbn [obind]. eexists r, b'. split; [done|]. split; [|by rewrite Er].
  destruct S as (W2 & C2 & O2 & I2 & P2). unfold same_frame. by rewrite C2, C1, O2, I2, P2.
Qed.

(** ** The shape of a UDP packet that the parser accepts *)
Definition n16 (l : list Z) (i : nat) : Z := de16 (nth i l 0) (nth (i + 1) l 0).
Definition n32 (l : list Z) (i : nat) : Z :=
  de32 (nth i l 0) (nth (i + 1) l 0) (nth (i + 2) l 0) (nth (i + 3) l 0).
Record udp_shape (h u pl : list Z) (d : Datagram) : Prop := {
  sh_h : length h = 20%nat;
  sh_u : length u = 8%nat;
  sh_version : nth 0 h 0 = 0x45;
  sh_ttl : nth 8 h 0 <> 0;
  sh_proto : nth 9 h 0 = 17;
  sh_total : n16 h 2 = zlen pl + 28;
  sh_fragment : Z.land (n16 h 6) 0xbfff = 0;
  sh_header : checksum h = 0;
  sh_len : n16 u 4 = zlen pl + 8;
  sh_sum : nth 6 u 0 = 0 /\ nth 7 u 0 = 0
           \/ udp_checksum (octets (n32 h 12)) (octets (n32 h 16)) (u ++ pl) = 0;
  sh_datagram : d = mkDatagram (mkSock (n32 h 12) (n16 u 0)) (mkSock (n32 h 16) (n16 u 2)) pl
}.

Lemma cells8 (u : list Z) : length u = 8%nat ->
  exists a0 a1 a2 a3 a4 a5 a6 a7, u = [a0; a1; a2; a3; a4; a5; a6; a7].
Proof.
  intros H. do 8 (destruct u as [|? u]; [discriminate H|]). destruct u; [|discriminate H]. repeat eexists.
Qed.

(** Reading from a prefix. *)
Lemma get_pre l r i : 0 <= i < zlen l -> get (l ++ r) i = Ok (nth (Z.to_nat i) l 0).
Proof.
  intros H. pose proof (zlen_nonneg r). rewrite get_ok by (rewrite zlen_app; lia).
  rewrite app_nth1 by (unfold zlen in *; lia). done.
Qed.
Lemma read16_pre l r i :
  0 <= i -> i + 2 <= zlen l -> read16 (l ++ r) i = Ok (n16 l (Z.to_nat i)).
Proof.
  intros. pose proof (zlen_nonneg r). rewrite read16_ok by (rewrite ?zlen_app; lia).
  rewrite !app_nth1 by (unfold zlen in *; lia). done.
Qed.
Lemma read32_pre l r i :
  0 <= i -> i + 4 <= zlen l -> read32 (l ++ r) i = Ok (n32 l (Z.to_nat i)).
Proof.
  intros. pose proof (zlen_nonneg r). rewrite read32_ok by (rewrite ?zlen_app; lia).
  rewrite !app_nth1 by (unfold zlen in *; lia). done.
Qed.
Lemma slice_pre {A} (l r : list A) : slice (l ++ r) 0 (zlen l) = Ok l.
Proof.
  pose proof (zlen_nonneg l). pose proof (zlen_nonneg r). rewrite slice_ok by (rewrite ?zlen_app; lia).
  f_equal. apply take_app_length'. unfold zlen. lia.
Qed.

Lemma slice_pre_all {A} (l : list A) : slice l 0 (zlen l) = Ok l.
Proof. rewrite <- (app_nil_r l) at 1. apply slice_pre. Qed.

Lemma copy_at_all l src : zlen src = zlen l -> copy_at l 0 src = Ok src.
Proof. intros E. by apply (copy_at_tail [] l 0 src). Qed.

Section Parts.
Context (h u pl pad : list Z) (Hh : length h = 20%nat) (Hu : length u = 8%nat).
Lemma zlen_parts : zlen (h ++ u ++ pl ++ pad) = zlen pl + zlen pad + 28.
Proof. rewrite !zlen_app. unfold zlen. lia. Qed.
Lemma slice_body : slice (h ++ u ++ pl ++ pad) 20 (zlen pl + 28) = Ok (u ++ pl).
Proof.
  pose proof (zlen_nonneg pl). pose proof (zlen_nonneg pad).
  rewrite slice_ok by (rewrite ?zlen_parts; lia). f_equal.
  rewrite drop_app_length' by (by rewrite Hh). rewrite (app_assoc u).
  apply take_app_length'. rewrite length_app, Hu. unfold zlen. lia.
Qed.
(** The parser, on a packet cut into its parts. *)
Lemma udp_parse_parts :
  bytes_ok u -> n16 h 2 = zlen pl + 28 ->
  udp_parse (h ++ u ++ pl ++ pad) =
    if negb (nth 0 h 0 =? 0x45) || negb (nth 9 h 0 =? 17) || (nth 8 h 0 =? 0) then Err InvalidData
    else if negb (Z.land (n16 h 6) 0xbfff =? 0) || negb (checksum h =? 0) then Err InvalidData
    else if negb (n16 u 4 =? zlen pl + 8)
       || (negb ((nth 6 u 0 =? 0) && (nth 7 u 0 =? 0))
           && negb (udp_checksum (octets (n32 h 12)) (octets (n32 h 16)) (u ++ pl) =? 0))
    then Err InvalidData
    else Ok (mkDatagram (mkSock (n32 h 12) (n16 u 0)) (mkSock (n32 h 16) (n16 u 2)) pl).
Proof.
  intros Bu Ht. pose proof (zlen_nonneg pl). pose proof (zlen_nonneg pad). pose proof zlen_parts as Lp.
  assert (zlen h = 20) as Lh by (unfold zlen; lia). assert (zlen u = 8) as Lu by (unfold zlen; lia).
  pose proof slice_body as Eb. unfold udp_parse. rewrite (proj2 (Z.ltb_ge _ _)) by lia.
  rewrite !(get_pre h), !(read16_pre h), !(read32_pre h) by lia. cbn [obind].
  destruct (_ || _); [done|]. change (Z.to_nat 2) with 2%nat. rewrite Ht, Eb.
  replace (slice _ 0 20) with (Ok h) by (rewrite <- Lh; symmetry; apply slice_pre). cbn [obind].
  rewrite !(proj2 (Z.ltb_ge _ _)) by lia. cbn [orb].
  destruct (negb _ || negb _); [done|].
  assert (zlen (u ++ pl) = zlen pl + 8) as Lup by (rewrite zlen_app; lia).
  rewrite !(read16_pre u) by lia. rewrite Lup. cbn [obind].
  replace (slice (u ++ pl) 8 (zlen pl + 8)) with (Ok pl)
    by (rewrite <- Lup; symmetry; apply slice_tail; done).
  destruct (cells8 u Hu) as (u0 & u1 & u2 & u3 & u4 & u5 & u6 & u7 & ->).
  assert (slice ([u0; u1; u2; u3; u4; u5; u6; u7] ++ pl) 6 8 = Ok [u6; u7]) as ->
    by (by apply slice_app_l).
  cbn [obind]. simpl list_eqb. by rewrite andb_true_r.
Qed.
End Parts.

Lemma udp_shape_parse h u pl pad d :
  bytes_ok u -> udp_shape h u pl d -> udp_parse (h ++ u ++ pl ++ pad) = Ok d.
Proof.
  intros Bu []. rewrite udp_parse_parts by done.
  rewrite sh_version0, sh_proto0, (proj2 (Z.eqb_neq _ _) sh_ttl0), sh_fragment0, sh_header0, sh_len0.
  rewrite (Z.eqb_refl (zlen pl + 8)). subst d. decide_if false. decide_if false.
  destruct sh_sum0 as [[-> ->]| ->]; [done|]. cbn [negb orb Z.eqb]. by rewrite andb_false_r.
Qed.
(** Conversely, an accepted packet has that shape. *)
Lemma udp_parse_shape p d :
  bytes_ok p -> udp_parse p = Ok d -> exists h u pl pad, p = h ++ u ++ pl ++ pad /\ udp_shape h u pl d.
Proof.
  intros Hb E. assert (28 <= n16 p 2 <= zlen p) as Ht.
  { revert E. unfold udp_parse. destruct (_ <? _) eqn:E1; [done|]. bools. do 3 run.
    destruct (_ || _); [done|]. do 3 run. change (Z.to_nat 2) with 2%nat. fold (n16 p 2).
    destruct (_ || _) eqn:E2; [done|]. bools. lia. }
  set (h := take 20 p). set (u := take 8 (drop 20 p)).
  set (pl := take (Z.to_nat (n16 p 2 - 28)) (drop 28 p)). set (pad := drop (Z.to_nat (n16 p 2)) p).
  assert (p = h ++ u ++ pl ++ pad) as Ep.
  { unfold h, u, pl, pad. rewrite <- (take_drop 20 p) at 1. f_equal.
    rewrite <- (take_drop 8 (drop 20 p)) at 1. f_equal. rewrite drop_drop.
    rewrite <- (take_drop (Z.to_nat (n16 p 2 - 28)) (drop (20 + 8) p)) at 1. f_equal.
    rewrite drop_drop. f_equal. lia. }
  assert (length h = 20%nat) as Lh by (unfold h; rewrite length_take; unfold zlen in *; lia).
  assert (length u = 8%nat) as Lu by (unfold u; rewrite length_take, length_drop; unfold zlen in *; lia).
  assert (zlen pl = n16 p 2 - 28) as Lpl by (unfold pl; rewrite zlen_take, zlen_drop; lia).
  assert (n16 h 2 = zlen pl + 28) as Eh.
  { rewrite Lpl, Ep. unfold n16. rewrite !app_nth1 by (simpl; lia). simpl. lia. }
  assert (bytes_ok u) as Bu by (unfold u; by apply bytes_take, bytes_drop).
  exists h, u, pl, pad. split; [done|]. rewrite Ep, udp_parse_parts in E by done.
  destruct (_ || _) eqn:E1 in E; [done|]. destruct (_ || _) eqn:E2 in E; [done|].
  destruct (_ || _) eqn:E3 in E; [done|]. injection E as <-. bools.
  constructor; try done; try tauto.
Qed.

(** ** Replies *)
Lemma be32_de32 a b c d :
  is_byte a -> is_byte b -> is_byte c -> is_byte d -> be32 (de32 a b c d) = [a; b; c; d].
Proof.
  unfold is_byte, be32, de32. intros. repeat f_equal; Z.div_mod_to_equations; lia.
Qed.
Lemma cells4 (l : list Z) : zlen l = 4 -> exists a b c d, l = [a; b; c; d].
Proof.
  intros H. unfold zlen in H. do 4 (destruct l as [|? l]; [simpl in H; lia|]).
  destruct l; [|simpl in H; lia]. repeat eexists.
Qed.
Lemma cells20 (h : list Z) : length h = 20%nat ->
  exists a0 a1 a2 a3 a4 a5 a6 a7 a8 a9 a10 a11 a12 a13 a14 a15 a16 a17 a18 a19,
  h = [a0; a1; a2; a3; a4; a5; a6; a7; a8; a9; a10; a11; a12; a13; a14; a15; a16; a17; a18; a19].
Proof.
  intros H. do 20 (destruct h as [|? h]; [discriminate H|]). destruct h; [|discriminate H].
  repeat eexists.
Qed.

(** The header of a reply to a packet with header [h]. *)
Definition reply_pre (h : list Z) : list Z := take 8 h ++ [64; nth 9 h 0].
Definition reply_h (self : Responder) (h : list Z) : list Z :=
  reply_pre h
  ++ be16 (checksum (reply_pre h ++ [0; 0] ++ rp_ipv4 self ++ take 4 (drop 12 h)))
  ++ rp_ipv4 self ++ take 4 (drop 12 h).
Lemma reply_header_eq self h rest :
  length h = 20%nat -> zlen (rp_ipv4 self) = 4 ->
  reply_header self (take 4 (drop 12 h)) (h ++ rest) = Ok (reply_h self h ++ rest).
Proof.
  intros Hh Hi. destruct self as [ip4 mac port]. simpl in Hi.
  destruct (cells4 ip4 Hi) as (i0 & i1 & i2 & i3 & ->).
  destruct (cells20 h Hh) as (a0 & a1 & a2 & a3 & a4 & a5 & a6 & a7 & a8 & a9 & a10 & a11 & a12 & a13
    & a14 & a15 & a16 & a17 & a18 & a19 & ->).
  unfold reply_header. cbn [rp_ipv4 take drop]. do 6 wr. done.
Qed.
Lemma reply_h_checksum self h :
  length h = 20%nat -> responder_ok self -> bytes_ok h -> checksum (reply_h self h) = 0.
Proof.
  intros Hh [Hi Hb _] Bh. unfold reply_h, checksum. apply (finish_sum_stored 0); [lia|..].
  - rewrite !bytes_app. split_and!; try done; [|by apply bytes_take, bytes_drop].
    unfold reply_pre. rewrite bytes_app. split; [by apply bytes_take|].
    apply Forall_cons. split; [unfold is_byte; lia|]. apply Forall_cons. split; [|constructor].
    by apply bytes_nth.
  - unfold reply_pre. rewrite length_app, length_take, Hh. by exists 5%nat.
  - unfold reply_pre. rewrite !zlen_app, !zlen_take, Hi.
    change (zlen [64; nth 9 h 0]) with 2. pose_zlen. unfold zlen. lia.
Qed.

(** Cutting the frame to the packet, on an IP link. *)
Lemma finish_ip b q pad :
  buf_wf b -> as_slice b = q ++ pad ->
  exists b', finish_frame b (zlen q) Ip = Ok b' /\ buf_wf b' /\ as_slice b' = q
    /\ (bytes_ok (buf_mem b) -> bytes_ok q -> bytes_ok (buf_mem b')).
Proof.
  intros W A. pose proof (zlen_as_slice b W) as L. rewrite A, zlen_app in L.
  pose proof (zlen_nonneg q). pose proof (zlen_nonneg pad). unfold finish_frame.
  destruct (set_len_spec b (zlen q) W) as [-> W1]; [unfold buf_wf, tail_capacity in *; lia|].
  cbn [obind]. set (b1 := b <| buf_len := zlen q |>) in *.
  assert (as_slice b1 = q) as A1.
  { unfold as_slice, b1 in *. simpl.
    assert (take (Z.to_nat (zlen q)) (take (Z.to_nat (buf_len b)) (drop (Z.to_nat (data_offset b)) (buf_mem b))) = q) as E.
    { rewrite A. apply take_app_length'. unfold zlen. lia. }
    rewrite take_take in E. by replace (Init.Nat.min (Z.to_nat (zlen q)) (Z.to_nat (buf_len b)))
      with (Z.to_nat (zlen q)) in E by lia. }
  rewrite A1, fill0_ok by lia. cbn [obind]. rewrite Z.sub_diag. simpl replicate. rewrite app_nil_l.
  rewrite take_drop. destruct (store_packet_spec b1 q W1) as (W2 & A2 & _); [done|].
  eexists. do 3 (split; [done|]). intros Hb Hq. by apply store_packet_bytes.
Qed.

(** The IPv4 checks on a packet with a plain header addressed to the responder. *)
Lemma admit_plain self h rest :
  length h = 20%nat -> nth 0 h 0 = 0x45 -> nth 8 h 0 <> 0 ->
  20 <= n16 h 2 <= zlen (h ++ rest) -> Z.land (n16 h 6) 0xbfff = 0 -> checksum h = 0 ->
  drop 16 h = rp_ipv4 self -> admit_ip self (h ++ rest) = Ok (inr (n16 h 2)).
Proof.
  intros Hh E0 E8 Ht Ef Ec Ed. pose proof (zlen_nonneg rest).
  assert (zlen h = 20) as Lh by (unfold zlen; lia). assert (zlen (h ++ rest) = 20 + zlen rest) as L by (rewrite zlen_app; lia).
  unfold admit_ip. rewrite (proj2 (Z.ltb_ge _ _)) by lia.
  rewrite !(get_pre h), !(read16_pre h) by lia. change (Z.to_nat 0) with 0%nat.
  change (Z.to_nat 2) with 2%nat. change (Z.to_nat 6) with 6%nat. change (Z.to_nat 8) with 8%nat.
  rewrite E0. cbn [obind]. decide_if false. change (Z.land 69 15 * 4) with 20. cbv zeta.
  rewrite !(proj2 (Z.ltb_ge _ _)) by lia. decide_if false.
  replace (slice _ 0 20) with (Ok h) by (rewrite <- Lh; symmetry; apply slice_pre).
  cbn [obind]. rewrite Ec, Ef. decide_if false.
  assert (slice (h ++ rest) 16 20 = Ok (rp_ipv4 self)) as ->.
  { apply slice_app_l. rewrite slice_ok by lia. f_equal. rewrite <- Ed. apply take_ge.
    rewrite length_drop, Hh. done. }
  cbn [obind]. rewrite list_eqb_refl, (proj2 (Z.eqb_neq _ _) E8). done.
Qed.

(** The UDP body of a reply: the ports exchanged. *)
Definition swap_ports (u : list Z) : list Z := take 2 (drop 2 u) ++ take 2 u ++ drop 4 u.
Lemma udp_body_eq self source u pl :
  length u = 8%nat -> bytes_ok u -> n16 u 4 = zlen pl + 8 -> rp_udp_port self = Some (n16 u 2) ->
  nth 6 u 0 = 0 /\ nth 7 u 0 = 0 \/ udp_checksum source (rp_ipv4 self) (u ++ pl) = 0 ->
  udp_body self source (u ++ pl) = Ok (ReplyUdp, swap_ports u ++ pl).
Proof.
  intros Hu Bu El Ep Es. pose proof (zlen_nonneg pl). assert (zlen u = 8) as Lu by (unfold zlen; lia).
  assert (zlen (u ++ pl) = zlen pl + 8) as L by (rewrite zlen_app; lia).
  unfold udp_body. rewrite (proj2 (Z.ltb_ge _ _)), L by lia. rewrite !(read16_pre u) by lia. cbn [obind].
  change (Z.to_nat 4) with 4%nat. change (Z.to_nat 2) with 2%nat. change (Z.to_nat 6) with 6%nat.
  rewrite El, Z.eqb_refl, Ep. cbn [negb]. rewrite bool_decide_eq_true_2 by done. cbn [negb].
  assert (negb (n16 u 6 =? 0) && negb (udp_checksum source (rp_ipv4 self) (u ++ pl) =? 0) = false) as ->.
  { destruct Es as [[E6 E7]| ->]; [|by rewrite andb_false_r]. unfold n16. change (6 + 1)%nat with 7%nat. by rewrite E6, E7. }
  destruct (cells8 u Hu) as (u0 & u1 & u2 & u3 & u4 & u5 & u6 & u7 & ->).
  assert (swap ([u0; u1; u2; u3; u4; u5; u6; u7] ++ pl) 0 2 = Ok ([u2; u1; u0; u3; u4; u5; u6; u7] ++ pl)) as ->.
  { unfold swap. rewrite !get_pre by (unfold zlen; simpl; lia). cbn [obind Z.to_nat nth]. do 2 wr. done. }
  assert (swap ([u2; u1; u0; u3; u4; u5; u6; u7] ++ pl) 1 3 = Ok ([u2; u3; u0; u1; u4; u5; u6; u7] ++ pl)) as E2.
  { unfold swap. rewrite !get_pre by (unfold zlen; simpl; lia). cbn [obind Z.to_nat nth]. do 2 wr. done. }
  cbn [obind]. by rewrite E2.
Qed.
Lemma swap_sum u pl : length u = 8%nat -> sum_words (swap_ports u ++ pl) = sum_words (u ++ pl).
Proof.
  intros Hu. destruct (cells8 u Hu) as (u0 & u1 & u2 & u3 & u4 & u5 & u6 & u7 & ->).
  unfold swap_ports. simpl. lia.
Qed.

(** The reply to an accepted datagram has the shape of the datagram with its endpoints
    exchanged. *)
Definition swap_endpoints (d : Datagram) : Datagram :=
  mkDatagram (dg_destination d) (dg_source d) (dg_payload d).
Lemma reply_shape self h u pl d :
  responder_ok self -> bytes_ok h -> bytes_ok u -> udp_shape h u pl d -> drop 16 h = rp_ipv4 self ->
  udp_shape (reply_h self h) (swap_ports u) pl (swap_endpoints d).
Proof.
  intros Hr Bh Bu Sh Ed. pose proof Sh as []. pose proof (reply_h_checksum self h sh_h0 Hr Bh) as Hc.
  assert (forall x y, udp_checksum x y (u ++ pl) = 0 -> udp_checksum y x (swap_ports u ++ pl) = 0) as Hs.
  { assert (zlen (swap_ports u ++ pl) = zlen (u ++ pl)) as Hz.
    { unfold swap_ports. rewrite !zlen_app, !zlen_take, !zlen_drop. unfold zlen. lia. }
    intros x y <-. unfold udp_checksum. rewrite (swap_sum u pl sh_u0), Hz. f_equal. lia. }
  clear sh_header0. destruct (cells20 h sh_h0) as (a0 & a1 & a2 & a3 & a4 & a5 & a6 & a7 & a8 & a9 & a10 & a11
    & a12 & a13 & a14 & a15 & a16 & a17 & a18 & a19 & ->).
  destruct (cells8 u sh_u0) as (u0 & u1 & u2 & u3 & u4 & u5 & u6 & u7 & ->). cbn [drop] in Ed.
  unfold reply_h, reply_pre in *. cbn [take drop nth app] in *. rewrite <- Ed in *.
  constructor; try done.
  - destruct sh_sum0 as [?|Hsum]; [by left|right]. exact (Hs _ _ Hsum).
  - by subst d.
Qed.

Lemma bytes_reply_h self h : responder_ok self -> bytes_ok h -> bytes_ok (reply_h self h).
Proof.
  intros [] Hh. unfold reply_h, reply_pre. rewrite !bytes_app.
  split_and!; eauto with net.
  apply Forall_cons. split; [unfold is_byte; lia|]. apply Forall_cons. split; [by apply bytes_nth|constructor].
Qed.
Lemma bytes_swap_ports u : bytes_ok u -> bytes_ok (swap_ports u).
Proof. intros. unfold swap_ports. rewrite !bytes_app. split_and!; eauto with net. Qed.
Lemma udp_echo_spec self b d :
  responder_ok self -> buf_wf b -> bytes_ok (buf_mem b) ->
  udp_parse (as_slice b) = Ok d ->
  octets (ip (dg_destination d)) = rp_ipv4 self -> rp_udp_port self = Some (port (dg_destination d)) ->
  exists b', respond self b Ip = Ok (ReplyUdp, b') /\ udp_parse (as_slice b') = Ok (swap_endpoints d)
    /\ zlen (as_slice b') = zlen (dg_payload d) + 28 /\ bytes_ok (buf_mem b').
Proof.
  intros Hr W Hb Ep Ed Epo.
  assert (bytes_ok (as_slice b)) as Bp by (unfold as_slice; by apply bytes_take, bytes_drop).
  destruct (udp_parse_shape _ _ Bp Ep) as (h & u & pl & pad & Ea & Sh). pose proof Sh as [].
  rewrite Ea in Bp. rewrite !bytes_app in Bp. destruct Bp as (Bh & Bu & Bpl & Bpad).
  pose proof (zlen_nonneg pl). pose proof (zlen_nonneg pad).
  pose proof (zlen_parts h u pl pad sh_h0 sh_u0) as Lp.
  assert (zlen h = 20) as Lh by (unfold zlen; lia).
  assert (octets (n32 h 12) = take 4 (drop 12 h) /\ octets (n32 h 16) = drop 16 h) as [Os Od].
  { clear -sh_h0 Bh. destruct (cells20 h sh_h0) as (a0 & a1 & a2 & a3 & a4 & a5 & a6 & a7 & a8 & a9 & a10 & a11
      & a12 & a13 & a14 & a15 & a16 & a17 & a18 & a19 & ->).
    unfold bytes_ok in Bh. rewrite !Forall_cons in Bh. split; apply be32_de32; apply Bh. }
  subst d. simpl in Ed, Epo. rewrite Od in Ed. rewrite Os, Od, Ed in sh_sum0.
  set (q := reply_h self h ++ swap_ports u ++ pl).
  assert (respond self b Ip
    = let* f := finish_frame (store_packet b (q ++ pad)) (zlen pl + 28) Ip in Ok (ReplyUdp, f)) as ->.
  { unfold respond. rewrite Ea. cbn [locate obind]. decide_if false. decide_if false.
    rewrite (slice_pre_all (h ++ u ++ pl ++ pad)). cbn [obind].
    rewrite (admit_plain self h) by (done || lia). cbn [obind].
    rewrite !(get_pre h), sh_total0, slice_body by (done || lia).
    replace (slice (h ++ u ++ pl ++ pad) 12 16) with (Ok (take 4 (drop 12 h)))
      by (symmetry; apply slice_app_l; by rewrite slice_ok by lia).
    cbn [obind]. change (Z.to_nat 9) with 9%nat. rewrite sh_proto0.
    change (17 =? 1) with false. change (17 =? 17) with true. cbv iota.
    rewrite udp_body_eq by done. cbn [obind]. decide_if false.
    assert (length (swap_ports u) = 8%nat) as Ls
      by (unfold swap_ports; rewrite !length_app, !length_take, !length_drop; lia).
    replace (h ++ u ++ pl ++ pad) with ((h ++ u ++ pl) ++ pad) by (by rewrite <- !app_assoc).
    rewrite (copy_at_app_l _ pad 20 (swap_ports u ++ pl) (h ++ swap_ports u ++ pl))
      by (apply copy_at_tail; [done|]; rewrite !zlen_app; unfold zlen; lia).
    cbn [obind]. rewrite <- (app_assoc h), reply_header_eq by (done || apply Hr). cbn [obind].
    rewrite copy_at_all; [|].
    - cbn [obind]. unfold q. by rewrite <- (app_assoc (reply_h self h)).
    - unfold reply_h, reply_pre. rewrite !zlen_app, !zlen_take, !zlen_drop, zlen_be16, (ro_ipv4 _ Hr), Lh.
      change (zlen [64; nth 9 h 0]) with 2. unfold zlen. lia. }
  assert (zlen q = zlen pl + 28) as Lq.
  { unfold q, reply_h, reply_pre, swap_ports.
    rewrite !zlen_app, !zlen_take, !zlen_drop, zlen_be16, (ro_ipv4 _ Hr). unfold zlen. simpl. lia. }
  destruct (store_packet_spec b (q ++ pad) W) as (W1 & A1 & _).
  { rewrite zlen_app, Lq, <- (zlen_as_slice b W), Ea, Lp. lia. }
  rewrite <- Lq. destruct (finish_ip _ q pad W1 A1) as (b' & -> & W' & A' & B'). cbn [obind].
  exists b'. split; [done|]. rewrite A'.
  assert (bytes_ok q) as Bq.
  { unfold q. rewrite !bytes_app. split; [by apply bytes_reply_h|]. split; [by apply bytes_swap_ports|done]. }
  split; [|split; [by rewrite Lq|]].
  2:{ apply B'; [|done]. apply store_packet_bytes; [done|]. by rewrite bytes_app. }
  replace q with (reply_h self h ++ swap_ports u ++ pl ++ []) by (by rewrite app_nil_r).
  apply udp_shape_parse; [|by apply (reply_shape self h u pl _ Hr Bh Bu Sh Ed)].
  by apply bytes_swap_ports.
Qed.

(** UDP echo: a datagram that the parser accepts and that is addressed to the
    responder's address and port is answered in place by a packet that the parser accepts,
    with both endpoints exchanged and the same payload, without link-layer padding. *)
Theorem udp_echo self b d :
  responder_ok self -> buf_wf b -> bytes_ok (buf_mem b) ->
  udp_parse (as_slice b) = Ok d ->
  octets (ip (dg_destination d)) = rp_ipv4 self -> rp_udp_port self = Some (port (dg_destination d)) ->
  exists b', respond self b Ip = Ok (ReplyUdp, b') /\ udp_parse (as_slice b') = Ok (swap_endpoints d)
    /\ zlen (as_slice b') = zlen (dg_payload d) + 28.
Proof.
  intros Hr W Hb Ep Ed Epo. destruct (udp_echo_spec self b d Hr W Hb Ep Ed Epo) as (b' & ? & ? & ? & _).
  by exists b'.
Qed.

(** The responder on arbitrary frames and either link layer: it returns (every slice it
    takes and every write it makes is inside the packet), the frame stays a well-formed
    view of the same memory, and a verdict that is not a reply leaves it untouched. *)
Theorem respond_safe self b link :
  responder_ok self -> buf_wf b -> bytes_ok (buf_mem b) ->
  exists r b', respond self b link = Ok (r, b') /\ same_frame b b' /\ (is_reply r = false -> b' = b).
Proof. apply respond_spec. Qed.

(** ** Witnesses *)
Definition responder0 : Responder := mkResponder [10; 0; 0; 2] [2; 0; 0; 0; 0; 2] (Some 9000).
Lemma responder0_ok : responder_ok responder0.
Proof.
  constructor; simpl; [reflexivity| |split; [reflexivity|]]; repeat constructor; unfold is_byte; lia.
Qed.
(** The packet of [udp_example] in a frame. *)
Definition echo_frame : PacketBuf :=
  match udp_build (mkPacketBuf (replicate 100 7) 32 0 0 None) (dg_source udp_example)
          (dg_destination udp_example) (dg_payload udp_example) 3 with
  | Ok b => b | _ => packet_default end.
Lemma echo_frame_wf : buf_wf echo_frame /\ bytes_ok (buf_mem echo_frame).
Proof.
  assert (forallb (fun x => (0 <=? x) && (x <? 256)) (buf_mem echo_frame) = true) as F
    by (vm_compute; reflexivity).
  split.
  - vm_compute. repeat split; discriminate.
  - unfold bytes_ok. apply Forall_forall. intros x Hx. rewrite forallb_forall in F.
    apply list_elem_of_In, F in Hx. bools. done.
Qed.
Lemma udp_echo_witness :
  exists b', respond responder0 echo_frame Ip = Ok (ReplyUdp, b')
    /\ udp_parse (as_slice b') = Ok (swap_endpoints udp_example).
Proof.
  destruct (udp_echo responder0 echo_frame udp_example responder0_ok (proj1 echo_frame_wf)
              (proj2 echo_frame_wf)) as (b' & E & P & _).
  - vm_compute. reflexivity.
  - vm_compute. reflexivity.
  - reflexivity.
  - exists b'. split; [exact E|exact P].
Defined.
Lemma respond_safe_witness :
  exists r b', respond responder0 (mkPacketBuf [1; 2; 3; 4] 0 4 0 None) EthernetLink = Ok (r, b')
    /\ (is_reply r = false -> b' = mkPacketBuf [1; 2; 3; 4] 0 4 0 None).
Proof.
  destruct (respond_safe responder0 (mkPacketBuf [1; 2; 3; 4] 0 4 0 None) EthernetLink responder0_ok)
    as (r & b' & E & _ & N).
  - unfold buf_wf, capacity. simpl. unfold zlen. simpl. lia.
  - repeat constructor; unfold is_byte; lia.
  - exists r, b'. split; [exact E|exact N].
Defined.
