(* ===== verification/TcpTypes.v ===== *)
(** * Data types of the TCP endpoints ([src/api/tcp/mod.rs], lines 30-228) *)
From Stdlib Require Import ZArith Lia Bool.
From stdpp Require Import base numbers option list.
From S2P Require Import Prelude Addr TcpWire.
#[local] Open Scope Z_scope.

Inductive TcpState : Type :=
| SynSent | SynReceived | Established | FinWait1 | FinWait2 | CloseWait | Closing | LastAck
| TimeWait | Closed | Reset_ | TimedOut_ | Failed.
#[export] Instance TcpState_eq_dec : EqDecision TcpState.
Proof. solve_decision. Defined.

Definition is_terminal (s : TcpState) : bool :=
  match s with Closed | Reset_ | TimedOut_ | Failed => true | _ => false end.

(** [matches!(state, Established | CloseWait)]: the states in which data is accepted and
    segmented. *)
Definition can_send (s : TcpState) : bool :=
  match s with Established | CloseWait => true | _ => false end.

Record TcpConfig : Type := mkTcpConfig {
  max_connections : Z;
  max_listeners : Z;
  control_capacity : Z;
  send_capacity : Z;
  receive_capacity : Z;
  receive_window_limit : Z;
  initial_cwnd_segments : Z;
  max_cwnd_bytes : Z;
  initial_ssthresh_bytes : Z;
  max_inflight_segments : Z;
  tx_burst : Z;
  verbose_state : bool;
  event_capacity : Z;
  state_report_interval : Z;
  mtu : Z;
  cfg_mss : Z;
  initial_rto : Z;
  max_rto : Z;
  max_retransmits : Z;
  handshake_timeout : Z;
  send_timeout : Z;
  close_timeout : Z;
  time_wait : Z
}.
#[export] Instance eta_TcpConfig : Eta TcpConfig := fun c =>
  mkTcpConfig (max_connections c) (max_listeners c) (control_capacity c) (send_capacity c)
    (receive_capacity c) (receive_window_limit c) (initial_cwnd_segments c) (max_cwnd_bytes c)
    (initial_ssthresh_bytes c) (max_inflight_segments c) (tx_burst c) (verbose_state c)
    (event_capacity c) (state_report_interval c) (mtu c) (cfg_mss c) (initial_rto c) (max_rto c)
    (max_retransmits c) (handshake_timeout c) (send_timeout c) (close_timeout c) (time_wait c).

Definition config_default : TcpConfig :=
  mkTcpConfig 64 16 64 (16 * 1024) (16 * 1024) U16MAX 2 (16 * 1024) 65535 128 32 false 256
    (250 * MILLI) 1500 536 (1 * SECOND) (60 * SECOND) 8 (30 * SECOND) (120 * SECOND)
    (120 * SECOND) (120 * SECOND).

(** The test of [TcpPool::new], negated: the configurations it accepts. *)
Definition config_valid (c : TcpConfig) : bool :=
  negb (
    (max_connections c =? 0) || (max_listeners c =? 0) || (control_capacity c =? 0)
    || (send_capacity c =? 0) || (1073741824 <? send_capacity c)
    || (receive_window_limit c =? 0)
    || negb ((1 <=? initial_cwnd_segments c) && (initial_cwnd_segments c <=? 4))
    || (max_cwnd_bytes c =? 0) || (1073741824 <? max_cwnd_bytes c)
    || (initial_ssthresh_bytes c =? 0) || (1073741824 <? initial_ssthresh_bytes c)
    || (max_inflight_segments c =? 0) || (U16MAX <? max_inflight_segments c)
    || (tx_burst c =? 0)
    || (verbose_state c && ((event_capacity c =? 0) || (state_report_interval c =? 0)))
    || (receive_capacity c =? 0) || (U16MAX <? receive_capacity c)
    || (mtu c <? 68) || (U16MAX <? mtu c)
    || (cfg_mss c =? 0) || (mtu c - 40 <? cfg_mss c) || (receive_capacity c <? cfg_mss c)
    || (initial_rto c <? SECOND) || (max_rto c <? initial_rto c)
    || (handshake_timeout c =? 0) || (send_timeout c =? 0) || (close_timeout c =? 0)
    || (time_wait c =? 0)).

(** What the Rust types give for free: unsigned fields, a [u16] MSS and window limit,
    a [u32] retry count, durations below [Duration::MAX]. *)
Record config_typed (c : TcpConfig) : Prop := {
  ty_mss : 0 <= cfg_mss c <= U16MAX;
  ty_window_limit : 0 <= receive_window_limit c <= U16MAX;
  ty_cwnd_segments : 0 <= initial_cwnd_segments c <= U16MAX;
  ty_send : 0 <= send_capacity c;
  ty_receive : 0 <= receive_capacity c;
  ty_cwnd : 0 <= max_cwnd_bytes c;
  ty_ssthresh : 0 <= initial_ssthresh_bytes c;
  ty_inflight : 0 <= max_inflight_segments c;
  ty_retransmits : 0 <= max_retransmits c <= U32MAX;
  ty_rto : 0 <= initial_rto c <= DURATION_MAX;
  ty_max_rto : 0 <= max_rto c <= DURATION_MAX;
  ty_connections : 0 <= max_connections c;
  ty_listeners : 0 <= max_listeners c;
  ty_control : 0 <= control_capacity c;
  ty_burst : 0 <= tx_burst c;
  ty_events : 0 <= event_capacity c
}.

Record TcpStats : Type := mkTcpStats {
  st_received : Z;
  st_malformed : Z;
  st_ignored : Z;
  st_submitted : Z;
  st_retransmitted : Z;
  st_resets_submitted : Z;
  st_control_drops : Z;
  st_connection_overflow : Z;
  st_events_overwritten : Z
}.
#[export] Instance eta_TcpStats : Eta TcpStats := fun s =>
  mkTcpStats (st_received s) (st_malformed s) (st_ignored s) (st_submitted s)
    (st_retransmitted s) (st_resets_submitted s) (st_control_drops s)
    (st_connection_overflow s) (st_events_overwritten s).
Definition stats_default : TcpStats := mkTcpStats 0 0 0 0 0 0 0 0 0.

Inductive TcpWait : Type :=
| Application | Acknowledgment | PeerWindow | CongestionWindow | FlightLimit | WaitDevice
| Handshake | WaitClosing | Terminal | Ready.
#[export] Instance TcpWait_eq_dec : EqDecision TcpWait.
Proof. solve_decision. Defined.

Record FlowStatus : Type := mkFlowStatus {
  fs_advertised_window : Z;
  fs_peer_window : Z;
  congestion_window : Z;
  slow_start_threshold : Z;
  fs_bytes_in_flight : Z;
  outstanding_segments : Z;
  retransmission_timeout : Z;
  fs_timeout_retransmissions : Z;
  wait : TcpWait
}.
#[export] Instance FlowStatus_eq_dec : EqDecision FlowStatus.
Proof. solve_decision. Defined.

Record ConnectionStatus : Type := mkConnectionStatus {
  cs_local : SocketAddrV4;
  cs_remote : SocketAddrV4;
  cs_state : TcpState;
  cs_send_buffered : Z;
  receive_buffered : Z;
  flow : FlowStatus;
  cs_local_error : option ErrorKind
}.

Record TcpEvent : Type := mkTcpEvent {
  ev_at : Z;
  ev_connection : Z;
  ev_status : ConnectionStatus
}.

Record Reset : Type := mkReset {
  rs_local : SocketAddrV4;
  rs_remote : SocketAddrV4;
  rs_sequence : Z;
  rs_acknowledgment : Z;
  rs_flags : Z
}.
