(* ===== verification/Device.v ===== *)
(** * The device interface ([src/device/mod.rs], trait [Device])

    A device is a state with five operations.  A [&mut] argument is part of the state
    that an operation transforms; an operation returns its result together with that
    state, also when the result is an error.  [dev_drop] is what dropping a packet handle
    does to the frame pool that the handle and the device share.

    [DeviceLaws] is what a client may rely on: which frames are held outside the
    device, that a handle obtained from the device is well formed, that no operation panics
    when it is given handles the caller owns.  Protocol layers are proved against the laws;
    the backends discharge them. *)
From Stdlib Require Import ZArith Lia Bool.
From stdpp Require Import base numbers option list.
From S2P Require Import Prelude BufferPool.
#[local] Open Scope Z_scope.

(** Result and final state of an operation on a state [S]. *)
Definition ST (S A : Type) : Type := S -> outcome A * S.

(** Sequencing: on a result other than [Ok] the state is completed by [g] and the
    rest is skipped. *)
Definition then_ {S T A B} (p : outcome A * S) (g : S -> T) (f : A -> S -> outcome B * T)
  : outcome B * T :=
  match p with
  | (Ok a, s) => f a s
  | (Err k, s) => (Err k, g s)
  | (Panic, s) => (Panic, g s)
  | (OutOfFuel, s) => (OutOfFuel, g s)
  end.

(** A result that is not [Ok], at another type. *)
Definition recast {A B} (m : outcome A) : outcome B := obind m (fun _ => Panic).

Class Device (D : Type) := {
  dev_poll_at : Z -> ST D unit;
  dev_recv : Z -> ST (D * list PacketBuf) Z;
  dev_send : ST (D * list PacketBuf) Z;
  dev_alloc : ST D (option PacketBuf);
  dev_drop : PacketBuf -> ST D unit;
  dev_frame_size : D -> Z
}.

(** The frames that a list of handles owns. *)
Definition owned (bs : list PacketBuf) : list Z :=
  bs ≫= fun b => match buf_pool b with Some _ => [buf_idx b] | None => [] end.

(** A handle is either an empty slot or a well-formed view of one of the device's frames. *)
Definition handle (pool size : Z) (b : PacketBuf) : Prop :=
  buf_wf b /\ bytes_ok (buf_mem b) /\
  match buf_pool b with
  | Some p => p = pool /\ capacity b = size
  | None => True
  end.

Class DeviceLaws (D : Type) `{Device D} := {
  dev_pool : D -> Z;
  (** [dev_inv d held]: the frames [held] are outside the device. *)
  dev_inv : D -> list Z -> Prop;
  dev_inv_perm d h k : h ≡ₚ k -> dev_inv d h -> dev_inv d k;
  dev_alloc_law d held :
    dev_inv d held ->
    exists r d', dev_alloc d = (Ok r, d') /\ dev_pool d' = dev_pool d
      /\ dev_frame_size d' = dev_frame_size d
      /\ match r with
         | Some b => dev_inv d' (buf_idx b :: held) /\ handle (dev_pool d) (dev_frame_size d) b
                     /\ buf_pool b = Some (dev_pool d) /\ buf_len b = 0
         | None => dev_inv d' held
         end;
  dev_drop_law d held b :
    dev_inv d (owned [b] ++ held) -> handle (dev_pool d) (dev_frame_size d) b ->
    exists d', dev_drop b d = (Ok tt, d') /\ dev_inv d' held /\ dev_pool d' = dev_pool d
      /\ dev_frame_size d' = dev_frame_size d;
  (** A prefix is taken and its slots become empty; an error takes nothing. *)
  dev_send_law d held frames :
    dev_inv d (owned frames ++ held) ->
    Forall (handle (dev_pool d) (dev_frame_size d)) frames ->
    exists r d' frames', dev_send (d, frames) = (r, (d', frames'))
      /\ dev_pool d' = dev_pool d /\ dev_frame_size d' = dev_frame_size d
      /\ dev_inv d' (owned frames' ++ held)
      /\ match r with
         | Ok n => 0 <= n <= zlen frames
             /\ frames' = replicate (Z.to_nat n) packet_default ++ drop (Z.to_nat n) frames
         | Err _ => frames' = frames
         | _ => False
         end;
  (** The previous contents of [out] are recycled, at most [max] packets arrive. *)
  dev_recv_law d held max out :
    dev_inv d (owned out ++ held) -> 0 <= max ->
    Forall (handle (dev_pool d) (dev_frame_size d)) out ->
    exists r d' out', dev_recv max (d, out) = (r, (d', out')) /\ returns r
      /\ dev_pool d' = dev_pool d /\ dev_frame_size d' = dev_frame_size d
      /\ dev_inv d' (owned out' ++ held)
      /\ Forall (handle (dev_pool d) (dev_frame_size d)) out' /\ zlen out' <= max
      /\ match r with Ok n => n = zlen out' | _ => True end;
  dev_poll_law d held now :
    dev_inv d held ->
    exists r d', dev_poll_at now d = (r, d') /\ returns r /\ dev_inv d' held
      /\ dev_pool d' = dev_pool d /\ dev_frame_size d' = dev_frame_size d
}.

(** [recycle_frames]: drop a submitted prefix, leaving safe empty slots. *)
Fixpoint recycle_frames {D} `{Device D} (frames : list PacketBuf) (d : D)
  : outcome unit * (D * list PacketBuf) :=
  match frames with
  | [] => (Ok tt, (d, []))
  | f :: fs =>
      match dev_drop f d with
      | (Ok _, d) =>
          let '(r, (d, fs)) := recycle_frames fs d in (r, (d, packet_default :: fs))
      | (r, d) => (r, (d, f :: fs))
      end
  end.

(** [alloc_batch], the trait's provided method: [alloc] up to [max] times. *)
Fixpoint alloc_up_to {D} `{Device D} (max : nat) (out : list PacketBuf) (d : D)
  : outcome (list PacketBuf) * D :=
  match max with
  | O => (Ok out, d)
  | S max =>
      match dev_alloc d with
      | (Ok (Some buf), d) => alloc_up_to max (out ++ [buf]) d
      | (Ok None, d) => (Ok out, d)
      | (r, d) => (recast r, d)
      end
  end.
Definition dev_alloc_batch {D} `{Device D} (max : Z) (out : list PacketBuf) (d : D)
  : outcome (Z * list PacketBuf) * D :=
  match alloc_up_to (Z.to_nat max) out d with
  | (Ok out', d) => (Ok (zlen out' - zlen out, out'), d)
  | (r, d) => (recast r, d)
  end.

(** Dropping handles that go out of scope. *)
Fixpoint drop_all {D} `{Device D} {A} (frames : list PacketBuf) (r : outcome A) (d : D) : outcome A * D :=
  match frames with
  | [] => (r, d)
  | f :: fs => then_ (dev_drop f d) id (fun _ d => drop_all fs r d)
  end.

(** ** The frames of a list of handles *)
Lemma owned_cons b bs : owned (b :: bs) = owned [b] ++ owned bs.
Proof. unfold owned. rewrite !bind_cons. simpl. by rewrite app_nil_r. Qed.
Lemma owned_app bs cs : owned (bs ++ cs) = owned bs ++ owned cs.
Proof. apply bind_app. Qed.
#[export] Instance owned_proper : Proper ((≡ₚ) ==> (≡ₚ)) owned.
Proof. intros l l' E. unfold owned. by apply bind_Permutation. Qed.
Lemma owned_defaults n : owned (replicate n packet_default) = [].
Proof. induction n; [done|]. simpl replicate. by rewrite owned_cons. Qed.
Lemma owned_one b p : buf_pool b = Some p -> owned [b] = [buf_idx b].
Proof. intros E. unfold owned. simpl. by rewrite E. Qed.
Lemma owned_live p bs : Forall (fun b => buf_pool b = Some p) bs -> owned bs = buf_idx <$> bs.
Proof.
  induction 1 as [|b bs Hb _ IH]; [done|]. unfold owned in *. rewrite bind_cons, fmap_cons, Hb, IH. done.
Qed.

Lemma handle_default p n : handle p n packet_default.
Proof.
  split; [|split; [constructor|done]]. unfold buf_wf, capacity. simpl. unfold zlen. simpl. lia.
Qed.
Lemma handle_bytes pl n b : handle pl n b -> bytes_ok (as_slice b).
Proof. intros (_ & B & _). unfold as_slice. by apply bytes_take, bytes_drop. Qed.

(** Dropping a handle of a pool, or an empty one, gives back exactly what it owned. *)
Lemma drop_handle_spec p b held :
  pool_inv p (owned [b] ++ held) -> Forall bytes_ok (arena p) -> handle (pool_id p) (frame_size p) b ->
  exists p', drop_packet p b = Ok p' /\ pool_inv p' held /\ Forall bytes_ok (arena p')
    /\ pool_id p' = pool_id p /\ frame_size p' = frame_size p.
Proof.
  intros I B (_ & Hb & Hp). destruct (buf_pool b) as [id|] eqn:E.
  - rewrite (owned_one _ _ E) in I. destruct Hp as [-> Hc].
    destruct (drop_packet_spec p _ held b I E Hc) as (p' & -> & Ip & _ & E1 & E2 & E3); [done|].
    exists p'. split_and!; try done. rewrite E3. by apply Forall_insert.
  - unfold owned in I. cbn in I. rewrite E in I. unfold drop_packet. rewrite E. by exists p.
Qed.

Section Laws.
Context {D : Type} `{DeviceLaws D}.

(** The order in which the frames outside the device are listed does not matter. *)
#[export] Instance dev_inv_proper d : Proper ((≡ₚ) ==> iff) (dev_inv d).
Proof. intros h k E. split; intros I; by eapply dev_inv_perm; [|exact I]. Qed.

(** The device between two calls: frames [held] outside, same pool as [d]. *)
Definition dev_after (d d' : D) (held : list Z) : Prop :=
  dev_inv d' held /\ dev_pool d' = dev_pool d /\ dev_frame_size d' = dev_frame_size d.

Lemma dev_after_trans d d1 d2 h1 h2 :
  dev_after d d1 h1 -> dev_after d1 d2 h2 -> dev_after d d2 h2.
Proof. unfold dev_after. intuition congruence. Qed.

Lemma drop_all_spec {A} d held frames (r : outcome A) :
  dev_inv d (owned frames ++ held) ->
  Forall (handle (dev_pool d) (dev_frame_size d)) frames ->
  exists d', drop_all frames r d = (r, d') /\ dev_after d d' held.
Proof.
  revert d. induction frames as [|f fs IH]; intros d I F.
  { exists d. done. }
  apply Forall_cons in F as [Hf F]. rewrite owned_cons, <- app_assoc in I. simpl.
  destruct (dev_drop_law d _ f I Hf) as (d1 & -> & I1 & P1 & Z1). cbn [then_].
  destruct (IH d1 I1) as (d2 & -> & A2); [by rewrite P1, Z1|].
  exists d2. split; [done|]. eapply dev_after_trans; [|exact A2]. done.
Qed.

End Laws.
