(* ===== verification/Loopback.v ===== *)
(** * The in-memory loopback device ([src/device/loopback.rs])

    A frame pool, a contiguous "kernel" arena cut into slots of one frame, the stack of
    free slots and the queue of filled ones.  The device refines a bounded FIFO of
    byte strings ([queue]) and discharges the [DeviceLaws] that the protocol layers rely on. *)
From Stdlib Require Import ZArith Lia Bool.
From stdpp Require Import base numbers option list.
From S2P Require Import Prelude BufferPool Device.
#[local] Open Scope Z_scope.

Definition FRAME_COUNT : Z := 256.
Definition FRAME_SIZE : Z := 2048.

Record LoopbackDevice : Type := mkLoopback {
  pool : PoolInner;
  lb_arena : list Z;
  free_slots : list Z;       (* last element on top of the stack *)
  rx : list (Z * Z);
  dropped : Z
}.
#[export] Instance eta_LoopbackDevice : Eta LoopbackDevice := fun d =>
  mkLoopback (pool d) (lb_arena d) (free_slots d) (rx d) (dropped d).

Definition with_capacity (id pool_frames kernel_slots : Z) : outcome LoopbackDevice :=
  if (0 <? pool_frames) && (0 <? kernel_slots) then
    let* p := pool_new id pool_frames FRAME_SIZE in
    Ok (mkLoopback p (replicate (Z.to_nat (kernel_slots * FRAME_SIZE)) 0)
          (reverse (indices kernel_slots)) [] 0)
  else Panic.
Definition lb_new (id : Z) : outcome LoopbackDevice := with_capacity id FRAME_COUNT FRAME_COUNT.

Definition lb_queued (d : LoopbackDevice) : Z := zlen (rx d).

(** [Drop for PacketBuf] on this device's pool. *)
Definition lb_drop (b : PacketBuf) : ST LoopbackDevice unit := fun d =>
  match drop_packet (pool d) b with
  | Ok p => (Ok tt, d <| pool := p |>)
  | Err k => (Err k, d)
  | Panic => (Panic, d)
  | OutOfFuel => (OutOfFuel, d)
  end.

(** [out.clear()] *)
Fixpoint lb_clear (out : list PacketBuf) (d : LoopbackDevice) : outcome unit * LoopbackDevice :=
  match out with
  | [] => (Ok tt, d)
  | b :: out => then_ (lb_drop b d) id (fun _ d => lb_clear out d)
  end.

(** The body of the receive loop, on one fresh buffer. *)
Definition fill_buf (d : LoopbackDevice) (buf : PacketBuf) : outcome (PacketBuf * LoopbackDevice) :=
  match rx d with
  | [] => Panic
  | (slot, len) :: rest =>
      let d := d <| rx := rest |> in
      let* buf := if tail_capacity buf <? len then set_headroom buf 0 else Ok buf in
      let base := slot * frame_size (pool d) in
      let off := data_offset buf in
      let* bytes := slice (lb_arena d) base (base + len) in
      let* m := copy_at (buf_mem buf) off bytes in
      let* buf := set_len (buf <| buf_mem := m |>) len in
      Ok (buf, d <| free_slots ::= fun s => s ++ [slot] |>)
  end.

Fixpoint fill_bufs (d : LoopbackDevice) (out : list PacketBuf)
  : outcome (list PacketBuf * LoopbackDevice) :=
  match out with
  | [] => Ok ([], d)
  | b :: out =>
      let* '(b, d) := fill_buf d b in
      let* '(out, d) := fill_bufs d out in
      Ok (b :: out, d)
  end.

Definition refill (d : LoopbackDevice) (n : Z) : outcome (list PacketBuf * LoopbackDevice) :=
  let* batch := alloc_batch (pool d) n [] in
  fill_bufs (d <| pool := batch.2 |>) batch.1.2.

Definition lb_recv (max : Z) : ST (LoopbackDevice * list PacketBuf) Z := fun s =>
  then_ (lb_clear s.2 s.1) (fun d => (d, [])) (fun _ d =>
    match refill d (Z.min max (zlen (rx d))) with
    | Ok (out, d) => (Ok (zlen out), (d, out))
    | r => (recast r, (d, []))
    end).

(** The send loop: the number of frames taken and the device, or the error of the first
    frame. *)
Fixpoint send_loop (frames : list PacketBuf) (sent : Z) (d : LoopbackDevice)
  : outcome (Z * LoopbackDevice) :=
  match frames with
  | [] => Ok (sent, d)
  | frame :: frames =>
      let src := as_slice frame in
      if (zlen src =? 0) || (frame_size (pool d) <? zlen src) then
        if 0 <? sent then Ok (sent, d) else Err InvalidInput
      else
        match last (free_slots d) with
        | None => Ok (sent, d)
        | Some slot =>
            let d := d <| free_slots ::= fun s => take (length s - 1) s |> in
            let base := slot * frame_size (pool d) in
            let* a := copy_at (lb_arena d) base src in
            send_loop frames (sent + 1)
              (d <| lb_arena := a |> <| rx ::= fun q => q ++ [(slot, zlen src)] |>)
        end
  end.

(** Dropping the accepted prefix, leaving empty slots. *)
Fixpoint lb_recycle (frames : list PacketBuf) (d : LoopbackDevice)
  : outcome unit * (LoopbackDevice * list PacketBuf) :=
  match frames with
  | [] => (Ok tt, (d, []))
  | f :: fs =>
      then_ (lb_drop f d) (fun d => (d, f :: fs)) (fun _ d =>
        let '(r, (d, fs)) := lb_recycle fs d in (r, (d, packet_default :: fs)))
  end.

Definition lb_send : ST (LoopbackDevice * list PacketBuf) Z := fun s =>
  let '(d, frames) := s in
  match send_loop frames 0 d with
  | Ok (sent, d) =>
      let '(r, (d, done)) := lb_recycle (take (Z.to_nat sent) frames) d in
      (let* _ := r in Ok sent, (d, done ++ drop (Z.to_nat sent) frames))
  | Err k => (Err k, (d, frames))
  | Panic => (Panic, (d, frames))
  | OutOfFuel => (OutOfFuel, (d, frames))
  end.

Definition lb_alloc : ST LoopbackDevice (option PacketBuf) := fun d =>
  match alloc_packet (pool d) with
  | Ok (b, p) => (Ok b, d <| pool := p |>)
  | r => (recast r, d)
  end.

Definition lb_alloc_batch (max : Z) : ST (LoopbackDevice * list PacketBuf) Z := fun s =>
  let '(d, out) := s in
  match alloc_batch (pool d) max out with
  | Ok (n, out, p) => (Ok n, (d <| pool := p |>, out))
  | r => (recast r, s)
  end.

#[export] Instance loopback_device : Device LoopbackDevice := {|
  dev_poll_at := fun _ d => (Ok tt, d);
  dev_recv := lb_recv;
  dev_send := lb_send;
  dev_alloc := lb_alloc;
  dev_drop := lb_drop;
  dev_frame_size := fun d => frame_size (pool d)
|}.

(** ** The invariant: slots are free or queued, never both *)
Record lb_inv (d : LoopbackDevice) (held : list Z) : Prop := {
  lb_pool : pool_inv (pool d) held;
  lb_bytes : Forall bytes_ok (arena (pool d));
  lb_slots : exists k, 0 < k /\ free_slots d ++ (rx d).*1 ≡ₚ indices k
               /\ zlen (lb_arena d) = k * frame_size (pool d);
  lb_lens : Forall (fun '(_, len) => 0 < len <= frame_size (pool d)) (rx d);
  lb_arena_bytes : bytes_ok (lb_arena d)
}.

(** What is queued, as byte strings. *)
Definition slot_bytes (a : list Z) (size : Z) (e : Z * Z) : list Z :=
  take (Z.to_nat e.2) (drop (Z.to_nat (e.1 * size)) a).
Definition queue (d : LoopbackDevice) : list (list Z) :=
  slot_bytes (lb_arena d) (frame_size (pool d)) <$> rx d.

(** ** Slots do not overlap *)
Lemma take_drop_ext {A} (l l' : list A) m n :
  (forall i, (m <= i < m + n)%nat -> l' !! i = l !! i) ->
  take n (drop m l') = take n (drop m l).
Proof.
  intros H. apply list_eq. intros i. destruct (decide (i < n)%nat).
  - rewrite !lookup_take_lt, !lookup_drop by done. apply H. lia.
  - by rewrite !lookup_take_ge by lia.
Qed.

Lemma copy_lookup a x src a' i :
  copy_at a x src = Ok a' -> (i < Z.to_nat x \/ Z.to_nat x + length src <= i)%nat ->
  a' !! i = a !! i.
Proof.
  intros E Hi. pose proof (copy_at_inv _ _ _ _ E) as (_ & Hx & Hl). revert E.
  rewrite copy_at_ok by lia. intros [= <-].
  assert (length (take (Z.to_nat x) a) = Z.to_nat x) as Lt
    by (rewrite length_take; unfold zlen in *; lia).
  destruct Hi as [Hi|Hi].
  - rewrite lookup_app_l by lia. by rewrite lookup_take_lt by lia.
  - rewrite lookup_app_r, Lt by lia. rewrite lookup_app_r by lia. rewrite lookup_drop.
    f_equal. lia.
Qed.

Lemma slot_bytes_other a a' size s src e :
  copy_at a (s * size) src = Ok a' -> 0 <= s -> 0 <= e.1 -> 0 < size -> e.1 <> s ->
  zlen src <= size -> 0 <= e.2 <= size -> slot_bytes a' size e = slot_bytes a size e.
Proof.
  intros E H1 H2 H3 H4 H5 H6. unfold slot_bytes. apply take_drop_ext. intros i Hi.
  eapply copy_lookup; [exact E|]. destruct e as [t n]. simpl in *. unfold zlen in *.
  destruct (decide (t < s)); [left|right]; nia.
Qed.

Lemma slot_bytes_self a a' size s src :
  copy_at a (s * size) src = Ok a' -> slot_bytes a' size (s, zlen src) = src.
Proof.
  intros E. pose proof (copy_at_inv _ _ _ _ E) as (_ & Hx & Hl). revert E.
  rewrite copy_at_ok by lia. intros [= <-]. unfold slot_bytes. simpl.
  rewrite drop_app_length' by (rewrite length_take; unfold zlen in *; lia).
  unfold zlen. rewrite Nat2Z.id. apply take_app_length.
Qed.


(** ** Operations *)
Definition lb_same (d d' : LoopbackDevice) : Prop :=
  pool_id (pool d') = pool_id (pool d) /\ frame_size (pool d') = frame_size (pool d).

Lemma lb_inv_perm d h k : h ≡ₚ k -> lb_inv d h -> lb_inv d k.
Proof. intros E [I1 I2 I3 I4 I5]. constructor; try done. by rewrite <- E. Qed.

Lemma lb_drop_spec d held b :
  lb_inv d (owned [b] ++ held) -> handle (pool_id (pool d)) (frame_size (pool d)) b ->
  exists d', lb_drop b d = (Ok tt, d') /\ lb_inv d' held /\ lb_same d d'
    /\ lb_arena d' = lb_arena d /\ rx d' = rx d /\ free_slots d' = free_slots d.
Proof.
  intros [I1 I2 I3 I4 I5] (_ & Hb & Hp). unfold owned in I1. simpl in I1.
  unfold lb_drop. destruct (buf_pool b) as [id|] eqn:E.
  - destruct Hp as [-> Hc].
    destruct (drop_packet_spec (pool d) _ held b I1 E Hc) as (p & -> & Ip & _ & E1 & E2 & E3); [done|].
    eexists. split; [reflexivity|]. split; [|done].
    constructor; simpl; rewrite ?E2; try done. rewrite E3. by apply Forall_insert.
  - unfold drop_packet. rewrite E. eexists. split; [reflexivity|]. by split.
Qed.

Lemma lb_clear_spec d held out :
  lb_inv d (owned out ++ held) ->
  Forall (handle (pool_id (pool d)) (frame_size (pool d))) out ->
  exists d', lb_clear out d = (Ok tt, d') /\ lb_inv d' held /\ lb_same d d'
    /\ lb_arena d' = lb_arena d /\ rx d' = rx d /\ free_slots d' = free_slots d.
Proof.
  revert d. induction out as [|b out IH]; intros d I F; simpl; [by exists d|].
  apply Forall_cons in F as [Hb F].
  assert (owned (b :: out) = owned [b] ++ owned out) as Eo
    by (unfold owned; rewrite !bind_cons; simpl; by rewrite app_nil_r).
  rewrite Eo, <- app_assoc in I.
  destruct (lb_drop_spec d _ b I Hb) as (d1 & -> & I1 & (E1 & E2) & A1 & R1 & S1). cbn [then_].
  destruct (IH d1 I1) as (d2 & -> & I2 & (E3 & E4) & A2 & R2 & S2); [by rewrite E1, E2|].
  exists d2. split; [done|]. split; [done|]. unfold lb_same. split_and!; congruence.
Qed.

Lemma slot_range d held slot len :
  lb_inv d held -> (slot, len) ∈ rx d ->
  0 <= slot /\ 0 < len <= frame_size (pool d)
  /\ 0 <= slot * frame_size (pool d)
  /\ slot * frame_size (pool d) + frame_size (pool d) <= zlen (lb_arena d).
Proof.
  intros [I1 I2 (k & Hk & Hp & Hl) I4 I5] Hin.
  assert (slot ∈ indices k) as Hs.
  { rewrite <- Hp. apply elem_of_app. right. apply list_elem_of_fmap. by exists (slot, len). }
  apply elem_of_indices in Hs. rewrite Forall_forall in I4. specialize (I4 _ Hin). simpl in I4.
  pose proof (inv_size _ _ I1). split; [lia|]. split; [lia|]. nia.
Qed.

(** A fresh buffer takes any queued packet, moving its headroom if it must. *)
Lemma fill_buf_spec d held b slot len rest :
  lb_inv d held -> rx d = (slot, len) :: rest -> fresh_buf (pool d) b ->
  exists b' d', fill_buf d b = Ok (b', d') /\ lb_inv d' held /\ pool d' = pool d
    /\ rx d' = rest /\ lb_arena d' = lb_arena d
    /\ handle (pool_id (pool d)) (frame_size (pool d)) b'
    /\ buf_idx b' = buf_idx b /\ buf_pool b' = buf_pool b
    /\ as_slice b' = slot_bytes (lb_arena d) (frame_size (pool d)) (slot, len).
Proof.
  intros I Er (F1 & F2 & F3 & F4 & F5).
  destruct (slot_range d held slot len I) as (Hs & Hlen & Hb & Ha); [rewrite Er; by left|].
  unfold fill_buf. rewrite Er. cbv zeta. cbn [pool lb_arena].
  set (b1 := if tail_capacity b <? len then b <| data_offset := 0 |> else b).
  assert ((if tail_capacity b <? len then set_headroom b 0 else Ok b) = Ok b1) as ->.
  { unfold b1. destruct (_ <? len); [|done]. unfold set_headroom. rewrite F1.
    rewrite (proj2 (Z.leb_le _ _)) by lia. done. }
  cbn [obind].
  assert (0 <= data_offset b1 /\ data_offset b1 + len <= capacity b1 /\ capacity b1 = frame_size (pool d)
    /\ buf_len b1 = 0 /\ buf_mem b1 = buf_mem b /\ buf_idx b1 = buf_idx b /\ buf_pool b1 = buf_pool b)
    as (B1 & B2 & B3 & B4 & B5 & B6 & B7).
  { unfold b1. destruct (tail_capacity b <? len) eqn:E; bools; unfold tail_capacity, capacity in *;
      simpl; split_and!; try done; lia. }
  clearbody b1.
  change (pool (d <| rx := rest |>)) with (pool d). change (lb_arena (d <| rx := rest |>)) with (lb_arena d).
  rewrite slice_ok by lia. cbn [obind].
  replace (slot * frame_size (pool d) + len - slot * frame_size (pool d)) with len by lia.
  set (bytes := take (Z.to_nat len) _).
  assert (zlen bytes = len) as Lb by (unfold bytes; zl).
  assert (bytes_ok bytes) as Ob by (unfold bytes; destruct I; eauto with net).
  rewrite copy_at_ok by (unfold capacity in *; lia). cbn [obind].
  set (m := take _ _ ++ _).
  assert (zlen m = capacity b1) as Lm by (unfold m, capacity in *; unfold zlen in *;
    rewrite !length_app, length_take, length_drop; lia).
  assert (set_len (b1 <| buf_mem := m |>) len = Ok (b1 <| buf_mem := m |> <| buf_len := len |>)) as ->.
  { unfold set_len, capacity in *. simpl. by rewrite Lm, (proj2 (Z.leb_le _ _)) by lia. }
  cbn [obind]. eexists _, _. split; [reflexivity|]. split_and!; try done.
  - destruct I as [I1 I2 (k & Hk & Hp & Hl) I4 I5]. rewrite Er in Hp, I4.
    constructor; simpl; try done; [|by apply Forall_cons in I4 as [_ ?]].
    exists k. split_and!; try done. rewrite <- Hp. simpl. by rewrite <- app_assoc.
  - split; [|split].
    + unfold buf_wf, capacity in *. simpl. lia.
    + simpl. unfold m. rewrite !bytes_app. split_and!; try done; [apply bytes_take|apply bytes_drop];
        rewrite B5; pose proof (lb_bytes _ _ I) as Fb; rewrite Forall_forall in Fb; by apply Fb.
    + simpl. rewrite B7, F2. unfold capacity in *. simpl. split; [done|]. by rewrite Lm.
  - unfold as_slice. simpl. unfold m.
    rewrite drop_app_length' by (rewrite length_take; unfold capacity, zlen in *; lia).
    rewrite take_app_length' by (unfold zlen in Lb; lia). done.
Qed.

Lemma fill_bufs_spec d held bs :
  lb_inv d held -> zlen bs <= zlen (rx d) -> Forall (fresh_buf (pool d)) bs ->
  exists out d', fill_bufs d bs = Ok (out, d') /\ lb_inv d' held /\ pool d' = pool d
    /\ rx d' = drop (length bs) (rx d) /\ lb_arena d' = lb_arena d
    /\ Forall (handle (pool_id (pool d)) (frame_size (pool d))) out
    /\ buf_idx <$> out = buf_idx <$> bs /\ Forall (fun b => buf_pool b = Some (pool_id (pool d))) out
    /\ as_slice <$> out = take (length bs) (queue d).
Proof.
  revert d. induction bs as [|b bs IH]; intros d I Hl F; simpl; [by exists [], d|].
  apply Forall_cons in F as [Fb F]. rewrite zlen_cons in Hl. pose proof (zlen_nonneg bs).
  destruct (rx d) as [|[slot len] rest] eqn:Er; [rewrite zlen_nil in Hl; lia|].
  destruct (fill_buf_spec d held b slot len rest I Er Fb)
    as (b' & d1 & -> & I1 & P1 & R1 & A1 & H1 & Ix & Po & As). cbn [obind].
  destruct (IH d1 I1) as (out & d2 & -> & I2 & P2 & R2 & A2 & H2 & Ix2 & Po2 & As2).
  { rewrite R1. rewrite zlen_cons in Hl. lia. }
  { by rewrite P1. }
  cbn [obind]. exists (b' :: out), d2. rewrite P1 in *. split; [done|]. split; [done|].
  split; [congruence|]. split; [rewrite R2, R1; done|]. split; [congruence|].
  split; [by constructor|]. split; [by rewrite !fmap_cons, Ix, Ix2|].
  split; [constructor; [destruct Fb as (_ & Hp & _); congruence|done]|].
  unfold queue in *. rewrite Er, !fmap_cons, As. simpl. f_equal.
  rewrite As2, A1, R1, P1. done.
Qed.

Lemma refill_spec d held n :
  lb_inv d held -> 0 <= n <= zlen (rx d) ->
  exists out d', refill d n = Ok (out, d') /\ lb_inv d' (owned out ++ held) /\ lb_same d d'
    /\ zlen out = Z.min n (free_count (pool d))
    /\ Forall (handle (pool_id (pool d)) (frame_size (pool d))) out
    /\ as_slice <$> out = take (length out) (queue d) /\ queue d' = drop (length out) (queue d).
Proof.
  intros I Hn. destruct (alloc_batch_spec (pool d) held n (lb_pool _ _ I) ltac:(lia))
    as (bs & p & E & Hl & Ip & (S1 & S2 & S3 & S4) & F).
  unfold refill. rewrite E. cbn [obind fst snd].
  set (d1 := d <| pool := p |>).
  assert (lb_inv d1 ((buf_idx <$> bs) ++ held)) as I1.
  { destruct I. constructor; simpl; rewrite ?S1, ?S3; try done. }
  destruct (fill_bufs_spec d1 _ bs I1) as (out & d2 & -> & I2 & P2 & R2 & A2 & H2 & Ix & Po & As).
  { simpl. lia. }
  { simpl. eapply Forall_impl; [exact F|]. intros b. unfold fresh_buf. by rewrite S1, S2, S3. }
  simpl in H2. rewrite S2, S3 in H2.
  assert (length out = length bs) as Lo by (by rewrite <- (length_fmap buf_idx out), Ix, length_fmap).
  exists out, d2. split; [done|]. split.
  { rewrite (owned_live _ _ Po), Ix. done. }
  split; [unfold lb_same; rewrite P2; done|]. split; [unfold zlen in *; by rewrite Lo|].
  split; [done|]. rewrite Lo. assert (queue d1 = queue d) as Eq by (unfold queue; simpl; by rewrite S3).
  rewrite <- Eq. split; [done|]. unfold queue. rewrite R2, A2, P2. by rewrite <- fmap_drop.
Qed.

Lemma send_loop_spec frames sent d held :
  lb_inv d held -> 0 <= sent ->
  Forall (handle (pool_id (pool d)) (frame_size (pool d))) frames ->
  send_loop frames sent d = Err InvalidInput /\ sent = 0 \/
  exists n d', send_loop frames sent d = Ok (sent + Z.of_nat n, d') /\ (n <= length frames)%nat
    /\ lb_inv d' held /\ pool d' = pool d
    /\ queue d' = queue d ++ (as_slice <$> take n frames).
Proof.
  intros I Hs F. revert d sent I Hs F. induction frames as [|f fs IH]; intros d sent I Hs F; simpl.
  { right. exists 0%nat, d. rewrite Z.add_0_r, app_nil_r. done. }
  apply Forall_cons in F as [(W & Hb & _) F].
  assert (forall r, r = Ok (sent, d) -> exists n d', r = Ok (sent + Z.of_nat n, d')
    /\ (n <= S (length fs))%nat /\ lb_inv d' held /\ pool d' = pool d
    /\ queue d' = queue d ++ (as_slice <$> take n (f :: fs))) as Stop.
  { intros r ->. exists 0%nat, d. rewrite Z.add_0_r, app_nil_r. split_and!; try done. lia. }
  destruct (_ || _) eqn:E; bools.
  { destruct (0 <? sent) eqn:E0; bools; [right; by apply Stop|left; split; [done|lia]]. }
  destruct (last (free_slots d)) as [slot|] eqn:El; [|right; by apply Stop].
  destruct E as [E1 E2]. apply last_Some in El as [fr Efr].
  assert (take (length (free_slots d) - 1) (free_slots d) = fr) as Et.
  { rewrite Efr, length_app. simpl. rewrite Nat.add_sub. apply take_app_length. }
  pose proof (inv_size _ _ (lb_pool _ _ I)) as Hsz. pose proof I as [I1 I2 (k & Hk & Hp & Hl) I4 I5].
  rewrite Efr in Hp.
  assert (0 <= slot < k) as Hslot.
  { apply elem_of_indices. rewrite <- Hp. rewrite !elem_of_app. left. right. by left. }
  assert (bytes_ok (as_slice f)) as Obs by (unfold as_slice; eauto with net). pose_zlen.
  destruct (copy_at (lb_arena d) (slot * frame_size (pool d)) (as_slice f)) as [a| | |] eqn:Ec.
  2-4: exfalso; revert Ec; rewrite copy_at_ok by nia; done.
  cbn [obind]. match goal with |- context [send_loop fs _ ?x] => set (d1 := x) end.
  pose proof (copy_at_inv _ _ _ _ Ec) as (La & _ & _).
  assert (lb_inv d1 held) as Id1.
  { constructor; simpl; try done.
    - exists k. rewrite Et, fmap_app. split_and!; try done; [|by rewrite La].
      rewrite <- Hp. simpl. rewrite <- !app_assoc. simpl.
      apply Permutation_app_head. by rewrite Permutation_app_comm.
    - apply Forall_app. split; [done|]. apply Forall_singleton. lia.
    - by eapply copy_at_bytes. }
  assert (queue d1 = queue d ++ [as_slice f]) as Eq.
  { unfold queue. simpl. rewrite fmap_app. simpl.
    rewrite (slot_bytes_self _ _ _ _ _ Ec). f_equal. apply list_fmap_ext. intros i e He.
    pose proof (list_elem_of_lookup_2 _ _ _ He) as Hin. destruct e as [t n].
    destruct (slot_range d held t n I Hin) as (Ht & Hn & _).
    eapply slot_bytes_other; [exact Ec|lia|simpl; lia|lia| |lia|simpl; lia].
    simpl. intros ->. assert (NoDup ((fr ++ [slot]) ++ (rx d).*1)) as Nd by (rewrite Hp; apply NoDup_indices).
    apply NoDup_app in Nd as (_ & Nd & _). apply (Nd slot); [apply elem_of_app; right; by left|].
    apply list_elem_of_fmap. by exists (slot, n). }
  destruct (IH d1 (sent + 1) Id1 ltac:(lia) F) as [[_ ?]|(n & d2 & -> & Hn & I2' & P2 & Q2)]; [lia|].
  right. exists (S n), d2. split_and!; try done.
  - do 2 f_equal. lia.
  - lia.
  - rewrite Q2, Eq, <- app_assoc. done.
Qed.

Lemma lb_recycle_spec d held fs :
  lb_inv d (owned fs ++ held) ->
  Forall (handle (pool_id (pool d)) (frame_size (pool d))) fs ->
  exists d', lb_recycle fs d = (Ok tt, (d', replicate (length fs) packet_default))
    /\ lb_inv d' held /\ lb_same d d' /\ queue d' = queue d.
Proof.
  revert d. induction fs as [|f fs IH]; intros d I F; simpl; [by exists d|].
  apply Forall_cons in F as [Hf F]. rewrite owned_cons, <- app_assoc in I.
  destruct (lb_drop_spec d _ f I Hf) as (d1 & -> & I1 & (E1 & E2) & A1 & R1 & S1). cbn [then_].
  destruct (IH d1 I1) as (d2 & -> & I2 & (E3 & E4) & Q2); [by rewrite E1, E2|].
  exists d2. split; [done|]. split; [done|]. split; [unfold lb_same; split; congruence|].
  rewrite Q2. unfold queue. by rewrite A1, R1, E2.
Qed.

(** [send]: an accepted prefix joins the queue, its slots become empty. *)
Lemma lb_send_spec d held frames :
  lb_inv d (owned frames ++ held) ->
  Forall (handle (pool_id (pool d)) (frame_size (pool d))) frames ->
  lb_send (d, frames) = (Err InvalidInput, (d, frames)) \/
  exists n d', lb_send (d, frames)
      = (Ok (Z.of_nat n), (d', replicate n packet_default ++ drop n frames))
    /\ (n <= length frames)%nat /\ lb_same d d'
    /\ lb_inv d' (owned (replicate n packet_default ++ drop n frames) ++ held)
    /\ queue d' = queue d ++ (as_slice <$> take n frames).
Proof.
  intros I F. unfold lb_send.
  destruct (send_loop_spec frames 0 d _ I ltac:(lia) F) as [[-> _]|(n & d1 & -> & Hn & I1 & P1 & Q1)];
    [by left|]. right. rewrite Z.add_0_l. rewrite Nat2Z.id.
  assert (owned frames = owned (take n frames) ++ owned (drop n frames)) as Eo
    by (by rewrite <- owned_app, take_drop).
  rewrite Eo, <- app_assoc in I1. rewrite <- P1 in F.
  destruct (lb_recycle_spec d1 _ _ I1 (Forall_take _ n _ F)) as (d2 & -> & I2 & (E1 & E2) & Q2).
  rewrite length_take_le by done. cbn [obind]. exists n, d2. split; [done|]. split; [done|].
  split; [unfold lb_same; rewrite E1, E2, P1; done|]. split; [|by rewrite Q2].
  by rewrite owned_app, owned_defaults.
Qed.

Lemma lb_recv_spec d held max out :
  lb_inv d (owned out ++ held) -> 0 <= max ->
  Forall (handle (pool_id (pool d)) (frame_size (pool d))) out ->
  exists out' d', lb_recv max (d, out) = (Ok (zlen out'), (d', out'))
    /\ lb_inv d' (owned out' ++ held) /\ lb_same d d' /\ zlen out' <= max
    /\ Forall (handle (pool_id (pool d)) (frame_size (pool d))) out'
    /\ as_slice <$> out' = take (length out') (queue d) /\ queue d' = drop (length out') (queue d).
Proof.
  intros I Hm F. unfold lb_recv. cbn [fst snd].
  destruct (lb_clear_spec d held out I F) as (d1 & -> & I1 & (E1 & E2) & A1 & R1 & S1). cbn [then_].
  pose proof (zlen_nonneg (rx d1)).
  destruct (refill_spec d1 held (Z.min max (zlen (rx d1))) I1 ltac:(lia))
    as (out' & d2 & -> & I2 & (E3 & E4) & Hl & F2 & As & Q).
  exists out', d2. split; [done|]. rewrite E1, E2 in *.
  assert (queue d1 = queue d) as Eq by (unfold queue; by rewrite A1, R1, E2). rewrite Eq in *.
  split_and!; try done. lia.
Qed.

#[export] Instance loopback_laws : DeviceLaws LoopbackDevice.
Proof.
  refine {| dev_pool := fun d => pool_id (pool d); dev_inv := lb_inv |}.
  - apply lb_inv_perm.
  - intros d held I. simpl. unfold lb_alloc.
    destruct (alloc_packet_spec (pool d) held (lb_pool _ _ I))
      as [[-> _]|(b & p & -> & Ip & (S1 & S2 & S3 & S4) & (F1 & F2 & F3 & F4 & F5))].
    + eexists None, _. split; [reflexivity|]. by destruct I.
    + eexists (Some b), _. split; [reflexivity|]. split; [done|]. split; [done|].
      split; [|split; [|done]].
      * destruct I. constructor; simpl; rewrite ?S1, ?S3; done.
      * split; [unfold buf_wf; lia|]. split; [|by rewrite F2].
        pose proof (lb_bytes _ _ I) as Fb. rewrite Forall_forall in Fb. by apply Fb.
  - intros d held b I Hb. destruct (lb_drop_spec d held b I Hb) as (d' & E & I' & (E1 & E2) & _).
    by exists d'.
  - intros d held frames I F. destruct (lb_send_spec d held frames I F)
      as [E|(n & d' & E & Hn & (E1 & E2) & I' & _)].
    + exists (Err InvalidInput), d, frames. done.
    + eexists _, d', _. split; [exact E|]. split_and!; try done; [lia|unfold zlen; lia|].
      by rewrite Nat2Z.id.
  - intros d held max out I Hm F. destruct (lb_recv_spec d held max out I Hm F)
      as (out' & d' & E & I' & (E1 & E2) & Hl & F' & _).
    by eexists _, d', out'.
  - intros d held now I. by exists (Ok tt), d.
Defined.

(** ** Properties *)

(** The loopback device is a bounded FIFO queue of packets: [send] takes a prefix of
    the frames and appends their bytes, in order, to what is queued (or rejects the call
    and changes nothing); [recv] returns the oldest packets, byte for byte, each in a
    buffer of its own, and removes exactly those; both keep every frame and every kernel
    slot owned exactly once, and neither panics. *)
Theorem loopback_fifo d held frames max out :
  lb_inv d (owned frames ++ owned out ++ held) -> 0 <= max ->
  Forall (handle (pool_id (pool d)) (frame_size (pool d))) frames ->
  Forall (handle (pool_id (pool d)) (frame_size (pool d))) out ->
  (lb_send (d, frames) = (Err InvalidInput, (d, frames)) \/
   exists n d' frames', lb_send (d, frames) = (Ok (Z.of_nat n), (d', frames'))
     /\ queue d' = queue d ++ (as_slice <$> take n frames)
     /\ lb_inv d' (owned frames' ++ owned out ++ held)) /\
  exists out' d', lb_recv max (d, out) = (Ok (zlen out'), (d', out'))
    /\ zlen out' <= max /\ queue d = (as_slice <$> out') ++ queue d'
    /\ lb_inv d' (owned out' ++ owned frames ++ held).
Proof.
  intros I Hm Ff Fo. split.
  - destruct (lb_send_spec d _ frames I Ff) as [E|(n & d' & E & _ & _ & I' & Q)]; [by left|].
    right. eauto 8.
  - assert (lb_inv d (owned out ++ owned frames ++ held)) as I2.
    { eapply lb_inv_perm; [|exact I]. rewrite !app_assoc. by rewrite (Permutation_app_comm (owned frames)). }
    destruct (lb_recv_spec d _ max out I2 Hm Fo) as (out' & d' & E & I' & _ & Hl & _ & As & Q).
    exists out', d'. split_and!; try done. by rewrite As, Q, take_drop.
Qed.

Lemma with_capacity_inv id n k d : with_capacity id n k = Ok d -> lb_inv d [].
Proof.
  unfold with_capacity. destruct (_ && _) eqn:E; [|done]. bools.
  destruct (pool_new id n FRAME_SIZE) as [p| | |] eqn:Ep; try done. cbn [obind]. intros E'. injection E' as <-.
  pose proof (pool_new_inv _ _ _ _ Ep) as I. destruct (pool_new_zeroed _ _ _ _ Ep) as (Z1 & Z2 & _).
  constructor; cbn [pool lb_arena rx free_slots]; try done.
  - exists k. split; [lia|]. split; [rewrite app_nil_r; apply reverse_Permutation|].
    rewrite zlen_replicate, Z2. unfold FRAME_SIZE. lia.
  - apply bytes_zeros.
Qed.

Definition loopback2 : LoopbackDevice :=
  match with_capacity 9 2 2 with Ok d => d | _ => mkLoopback (build 9 1 0 []) [] [] [] 0 end.
Lemma loopback2_inv : lb_inv loopback2 [].
Proof. by apply (with_capacity_inv 9 2 2). Qed.

Lemma loopback_fifo_witness :
  exists out' d', lb_recv 4 (loopback2, []) = (Ok (zlen out'), (d', out')) /\ zlen out' <= 4.
Proof.
  destruct (loopback_fifo loopback2 [] [mkPacketBuf [1; 2; 3] 0 3 0 None] 4 [])
    as (_ & out' & d' & E & L & _).
  - exact loopback2_inv.
  - lia.
  - constructor; [|constructor]. split; [|split; [|done]].
    + unfold buf_wf, capacity. simpl. unfold zlen. simpl. lia.
    + repeat constructor; unfold is_byte; lia.
  - constructor.
  - exists out', d'. split; [exact E|exact L].
Defined.
