(* ===== verification/OrdMap.v ===== *)
(** * Ordered maps

    [BTreeMap] with integer keys as the list of its entries in ascending key order, the
    order in which the code iterates over it.  [om_sorted] is the representation
    invariant; the operations keep it. *)
From Stdlib Require Import ZArith Lia Bool.
From stdpp Require Import base numbers option list sorting.
From S2P Require Import Prelude.
#[local] Open Scope Z_scope.

Section OrdMap.
Context {V : Type}.
Implicit Types (m : list (Z * V)) (k : Z) (v : V).

Definition om_sorted m : Prop := StronglySorted Z.lt m.*1.

Fixpoint om_get m k : option V :=
  match m with
  | [] => None
  | (i, v) :: m => if i =? k then Some v else om_get m k
  end.
(** [get_mut]: replace the value of a key that is present. *)
Fixpoint om_set m k v : list (Z * V) :=
  match m with
  | [] => []
  | (i, w) :: m => if i =? k then (i, v) :: m else (i, w) :: om_set m k v
  end.
Fixpoint om_insert m k v : list (Z * V) :=
  match m with
  | [] => [(k, v)]
  | (i, w) :: m =>
      if k <? i then (k, v) :: (i, w) :: m
      else if k =? i then (k, v) :: m
      else (i, w) :: om_insert m k v
  end.
Fixpoint om_remove m k : list (Z * V) :=
  match m with
  | [] => []
  | (i, w) :: m => if i =? k then m else (i, w) :: om_remove m k
  end.
(** [retain] and [iter().find()], by a test on the value. *)
Fixpoint om_retain (keep : V -> bool) m : list (Z * V) :=
  match m with
  | [] => []
  | (i, w) :: m => if keep w then (i, w) :: om_retain keep m else om_retain keep m
  end.
Fixpoint om_find (test : V -> bool) m : option Z :=
  match m with
  | [] => None
  | (i, w) :: m => if test w then Some i else om_find test m
  end.
Definition om_map (f : V -> V) m : list (Z * V) := (fun '(i, v) => (i, f v)) <$> m.

(** ** Lookups *)
Lemma om_sorted_cons i v m :
  om_sorted ((i, v) :: m) <-> Forall (Z.lt i) m.*1 /\ om_sorted m.
Proof.
  unfold om_sorted. rewrite fmap_cons. split.
  - intros H. apply StronglySorted_inv in H. tauto.
  - intros [H1 H2]. by constructor.
Qed.
Lemma om_get_elem m k v : om_get m k = Some v -> (k, v) ∈ m.
Proof.
  induction m as [|[i w] m IH]; simpl; [done|]. destruct (i =? k) eqn:E; bools.
  - intros [= ->]. subst; left.
  - intros H. right. auto.
Qed.
Lemma om_get_keys m k : k ∉ m.*1 -> om_get m k = None.
Proof.
  intros H. destruct (om_get m k) eqn:E; [|done]. exfalso. apply H.
  apply om_get_elem in E. by apply (list_elem_of_fmap_2 fst) in E.
Qed.
Lemma om_get_none m k : om_get m k = None -> k ∉ m.*1.
Proof.
  induction m as [|[i w] m IH]; simpl; [intros _; apply not_elem_of_nil|].
  destruct (i =? k) eqn:E; bools; [done|]. intros H. apply not_elem_of_cons. auto.
Qed.
Lemma om_elem_get m k v : om_sorted m -> (k, v) ∈ m -> om_get m k = Some v.
Proof.
  induction m as [|[i w] m IH]; intros Hs Hin; [by apply elem_of_nil in Hin|].
  apply om_sorted_cons in Hs as [Hi Hs]. simpl. apply elem_of_cons in Hin as [[= -> ->]|Hin].
  - by rewrite Z.eqb_refl.
  - rewrite Forall_forall in Hi. apply (list_elem_of_fmap_2 fst) in Hin as Hk.
    specialize (Hi _ Hk). simpl in Hi. rewrite (proj2 (Z.eqb_neq i k)) by lia. auto.
Qed.
Lemma om_find_some test m k :
  om_sorted m -> om_find test m = Some k -> exists v, om_get m k = Some v /\ test v = true.
Proof.
  intros Hs. enough (om_find test m = Some k -> exists v, (k, v) ∈ m /\ test v = true) as H.
  { intros Hf. destruct (H Hf) as (v & Hin & Ht). eauto using om_elem_get. }
  clear Hs. induction m as [|[i w] m IH]; simpl; [done|]. destruct (test w) eqn:E.
  - intros [= ->]. exists w. split; [left|done].
  - intros Hf. destruct (IH Hf) as (v & ? & ?). exists v. split; [by right|done].
Qed.
(** [find] returns the smallest key whose value passes the test. *)
Lemma om_find_first test m k i v :
  om_sorted m -> om_find test m = Some k -> om_get m i = Some v -> test v = true -> k <= i.
Proof.
  induction m as [|[j w] m IH]; simpl; [done|]. intros Hs Hf Hg Ht.
  apply om_sorted_cons in Hs as [Hj Hs]. destruct (test w) eqn:E.
  - injection Hf as <-. destruct (j =? i) eqn:Ej; bools; [lia|].
    apply om_get_elem, (list_elem_of_fmap_2 fst) in Hg. rewrite Forall_forall in Hj.
    specialize (Hj _ Hg). simpl in Hj. lia.
  - destruct (j =? i) eqn:Ej; bools; [congruence|]. by apply IH.
Qed.
Lemma om_find_none test m v : om_find test m = None -> v ∈ m.*2 -> test v = false.
Proof.
  induction m as [|[i w] m IH]; simpl; intros Hf Hin; [by apply elem_of_nil in Hin|].
  destruct (test w) eqn:E; [done|]. apply elem_of_cons in Hin as [->|]; auto.
Qed.

Lemma om_sorted_nodup m : om_sorted m -> NoDup m.*1.
Proof.
  induction m as [|[i w] m IH]; [constructor|]. intros [Hi Hs]%om_sorted_cons. cbn. constructor; [|auto].
  intros Hin. rewrite Forall_forall in Hi. specialize (Hi _ Hin). lia.
Qed.

(** ** Updates *)
Lemma om_get_set m k v i :
  om_get (om_set m k v) i = if k =? i then (if om_get m k then Some v else None) else om_get m i.
Proof.
  induction m as [|[j w] m IH]; simpl.
  { by destruct (k =? i). }
  destruct (j =? k) eqn:E; simpl; bools; subst.
  - by destruct (k =? i).
  - destruct (j =? i) eqn:E1, (k =? i) eqn:E2; bools; subst; done.
Qed.
Lemma om_keys_set m k v : (om_set m k v).*1 = m.*1.
Proof.
  induction m as [|[i w] m IH]; [done|]. simpl. destruct (i =? k); simpl; [done|]. by f_equal.
Qed.
Lemma om_keys_map f m : (om_map f m).*1 = m.*1.
Proof. unfold om_map. rewrite <- list_fmap_compose. by apply list_fmap_ext; intros ? []. Qed.
Lemma om_vals_map f m : (om_map f m).*2 = f <$> m.*2.
Proof. unfold om_map. rewrite <- !list_fmap_compose. by apply list_fmap_ext; intros ? []. Qed.
Lemma om_length_map f m : length (om_map f m) = length m.
Proof. apply length_fmap. Qed.
Lemma om_get_map f m k : om_get (om_map f m) k = f <$> om_get m k.
Proof.
  induction m as [|[i w] m IH]; [done|]. simpl. by destruct (i =? k).
Qed.
Lemma om_set_split m k v :
  om_get m k = Some v ->
  exists m1 m2, m = m1 ++ (k, v) :: m2 /\ forall w, om_set m k w = m1 ++ (k, w) :: m2.
Proof.
  induction m as [|[i w] m IH]; simpl; [done|]. destruct (i =? k) eqn:E; bools; subst.
  - intros [= ->]. by exists [], m.
  - intros H. destruct (IH H) as (m1 & m2 & -> & Hset). exists ((i, w) :: m1), m2.
    split; [done|]. intros x. simpl. by rewrite Hset.
Qed.
Lemma om_remove_split m k v :
  om_get m k = Some v -> exists m1 m2, m = m1 ++ (k, v) :: m2 /\ om_remove m k = m1 ++ m2.
Proof.
  induction m as [|[i w] m IH]; simpl; [done|]. destruct (i =? k) eqn:E; bools; subst.
  - intros [= ->]. by exists [], m.
  - intros H. destruct (IH H) as (m1 & m2 & -> & ->). by exists ((i, w) :: m1), m2.
Qed.
Lemma om_get_app m m' k :
  om_get (m ++ m') k = match om_get m k with Some v => Some v | None => om_get m' k end.
Proof. induction m as [|[i w] m IH]; [done|]. simpl. by destruct (i =? k). Qed.
Lemma om_insert_last m k v : Forall (fun i => i < k) m.*1 -> om_insert m k v = m ++ [(k, v)].
Proof.
  induction m as [|[i w] m IH]; simpl; intros H; [done|]. apply Forall_cons in H as [Hi H].
  simpl in Hi. rewrite (proj2 (Z.ltb_ge k i)), (proj2 (Z.eqb_neq k i)) by lia. by rewrite IH.
Qed.
Lemma om_sorted_snoc m k v :
  om_sorted m -> Forall (fun i => i < k) m.*1 -> om_sorted (m ++ [(k, v)]).
Proof.
  induction m as [|[i w] m IH]; intros Hs Hk; [repeat constructor|].
  apply om_sorted_cons in Hs as [Hi Hs]. apply Forall_cons in Hk as [Hik Hk].
  change (om_sorted ((i, w) :: (m ++ [(k, v)]))).
  apply om_sorted_cons. split; [|auto]. rewrite fmap_app. apply Forall_app. split; [done|].
  by repeat constructor.
Qed.

Lemma om_retain_sublist keep m : om_retain keep m `sublist_of` m.
Proof.
  induction m as [|[i w] m IH]; simpl; [done|]. destruct (keep w); by constructor.
Qed.
Lemma om_remove_sublist m k : om_remove m k `sublist_of` m.
Proof.
  induction m as [|[i w] m IH]; simpl; [done|]. destruct (i =? k); by constructor.
Qed.
Lemma om_sublist_keys m m' (P : Z -> Prop) : m' `sublist_of` m -> Forall P m.*1 -> Forall P m'.*1.
Proof.
  induction 1; intros Hf; [done|..]; apply Forall_cons in Hf as [? ?]; auto.
  apply Forall_cons. auto.
Qed.
Lemma om_sublist_sorted m m' : m' `sublist_of` m -> om_sorted m -> om_sorted m'.
Proof.
  induction 1 as [|[i v] m' m H IH|[i v] m' m H IH]; intros Hs; [done|..];
    apply om_sorted_cons in Hs as [Hi Hs]; [|auto].
  apply om_sorted_cons. split; [|auto].
  by eapply om_sublist_keys.
Qed.
Lemma om_get_remove m k i :
  om_sorted m -> om_get (om_remove m k) i = if i =? k then None else om_get m i.
Proof.
  induction m as [|[j w] m IH]; intros Hs; simpl; [by destruct (i =? k)|].
  apply om_sorted_cons in Hs as [Hj Hs]. destruct (j =? k) eqn:E; bools; subst.
  - destruct (i =? k) eqn:E; bools; subst.
    + apply om_get_keys. intros Hin. rewrite Forall_forall in Hj. specialize (Hj _ Hin). lia.
    + by rewrite (proj2 (Z.eqb_neq k i)) by lia.
  - simpl. rewrite IH by done. destruct (j =? i) eqn:E1, (i =? k) eqn:E2; bools; subst; done.
Qed.
Lemma om_get_insert m k v i : om_get (om_insert m k v) i = if k =? i then Some v else om_get m i.
Proof.
  induction m as [|[j w] m IH]; simpl; [done|].
  destruct (k <? j) eqn:E1; simpl; [done|]. destruct (k =? j) eqn:E2; simpl; bools; subst.
  - by destruct (j =? i).
  - rewrite IH. destruct (j =? i) eqn:E3, (k =? i) eqn:E4; bools; subst; done.
Qed.
Lemma om_insert_keys m k v i : i ∈ (om_insert m k v).*1 -> i = k \/ i ∈ m.*1.
Proof.
  induction m as [|[j w] m IH]; simpl.
  - intros ->%list_elem_of_singleton. by left.
  - destruct (k <? j) eqn:E1; simpl; [intros [-> |H]%elem_of_cons; by auto|].
    destruct (k =? j) eqn:E2; simpl.
    + intros [-> |H]%elem_of_cons; [by left|]. right. by right.
    + intros [-> |H]%elem_of_cons; [right; by left|]. destruct (IH H); [by left|]. right. by right.
Qed.
Lemma om_sorted_insert m k v : om_sorted m -> om_sorted (om_insert m k v).
Proof.
  induction m as [|[j w] m IH]; intros Hs; simpl; [repeat constructor|].
  apply om_sorted_cons in Hs as [Hj Hs]. destruct (k <? j) eqn:E1; bools.
  - apply om_sorted_cons. split; [|by apply om_sorted_cons].
    rewrite fmap_cons. apply Forall_cons. split; [done|]. eapply Forall_impl; [exact Hj|]. cbn. lia.
  - destruct (k =? j) eqn:E2; bools; [subst; by apply om_sorted_cons|].
    apply om_sorted_cons. split; [|auto]. rewrite Forall_forall in *. intros i Hi.
    apply om_insert_keys in Hi as [-> |Hi]; [lia|auto].
Qed.
Lemma om_insert_Forall (P : Z * V -> Prop) m k v : Forall P m -> P (k, v) -> Forall P (om_insert m k v).
Proof.
  intros F Hk. induction F as [|[j w] m Hj F IH]; simpl; [by constructor|].
  destruct (k <? j); [by repeat constructor|]. destruct (k =? j); by constructor.
Qed.
Lemma om_zlen_insert m k v :
  om_sorted m -> zlen (om_insert m k v) = zlen m + (if om_get m k then 0 else 1).
Proof.
  induction m as [|[j w] m IH]; intros Hs; simpl; [done|].
  apply om_sorted_cons in Hs as [Hj Hs]. destruct (k <? j) eqn:E1; bools.
  - rewrite (proj2 (Z.eqb_neq j k)) by lia. rewrite om_get_keys; [rewrite !zlen_cons; lia|].
    intros Hk. rewrite Forall_forall in Hj. specialize (Hj _ Hk). lia.
  - destruct (k =? j) eqn:E2; bools.
    + subst. rewrite Z.eqb_refl, !zlen_cons. lia.
    + rewrite (proj2 (Z.eqb_neq j k)) by lia. rewrite !zlen_cons, IH by done. lia.
Qed.
Lemma om_get_retain keep m k :
  om_sorted m ->
  om_get (om_retain keep m) k
  = match om_get m k with Some v => if keep v then Some v else None | None => None end.
Proof.
  induction m as [|[j w] m IH]; intros Hs; simpl; [done|].
  apply om_sorted_cons in Hs as [Hj Hs]. destruct (keep w) eqn:Ew; simpl; destruct (j =? k) eqn:E; bools; subst.
  - by rewrite Ew.
  - auto.
  - rewrite Ew, (IH Hs), om_get_keys; [done|]. intros Hk. rewrite Forall_forall in Hj.
    specialize (Hj _ Hk). lia.
  - auto.
Qed.
Lemma om_insert_perm m k v : om_get m k = None -> om_insert m k v ≡ₚ (k, v) :: m.
Proof.
  induction m as [|[i w] m IH]; simpl; [done|]. destruct (i =? k) eqn:E; bools; [done|]. intros G.
  destruct (k <? i); [done|]. rewrite (proj2 (Z.eqb_neq k i)) by lia. rewrite IH by done. apply perm_swap.
Qed.
Lemma om_sublist_zlen m m' : m' `sublist_of` m -> zlen m' <= zlen m.
Proof. intros S. unfold zlen. apply sublist_length in S. lia. Qed.
End OrdMap.
