(* ===== verification/Interface.v ===== *)
(** * The Ethernet/IPv4 interface ([src/net/interface.rs])

    [EthernetIpv4] is a [Device] of IPv4 packets on top of a [Device] of Ethernet frames: it
    routes, resolves neighbours with ARP and queues packets until their next hop is known.
    [neighbors] is a [BTreeMap], kept as the ordered list of its entries because [advance]
    walks over it.  [VecDeque::as_mut_slices] hands out the queue in two pieces whose border
    depends on the ring buffer's layout: [layout k] gives the length of the first piece at
    the [k]-th call from now.  [neighbor_work] is scratch space and is left out.  Counters
    and [usize] differences wrap as in the release profile. *)
From Stdlib Require Import ZArith Lia Bool.
From stdpp Require Import base numbers option list.
From S2P Require Import Prelude Checksum BufferPool Addr Ethernet Route Device OrdMap.
#[local] Open Scope Z_scope.

Record InterfaceConfig : Type := mkInterfaceConfig {
  if_address : Z;
  if_prefix_len : Z;
  if_mac : list Z;
  if_mtu : Z;
  tx_capacity : Z;
  per_neighbor_capacity : Z;
  neighbor_capacity : Z;
  route_capacity : Z;
  if_control_capacity : Z;
  neighbor_ttl : Z;
  retry_interval : Z;
  resolution_timeout : Z;
  failed_retry_delay : Z;
  max_arp_attempts : Z;
  if_event_capacity : Z
}.
#[export] Instance eta_InterfaceConfig : Eta InterfaceConfig := fun c =>
  mkInterfaceConfig (if_address c) (if_prefix_len c) (if_mac c) (if_mtu c) (tx_capacity c)
    (per_neighbor_capacity c) (neighbor_capacity c) (route_capacity c) (if_control_capacity c)
    (neighbor_ttl c) (retry_interval c) (resolution_timeout c) (failed_retry_delay c)
    (max_arp_attempts c) (if_event_capacity c).
Definition interface_config_new (address prefix_len : Z) (mac : list Z) : InterfaceConfig :=
  mkInterfaceConfig address prefix_len mac 1500 128 16 64 64 8 (60 * SECOND) (1 * SECOND)
    (3 * SECOND) (1 * SECOND) 3 0.

Record InterfaceStats : Type := mkInterfaceStats {
  accepted_ip : Z; submitted_ip : Z; submitted_control : Z; received_ip : Z; malformed : Z;
  ignored : Z; queue_full : Z; no_route : Z; arp_requests_queued : Z; arp_replies_queued : Z;
  control_drops : Z; neighbor_timeouts : Z; timeout_drops : Z; configuration_drops : Z;
  address_conflicts : Z
}.
#[export] Instance eta_InterfaceStats : Eta InterfaceStats := fun s =>
  mkInterfaceStats (accepted_ip s) (submitted_ip s) (submitted_control s) (received_ip s)
    (malformed s) (ignored s) (queue_full s) (no_route s) (arp_requests_queued s)
    (arp_replies_queued s) (control_drops s) (neighbor_timeouts s) (timeout_drops s)
    (configuration_drops s) (address_conflicts s).
Definition interface_stats_zero : InterfaceStats := mkInterfaceStats 0 0 0 0 0 0 0 0 0 0 0 0 0 0 0.

Inductive InterfaceEvent : Type :=
| RouteSelected (destination hop : Z) (route : Route)
| QueuedForNeighbor (hop : Z)
| NeighborResolved (ip_ : Z) (mac : list Z)
| ArpRequestQueued (target attempt : Z)
| NeighborTimedOut (ip_ dropped_ : Z)
| NoRoute (destination : Z)
| QueueFullEvent
| AddressConflict (mac : list Z)
| SubmittedEvent (data control_ : Z)
| ConfigurationChangedEvent (dropped_ : Z).

Record Pending : Type := mkPending { pd_next_hop : Z; pd_frame : PacketBuf }.

Record EthernetIpv4 (D : Type) : Type := mkEthernetIpv4 {
  e_device : D;
  e_config : InterfaceConfig;
  configured : bool;
  routes : RouteTable;
  neighbors : list (Z * NeighborState);
  pending : list Pending;
  ready_ : list PacketBuf;
  control : list PacketBuf;
  control_spare : option PacketBuf;
  e_rx : list PacketBuf;
  e_events : list (Z * InterfaceEvent);
  e_now : Z;
  e_stats : InterfaceStats;
  layout : nat -> nat
}.
Arguments mkEthernetIpv4 {D}. Arguments e_device {D}. Arguments e_config {D}.
Arguments configured {D}. Arguments routes {D}. Arguments neighbors {D}. Arguments pending {D}.
Arguments ready_ {D}. Arguments control {D}. Arguments control_spare {D}. Arguments e_rx {D}.
Arguments e_events {D}. Arguments e_now {D}. Arguments e_stats {D}. Arguments layout {D}.
#[export] Instance eta_EthernetIpv4 D : Eta (EthernetIpv4 D) := fun e =>
  mkEthernetIpv4 (e_device e) (e_config e) (configured e) (routes e) (neighbors e) (pending e)
    (ready_ e) (control e) (control_spare e) (e_rx e) (e_events e) (e_now e) (e_stats e)
    (layout e).

Definition prepare_empty (frame : PacketBuf) : outcome PacketBuf :=
  let* frame := set_len frame 0 in
  let headroom := Z.max (data_offset frame) HEADER in
  if (capacity frame <? headroom) || (capacity frame - headroom <? 46) then Err InvalidInput
  else set_headroom frame headroom.

(** The checks on an IPv4 header: source, destination and total length. *)
Definition ipv4 (bytes : list Z) : outcome (option (Z * Z * Z)) :=
  if zlen bytes <? 20 then Ok None
  else
    let* b0 := get bytes 0 in
    let* b8 := get bytes 8 in
    if negb (b0 =? 0x45) || (b8 =? 0) then Ok None
    else
      let* total := read16 bytes 2 in
      let* header := slice bytes 0 20 in
      let* fragment := read16 bytes 6 in
      if (total <? 20) || (zlen bytes <? total) || negb (checksum header =? 0)
         || negb (Z.land fragment 0xbfff =? 0)
      then Ok None
      else
        let* source := read32 bytes 12 in
        let* destination := read32 bytes 16 in
        Ok (Some (source, destination, total)).

(** [!mask(prefix)], the host bits. *)
Definition host_bits (prefix : Z) : Z := Z.lxor (mask prefix) U32MAX.

Section Interface.
Context {D : Type} `{Device D}.
Notation E := (EthernetIpv4 D).
Implicit Types e : EthernetIpv4 D.

Definition bump (f : InterfaceStats -> InterfaceStats) e : E := e <| e_stats ::= f |>.
Definition on_inner {A} (f : ST D A) : ST E A := fun e =>
  let '(r, d) := f (e_device e) in (r, e <| e_device := d |>).
(** Handles that go out of scope. *)
Definition discard (frames : list PacketBuf) : ST E unit := on_inner (drop_all frames (Ok tt)).

Definition if_event (ev : InterfaceEvent) e : E :=
  if if_event_capacity (e_config e) =? 0 then e
  else
    let e := if zlen (e_events e) =? if_event_capacity (e_config e)
             then e <| e_events ::= tail |> else e in
    e <| e_events ::= fun l => l ++ [(e_now e, ev)] |>.

Definition broadcast e (a : Z) : bool :=
  is_broadcast a
  || ((if_prefix_len (e_config e) <=? 30)
      && (a =? Z.lor (Z.land (if_address (e_config e)) (mask (if_prefix_len (e_config e))))
                     (host_bits (if_prefix_len (e_config e))))).

Definition is_resolving (n : NeighborState) : bool :=
  match n with Resolving _ _ _ => true | _ => false end.
Definition is_static (n : NeighborState) : bool := match n with Static _ => true | _ => false end.
Definition discard_queued : ST E unit := fun e =>
  let dropped_ := zlen (pending e) + zlen (ready_ e) in
  let frames := (pd_frame <$> pending e) ++ ready_ e ++ control e in
  then_ (discard frames (e <| pending := [] |> <| ready_ := [] |> <| control := [] |>)) id (fun _ e =>
  (Ok tt,
   if_event (ConfigurationChangedEvent dropped_)
     (bump (fun s => s <| configuration_drops ::= count dropped_ |>)
        (e <| neighbors ::= om_retain (fun n => negb (is_resolving n)) |>)))).

Definition ensure_spare : ST E unit := fun e =>
  match control_spare e with
  | Some _ => (Ok tt, e)
  | None =>
      then_ (on_inner dev_alloc e) id (fun frame e =>
      match frame with
      | None => (Ok tt, e)
      | Some frame =>
          match prepare_empty frame with
          | Ok frame => (Ok tt, e <| control_spare := Some frame |>)
          | Err _ => discard [frame] e
          | r => (recast r, e)
          end
      end)
  end.

(** An ARP message in its Ethernet frame. *)
Definition arp_frame (frame : PacketBuf) (packet : ArpPacket) (source destination : list Z)
  : outcome PacketBuf :=
  let* frame := set_len frame ARP_LEN in
  let* bytes := arp_encode packet in
  let* bytes := copy_at (as_slice frame) 0 bytes in
  eth_prepend (store_packet frame bytes) source destination ETH_ARP.
Definition queue_arp (packet : ArpPacket) (destination : list Z) : ST E bool := fun e =>
  if zlen (control e) =? if_control_capacity (e_config e) then (Ok false, e)
  else
    then_ (ensure_spare e) id (fun _ e =>
    match control_spare e with
    | None => (Ok false, e)
    | Some frame =>
        match arp_frame frame packet (if_mac (e_config e)) destination with
        | Ok frame => (Ok true, e <| control_spare := None |> <| control ::= fun l => l ++ [frame] |>)
        | r => (recast r, e)
        end
    end).

(** The MAC address of a neighbour that can be sent to now. *)
Definition resolved e (hop : Z) : option (list Z) :=
  om_get (neighbors e) hop ≫= fun n => neighbor_mac n (e_now e).
(** One pass over the packets that wait for a neighbour. *)
Fixpoint release_loop (n : nat) : ST E unit := fun e =>
  match n with
  | O => (Ok tt, e)
  | S n =>
      match pending e with
      | [] => (Panic, e)
      | p :: rest =>
          let e := e <| pending := rest |> in
          match resolved e (pd_next_hop p) with
          | Some mac =>
              match eth_prepend (pd_frame p) (if_mac (e_config e)) mac ETH_IPV4 with
              | Ok frame => release_loop n (e <| ready_ ::= fun l => l ++ [frame] |>)
              | r => (recast r, e)
              end
          | None => release_loop n (e <| pending := rest ++ [p] |>)
          end
      end
  end.
Definition release_resolved : ST E unit := fun e => release_loop (length (pending e)) e.

(** [flush_front]: submit the first piece of a queue, [k] frames long. *)
Definition flush_front (k : nat) (queue : list PacketBuf) (d : D) : outcome Z * (D * list PacketBuf) :=
  match queue with
  | [] => (Ok 0, (d, []))
  | _ :: _ =>
      let front := take (S k) queue in
      let '(r, (d, front)) := dev_send (d, front) in
      let queue := front ++ drop (S k) queue in
      match r with
      | Err WouldBlock => (Ok 0, (d, queue))
      | Ok n =>
          if zlen queue <? n then (Panic, (d, queue))
          else
            let '(r, d) := drop_all (take (Z.to_nat n) queue) (Ok n) d in
            (r, (d, drop (Z.to_nat n) queue))
      | r => (r, (d, queue))
      end
  end.
Definition next_layout e : nat * E :=
  (layout e 0%nat, e <| layout ::= fun f k => f (S k) |>).
Definition flush_control : ST E Z := fun e =>
  let '(k, e) := next_layout e in
  let '(r, (d, q)) := flush_front k (control e) (e_device e) in
  (r, e <| e_device := d |> <| control := q |>).
Definition flush_ready : ST E Z := fun e =>
  let '(k, e) := next_layout e in
  let '(r, (d, q)) := flush_front k (ready_ e) (e_device e) in
  (r, e <| e_device := d |> <| ready_ := q |>).
Definition if_flush : ST E unit := fun e =>
  then_ (flush_control e) id (fun n e =>
  let e := bump (fun s => s <| submitted_control ::= count n |>) e in
  let e := if 0 <? n then if_event (SubmittedEvent 0 n) e else e in
  if negb (bool_decide (control e = [])) then (Ok tt, e)
  else
    then_ (flush_ready e) id (fun n e =>
    let e := bump (fun s => s <| submitted_ip ::= count n |>) e in
    (Ok tt, if 0 <? n then if_event (SubmittedEvent n 0) e else e))).

(** [control.retain(..)] of [cancel_probes]: the frames kept and the frames dropped. *)
Fixpoint split_probes (ip_ : Z) (frames : list PacketBuf) : outcome (list PacketBuf * list PacketBuf) :=
  match frames with
  | [] => Ok ([], [])
  | frame :: frames =>
      let* body := slice (as_slice frame) HEADER (zlen (as_slice frame)) in
      let* packet := arp_parse body in
      let* '(kept, gone) := split_probes ip_ frames in
      let probe :=
        match packet with
        | Some p => match operation p with Request => target_ip p =? ip_ | Reply_ => false end
        | None => false
        end in
      Ok (if probe : bool then (kept, frame :: gone) else (frame :: kept, gone))
  end.
Definition cancel_probes (ip_ : Z) : ST E unit := fun e =>
  match split_probes ip_ (control e) with
  | Ok (kept, gone) => discard gone (e <| control := kept |>)
  | r => (recast r, e)
  end.

(** ** Receiving *)
Definition if_learn (ip_ : Z) (mac : list Z) : ST E unit := fun e =>
  match om_get (neighbors e) ip_ with
  | Some (Static _) => (Ok tt, e)
  | n =>
      if negb (bool_decide (is_Some n)) && (zlen (neighbors e) =? neighbor_capacity (e_config e))
      then (Ok tt, e)
      else
        then_ (cancel_probes ip_ e) id (fun _ e =>
        (Ok tt,
         if_event (NeighborResolved ip_ mac)
           (e <| neighbors ::= fun m => om_insert m ip_
                  (Reachable mac (dur_add (e_now e) (neighbor_ttl (e_config e)))) |>)))
  end.

Definition count_ignored e : E := bump (fun s => s <| ignored ::= count 1 |>) e.
Definition count_malformed e : E := bump (fun s => s <| malformed ::= count 1 |>) e.
Definition receive_request (packet : ArpPacket) : ST E unit := fun e =>
  let learn_ := ip_unicast (sender_ip packet) && negb (broadcast e (sender_ip packet)) in
  if negb learn_ && negb (is_unspecified (sender_ip packet)) then (Ok tt, count_ignored e)
  else
    then_ (if learn_ then if_learn (sender_ip packet) (sender_mac packet) e else (Ok tt, e)) id
      (fun _ e =>
    let reply := mkArp Reply_ (if_mac (e_config e)) (if_address (e_config e)) (sender_mac packet)
                   (sender_ip packet) in
    then_ (queue_arp reply (sender_mac packet) e) id (fun queued e =>
    (Ok tt,
     if queued : bool then bump (fun s => s <| arp_replies_queued ::= count 1 |>) e
     else bump (fun s => s <| control_drops ::= count 1 |>) e))).
(** A reply is believed only while a resolution of that address is under way. *)
Definition awaited e (ip_ : Z) : bool :=
  match om_get (neighbors e) ip_ with Some (Resolving _ _ expires) => e_now e <? expires | _ => false end.
Definition receive_arp (bytes source_mac : list Z) : ST E unit := fun e =>
  match arp_parse bytes with
  | Ok None => (Ok tt, count_malformed e)
  | Ok (Some packet) =>
      if negb (list_eqb (sender_mac packet) source_mac) then (Ok tt, count_malformed e)
      else if (sender_ip packet =? if_address (e_config e))
              && negb (list_eqb (sender_mac packet) (if_mac (e_config e)))
      then (Ok tt, if_event (AddressConflict (sender_mac packet))
                     (bump (fun s => s <| address_conflicts ::= count 1 |>) e))
      else if negb (target_ip packet =? if_address (e_config e)) then (Ok tt, count_ignored e)
      else
        match operation packet with
        | Request => receive_request packet e
        | Reply_ =>
            if list_eqb (target_mac packet) (if_mac (e_config e))
               && ip_unicast (sender_ip packet) && negb (broadcast e (sender_ip packet))
               && awaited e (sender_ip packet)
            then if_learn (sender_ip packet) (sender_mac packet) e
            else (Ok tt, count_ignored e)
        end
  | r => (recast r, e)
  end.

(** [receive_frame]: the frame is dropped or, without its Ethernet header and padding,
    appended to [out]. *)
Definition ip_payload (frame : PacketBuf) (total : Z) : outcome PacketBuf :=
  let* frame := pull_header frame HEADER in set_len frame total.
Definition receive_frame (frame : PacketBuf) (out : list PacketBuf) : ST E (list PacketBuf) := fun e =>
  let discard_ e := then_ (discard [frame] e) id (fun _ e => (Ok out, e)) in
  if negb (configured e) then discard_ (count_ignored e)
  else
    match eth_parse (as_slice frame) with
    | Ok None => discard_ (count_malformed e)
    | Ok (Some h) =>
        match eth_unicast (eth_source h) with
        | Ok unicast_ =>
            if negb unicast_ || (negb (list_eqb (eth_destination h) (if_mac (e_config e)))
                                 && negb (list_eqb (eth_destination h) BROADCAST))
            then discard_ (count_ignored e)
            else
              match slice (as_slice frame) HEADER (zlen (as_slice frame)) with
              | Ok bytes =>
                  if ether_type h =? ETH_ARP then
                    then_ (receive_arp bytes (eth_source h) e) id (fun _ e => discard_ e)
                  else if ether_type h =? ETH_IPV4 then
                    match ipv4 bytes with
                    | Ok None => discard_ (count_malformed e)
                    | Ok (Some (_, destination, total)) =>
                        if (if_mtu (e_config e) <? total)
                           || (negb (destination =? if_address (e_config e))
                               && negb (broadcast e destination))
                        then discard_ (count_ignored e)
                        else
                          match ip_payload frame total with
                          | Ok frame => (Ok (out ++ [frame]),
                                         bump (fun s => s <| received_ip ::= count 1 |>) e)
                          | r => (recast r, e)
                          end
                    | r => (recast r, e)
                    end
                  else discard_ (count_ignored e)
              | r => (recast r, e)
              end
        | r => (recast r, e)
        end
    | r => (recast r, e)
    end.
Fixpoint receive_frames (frames out : list PacketBuf) : ST E (list PacketBuf) := fun e =>
  match frames with
  | [] => (Ok out, e)
  | frame :: frames =>
      then_ (receive_frame frame out e) id (fun out e => receive_frames frames out e)
  end.

(** ** Time *)
Definition time_out (now ip_ : Z) : ST E unit := fun e =>
  let e := e <| neighbors ::= fun m => om_insert m ip_
                   (NeighborFailed (dur_add now (failed_retry_delay (e_config e)))) |> in
  let gone := filter (fun p => pd_next_hop p = ip_) (pending e) in
  then_ (discard (pd_frame <$> gone)
           (e <| pending ::= filter (fun p => pd_next_hop p <> ip_) |>)) id (fun _ e =>
  then_ (cancel_probes ip_ e) id (fun _ e =>
  (Ok tt,
   if_event (NeighborTimedOut ip_ (zlen gone))
     (bump (fun s => s <| timeout_drops ::= count (zlen gone) |> <| neighbor_timeouts ::= count 1 |>)
        e)))).
Definition probe (now ip_ attempts expires : Z) : ST E unit := fun e =>
  let request := mkArp Request (if_mac (e_config e)) (if_address (e_config e)) [0; 0; 0; 0; 0; 0] ip_ in
  then_ (queue_arp request BROADCAST e) id (fun queued e =>
  (Ok tt,
   if queued : bool then
     if_event (ArpRequestQueued ip_ (attempts + 1))
       (bump (fun s => s <| arp_requests_queued ::= count 1 |>)
          (e <| neighbors ::= fun m => om_insert m ip_
                  (Resolving (attempts + 1) (dur_add now (retry_interval (e_config e))) expires) |>))
   else e)).
Definition advance_one (now ip_ : Z) (n : NeighborState) : ST E unit := fun e =>
  match n with
  | Reachable _ expires =>
      (Ok tt, if expires <=? now then e <| neighbors ::= fun m => om_remove m ip_ |> else e)
  | NeighborFailed retry_after =>
      (Ok tt, if retry_after <=? now then e <| neighbors ::= fun m => om_remove m ip_ |> else e)
  | Resolving attempts next_probe expires =>
      if expires <=? now then time_out now ip_ e
      else if (next_probe <=? now) && (attempts <? max_arp_attempts (e_config e))
      then probe now ip_ attempts expires e
      else (Ok tt, e)
  | Static _ => (Ok tt, e)
  end.
Fixpoint advance_all (now : Z) (work : list (Z * NeighborState)) : ST E unit := fun e =>
  match work with
  | [] => (Ok tt, e)
  | (ip_, n) :: work => then_ (advance_one now ip_ n e) id (fun _ e => advance_all now work e)
  end.
Definition if_advance (now : Z) : ST E unit := fun e =>
  if now <? e_now e then (Err InvalidInput, e)
  else
    then_ (ensure_spare (e <| e_now := now |>)) id (fun _ e =>
    then_ (advance_all now (neighbors e) e) id (fun _ e =>
    then_ (release_resolved e) id (fun _ e => if_flush e))).
Definition neighbor_deadline (cfg : InterfaceConfig) (n : NeighborState) : option Z :=
  match n with
  | Static _ => None
  | Reachable _ expires => Some expires
  | NeighborFailed retry_after => Some retry_after
  | Resolving attempts next_probe expires =>
      Some (if attempts <? max_arp_attempts cfg then Z.min next_probe expires else expires)
  end.
Definition if_deadline e : option Z :=
  foldr (fun n m => opt_min (neighbor_deadline (e_config e) n.2) m) None (neighbors e).

(** ** The [Device] operations *)
Definition eth_poll_at (now : Z) : ST E unit := fun e =>
  then_ (on_inner (dev_poll_at now) e) id (fun _ e => if_advance now e).
Definition eth_recv (max : Z) : ST (E * list PacketBuf) Z := fun '(e, out) =>
  then_ (discard out e) (fun e => (e, [])) (fun _ e =>
  if max =? 0 then then_ (if_advance (e_now e) e) (fun e => (e, [])) (fun _ e => (Ok 0, (e, [])))
  else
    then_ (discard (option_list (control_spare e)) (e <| control_spare := None |>)) (fun e => (e, []))
      (fun _ e =>
    let '(r, (d, frames)) := dev_recv max (e_device e, e_rx e) in
    then_ (r, e <| e_device := d |> <| e_rx := frames |>) (fun e => (e, [])) (fun _ e =>
    then_ (receive_frames (e_rx e) [] (e <| e_rx := [] |>)) (fun e => (e, [])) (fun out e =>
    then_ (if_advance (e_now e) e) (fun e => (e, out)) (fun _ e => (Ok (zlen out), (e, out))))))).

(** The checks of [send] on one packet; a missing route is counted. *)
Definition check_send (frame : PacketBuf) : ST E unit := fun e =>
  match ipv4 (as_slice frame) with
  | Ok None => (Err InvalidInput, e)
  | Ok (Some (source, destination, total)) =>
      if negb (source =? if_address (e_config e)) || (destination =? if_address (e_config e))
         || (negb (ip_unicast destination) && negb (broadcast e destination))
         || negb (total =? buf_len frame) || (if_mtu (e_config e) <? total)
         || (data_offset frame <? HEADER) || (tail_capacity frame + HEADER <? 60)
      then (Err InvalidInput, e)
      else if broadcast e destination then (Ok tt, e)
      else
        match route_lookup (routes e) destination with
        | None => (Err NotConnected, if_event (NoRoute destination)
                                       (bump (fun s => s <| no_route ::= count 1 |>) e))
        | Some route =>
            let hop := next_hop route destination in
            if (hop =? if_address (e_config e)) || broadcast e hop || negb (ip_unicast hop)
            then (Err InvalidInput, e)
            else match om_get (neighbors e) hop with
            | Some (NeighborFailed retry_after) =>
                if e_now e <? retry_after then (Err NotConnected, e) else (Ok tt, e)
            | _ => (Ok tt, e)
            end
        end
  | r => (recast r, e)
  end.
Fixpoint check_all (frames : list PacketBuf) : ST E unit := fun e =>
  match frames with
  | [] => (Ok tt, e)
  | frame :: frames => then_ (check_send frame e) id (fun _ e => check_all frames e)
  end.
(** One iteration of the accepting loop; [false] is its [break]. *)
Definition accept_one (frame : PacketBuf) : ST E bool := fun e =>
  match read32 (as_slice frame) 16 with
  | Ok destination =>
      if broadcast e destination then
        match eth_prepend frame (if_mac (e_config e)) BROADCAST ETH_IPV4 with
        | Ok frame => (Ok true, e <| ready_ ::= fun l => l ++ [frame] |>)
        | r => (recast r, e)
        end
      else
        match route_lookup (routes e) destination with
        | None => (Panic, e)
        | Some route =>
            let hop := next_hop route destination in
            let selected := if_event (RouteSelected destination hop route) in
            match resolved e hop with
            | Some mac =>
                match eth_prepend frame (if_mac (e_config e)) mac ETH_IPV4 with
                | Ok frame => (Ok true, selected e <| ready_ ::= fun l => l ++ [frame] |>)
                | r => (recast r, e)
                end
            | None =>
                if (per_neighbor_capacity (e_config e)
                    <=? zlen (filter (fun p => pd_next_hop p = hop) (pending e)))
                   || (negb (bool_decide (is_Some (om_get (neighbors e) hop)))
                       && (zlen (neighbors e) =? neighbor_capacity (e_config e)))
                then (Ok false, e)
                else
                  let e :=
                    match om_get (neighbors e) hop with
                    | Some (Resolving _ _ _) => e
                    | _ => e <| neighbors ::= fun m => om_insert m hop
                                  (Resolving 0 (e_now e)
                                     (dur_add (e_now e) (resolution_timeout (e_config e)))) |>
                    end in
                  (Ok true, if_event (QueuedForNeighbor hop)
                              (selected e <| pending ::= fun l => l ++ [mkPending hop frame] |>))
            end
        end
  | r => (recast r, e)
  end.
Fixpoint accept_all (frames : list PacketBuf) : ST E nat := fun e =>
  match frames with
  | [] => (Ok 0%nat, e)
  | frame :: frames =>
      then_ (accept_one frame e) id (fun more e =>
      if more : bool then then_ (accept_all frames e) id (fun n e => (Ok (S n), e))
      else (Ok 0%nat, e))
  end.
Definition eth_send : ST (E * list PacketBuf) Z := fun '(e, frames) =>
  if negb (configured e) then (Err AddrNotAvailable, (e, frames))
  else
    let available := (tx_capacity (e_config e) - zlen (pending e) - zlen (ready_ e)) mod W64 in
    let limit := Z.min available (zlen frames) in
    let prefix := take (Z.to_nat limit) frames in
    then_ (check_all prefix e) (fun e => (e, frames)) (fun _ e =>
    then_ (accept_all prefix e) (fun e => (e, frames)) (fun n e =>
    let e := if Z.of_nat n <? zlen frames
             then if_event QueueFullEvent (bump (fun s => s <| queue_full ::= count 1 |>) e) else e in
    (Ok (Z.of_nat n),
     (bump (fun s => s <| accepted_ip ::= count (Z.of_nat n) |>) e,
      replicate n packet_default ++ drop n frames)))).
Definition eth_alloc : ST E (option PacketBuf) := fun e =>
  then_ (ensure_spare e) id (fun _ e =>
  match control_spare e with
  | None => (Ok None, e)
  | Some _ =>
      then_ (on_inner dev_alloc e) id (fun frame e =>
      match frame with
      | None => (Ok None, e)
      | Some frame =>
          match prepare_empty frame with
          | Ok frame => (Ok (Some frame), e)
          | Err _ => then_ (discard [frame] e) id (fun _ e => (Ok None, e))
          | r => (recast r, e)
          end
      end)
  end).
#[export] Instance ethernet_device : Device (EthernetIpv4 D) := {|
  dev_poll_at := eth_poll_at;
  dev_recv := eth_recv;
  dev_send := eth_send;
  dev_alloc := eth_alloc;
  dev_drop := fun b => on_inner (dev_drop b);
  dev_frame_size := fun e => dev_frame_size (e_device e)
|}.

(** ** Configuration *)
(** The address of a subnet's network or broadcast, which no host may have. *)
Definition reserved (address prefix : Z) (connected : Route) : bool :=
  (prefix <=? 30)
  && ((address =? network connected) || (address =? Z.lor (network connected) (host_bits prefix))).
Definition interface_config_valid (c : InterfaceConfig) : outcome bool :=
  let* unicast_ := eth_unicast (if_mac c) in
  Ok (negb ((32 <? if_prefix_len c) || negb (ip_unicast (if_address c)) || negb unicast_
            || (if_mtu c <? 68) || (U16MAX <? if_mtu c) || (tx_capacity c =? 0)
            || (per_neighbor_capacity c =? 0) || (neighbor_capacity c =? 0)
            || (route_capacity c =? 0) || (if_control_capacity c =? 0)
            || (max_arp_attempts c =? 0) || (neighbor_ttl c =? 0) || (retry_interval c =? 0)
            || (resolution_timeout c =? 0) || (failed_retry_delay c =? 0))).
Definition eth_new (d : D) (c : InterfaceConfig) (layout_ : nat -> nat) : outcome E :=
  let* valid := interface_config_valid c in
  if negb valid then Err InvalidInput
  else
    let* connected := route_new (if_address c) (if_prefix_len c) None in
    if reserved (if_address c) (if_prefix_len c) connected then Err InvalidInput
    else
      let '(spare, d) := dev_alloc d in
      let* spare := spare in
      match spare with
      | None => Err WouldBlock
      | Some spare =>
          let* spare := prepare_empty spare in
          if tail_capacity spare <? if_mtu c then Err InvalidInput
          else
            let '(r, table) := route_insert (table_new (route_capacity c)) connected in
            let* _ := r in
            Ok (mkEthernetIpv4 d c true table [] [] [] [] (Some spare) [] [] 0
                  interface_stats_zero layout_)
      end.

(** The routes of a configuration, or the reason it is refused. *)
Definition new_routes (capacity_ address prefix : Z) (gateway : option Z) : outcome RouteTable :=
  if negb (ip_unicast address) then Err InvalidInput
  else
    let* connected := route_new address prefix None in
    if reserved address prefix connected then Err InvalidInput
    else if match gateway with
            | Some a => negb (ip_unicast a) || (a =? address) || negb (contains connected a)
                        || reserved a prefix connected
            | None => false
            end then Err InvalidInput
    else
      let '(r, table) := route_insert (table_new capacity_) connected in
      let* _ := r in
      match gateway with
      | None => Ok table
      | Some a =>
          let* default_ := route_new 0 0 (Some a) in
          let '(r, table) := route_insert table default_ in
          let* _ := r in Ok table
      end.
Definition configure_ipv4 (address prefix : Z) (gateway : option Z) : ST E bool := fun e =>
  match new_routes (route_capacity (e_config e)) address prefix gateway with
  | Ok table =>
      if configured e && (if_address (e_config e) =? address)
         && (if_prefix_len (e_config e) =? prefix)
         && bool_decide (entries (routes e) = entries table)
      then (Ok false, e)
      else
        then_ (discard_queued e) id (fun _ e =>
        (Ok true, e <| neighbors := [] |> <| routes := table |>
                    <| e_config ::= fun c => c <| if_address := address |> <| if_prefix_len := prefix |> |>
                    <| configured := true |>))
  | r => (recast r, e)
  end.
Definition withdraw_ipv4 : ST E unit := fun e =>
  then_ (discard_queued e) id (fun _ e =>
  (Ok tt, e <| neighbors := [] |> <| routes := table_new (route_capacity (e_config e)) |>
            <| configured := false |>)).
Definition add_route (route : Route) : ST E unit := fun e =>
  if match gateway route with
     | Some a => (a =? if_address (e_config e)) || broadcast e a
     | None => false
     end then (Err InvalidInput, e)
  else
    let '(r, table) := route_insert (routes e) route in
    then_ (r, e <| routes := table |>) id (fun _ e => discard_queued e).
Definition set_gateway (a : Z) : ST E unit := fun e =>
  match route_new 0 0 (Some a) with
  | Ok route => add_route route e
  | r => (recast r, e)
  end.
Definition remove_route (address prefix : Z) : ST E bool := fun e =>
  let '(r, table) := route_remove (routes e) address prefix in
  then_ (r, e <| routes := table |>) id (fun removed e =>
  if removed : bool then then_ (discard_queued e) id (fun _ e => (Ok true, e)) else (Ok false, e)).
Definition remove_neighbor (address : Z) : ST E bool := fun e =>
  match om_get (neighbors e) address with
  | None => (Ok false, e)
  | Some _ =>
      then_ (discard_queued (e <| neighbors ::= fun m => om_remove m address |>)) id
        (fun _ e => (Ok true, e))
  end.
Definition known_mac (n : NeighborState) : option (list Z) :=
  match n with Static mac | Reachable mac _ => Some mac | _ => None end.
Definition add_static_neighbor (ip_ : Z) (mac : list Z) : ST E unit := fun e =>
  match eth_unicast mac with
  | Ok unicast_ =>
      if negb (ip_unicast ip_) || broadcast e ip_ || (ip_ =? if_address (e_config e)) || negb unicast_
      then (Err InvalidInput, e)
      else if negb (bool_decide (is_Some (om_get (neighbors e) ip_)))
              && (zlen (neighbors e) =? neighbor_capacity (e_config e))
      then (Err WouldBlock, e)
      else
        let stale :=
          match om_get (neighbors e) ip_ ≫= known_mac with
          | Some old => negb (list_eqb old mac)
          | None => false
          end in
        then_ (if stale : bool then discard_queued e else (Ok tt, e)) id (fun _ e =>
        then_ (cancel_probes ip_ e) id (fun _ e =>
        release_resolved
          (if_event (NeighborResolved ip_ mac)
             (e <| neighbors ::= fun m => om_insert m ip_ (Static mac) |>))))
  | r => (recast r, e)
  end.
Definition reset_link : ST E unit := fun e =>
  then_ (discard_queued e) id (fun _ e => (Ok tt, e <| neighbors ::= om_retain is_static |>)).
Definition if_pop_event e : option (Z * InterfaceEvent) * E := (head (e_events e), e <| e_events ::= tail |>).
End Interface.
