(* ===== verification/InterfaceInv.v ===== *)
(** * Invariant of the Ethernet/IPv4 interface

    Which frames the interface owns, the bounds of its queues and tables, and the shape of
    the frames in each queue.  The operations are proved against the [DeviceLaws] of the
    underlying device; together they give the [DeviceLaws] of the interface, so that every
    client proved against the laws runs over Ethernet. *)
From Stdlib Require Import ZArith Lia Bool.
From stdpp Require Import base numbers option list sorting.
From S2P Require Import Prelude Checksum BufferPool Addr Ethernet Route Device OrdMap Interface.
#[local] Open Scope Z_scope.

(** ** Frames and packets *)
Record interface_ok (c : InterfaceConfig) : Prop := {
  ic_mac : mac_ok (if_mac c);
  ic_address : 0 <= if_address c < W32;
  ic_prefix : 0 <= if_prefix_len c <= 32;
  ic_tx : 0 <= tx_capacity c < W64;
  ic_control : 0 <= if_control_capacity c;
  ic_neighbors : 0 <= neighbor_capacity c;
  ic_events : 0 <= if_event_capacity c;
  ic_timeout : 0 <= resolution_timeout c;
  ic_ttl : 0 < neighbor_ttl c
}.
Definition framable (b : PacketBuf) : Prop := HEADER <= data_offset b /\ 60 <= tail_capacity b + HEADER.
Definition spare_ok (b : PacketBuf) : Prop := framable b /\ buf_len b = 0.
(** An entry of the neighbour table: a resolution ends by [t]. *)
Definition neighbor_ok (t : Z) (n : NeighborState) : Prop :=
  match n with
  | Static mac | Reachable mac _ => mac_ok mac
  | Resolving _ _ expires => expires <= t
  | NeighborFailed _ => True
  end.
Definition entry_ok (t : Z) (x : Z * NeighborState) : Prop := 0 <= x.1 < W32 /\ neighbor_ok t x.2.
Definition gateway_ok (r : Route) : Prop := match gateway r with Some a => 0 <= a < W32 | None => True end.

Lemma prepare_empty_spec pl n b :
  handle pl n b ->
  prepare_empty b = Err InvalidInput
  \/ exists b', prepare_empty b = Ok b' /\ handle pl n b' /\ spare_ok b'
       /\ buf_idx b' = buf_idx b /\ buf_pool b' = buf_pool b.
Proof.
  intros (W & B & P). unfold prepare_empty.
  destruct (set_len_spec b 0 W) as [-> W1]; [unfold buf_wf, tail_capacity in *; lia|]. cbn [obind].
  destruct (_ || _) eqn:E; [by left|right]. bools. cbn in E. unfold set_headroom. cbn.
  rewrite (proj2 (Z.leb_le _ _)) by (unfold HEADER, capacity in *; cbn in *; lia).
  eexists. split; [done|]. unfold handle, spare_ok, framable, buf_wf, tail_capacity, capacity, HEADER in *. cbn in *.
  split_and!; try done; lia.
Qed.
Lemma ipv4_spec bytes :
  bytes_ok bytes ->
  ipv4 bytes = Ok None
  \/ exists s d t, ipv4 bytes = Ok (Some (s, d, t)) /\ 20 <= t <= zlen bytes /\ t < W16
       /\ 0 <= s < W32 /\ 0 <= d < W32 /\ read32 bytes 16 = Ok d.
Proof.
  intros Hb. unfold ipv4. destruct (zlen bytes <? 20) eqn:E1; [by left|]. bools.
  rewrite !get_ok by lia. cbn [obind]. destruct (_ || _); [by left|].
  destruct (read16 bytes 2) as [t| | |] eqn:Et; try (rewrite read16_ok in Et by lia; done).
  rewrite slice_ok, (read16_ok bytes 6) by lia. cbn [obind].
  destruct (_ || _) eqn:E; [by left|right]. bools.
  destruct (read32 bytes 12) as [s| | |] eqn:Es; try (rewrite read32_ok in Es by lia; done).
  destruct (read32 bytes 16) as [d| | |] eqn:Ed; try (rewrite read32_ok in Ed by lia; done).
  cbn [obind]. exists s, d, t. split; [done|]. pose proof (read16_range _ _ _ Hb Et).
  pose proof (read32_range _ _ _ Hb Es). pose proof (read32_range _ _ _ Hb Ed).
  split_and!; try done; lia.
Qed.
Lemma eth_unicast_ok mac : mac_ok mac -> exists b, eth_unicast mac = Ok b.
Proof.
  intros [L _]. unfold eth_unicast. destruct (list_eqb _ _); [by eexists|]. rewrite get_ok by lia. by eexists.
Qed.
Lemma eth_parse_spec bytes :
  bytes_ok bytes ->
  eth_parse bytes = Ok None \/
  exists h, eth_parse bytes = Ok (Some h) /\ header_ok h /\ HEADER <= zlen bytes.
Proof.
  intros Hb. unfold eth_parse. destruct (zlen bytes <? HEADER) eqn:E; [by left|]. bools. unfold HEADER in E.
  rewrite !slice_ok by lia. cbn [obind].
  destruct (read16 bytes 12) as [k| | |] eqn:Ek; try (rewrite read16_ok in Ek by lia; done).
  cbn [obind]. right. eexists. split; [done|]. pose proof (read16_range _ _ _ Hb Ek).
  unfold header_ok, mac_ok. cbn. unfold HEADER. split; [|lia].
  repeat split; try (eauto with net; fail); try lia; autorewrite with zlen; lia.
Qed.

Section Inv.
Context {D : Type} `{DeviceLaws D}.
Notation E := (EthernetIpv4 D).
Implicit Types e : EthernetIpv4 D.

Definition eframes e : list PacketBuf :=
  (pd_frame <$> pending e) ++ ready_ e ++ control e ++ option_list (control_spare e) ++ e_rx e.
(** When a resolution that starts now is given up. *)
Definition resolution_end e : Z := e_now e + resolution_timeout (e_config e).
Record ecore e : Prop := {
  ec_config : interface_ok (e_config e);
  ec_tx : zlen (pending e) + zlen (ready_ e) <= tx_capacity (e_config e);
  ec_control : zlen (control e) <= if_control_capacity (e_config e);
  ec_sorted : om_sorted (neighbors e);
  ec_neighbors : zlen (neighbors e) <= neighbor_capacity (e_config e);
  ec_entries : Forall (entry_ok (resolution_end e)) (neighbors e);
  ec_routes : Forall gateway_ok (entries (routes e));
  ec_events : zlen (e_events e) <= if_event_capacity (e_config e);
  ec_now : 0 <= e_now e;
  ec_pending : Forall (fun p => framable (pd_frame p)) (pending e);
  ec_probes : Forall (fun b => HEADER <= buf_len b) (control e);
  ec_spare b : control_spare e = Some b -> spare_ok b
}.
Definition ok_handle e (b : PacketBuf) : Prop := handle (dev_pool (e_device e)) (dev_frame_size (e_device e)) b.
Record eth_inv e (held : list Z) : Prop := {
  ei_core : ecore e;
  ei_dev : dev_inv (e_device e) (owned (eframes e) ++ held);
  ei_frames : Forall (ok_handle e) (eframes e)
}.

#[export] Instance eth_inv_proper e : Proper ((≡ₚ) ==> iff) (eth_inv e).
Proof. intros h k P. split; intros [C Dv F]; (constructor; [done| |done]); [by rewrite <- P|by rewrite P]. Qed.

(** What the internal operations leave alone. *)
Definition estable e e' : Prop :=
  e_config e' = e_config e /\ configured e' = configured e /\ routes e' = routes e /\ e_rx e' = e_rx e
  /\ e_now e' = e_now e /\ dev_pool (e_device e') = dev_pool (e_device e)
  /\ dev_frame_size (e_device e') = dev_frame_size (e_device e).
Lemma estable_refl e : estable e e.
Proof. by unfold estable. Qed.
Lemma estable_trans e1 e2 e3 : estable e1 e2 -> estable e2 e3 -> estable e1 e3.
Proof. unfold estable. intuition congruence. Qed.
Lemma ok_stable e e' b : estable e e' -> ok_handle e b -> ok_handle e' b.
Proof. intros (_ & _ & _ & _ & _ & E1 & E2). unfold ok_handle. by rewrite E1, E2. Qed.
Lemma oks_stable e e' l : estable e e' -> Forall (ok_handle e) l -> Forall (ok_handle e') l.
Proof. intros S F. eapply Forall_impl; [exact F|]. intros b. by apply ok_stable. Qed.

(** Rearranging the queues on the same device. *)
Lemma eth_inv_move e e' held held' :
  eth_inv e held -> ecore e' -> e_device e' = e_device e ->
  owned (eframes e) ++ held ≡ₚ owned (eframes e') ++ held' -> Forall (ok_handle e) (eframes e') ->
  eth_inv e' held'.
Proof.
  intros [C Dv F] C' Ed P F'. constructor; [done| |].
  - rewrite Ed, <- P. exact Dv.
  - unfold ok_handle in *. by rewrite Ed.
Qed.

(** ** Events and counters *)
Definition logged e e' : Prop :=
  e_device e' = e_device e /\ e_config e' = e_config e /\ configured e' = configured e
  /\ routes e' = routes e /\ neighbors e' = neighbors e /\ pending e' = pending e
  /\ ready_ e' = ready_ e /\ control e' = control e /\ control_spare e' = control_spare e
  /\ e_rx e' = e_rx e /\ e_now e' = e_now e.
Lemma logged_trans e1 e2 e3 : logged e1 e2 -> logged e2 e3 -> logged e1 e3.
Proof. unfold logged. intuition congruence. Qed.
Lemma logged_stable e e' : logged e e' -> estable e e'.
Proof. unfold logged, estable. intuition congruence. Qed.
Lemma logged_frames e e' : logged e e' -> eframes e' = eframes e.
Proof. intros L. unfold eframes. by repeat (destruct L as (? & L)); congruence. Qed.
Lemma event_logged ev e : logged e (if_event ev e).
Proof. unfold if_event. destruct (_ =? 0); [done|]. by destruct (_ =? _). Qed.
Lemma bump_logged f e : logged e (bump f e).
Proof. done. Qed.
Lemma event_ecore ev e : ecore e -> ecore (if_event ev e).
Proof.
  intros []. unfold if_event. destruct (if_event_capacity (e_config e) =? 0) eqn:E0; [by constructor|].
  pose proof (zlen_nonneg (e_events e)). bools.
  destruct (zlen (e_events e) =? if_event_capacity (e_config e)) eqn:E1; bools;
    constructor; cbn; try done; rewrite zlen_app, zlen_cons, zlen_nil; [|lia].
  destruct (e_events e); [rewrite zlen_nil in E1; lia|]. rewrite zlen_cons in E1. simpl. lia.
Qed.
Lemma bump_ecore f e : ecore e -> ecore (bump f e).
Proof. intros []. by constructor. Qed.
Lemma logged_inv e e' held : eth_inv e held -> logged e e' -> ecore e' -> eth_inv e' held.
Proof.
  intros I L C. eapply eth_inv_move; [exact I|done|apply L|by rewrite (logged_frames _ _ L)|].
  rewrite (logged_frames _ _ L). apply I.
Qed.
Lemma event_inv ev e held : eth_inv e held -> eth_inv (if_event ev e) held.
Proof. intros I. eapply logged_inv; [exact I|apply event_logged|apply event_ecore, I]. Qed.
Lemma bump_inv f e held : eth_inv e held -> eth_inv (bump f e) held.
Proof. intros I. eapply logged_inv; [exact I|done|apply bump_ecore, I]. Qed.

(** ** Handles that go out of scope *)
Lemma device_ecore e d : ecore e -> ecore (e <| e_device := d |>).
Proof. intros []. by constructor. Qed.
Lemma discard_spec frames e held :
  eth_inv e (owned frames ++ held) -> Forall (ok_handle e) frames ->
  exists d, discard frames e = (Ok tt, e <| e_device := d |>) /\ eth_inv (e <| e_device := d |>) held
    /\ estable e (e <| e_device := d |>).
Proof.
  intros [C Dv F] Hf. unfold discard, on_inner.
  destruct (drop_all_spec (e_device e) (owned (eframes e) ++ held) frames (Ok tt)) as (d & -> & Id & Pd & Zd); [|done|].
  { rewrite Permutation_app_swap_app. exact Dv. }
  exists d. split; [done|]. assert (estable e (e <| e_device := d |>)) as S by (unfold estable; cbn; by rewrite Pd, Zd).
  split; [|done]. constructor; [by apply device_ecore|exact Id|]. by apply (oks_stable e).
Qed.

(** ** The spare frame *)
Lemma eframes_spare e b : control_spare e = None ->
  owned (eframes (e <| control_spare := Some b |>)) ≡ₚ owned [b] ++ owned (eframes e).
Proof.
  intros E. unfold eframes. cbn. rewrite E. cbn. rewrite !owned_app, (owned_cons b (e_rx e)).
  rewrite (Permutation_app_swap_app (owned (control e))), (Permutation_app_swap_app (owned (ready_ e))).
  apply Permutation_app_swap_app.
Qed.
Lemma Forall_eframes (P : PacketBuf -> Prop) e :
  Forall P (eframes e) <-> Forall P (pd_frame <$> pending e) /\ Forall P (ready_ e) /\ Forall P (control e)
    /\ Forall P (option_list (control_spare e)) /\ Forall P (e_rx e).
Proof. unfold eframes. by rewrite !Forall_app. Qed.

Lemma alloc_inner e held :
  eth_inv e held ->
  exists r d, dev_alloc (e_device e) = (Ok r, d) /\ estable e (e <| e_device := d |>)
    /\ match r with
       | Some b => eth_inv (e <| e_device := d |>) (owned [b] ++ held) /\ ok_handle e b
                   /\ buf_pool b = Some (dev_pool (e_device e))
       | None => eth_inv (e <| e_device := d |>) held
       end.
Proof.
  intros [C Dv F]. destruct (dev_alloc_law _ _ Dv) as (r & d & E & P & Z & Hr).
  assert (estable e (e <| e_device := d |>)) as S by (unfold estable; cbn; by rewrite P, Z).
  exists r, d. split; [done|]. split; [done|]. destruct r as [b|].
  - destruct Hr as (I & Hh & Hp & _). split; [|done]. constructor; [by apply device_ecore| |by apply (oks_stable e)].
    rewrite (owned_one _ _ Hp), Permutation_app_swap_app. exact I.
  - constructor; [by apply device_ecore|exact Hr|by apply (oks_stable e)].
Qed.
Definition same_queues e e' : Prop :=
  neighbors e' = neighbors e /\ pending e' = pending e /\ ready_ e' = ready_ e /\ control e' = control e.
Lemma ensure_spare_spec e held :
  eth_inv e held ->
  exists e', ensure_spare e = (Ok tt, e') /\ eth_inv e' held /\ estable e e' /\ same_queues e e'.
Proof.
  intros I. unfold ensure_spare. destruct (control_spare e) as [b|] eqn:Es.
  { exists e. split; [done|]. split; [done|]. split; [apply estable_refl|done]. }
  unfold on_inner. destruct (alloc_inner e held I) as (r & d & -> & S & Hr). cbn [then_].
  destruct r as [b|]; [|by eexists]. destruct Hr as (I1 & Hb & Hp).
  destruct (prepare_empty_spec _ _ b Hb) as [-> |(b' & -> & Hb' & So & Ix & Po)].
  - destruct (discard_spec [b] (e <| e_device := d |>) held I1) as (d' & -> & I2 & S2).
    { constructor; [by apply (ok_stable e)|constructor]. }
    eexists. split; [done|]. split; [done|]. split; [|done]. by eapply estable_trans.
  - eexists. split; [done|]. split; [|split; [exact S|done]].
    assert (owned [b'] = owned [b]) as Ob by (unfold owned; cbn; by rewrite Ix, Po).
    pose proof (ei_frames _ _ I1) as F1.
    eapply eth_inv_move; [exact I1| |done| |].
    + destruct I1 as [[] _ _]. constructor; cbn; try done. by intros x [= <-].
    + rewrite (eframes_spare (e <| e_device := d |>) b' Es), Ob. rewrite <- app_assoc.
      by rewrite Permutation_app_swap_app.
    + apply Forall_eframes. apply Forall_eframes in F1. destruct F1 as (F1 & F2 & F3 & _ & F5). cbn.
      split_and!; try done. constructor; [|constructor]. by apply (ok_stable e _ _ S).
Qed.

(** ** ARP frames *)
Lemma arp_frame_spec pl n b p src dst :
  handle pl n b -> spare_ok b -> arp_ok p -> mac_ok src -> mac_ok dst ->
  exists b', arp_frame b p src dst = Ok b' /\ handle pl n b' /\ HEADER <= buf_len b'
    /\ buf_idx b' = buf_idx b /\ buf_pool b' = buf_pool b
    /\ as_slice b' = header_bytes (mkHeader dst src ETH_ARP) ++ arp_bytes p ++ padding 42.
Proof.
  intros (W & B & P) ((Fo & Ft) & Fl) Hp Hs Hd. unfold arp_frame.
  destruct (set_len_spec b ARP_LEN W) as [-> W1]; [unfold tail_capacity, HEADER, ARP_LEN in *; lia|].
  cbn [obind]. rewrite (arp_encode_spec p Hp). cbn [obind]. set (b1 := b <| buf_len := ARP_LEN |>) in *.
  assert (zlen (as_slice b1) = 28) as L1 by (by rewrite zlen_as_slice).
  pose proof (zlen_arp_bytes p Hp) as La.
  assert (copy_at (as_slice b1) 0 (arp_bytes p) = Ok (arp_bytes p)) as ->.
  { rewrite copy_at_ok by lia. f_equal. change (Z.to_nat 0) with 0%nat. simpl take. rewrite app_nil_l.
    rewrite drop_ge by (unfold zlen in *; lia). by rewrite app_nil_r. }
  cbn [obind]. destruct (store_packet_spec b1 (arp_bytes p) W1) as (W2 & A2 & C2); [by rewrite La|].
  set (b2 := store_packet b1 (arp_bytes p)) in *.
  destruct (eth_prepend_spec b2 (mkHeader dst src ETH_ARP) W2) as (b3 & E3 & W3 & A3 & C3 & _ & I3 & P3).
  { apply Hd. }
  { apply Hs. }
  { exact Fo. }
  { unfold tail_capacity in *. rewrite C2. exact Ft. }
  cbn [eth_source eth_destination ether_type] in E3. rewrite E3. exists b3. split; [done|].
  assert (HEADER <= buf_len b3) as Hl.
  { rewrite <- (zlen_as_slice b3 W3), A3, zlen_app, zlen_header_bytes by (apply Hd || apply Hs). unfold HEADER. zl. }
  split; [|split; [done|split; [done|split; [done|]]]].
  - split; [done|]. split.
    + eapply eth_prepend_bytes; [exact E3|done|done|]. apply store_packet_bytes; [exact B|by apply arp_bytes_ok].
    + rewrite P3, C3, C2. exact P.
  - rewrite A3, A2. done.
Qed.
Lemma queue_arp_spec p dst e held :
  eth_inv e held -> arp_ok p -> mac_ok dst ->
  exists r e', queue_arp p dst e = (Ok r, e') /\ eth_inv e' held /\ estable e e'
    /\ neighbors e' = neighbors e /\ pending e' = pending e /\ ready_ e' = ready_ e
    /\ if r : bool
       then exists b, control e' = control e ++ [b]
              /\ as_slice b = header_bytes (mkHeader dst (if_mac (e_config e)) ETH_ARP) ++ arp_bytes p ++ padding 42
       else control e' = control e.
Proof.
  intros I Hp Hd. unfold queue_arp. destruct (_ =? _) eqn:Ec; bools.
  { exists false, e. split; [done|]. split; [done|]. split; [apply estable_refl|done]. }
  destruct (ensure_spare_spec e held I) as (e1 & -> & I1 & S1 & (Q1 & Q2 & Q3 & Q4)). cbn [then_].
  destruct (control_spare e1) as [b|] eqn:Es; [|by exists false, e1].
  pose proof (ei_frames _ _ I1) as F1. apply Forall_eframes in F1 as (F1 & F2 & F3 & F4 & F5).
  rewrite Es in F4. apply Forall_cons in F4 as [Hb _].
  assert (e_config e1 = e_config e) as Ecf by apply S1.
  assert (mac_ok (if_mac (e_config e1))) as Hm by apply (ec_config _ (ei_core _ _ I1)).
  destruct (arp_frame_spec _ _ b p (if_mac (e_config e1)) dst Hb (ec_spare _ (ei_core _ _ I1) _ Es) Hp Hm Hd)
    as (b' & -> & Hb' & Hl & Ix & Po & As).
  eexists true, _. split; [done|]. cbn. rewrite <- Ecf.
  split; [|split; [exact S1|do 3 (split; [done|]); rewrite <- Q4; by exists b']].
  assert (owned [b'] = owned [b]) as Ob by (unfold owned; cbn; by rewrite Ix, Po).
  eapply eth_inv_move; [exact I1| |done| |].
  - destruct I1 as [C1 _ _]. pose proof (ec_control _ C1). destruct C1. constructor; cbn; try done.
    + rewrite zlen_app, zlen_cons, zlen_nil. rewrite <- Q4, <- Ecf in Ec. lia.
    + apply Forall_app. split; [done|by constructor].
  - apply Permutation_app_tail. unfold eframes. cbn. rewrite Es. cbn. rewrite !owned_app, Ob.
    rewrite (owned_cons b (e_rx e1)). by rewrite <- !app_assoc.
  - apply Forall_eframes. cbn. split_and!; try done. apply Forall_app. split; [done|by constructor].
Qed.

Lemma split_probes_spec a frames pl n :
  Forall (handle pl n) frames -> Forall (fun b => HEADER <= buf_len b) frames ->
  exists kept gone, split_probes a frames = Ok (kept, gone) /\ kept ++ gone ≡ₚ frames
    /\ kept `sublist_of` frames.
Proof.
  induction frames as [|b frames IH]; intros F L; [by exists [], []|].
  apply Forall_cons in F as [Hb F]. apply Forall_cons in L as [Hl L].
  destruct (IH F L) as (kept & gone & E & P & S). cbn [split_probes].
  pose proof (zlen_as_slice b (proj1 Hb)) as Lb.
  rewrite slice_ok by (unfold HEADER in *; lia). cbn [obind].
  set (body := take _ _). assert (bytes_ok body) as Bb.
  { unfold body. apply bytes_take, bytes_drop. by apply handle_bytes in Hb. }
  destruct (arp_parse_spec body Bb) as [-> |(p & -> & _)]; cbn [obind]; rewrite E; cbn [obind].
  - eexists _, _. split; [done|]. split; [by rewrite <- P|by constructor].
  - destruct (match operation p with Request => _ | Reply_ => _ end); eexists _, _; (split; [done|]).
    + split; [|by constructor]. rewrite <- Permutation_middle. by rewrite P.
    + cbn. split; [by rewrite P|by constructor].
Qed.
Lemma cancel_probes_spec a e held :
  eth_inv e held ->
  exists e', cancel_probes a e = (Ok tt, e') /\ eth_inv e' held /\ estable e e'
    /\ neighbors e' = neighbors e /\ pending e' = pending e /\ ready_ e' = ready_ e.
Proof.
  intros I. unfold cancel_probes. pose proof (ei_frames _ _ I) as F.
  apply Forall_eframes in F as (F1 & F2 & F3 & F4 & F5).
  destruct (split_probes_spec a (control e) _ _ F3 (ec_probes _ (ei_core _ _ I))) as (kept & gone & -> & P & S).
  assert (Forall (ok_handle e) kept /\ Forall (ok_handle e) gone) as [Fk Fg] by (apply Forall_app; by rewrite P).
  destruct (discard_spec gone (e <| control := kept |>) held) as (d & -> & I' & S').
  - eapply eth_inv_move; [exact I| |done| |].
    + destruct I as [C _ _]. pose proof (ec_control _ C). destruct C. constructor; cbn; try done.
      * unfold zlen in *. apply sublist_length in S. lia.
      * by eapply sublist_Forall.
    + unfold eframes. cbn. rewrite <- P at 1. rewrite !owned_app. perm.
    + apply Forall_eframes. cbn. done.
  - done.
  - eexists. split; [done|]. split; [done|]. split; [exact S'|done].
Qed.

(** ** Neighbours *)
Lemma neighbors_inv e m held :
  eth_inv e held -> om_sorted m -> zlen m <= neighbor_capacity (e_config e) ->
  Forall (entry_ok (resolution_end e)) m -> eth_inv (e <| neighbors := m |>) held.
Proof.
  intros [C Dv F] S L M. constructor; [|exact Dv|exact F]. destruct C. by constructor.
Qed.
Lemma insert_inv e a n held :
  eth_inv e held -> entry_ok (resolution_end e) (a, n) ->
  (om_get (neighbors e) a = None -> zlen (neighbors e) < neighbor_capacity (e_config e)) ->
  eth_inv (e <| neighbors := om_insert (neighbors e) a n |>) held.
Proof.
  intros I Hn Hr. pose proof (ei_core _ _ I) as C. apply neighbors_inv; [done|apply om_sorted_insert, C| |].
  - rewrite om_zlen_insert by apply C. pose proof (ec_neighbors _ C).
    destruct (om_get (neighbors e) a); [lia|]. specialize (Hr eq_refl). lia.
  - apply om_insert_Forall; [apply C|exact Hn].
Qed.
Lemma sub_inv e m held : eth_inv e held -> m `sublist_of` neighbors e -> eth_inv (e <| neighbors := m |>) held.
Proof.
  intros I S. pose proof (ei_core _ _ I) as C. apply neighbors_inv; [done|eapply om_sublist_sorted; [exact S|apply C]| |].
  - pose proof (ec_neighbors _ C). apply om_sublist_zlen in S. lia.
  - eapply sublist_Forall; [exact S|apply C].
Qed.
(** Learning from an ARP message changes at most the entry of its sender, and never a
    static one. *)
Definition learned e e' (a : Z) (mac : list Z) : Prop :=
  neighbors e' = neighbors e
  \/ (forall m, om_get (neighbors e) a <> Some (Static m))
     /\ neighbors e' = om_insert (neighbors e) a (Reachable mac (dur_add (e_now e) (neighbor_ttl (e_config e)))).
Lemma learn_spec a mac e held :
  eth_inv e held -> mac_ok mac -> 0 <= a < W32 ->
  exists e', if_learn a mac e = (Ok tt, e') /\ eth_inv e' held /\ estable e e' /\ learned e e' a mac
    /\ pending e' = pending e /\ ready_ e' = ready_ e.
Proof.
  intros I Hm Ha. unfold if_learn.
  assert (exists e', (Ok tt, e) = (Ok tt : outcome unit, e') /\ eth_inv e' held /\ estable e e' /\ learned e e' a mac
    /\ pending e' = pending e /\ ready_ e' = ready_ e) as Same.
  { exists e. split; [done|]. split; [done|]. split; [apply estable_refl|]. split; [by left|done]. }
  assert ((forall m, om_get (neighbors e) a <> Some (Static m)) -> exists e',
    (if negb (bool_decide (is_Some (om_get (neighbors e) a))) && (zlen (neighbors e) =? neighbor_capacity (e_config e))
     then (Ok tt, e)
     else then_ (cancel_probes a e) id (fun _ e => (Ok tt, if_event (NeighborResolved a mac)
            (e <| neighbors ::= fun m => om_insert m a
               (Reachable mac (dur_add (e_now e) (neighbor_ttl (e_config e)))) |>))))
    = (Ok tt, e') /\ eth_inv e' held /\ estable e e' /\ learned e e' a mac
    /\ pending e' = pending e /\ ready_ e' = ready_ e) as G.
  2:{ destruct (om_get (neighbors e) a) as [[]|]; try done; by apply G. }
  intros Hs. destruct (_ && _) eqn:Ec; [done|].
  destruct (cancel_probes_spec a e held I) as (e1 & -> & I1 & S1 & N1 & P1 & R1). cbn [then_].
  assert (e_config e1 = e_config e /\ e_now e1 = e_now e) as [Ecf En] by (split; apply S1).
  eexists. split; [done|].
  match goal with |- context [if_event ?ev ?x] => set (e2 := x); set (v := ev) end.
  assert (eth_inv e2 held) as I2.
  { apply (insert_inv e1 a); [done|done|]. rewrite N1. intros En'. rewrite En' in Ec.
    rewrite bool_decide_eq_false_2 in Ec by (by intros [? [=]]). cbn in Ec. bools.
    pose proof (ec_neighbors _ (ei_core _ _ I)). rewrite Ecf. lia. }
  pose proof (event_logged v e2) as L. split; [by apply event_inv|].
  split; [eapply estable_trans; [|by apply logged_stable]; exact S1|].
  unfold learned. destruct L as (_ & _ & _ & _ & -> & -> & -> & _). split; [|done].
  right. split; [done|]. unfold e2. cbn. by rewrite N1, En, Ecf.
Qed.

(** ** Receiving *)
Lemma count_stable f e : estable e (bump f e).
Proof. done. Qed.
Lemma receive_request_spec p e held :
  eth_inv e held -> arp_ok p ->
  exists e', receive_request p e = (Ok tt, e') /\ eth_inv e' held /\ estable e e'
    /\ learned e e' (sender_ip p) (sender_mac p) /\ pending e' = pending e /\ ready_ e' = ready_ e.
Proof.
  intros I Hp. unfold receive_request. destruct (negb _ && negb _).
  { eexists. split; [done|]. split; [by apply bump_inv|]. split; [done|]. split; [by left|done]. }
  set (l := ip_unicast _ && _).
  assert (exists e1, (if l then if_learn (sender_ip p) (sender_mac p) e else (Ok tt, e)) = (Ok tt, e1)
    /\ eth_inv e1 held /\ estable e e1 /\ learned e e1 (sender_ip p) (sender_mac p)
    /\ pending e1 = pending e /\ ready_ e1 = ready_ e) as (e1 & -> & I1 & S1 & L1 & P1 & R1).
  { destruct l; [apply learn_spec; [done|apply Hp|apply Hp]|].
    exists e. split; [done|]. split; [done|]. split; [apply estable_refl|]. split; [by left|done]. }
  cbn [then_]. set (reply := mkArp _ _ _ _ _).
  assert (arp_ok reply) as Hr.
  { pose proof (ec_config _ (ei_core _ _ I1)) as []. constructor; cbn; try done; apply Hp. }
  destruct (queue_arp_spec reply (sender_mac p) e1 held I1 Hr (arp_smac _ Hp)) as (r & e2 & -> & I2 & S2 & N2 & P2 & R2 & _).
  cbn [then_]. eexists. split; [done|].
  assert (eth_inv (if r then bump (fun s => s <| arp_replies_queued ::= count 1 |>) e2
                   else bump (fun s => s <| control_drops ::= count 1 |>) e2) held) as I3
    by (destruct r; by apply bump_inv).
  split; [done|]. unfold learned in *.
  destruct r; cbn; rewrite N2, P2, R2, P1, R1; (split; [by eapply estable_trans|done]).
Qed.
(** What an ARP message can change: the entry of its sender, when it is addressed to the
    interface and, for a reply, when a resolution of that address is under way. *)
Definition arp_effect (bytes mac : list Z) e e' : Prop :=
  neighbors e' = neighbors e
  \/ exists p, arp_parse bytes = Ok (Some p) /\ sender_mac p = mac /\ target_ip p = if_address (e_config e)
       /\ learned e e' (sender_ip p) mac
       /\ (operation p = Reply_ -> awaited e (sender_ip p) = true /\ target_mac p = if_mac (e_config e)).
Lemma receive_arp_spec bytes mac e held :
  eth_inv e held -> bytes_ok bytes ->
  exists e', receive_arp bytes mac e = (Ok tt, e') /\ eth_inv e' held /\ estable e e'
    /\ pending e' = pending e /\ ready_ e' = ready_ e /\ arp_effect bytes mac e e'.
Proof.
  intros I Hb. unfold receive_arp.
  assert (forall e1, logged e e1 -> ecore e1 -> exists e', (Ok tt : outcome unit, e1) = (Ok tt, e') /\ eth_inv e' held
    /\ estable e e' /\ pending e' = pending e /\ ready_ e' = ready_ e /\ arp_effect bytes mac e e') as Quiet.
  { intros e1 L C. exists e1. split; [done|]. split; [by eapply logged_inv|]. split; [by apply logged_stable|].
    unfold arp_effect. destruct L as (_ & _ & _ & _ & -> & -> & -> & _). auto. }
  assert (ecore e) as C by apply I.
  destruct (arp_parse_spec bytes Hb) as [Ep|(p & Ep & Hp)]; rewrite Ep.
  { apply Quiet; [done|by apply bump_ecore]. }
  destruct (list_eqb (sender_mac p) mac) eqn:Em; cbn [negb]; [|apply Quiet; [done|by apply bump_ecore]].
  apply list_eqb_eq in Em. destruct (_ && _).
  { apply Quiet; [eapply logged_trans; [|apply event_logged]; done|by apply event_ecore, bump_ecore]. }
  destruct (target_ip p =? _) eqn:Et; cbn [negb]; [|apply Quiet; [done|by apply bump_ecore]]. bools.
  destruct (operation p) eqn:Eo.
  - destruct (receive_request_spec p e held I Hp) as (e1 & -> & I1 & S1 & L1 & P1 & R1).
    exists e1. do 5 (split; [done|]). right. exists p. rewrite Em in L1. by rewrite Eo.
  - destruct (_ && _) eqn:Ec; [|apply Quiet; [done|by apply bump_ecore]].
    rewrite !andb_true_iff in Ec. destruct Ec as [[[Ec _] _] Ea]. apply list_eqb_eq in Ec.
    destruct (learn_spec (sender_ip p) (sender_mac p) e held I (arp_smac _ Hp) (arp_sip _ Hp)) as (e1 & -> & I1 & S1 & L1 & P1 & R1).
    exists e1. do 5 (split; [done|]). right. exists p. rewrite Em in L1. done.
Qed.

(** The IPv4 datagram that a frame brings to the client, without Ethernet header and padding: the frame comes from a station and is
    addressed to the interface, and so is the datagram, which is not longer than the MTU. *)
Definition datagram_of e (frame : PacketBuf) : option (list Z) :=
  match eth_parse (as_slice frame) with
  | Ok (Some h) =>
      if configured e && match eth_unicast (eth_source h) with Ok u => u | _ => false end
         && (list_eqb (eth_destination h) (if_mac (e_config e)) || list_eqb (eth_destination h) BROADCAST) && (ether_type h =? ETH_IPV4)
      then match ipv4 (drop 14 (as_slice frame)) with
           | Ok (Some (_, d, t)) =>
               if (t <=? if_mtu (e_config e)) && ((d =? if_address (e_config e)) || broadcast e d)
               then Some (take (Z.to_nat t) (drop 14 (as_slice frame))) else None
           | _ => None
           end
      else None
  | _ => None
  end.
Lemma datagram_stable e e' f : e_config e' = e_config e -> configured e' = configured e -> datagram_of e' f = datagram_of e f.
Proof. intros Ec Ed. unfold datagram_of, broadcast. by rewrite Ec, Ed. Qed.
Lemma datagrams_stable e e' (fs : list PacketBuf) : e_config e' = e_config e -> configured e' = configured e ->
  omap (datagram_of e') fs = omap (datagram_of e) fs.
Proof. intros Ec Ed. induction fs as [|f fs IH]; [done|]. cbn. by rewrite (datagram_stable e e'), IH. Qed.
Definition frame_effect (frame : PacketBuf) e e' : Prop :=
  neighbors e' = neighbors e
  \/ exists h, eth_parse (as_slice frame) = Ok (Some h) /\ arp_effect (drop 14 (as_slice frame)) (eth_source h) e e'.
Lemma ip_payload_spec pl n frame t :
  handle pl n frame -> 0 <= t -> HEADER + t <= buf_len frame ->
  exists b, ip_payload frame t = Ok b /\ handle pl n b
    /\ as_slice b = take (Z.to_nat t) (drop 14 (as_slice frame))
    /\ buf_idx b = buf_idx frame /\ buf_pool b = buf_pool frame.
Proof.
  intros (W & M & P) Ht Hl. unfold ip_payload, pull_header. unfold buf_wf, HEADER in *.
  rewrite (proj2 (Z.leb_le _ _)) by lia. cbn [obind]. unfold set_len. unfold capacity in *. cbn.
  rewrite (proj2 (Z.leb_le _ _)) by lia. eexists. split; [done|]. split; [|split; [|done]].
  - split; [unfold buf_wf, capacity; cbn; lia|done].
  - unfold as_slice. cbn. rewrite skipn_firstn_comm, take_take, drop_drop. f_equal; [lia|]. f_equal. lia.
Qed.
Definition frame_post (frame : PacketBuf) (out : list PacketBuf) (held : list Z) e
    (out' : list PacketBuf) e' : Prop :=
  eth_inv e' (owned out' ++ held) /\ estable e e' /\ Forall (ok_handle e) out'
  /\ pending e' = pending e /\ ready_ e' = ready_ e /\ frame_effect frame e e'
  /\ match datagram_of e frame with
     | Some bytes => exists b, out' = out ++ [b] /\ as_slice b = bytes /\ neighbors e' = neighbors e
     | None => out' = out
     end.
Lemma receive_frame_spec frame out e held :
  eth_inv e (owned [frame] ++ owned out ++ held) -> ok_handle e frame -> Forall (ok_handle e) out ->
  exists out' e', receive_frame frame out e = (Ok out', e') /\ frame_post frame out held e out' e'.
Proof.
  intros I Hf Ho. unfold receive_frame. set (disc := fun e : E => then_ (discard [frame] e) id _).
  assert (forall e1, datagram_of e frame = None -> eth_inv e1 (owned [frame] ++ owned out ++ held) -> estable e e1 -> pending e1 = pending e ->
    ready_ e1 = ready_ e -> frame_effect frame e e1 -> exists out' e', disc e1 = (Ok out', e')
    /\ frame_post frame out held e out' e') as Disc.
  { intros e1 N I1 S1 P1 R1 N1. unfold disc.
    destruct (discard_spec [frame] e1 _ I1) as (d & -> & I2 & S2).
    { constructor; [by apply (ok_stable e)|constructor]. }
    cbn [then_]. eexists out, _. split; [done|]. split; [done|]. split; [by eapply estable_trans|].
    do 4 (split; [done|]). by rewrite N. }
  assert (forall f, datagram_of e frame = None -> exists out' e', disc (bump f e) = (Ok out', e') /\ frame_post frame out held e out' e') as Drop.
  { intros f N. apply Disc; [done|by apply bump_inv|done|done|done|by left]. }
  assert (forall b f, datagram_of e frame = Some (as_slice b) -> owned [b] = owned [frame] -> ok_handle e b ->
    frame_post frame out held e (out ++ [b]) (bump f e)) as Good.
  { intros b f N Ob Hb. unfold frame_post. rewrite N. split; [|split; [done|split; [by apply Forall_app; split; [|constructor]|]]].
    - apply bump_inv. eapply eth_inv_move; [exact I|apply I|done| |apply I]. rewrite owned_app, Ob. perm.
    - do 2 (split; [done|]). split; [by left|]. by exists b. }
  pose proof (handle_bytes _ _ _ Hf) as Bf. unfold datagram_of in Disc, Drop, Good.
  destruct (eth_parse_spec _ Bf) as [Eh|(h & Eh & Hh & Hl)]; rewrite Eh in *; [destruct (configured e); cbn [negb]; by apply Drop|].
  destruct (configured e); cbn [negb andb] in *; [|by apply Drop].
  destruct (eth_unicast_ok (eth_source h) (proj1 (proj2 Hh))) as [u Eu]. rewrite Eu in *.
  set (here := list_eqb _ (if_mac _) || _) in *.
  assert (negb u || (negb (list_eqb (eth_destination h) (if_mac (e_config e))) && negb (list_eqb (eth_destination h) BROADCAST)) = negb (u && here)) as ->.
  { unfold here. by destruct u, (list_eqb _ (if_mac _)), (list_eqb _ BROADCAST). }
  destruct (u && here); cbn [negb andb] in *; [|by apply Drop].
  assert (slice (as_slice frame) HEADER (zlen (as_slice frame)) = Ok (drop 14 (as_slice frame))) as ->.
  { rewrite slice_ok by (unfold HEADER in *; lia). f_equal. change (Z.to_nat HEADER) with 14%nat.
    apply take_ge. rewrite length_drop. unfold zlen, HEADER in *. lia. }
  assert (bytes_ok (drop 14 (as_slice frame))) as Bb by (by apply bytes_drop).
  destruct (ether_type h =? ETH_ARP) eqn:Ar; bools.
  { rewrite Ar in *. cbn [Z.eqb ETH_ARP ETH_IPV4 Pos.eqb] in *.
    destruct (receive_arp_spec (drop 14 (as_slice frame)) (eth_source h) e _ I Bb) as (e1 & -> & I1 & S1 & P1 & R1 & N1).
    cbn [then_]. apply Disc; try done. right. by exists h. }
  destruct (ether_type h =? ETH_IPV4) eqn:Ek; [|by apply Drop].
  destruct (ipv4_spec _ Bb) as [Ei|(s & d & t & Ei & Ht & _)]; rewrite Ei in *; [by apply Drop|].
  assert ((if_mtu (e_config e) <? t) || (negb (d =? if_address (e_config e)) && negb (broadcast e d))
    = negb ((t <=? if_mtu (e_config e)) && ((d =? if_address (e_config e)) || broadcast e d))) as ->.
  { rewrite negb_andb, negb_orb, Z.ltb_antisym. done. }
  destruct ((t <=? _) && _) eqn:Em; cbn [negb]; [|by apply Drop].
  pose proof (zlen_as_slice frame (proj1 Hf)) as Lf. rewrite zlen_drop in Ht.
  destruct (ip_payload_spec _ _ frame t Hf) as (b & -> & Hb & Ab & Ix & Po); [lia|unfold HEADER; lia|].
  eexists _, _. split; [done|]. apply Good; [by rewrite Ab|unfold owned; cbn; by rewrite Ix, Po|done].
Qed.

(** What received frames can do to the neighbour table. *)
Definition nb_step e e' : Prop := forall a,
  om_get (neighbors e') a = om_get (neighbors e) a
  \/ (forall m, om_get (neighbors e) a <> Some (Static m))
     /\ exists mac, om_get (neighbors e') a
          = Some (Reachable mac (dur_add (e_now e) (neighbor_ttl (e_config e)))).
Lemma nb_step_trans e1 e2 e3 : estable e1 e2 -> nb_step e1 e2 -> nb_step e2 e3 -> nb_step e1 e3.
Proof.
  intros (Ec & _ & _ & _ & En & _) S1 S2 a. specialize (S1 a). specialize (S2 a). rewrite Ec, En in S2.
  destruct S2 as [S2|(N2 & mac & G2)]; [by rewrite S2|]. right. split; [|by exists mac].
  destruct S1 as [<- |[N1 _]]; [exact N2|exact N1].
Qed.
Lemma learned_step e e' a mac : learned e e' a mac -> nb_step e e'.
Proof.
  intros [En|[Ns En]] b; rewrite En; [by left|]. rewrite om_get_insert.
  destruct (a =? b) eqn:Eb; bools; [subst|by left]. right. split; [done|by exists mac].
Qed.
Lemma frame_effect_step f e e' : frame_effect f e e' -> nb_step e e'.
Proof.
  intros [En|(h & _ & [En|(p & _ & _ & _ & L & _)])]; [intros a; left; by rewrite En..|].
  by eapply learned_step.
Qed.

Lemma receive_frames_spec frames out e held :
  eth_inv e (owned frames ++ owned out ++ held) -> Forall (ok_handle e) frames -> Forall (ok_handle e) out ->
  exists out' e', receive_frames frames out e = (Ok out', e') /\ eth_inv e' (owned out' ++ held) /\ estable e e'
    /\ Forall (ok_handle e) out' /\ pending e' = pending e /\ ready_ e' = ready_ e /\ nb_step e e'
    /\ as_slice <$> out' = (as_slice <$> out) ++ omap (datagram_of e) frames.
Proof.
  revert out e. induction frames as [|f frames IH]; intros out e I F Ho; cbn [receive_frames].
  { exists out, e. split; [done|]. split; [done|]. split; [apply estable_refl|]. split_and!; try done; [by left|].
    by rewrite app_nil_r. }
  apply Forall_cons in F as [Hf F]. rewrite owned_cons, <- app_assoc in I.
  destruct (receive_frame_spec f out e (owned frames ++ held)) as (out1 & e1 & -> & I1 & S1 & F1 & P1 & R1 & X1 & O1); [|done|done|].
  { rewrite (Permutation_app_swap_app (owned out) (owned frames)). exact I. }
  apply frame_effect_step in X1. cbn [then_]. destruct (IH out1 e1) as (out' & e' & -> & I' & S' & F' & P' & R' & X' & O').
  - rewrite (Permutation_app_swap_app (owned frames)). exact I1.
  - by apply (oks_stable e).
  - by apply (oks_stable e).
  - exists out', e'. split; [done|]. split; [done|]. split; [by eapply estable_trans|]. split.
    + rewrite Forall_forall in *. intros b Hb. specialize (F' b Hb). destruct S1 as (_ & _ & _ & _ & _ & E1 & E2).
      unfold ok_handle in *. by rewrite E1, E2 in F'.
    + split; [congruence|]. split; [congruence|]. split; [by eapply nb_step_trans|].
      rewrite O', (datagrams_stable e e1) by apply S1.
      cbn [omap list_omap]. destruct (datagram_of e f) as [bytes|]; [|by rewrite O1].
      destruct O1 as (b & -> & <- & _). by rewrite fmap_app, <- app_assoc.
Qed.

(** ** Releasing packets whose neighbour is known *)
Lemma prepend_handle pl n b src dst kind :
  handle pl n b -> framable b -> mac_ok src -> mac_ok dst ->
  exists b', eth_prepend b src dst kind = Ok b' /\ handle pl n b'
    /\ as_slice b' = header_bytes (mkHeader dst src kind) ++ as_slice b ++ padding (HEADER + buf_len b)
    /\ buf_idx b' = buf_idx b /\ buf_pool b' = buf_pool b.
Proof.
  intros (W & M & P) [Ho Ht] Hs Hd.
  destruct (eth_prepend_spec b (mkHeader dst src kind) W (proj1 Hd) (proj1 Hs) Ho Ht) as (b' & E & W' & A & C & _ & Ix & Po).
  cbn [eth_source eth_destination ether_type] in E. exists b'. split; [done|]. split; [|done].
  split; [done|]. split; [by eapply eth_prepend_bytes|]. by rewrite Po, C.
Qed.
Lemma resolved_mac e a mac : ecore e -> resolved e a = Some mac -> mac_ok mac.
Proof.
  intros C. unfold resolved. destruct (om_get (neighbors e) a) as [n|] eqn:E; [|done]. cbn. intros Hm.
  apply om_get_elem in E. pose proof (ec_entries _ C) as F. rewrite Forall_forall in F. destruct (F _ E) as [_ G]. cbn in G.
  destruct n; cbn in Hm; try done; [by injection Hm as <-|]. destruct (_ <? _); [by injection Hm as <-|done].
Qed.
(** The frame made of a packet for a known neighbour. *)
Definition framed e (p : Pending) (b : PacketBuf) : Prop :=
  exists mac, resolved e (pd_next_hop p) = Some mac
    /\ as_slice b = header_bytes (mkHeader mac (if_mac (e_config e)) ETH_IPV4) ++ as_slice (pd_frame p)
                    ++ padding (HEADER + buf_len (pd_frame p)).
Lemma release_loop_spec l k e held :
  pending e = l ++ k -> eth_inv e held ->
  exists bs e', release_loop (length l) e = (Ok tt, e') /\ eth_inv e' held /\ estable e e'
    /\ neighbors e' = neighbors e /\ control e' = control e
    /\ pending e' = k ++ filter (fun p => resolved e (pd_next_hop p) = None) l
    /\ ready_ e' = ready_ e ++ bs
    /\ Forall2 (framed e) (filter (fun p => resolved e (pd_next_hop p) <> None) l) bs.
Proof.
  revert k e. induction l as [|p l IH]; intros k e Ep I; cbn [length release_loop].
  { exists [], e. split; [done|]. split; [done|]. split; [apply estable_refl|]. rewrite !app_nil_r. done. }
  change ((p :: l) ++ k) with (p :: (l ++ k)) in Ep. rewrite Ep. set (e1 := e <| pending := l ++ k |>).
  assert (resolved e1 (pd_next_hop p) = resolved e (pd_next_hop p)) as -> by done.
  pose proof (ei_core _ _ I) as C. pose proof (ei_frames _ _ I) as F.
  apply Forall_eframes in F as (F1 & F2 & F3 & F4 & F5). rewrite Ep in F1. cbn in F1.
  apply Forall_cons in F1 as [Fp F1].
  pose proof (ec_pending _ C) as Fr. rewrite Ep in Fr. apply Forall_cons in Fr as [Frp Fr].
  destruct (resolved e (pd_next_hop p)) as [mac|] eqn:Er.
  - destruct (prepend_handle _ _ (pd_frame p) (if_mac (e_config e)) mac ETH_IPV4 Fp Frp (ic_mac _ (ec_config _ C))
      (resolved_mac _ _ _ C Er)) as (b & Eb & Hb & Ab & Ix & Po).
    change (if_mac (e_config e1)) with (if_mac (e_config e)). rewrite Eb.
    assert (owned [b] = owned [pd_frame p]) as Ob by (unfold owned; cbn; by rewrite Ix, Po).
    destruct (IH k (e1 <| ready_ ::= fun l => l ++ [b] |>)) as (bs & e' & -> & I' & S' & N' & C' & P' & R' & B').
    { done. }
    { eapply eth_inv_move; [exact I| |done| |].
      - pose proof (ec_tx _ C) as T. rewrite Ep in T. destruct C. constructor; cbn; try done.
        rewrite !zlen_app, zlen_cons, zlen_nil. rewrite zlen_cons, zlen_app in T. lia.
      - unfold eframes. cbn. rewrite Ep, fmap_cons, <- app_comm_cons, (owned_cons (pd_frame p)), !owned_app, Ob. perm.
      - apply Forall_eframes. cbn. split_and!; try done. apply Forall_app. split; [done|by constructor]. }
    exists (b :: bs), e'. split; [done|]. split; [done|]. split; [exact S'|]. split; [done|]. split; [done|].
    rewrite filter_cons_False by (rewrite Er; discriminate). split; [exact P'|]. split; [rewrite R'; cbn; by rewrite <- app_assoc|].
    rewrite filter_cons_True by (rewrite Er; discriminate). constructor; [|exact B']. exists mac. done.
  - destruct (IH (k ++ [p]) (e1 <| pending := (l ++ k) ++ [p] |>)) as (bs & e' & -> & I' & S' & N' & C' & P' & R' & B').
    { cbn. by rewrite app_assoc. }
    { eapply eth_inv_move; [exact I| |done| |].
      - pose proof (ec_tx _ C) as T. rewrite Ep in T. destruct C. constructor; cbn; try done.
        + rewrite !zlen_app, zlen_cons, zlen_nil. rewrite zlen_cons, zlen_app in T. lia.
        + rewrite Forall_app. split; [done|by constructor].
      - unfold eframes. cbn. rewrite Ep, fmap_cons, <- app_comm_cons, (owned_cons (pd_frame p)), !fmap_app, !owned_app.
        change (pd_frame <$> [p]) with [pd_frame p]. perm.
      - apply Forall_eframes. cbn. split_and!; try done. rewrite fmap_app. apply Forall_app.
        split; [done|by constructor]. }
    exists bs, e'. split; [done|]. split; [done|]. split; [exact S'|]. split; [done|]. split; [done|].
    rewrite filter_cons_True by done. rewrite filter_cons_False by (by intros X).
    split; [rewrite P'; by rewrite <- app_assoc|]. done.
Qed.
Lemma eth_release_spec e held :
  eth_inv e held ->
  exists bs e', release_resolved e = (Ok tt, e') /\ eth_inv e' held /\ estable e e'
    /\ neighbors e' = neighbors e /\ control e' = control e
    /\ pending e' = filter (fun p => resolved e (pd_next_hop p) = None) (pending e)
    /\ ready_ e' = ready_ e ++ bs
    /\ Forall2 (framed e) (filter (fun p => resolved e (pd_next_hop p) <> None) (pending e)) bs.
Proof. intros I. apply (release_loop_spec (pending e) [] e held); [by rewrite app_nil_r|done]. Qed.

(** ** Submitting *)
Lemma flush_front_spec k q d held :
  dev_inv d (owned q ++ held) -> Forall (handle (dev_pool d) (dev_frame_size d)) q ->
  exists r d' n, flush_front k q d = (r, (d', drop n q)) /\ returns r
    /\ dev_inv d' (owned (drop n q) ++ held) /\ dev_pool d' = dev_pool d /\ dev_frame_size d' = dev_frame_size d
    /\ (n <= length q)%nat /\ (forall m, r = Ok m -> m = Z.of_nat n) /\ ((forall m, r <> Ok m) -> n = 0%nat).
Proof.
  intros I F. unfold flush_front. destruct q as [|b q'] eqn:Eq.
  { exists (Ok 0), d, 0%nat. split_and!; try done. by intros m [= <-]. }
  rewrite <- Eq in *. clear Eq q' b. set (front := take (S k) q). set (back := drop (S k) q).
  assert (q = front ++ back) as E by (symmetry; apply take_drop).
  assert (Forall (handle (dev_pool d) (dev_frame_size d)) front) as Ff by (by apply Forall_take).
  destruct (dev_send_law d (owned back ++ held) front) as (r & d1 & fs & -> & P1 & Z1 & I1 & Hr); [|done|].
  { rewrite app_assoc, <- owned_app, <- E. exact I. }
  assert (forall r' : outcome Z, fs = front -> returns r' -> (forall m, r' = Ok m -> m = 0) -> exists r d' n,
    (r', (d1, fs ++ back)) = (r, (d', drop n q)) /\ returns r
    /\ dev_inv d' (owned (drop n q) ++ held) /\ dev_pool d' = dev_pool d /\ dev_frame_size d' = dev_frame_size d
    /\ (n <= length q)%nat /\ (forall m, r = Ok m -> m = Z.of_nat n) /\ ((forall m, r <> Ok m) -> n = 0%nat)) as None_.
  { intros r' -> Rr Hm. exists r', d1, 0%nat. rewrite drop_0, <- E. split_and!; try done; [|lia].
    rewrite E, owned_app, <- app_assoc. exact I1. }
  destruct r as [n|k'| |]; try done.
  - destruct Hr as [Hn Ef].
    assert (zlen front <= zlen q) as Lf by (rewrite E, zlen_app; pose proof (zlen_nonneg back); lia).
    assert (fs ++ back = replicate (Z.to_nat n) packet_default ++ drop (Z.to_nat n) q) as Efs.
    { rewrite Ef, <- app_assoc. f_equal. rewrite E at 1. rewrite drop_app_le by (unfold zlen in Hn; lia). done. }
    rewrite Efs. rewrite (proj2 (Z.ltb_ge _ _)).
    2:{ rewrite zlen_app, zlen_replicate. pose proof (zlen_nonneg (drop (Z.to_nat n) q)). lia. }
    rewrite take_app_length' by (by rewrite length_replicate).
    rewrite drop_app_length' by (by rewrite length_replicate).
    destruct (drop_all_spec d1 (owned (drop (Z.to_nat n) q) ++ held) (replicate (Z.to_nat n) packet_default) (Ok n))
      as (d2 & -> & I2 & P2 & Z2).
    { rewrite owned_defaults. cbn. rewrite Ef, owned_app, owned_defaults in I1. cbn in I1.
      rewrite app_assoc, <- owned_app in I1.
      replace (drop (Z.to_nat n) q) with (drop (Z.to_nat n) front ++ back); [exact I1|].
      rewrite E, drop_app_le by (unfold zlen in Hn; lia). done. }
    { apply Forall_replicate, handle_default. }
    exists (Ok n), d2, (Z.to_nat n). split_and!; try done; try congruence.
    + unfold zlen in *. lia.
    + intros m [= <-]. lia.
    + intros X. by destruct (X n).
  - destruct k'; apply None_; try done; by intros m [= <-].
Qed.
End Inv.
