(* ===== verification/InterfaceStep.v ===== *)
(** * The steps of the Ethernet/IPv4 interface

    Submitting queued frames, the passing of time and the operations of the [Device]
    trait keep the invariant; the [DeviceLaws] of the interface follow from those of the
    device below it. *)
From Stdlib Require Import ZArith Lia Bool.
From stdpp Require Import base numbers option list sorting.
From S2P Require Import Prelude Checksum BufferPool Addr Ethernet Route Device OrdMap Interface InterfaceInv.
#[local] Open Scope Z_scope.

Section Step.
Context {D : Type} `{DeviceLaws D}.
Notation E := (EthernetIpv4 D).
Implicit Types e : EthernetIpv4 D.

(** ** Submitting queued frames *)
Lemma flush_control_spec e held :
  eth_inv e held ->
  exists r e' n, flush_control e = (r, e') /\ returns r /\ eth_inv e' held /\ estable e e'
    /\ neighbors e' = neighbors e /\ pending e' = pending e /\ ready_ e' = ready_ e
    /\ control e' = drop n (control e).
Proof.
  intros [C Dv F]. unfold flush_control, next_layout. cbn.
  pose proof F as G. apply Forall_eframes in G as (G1 & G2 & G3 & G4 & G5).
  set (rest := (pd_frame <$> pending e) ++ ready_ e ++ option_list (control_spare e) ++ e_rx e).
  destruct (flush_front_spec (layout e 0%nat) (control e) (e_device e) (owned rest ++ held))
    as (r & d & n & -> & Hr & I' & P & Z & Ln & _); [|done|].
  { rewrite app_assoc, <- owned_app. eapply dev_inv_perm; [|exact Dv]. unfold eframes, rest. rewrite !owned_app. perm. }
  eexists r, _, n. split; [done|]. split; [done|].
  match goal with |- eth_inv ?x _ /\ _ => set (e' := x) end.
  assert (estable e e') as S by (unfold estable, e'; cbn; by rewrite P, Z).
  split; [|done]. constructor.
  - destruct C. constructor; cbn; try done; [unfold zlen in *; rewrite length_drop; lia|by apply Forall_drop].
  - eapply dev_inv_perm; [|exact I']. unfold eframes, rest. cbn. rewrite !owned_app. perm.
  - apply (oks_stable e); [done|]. apply Forall_eframes. cbn. split_and!; try done. by apply Forall_drop.
Qed.
Lemma flush_ready_spec e held :
  eth_inv e held ->
  exists r e' n, flush_ready e = (r, e') /\ returns r /\ eth_inv e' held /\ estable e e'
    /\ neighbors e' = neighbors e /\ pending e' = pending e /\ control e' = control e
    /\ ready_ e' = drop n (ready_ e).
Proof.
  intros [C Dv F]. unfold flush_ready, next_layout. cbn.
  pose proof F as G. apply Forall_eframes in G as (G1 & G2 & G3 & G4 & G5).
  set (rest := (pd_frame <$> pending e) ++ control e ++ option_list (control_spare e) ++ e_rx e).
  destruct (flush_front_spec (layout e 0%nat) (ready_ e) (e_device e) (owned rest ++ held))
    as (r & d & n & -> & Hr & I' & P & Z & Ln & _); [|done|].
  { rewrite app_assoc, <- owned_app. eapply dev_inv_perm; [|exact Dv]. unfold eframes, rest. rewrite !owned_app. perm. }
  eexists r, _, n. split; [done|]. split; [done|].
  match goal with |- eth_inv ?x _ /\ _ => set (e' := x) end.
  assert (estable e e') as S by (unfold estable, e'; cbn; by rewrite P, Z).
  split; [|done]. constructor.
  - pose proof (ec_tx _ C). destruct C. constructor; cbn; try done. unfold zlen in *; rewrite length_drop; lia.
  - eapply dev_inv_perm; [|exact I']. unfold eframes, rest. cbn. rewrite !owned_app. perm.
  - apply (oks_stable e); [done|]. apply Forall_eframes. cbn. split_and!; try done. by apply Forall_drop.
Qed.
(** Control frames go first; IPv4 packets leave only when no control frame waits. *)
Definition flushed e e' : Prop :=
  neighbors e' = neighbors e /\ pending e' = pending e
  /\ exists n m, control e' = drop n (control e) /\ ready_ e' = drop m (ready_ e)
       /\ (control e' = [] \/ m = 0%nat).
Lemma submitted_logged f ev (n : Z) e : logged e (if 0 <? n then if_event ev (bump f e) else bump f e).
Proof. destruct (0 <? n); [|done]. eapply logged_trans; [|apply event_logged]. done. Qed.
Lemma submitted_inv f ev (n : Z) e held :
  eth_inv e held -> eth_inv (if 0 <? n then if_event ev (bump f e) else bump f e) held.
Proof. intros I. destruct (0 <? n); [apply event_inv|]; by apply bump_inv. Qed.
Lemma eth_flush_spec e held :
  eth_inv e held ->
  exists r e', if_flush e = (r, e') /\ returns r /\ eth_inv e' held /\ estable e e' /\ flushed e e'.
Proof.
  intros I. unfold if_flush.
  destruct (flush_control_spec e held I) as (r & e1 & n & -> & Hr & I1 & S1 & N1 & P1 & R1 & C1).
  assert (flushed e e1) as Fl1.
  { split; [done|]. split; [done|]. exists n, 0%nat. rewrite drop_0. auto. }
  destruct r as [k|k| |]; try done; cbn [then_]; [|by exists (Err k), e1].
  set (f := fun s : InterfaceStats => _). pose proof (submitted_inv f (SubmittedEvent 0 k) k e1 held I1) as I2.
  pose proof (submitted_logged f (SubmittedEvent 0 k) k e1) as L2.
  set (e2 := if 0 <? k then _ else _) in *. clearbody e2.
  pose proof (logged_stable _ _ L2) as S2. destruct L2 as (_ & _ & _ & _ & N2 & P2 & R2 & C2 & _).
  assert (flushed e e2) as Fl2 by (unfold flushed in *; by rewrite N2, P2, R2, C2).
  case_bool_decide as Ec; cbn [negb].
  2:{ exists (Ok tt), e2. do 3 (split; [done|]). split; [by eapply estable_trans|done]. }
  destruct (flush_ready_spec e2 held I2) as (r & e3 & m & -> & Hr3 & I3 & S3 & N3 & P3 & C3 & R3).
  assert (flushed e e3) as Fl3.
  { split; [congruence|]. split; [congruence|]. exists n, m. rewrite C3, R3, R2, R1. split; [congruence|]. auto. }
  destruct r as [k3|k3| |]; try done; cbn [then_].
  2:{ exists (Err k3), e3. do 3 (split; [done|]). split; [|done]. do 2 (eapply estable_trans; [done|]). done. }
  set (g := fun s : InterfaceStats => _). eexists (Ok tt), _. split; [done|]. split; [done|].
  pose proof (submitted_logged g (SubmittedEvent k3 0) k3 e3) as L4.
  split; [by apply submitted_inv|]. split.
  - eapply estable_trans; [exact S1|]. eapply estable_trans; [exact S2|]. eapply estable_trans; [exact S3|].
    by apply logged_stable.
  - destruct L4 as (_ & _ & _ & _ & N4 & P4 & R4 & C4 & _). unfold flushed in *. by rewrite N4, P4, R4, C4.
Qed.

(** ** The passing of time *)
(** A neighbour entry [n] after [advance] at time [now]; [None] is no entry. *)
Definition lapsed (now : Z) (n : NeighborState) : bool :=
  match n with Resolving _ _ expires => expires <=? now | _ => false end.
Definition aged (c : InterfaceConfig) (now : Z) (n : NeighborState) (o : option NeighborState) : Prop :=
  match n with
  | Static _ => o = Some n
  | Reachable _ t | NeighborFailed t => o = if t <=? now then None else Some n
  | Resolving attempts next_probe t =>
      if t <=? now then o = Some (NeighborFailed (dur_add now (failed_retry_delay c)))
      else o = Some n
           \/ (next_probe <= now /\ attempts < max_arp_attempts c
               /\ o = Some (Resolving (attempts + 1) (dur_add now (retry_interval c)) t))
  end.
Definition one_aged (now ip_ : Z) (n : NeighborState) e e' : Prop :=
  (forall a, a <> ip_ -> om_get (neighbors e') a = om_get (neighbors e) a)
  /\ aged (e_config e) now n (om_get (neighbors e') ip_)
  /\ pending e' = (if lapsed now n then filter (fun p => pd_next_hop p <> ip_) (pending e) else pending e)
  /\ ready_ e' = ready_ e.

Lemma entry_key e held a n : eth_inv e held -> om_get (neighbors e) a = Some n -> 0 <= a < W32.
Proof.
  intros I G. pose proof (ec_entries _ (ei_core _ _ I)) as F. rewrite Forall_forall in F.
  by destruct (F _ (om_get_elem _ _ _ G)).
Qed.
Lemma pending_split e a :
  pending e ≡ₚ filter (fun p => pd_next_hop p <> a) (pending e) ++ filter (fun p => pd_next_hop p = a) (pending e).
Proof.
  induction (pending e) as [|p l IH]; [done|]. destruct (decide (pd_next_hop p = a)).
  - rewrite filter_cons_False by (by intros X). rewrite filter_cons_True by done.
    rewrite <- Permutation_middle. by constructor.
  - rewrite filter_cons_True by done. rewrite filter_cons_False by done. cbn. by constructor.
Qed.
Lemma drop_pending_spec a e held :
  eth_inv e held ->
  exists e', discard (pd_frame <$> filter (fun p => pd_next_hop p = a) (pending e))
               (e <| pending ::= filter (fun p => pd_next_hop p <> a) |>) = (Ok tt, e')
    /\ eth_inv e' held /\ estable e e' /\ neighbors e' = neighbors e /\ ready_ e' = ready_ e
    /\ pending e' = filter (fun p => pd_next_hop p <> a) (pending e).
Proof.
  intros I. pose proof (ei_frames _ _ I) as F. apply Forall_eframes in F as (F1 & F2 & F3 & F4 & F5).
  rewrite (pending_split e a), fmap_app, Forall_app in F1. destruct F1 as [Fk Fg].
  set (gone := pd_frame <$> filter (fun p => pd_next_hop p = a) (pending e)) in *.
  destruct (discard_spec gone (e <| pending ::= filter (fun p => pd_next_hop p <> a) |>) held) as (d & -> & I' & S'); [|done|].
  - pose proof (sublist_filter (fun p => pd_next_hop p <> a) (pending e)) as Sb.
    eapply eth_inv_move; [exact I| |done| |].
    + destruct I as [C _ _]. pose proof (ec_tx _ C). destruct C. constructor; cbn; try done.
      * apply sublist_length in Sb. unfold zlen in *. lia.
      * by eapply sublist_Forall.
    + unfold eframes. cbn. rewrite (pending_split e a) at 1. rewrite fmap_app. fold gone. rewrite !owned_app. perm.
    + apply Forall_eframes. done.
  - eexists. split; [done|]. split; [done|]. split; [exact S'|done].
Qed.
Lemma time_out_spec now a n e held :
  eth_inv e held -> om_get (neighbors e) a = Some n -> lapsed now n = true ->
  exists e', time_out now a e = (Ok tt, e') /\ eth_inv e' held /\ estable e e' /\ one_aged now a n e e'.
Proof.
  intros I G X. unfold time_out. cbv zeta. set (e1 := e <| neighbors ::= _ |>).
  assert (eth_inv e1 held) as I1.
  { apply insert_inv; [done| |by rewrite G]. split; [by eapply entry_key|done]. }
  destruct (drop_pending_spec a e1 held I1) as (e2 & -> & I2 & S2 & N2 & R2 & P2). cbn [then_].
  destruct (cancel_probes_spec a e2 held I2) as (e3 & -> & I3 & S3 & N3 & P3 & R3). cbn [then_].
  eexists. split; [done|]. split; [by apply event_inv, bump_inv|].
  match goal with |- context [if_event ?v ?x] => pose proof (event_logged v x) as L; set (e4 := if_event v x) in * end.
  clearbody e4. split.
  - eapply estable_trans; [|eapply estable_trans; [exact S3|]]; [exact S2|]. apply logged_stable in L. exact L.
  - destruct L as (_ & _ & _ & _ & N4 & P4 & R4 & _). cbn in N4, P4, R4. unfold one_aged.
    rewrite N4, P4, R4, N3, P3, R3, N2, P2, R2, X. unfold e1. cbn.
    split; [|split; [|done]].
    + intros b Hb. rewrite om_get_insert. by rewrite (proj2 (Z.eqb_neq a b)) by congruence.
    + rewrite om_get_insert, Z.eqb_refl. unfold aged, lapsed in *. destruct n; try done. by rewrite X.
Qed.
Lemma probe_spec now a attempts next_probe t e held :
  eth_inv e held -> om_get (neighbors e) a = Some (Resolving attempts next_probe t) ->
  now < t -> next_probe <= now -> attempts < max_arp_attempts (e_config e) ->
  exists e', probe now a attempts t e = (Ok tt, e') /\ eth_inv e' held /\ estable e e'
    /\ one_aged now a (Resolving attempts next_probe t) e e'.
Proof.
  intros I G Ht Hn Ha. unfold probe. pose proof (ei_core _ _ I) as C. cbv zeta. set (request := mkArp _ _ _ _ _).
  assert (arp_ok request) as Hr.
  { pose proof (ec_config _ C) as []. constructor; cbn; try done; [|by eapply entry_key].
    split; [done|]. repeat constructor; unfold is_byte; lia. }
  assert (mac_ok BROADCAST) as Hb by (split; [done|]; repeat constructor; unfold is_byte; lia).
  destruct (queue_arp_spec request BROADCAST e held I Hr Hb) as (r & e1 & -> & I1 & S1 & N1 & P1 & R1 & _).
  cbn [then_]. eexists. split; [done|].
  assert (e_config e1 = e_config e) as Ec by apply S1.
  assert (now <? t = true) as Hx by (apply Z.ltb_lt; lia).
  destruct r.
  2:{ split; [done|]. split; [done|]. unfold one_aged. rewrite N1, P1, R1, G. cbn.
      rewrite (proj2 (Z.leb_gt _ _)) by lia. auto. }
  set (v := Resolving _ _ _). match goal with |- eth_inv ?x _ /\ _ => assert (eth_inv x held) as I4 end.
  { apply event_inv, bump_inv, insert_inv; [done| |by rewrite N1, G]. split; [exact (entry_key _ _ _ _ I G)|].
    pose proof (ec_entries _ C) as F. rewrite Forall_forall in F. destruct (F _ (om_get_elem _ _ _ G)) as [_ Fx].
    cbn in *. unfold resolution_end in *. destruct S1 as (-> & _ & _ & _ & -> & _). exact Fx. }
  match goal with |- context [if_event ?w ?x] =>
    pose proof (event_logged w x) as L; set (e4 := if_event w x) in *; clearbody e4 end. split; [done|].
  split; [eapply estable_trans; [exact S1|]; by apply logged_stable in L|].
  destruct L as (_ & _ & _ & _ & N4 & P4 & R4 & _). cbn in N4, P4, R4. unfold one_aged.
  rewrite N4, P4, R4, N1, P1, R1. cbn. rewrite (proj2 (Z.leb_gt t now)) by lia. split; [|split; [|done]].
  - intros b Hb'. rewrite om_get_insert. by rewrite (proj2 (Z.eqb_neq a b)) by congruence.
  - right. rewrite om_get_insert, Z.eqb_refl. unfold v. by rewrite Ec.
Qed.

(** An entry whose time has not come is left alone. *)
Lemma one_aged_same now a n e : om_get (neighbors e) a = Some n -> lapsed now n = false ->
  aged (e_config e) now n (Some n) -> one_aged now a n e e.
Proof. intros G X A. unfold one_aged. by rewrite G, X. Qed.
Lemma remove_aged now a n e held :
  eth_inv e held -> lapsed now n = false -> aged (e_config e) now n None ->
  eth_inv (e <| neighbors ::= fun m => om_remove m a |>) held
  /\ one_aged now a n e (e <| neighbors ::= fun m => om_remove m a |>).
Proof.
  intros I X A. split; [apply sub_inv; [done|apply om_remove_sublist]|].
  unfold one_aged. rewrite X. cbn. pose proof (ec_sorted _ (ei_core _ _ I)) as S.
  rewrite om_get_remove, Z.eqb_refl by done. split; [|done].
  intros b Hb. rewrite om_get_remove by done. by rewrite (proj2 (Z.eqb_neq b a)).
Qed.
Lemma advance_one_spec now a n e held :
  eth_inv e held -> om_get (neighbors e) a = Some n ->
  exists e', advance_one now a n e = (Ok tt, e') /\ eth_inv e' held /\ estable e e' /\ one_aged now a n e e'.
Proof.
  intros I G. destruct n as [mac|mac t|at_ np t|t]; cbn [advance_one].
  - exists e. split; [done|]. split; [done|]. split; [done|]. by apply one_aged_same.
  - eexists. split; [done|]. destruct (t <=? now) eqn:X.
    + destruct (remove_aged now a (Reachable mac t) e held I eq_refl) as [I' A']; [cbn; by rewrite X|]. done.
    + split; [done|]. split; [done|]. apply one_aged_same; [done..|]. cbn. by rewrite X.
  - destruct (t <=? now) eqn:X; [by apply time_out_spec|]. destruct (_ && _) eqn:Y; bools.
    + apply probe_spec with (next_probe := np); [done|done|lia..].
    + exists e. split; [done|]. split; [done|]. split; [done|]. apply one_aged_same; [done|cbn; lia|].
      cbn. rewrite (proj2 (Z.leb_gt t now)) by lia. auto.
  - eexists. split; [done|]. destruct (t <=? now) eqn:X.
    + destruct (remove_aged now a (NeighborFailed t) e held I eq_refl) as [I' A']; [cbn; by rewrite X|]. done.
    + split; [done|]. split; [done|]. apply one_aged_same; [done..|]. cbn. by rewrite X.
Qed.

(** All entries of the table, and the packets that waited for those that lapsed. *)
Definition overdue (m : list (Z * NeighborState)) (now a : Z) : bool :=
  match om_get m a with Some n => lapsed now n | None => false end.
Definition all_aged (now : Z) (m : list (Z * NeighborState)) e e' : Prop :=
  (forall a, match om_get m a with
             | Some n => aged (e_config e) now n (om_get (neighbors e') a)
             | None => om_get (neighbors e') a = om_get (neighbors e) a
             end)
  /\ pending e' = filter (fun p => overdue m now (pd_next_hop p) = false) (pending e)
  /\ ready_ e' = ready_ e.
Lemma filter_due (now a : Z) n m (l : list Pending) :
  a ∉ m.*1 ->
  filter (fun p => overdue m now (pd_next_hop p) = false)
    (if lapsed now n then filter (fun p => pd_next_hop p <> a) l else l)
  = filter (fun p => overdue ((a, n) :: m) now (pd_next_hop p) = false) l.
Proof.
  intros Ha. unfold overdue. cbn. destruct (lapsed now n) eqn:X.
  - rewrite list_filter_filter. apply list_filter_iff. intros p. destruct (a =? pd_next_hop p) eqn:Y; bools.
    + subst a. rewrite (om_get_keys m) by done. split; [intros [_ []]|]; congruence.
    + split; [tauto|]. intros Hx. by split; [|congruence].
  - apply list_filter_iff. intros p. destruct (a =? pd_next_hop p) eqn:Y; bools; [|done].
    subst a. by rewrite (om_get_keys m), X.
Qed.
Lemma advance_all_spec now m e held :
  eth_inv e held -> NoDup m.*1 -> Forall (fun x => om_get (neighbors e) x.1 = Some x.2) m ->
  exists e', advance_all now m e = (Ok tt, e') /\ eth_inv e' held /\ estable e e' /\ all_aged now m e e'.
Proof.
  revert e. induction m as [|[a n] m IH]; intros e I Nd F; cbn [advance_all].
  { exists e. split; [done|]. split; [done|]. split; [done|]. split; [done|]. split; [|done].
    symmetry. apply filter_all. by apply Forall_true. }
  apply Forall_cons in F as [G F]. cbn in G, Nd. apply NoDup_cons in Nd as [Ha Nd].
  destruct (advance_one_spec now a n e held I G) as (e1 & -> & I1 & S1 & (O1 & A1 & P1 & R1)). cbn [then_].
  destruct (IH e1 I1 Nd) as (e2 & -> & I2 & S2 & (O2 & P2 & R2)).
  { rewrite Forall_forall in *. intros [b w] Hb. cbn. rewrite O1; [by apply (F _ Hb)|]. intros ->.
    by apply (list_elem_of_fmap_2 fst) in Hb. }
  exists e2. split; [done|]. split; [done|]. split; [by eapply estable_trans|].
  split; [|rewrite P2, P1, R2, R1; split; [by apply filter_due|done]].
  assert (e_config e1 = e_config e) as Ec by apply S1.
  intros b. specialize (O2 b). rewrite Ec in O2. cbn [om_get]. destruct (a =? b) eqn:Eb; bools.
  - subst b. rewrite om_get_keys in O2 by done. by rewrite O2.
  - destruct (om_get m b); [done|]. rewrite O2. apply O1. congruence.
Qed.

(** A packet waits for a neighbour that is being resolved; [live] also allows a neighbour
    that has just been resolved.  The clock has not reached the last [Duration]. *)
Definition resolving_hop (m : list (Z * NeighborState)) (a : Z) : Prop :=
  exists attempts next_probe t, om_get m a = Some (Resolving attempts next_probe t).
Definition live_hop (m : list (Z * NeighborState)) (now a : Z) : Prop :=
  match om_get m a with
  | Some (Resolving _ _ _) => True
  | Some n => neighbor_mac n now <> None
  | None => False
  end.
Definition live e : Prop :=
  e_now e < DURATION_MAX -> Forall (fun p => live_hop (neighbors e) (e_now e) (pd_next_hop p)) (pending e).
Definition waiting e : Prop :=
  e_now e < DURATION_MAX -> Forall (fun p => resolving_hop (neighbors e) (pd_next_hop p)) (pending e).
Lemma waiting_live e now : e_now e <= now -> waiting e -> live (e <| e_now := now |>).
Proof.
  intros Hn W L. cbn in *. eapply Forall_impl; [apply W; lia|]. cbn. intros p (x & y & z & G). unfold live_hop. by rewrite G.
Qed.

(** What [advance] does: entries age, packets whose neighbour timed out are dropped, packets
    whose neighbour is known are framed in their order, the queues are submitted. *)
Definition kept (now : Z) e (p : Pending) : Prop := overdue (neighbors e) now (pd_next_hop p) = false.
#[local] Instance kept_dec now e p : Decision (kept now e p).
Proof. unfold kept. apply _. Defined.
Record advanced (now : Z) e e' : Prop := {
  ad_now : e_now e' = now;
  ad_neighbors a :
    match om_get (neighbors e) a with
    | Some n => aged (e_config e) now n (om_get (neighbors e') a)
    | None => om_get (neighbors e') a = None
    end;
  ad_pending : pending e' = filter (fun p => resolved e' (pd_next_hop p) = None) (filter (kept now e) (pending e));
  ad_ready : exists bs n, ready_ e' = drop n (ready_ e ++ bs)
    /\ Forall2 (framed e') (filter (fun p => resolved e' (pd_next_hop p) <> None) (filter (kept now e) (pending e))) bs
}.
Lemma resolved_same e e' a : neighbors e' = neighbors e -> e_now e' = e_now e -> resolved e' a = resolved e a.
Proof. intros En Et. unfold resolved. by rewrite En, Et. Qed.
Lemma framed_same e e' p b :
  neighbors e' = neighbors e -> e_now e' = e_now e -> e_config e' = e_config e -> framed e p b -> framed e' p b.
Proof. intros En Et Ec (mac & R & A). exists mac. by rewrite (resolved_same e e'), Ec. Qed.

Lemma advanced_waiting now e e' : live (e <| e_now := now |>) -> advanced now e e' -> waiting e'.
Proof.
  intros Lv [En An Ap _] Lt. rewrite En in Lt. specialize (Lv Lt). cbn in Lv. rewrite Forall_forall in *.
  intros p Hp. rewrite Ap, !list_elem_of_filter in Hp. destruct Hp as (Hr & Hk & Hp). specialize (Lv _ Hp).
  specialize (An (pd_next_hop p)). unfold kept, overdue, live_hop, resolved, resolving_hop in *. rewrite En in Hr.
  destruct (om_get (neighbors e) (pd_next_hop p)) as [[mac|mac t|x y t|t]|]; cbn in *; try done.
  - rewrite An in Hr. done.
  - destruct (now <? t) eqn:X; [|done]. bools. rewrite (proj2 (Z.leb_gt _ _)) in An by lia. rewrite An in Hr. cbn in Hr.
    by rewrite (proj2 (Z.ltb_lt _ _)) in Hr by lia.
  - rewrite Hk in An. destruct An as [An|(_ & _ & An)]; rewrite An; eauto.
Qed.

Lemma advanced_from now e e1 e' :
  neighbors e1 = neighbors e -> pending e1 = pending e -> ready_ e1 = ready_ e -> e_config e1 = e_config e ->
  advanced now e1 e' -> advanced now e e'.
Proof.
  intros N P R C [A B Pd Rd].
  assert (filter (kept now e1) (pending e1) = filter (kept now e) (pending e)) as K.
  { rewrite P. apply list_filter_iff. intros p. unfold kept. by rewrite N. }
  rewrite K in Pd, Rd. rewrite R in Rd. constructor; [done| |done|done]. intros a. specialize (B a). by rewrite N, C in B.
Qed.
Lemma now_inv e now held : eth_inv e held -> e_now e <= now -> eth_inv (e <| e_now := now |>) held.
Proof.
  intros I Hn. eapply eth_inv_move; [exact I| |done|done|apply I]. destruct I as [C _ _].
  pose proof (ec_now _ C). pose proof (ec_entries _ C) as F. destruct C. constructor; cbn; try done; [|lia].
  eapply Forall_impl; [exact F|]. intros [a n] [Ha Hx]. split; [done|].
  unfold resolution_end in *. cbn in *. destruct n; cbn in *; try done. lia.
Qed.
Lemma eth_advance_spec now e held :
  eth_inv e held -> e_now e <= now -> live (e <| e_now := now |>) ->
  exists r e', if_advance now e = (r, e') /\ returns r /\ eth_inv e' held
    /\ estable (e <| e_now := now |>) e' /\ advanced now e e' /\ waiting e'.
Proof.
  intros I Hn Lv. unfold if_advance. rewrite (proj2 (Z.ltb_ge _ _)) by lia.
  pose proof (now_inv e now held I Hn) as I0. set (e0 := e <| e_now := now |>) in *.
  destruct (ensure_spare_spec e0 held I0) as (e1 & -> & I1 & S1 & (Q1 & Q2 & Q3 & Q4)). cbn [then_].
  pose proof (ec_sorted _ (ei_core _ _ I1)) as So.
  destruct (advance_all_spec now (neighbors e1) e1 held I1) as (e2 & -> & I2 & S2 & (A2 & P2 & R2)).
  { by apply om_sorted_nodup. }
  { rewrite Forall_forall. intros [a n] Ha. by apply om_elem_get. }
  cbn [then_]. destruct (eth_release_spec e2 held I2) as (bs & e3 & -> & I3 & S3 & N3 & _ & P3 & R3 & F3). cbn [then_].
  destruct (eth_flush_spec e3 held I3) as (r & e4 & -> & Hr & I4 & S4 & (N4 & P4 & (k & m & _ & R4 & _))).
  exists r, e4. split; [done|]. split; [done|]. split; [done|].
  assert (estable e0 e4) as S by (do 3 (eapply estable_trans; [done|]); done). split; [done|].
  enough (advanced now e e4) as A by (split; [done|by eapply advanced_waiting]).
  assert (estable e2 e4) as S' by (by eapply estable_trans). destruct S' as (Ec' & _ & _ & _ & En' & _).
  assert (e_now e4 = now) as Et by (by rewrite (proj1 (proj2 (proj2 (proj2 (proj2 S)))))).
  assert (forall a, resolved e4 a = resolved e2 a) as Hr4 by (intros a; apply resolved_same; congruence).
  assert (pending e2 = filter (kept now e) (pending e)) as Pk.
  { rewrite P2, Q1, Q2. apply list_filter_iff. done. }
  constructor; [done| | |].
  - intros a. specialize (A2 a). assert (e_config e1 = e_config e) as Ec by apply S1.
    rewrite Q1, Ec in A2. change (neighbors e0) with (neighbors e) in A2.
    rewrite N4, N3. destruct (om_get (neighbors e) a) eqn:G; [done|]. by rewrite A2.
  - rewrite P4, P3, Pk. apply list_filter_iff. intros p. by rewrite Hr4.
  - exists bs, m. rewrite R4, R3, R2, Q3. split; [done|]. rewrite Pk in F3.
    apply (Forall2_impl (framed e2)); [|intros p b; apply framed_same; congruence].
    erewrite list_filter_iff; [exact F3|]. intros p. cbn. by rewrite Hr4.
Qed.

(** ** The operations of the [Device] trait *)
Definition eth_ok e (held : list Z) : Prop := eth_inv e held /\ waiting e.
#[export] Instance eth_ok_proper e : Proper ((≡ₚ) ==> iff) (eth_ok e).
Proof. intros h k P. unfold eth_ok. by rewrite P. Qed.
Definition same_device e e' : Prop :=
  dev_pool (e_device e') = dev_pool (e_device e) /\ dev_frame_size (e_device e') = dev_frame_size (e_device e).
Lemma stable_device e e' : estable e e' -> same_device e e'.
Proof. unfold estable, same_device. tauto. Qed.
Lemma waiting_same e e' :
  neighbors e' = neighbors e -> pending e' = pending e -> e_now e' = e_now e -> waiting e -> waiting e'.
Proof. unfold waiting. by intros -> -> ->. Qed.
Lemma logged_ok e e' held : eth_ok e held -> logged e e' -> ecore e' -> eth_ok e' held.
Proof. intros [I W] L C. split; [by eapply logged_inv|]. eapply waiting_same; [..|exact W]; apply L. Qed.

Lemma poll_inner now e held :
  eth_inv e held ->
  exists r e', on_inner (dev_poll_at now) e = (r, e') /\ returns r /\ eth_inv e' held /\ estable e e'
    /\ neighbors e' = neighbors e /\ pending e' = pending e /\ ready_ e' = ready_ e.
Proof.
  intros [C Dv F]. unfold on_inner. destruct (dev_poll_law (e_device e) _ now Dv) as (r & d & -> & Hr & Dv' & P & Z).
  eexists r, _. split; [done|]. split; [done|].
  assert (estable e (e <| e_device := d |>)) as S by (unfold estable; cbn; by rewrite P, Z).
  split; [|done]. constructor; [by apply device_ecore|done|by apply (oks_stable e)].
Qed.
Lemma eth_poll_spec now e held :
  eth_ok e held ->
  exists r e', eth_poll_at now e = (r, e') /\ returns r /\ eth_ok e' held /\ same_device e e'
    /\ (r = Ok tt -> e_now e <= now /\ advanced now e e').
Proof.
  intros [I W]. unfold eth_poll_at.
  destruct (poll_inner now e held I) as (r & e1 & -> & Hr & I1 & S1 & N1 & P1 & R1).
  assert (e_now e1 = e_now e) as T1 by apply S1. assert (e_config e1 = e_config e) as C1 by apply S1.
  assert (waiting e1) as W1 by (by apply (waiting_same e)).
  destruct r as [[]|k| |]; try done; cbn [then_].
  2:{ exists (Err k), e1. do 2 (split; [done|]). split; [done|]. split; [by apply stable_device|done]. }
  destruct (Z_lt_le_dec now (e_now e)) as [Lt|Le].
  { unfold if_advance. rewrite (proj2 (Z.ltb_lt _ _)) by lia. exists (Err InvalidInput), e1.
    do 3 (split; [done|]). split; [by apply stable_device|done]. }
  destruct (eth_advance_spec now e1 held I1) as (r & e2 & -> & Hr2 & I2 & S2 & A2 & W2); [lia|apply waiting_live; [lia|done]|].
  exists r, e2. do 2 (split; [done|]). split; [done|]. split.
  - apply stable_device in S1, S2. unfold same_device in *. cbn in S2. intuition congruence.
  - intros _. split; [done|]. by apply (advanced_from now e e1).
Qed.

Lemma nb_step_live e e' :
  ecore e -> waiting e -> nb_step e e' -> pending e' = pending e -> e_now e' = e_now e -> live e'.
Proof.
  intros C W S Ep En Lt. rewrite Ep, En in *. eapply Forall_impl; [by apply W|]. cbn. intros p (x & y & t & G).
  unfold live_hop. destruct (S (pd_next_hop p)) as [-> |(_ & mac & ->)]; [by rewrite G|]. cbn.
  pose proof (ic_ttl _ (ec_config _ C)). rewrite (proj2 (Z.ltb_lt _ _)); [done|]. unfold dur_add. lia.
Qed.
Lemma advance_now e held :
  eth_inv e held -> live e ->
  exists r e', if_advance (e_now e) e = (r, e') /\ returns r /\ eth_ok e' held /\ same_device e e'
    /\ e_now e' = e_now e /\ advanced (e_now e) e e'.
Proof.
  intros I L. assert (live (e <| e_now := e_now e |>)) as L' by exact L.
  destruct (eth_advance_spec (e_now e) e held I (Z.le_refl _) L') as (r & e' & -> & Hr & I' & S' & A' & W').
  exists r, e'. do 2 (split; [done|]). split; [done|]. split; [exact (stable_device _ _ S')|]. split; [apply A'|done].
Qed.

Lemma drop_spare_spec e held :
  eth_inv e held ->
  exists e', discard (option_list (control_spare e)) (e <| control_spare := None |>) = (Ok tt, e')
    /\ eth_inv e' held /\ estable e e' /\ same_queues e e'.
Proof.
  intros I. pose proof (ei_frames _ _ I) as F. apply Forall_eframes in F as (F1 & F2 & F3 & F4 & F5).
  destruct (discard_spec (option_list (control_spare e)) (e <| control_spare := None |>) held) as (d & -> & I' & S'); [|done|].
  - eapply eth_inv_move; [exact I| |done| |].
    + destruct I as [[] _ _]. by constructor.
    + unfold eframes. cbn. rewrite !owned_app. perm.
    + apply Forall_eframes. cbn. by split_and!.
  - eexists. split; [done|]. split; [done|]. split; [exact S'|done].
Qed.
(** The frames that the device below hands over. *)
Lemma recv_inner max e held r d frames :
  eth_inv e held -> 0 <= max -> dev_recv max (e_device e, e_rx e) = (r, (d, frames)) ->
  let e' := e <| e_device := d |> <| e_rx := frames |> in
  returns r /\ eth_inv e' held /\ same_device e e' /\ zlen frames <= max
  /\ eth_inv (e' <| e_rx := [] |>) (owned frames ++ held) /\ Forall (ok_handle e) frames.
Proof.
  intros [C Dv F] Hm Er e'. pose proof F as G. apply Forall_eframes in G as (G1 & G2 & G3 & G4 & G5).
  set (rest := (pd_frame <$> pending e) ++ ready_ e ++ control e ++ option_list (control_spare e)).
  destruct (dev_recv_law (e_device e) (owned rest ++ held) max (e_rx e)) as (r1 & d1 & fs & E1 & Hr & P & Z & I1 & F1 & L1 & _); [|done|done|].
  { eapply dev_inv_perm; [|exact Dv]. unfold eframes, rest. rewrite !owned_app. perm. }
  rewrite Er in E1. injection E1 as <- <- <-.
  assert (forall l, Forall (ok_handle e) l -> Forall (ok_handle e') l) as Ok_.
  { intros l Hl. eapply Forall_impl; [exact Hl|]. intros b. unfold ok_handle, e'. cbn. by rewrite P, Z. }
  split; [done|]. split; [constructor|split; [done|split; [done|split; [constructor|done]]]].
  - destruct C. by constructor.
  - eapply dev_inv_perm; [|exact I1]. unfold eframes, rest. cbn. rewrite !owned_app. perm.
  - apply Ok_, Forall_eframes. done.
  - destruct C. by constructor.
  - eapply dev_inv_perm; [|exact I1]. unfold eframes, rest. cbn. rewrite !owned_app. perm.
  - apply Ok_, Forall_eframes. cbn. by split_and!.
Qed.

(** What [recv] hands out: IPv4 packets of frames the device below received, in order. *)
Record recv_post e (out : list PacketBuf) (max : Z) (r : outcome Z) e' (out' : list PacketBuf) : Prop := {
  rp_returns : returns r;
  rp_device : same_device e e';
  rp_handles : Forall (ok_handle e) out';
  rp_count : zlen out' <= max;
  rp_result n : r = Ok n -> n = zlen out';
  rp_delivered : 0 < max -> exists e1 e2 below d frames, discard out e = (Ok tt, e1)
    /\ discard (option_list (control_spare e1)) (e1 <| control_spare := None |>) = (Ok tt, e2)
    /\ dev_recv max (e_device e2, e_rx e) = (below, (d, frames))
    /\ match below with
       | Ok _ => as_slice <$> out' = omap (datagram_of e) frames
       | _ => r = below /\ out' = []
       end
}.
Lemma omap_le {A B} (f : A -> option B) l : (length (omap f l) <= length l)%nat.
Proof. induction l as [|x l IH]; [done|]. cbn. destruct (f x); cbn; lia. Qed.
Lemma same_device_trans e1 e2 e3 : same_device e1 e2 -> same_device e2 e3 -> same_device e1 e3.
Proof. unfold same_device. intuition congruence. Qed.
Lemma eth_recv_spec max out e held :
  eth_ok e (owned out ++ held) -> Forall (ok_handle e) out -> 0 <= max ->
  exists r e' out', eth_recv max (e, out) = (r, (e', out')) /\ eth_ok e' (owned out' ++ held)
    /\ recv_post e out max r e' out'.
Proof.
  intros [I W] Ho Hm. unfold eth_recv.
  destruct (discard_spec out e held I Ho) as (d & Ed & I1 & S1). rewrite Ed. cbn [then_].
  set (e1 := e <| e_device := d |>) in *. assert (waiting e1) as W1 by exact W.
  destruct (max =? 0) eqn:Ez; bools.
  { destruct (advance_now e1 held I1) as (r & e2 & -> & Hr & I2 & S2 & _).
    { apply (waiting_live e1 (e_now e1)); [lia|done]. }
    assert (same_device e e2) as Sd by (eapply same_device_trans; [by apply stable_device|done]).
    destruct r as [[]|k| |]; try done; cbn [then_]; eexists _, e2, []; (split; [done|]); (split; [done|]); constructor; try done; try lia; try (by intros n [= <-]). }
  destruct (drop_spare_spec e1 held I1) as (e2 & E2 & I2 & S2 & (N2 & P2 & _)). rewrite E2. cbn [then_].
  assert (estable e e2) as S12 by (by eapply estable_trans).
  assert (e_rx e2 = e_rx e) as Rx by apply S12.
  assert (waiting e2) as W2 by (apply (waiting_same e1); [done|done|apply S2|done]).
  destruct (dev_recv max (e_device e2, e_rx e2)) as [r [d3 frames]] eqn:E3.
  destruct (recv_inner max e2 held r d3 frames I2 Hm E3) as (Hr & I3 & S3 & L3 & I4 & F4). rewrite Rx in E3.
  set (e3 := e2 <| e_device := d3 |> <| e_rx := frames |>) in *.
  destruct r as [n|k| |]; try done; cbn [then_].
  2:{ exists (Err k), e3, []. split; [done|]. split; [done|]. constructor; try done.
      - eapply same_device_trans; [by apply stable_device|done].
      - intros _. exists e1, e2, (Err k), d3, frames. done. }
  change (e_rx e3) with frames. set (e4 := e3 <| e_rx := [] |>) in *.
  assert (forall b, ok_handle e b <-> ok_handle e4 b) as Ok_.
  { intros b. apply stable_device in S12. unfold ok_handle. destruct S12 as [A B], S3 as [A' B'].
    unfold e4. cbn in *. by rewrite A', B', A, B. }
  destruct (receive_frames_spec frames [] e4 held) as (out' & e5 & -> & I5 & S5 & F5 & P5 & _ & X5 & Eo).
  { exact I4. }
  { eapply Forall_impl; [exact F4|]. intros b Hb. apply Ok_. destruct S12 as (_ & _ & _ & _ & _ & A & B).
    unfold ok_handle in *. by rewrite <- A, <- B. }
  { constructor. }
  cbn [fmap list_fmap app] in Eo. cbn [then_].
  rewrite (datagrams_stable e e4) in Eo by apply S12.
  assert (live e5) as Lv by (apply (nb_step_live e4); [apply I4|exact W2|done|done|apply S5]).
  destruct (advance_now e5 _ I5 Lv) as (r6 & e6 & -> & Hr6 & I6 & S6 & _).
  assert (recv_post e out max (match r6 with Ok _ => Ok (zlen out') | Err k => Err k | _ => Panic end) e6 out') as Post.
  { constructor.
    - by destruct r6.
    - eapply same_device_trans; [by apply stable_device|]. eapply same_device_trans; [exact S3|].
      eapply same_device_trans; [exact (stable_device e4 e5 S5)|done].
    - eapply Forall_impl; [exact F5|]. intros b. apply Ok_.
    - apply (f_equal length) in Eo. rewrite length_fmap in Eo. pose proof (omap_le (datagram_of e) frames). unfold zlen in *. lia.
    - destruct r6; congruence.
    - intros _. exists e1, e2, (Ok n), d3, frames. done. }
  destruct r6 as [[]|k| |]; try done; cbn [then_]; eexists _, e6, out'; done.
Qed.

(** *** Sending *)
Lemma check_send_spec f e :
  ok_handle e f ->
  (exists k e', check_send f e = (Err k, e') /\ logged e e' /\ (ecore e -> ecore e'))
  \/ check_send f e = (Ok tt, e) /\ framable f
     /\ exists d, read32 (as_slice f) 16 = Ok d /\ 0 <= d < W32
          /\ (broadcast e d = true \/ is_Some (route_lookup (routes e) d)).
Proof.
  intros Hf. pose proof (handle_bytes _ _ _ Hf) as Bf. unfold check_send.
  assert (exists k e', (Err InvalidInput : outcome unit, e) = (Err k, e') /\ logged e e' /\ (ecore e -> ecore e')) as Bad
    by (eexists _, e; done).
  destruct (ipv4_spec _ Bf) as [-> |(s & d & t & -> & _ & _ & _ & Hd & Rd)]; [by left|].
  destruct (_ || _) eqn:Ec; [by left|]. rewrite !orb_false_iff in Ec. destruct Ec as ((_ & Eo) & Et). bools.
  assert (framable f) as Hfr by (unfold framable; lia).
  destruct (broadcast e d) eqn:Eb; [right; split; [done|split; [done|]]; exists d; auto|].
  destruct (route_lookup (routes e) d) as [rt|] eqn:Er.
  2:{ left. eexists _, _. split; [done|]. split; [eapply logged_trans; [|apply event_logged]; done|].
      intros C. by apply event_ecore, bump_ecore. }
  assert ((Ok tt, e) = (Ok tt : outcome unit, e) /\ framable f /\ exists d0, read32 (as_slice f) 16 = Ok d0 /\ 0 <= d0 < W32
    /\ (broadcast e d0 = true \/ is_Some (route_lookup (routes e) d0))) as Good.
  { split; [done|]. split; [done|]. exists d. rewrite Er. eauto. }
  destruct (_ || _); [by left|]. destruct (om_get _ _) as [[]|]; try (by right).
  destruct (_ <? _); [left; by eexists _, e|by right].
Qed.
(** A packet that passed the checks; this depends on the configuration and routes only. *)
Definition sendable e (f : PacketBuf) : Prop :=
  framable f /\ exists d, read32 (as_slice f) 16 = Ok d /\ 0 <= d < W32
    /\ (broadcast e d = true \/ is_Some (route_lookup (routes e) d)).
Lemma check_all_spec fs e :
  Forall (ok_handle e) fs ->
  (exists k e', check_all fs e = (Err k, e') /\ logged e e' /\ (ecore e -> ecore e'))
  \/ check_all fs e = (Ok tt, e) /\ Forall (sendable e) fs.
Proof.
  induction fs as [|f fs IH]; intros F; cbn [check_all]; [by right|]. apply Forall_cons in F as [Hf F].
  destruct (check_send_spec f e Hf) as [(k & e' & -> & L & C)|[-> X]]; cbn [then_]; [left; by exists k, e'|].
  destruct (IH F) as [Bad|[-> G]]; [by left|]. right. split; [done|by constructor].
Qed.

(** Where a packet goes: its next hop, or every host of the link. *)
Inductive target : Type := Everyone | Hop (hop : Z).
Definition routed e (f : PacketBuf) (t : target) : Prop :=
  exists d, read32 (as_slice f) 16 = Ok d
    /\ match t with
       | Everyone => broadcast e d = true
       | Hop hop => broadcast e d = false /\ exists rt, route_lookup (routes e) d = Some rt /\ hop = next_hop rt d
       end.
Definition link_address e (t : target) : option (list Z) :=
  match t with Everyone => Some BROADCAST | Hop hop => resolved e hop end.
(** An accepted packet is framed at the end of [ready], or waits at the end of [pending]
    for a neighbour that is now being resolved. *)
Definition queued e (f : PacketBuf) e' : Prop :=
  exists t, routed e f t
    /\ match link_address e t with
       | Some mac =>
           exists b, ready_ e' = ready_ e ++ [b] /\ pending e' = pending e /\ neighbors e' = neighbors e
             /\ as_slice b = header_bytes (mkHeader mac (if_mac (e_config e)) ETH_IPV4) ++ as_slice f
                             ++ padding (HEADER + buf_len f)
       | None =>
           exists hop, t = Hop hop /\ ready_ e' = ready_ e /\ pending e' = pending e ++ [mkPending hop f]
             /\ resolving_hop (neighbors e') hop
             /\ (forall a, a <> hop -> om_get (neighbors e') a = om_get (neighbors e) a)
             /\ (resolving_hop (neighbors e) hop -> neighbors e' = neighbors e)
       end.
(** Why an accepting loop stops early. *)
Definition no_room e (f : PacketBuf) : Prop :=
  exists hop, routed e f (Hop hop) /\ resolved e hop = None
    /\ (per_neighbor_capacity (e_config e) <= zlen (filter (fun p => pd_next_hop p = hop) (pending e))
        \/ om_get (neighbors e) hop = None /\ zlen (neighbors e) = neighbor_capacity (e_config e)).

Lemma queued_waiting e f e' : e_now e' = e_now e -> queued e f e' -> waiting e -> waiting e'.
Proof.
  intros En (t & _ & Q) W L. rewrite En in L. specialize (W L). destruct (link_address e t) as [mac|].
  - destruct Q as (b & _ & -> & -> & _). done.
  - destruct Q as (hop & -> & _ & -> & R & O & _). apply Forall_app. split; [|by constructor].
    eapply Forall_impl; [exact W|]. cbn. intros p Hp. destruct (decide (pd_next_hop p = hop)) as [-> |Ne]; [done|].
    unfold resolving_hop in *. by rewrite O.
Qed.
(** Appending one frame to [ready]. *)
Lemma ready_push f b e held :
  eth_inv e (owned [f] ++ held) -> ok_handle e b -> buf_idx b = buf_idx f -> buf_pool b = buf_pool f ->
  zlen (pending e) + zlen (ready_ e) < tx_capacity (e_config e) ->
  eth_inv (e <| ready_ ::= fun l => l ++ [b] |>) held.
Proof.
  intros I Hb Ix Po Lt. assert (owned [b] = owned [f]) as Ob by (unfold owned; cbn; by rewrite Ix, Po).
  pose proof (ei_frames _ _ I) as F. apply Forall_eframes in F as (F1 & F2 & F3 & F4 & F5).
  eapply eth_inv_move; [exact I| |done| |].
  - destruct I as [[] _ _]. constructor; cbn; try done. rewrite zlen_app, zlen_cons, zlen_nil. lia.
  - unfold eframes. cbn -[owned]. rewrite !owned_app, Ob. perm.
  - apply Forall_eframes. cbn. split_and!; try done. apply Forall_app. split; [done|by constructor].
Qed.
Lemma pending_push hop f e held :
  eth_inv e (owned [f] ++ held) -> ok_handle e f -> framable f ->
  zlen (pending e) + zlen (ready_ e) < tx_capacity (e_config e) ->
  eth_inv (e <| pending ::= fun l => l ++ [mkPending hop f] |>) held.
Proof.
  intros I Hf Fr Lt. pose proof (ei_frames _ _ I) as F. apply Forall_eframes in F as (F1 & F2 & F3 & F4 & F5).
  eapply eth_inv_move; [exact I| |done| |].
  - destruct I as [[] _ _]. constructor; cbn; try done; [rewrite zlen_app, zlen_cons, zlen_nil; lia|].
    apply Forall_app. split; [done|by constructor].
  - unfold eframes. cbn -[owned]. rewrite fmap_app, !owned_app. change (pd_frame <$> [mkPending hop f]) with [f]. perm.
  - apply Forall_eframes. cbn. rewrite fmap_app. split_and!; try done. apply Forall_app. split; [done|by constructor].
Qed.
Lemma hop_range e d rt : ecore e -> 0 <= d < W32 -> route_lookup (routes e) d = Some rt -> 0 <= next_hop rt d < W32.
Proof.
  intros C Hd R. unfold next_hop. destruct (gateway rt) as [a|] eqn:G; [|done]. cbn.
  pose proof (ec_routes _ C) as F. rewrite Forall_forall in F. unfold route_lookup in R.
  pose proof (max_by_key_spec prefix_len (filter (fun r => contains r d = true) (entries (routes e)))) as M.
  rewrite R in M. destruct M as [M _]. apply list_elem_of_filter in M as [_ Hin].
  specialize (F _ Hin). unfold gateway_ok in F. by rewrite G in F.
Qed.

(** The neighbour entry of a packet that has to wait. *)
Definition start_resolution (hop : Z) e : E :=
  match om_get (neighbors e) hop with
  | Some (Resolving _ _ _) => e
  | _ => e <| neighbors ::= fun m => om_insert m hop
                (Resolving 0 (e_now e) (dur_add (e_now e) (resolution_timeout (e_config e)))) |>
  end.
Lemma start_spec hop e held :
  eth_inv e held -> 0 <= hop < W32 ->
  (om_get (neighbors e) hop = None -> zlen (neighbors e) < neighbor_capacity (e_config e)) ->
  let e' := start_resolution hop e in
  eth_inv e' held /\ estable e e' /\ pending e' = pending e /\ ready_ e' = ready_ e
  /\ resolving_hop (neighbors e') hop /\ (forall a, a <> hop -> om_get (neighbors e') a = om_get (neighbors e) a)
  /\ (resolving_hop (neighbors e) hop -> neighbors e' = neighbors e).
Proof.
  intros I Hh Hc. cbv zeta. unfold start_resolution. set (res := Resolving 0 _ _).
  assert ((resolving_hop (neighbors e) hop -> False) -> let e' := e <| neighbors ::= fun m => om_insert m hop res |> in
    eth_inv e' held /\ estable e e' /\ pending e' = pending e /\ ready_ e' = ready_ e
    /\ resolving_hop (neighbors e') hop /\ (forall a, a <> hop -> om_get (neighbors e') a = om_get (neighbors e) a)
    /\ (resolving_hop (neighbors e) hop -> neighbors e' = neighbors e)) as New.
  { intros Nr. split.
    - apply insert_inv; [done| |done]. split; [done|]. cbn. unfold resolution_end, dur_add. lia.
    - do 3 (split; [done|]). split; [eexists _, _, _; cbn; by rewrite om_get_insert, Z.eqb_refl|]. split; [|done].
      intros a Ha. cbn. rewrite om_get_insert. by rewrite (proj2 (Z.eqb_neq hop a)) by congruence. }
  unfold resolving_hop in *. destruct (om_get (neighbors e) hop) as [[]|] eqn:G;
    try (apply New; intros (? & ? & ? & ?); congruence).
  split; [done|]. do 3 (split; [done|]). split; [by eauto|done].
Qed.
Lemma accept_one_spec f e held :
  eth_inv e (owned [f] ++ held) -> ok_handle e f -> sendable e f ->
  zlen (pending e) + zlen (ready_ e) < tx_capacity (e_config e) ->
  (accept_one f e = (Ok false, e) /\ no_room e f)
  \/ exists e', accept_one f e = (Ok true, e') /\ eth_inv e' held /\ estable e e' /\ queued e f e'
       /\ zlen (pending e') + zlen (ready_ e') = zlen (pending e) + zlen (ready_ e) + 1.
Proof.
  intros I Hf [Fr (d & Rd & Hd & Hr)] Lt. unfold accept_one. rewrite Rd.
  pose proof (ei_core _ _ I) as C. pose proof (ic_mac _ (ec_config _ C)) as Hm.
  destruct (broadcast e d) eqn:Eb.
  { right. assert (mac_ok BROADCAST) as Hb by (split; [done|]; repeat constructor; unfold is_byte; lia).
    destruct (prepend_handle _ _ f (if_mac (e_config e)) BROADCAST ETH_IPV4 Hf Fr Hm Hb) as (b & -> & Hb' & Ab & Ix & Po).
    eexists. split; [done|]. split; [by eapply ready_push|]. split; [done|]. split.
    - exists Everyone. split; [by exists d|]. cbn. by exists b.
    - cbn. rewrite zlen_app, zlen_cons, zlen_nil. lia. }
  destruct Hr as [Hr|[rt Er]]; [done|]. rewrite Er. cbv zeta. set (hop := next_hop rt d). set (ev := RouteSelected d hop rt).
  assert (routed e f (Hop hop)) as Rt by (exists d; split; [done|]; split; [done|]; by exists rt).
  destruct (resolved e hop) as [mac|] eqn:Em.
  { right. destruct (prepend_handle _ _ f (if_mac (e_config e)) mac ETH_IPV4 Hf Fr Hm (resolved_mac _ _ _ C Em)) as (b & -> & Hb' & Ab & Ix & Po).
    pose proof (event_logged ev e) as L. pose proof (event_inv ev e _ I) as I1. set (e1 := if_event ev e) in *. clearbody e1.
    pose proof (logged_stable _ _ L) as S1. destruct L as (_ & C1 & _ & _ & N1 & P1 & R1 & _).
    eexists. split; [done|]. split; [eapply ready_push; [exact I1|by apply (ok_stable e)|done|done|congruence]|].
    split; [exact S1|]. cbn. rewrite R1, P1. split.
    - exists (Hop hop). split; [done|]. cbn. rewrite Em. exists b. cbn. by rewrite N1.
    - rewrite zlen_app, zlen_cons, zlen_nil. lia. }
  destruct (_ || _) eqn:Ec.
  { left. split; [done|]. exists hop. split; [done|]. split; [done|].
    apply orb_true_iff in Ec as [Ec|Ec]; bools; [by left|right]. destruct Ec as [Ec1 Ec2]. split; [|done].
    apply bool_decide_eq_false in Ec1. by apply eq_None_not_Some. }
  right. apply orb_false_iff in Ec as [_ Ec].
  destruct (start_spec hop e _ I) as (I1 & S1 & P1 & R1 & H1 & O1 & T1).
  { by eapply hop_range. }
  { intros En. rewrite En in Ec. cbn in Ec. bools. pose proof (ec_neighbors _ C). lia. }
  fold (start_resolution hop e). set (e1 := start_resolution hop e) in *. clearbody e1.
  pose proof (event_logged ev e1) as L2. pose proof (event_inv ev e1 _ I1) as I2. set (e2 := if_event ev e1) in *. clearbody e2.
  pose proof (estable_trans _ _ _ S1 (logged_stable _ _ L2)) as S2. destruct L2 as (_ & C2 & _ & _ & N2 & P2 & R2 & _).
  assert (e_config e1 = e_config e) as C1 by apply S1.
  pose proof (pending_push hop f e2 held I2 (ok_stable _ _ _ S2 Hf) Fr) as I3.
  rewrite P2, R2, P1, R1, C2, C1 in I3. specialize (I3 Lt).
  set (e3 := e2 <| pending ::= _ |>) in *. pose proof (event_logged (QueuedForNeighbor hop) e3) as L4.
  pose proof (logged_stable _ _ L4) as S4.
  eexists. split; [done|]. split; [by apply event_inv|]. split; [eapply estable_trans; [exact S2|exact S4]|].
  unfold queued. destruct L4 as (_ & _ & _ & _ & -> & -> & -> & _). unfold e3. cbn. rewrite P2, R2, N2, P1, R1.
  split; [|rewrite zlen_app, zlen_cons, zlen_nil; lia].
  exists (Hop hop). split; [done|]. cbn. rewrite Em. by exists hop.
Qed.

Lemma sendable_stable e e' f : estable e e' -> sendable e f -> sendable e' f.
Proof. intros (Ec & _ & Er & _). unfold sendable, broadcast. by rewrite Ec, Er. Qed.
(** The accepted packets, one after the other. *)
Inductive queued_all : E -> list PacketBuf -> E -> Prop :=
| qa_nil e : queued_all e [] e
| qa_cons e f e1 fs e2 : queued e f e1 -> e_now e1 = e_now e -> queued_all e1 fs e2 -> queued_all e (f :: fs) e2.
Lemma queued_all_waiting e fs e' : queued_all e fs e' -> waiting e -> waiting e'.
Proof. induction 1; [done|]. intros W. by eapply IHqueued_all, queued_waiting. Qed.
Lemma accept_all_spec fs e held :
  eth_inv e (owned fs ++ held) -> Forall (ok_handle e) fs -> Forall (sendable e) fs ->
  zlen (pending e) + zlen (ready_ e) + zlen fs <= tx_capacity (e_config e) ->
  exists n e', accept_all fs e = (Ok n, e') /\ (n <= length fs)%nat /\ eth_inv e' (owned (drop n fs) ++ held)
    /\ estable e e' /\ queued_all e (take n fs) e' /\ (forall f, fs !! n = Some f -> no_room e' f).
Proof.
  revert e. induction fs as [|f fs IH]; intros e I Ho Hs Hl; cbn [accept_all].
  { exists 0%nat, e. split_and!; try done. constructor. }
  apply Forall_cons in Ho as [Hf Ho]. apply Forall_cons in Hs as [Hsf Hs]. rewrite zlen_cons in Hl.
  pose proof (zlen_nonneg fs). rewrite owned_cons, <- app_assoc in I.
  destruct (accept_one_spec f e (owned fs ++ held) I Hf Hsf) as [[-> Hn]|(e1 & -> & I1 & S1 & Q1 & L1)]; [lia|cbn [then_]..].
  { exists 0%nat, e. split; [done|]. split; [lia|]. rewrite drop_0, owned_cons, <- app_assoc.
    split; [done|]. split; [apply estable_refl|]. split; [constructor|]. by intros f' [= <-]. }
  assert (e_config e1 = e_config e) as Ec by apply S1.
  destruct (IH e1 I1) as (n & e2 & -> & Hn & I2 & S2 & Q2 & Z2).
  - by apply (oks_stable e).
  - eapply Forall_impl; [exact Hs|]. intros b. by apply sendable_stable.
  - rewrite Ec. lia.
  - cbn [then_]. exists (S n), e2. split; [done|]. split; [cbn; lia|]. split; [exact I2|].
    split; [by eapply estable_trans|]. split; [|done]. cbn. econstructor; [done|apply S1|done].
Qed.
(** [send]: an error leaves the packets with the caller and the queues as they were; a
    result [n] takes the first [n] packets in their order, and says why it stopped. *)
Inductive sent e (frames : list PacketBuf) : outcome Z -> E -> list PacketBuf -> Prop :=
| sent_error k e' : logged e e' -> sent e frames (Err k) e' frames
| sent_some n e1 e' :
    (n <= length frames)%nat -> queued_all e (take n frames) e1 -> logged e1 e' ->
    (forall f, frames !! n = Some f ->
       tx_capacity (e_config e) <= zlen (pending e) + zlen (ready_ e) + Z.of_nat n \/ no_room e1 f) ->
    sent e frames (Ok (Z.of_nat n)) e' (replicate n packet_default ++ drop n frames).
Lemma eth_send_spec frames e held :
  eth_ok e (owned frames ++ held) -> Forall (ok_handle e) frames ->
  exists r e' frames', eth_send (e, frames) = (r, (e', frames')) /\ eth_ok e' (owned frames' ++ held)
    /\ same_device e e' /\ sent e frames r e' frames'.
Proof.
  intros Ok_ F. pose proof (proj1 Ok_) as I. pose proof (ei_core _ _ I) as C. unfold eth_send.
  destruct (configured e); cbn [negb].
  2:{ exists (Err AddrNotAvailable), e, frames. do 3 (split; [done|]). by constructor. }
  pose proof (ec_tx _ C) as Tx. pose proof (ic_tx _ (ec_config _ C)) as Tc.
  pose proof (zlen_nonneg (pending e)). pose proof (zlen_nonneg (ready_ e)). pose proof (zlen_nonneg frames).
  rewrite Z.mod_small by (unfold W64 in *; lia). cbv zeta. set (room := tx_capacity (e_config e) - _ - _).
  set (k := Z.to_nat (Z.min room (zlen frames))).
  assert (k <= length frames)%nat as Hk by (unfold k, zlen in *; lia).
  assert (Forall (ok_handle e) (take k frames)) as Fk by (by apply Forall_take).
  destruct (check_all_spec (take k frames) e Fk) as [(x & e' & -> & L & Ce)|[-> Sk]]; cbn [then_].
  { exists (Err x), e', frames. split; [done|]. split; [eapply logged_ok; [exact Ok_|done|auto]|].
    split; [by apply stable_device, logged_stable|by constructor]. }
  destruct (accept_all_spec (take k frames) e (owned (drop k frames) ++ held)) as (n & e1 & -> & Hn & I1 & S1 & Q1 & Z1).
  { rewrite app_assoc, <- owned_app, take_drop. exact I. }
  { done. }
  { done. }
  { unfold zlen in *. rewrite length_take. unfold room in *. lia. }
  cbn [then_]. rewrite length_take in Hn.
  rewrite app_assoc, <- owned_app, drop_take_drop in I1 by lia.
  rewrite take_take, Nat.min_l in Q1 by lia.
  assert (eth_ok e1 (owned (replicate n packet_default ++ drop n frames) ++ held)) as Ok1.
  { split; [|by eapply queued_all_waiting; [|apply Ok_]]. by rewrite owned_app, owned_defaults. }
  match goal with |- context [if ?c then if_event ?v (bump ?g e1) else e1] => 
    assert (logged e1 (if c then if_event v (bump g e1) else e1) /\ ecore (if c then if_event v (bump g e1) else e1)) as [L2 C2] end.
  { destruct (_ <? _); [|split; [done|apply I1]].
    split; [eapply logged_trans; [|apply event_logged]; done|apply event_ecore, bump_ecore, I1]. }
  eexists _, _, _. split; [done|]. split; [|split].
  - eapply logged_ok; [exact Ok1| |by apply bump_ecore]. eapply logged_trans; [exact L2|done].
  - eapply same_device_trans; [by apply stable_device|]. apply stable_device, logged_stable. eapply logged_trans; [exact L2|done].
  - econstructor; [lia|exact Q1|eapply logged_trans; [exact L2|done]|].
    intros f Hf. destruct (decide (n < k)%nat) as [Lt|Ge].
    + right. apply Z1. by rewrite lookup_take_lt.
    + left. apply lookup_lt_Some in Hf. unfold k, room, zlen in *. lia.
Qed.

(** *** Allocating and dropping *)
Lemma eth_alloc_spec e held :
  eth_ok e held ->
  exists r e', eth_alloc e = (Ok r, e') /\ estable e e' /\ same_queues e e'
    /\ match r with
       | Some b => eth_ok e' (owned [b] ++ held) /\ ok_handle e b
                   /\ buf_pool b = Some (dev_pool (e_device e)) /\ spare_ok b
       | None => eth_ok e' held
       end.
Proof.
  intros [I W]. unfold eth_alloc. destruct (ensure_spare_spec e held I) as (e1 & -> & I1 & S1 & Q1). cbn [then_].
  assert (forall e2, same_queues e1 e2 -> estable e1 e2 -> estable e e2 /\ same_queues e e2 /\ waiting e2) as Next.
  { intros e2 Q2 S2. pose proof (estable_trans _ _ _ S1 S2) as S. split; [done|].
    assert (same_queues e e2) as Q by (unfold same_queues in *; intuition congruence). split; [done|].
    eapply waiting_same; [apply Q|apply Q|apply S|done]. }
  destruct (Next e1) as (_ & _ & W1); [done|apply estable_refl|].
  destruct (control_spare e1) as [sp|]; [|by exists None, e1].
  unfold on_inner. destruct (alloc_inner e1 held I1) as (r & d & -> & S2 & Hr). cbn [then_].
  destruct (Next (e1 <| e_device := d |>)) as (S3 & Q3 & W3); [done|done|].
  destruct r as [b|]; [|by eexists None, _]. destruct Hr as (I2 & Hb & Hp).
  destruct (prepare_empty_spec _ _ b Hb) as [-> |(b' & -> & Hb' & So & Ix & Po)].
  - destruct (discard_spec [b] (e1 <| e_device := d |>) held I2) as (d' & -> & I4 & S4).
    { constructor; [by apply (ok_stable e1)|constructor]. }
    cbn [then_]. eexists None, _. split; [done|].
    destruct (Next (e1 <| e_device := d |> <| e_device := d' |>)) as (S5 & Q5 & W5); [done|by eapply estable_trans|]. done.
  - eexists (Some b'), _. split; [done|]. split; [done|]. split; [done|].
    destruct S1 as (_ & _ & _ & _ & _ & E1 & E2). unfold ok_handle in *. rewrite <- E1, <- E2, Po.
    split; [|done]. split; [|done]. unfold owned in *. cbn in *. by rewrite Ix, Po.
Qed.
Lemma eth_drop_spec b e held :
  eth_ok e (owned [b] ++ held) -> ok_handle e b ->
  exists e', dev_drop b e = (Ok tt, e') /\ eth_ok e' held /\ estable e e' /\ same_queues e e'.
Proof.
  intros [I W] Hb. destruct (discard_spec [b] e held I) as (d & E & I' & S'); [by constructor|].
  unfold discard, on_inner, drop_all in E. cbn [dev_drop ethernet_device]. unfold on_inner.
  destruct (dev_drop b (e_device e)) as [[[]|k| |] d0]; cbn [then_] in E; injection E as E; subst; try done.
  eexists. split; [done|]. done.
Qed.

#[export] Instance ethernet_laws : DeviceLaws (EthernetIpv4 D).
Proof.
  refine {| dev_pool := fun e => dev_pool (e_device e); dev_inv := eth_ok |}.
  - intros e h k P. by rewrite P.
  - intros e held I. destruct (eth_alloc_spec e held I) as (r & e' & E & S & _ & Hr). exists r, e'.
    split; [exact E|]. apply stable_device in S as [Sp Sz]. split; [done|]. split; [done|].
    destruct r as [b|]; [|done]. destruct Hr as (I' & Hb & Hp & (_ & Hl)). rewrite (owned_one _ _ Hp) in I'. done.
  - intros e held b I Hb. destruct (eth_drop_spec b e held I Hb) as (e' & E & I' & S & _). exists e'.
    apply stable_device in S as [Sp Sz]. done.
  - intros e held frames I F. destruct (eth_send_spec frames e held I F) as (r & e' & fs & E & I' & [Sp Sz] & X).
    exists r, e', fs. split; [exact E|]. do 3 (split; [done|]). destruct X as [k e' _|n e1 e' Hn _ _ _]; [done|].
    unfold zlen. rewrite Nat2Z.id. split; [lia|done].
  - intros e held max out I Hm F. destruct (eth_recv_spec max out e held I F Hm) as (r & e' & out' & E & I' & [Hr [Sp Sz] Fo Hc Hx _]).
    exists r, e', out'. split; [exact E|]. split_and!; try done. destruct r; auto.
  - intros e held now I. destruct (eth_poll_spec now e held I) as (r & e' & E & Hr & I' & [Sp Sz] & _). by exists r, e'.
Defined.
End Step.
