(* ===== verification/InterfaceProps.v ===== *)
(** * The Ethernet/IPv4 interface: configuration and correctness *)
From Stdlib Require Import ZArith Lia Bool.
From stdpp Require Import base numbers option list sorting relations.
From S2P Require Import Prelude Checksum BufferPool Addr Ethernet Route Device Loopback OrdMap.
From S2P Require Import Interface InterfaceInv InterfaceStep.
#[local] Open Scope Z_scope.

Section Config.
Context {D : Type} `{DeviceLaws D}.
Notation E := (EthernetIpv4 D).
Implicit Types e : EthernetIpv4 D.

(** ** Discarding what is queued *)
Definition emptied e e' : Prop :=
  pending e' = [] /\ ready_ e' = [] /\ control e' = []
  /\ neighbors e' = om_retain (fun n => negb (is_resolving n)) (neighbors e).
Lemma empty_waiting e : pending e = [] -> waiting e.
Proof. intros E _. by rewrite E. Qed.
Lemma discard_queued_spec e held :
  eth_inv e held ->
  exists e', discard_queued e = (Ok tt, e') /\ eth_ok e' held /\ estable e e' /\ emptied e e'.
Proof.
  intros I. unfold discard_queued. pose proof (ei_frames _ _ I) as F. apply Forall_eframes in F as (F1 & F2 & F3 & F4 & F5).
  set (frames := (pd_frame <$> pending e) ++ ready_ e ++ control e). cbv zeta.
  set (e0 := e <| pending := [] |> <| ready_ := [] |> <| control := [] |>).
  destruct (discard_spec frames e0 held) as (d & -> & I1 & S1).
  { eapply eth_inv_move; [exact I| |done| |].
    - pose proof (ec_config _ (ei_core _ _ I)) as K. pose proof (ic_tx _ K). pose proof (ic_control _ K).
      destruct I as [[] _ _]. constructor; cbn; try done; change (0 + 0 <= tx_capacity (e_config e)); lia.
    - unfold eframes, frames. cbn -[owned]. rewrite !owned_app. perm.
    - apply Forall_eframes. cbn. by split_and!. }
  { unfold frames. rewrite !Forall_app. done. }
  cbn [then_]. eexists. split; [done|].
  match goal with |- context [if_event ?v ?x] => pose proof (event_logged v x) as L; assert (eth_inv (if_event v x) held) as I2;
    [|set (e2 := if_event v x) in *; clearbody e2] end.
  { apply event_inv, bump_inv, sub_inv; [done|]. apply om_retain_sublist. }
  pose proof (logged_stable _ _ L) as S2. destruct L as (_ & _ & _ & _ & N2 & P2 & R2 & C2 & _).
  split; [split; [done|by apply empty_waiting]|]. split; [|done].
  eapply estable_trans; [exact S1|exact S2].
Qed.

(** ** Changing routes, neighbours and addresses *)
Lemma routes_inv e t held : eth_inv e held -> Forall gateway_ok (entries t) -> eth_inv (e <| routes := t |>) held.
Proof. intros [C Dv F] R. constructor; [|exact Dv|exact F]. destruct C. by constructor. Qed.
Lemma route_insert_ok t r o t' :
  Forall gateway_ok (entries t) -> gateway_ok r -> route_insert t r = (o, t') -> returns o /\ Forall gateway_ok (entries t').
Proof.
  intros F Hr. unfold route_insert. pose proof (replace_route_spec (entries t) r) as R.
  destruct (replace_route (entries t) r) as [rs|].
  - destruct R as (l1 & old & l2 & El & -> & _). intros [= <- <-]. split; [done|]. cbn. rewrite El in F.
    rewrite !Forall_app, !Forall_cons in *. tauto.
  - destruct (_ =? _); intros [= <- <-]; (split; [done|]); [done|]. cbn. apply Forall_app. split; [done|by constructor].
Qed.
Lemma add_route_spec r e held :
  eth_ok e held -> gateway_ok r ->
  exists o e', add_route r e = (o, e') /\ returns o /\ eth_ok e' held /\ same_device e e'.
Proof.
  intros [I W] Hr. unfold add_route. destruct (match gateway r with Some _ => _ | None => _ end).
  { exists (Err InvalidInput), e. by do 3 (split; [done|]). }
  destruct (route_insert (routes e) r) as [o t] eqn:Er.
  destruct (route_insert_ok _ _ _ _ (ec_routes _ (ei_core _ _ I)) Hr Er) as [Ho Ft].
  pose proof (routes_inv e t held I Ft) as I1. destruct o as [[]|k| |]; try done; cbn [then_].
  - destruct (discard_queued_spec _ _ I1) as (e' & -> & I' & S' & _). exists (Ok tt), e'.
    do 3 (split; [done|]). by apply stable_device in S'.
  - eexists _, _. split; [done|]. split; [done|]. split; [|done]. by split.
Qed.
Lemma set_gateway_spec a e held :
  eth_ok e held -> 0 <= a < W32 ->
  exists o e', set_gateway a e = (o, e') /\ returns o /\ eth_ok e' held /\ same_device e e'.
Proof.
  intros Ok_ Ha. unfold set_gateway, route_new. destruct (_ || _).
  - exists (Err InvalidInput), e. by do 3 (split; [done|]).
  - by apply add_route_spec.
Qed.
Lemma remove_route_spec a p e held :
  eth_ok e held ->
  exists o e', remove_route a p e = (o, e') /\ returns o /\ eth_ok e' held /\ same_device e e'.
Proof.
  intros [I W]. unfold remove_route, route_remove, route_new. destruct (_ || _).
  { cbn [then_ recast obind]. eexists _, _. split; [done|]. split; [done|]. split; [|done]. split; [|done].
    apply routes_inv; [done|]. apply I. }
  cbn [then_]. match goal with |- context [e <| routes := ?t |>] => assert (eth_inv (e <| routes := t |>) held) as I1 end.
  { apply routes_inv; [done|]. cbn. eapply sublist_Forall; [apply sublist_filter|apply I]. }
  destruct (negb _).
  - destruct (discard_queued_spec _ _ I1) as (e' & -> & I' & S' & _). cbn [then_]. exists (Ok true), e'.
    do 3 (split; [done|]). by apply stable_device in S'.
  - eexists _, _. split; [done|]. split; [done|]. split; [|done]. by split.
Qed.
Lemma remove_neighbor_spec a e held :
  eth_ok e held ->
  exists o e', remove_neighbor a e = (o, e') /\ returns o /\ eth_ok e' held /\ same_device e e'.
Proof.
  intros [I W]. unfold remove_neighbor. destruct (om_get (neighbors e) a); [|by eexists _, e].
  destruct (discard_queued_spec (e <| neighbors ::= fun m => om_remove m a |>) held) as (e' & -> & I' & S' & _).
  { apply sub_inv; [done|]. apply om_remove_sublist. }
  cbn [then_]. exists (Ok true), e'. do 3 (split; [done|]). by apply stable_device in S'.
Qed.
Lemma reset_link_spec e held :
  eth_ok e held ->
  exists e', reset_link e = (Ok tt, e') /\ eth_ok e' held /\ same_device e e'
    /\ e_config e' = e_config e /\ configured e' = configured e
    /\ pending e' = [] /\ ready_ e' = [] /\ control e' = [].
Proof.
  intros [I W]. unfold reset_link.
  destruct (discard_queued_spec e held I) as (e1 & -> & [I1 W1] & S1 & (P1 & R1 & C1 & _)). cbn [then_].
  eexists. split; [done|]. pose proof (stable_device _ _ S1). destruct S1 as (Ec & Ef & _). split; [|by split].
  split; [|by apply empty_waiting]. apply sub_inv; [done|apply om_retain_sublist].
Qed.
Lemma eth_new_routes cap a p g t :
  (forall x, g = Some x -> 0 <= x < W32) -> new_routes cap a p g = Ok t -> p <= 32 /\ Forall gateway_ok (entries t).
Proof.
  intros Hg. unfold new_routes, route_new. destruct (negb _); [done|]. destruct (_ || _) eqn:Ep; [done|]. cbn [obind].
  apply orb_false_iff in Ep as [Ep _]. apply Z.ltb_ge in Ep.
  destruct (reserved _ _ _); [done|]. destruct (match g with Some _ => _ | None => _ end); [done|].
  set (con := mkRoute _ _ _). destruct (route_insert (table_new cap) con) as [o t1] eqn:E1.
  destruct (route_insert_ok (table_new cap) con _ _ (Forall_nil_2 _) Logic.I E1) as [Ho F1]. destruct o; try done. cbn [obind].
  destruct g as [x|]; [|by intros [= <-]]. destruct (_ || _); [done|]. cbn [obind].
  destruct (route_insert t1 _) as [o t2] eqn:E2.
  destruct (route_insert_ok _ _ _ _ F1 (Hg x eq_refl : gateway_ok (mkRoute _ _ (Some x))) E2) as [Ho2 F2].
  destruct o; try done. cbn [obind]. by intros [= <-].
Qed.
Lemma new_routes_returns cap a p g : returns (new_routes cap a p g).
Proof.
  unfold new_routes, route_new. destruct (negb _); [done|]. destruct (_ || _); [done|]. cbn [obind].
  destruct (reserved _ _ _); [done|]. destruct (match g with Some _ => _ | None => _ end); [done|].
  unfold route_insert. cbn. destruct (_ =? _); [done|]. cbn. destruct g; [|done]. destruct (negb _); [done|]. cbn.
  destruct (same_prefix _ _); [done|]. by destruct (_ =? _).
Qed.
(** The addresses of a configuration are 32-bit values. *)
Definition conf_ok (address prefix : Z) (gw : option Z) : Prop :=
  0 <= address < W32 /\ 0 <= prefix < 256 /\ forall x, gw = Some x -> 0 <= x < W32.
(** What a configuration does, and that a refused or identical one changes nothing. *)
Definition configured_as (address prefix : Z) (o : outcome bool) e e' : Prop :=
  match o with
  | Ok changed => configured e' = true /\ if_address (e_config e') = address
      /\ if_prefix_len (e_config e') = prefix /\ (changed = false -> e' = e)
      /\ (changed = true -> pending e' = [] /\ ready_ e' = [] /\ control e' = [] /\ neighbors e' = [])
  | _ => e' = e
  end.
Lemma configure_spec a p g e held :
  eth_ok e held -> conf_ok a p g ->
  exists o e', configure_ipv4 a p g e = (o, e') /\ returns o /\ eth_ok e' held /\ same_device e e'
    /\ configured_as a p o e e'.
Proof.
  intros [I W] (Ha & Hp & Hg). unfold configure_ipv4. pose proof (new_routes_returns (route_capacity (e_config e)) a p g) as Hr.
  destruct (new_routes _ a p g) as [t|k| |] eqn:Et; try done; [|by exists (Err k), e].
  apply eth_new_routes in Et as [Hp' Et]; [|done]. destruct (_ && _) eqn:Ec.
  { exists (Ok false), e. do 4 (split; [done|]). rewrite !andb_true_iff in Ec. destruct Ec as [[[Ec Ea] Ep] _]. bools. done. }
  destruct (discard_queued_spec e held I) as (e1 & -> & [I1 W1] & S1 & (P1 & R1 & C1 & N1)). cbn [then_].
  eexists (Ok true), _. split; [done|]. split; [done|]. apply stable_device in S1. split; [|by split].
  split; [|by apply empty_waiting]. eapply eth_inv_move; [exact I1| |done|done|apply I1].
  destruct I1 as [[[] ? ? ? ? ? ? ? ? ? ? ?] _ _]. constructor; cbn; try done; [|constructor..].
  constructor; cbn; (done || lia).
Qed.
Lemma withdraw_spec e held :
  eth_ok e held ->
  exists e', withdraw_ipv4 e = (Ok tt, e') /\ eth_ok e' held /\ same_device e e'
    /\ configured e' = false /\ pending e' = [] /\ ready_ e' = [] /\ control e' = [] /\ neighbors e' = [].
Proof.
  intros [I W]. unfold withdraw_ipv4.
  destruct (discard_queued_spec e held I) as (e1 & -> & [I1 W1] & S1 & (P1 & R1 & C1 & _)). cbn [then_].
  eexists. split; [done|]. apply stable_device in S1. split; [|by split]. split; [|by apply empty_waiting].
  eapply eth_inv_move; [exact I1| |done|done|apply I1].
  pose proof (ic_neighbors _ (ec_config _ (ei_core _ _ I1))).
  destruct I1 as [[] _ _]. by constructor; cbn; try done; constructor.
Qed.
(** Packets for a neighbour with a static entry are released. *)
Lemma release_static a mac e held :
  eth_inv e held -> waiting e -> mac_ok mac -> 0 <= a < W32 ->
  (om_get (neighbors e) a = None -> zlen (neighbors e) < neighbor_capacity (e_config e)) ->
  exists e', release_resolved (if_event (NeighborResolved a mac) (e <| neighbors ::= fun m => om_insert m a (Static mac) |>)) = (Ok tt, e')
    /\ eth_ok e' held /\ estable e e' /\ om_get (neighbors e') a = Some (Static mac).
Proof.
  intros I W Hm Ha Hc. set (e0 := e <| neighbors ::= _ |>).
  pose proof (event_inv (NeighborResolved a mac) e0 held (insert_inv e a (Static mac) held I (conj Ha Hm) Hc)) as I1.
  pose proof (event_logged (NeighborResolved a mac) e0) as L. set (e1 := if_event _ e0) in *. clearbody e1.
  destruct (eth_release_spec e1 held I1) as (bs & e' & -> & I' & S' & N' & _ & P' & _).
  pose proof (logged_stable _ _ L) as S1. destruct L as (_ & _ & _ & _ & N1 & P1 & _ & _ & _ & _ & T1).
  cbn in N1, P1, T1. exists e'. split; [done|]. rewrite N', N1, om_get_insert, Z.eqb_refl.
  split; [|split; [eapply estable_trans; [exact S1|exact S']|done]]. split; [done|].
  intros Lt. assert (e_now e' = e_now e) as Et by (destruct S' as (_ & _ & _ & _ & -> & _); done).
  rewrite Et in Lt. specialize (W Lt). rewrite P', P1, N', N1. rewrite Forall_forall in *. intros p [Hr Hp]%list_elem_of_filter.
  destruct (W _ Hp) as (x & y & z & G). exists x, y, z. rewrite om_get_insert.
  destruct (a =? pd_next_hop p) eqn:Ea; bools; [|done]. subst a.
  unfold resolved in Hr. rewrite N1, om_get_insert, Z.eqb_refl in Hr. done.
Qed.
Lemma add_static_spec a mac e held :
  eth_ok e held -> mac_ok mac -> 0 <= a < W32 ->
  exists o e', add_static_neighbor a mac e = (o, e') /\ returns o /\ eth_ok e' held /\ same_device e e'
    /\ (o = Ok tt -> om_get (neighbors e') a = Some (Static mac)).
Proof.
  intros [I W] Hm Ha. unfold add_static_neighbor. destruct (eth_unicast_ok mac Hm) as [u ->].
  destruct (_ || _); [by exists (Err InvalidInput), e|].
  destruct (_ && _) eqn:Ec; [by exists (Err WouldBlock), e|]. cbv zeta.
  set (stale := match om_get _ _ ≫= _ with Some _ => _ | None => _ end).
  assert (exists e1, (if stale then discard_queued e else (Ok tt, e)) = (Ok tt, e1) /\ eth_ok e1 held /\ estable e e1
    /\ (om_get (neighbors e1) a = None -> zlen (neighbors e1) < neighbor_capacity (e_config e1)))
    as (e1 & -> & [I1 W1] & S1 & Hc); [|cbn [then_]].
  { destruct stale eqn:Es.
    - destruct (discard_queued_spec e held I) as (e1 & -> & I1 & S1 & (_ & _ & _ & N1)). exists e1.
      do 3 (split; [done|]). rewrite N1, om_get_retain by apply I. unfold stale in Es.
      destruct (om_get (neighbors e) a) as [[]|]; done.
    - exists e. do 3 (split; [done|]). intros En. rewrite En in Ec. cbn in Ec. bools.
      pose proof (ec_neighbors _ (ei_core _ _ I)). lia. }
  destruct (cancel_probes_spec a e1 held I1) as (e2 & -> & I2 & S2 & N2 & P2 & R2). cbn [then_].
  assert (waiting e2) as W2 by (apply (waiting_same e1); [done|done|apply S2|done]).
  destruct (release_static a mac e2 held I2 W2 Hm Ha) as (e3 & -> & I3 & S3 & G3).
  { rewrite N2. intros En. specialize (Hc En). assert (e_config e2 = e_config e1) as -> by apply S2. done. }
  exists (Ok tt), e3. do 3 (split; [done|]). split; [|done]. apply stable_device.
  eapply estable_trans; [exact S1|]. by eapply estable_trans.
Qed.

(** ** Construction *)
(** What the types of the configuration's fields guarantee. *)
Record config_range (c : InterfaceConfig) : Prop := {
  cr_mac : mac_ok (if_mac c);
  cr_address : 0 <= if_address c < W32;
  cr_prefix : 0 <= if_prefix_len c < 256;
  cr_tx : 0 <= tx_capacity c < W64;
  cr_control : 0 <= if_control_capacity c;
  cr_neighbors : 0 <= neighbor_capacity c;
  cr_events : 0 <= if_event_capacity c;
  cr_timeout : 0 <= resolution_timeout c;
  cr_ttl : 0 <= neighbor_ttl c
}.
Lemma if_config_ok c : config_range c -> interface_config_valid c = Ok true -> interface_ok c.
Proof.
  intros []. unfold interface_config_valid. destruct (eth_unicast_ok (if_mac c) cr_mac0) as [u ->]. cbn [obind].
  intros [= E]. apply negb_true_iff in E. rewrite !orb_false_iff in E. bools. constructor; (done || lia).
Qed.
Lemma eth_new_spec d c lay e held :
  dev_inv d held -> config_range c -> eth_new d c lay = Ok e ->
  eth_ok e held /\ same_device (e <| e_device := d |>) e.
Proof.
  intros Dv Hc. unfold eth_new. destruct (interface_config_valid c) as [[]| | |] eqn:Ev; try done.
  apply if_config_ok in Ev; [|done]. cbn [obind negb]. unfold route_new. destruct (_ || _); [done|]. cbn [obind].
  set (con := mkRoute _ _ _). destruct (reserved _ _ _); [done|].
  destruct (dev_alloc_law d held Dv) as (r & d' & -> & P & Z & Hr). cbn [obind]. destruct r as [b|]; [|done].
  destruct Hr as (I1 & Hb & Hp & _). destruct (prepare_empty_spec _ _ b Hb) as [-> |(b' & -> & Hb' & So & Ix & Po)]; [done|].
  cbn [obind]. destruct (_ <? _); [done|]. destruct (route_insert (table_new (route_capacity c)) con) as [o t] eqn:Er.
  destruct (route_insert_ok (table_new (route_capacity c)) con _ _ (Forall_nil_2 _) Logic.I Er) as [_ Ft].
  destruct o; try done. cbn [obind]. intros [= <-]. split; [|done]. split; [|by apply empty_waiting].
  constructor.
  - pose proof (ic_tx _ Ev). pose proof (ic_control _ Ev). pose proof (ic_neighbors _ Ev). pose proof (ic_events _ Ev).
    constructor; cbn; try done; try exact (SSorted_nil _); try exact (Forall_nil_2 _).
    + change (0 + 0 <= tx_capacity c). lia.
    + by intros x [= <-].
  - cbn. unfold eframes, owned. cbn. by rewrite Po, Hp, Ix.
  - unfold eframes. cbn. constructor; [|constructor]. unfold ok_handle. cbn. by rewrite P, Z.
Qed.

(** ** Sessions *)
(** The calls a client can make, on the interface and the handles [bs] it holds. *)
Inductive eth_step : E * list PacketBuf -> E * list PacketBuf -> Prop :=
| do_poll now r e e' bs : eth_poll_at now e = (r, e') -> eth_step (e, bs) (e', bs)
| do_recv max r e e' out out' bs :
    0 <= max -> eth_recv max (e, out) = (r, (e', out')) -> eth_step (e, out ++ bs) (e', out' ++ bs)
| do_send r e e' fs fs' bs : eth_send (e, fs) = (r, (e', fs')) -> eth_step (e, fs ++ bs) (e', fs' ++ bs)
| do_alloc r e e' bs : eth_alloc e = (Ok r, e') -> eth_step (e, bs) (e', option_list r ++ bs)
| do_drop r e e' b bs : dev_drop b e = (r, e') -> eth_step (e, b :: bs) (e', bs)
| do_write e b b' bs :
    ok_handle e b' -> buf_idx b' = buf_idx b -> buf_pool b' = buf_pool b -> eth_step (e, b :: bs) (e, b' :: bs)
| do_permute e bs bs' : bs ≡ₚ bs' -> eth_step (e, bs) (e, bs')
| do_configure a p g r e e' bs : conf_ok a p g -> configure_ipv4 a p g e = (r, e') -> eth_step (e, bs) (e', bs)
| do_withdraw r e e' bs : withdraw_ipv4 e = (r, e') -> eth_step (e, bs) (e', bs)
| do_add_route rt r e e' bs : gateway_ok rt -> add_route rt e = (r, e') -> eth_step (e, bs) (e', bs)
| do_set_gateway a r e e' bs : 0 <= a < W32 -> set_gateway a e = (r, e') -> eth_step (e, bs) (e', bs)
| do_remove_route a p r e e' bs : remove_route a p e = (r, e') -> eth_step (e, bs) (e', bs)
| do_add_static a mac r e e' bs :
    mac_ok mac -> 0 <= a < W32 -> add_static_neighbor a mac e = (r, e') -> eth_step (e, bs) (e', bs)
| do_remove_neighbor a r e e' bs : remove_neighbor a e = (r, e') -> eth_step (e, bs) (e', bs)
| do_reset r e e' bs : reset_link e = (r, e') -> eth_step (e, bs) (e', bs).

Definition client_ok (s : E * list PacketBuf) (held : list Z) : Prop :=
  eth_ok s.1 (owned s.2 ++ held) /\ Forall (ok_handle s.1) s.2.
Lemma same_device_ok e e' bs : same_device e e' -> Forall (ok_handle e) bs -> Forall (ok_handle e') bs.
Proof. intros [P Z] F. eapply Forall_impl; [exact F|]. intros b. unfold ok_handle. by rewrite P, Z. Qed.
Lemma step_same e e' bs held :
  client_ok (e, bs) held -> eth_ok e' (owned bs ++ held) -> same_device e e' -> client_ok (e', bs) held.
Proof. intros [_ F] I' S. split; [done|]. by eapply same_device_ok. Qed.
(** Two runs of one operation are the same. *)
Ltac same_run := match goal with A : ?x = (_, _), B : ?x = (_, _) |- _ => rewrite A in B; simplify_eq end.
Lemma eth_step_ok s s' held : eth_step s s' -> client_ok s held -> client_ok s' held.
Proof.
  intros St So. pose proof So as [I F]. destruct St; cbn [fst snd] in *.
  - destruct (eth_poll_spec now e _ I) as (? & ? & Eq & _ & I' & S & _). same_run. by eapply step_same.
  - rewrite owned_app, <- app_assoc in I. apply Forall_app in F as [Fo Fb].
    destruct (eth_recv_spec max out e _ I Fo H1) as (? & ? & ? & Eq & I' & P). same_run.
    split; cbn; [by rewrite owned_app, <- app_assoc|]. apply (same_device_ok e); [apply P|].
    apply Forall_app. split; [apply P|done].
  - rewrite owned_app, <- app_assoc in I. apply Forall_app in F as [Fo Fb].
    destruct (eth_send_spec fs e _ I Fo) as (? & ? & ? & Eq & I' & S & P). same_run.
    split; cbn; [by rewrite owned_app, <- app_assoc|]. apply (same_device_ok e); [done|].
    apply Forall_app. split; [|done]. inversion P; subst; [done|]. apply Forall_app. split; [|by apply Forall_drop].
    apply Forall_replicate. apply handle_default.
  - destruct (eth_alloc_spec e _ I) as (? & ? & Eq & S & _ & P). same_run. apply stable_device in S.
    split; cbn -[owned]; [|apply (same_device_ok e); [done|]]; match goal with |- context [option_list ?o] => destruct o end; cbn -[owned]; try done.
    + rewrite owned_cons, <- app_assoc. apply P.
    + constructor; [apply P|done].
  - rewrite owned_cons, <- app_assoc in I. apply Forall_cons in F as [Fb F].
    destruct (eth_drop_spec b e _ I Fb) as (? & Eq & I' & S & _). same_run. split; [done|].
    apply (same_device_ok e); [by apply stable_device|done].
  - apply Forall_cons in F as [Fb F]. split; cbn -[owned]; [|by constructor].
    assert (owned [b'] = owned [b]) as Ob by (unfold owned; cbn; by rewrite H2, H3).
    rewrite owned_cons in I. by rewrite owned_cons, Ob.
  - split; cbn; by rewrite <- H1.
  - destruct (configure_spec a p g e _ I H1) as (? & ? & Eq & _ & I' & S & _). same_run. by eapply step_same.
  - destruct (withdraw_spec e _ I) as (? & Eq & I' & S & _). same_run. by eapply step_same.
  - destruct (add_route_spec rt e _ I H1) as (? & ? & Eq & _ & I' & S). same_run. by eapply step_same.
  - destruct (set_gateway_spec a e _ I H1) as (? & ? & Eq & _ & I' & S). same_run. by eapply step_same.
  - destruct (remove_route_spec a p e _ I) as (? & ? & Eq & _ & I' & S). same_run. by eapply step_same.
  - destruct (add_static_spec a mac e _ I H1 H2) as (? & ? & Eq & _ & I' & S & _). same_run. by eapply step_same.
  - destruct (remove_neighbor_spec a e _ I) as (? & ? & Eq & _ & I' & S). same_run. by eapply step_same.
  - destruct (reset_link_spec e _ I) as (? & Eq & I' & S & _). same_run. by eapply step_same.
Qed.

(** ** Correctness *)
(** C8. Sessions: whatever calls a client makes on a new interface, in any order, the
    interface stays within its configured bounds, every frame is either held by the client
    or accounted for, and every packet that waits for a neighbour waits for one whose
    resolution is under way and ends by the resolution timeout. *)
Theorem eth_sessions d c lay e0 held s :
  dev_inv d held -> config_range c -> eth_new d c lay = Ok e0 -> rtc eth_step (e0, []) s ->
  let '(e, bs) := s in
  eth_ok e (owned bs ++ held) /\ Forall (ok_handle e) bs
  /\ zlen (pending e) + zlen (ready_ e) <= tx_capacity (e_config e)
  /\ zlen (control e) <= if_control_capacity (e_config e)
  /\ zlen (neighbors e) <= neighbor_capacity (e_config e)
  /\ zlen (e_events e) <= if_event_capacity (e_config e)
  /\ (e_now e < DURATION_MAX ->
      Forall (fun p => exists attempts next_probe t,
                om_get (neighbors e) (pd_next_hop p) = Some (Resolving attempts next_probe t)
                /\ t <= e_now e + resolution_timeout (e_config e)) (pending e)).
Proof.
  intros Dv Hc En St. destruct (eth_new_spec d c lay e0 held Dv Hc En) as [I0 _].
  assert (client_ok s held) as So.
  { assert (client_ok (e0, []) held) as S0 by (split; [exact I0|constructor]). revert S0.
    induction St; [done|]. intros S0. apply IHSt. by eapply eth_step_ok. }
  destruct s as [e bs], So as [[I W] F]. cbn in I, W, F. pose proof (ei_core _ _ I) as C.
  split; [done|]. split; [done|]. do 4 (split; [apply C|]). intros Lt.
  eapply Forall_impl; [by apply W|]. cbn. intros p (x & y & t & G). exists x, y, t. split; [done|].
  pose proof (ec_entries _ C) as Fe. rewrite Forall_forall in Fe. by destruct (Fe _ (om_get_elem _ _ _ G)).
Qed.

(** C9. The interface is itself a device: when the device below keeps the device laws, so
    does the interface, with the invariant of its queues and the pool of the device below.
    Clients proved against the laws run unchanged over Ethernet. *)
Theorem ethernet_refines_device :
  exists L : DeviceLaws (EthernetIpv4 D),
    (forall e held, @dev_inv _ _ L e held <-> eth_ok e held)
    /\ (forall e, @dev_pool _ _ L e = dev_pool (e_device e)).
Proof. by exists ethernet_laws. Qed.

(** C10. ARP safety: a received frame changes at most the entry of the sender of an ARP
    message in it; that message names the Ethernet source and is addressed to the
    interface, the entry was not static, and a reply is believed only while the address is
    being resolved and when it is addressed to the interface's MAC. *)
Theorem eth_arp_safe frame out e held a :
  eth_inv e (owned [frame] ++ owned out ++ held) -> ok_handle e frame -> Forall (ok_handle e) out ->
  exists out' e', receive_frame frame out e = (Ok out', e')
    /\ (om_get (neighbors e') a = om_get (neighbors e) a
        \/ exists h p, eth_parse (as_slice frame) = Ok (Some h)
             /\ arp_parse (drop 14 (as_slice frame)) = Ok (Some p)
             /\ sender_ip p = a /\ sender_mac p = eth_source h /\ target_ip p = if_address (e_config e)
             /\ (forall mac, om_get (neighbors e) a <> Some (Static mac))
             /\ om_get (neighbors e') a
                = Some (Reachable (sender_mac p) (dur_add (e_now e) (neighbor_ttl (e_config e))))
             /\ (operation p = Reply_ -> awaited e a = true /\ target_mac p = if_mac (e_config e))).
Proof.
  intros I Hf Ho. destruct (receive_frame_spec frame out e held I Hf Ho) as (out' & e' & -> & _ & _ & _ & _ & _ & X & _).
  exists out', e'. split; [done|]. destruct X as [En|(h & Eh & [En|(p & Ep & Hm & Ht & L & Hr)])]; [left; by rewrite En..|].
  destruct L as [En|[Ns En]]; rewrite En; [by left|]. rewrite om_get_insert.
  destruct (sender_ip p =? a) eqn:Ea; bools; [|by left]. subst a. right. exists h, p.
  split_and!; try done. by rewrite Hm.
Qed.

(** C11. What [recv] delivers: the interface gives back the frames of the old packets and its spare frame and asks the device
    below for frames.  When the device fails, so does [recv], and nothing is handed out.  Otherwise exactly the datagrams of the frames that the device
    handed over are handed out, in the order of the frames: the contents of every IPv4 datagram, stripped of Ethernet header and padding, that
    came in a frame for the interface, is addressed to it and fits its MTU ([datagram_of]), and nothing else. *)
Theorem eth_recv_delivers max out e held :
  eth_ok e (owned out ++ held) -> Forall (ok_handle e) out -> 0 <= max ->
  exists r e' out', eth_recv max (e, out) = (r, (e', out')) /\ eth_ok e' (owned out' ++ held)
    /\ returns r /\ (forall n, r = Ok n -> n = zlen out') /\ zlen out' <= max
    /\ (0 < max -> exists e1 e2 below d frames, discard out e = (Ok tt, e1)
         /\ discard (option_list (control_spare e1)) (e1 <| control_spare := None |>) = (Ok tt, e2)
         /\ dev_recv max (e_device e2, e_rx e) = (below, (d, frames))
         /\ match below with
            | Ok _ => as_slice <$> out' = omap (datagram_of e) frames
            | _ => r = below /\ out' = []
            end).
Proof.
  intros I Ho Hm. destruct (eth_recv_spec max out e held I Ho Hm) as (r & e' & out' & E & I' & []).
  by exists r, e', out'.
Qed.

(** C12. [send] takes a prefix of the packets or, on an error, none: each packet taken is
    framed for its next hop behind the frames that are ready, or waits behind the others
    while its neighbour is resolved, and a packet is refused only for want of room. *)
Theorem eth_send_effect frames e held :
  eth_ok e (owned frames ++ held) -> Forall (ok_handle e) frames ->
  exists r e' frames', eth_send (e, frames) = (r, (e', frames')) /\ eth_ok e' (owned frames' ++ held)
    /\ sent e frames r e' frames'.
Proof.
  intros I F. destruct (eth_send_spec frames e held I F) as (r & e' & fs & E & I' & _ & S). by exists r, e', fs.
Qed.

(** C13. [advance] ages every neighbour entry as its state says, drops the packets whose
    neighbour timed out, and frames the packets whose neighbour is known in their order. *)
Theorem eth_poll_effect now e held :
  eth_ok e held ->
  exists r e', eth_poll_at now e = (r, e') /\ returns r /\ eth_ok e' held
    /\ (r = Ok tt -> e_now e <= now /\ advanced now e e').
Proof.
  intros I. destruct (eth_poll_spec now e held I) as (r & e' & E & R & I' & _ & A). by exists r, e'.
Qed.

(** C14. No packet waits for ever: when the resolution timeout has passed, [advance] leaves
    none of the packets that wait now, each was framed or dropped. *)
Theorem eth_resolution_bounded now e held :
  eth_ok e held -> e_now e < DURATION_MAX -> e_now e + resolution_timeout (e_config e) <= now ->
  exists r e', if_advance now e = (r, e') /\ returns r /\ eth_ok e' held /\ pending e' = [].
Proof.
  intros [I W] Lt Hn. pose proof (ei_core _ _ I) as C. pose proof (ic_timeout _ (ec_config _ C)).
  destruct (eth_advance_spec now e held I) as (r & e' & -> & R & I' & _ & A & W'); [lia|by apply waiting_live; [lia|]|].
  exists r, e'. do 3 (split; [done|]). rewrite (ad_pending _ _ _ A).
  destruct (filter (kept now e) (pending e)) as [|p l] eqn:Ef; [done|]. exfalso.
  assert (p ∈ filter (kept now e) (pending e)) as Hp by (rewrite Ef; left).
  apply list_elem_of_filter in Hp as [Hk Hp]. specialize (W Lt). rewrite Forall_forall in W.
  destruct (W _ Hp) as (x & y & t & G). unfold kept, overdue in Hk. rewrite G in Hk. cbn in Hk.
  pose proof (ec_entries _ C) as Fe. rewrite Forall_forall in Fe. destruct (Fe _ (om_get_elem _ _ _ G)) as [_ Ht].
  unfold resolution_end in Ht. cbn in Ht. lia.
Qed.

(** An entry that [advance] acts on at time [t]. *)
Definition has_work (c : InterfaceConfig) (t : Z) (n : NeighborState) : Prop :=
  match n with
  | Static _ => False
  | Reachable _ x | NeighborFailed x => x <= t
  | Resolving attempts next_probe x => x <= t \/ next_probe <= t /\ attempts < max_arp_attempts c
  end.
Lemma advance_one_idle now a n e :
  (forall t, neighbor_deadline (e_config e) n = Some t -> now < t) -> advance_one now a n e = (Ok tt, e).
Proof.
  intros Hd. destruct n as [mac|mac x|k np x|x]; cbn in *; [done|..]; specialize (Hd _ eq_refl).
  - by rewrite (proj2 (Z.leb_gt _ _)) by lia.
  - destruct (k <? _); [|by rewrite andb_false_r, (proj2 (Z.leb_gt _ _)) by lia].
    by rewrite !(proj2 (Z.leb_gt _ _)) by lia.
  - by rewrite (proj2 (Z.leb_gt _ _)) by lia.
Qed.
Lemma advance_all_idle now m e :
  (forall x t, x ∈ m -> neighbor_deadline (e_config e) x.2 = Some t -> now < t) ->
  advance_all now m e = (Ok tt, e).
Proof.
  induction m as [|[a n] m IH]; intros Hd; cbn [advance_all]; [done|].
  rewrite advance_one_idle; [|intros t Ht; by apply (Hd (a, n)); [left|]]. cbn [then_].
  apply IH. intros x t Hx. apply Hd. by right.
Qed.
Lemma deadline_work c n t : neighbor_deadline c n = Some t -> has_work c t n.
Proof.
  destruct n; cbn; [done|intros [= ->]; lia| |intros [= ->]; lia].
  destruct (_ <? _) eqn:E; bools; intros [= <-]; lia.
Qed.
Lemma fold_deadline c (m : list (Z * NeighborState)) :
  match foldr (fun n d => opt_min (neighbor_deadline c n.2) d) None m with
  | Some t => (exists x, x ∈ m /\ neighbor_deadline c x.2 = Some t)
              /\ forall x u, x ∈ m -> neighbor_deadline c x.2 = Some u -> t <= u
  | None => forall x, x ∈ m -> neighbor_deadline c x.2 = None
  end.
Proof.
  induction m as [|x m IH]; cbn [foldr]; [intros x Hx; by apply elem_of_nil in Hx|].
  destruct (opt_min (neighbor_deadline c x.2) _) as [t|] eqn:Eo.
  - apply opt_min_spec in Eo as (Eq & L1 & L2). destruct (foldr _ None m) as [u|].
    + destruct IH as [(y & Hy & Ey) Lu]. split.
      * destruct Eq as [Eq|[= ->]]; [exists x; split; [left|done]|exists y; split; [by right|done]].
      * intros z v [-> |Hz]%elem_of_cons Ev; [auto|]. specialize (L2 u eq_refl). specialize (Lu z v Hz Ev). lia.
    + destruct Eq as [Eq|]; [|done]. split; [exists x; split; [left|done]|].
      intros z v [-> |Hz]%elem_of_cons Ev; [auto|]. specialize (IH z Hz). congruence.
  - destruct (neighbor_deadline c x.2) as [u|] eqn:Ex, (foldr _ None m) as [v|]; try done.
    intros z [-> |Hz]%elem_of_cons; auto.
Qed.
(** The deadline hint is exact: before it no neighbour entry needs attention, and at
    it one does, so a driver that sleeps until the deadline misses nothing and does not
    wake up in vain. *)
Theorem eth_deadline_exact e :
  match if_deadline e with
  | Some t => (forall now, now < t -> advance_all now (neighbors e) e = (Ok tt, e))
              /\ exists a n, (a, n) ∈ neighbors e /\ has_work (e_config e) t n
  | None => forall now, advance_all now (neighbors e) e = (Ok tt, e)
  end.
Proof.
  unfold if_deadline. pose proof (fold_deadline (e_config e) (neighbors e)) as F. destruct (foldr _ None _) as [t|].
  - destruct F as [([a n] & Hx & Ht) Hl]. split.
    + intros now Hn. apply advance_all_idle. intros x u Hx' Hu. specialize (Hl x u Hx' Hu). lia.
    + exists a, n. split; [done|]. by apply deadline_work.
  - intros now. apply advance_all_idle. intros x u Hx Hu. specialize (F x Hx). congruence.
Qed.
End Config.

(** ** Witnesses *)
Definition if_cfg : InterfaceConfig :=
  interface_config_new 0x0a000001 24 [2; 0; 0; 0; 0; 1] <| if_mtu := 576 |>.
Definition eth0 : EthernetIpv4 LoopbackDevice :=
  Eval vm_compute in
  match eth_new loopback2 if_cfg (fun _ => 0%nat) with
  | Ok e => e
  | _ => mkEthernetIpv4 loopback2 if_cfg false (table_new 0) [] [] [] [] None [] [] 0 interface_stats_zero (fun _ => 0%nat)
  end.
Lemma eth0_new : eth_new loopback2 if_cfg (fun _ => 0%nat) = Ok eth0.
Proof. vm_compute. reflexivity. Qed.
Lemma if_cfg_range : config_range if_cfg.
Proof.
  constructor; cbn; unfold W32, W64, SECOND; try lia.
  split; [done|]. repeat constructor; unfold is_byte; lia.
Qed.
Lemma eth0_ok : eth_ok eth0 [].
Proof. apply (eth_new_spec loopback2 if_cfg (fun _ => 0%nat)); [apply loopback2_inv|apply if_cfg_range|apply eth0_new]. Qed.
(** An empty IPv4 packet for a host on the link, in a frame of the interface. *)
Definition hello : list Z := [0x45; 0; 0; 20; 0; 0; 0; 0; 64; 17; 102; 215; 10; 0; 0; 1; 10; 0; 0; 2].
Definition eth1 : EthernetIpv4 LoopbackDevice := Eval vm_compute in (eth_alloc eth0).2.
Definition blank : PacketBuf := Eval vm_compute in
  match eth_alloc eth0 with (Ok (Some b), _) => b | _ => packet_default end.
Definition packet1 : PacketBuf := Eval vm_compute in store_packet (blank <| buf_len := 20 |>) hello.
(** The interface once the packet waits, once it has asked for the neighbour. *)
Definition eth2 : EthernetIpv4 LoopbackDevice := Eval vm_compute in (eth_send (eth1, [packet1])).2.1.
Definition eth3 : EthernetIpv4 LoopbackDevice := Eval vm_compute in (eth_poll_at 5 eth2).2.
Lemma eth1_alloc : eth_alloc eth0 = (Ok (Some blank), eth1).
Proof. vm_compute. reflexivity. Qed.
Lemma eth2_send : eth_send (eth1, [packet1]) = (Ok 1, (eth2, [packet_default])).
Proof. vm_compute. reflexivity. Qed.
Lemma eth3_poll : eth_poll_at 5 eth2 = (Ok tt, eth3).
Proof. vm_compute. reflexivity. Qed.
Lemma eth1_ok : eth_ok eth1 (owned [blank]) /\ ok_handle eth1 blank.
Proof.
  destruct (eth_alloc_spec eth0 [] eth0_ok) as (r & e' & E & S & _ & Hr). rewrite eth1_alloc in E. injection E as <- <-.
  destruct Hr as (I & Hb & _). rewrite app_nil_r in I. split; [done|]. by apply (ok_stable eth0).
Qed.
Lemma packet1_ok : ok_handle eth1 packet1.
Proof.
  destruct eth1_ok as [_ (_ & Hb & _)]. split; [|split; [|done]].
  - unfold buf_wf. vm_compute. repeat split; discriminate.
  - replace packet1 with (store_packet (blank <| buf_len := 20 |>) hello) by (vm_compute; reflexivity).
    apply (store_packet_bytes (blank <| buf_len := 20 |>) hello); [exact Hb|].
    repeat constructor; unfold is_byte; lia.
Qed.
Lemma eth2_ok : eth_ok eth2 [].
Proof.
  destruct (eth_send_spec [packet1] eth1 []) as (r & e' & fs & E & I & _).
  - exact (proj1 eth1_ok).
  - constructor; [apply packet1_ok|constructor].
  - rewrite eth2_send in E. injection E as <- <- <-. exact I.
Qed.
Example eth3_asks : zlen (pending eth3) = 1 /\ arp_requests_queued (e_stats eth3) = 1 /\ submitted_control (e_stats eth3) = 1.
Proof. vm_compute. auto. Qed.

Lemma eth_sessions_witness :
  rtc eth_step (eth0, []) (eth3, [packet_default]) /\ zlen (neighbors eth3) <= neighbor_capacity (e_config eth3).
Proof.
  assert (rtc eth_step (eth0, []) (eth3, [packet_default])) as St.
  { eapply rtc_l; [exact (do_alloc (Some blank) eth0 eth1 [] eth1_alloc)|].
    eapply rtc_l; [exact (do_write eth1 blank packet1 [] packet1_ok eq_refl eq_refl)|].
    eapply rtc_l; [exact (do_send _ eth1 eth2 [packet1] _ [] eth2_send)|].
    eapply rtc_l; [exact (do_poll 5 _ eth2 eth3 _ eth3_poll)|]. apply rtc_refl. }
  split; [exact St|].
  apply (eth_sessions loopback2 if_cfg (fun _ => 0%nat) eth0 [] (eth3, [packet_default]));
    [exact loopback2_inv|exact if_cfg_range|exact eth0_new|exact St].
Defined.
Lemma eth_arp_safe_witness :
  exists out' e', receive_frame packet_default [] eth2 = (Ok out', e').
Proof.
  destruct (eth_arp_safe packet_default [] eth2 [] 7) as (out' & e' & E & _).
  - exact (proj1 eth2_ok).
  - apply handle_default.
  - constructor.
  - exists out', e'. exact E.
Defined.
(** A broadcast comes back over the loopback device and is handed out. *)
Definition hello_all : list Z := [0x45; 0; 0; 20; 0; 0; 0; 0; 64; 17; 101; 218; 10; 0; 0; 1; 10; 0; 0; 255].
Definition packet2 : PacketBuf := Eval vm_compute in store_packet (blank <| buf_len := 20 |>) hello_all.
Lemma packet2_ok : ok_handle eth1 packet2.
Proof.
  destruct eth1_ok as [_ (_ & Hb & _)]. split; [|split; [|done]].
  - unfold buf_wf. vm_compute. repeat split; discriminate.
  - replace packet2 with (store_packet (blank <| buf_len := 20 |>) hello_all) by (vm_compute; reflexivity).
    apply (store_packet_bytes (blank <| buf_len := 20 |>) hello_all); [exact Hb|].
    repeat constructor; unfold is_byte; lia.
Qed.
Definition eth4 : EthernetIpv4 LoopbackDevice := Eval vm_compute in (eth_send (eth1, [packet2])).2.1.
Lemma eth4_send : eth_send (eth1, [packet2]) = (Ok 1, (eth4, [packet_default])).
Proof. vm_compute. reflexivity. Qed.
Lemma eth4_ok : eth_ok eth4 [].
Proof.
  destruct (eth_send_spec [packet2] eth1 []) as (r & e' & fs & E & I & _).
  - exact (proj1 eth1_ok).
  - constructor; [apply packet2_ok|constructor].
  - rewrite eth4_send in E. injection E as <- <- <-. exact I.
Qed.
Definition eth5 : EthernetIpv4 LoopbackDevice := Eval vm_compute in (eth_poll_at 5 eth4).2.
Lemma eth5_poll : eth_poll_at 5 eth4 = (Ok tt, eth5).
Proof. vm_compute. reflexivity. Qed.
Lemma eth5_ok : eth_ok eth5 [].
Proof. destruct (eth_poll_spec 5 eth4 [] eth4_ok) as (r & e' & E & _ & I & _). rewrite eth5_poll in E. by injection E as <- <-. Qed.
Lemma eth_recv_delivers_witness :
  exists r e' out', eth_recv 4 (eth5, []) = (r, (e', out')) /\ as_slice <$> out' = [hello_all].
Proof.
  destruct (eth_recv_delivers 4 [] eth5 []) as (r & e' & out' & E & _ & _ & _ & _ & L).
  - exact eth5_ok.
  - constructor.
  - lia.
  - exists r, e', out'. split; [exact E|]. destruct (L ltac:(lia)) as (e1 & e2 & below & d & frames & E1 & E2 & E3 & E4).
    vm_compute in E1. injection E1 as <-. vm_compute in E2. injection E2 as <-. vm_compute in E3. injection E3 as <- <- <-. exact E4.
Defined.
Lemma eth_send_effect_witness :
  exists r e' fs, eth_send (eth1, [packet1]) = (r, (e', fs)) /\ sent eth1 [packet1] r e' fs.
Proof.
  destruct (eth_send_effect [packet1] eth1 []) as (r & e' & fs & E & _ & S).
  - exact (proj1 eth1_ok).
  - constructor; [apply packet1_ok|constructor].
  - exists r, e', fs. split; [exact E|exact S].
Defined.
Lemma eth_poll_effect_witness : advanced 5 eth2 eth3.
Proof.
  destruct (eth_poll_effect 5 eth2 [] eth2_ok) as (r & e' & E & _ & _ & A).
  rewrite eth3_poll in E. injection E as <- <-. apply (A eq_refl).
Defined.
Lemma eth_resolution_bounded_witness :
  zlen (pending eth2) = 1 /\ exists r e', if_advance (4 * SECOND) eth2 = (r, e') /\ pending e' = [].
Proof.
  split; [vm_compute; reflexivity|].
  destruct (eth_resolution_bounded (4 * SECOND) eth2 [] eth2_ok) as (r & e' & E & _ & _ & P).
  - vm_compute. reflexivity.
  - vm_compute. discriminate.
  - exists r, e'. split; [exact E|exact P].
Defined.
