(* ===== verification/UdpSched.v ===== *)
(** * UDP admission and transmit scheduling ([src/api/udp/mod.rs])

    [Scheduler] is a bounded FIFO of datagrams with, per destination, the number of its
    queued datagrams and the time its pacing allows the next one.  A [BTreeMap] that is only
    looked up, updated and filtered is a [gmap].  [candidate] picks the datagram to submit:
    the head of the queue, or in fair mode the oldest datagram of the next destination in
    cyclic address order.  [queue.remove(i).unwrap()], [peers[&d]] and a division by a zero
    rate panic. *)
From Stdlib Require Import ZArith Lia Bool.
From stdpp Require Import base numbers option list gmap.
From S2P Require Import Prelude BufferPool Addr.
#[local] Open Scope Z_scope.

Record UdpConfig : Type := mkUdpConfig {
  queue_capacity : Z;
  peer_capacity : Z;
  service_capacity : Z;
  max_tx_peers : Z;
  per_peer_capacity : Z;
  tx_budget : Z;
  fair_queue : bool;
  bytes_per_second : option Z;
  per_peer_bytes_per_second : option Z;
  queue_lifetime : option Z;
  udp_event_capacity : Z
}.
#[export] Instance eta_UdpConfig : Eta UdpConfig := fun c =>
  mkUdpConfig (queue_capacity c) (peer_capacity c) (service_capacity c) (max_tx_peers c)
    (per_peer_capacity c) (tx_budget c) (fair_queue c) (bytes_per_second c)
    (per_peer_bytes_per_second c) (queue_lifetime c) (udp_event_capacity c).
Definition udp_config_default : UdpConfig :=
  mkUdpConfig 128 64 256 128 128 128 false None None None 0.
Definition validate (c : UdpConfig) : outcome unit :=
  if (queue_capacity c =? 0) || (peer_capacity c =? 0) || (service_capacity c =? 0)
     || (max_tx_peers c =? 0) || (per_peer_capacity c =? 0) || (tx_budget c =? 0)
     || bool_decide (bytes_per_second c = Some 0)
     || bool_decide (per_peer_bytes_per_second c = Some 0)
     || bool_decide (queue_lifetime c = Some 0)
  then Err InvalidInput else Ok tt.

Inductive UdpFailure : Type :=
| SourceUnavailable | InvalidDestination | QueueFull | PeerQueueFull | PeerLimit | NoBuffer
| InvalidPacket | DeadlineExpired | ConfigurationChanged | DeviceFailure (k : ErrorKind).
#[export] Instance UdpFailure_eq_dec : EqDecision UdpFailure.
Proof. solve_decision. Defined.
Inductive UdpOutcome : Type :=
| Rejected (f : UdpFailure) | Dropped (f : UdpFailure) | Submitted.

Record Queued : Type := mkQueued {
  q_frame : PacketBuf;
  q_id : Z;
  q_source : SocketAddrV4;
  q_destination : SocketAddrV4;
  q_deadline : option Z;
  q_generation : Z
}.
#[export] Instance eta_Queued : Eta Queued := fun q =>
  mkQueued (q_frame q) (q_id q) (q_source q) (q_destination q) (q_deadline q) (q_generation q).

Record PeerBudget : Type := mkBudget { pb_count : Z; pb_next : Z }.
#[export] Instance eta_PeerBudget : Eta PeerBudget := fun b => mkBudget (pb_count b) (pb_next b).

Record Scheduler : Type := mkScheduler {
  queue : list Queued;
  sch_peers : gmap SocketAddrV4 PeerBudget;
  sch_next : Z;
  sch_last : option SocketAddrV4
}.
#[export] Instance eta_Scheduler : Eta Scheduler := fun s =>
  mkScheduler (queue s) (sch_peers s) (sch_next s) (sch_last s).

Definition scheduler_new : Scheduler := mkScheduler [] ∅ 0 None.

(** ** Admission and the queue *)
Definition admission (peer : SocketAddrV4) (now : Z) (cfg : UdpConfig) (s : Scheduler)
  : option UdpFailure * Scheduler :=
  let s := s <| sch_peers ::= filter (fun e => 0 < pb_count e.2 \/ now < pb_next e.2) |> in
  (if queue_capacity cfg <=? zlen (queue s) then Some QueueFull
   else match sch_peers s !! peer with
   | Some b => if per_peer_capacity cfg <=? pb_count b then Some PeerQueueFull else None
   | None => if max_tx_peers cfg <=? Z.of_nat (size (sch_peers s)) then Some PeerLimit else None
   end, s).

Definition push (q : Queued) (s : Scheduler) : Scheduler :=
  let b := default (mkBudget 0 0) (sch_peers s !! q_destination q) in
  s <| sch_peers ::= <[q_destination q := b <| pb_count ::= count 1 |>]> |>
    <| queue ::= fun l => l ++ [q] |>.

Definition remove (index : nat) (s : Scheduler) : outcome (Queued * Scheduler) :=
  match queue s !! index with
  | Some q =>
      match sch_peers s !! q_destination q with
      | Some b =>
          Ok (q, s <| queue ::= delete index |>
                   <| sch_peers ::= <[q_destination q := b <| pb_count ::= count (-1) |>]> |>)
      | None => Panic
      end
  | None => Panic
  end.

(** ** Choosing a datagram *)
Definition ready (s : Scheduler) (now : Z) (blocked : list SocketAddrV4) (q : Queued)
  : outcome bool :=
  if bool_decide (q_destination q ∈ blocked) then Ok false
  else match sch_peers s !! q_destination q with
  | Some b => Ok (pb_next b <=? now)
  | None => Panic
  end.
(** [iter().enumerate().filter(..)] *)
Fixpoint filter_ready (s : Scheduler) (now : Z) (blocked : list SocketAddrV4) (i : nat)
    (qs : list Queued) : outcome (list (nat * Queued)) :=
  match qs with
  | [] => Ok []
  | q :: qs =>
      let* r := ready s now blocked q in
      let* rest := filter_ready s now blocked (S i) qs in
      Ok (if r : bool then (i, q) :: rest else rest)
  end.
(** The key [(wrapped, destination, index)] and the derived order of tuples. *)
Definition wrapped (last : option SocketAddrV4) (d : SocketAddrV4) : bool :=
  match last with Some l => sock_leb d l | None => false end.
Definition rank_ltb (last : option SocketAddrV4) (x y : nat * Queued) : bool :=
  let '(i, p) := x in
  let '(j, q) := y in
  let d := q_destination p in
  let e := q_destination q in
  (negb (wrapped last d) && wrapped last e)
  || (Bool.eqb (wrapped last d) (wrapped last e)
      && (sock_ltb d e || (sock_eqb d e && (i <? j)%nat))).
(** [min_by_key]: the first of the minimal elements. *)
Fixpoint min_by (ltb : nat * Queued -> nat * Queued -> bool) (l : list (nat * Queued))
  : option (nat * Queued) :=
  match l with
  | [] => None
  | x :: l =>
      match min_by ltb l with
      | Some y => Some (if ltb y x then y else x)
      | None => Some x
      end
  end.
Definition candidate (now : Z) (fair : bool) (blocked : list SocketAddrV4) (s : Scheduler)
  : outcome (option nat) :=
  if now <? sch_next s then Ok None
  else if negb fair then
    match queue s with
    | [] => Ok None
    | q :: _ => let* r := ready s now blocked q in Ok (if r : bool then Some 0%nat else None)
    end
  else
    let* l := filter_ready s now blocked 0 (queue s) in
    Ok (fst <$> min_by (rank_ltb (sch_last s)) l).

(** ** Pacing *)
Definition spacing (bytes : Z) (rate : option Z) : outcome Z :=
  match rate with
  | None => Ok 0
  | Some rate =>
      if rate =? 0 then Panic
      else
        let ns := (bytes * SECOND + rate - 1) / rate in
        Ok (Z.min (ns / SECOND) U64MAX * SECOND + ns mod SECOND)
  end.
Definition accepted (peer : SocketAddrV4) (bytes now : Z) (cfg : UdpConfig) (s : Scheduler)
  : outcome Scheduler :=
  let* all := spacing bytes (bytes_per_second cfg) in
  let* one := spacing bytes (per_peer_bytes_per_second cfg) in
  match sch_peers s !! peer with
  | Some b =>
      Ok (s <| sch_last := Some peer |> <| sch_next := dur_add now all |>
            <| sch_peers ::= <[peer := b <| pb_next := dur_add now one |>]> |>)
  | None => Panic
  end.

(** The minimum of a list; the times at which the queued datagrams become eligible. *)
Definition min_list (l : list Z) : option Z := foldr (fun x m => opt_min (Some x) m) None l.
Fixpoint ready_times (s : Scheduler) (qs : list Queued) : outcome (list Z) :=
  match qs with
  | [] => Ok []
  | q :: qs =>
      match sch_peers s !! q_destination q with
      | Some b =>
          let* ts := ready_times s qs in Ok (Z.max (sch_next s) (pb_next b) :: ts)
      | None => Panic
      end
  end.
Definition sched_deadline (fair : bool) (s : Scheduler) : outcome (option Z) :=
  let* ts := ready_times s (if fair then queue s else take 1 (queue s)) in
  Ok (opt_min (min_list ts) (min_list (omap q_deadline (queue s)))).

(** ** Invariant *)
Record udp_config_ok (c : UdpConfig) : Prop := {
  uc_valid : validate c = Ok tt;
  uc_queue : 0 <= queue_capacity c < W64;
  uc_peers : 0 <= peer_capacity c < W64;
  uc_services : 0 <= service_capacity c < W64;
  uc_tx_peers : 0 <= max_tx_peers c < W64;
  uc_per_peer : 0 <= per_peer_capacity c < W64;
  uc_budget : 0 <= tx_budget c < W64;
  uc_rate r : bytes_per_second c = Some r -> 0 <= r < W64;
  uc_peer_rate r : per_peer_bytes_per_second c = Some r -> 0 <= r < W64;
  uc_life l : queue_lifetime c = Some l -> 0 <= l <= DURATION_MAX;
  uc_events : 0 <= udp_event_capacity c < W64
}.
Lemma uc_positive c :
  udp_config_ok c ->
  0 < queue_capacity c /\ 0 < max_tx_peers c /\ 0 < per_peer_capacity c /\ 0 < tx_budget c
  /\ (forall r, bytes_per_second c = Some r -> 0 < r)
  /\ (forall r, per_peer_bytes_per_second c = Some r -> 0 < r).
Proof.
  intros []. revert uc_valid0. unfold validate. destruct (_ || _) eqn:E; [done|]. intros _.
  rewrite !orb_false_iff in E. destruct E as [[[[[[[[? ?] ?] ?] ?] ?] E1] E2] ?].
  apply bool_decide_eq_false in E1, E2. bools.
  split_and!; try lia; intros r Hr;
    [specialize (uc_rate0 r Hr)|specialize (uc_peer_rate0 r Hr)];
    (assert (r <> 0) by congruence); lia.
Qed.

Definition queued_to (d : SocketAddrV4) (qs : list Queued) : Z :=
  zlen (filter (fun q => q_destination q = d) qs).
Record sched_inv (cfg : UdpConfig) (s : Scheduler) : Prop := {
  si_count d b : sch_peers s !! d = Some b -> pb_count b = queued_to d (queue s);
  si_entry q : q ∈ queue s -> is_Some (sch_peers s !! q_destination q);
  si_len : zlen (queue s) <= queue_capacity cfg;
  si_peer d : queued_to d (queue s) <= per_peer_capacity cfg;
  si_peers : Z.of_nat (size (sch_peers s)) <= max_tx_peers cfg;
  si_dest : Forall (fun q => sock_ok (q_destination q)) (queue s);
  si_last l : sch_last s = Some l -> sock_ok l
}.

Lemma queued_to_app d l k : queued_to d (l ++ k) = queued_to d l + queued_to d k.
Proof. unfold queued_to. by rewrite filter_app, zlen_app. Qed.
Lemma queued_to_one d q : queued_to d [q] = if bool_decide (q_destination q = d) then 1 else 0.
Proof.
  unfold queued_to. case_bool_decide as E.
  - rewrite filter_cons_True by exact E. done.
  - rewrite filter_cons_False by exact E. done.
Qed.
Lemma queued_to_le d l : 0 <= queued_to d l <= zlen l.
Proof.
  unfold queued_to, zlen. pose proof (length_filter (fun q => q_destination q = d) l). lia.
Qed.
Lemma queued_to_zero d l : queued_to d l = 0 <-> forall q, q ∈ l -> q_destination q <> d.
Proof.
  unfold queued_to. split.
  - intros E q Hq Hd. apply zlen_zero_nil in E.
    assert (q ∈ filter (fun q => q_destination q = d) l) as Hin by (by apply list_elem_of_filter).
    rewrite E in Hin. by apply elem_of_nil in Hin.
  - intros F. destruct (filter _ l) as [|q k] eqn:E; [done|]. exfalso.
    assert (q ∈ filter (fun q => q_destination q = d) l) as Hin by (rewrite E; left).
    apply list_elem_of_filter in Hin as [? ?]. by apply (F q).
Qed.
Lemma delete_split {A} (l : list A) i x :
  l !! i = Some x -> exists l1 l2, l = l1 ++ x :: l2 /\ delete i l = l1 ++ l2 /\ length l1 = i.
Proof.
  intros H. exists (take i l), (drop (S i) l). split; [by rewrite take_drop_middle|].
  split; [apply delete_take_drop|]. rewrite length_take. apply lookup_lt_Some in H. lia.
Qed.
Lemma queued_to_delete d l i q :
  l !! i = Some q ->
  queued_to d (delete i l) = queued_to d l - (if bool_decide (q_destination q = d) then 1 else 0).
Proof.
  intros H. destruct (delete_split l i q H) as (l1 & l2 & -> & -> & _).
  rewrite (cons_middle q), !queued_to_app, queued_to_one. lia.
Qed.
Lemma elem_of_delete {A} (l : list A) i x : x ∈ delete i l -> x ∈ l.
Proof. intros H. by eapply elem_of_submseteq; [exact H|apply sublist_submseteq, sublist_delete]. Qed.
Lemma zlen_delete {A} (l : list A) i x : l !! i = Some x -> zlen (delete i l) = zlen l - 1.
Proof.
  intros H. destruct (delete_split l i x H) as (l1 & l2 & -> & -> & _). autorewrite with zlen. lia.
Qed.

Lemma scheduler_new_inv cfg : udp_config_ok cfg -> sched_inv cfg scheduler_new.
Proof.
  intros []. constructor; simpl; try done.
  - intros q Hq. by apply elem_of_nil in Hq.
  - rewrite zlen_nil. lia.
  - intros d. change (queued_to d []) with 0. lia.
  - rewrite map_size_empty. lia.
Qed.

Lemma admission_spec cfg peer now s :
  udp_config_ok cfg -> sched_inv cfg s ->
  exists r s', admission peer now cfg s = (r, s') /\ sched_inv cfg s'
    /\ queue s' = queue s /\ sch_next s' = sch_next s /\ sch_last s' = sch_last s
    /\ (forall d b, sch_peers s !! d = Some b ->
         sch_peers s' !! d = Some b \/ (sch_peers s' !! d = None /\ pb_next b <= now))
    /\ (forall d b, sch_peers s' !! d = Some b -> sch_peers s !! d = Some b)
    /\ (r = None ->
        zlen (queue s) < queue_capacity cfg /\ queued_to peer (queue s) < per_peer_capacity cfg
        /\ (sch_peers s' !! peer = None -> Z.of_nat (size (sch_peers s')) < max_tx_peers cfg)).
Proof.
  intros Hc []. unfold admission.
  set (m := filter (fun e => 0 < pb_count e.2 \/ now < pb_next e.2) (sch_peers s)).
  assert (forall d b, m !! d = Some b -> sch_peers s !! d = Some b) as Hm.
  { intros d b [? _]%map_lookup_filter_Some. done. }
  assert (size m <= size (sch_peers s))%nat as Sm by (apply map_subseteq_size, map_filter_subseteq).
  assert (forall q, q ∈ queue s -> is_Some (m !! q_destination q)) as He.
  { intros q Hq. destruct (si_entry0 q Hq) as [b Hb]. exists b. apply map_lookup_filter_Some.
    split; [done|]. left. simpl. rewrite (si_count0 _ _ Hb).
    destruct (queued_to_le (q_destination q) (queue s)) as [Hn _].
    destruct (Z.eq_dec (queued_to (q_destination q) (queue s)) 0) as [E|]; [|lia].
    by destruct (proj1 (queued_to_zero _ _) E q Hq). }
  eexists _, _. split; [reflexivity|]. cbn.
  split.
  { constructor; cbn; [|exact He|done|done| |done|done].
    - intros d b Hd. apply si_count0, Hm, Hd.
    - change (Z.of_nat (size m) <= max_tx_peers cfg). lia. }
  do 3 (split; [done|]). split; [|split; [done|]].
  { intros d b Hd. change (m !! d = Some b \/ (m !! d = None /\ pb_next b <= now)).
    destruct (decide (0 < pb_count b \/ now < pb_next b)) as [K|K].
    - left. by apply map_lookup_filter_Some.
    - right. split; [|lia]. apply map_lookup_filter_None. right. intros b' Hb' K'. simpl in K'.
      congruence. }
  intros Hr. destruct (_ <=? _) eqn:El in Hr; [done|]. bools. split; [lia|].
  assert (m !! peer = None -> queued_to peer (queue s) = 0) as Hz.
  { intros E. apply queued_to_zero. intros q Hq Hd. destruct (He q Hq) as [b Hb].
    by rewrite Hd, E in Hb. }
  fold m in Hr. destruct (m !! peer) as [b|] eqn:Ep.
  - rewrite <- (si_count0 peer b (Hm _ _ Ep)). destruct (_ <=? _) eqn:E2 in Hr; [done|]. bools.
    split; [lia|]. intros E. change (m !! peer = None) in E. congruence.
  - rewrite Hz by done. pose proof (uc_positive _ Hc) as (? & ? & ? & _). split; [lia|].
    intros _. destruct (_ <=? _) eqn:E2 in Hr; [done|]. bools. exact E2.
Qed.

Lemma count_small n x : 0 <= x + n < W64 -> count n x = x + n.
Proof. intros. unfold count. by rewrite Z.mod_small. Qed.

Lemma push_spec cfg q s :
  udp_config_ok cfg -> sched_inv cfg s -> sock_ok (q_destination q) ->
  zlen (queue s) < queue_capacity cfg ->
  queued_to (q_destination q) (queue s) < per_peer_capacity cfg ->
  (sch_peers s !! q_destination q = None -> Z.of_nat (size (sch_peers s)) < max_tx_peers cfg) ->
  sched_inv cfg (push q s) /\ queue (push q s) = queue s ++ [q].
Proof.
  intros Hc I Hq Hl Hp Hs. split; [|done]. destruct I. unfold push.
  set (b := default (mkBudget 0 0) (sch_peers s !! q_destination q)).
  assert (pb_count b = queued_to (q_destination q) (queue s)) as Hb.
  { unfold b. destruct (sch_peers s !! q_destination q) eqn:E; simpl; [eauto|].
    symmetry. apply queued_to_zero. intros p Hp' Hd. destruct (si_entry0 p Hp') as [? X].
    by rewrite Hd, E in X. }
  pose proof (queued_to_le (q_destination q) (queue s)). destruct Hc.
  constructor; cbn.
  - intros d b' Hd. rewrite queued_to_app, queued_to_one.
    destruct (decide (q_destination q = d)) as [E|E].
    + subst d. rewrite lookup_insert_eq in Hd. injection Hd as <-. simpl.
      rewrite bool_decide_eq_true_2, Hb, count_small by (done || lia). lia.
    + rewrite lookup_insert_ne in Hd by done. rewrite bool_decide_eq_false_2 by done.
      rewrite (si_count0 _ _ Hd). lia.
  - intros p [Hp'| ->%list_elem_of_singleton]%elem_of_app.
    + destruct (decide (q_destination q = q_destination p)) as [-> |E];
        [rewrite lookup_insert_eq|rewrite lookup_insert_ne by done]; eauto.
    + by rewrite lookup_insert_eq.
  - rewrite zlen_app, zlen_cons, zlen_nil. lia.
  - intros d. rewrite queued_to_app, queued_to_one. specialize (si_peer0 d).
    case_bool_decide; subst; lia.
  - destruct (sch_peers s !! q_destination q) eqn:E.
    + rewrite map_size_insert_Some by eauto. done.
    + rewrite map_size_insert_None by done. specialize (Hs eq_refl). lia.
  - apply Forall_app. split; [done|]. by constructor.
  - done.
Qed.

Lemma sched_remove_spec cfg i q s :
  sched_inv cfg s -> udp_config_ok cfg -> queue s !! i = Some q ->
  exists s', remove i s = Ok (q, s') /\ sched_inv cfg s' /\ queue s' = delete i (queue s)
    /\ sch_next s' = sch_next s /\ sch_last s' = sch_last s
    /\ forall d, pb_next <$> sch_peers s' !! d = pb_next <$> sch_peers s !! d.
Proof.
  intros I [] Hi. unfold remove. rewrite Hi. pose proof (list_elem_of_lookup_2 _ _ _ Hi) as Hin.
  destruct (si_entry _ _ I q Hin) as [b Hb]. rewrite Hb. eexists. split; [reflexivity|].
  cbn. split; [|do 3 (split; [done|])].
  2:{ intros d. destruct (decide (q_destination q = d)) as [<-|]; [|by rewrite lookup_insert_ne].
      by rewrite lookup_insert_eq, Hb. }
  destruct I. pose proof (queued_to_le (q_destination q) (queue s)) as L.
  pose proof (queued_to_delete (q_destination q) _ i q Hi) as Q.
  rewrite bool_decide_eq_true_2 in Q by done.
  pose proof (queued_to_le (q_destination q) (delete i (queue s))).
  constructor; cbn.
  - intros d b' Hd. destruct (decide (q_destination q = d)) as [E|E].
    + subst d. rewrite lookup_insert_eq in Hd. injection Hd as <-. simpl.
      rewrite (si_count0 _ _ Hb), count_small by lia. lia.
    + rewrite lookup_insert_ne in Hd by done. rewrite (queued_to_delete d _ i q Hi).
      rewrite bool_decide_eq_false_2 by done. rewrite (si_count0 _ _ Hd). lia.
  - intros p Hp%elem_of_delete. destruct (decide (q_destination q = q_destination p)) as [-> |E];
      [rewrite lookup_insert_eq|rewrite lookup_insert_ne by done]; eauto.
  - rewrite (zlen_delete _ _ _ Hi). lia.
  - intros d. rewrite (queued_to_delete d _ i q Hi). specialize (si_peer0 d). case_bool_decide; lia.
  - rewrite map_size_insert_Some by eauto. done.
  - rewrite Forall_forall in *. intros p Hp%elem_of_delete. auto.
  - done.
Qed.

Lemma spacing_ok bytes rate :
  0 <= bytes -> (forall r, rate = Some r -> 0 < r) -> exists t, spacing bytes rate = Ok t /\ 0 <= t.
Proof.
  intros Hb Hr. unfold spacing. destruct rate as [r|]; [|by exists 0].
  specialize (Hr r eq_refl). rewrite (proj2 (Z.eqb_neq _ _)) by lia. eexists. split; [done|].
  assert (0 <= (bytes * SECOND + r - 1) / r) by (apply Z.div_pos; unfold SECOND; lia).
  assert (0 <= (bytes * SECOND + r - 1) / r / SECOND) by (apply Z.div_pos; [done|reflexivity]).
  pose proof (Z.mod_pos_bound ((bytes * SECOND + r - 1) / r) SECOND eq_refl).
  apply Z.add_nonneg_nonneg; [|lia]. apply Z.mul_nonneg_nonneg; [unfold U64MAX; lia|done].
Qed.
Lemma accepted_spec cfg i q s bytes now :
  sched_inv cfg s -> udp_config_ok cfg -> queue s !! i = Some q -> 0 <= bytes ->
  exists s' all one, accepted (q_destination q) bytes now cfg s = Ok s' /\ sched_inv cfg s'
    /\ queue s' = queue s /\ sch_last s' = Some (q_destination q)
    /\ spacing bytes (bytes_per_second cfg) = Ok all /\ sch_next s' = dur_add now all
    /\ spacing bytes (per_peer_bytes_per_second cfg) = Ok one
    /\ forall d, pb_next <$> sch_peers s' !! d
               = if bool_decide (d = q_destination q) then Some (dur_add now one)
                 else pb_next <$> sch_peers s !! d.
Proof.
  intros I Hc Hi Hb. pose proof (uc_positive _ Hc) as (_ & _ & _ & _ & R1 & R2).
  destruct (spacing_ok bytes _ Hb R1) as (all & E1 & _).
  destruct (spacing_ok bytes _ Hb R2) as (one & E2 & _).
  pose proof (list_elem_of_lookup_2 _ _ _ Hi) as Hin.
  destruct (si_entry _ _ I q Hin) as [b Eb].
  unfold accepted. rewrite E1, E2. cbn [obind]. rewrite Eb. eexists _, all, one. split; [done|].
  cbn. split; [|do 5 (split; [done|])].
  2:{ intros d. case_bool_decide; subst; [by rewrite lookup_insert_eq|by rewrite lookup_insert_ne]. }
  destruct I. constructor; cbn; try done.
  - intros d b' Hd. destruct (decide (q_destination q = d)) as [<-|E].
    + rewrite lookup_insert_eq in Hd. injection Hd as <-. simpl. eauto.
    + rewrite lookup_insert_ne in Hd by done. eauto.
  - intros p Hp. destruct (decide (q_destination q = q_destination p)) as [-> |E];
      [rewrite lookup_insert_eq|rewrite lookup_insert_ne by done]; eauto.
  - rewrite map_size_insert_Some by eauto. done.
  - intros l [= <-]. rewrite Forall_forall in si_dest0. by apply si_dest0.
Qed.

(** ** The choice of a datagram *)
Definition eligible (s : Scheduler) (now : Z) (blocked : list SocketAddrV4) (d : SocketAddrV4)
  : Prop := d ∉ blocked /\ exists t, pb_next <$> sch_peers s !! d = Some t /\ t <= now.
#[export] Instance eligible_dec s now blocked d : Decision (eligible s now blocked d).
Proof.
  unfold eligible. destruct (pb_next <$> sch_peers s !! d) as [t|] eqn:E.
  - destruct (decide (d ∈ blocked)); [right; tauto|].
    destruct (decide (t <= now)); [left; eauto|right; intros (_ & ? & [= <-] & ?); done].
  - right. by intros (_ & ? & ? & _).
Defined.
Lemma ready_ok cfg s now blocked q :
  sched_inv cfg s -> q ∈ queue s ->
  ready s now blocked q = Ok (bool_decide (eligible s now blocked (q_destination q))).
Proof.
  intros I Hq. destruct (si_entry _ _ I q Hq) as [b Hb]. unfold ready. rewrite Hb.
  destruct (decide (q_destination q ∈ blocked)) as [E|E].
  - rewrite bool_decide_eq_true_2 by done. rewrite bool_decide_eq_false_2; [done|]. by intros [? _].
  - rewrite bool_decide_eq_false_2 by done. f_equal. symmetry.
    destruct (pb_next b <=? now) eqn:El; bools.
    + apply bool_decide_eq_true_2. split; [done|]. rewrite Hb. by eexists.
    + apply bool_decide_eq_false_2. unfold eligible. rewrite Hb. intros (_ & ? & [= <-] & ?). lia.
Qed.
Lemma filter_ready_ok cfg s now blocked k qs :
  sched_inv cfg s -> (forall q, q ∈ qs -> q ∈ queue s) ->
  exists l, filter_ready s now blocked k qs = Ok l /\
    forall i q, (i, q) ∈ l <->
      (k <= i)%nat /\ qs !! (i - k)%nat = Some q /\ eligible s now blocked (q_destination q).
Proof.
  intros I. revert k. induction qs as [|q qs IH]; intros k Hin; simpl.
  { exists []. split; [done|]. intros i q. split; [by intros ?%elem_of_nil|]. by intros (_ & ? & _). }
  rewrite (ready_ok cfg) by (done || apply Hin; left). cbn [obind].
  destruct (IH (S k)) as (l & -> & Hl); [intros p Hp; apply Hin; by right|]. cbn [obind].
  eexists. split; [reflexivity|]. intros i p.
  assert (forall i, (S k <= i)%nat -> (i - k)%nat = S (i - S k)) as Hs by (intros; lia).
  case_bool_decide as E; [rewrite elem_of_cons|]; rewrite Hl.
  - split.
    + intros [[= -> ->]|(H1 & H2 & H3)]; [by rewrite Nat.sub_diag|].
      split; [lia|]. by rewrite Hs.
    + intros (H1 & H2 & H3). destruct (decide (i = k)) as [-> |].
      * rewrite Nat.sub_diag in H2. injection H2 as ->. by left.
      * right. rewrite Hs in H2 by lia. split; [lia|done].
  - split.
    + intros (H1 & H2 & H3). split; [lia|]. by rewrite Hs.
    + intros (H1 & H2 & H3). destruct (decide (i = k)) as [-> |].
      * rewrite Nat.sub_diag in H2. by injection H2 as ->.
      * rewrite Hs in H2 by lia. split; [lia|done].
Qed.

Lemma rank_ltb_key last i p j q :
  sock_ok (q_destination p) -> sock_ok (q_destination q) ->
  rank_ltb last (i, p) (j, q) = true <->
  let w d := Z.b2z (wrapped last d) in
  let d := q_destination p in
  let e := q_destination q in
  w d < w e \/ (w d = w e /\ (sock_key d < sock_key e \/ (sock_key d = sock_key e /\ (i < j)%nat))).
Proof.
  intros Hp Hq. unfold rank_ltb. rewrite sock_ltb_key by done. cbv zeta.
  generalize (wrapped last (q_destination p)), (wrapped last (q_destination q)). intros v w.
  rewrite orb_true_iff, !andb_true_iff, orb_true_iff, andb_true_iff, negb_true_iff,
    Bool.eqb_true_iff, Z.ltb_lt, Nat.ltb_lt, sock_eqb_eq.
  assert (q_destination p = q_destination q <-> sock_key (q_destination p) = sock_key (q_destination q))
    as -> by (split; [by intros ->|by apply sock_key_inj]).
  destruct v, w; simpl; intuition (try lia; try done).
Qed.
#[global] Arguments rank_ltb : simpl never.
Lemma min_by_spec last l y :
  Forall (fun x : nat * Queued => sock_ok (q_destination x.2)) l ->
  min_by (rank_ltb last) l = Some y ->
  y ∈ l /\ forall x, x ∈ l -> rank_ltb last x y = false.
Proof.
  intros F. revert y. induction l as [|x l IH]; intros y; [done|].
  apply Forall_cons in F as [Hx F]. rewrite Forall_forall in F. simpl.
  assert (forall a, rank_ltb last a a = false) as Irr.
  { intros [i p]. unfold rank_ltb. rewrite andb_negb_l, Bool.eqb_reflx, Nat.ltb_irrefl.
    unfold sock_ltb. by rewrite !Z.ltb_irrefl, !andb_false_r. }
  destruct (min_by _ l) as [z|] eqn:E.
  2:{ intros [= <-]. split; [left|]. intros w Hw. assert (l = []) as -> by (destruct l; [done|simpl in E; by destruct (min_by _ l)]).
      apply list_elem_of_singleton in Hw as ->. apply Irr. }
  destruct (IH ltac:(by apply Forall_forall) z eq_refl) as [Hz Hmin].
  pose proof (F z Hz) as Oz. destruct (rank_ltb last z x) eqn:Er; intros [= <-].
  - split; [by right|]. intros w [-> |Hw]%elem_of_cons; [|auto].
    apply not_true_iff_false. destruct z as [i p], x as [j q]. simpl in *.
    intros Hr. rewrite rank_ltb_key in Er, Hr by done. cbv zeta in *.
    lia.
  - split; [left|]. intros w [-> |Hw]%elem_of_cons; [apply Irr|].
    pose proof (Hmin w Hw) as Hwz. pose proof (F w Hw) as Ow.
    apply not_true_iff_false in Er, Hwz. apply not_true_iff_false. intros Hr.
    destruct z as [i p], x as [j q], w as [k r]. unfold not in *.
    rewrite rank_ltb_key in Er, Hwz, Hr by done. cbv zeta in *. simpl in Hx, Oz, Ow.
    lia.
Qed.

(** In fair mode the oldest datagram of the first eligible destination after the last one
    served, cyclically; in FIFO mode the head of the queue or nothing. *)
Lemma candidate_spec cfg now fair blocked s :
  sched_inv cfg s ->
  exists r, candidate now fair blocked s = Ok r /\
    match r with
    | Some i => sch_next s <= now /\ exists q, queue s !! i = Some q
        /\ eligible s now blocked (q_destination q)
        /\ if fair then
             forall j p, queue s !! j = Some p -> eligible s now blocked (q_destination p) ->
               rank_ltb (sch_last s) (j, p) (i, q) = false
           else i = 0%nat
    | None => sch_next s <= now ->
        forall j p, queue s !! j = Some p -> (fair = false -> j = 0%nat) ->
          ~ eligible s now blocked (q_destination p)
    end.
Proof.
  intros I. unfold candidate. destruct (now <? sch_next s) eqn:En; bools.
  { exists None. split; [done|]. lia. }
  destruct fair; cbn [negb].
  - destruct (filter_ready_ok cfg s now blocked 0 (queue s) I ltac:(done)) as (l & -> & Hl).
    cbn [obind]. eexists. split; [reflexivity|].
    assert (Forall (fun x : nat * Queued => sock_ok (q_destination x.2)) l) as F.
    { apply Forall_forall. intros [i q] (_ & Hi & _)%Hl. rewrite Nat.sub_0_r in Hi.
      pose proof (si_dest _ _ I) as D. rewrite Forall_forall in D.
      by apply D, list_elem_of_lookup_2 with i. }
    destruct (min_by _ l) as [[i q]|] eqn:Em; simpl.
    + destruct (min_by_spec _ _ _ F Em) as [Hin Hmin]. apply Hl in Hin as (_ & Hi & He).
      rewrite Nat.sub_0_r in Hi. split; [done|]. exists q. do 2 (split; [done|]).
      intros j p Hj Hp. apply Hmin, Hl. split; [lia|]. by rewrite Nat.sub_0_r.
    + intros _ j p Hj _ Hp. assert ((j, p) ∈ l) as Hin.
      { apply Hl. split; [lia|]. by rewrite Nat.sub_0_r. }
      destruct l as [|x l]; [by apply elem_of_nil in Hin|]. simpl in Em. by destruct (min_by _ l).
  - destruct (queue s) as [|q qs] eqn:Eq.
    { exists None. split; [done|]. intros _ j p Hj. by rewrite lookup_nil in Hj. }
    rewrite (ready_ok cfg) by (done || rewrite Eq; left). cbn [obind]. eexists. split; [reflexivity|].
    case_bool_decide as E.
    + split; [done|]. exists q. done.
    + intros _ j p Hj H0. rewrite (H0 eq_refl) in Hj. by injection Hj as <-.
Qed.
