(* ===== verification/UdpSchedProps.v ===== *)
(** * Properties of the UDP scheduler: fairness and pacing

    A run of the scheduler is a sequence of its operations at non-decreasing times: an
    admission that refuses, an admission followed by [push], a [remove] (a datagram that
    expires, fails or is cancelled) and a submission, which is [candidate], [accepted] and
    [remove] as [UdpPool::flush] calls them. *)
From Stdlib Require Import ZArith Lia Bool.
From stdpp Require Import base numbers option list gmap.
From S2P Require Import Prelude BufferPool Addr UdpSched.
#[local] Open Scope Z_scope.

Inductive sched_event : Type :=
| Pushed (d : SocketAddrV4)
| Served (at_ bytes : Z) (d : SocketAddrV4).

Section Runs.
Context (cfg : UdpConfig) (fair : bool).
(** What holds of the state, the time and the blocked destinations of each submission. *)
Context (guard : Scheduler -> Z -> list SocketAddrV4 -> Prop).

Inductive sched_run (s0 : Scheduler) (t0 : Z) : list sched_event -> Scheduler -> Z -> Prop :=
| run_start : sched_run s0 t0 [] s0 t0
| run_reject tr s t now peer f s' :
    sched_run s0 t0 tr s t -> t <= now -> admission peer now cfg s = (Some f, s') ->
    sched_run s0 t0 tr s' now
| run_push tr s t now q s' :
    sched_run s0 t0 tr s t -> t <= now -> sock_ok (q_destination q) ->
    admission (q_destination q) now cfg s = (None, s') ->
    sched_run s0 t0 (tr ++ [Pushed (q_destination q)]) (push q s') now
| run_drop tr s t now i q s' :
    sched_run s0 t0 tr s t -> t <= now -> remove i s = Ok (q, s') -> sched_run s0 t0 tr s' now
| run_serve tr s t now blocked bytes i q s1 s' :
    sched_run s0 t0 tr s t -> t <= now -> 0 <= bytes <= U64MAX -> guard s now blocked ->
    candidate now fair blocked s = Ok (Some i) -> queue s !! i = Some q ->
    accepted (q_destination q) bytes now cfg s = Ok s1 -> remove i s1 = Ok (q, s') ->
    sched_run s0 t0 (tr ++ [Served now bytes (q_destination q)]) s' now.

Definition served (tr : list sched_event) : list (Z * Z * SocketAddrV4) :=
  omap (fun e => match e with Served t b d => Some (t, b, d) | Pushed _ => None end) tr.
Definition pushed (tr : list sched_event) : list SocketAddrV4 :=
  omap (fun e => match e with Pushed d => Some d | Served _ _ _ => None end) tr.

Context (Hcfg : udp_config_ok cfg).
Lemma run_inv s0 t0 tr s t : sched_inv cfg s0 -> sched_run s0 t0 tr s t -> sched_inv cfg s.
Proof.
  intros I0. induction 1 as [|tr s t now peer f s' _ I _ E|tr s t now q s' _ I _ Hq E
    |tr s t now i q s' _ I _ E|tr s t now blocked bytes i q s1 s' _ I _ Hb _ Ec Hi Ea Er]; [done|..].
  - destruct (admission_spec cfg peer now s Hcfg I) as (r & s1 & E' & I1 & _). congruence.
  - destruct (admission_spec cfg (q_destination q) now s Hcfg I) as (r & s1 & E' & I1 & Eq & _ & _ & _ & _ & Hr).
    rewrite E in E'. injection E' as <- <-. destruct (Hr eq_refl) as (? & ? & ?).
    apply push_spec; rewrite ?Eq; done.
  - unfold remove in E. destruct (queue s !! i) as [q'|] eqn:Hi; [|done].
    destruct (sched_remove_spec cfg i q' s I Hcfg Hi) as (s1 & E' & I1 & _). unfold remove in E'.
    rewrite Hi in E'. congruence.
  - destruct (accepted_spec cfg i q s bytes now I Hcfg Hi) as (s2 & ? & ? & Ea' & I2 & Eq & _); [lia|].
    rewrite Ea in Ea'. injection Ea' as <-.
    destruct (sched_remove_spec cfg i q s1 I2 Hcfg) as (s3 & E' & I3 & _); [by rewrite Eq|]. congruence.
Qed.

(** ** Fairness *)
Definition backlogged (d : SocketAddrV4) (s : Scheduler) : Prop := exists q, q ∈ queue s /\ q_destination q = d.
(** [e] comes before [d] in the service order that starts after [last]. *)
Definition before (last : option SocketAddrV4) (e d : SocketAddrV4) : Prop :=
  Z.b2z (wrapped last e) < Z.b2z (wrapped last d)
  \/ (Z.b2z (wrapped last e) = Z.b2z (wrapped last d) /\ sock_key e < sock_key d).

(** Once served, a destination is behind [d] until [d] is served: the service order
    only moves towards [d]. *)
Lemma before_advance last e d x :
  sock_ok e -> sock_ok d -> sock_ok x -> (forall l, last = Some l -> sock_ok l) ->
  before last e d -> ~ before last x d -> ~ before (Some e) x d.
Proof.
  intros He Hd Hx Hl. unfold before, wrapped. rewrite !(sock_leb_key _ e) by done.
  destruct last as [l|].
  - rewrite !(sock_leb_key _ l) by auto.
    destruct (sock_key e <=? sock_key l) eqn:E1, (sock_key d <=? sock_key l) eqn:E2,
      (sock_key x <=? sock_key l) eqn:E3, (sock_key x <=? sock_key e) eqn:E4,
      (sock_key d <=? sock_key e) eqn:E5; bools; simpl; lia.
  - destruct (sock_key x <=? sock_key e) eqn:E4, (sock_key d <=? sock_key e) eqn:E5; bools; simpl; lia.
Qed.
Lemma before_self e d : sock_ok e -> sock_ok d -> ~ before (Some e) e d.
Proof.
  intros He Hd. unfold before, wrapped. rewrite !sock_leb_key, Z.leb_refl by done.
  destruct (sock_key d <=? sock_key e) eqn:E5; bools; simpl; lia.
Qed.
Lemma candidate_before s now blocked i q d :
  sched_inv cfg s -> candidate now true blocked s = Ok (Some i) -> queue s !! i = Some q ->
  backlogged d s -> eligible s now blocked d -> q_destination q <> d ->
  before (sch_last s) (q_destination q) d.
Proof.
  intros I Ec Hi (p & Hp & <-) He Hne. apply list_elem_of_lookup_1 in Hp as [j Hj].
  destruct (candidate_spec cfg now true blocked s I) as (r & Ec' & Hr). rewrite Ec in Ec'.
  injection Ec' as <-. destruct Hr as (_ & q' & Hi' & _ & Hmin). rewrite Hi in Hi'. injection Hi' as <-.
  specialize (Hmin j p Hj He). apply not_true_iff_false in Hmin. unfold not in Hmin.
  pose proof (si_dest _ _ I) as F. rewrite Forall_forall in F.
  pose proof (F _ (list_elem_of_lookup_2 _ _ _ Hi)) as Oq. pose proof (F _ (list_elem_of_lookup_2 _ _ _ Hj)) as Op.
  rewrite rank_ltb_key in Hmin by done. cbv zeta in Hmin. unfold before.
  assert (sock_key (q_destination q) <> sock_key (q_destination p)).
  { intros E. by apply sock_key_inj in E. }
  lia.
Qed.

Lemma omap_snoc {A B} (f : A -> option B) l x : omap f (l ++ [x]) = omap f l ++ option_list (f x).
Proof. rewrite omap_app. simpl. by destruct (f x). Qed.
Definition destinations (tr : list sched_event) : list SocketAddrV4 := (served tr).*2.
Lemma destinations_push tr d : destinations (tr ++ [Pushed d]) = destinations tr.
Proof. unfold destinations, served. rewrite omap_snoc. simpl. by rewrite app_nil_r. Qed.
Lemma destinations_serve tr t b d : destinations (tr ++ [Served t b d]) = destinations tr ++ [d].
Proof. unfold destinations, served. rewrite omap_snoc. simpl. by rewrite fmap_app. Qed.
Lemma pushed_push tr d : pushed (tr ++ [Pushed d]) = pushed tr ++ [d].
Proof. unfold pushed. by rewrite omap_snoc. Qed.
Lemma pushed_serve tr t b d : pushed (tr ++ [Served t b d]) = pushed tr.
Proof. unfold pushed. rewrite omap_snoc. simpl. by rewrite app_nil_r. Qed.

(** Only destinations that were queued at the start or pushed since are served. *)
Lemma run_sources s0 t0 tr s t d :
  sched_inv cfg s0 -> sched_run s0 t0 tr s t ->
  (backlogged d s \/ d ∈ destinations tr) -> backlogged d s0 \/ d ∈ pushed tr.
Proof.
  intros I0. induction 1 as [|tr s t now peer f s' R IH _ E|tr s t now q s' R IH _ Hq E
    |tr s t now i q s' R IH _ E|tr s t now blocked bytes i q s1 s' R IH _ Hb _ Ec Hi Ea Er];
    [intros [?|[]%elem_of_nil]; by left|..]; pose proof (run_inv _ _ _ _ _ I0 R) as I.
  - destruct (admission_spec cfg peer now s Hcfg I) as (r & s1 & E' & _ & Eq & _).
    rewrite E in E'. injection E' as <- <-. unfold backlogged in *. by rewrite Eq.
  - destruct (admission_spec cfg (q_destination q) now s Hcfg I) as (r & s1 & E' & _ & Eq & _).
    rewrite E in E'. injection E' as <- <-. rewrite destinations_push, pushed_push, elem_of_app.
    unfold backlogged in *. cbn. rewrite Eq. rewrite list_elem_of_singleton.
    intros [(p & [Hp| ->%list_elem_of_singleton]%elem_of_app & Hd)|Hd]; [| by auto |];
      destruct IH as [?|?]; eauto.
  - unfold remove in E. destruct (queue s !! i) as [q'|] eqn:Hi; [|done].
    destruct (sched_remove_spec cfg i q' s I Hcfg Hi) as (s1 & E' & _ & Eq & _). unfold remove in E'.
    rewrite Hi in E'. rewrite E in E'. injection E' as <- <-. intros Hd. apply IH.
    destruct Hd as [(p & Hp & Hd)|?]; [|by auto]. rewrite Eq in Hp. apply elem_of_delete in Hp.
    left. by exists p.
  - destruct (accepted_spec cfg i q s bytes now I Hcfg Hi) as (s2 & ? & ? & Ea' & I2 & Eq & _); [lia|].
    rewrite Ea in Ea'. injection Ea' as <-.
    destruct (sched_remove_spec cfg i q s1 I2 Hcfg) as (s3 & E' & I3 & Eq3 & _); [by rewrite Eq|].
    rewrite Er in E'. injection E' as <-. rewrite destinations_serve, pushed_serve, elem_of_app, list_elem_of_singleton.
    intros Hd. apply IH. destruct Hd as [(p & Hp & Hd)|[?| ->]]; [|by auto|].
    + rewrite Eq3, Eq in Hp. apply elem_of_delete in Hp. left. by exists p.
    + left. exists q. split; [by eapply list_elem_of_lookup_2|done].
Qed.
End Runs.

Definition waits (d : SocketAddrV4) (s : Scheduler) (now : Z) (blocked : list SocketAddrV4) : Prop :=
  backlogged d s /\ eligible s now blocked d.

Lemma fair_order cfg d s0 t0 tr s t :
  udp_config_ok cfg -> sock_ok d -> sched_inv cfg s0 -> sched_run cfg true (waits d) s0 t0 tr s t ->
  d ∉ destinations tr ->
  NoDup (destinations tr)
  /\ forall e, e ∈ destinations tr -> sock_ok e /\ ~ before (sch_last s) e d.
Proof.
  intros Hc Hd I0. induction 1 as [|tr s t now peer f s' R IH _ E|tr s t now q s' R IH _ Hq E
    |tr s t now i q s' R IH _ E|tr s t now blocked bytes i q s1 s' R IH _ Hb [Hw He] Ec Hi Ea Er];
    [intros _; split; [constructor|intros e []%elem_of_nil]|..];
    pose proof (run_inv _ _ _ Hc _ _ _ _ _ I0 R) as I.
  - destruct (admission_spec cfg peer now s Hc I) as (r & s1 & E' & _ & _ & _ & El & _).
    rewrite E in E'. injection E' as <- <-. by rewrite El.
  - destruct (admission_spec cfg (q_destination q) now s Hc I) as (r & s1 & E' & _ & _ & _ & El & _).
    rewrite E in E'. injection E' as <- <-. rewrite destinations_push. cbn. by rewrite El.
  - unfold remove in E. destruct (queue s !! i) as [q'|] eqn:Hi; [|done].
    destruct (sched_remove_spec cfg i q' s I Hc Hi) as (s1 & E' & _ & _ & _ & El & _). unfold remove in E'.
    rewrite Hi in E'. rewrite E in E'. injection E' as <- <-. by rewrite El.
  - rewrite destinations_serve. intros [Hn Hne]%not_elem_of_app.
    apply not_elem_of_cons in Hne as [Hne _]. destruct (IH Hn) as [Nd Ho].
    destruct (accepted_spec cfg i q s bytes now I Hc Hi) as (s2 & ? & ? & Ea' & I2 & Eq & El & _); [lia|].
    rewrite Ea in Ea'. injection Ea' as <-.
    destruct (sched_remove_spec cfg i q s1 I2 Hc) as (s3 & E' & _ & _ & _ & El3 & _); [by rewrite Eq|].
    rewrite Er in E'. injection E' as <-.
    pose proof (candidate_before cfg s now blocked i q d I Ec Hi Hw He ltac:(done)) as B.
    assert (sock_ok (q_destination q)) as Oq.
    { pose proof (si_dest _ _ I) as F. rewrite Forall_forall in F. eapply F, list_elem_of_lookup_2, Hi. }
    split.
    + apply NoDup_app. split; [done|]. split; [|by repeat constructor; apply not_elem_of_nil].
      intros e He' ->%list_elem_of_singleton. by apply (Ho _ He').
    + intros e [He'| ->%list_elem_of_singleton]%elem_of_app; rewrite El3, El.
      * destruct (Ho e He') as [Oe Hb']. split; [done|].
        eapply before_advance; [| | | |exact B|exact Hb']; try done. apply (si_last _ _ I).
      * split; [done|]. by apply before_self.
Qed.

Lemma waiting_candidate cfg d s now blocked :
  sched_inv cfg s -> waits d s now blocked -> sch_next s <= now ->
  exists i, candidate now true blocked s = Ok (Some i).
Proof.
  intros I [(q & Hq & <-) He] Hn. apply list_elem_of_lookup_1 in Hq as [j Hj].
  destruct (candidate_spec cfg now true blocked s I) as ([i|] & E & Hr); [eauto|].
  exfalso. by apply (Hr Hn j q Hj).
Qed.

(** C39. No starvation under fair queueing.  While a destination [d] has a datagram queued
    and is neither blocked nor paced at the submissions, and other datagrams are pushed,
    refused, dropped and submitted in any order: a submission finds a candidate whenever the
    link is free, and until [d] is served no other destination is served twice.  So [d] waits
    for fewer submissions than there are destinations. *)
Theorem udp_round_robin cfg d s0 t0 tr s t :
  udp_config_ok cfg -> sched_inv cfg s0 -> backlogged d s0 ->
  sched_run cfg true (waits d) s0 t0 tr s t -> d ∉ destinations tr ->
  NoDup (destinations tr)
  /\ (length (destinations tr)
      < length (remove_dups ((q_destination <$> queue s0) ++ pushed tr)))%nat
  /\ forall now blocked, waits d s now blocked -> sch_next s <= now ->
       exists i, candidate now true blocked s = Ok (Some i).
Proof.
  intros Hc I0 B0 R Hn. pose proof (run_inv _ _ _ Hc _ _ _ _ _ I0 R) as I.
  assert (sock_ok d) as Hd.
  { destruct B0 as (q & Hq & <-). pose proof (si_dest _ _ I0) as F. rewrite Forall_forall in F. auto. }
  destruct (fair_order cfg d s0 t0 tr s t Hc Hd I0 R Hn) as [Nd _].
  split; [done|]. split; [|intros; by eapply waiting_candidate].
  assert (NoDup (d :: destinations tr)) as Nd' by (by constructor).
  enough (length (d :: destinations tr)
    <= length (remove_dups ((q_destination <$> queue s0) ++ pushed tr)))%nat by (simpl in *; lia).
  apply submseteq_length, NoDup_submseteq; [done|]. intros e He. apply elem_of_remove_dups, elem_of_app.
  assert (backlogged e s0 \/ e ∈ pushed tr) as [(q & Hq & <-)|]; [|left; by apply list_elem_of_fmap_2|by right].
  apply elem_of_cons in He as [-> |He]; [by left|].
  eapply (run_sources cfg true (waits d) Hc); [done|exact R|by right].
Qed.

(** ** Pacing *)
Definition total (l : list (Z * Z)) : Z := foldr (fun e n => e.2 + n) 0 l.
(** In every window of the submissions [l] (time, bytes), the bytes before the last
    submission of the window fit in [rate] bytes per second. *)
Definition paced (rate : Z) (l : list (Z * Z)) : Prop :=
  forall i j a b, l !! i = Some a -> l !! j = Some b -> (i <= j)%nat ->
    total (take (j - i) (drop i l)) * SECOND <= rate * (b.1 - a.1).
Lemma total_app l k : total (l ++ k) = total l + total k.
Proof. induction l as [|e l IH]; simpl; lia. Qed.
Lemma paced_nil r : paced r [].
Proof. intros i j a b Hi. by rewrite lookup_nil in Hi. Qed.
Lemma paced_one r e : paced r [e].
Proof.
  intros [|i] [|j] a b Hi Hj Hle; simpl in *; try done; try lia.
  injection Hi as <-. injection Hj as <-. lia.
Qed.
Lemma paced_snoc r l a b :
  paced r (l ++ [a]) -> a.2 * SECOND <= r * (b.1 - a.1) -> paced r ((l ++ [a]) ++ [b]).
Proof.
  intros P Hab i j x y Hi Hj Hle.
  assert (length (l ++ [a]) = S (length l)) as La by (rewrite length_app; simpl; lia).
  destruct (decide (j < S (length l))%nat) as [Hlt|Hge].
  - rewrite lookup_app_l in Hi, Hj by lia. rewrite drop_app_le by lia.
    rewrite take_app_le by (rewrite length_drop; lia). by apply P.
  - rewrite lookup_app_r in Hj by lia. apply lookup_lt_Some in Hj as Hj'. simpl in Hj'.
    assert (j = S (length l)) as -> by lia. rewrite La, Nat.sub_diag in Hj. injection Hj as <-.
    destruct (decide (i = S (length l))) as [-> |Hi'].
    { rewrite lookup_app_r, La, Nat.sub_diag in Hi by lia. injection Hi as <-.
      rewrite Nat.sub_diag. simpl. lia. }
    rewrite lookup_app_l in Hi by lia. rewrite drop_app_le, take_app_le by (rewrite ?length_drop; lia).
    rewrite take_ge by (rewrite length_drop; lia). rewrite drop_app_le by lia. rewrite total_app.
    specialize (P i (length l) x a Hi). rewrite list_lookup_middle in P by done.
    specialize (P eq_refl ltac:(lia)). rewrite drop_app_le in P by lia.
    rewrite take_app_le in P by (rewrite length_drop; lia).
    rewrite take_ge in P by (rewrite length_drop; lia). simpl. lia.
Qed.

(** The spacing after a submission pays for its bytes, unless the clock saturates. *)
Lemma spacing_pays bytes r t :
  0 <= bytes <= U64MAX -> 0 < r -> spacing bytes (Some r) = Ok t -> bytes * SECOND <= r * t.
Proof.
  intros Hb Hr. unfold spacing. rewrite (proj2 (Z.eqb_neq _ _)) by lia.
  set (ns := (bytes * SECOND + r - 1) / r).
  assert (bytes * SECOND <= r * ns /\ r * ns <= bytes * SECOND + r - 1) as [H1 H2].
  { pose proof (Z.div_mod (bytes * SECOND + r - 1) r). pose proof (Z.mod_pos_bound (bytes * SECOND + r - 1) r).
    fold ns in H. lia. }
  intros [= <-]. rewrite Z.min_l.
  - rewrite (Z.mul_comm (ns / SECOND)), <- Z.div_mod by (unfold SECOND; lia). done.
  - apply Z.div_le_upper_bound; [reflexivity|]. unfold SECOND, U64MAX in *. nia.
Qed.

Definition to_peer (d : SocketAddrV4) (l : list (Z * Z * SocketAddrV4)) : list (Z * Z) :=
  (filter (fun e => e.2 = d) l).*1.
Definition next_of (s : Scheduler) (d : SocketAddrV4) : Z := default 0 (pb_next <$> sch_peers s !! d).
Lemma served_serve tr t b d : served (tr ++ [Served t b d]) = served tr ++ [(t, b, d)].
Proof. unfold served. by rewrite omap_snoc. Qed.
Lemma served_push tr d : served (tr ++ [Pushed d]) = served tr.
Proof. unfold served. rewrite omap_snoc. simpl. by rewrite app_nil_r. Qed.
Lemma to_peer_snoc d l t b e :
  to_peer d (l ++ [(t, b, e)]) = to_peer d l ++ (if bool_decide (e = d) then [(t, b)] else []).
Proof.
  unfold to_peer. rewrite filter_app, fmap_app. f_equal. case_bool_decide as E.
  - by rewrite filter_cons_True by exact E.
  - by rewrite filter_cons_False by exact E.
Qed.
Lemma admission_next cfg peer now s r s' d :
  udp_config_ok cfg -> sched_inv cfg s -> admission peer now cfg s = (r, s') ->
  next_of s d <= Z.max now (next_of s' d) /\ sch_next s' = sch_next s.
Proof.
  intros Hc I E. destruct (admission_spec cfg peer now s Hc I) as (r' & s1 & E' & _ & _ & En & _ & K & _).
  rewrite E in E'. injection E' as <- <-. split; [|done]. unfold next_of.
  destruct (sch_peers s !! d) as [b|] eqn:Eb; [|simpl; destruct (sch_peers s' !! d) eqn:Es; simpl; [|lia]].
  - destruct (K d b Eb) as [-> |[-> Hn]]; simpl; lia.
  - destruct (admission_spec cfg peer now s Hc I) as (r'' & s2 & E'' & _ & _ & _ & _ & _ & B & _).
    rewrite E in E''. injection E'' as <- <-. rewrite (B _ _ Es) in Eb. done.
Qed.
Lemma push_next q s d : next_of (push q s) d = next_of s d.
Proof.
  unfold push, next_of. cbn. destruct (decide (q_destination q = d)) as [<-|].
  - rewrite lookup_insert_eq. simpl. by destruct (sch_peers s !! q_destination q).
  - by rewrite lookup_insert_ne.
Qed.
Lemma remove_next cfg i q s s' d :
  udp_config_ok cfg -> sched_inv cfg s -> remove i s = Ok (q, s') ->
  next_of s' d = next_of s d /\ sch_next s' = sch_next s.
Proof.
  intros Hc I E. unfold remove in E. destruct (queue s !! i) as [q'|] eqn:Hi; [|done].
  destruct (sched_remove_spec cfg i q' s I Hc Hi) as (s1 & E' & _ & _ & En & _ & Hn). unfold remove in E'.
  rewrite Hi, E in E'. injection E' as <- <-. unfold next_of. by rewrite Hn.
Qed.

(** The last submission of [l], under [rate], allows the next one at [limit]. *)
Definition gap (rate : option Z) (l : list (Z * Z)) (limit : Z) : Prop :=
  forall k a, l = k ++ [a] -> 0 <= a.2 <= U64MAX
    /\ exists sp, spacing a.2 rate = Ok sp /\ dur_add a.1 sp <= limit.
Lemma gap_mono rate l x y : gap rate l x -> x <= y -> gap rate l y.
Proof. intros G L k a E. destruct (G k a E) as (? & sp & ? & ?). split; [done|]. exists sp. split; [done|lia]. Qed.
Lemma paced_step r l t b :
  0 < r -> paced r l -> gap (Some r) l t -> t < DURATION_MAX -> paced r (l ++ [(t, b)]).
Proof.
  intros Hr P G Ht. destruct l as [|a k _] using rev_ind; [apply paced_one|].
  apply paced_snoc; [done|]. destruct (G k a eq_refl) as (Ha & sp & Hs & Hd).
  apply spacing_pays in Hs; [|done..]. unfold dur_add in Hd. simpl. nia.
Qed.
Lemma gap_snoc rate l t b sp limit :
  0 <= b <= U64MAX -> spacing b rate = Ok sp -> dur_add t sp <= limit -> gap rate (l ++ [(t, b)]) limit.
Proof. intros Hb Hs Hd k a [_ [= <-]]%app_inj_tail. split; [done|]. eauto. Qed.

Lemma run_paced cfg fair guard s0 t0 tr s t d r1 r2 :
  udp_config_ok cfg -> sched_inv cfg s0 -> sched_run cfg fair guard s0 t0 tr s t ->
  t < DURATION_MAX ->
  (bytes_per_second cfg = Some r1 ->
     paced r1 (served tr).*1 /\ gap (Some r1) (served tr).*1 (sch_next s))
  /\ (per_peer_bytes_per_second cfg = Some r2 ->
     paced r2 (to_peer d (served tr)) /\ gap (Some r2) (to_peer d (served tr)) (Z.max t (next_of s d))).
Proof.
  intros Hc I0. pose proof (uc_positive _ Hc) as (_ & _ & _ & _ & R1 & R2).
  induction 1 as [|tr s t now peer f s' R IH Ht E|tr s t now q s' R IH Ht Hq E
    |tr s t now i q s' R IH Ht E|tr s t now blocked bytes i q s1 s' R IH Ht Hb _ Ec Hi Ea Er]; intros Hm.
  { split; intros _; (split; [apply paced_nil|]); intros k a Ek; by destruct k. }
  all: pose proof (run_inv _ _ _ Hc _ _ _ _ _ I0 R) as I; destruct IH as [G1 G2]; [lia|].
  - destruct (admission_next _ _ _ _ _ _ d Hc I E) as [En ->].
    split; [done|]. intros Hr. destruct (G2 Hr) as [P G]. split; [done|]. eapply gap_mono; [done|lia].
  - destruct (admission_next _ _ _ _ _ _ d Hc I E) as [En Es]. rewrite served_push, push_next. cbn.
    rewrite Es. split; [done|]. intros Hr. destruct (G2 Hr) as [P G].
    split; [done|]. eapply gap_mono; [done|lia].
  - destruct (remove_next _ _ _ _ _ d Hc I E) as [-> ->].
    split; [done|]. intros Hr. destruct (G2 Hr) as [P G]. split; [done|]. eapply gap_mono; [done|lia].
  - destruct (accepted_spec cfg i q s bytes now I Hc Hi) as (s2 & all & one & Ea' & I2 & Eq & _ & Sa & Ha & So & Ho); [lia|].
    rewrite Ea in Ea'. injection Ea' as <-.
    destruct (remove_next _ _ _ _ _ d Hc I2 Er) as [-> ->]. rewrite served_serve, to_peer_snoc.
    destruct (candidate_spec cfg now fair blocked s I) as (rr & Ec' & Hr). rewrite Ec in Ec'.
    injection Ec' as <-. destruct Hr as (Hn & q' & Hi' & (_ & b & Eb & Hbn) & _).
    rewrite Hi in Hi'. injection Hi' as <-.
    split; intros Hr.
    + destruct (G1 Hr) as [P G]. rewrite fmap_app. simpl. rewrite Hr in Sa. split.
      * apply paced_step; [auto|done| |done]. eapply gap_mono; [done|lia].
      * apply gap_snoc with all; [done..|]. by rewrite Ha.
    + destruct (G2 Hr) as [P G]. rewrite Hr in So. unfold next_of in *. rewrite Ho.
      case_bool_decide as E1; [rewrite bool_decide_eq_true_2 by done|rewrite bool_decide_eq_false_2 by done].
      * subst d. split.
        -- apply paced_step; [auto|done| |done]. eapply gap_mono; [done|]. rewrite Eb. simpl. lia.
        -- apply gap_snoc with one; [done..|]. simpl. lia.
      * rewrite app_nil_r. split; [done|]. eapply gap_mono; [done|]. lia.
Qed.

(** C40. Pacing.  In every run of the scheduler before the clock saturates, every window of
    submissions carries at most the configured rate: the bytes submitted before the last
    submission of the window fit in [bytes_per_second] times its duration, and the same
    holds per destination with [per_peer_bytes_per_second]. *)
Theorem udp_pacing cfg fair guard s0 t0 tr s t :
  udp_config_ok cfg -> sched_inv cfg s0 -> sched_run cfg fair guard s0 t0 tr s t ->
  t < DURATION_MAX ->
  (forall r, bytes_per_second cfg = Some r -> paced r (served tr).*1)
  /\ (forall r d, per_peer_bytes_per_second cfg = Some r -> paced r (to_peer d (served tr))).
Proof.
  intros Hc I R Ht. split.
  - intros r Hr. by apply (run_paced cfg fair guard s0 t0 tr s t (mkSock 0 0) r 0 Hc I R Ht).
  - intros r d Hr. by apply (run_paced cfg fair guard s0 t0 tr s t d 0 r Hc I R Ht).
Qed.

(** ** The deadline hint *)
Lemma min_list_spec l :
  match min_list l with
  | Some m => m ∈ l /\ forall x, x ∈ l -> m <= x
  | None => l = []
  end.
Proof.
  induction l as [|x l IH]; [done|]. simpl. destruct (min_list l) as [m|]; simpl.
  - destruct IH as [Hm Hl]. split.
    + destruct (Z.min_dec x m) as [-> | ->]; [left|by right].
    + intros y [-> |Hy]%elem_of_cons; [lia|]. specialize (Hl y Hy). lia.
  - subst l. split; [left|]. intros y ->%list_elem_of_singleton. lia.
Qed.
Lemma ready_times_ok cfg s qs :
  sched_inv cfg s -> (forall q, q ∈ qs -> q ∈ queue s) ->
  exists ts, ready_times s qs = Ok ts /\ forall t, t ∈ ts <->
    exists q n, q ∈ qs /\ pb_next <$> sch_peers s !! q_destination q = Some n /\ t = Z.max (sch_next s) n.
Proof.
  intros I. induction qs as [|q qs IH]; intros Hin; simpl.
  { exists []. split; [done|]. intros t. split; [by intros ?%elem_of_nil|by intros (? & ? & ?%elem_of_nil & _)]. }
  destruct (si_entry _ _ I q (Hin q ltac:(left))) as [b Eb]. rewrite Eb.
  destruct IH as (ts & -> & Hts); [intros p Hp; apply Hin; by right|]. cbn [obind].
  eexists. split; [done|]. intros t. rewrite elem_of_cons, Hts. split.
  - intros [-> |(p & n & Hp & ? & ?)]; [exists q, (pb_next b)|exists p, n]; rewrite ?Eb;
      split_and!; try done; [left|by right].
  - intros (p & n & [-> |Hp]%elem_of_cons & En & ->); [left|right; by exists p, n].
    rewrite Eb in En. by injection En as <-.
Qed.

(** [next_deadline] is exact for the scheduler: before it the scheduler has nothing to
    submit and no queued datagram expires, at it one of the two happens, and without a
    deadline the queue is empty. *)
Theorem udp_deadline_exact cfg fair s :
  sched_inv cfg s ->
  exists m, sched_deadline fair s = Ok m /\
    match m with
    | Some t =>
        (forall now, now < t -> candidate now fair [] s = Ok None
           /\ forall q x, q ∈ queue s -> q_deadline q = Some x -> now < x)
        /\ ((exists i, candidate t fair [] s = Ok (Some i))
            \/ exists q, q ∈ queue s /\ q_deadline q = Some t)
    | None => queue s = []
    end.
Proof.
  intros I. unfold sched_deadline. set (qs := if fair then queue s else take 1 (queue s)).
  assert (forall p, p ∈ qs <-> exists j, queue s !! j = Some p /\ (fair = false -> j = 0%nat)) as Hqs.
  { intros p. unfold qs. destruct fair.
    - rewrite list_elem_of_lookup. naive_solver.
    - destruct (queue s) as [|q l]; simpl.
      + split; [by intros ?%elem_of_nil|]. intros (j & Hj & _). by rewrite lookup_nil in Hj.
      + rewrite list_elem_of_singleton. split; [intros ->; by exists 0%nat|].
        intros (j & Hj & H). rewrite (H eq_refl) in Hj. by injection Hj as <-. }
  destruct (ready_times_ok cfg s qs I) as (ts & -> & Hts).
  { intros q (j & Hj & _)%Hqs. by eapply list_elem_of_lookup_2. }
  cbn [obind]. eexists. split; [reflexivity|].
  pose proof (min_list_spec ts) as M1. pose proof (min_list_spec (omap q_deadline (queue s))) as M2.
  destruct (opt_min _ _) as [t|] eqn:Eo.
  - apply opt_min_spec in Eo as (Et & L1 & L2). split.
    + intros now Hnow. split.
      * destruct (candidate_spec cfg now fair [] s I) as ([i|] & -> & Hr); [exfalso|done].
        destruct Hr as (Hn & q & Hi & (_ & n & En & Hle) & Hf).
        assert (Z.max (sch_next s) n ∈ ts) as Hin.
        { apply Hts. exists q, n. split; [|done]. apply Hqs. exists i. split; [done|]. by intros ->. }
        destruct (min_list ts) as [m|]; [|rewrite M1 in Hin; by apply elem_of_nil in Hin].
        specialize (L1 m eq_refl). destruct M1 as [_ M1]. specialize (M1 _ Hin). lia.
      * intros q x Hq Hx. assert (x ∈ omap q_deadline (queue s)) as Hin by (apply list_elem_of_omap; eauto).
        destruct (min_list (omap _ _)) as [m|]; [|rewrite M2 in Hin; by apply elem_of_nil in Hin].
        specialize (L2 m eq_refl). destruct M2 as [_ M2]. specialize (M2 _ Hin). lia.
    + destruct Et as [E|E]; rewrite E in *.
      * left. destruct M1 as [(q & n & (j & Hj & Hf)%Hqs & En & Ht)%Hts _].
        destruct (candidate_spec cfg t fair [] s I) as ([i|] & -> & Hr); [by exists i|].
        exfalso. apply (Hr ltac:(lia) j q Hj Hf). split; [apply not_elem_of_nil|]. exists n. split; [done|lia].
      * right. destruct M2 as [(q & Hq & Hd)%list_elem_of_omap _]. by exists q.
  - destruct (min_list ts) as [m|]; [by destruct (min_list (omap _ _))|].
    assert (qs = []) as E.
    { destruct qs as [|q l]; [done|]. exfalso.
      destruct (proj1 (Hqs q) ltac:(left)) as (j & Hj & _).
      destruct (si_entry _ _ I q ltac:(by eapply list_elem_of_lookup_2)) as [b Eb].
      assert (Z.max (sch_next s) (pb_next b) ∈ ts) as Hin.
      { apply Hts. exists q, (pb_next b). split; [left|]. by rewrite Eb. }
      rewrite M1 in Hin. by apply elem_of_nil in Hin. }
    unfold qs in E. destruct fair; [done|]. by destruct (queue s).
Qed.

(** ** Witnesses *)
Definition peer1 : SocketAddrV4 := mkSock 0x0a000001 7.
Definition peer2 : SocketAddrV4 := mkSock 0x0a000002 7.
Definition cfg_fair : UdpConfig :=
  udp_config_default <| fair_queue := true |> <| bytes_per_second := Some 1000 |>.
Lemma cfg_fair_ok : udp_config_ok cfg_fair.
Proof.
  constructor; [reflexivity|..|]; simpl; unfold W64; try lia; intros r; [intros [= <-]; lia|intros [=]..].
Qed.
Definition queued (d : SocketAddrV4) (id : Z) : Queued :=
  mkQueued packet_default id (mkSock 0x0a000009 9) d None 0.
Definition sched3 : Scheduler :=
  Eval vm_compute in push (queued peer2 3) (push (queued peer1 2) (push (queued peer1 1) scheduler_new)).
Lemma sched3_inv : sched_inv cfg_fair sched3.
Proof.
  change sched3 with (push (queued peer2 3) (push (queued peer1 2) (push (queued peer1 1) scheduler_new))).
  repeat (apply push_spec; [apply cfg_fair_ok| |split; vm_compute; split; congruence|reflexivity|reflexivity|reflexivity]).
  apply scheduler_new_inv, cfg_fair_ok.
Qed.
Definition sched2 : Scheduler :=
  Eval vm_compute in
    match accepted peer1 500 0 cfg_fair sched3 with
    | Ok s => match remove 0 s with Ok (_, s) => s | _ => sched3 end
    | _ => sched3
    end.
Lemma peer2_waits : waits peer2 sched3 0 [].
Proof.
  split; [exists (queued peer2 3); split; [right; right; left|done]|].
  apply (bool_decide_eq_true_1 _). vm_compute. reflexivity.
Qed.
Lemma run3 guard : guard sched3 0 [] ->
  sched_run cfg_fair true guard sched3 0 ([] ++ [Served 0 500 (q_destination (queued peer1 1))]) sched2 0.
Proof.
  intros G. eapply (run_serve cfg_fair true guard sched3 0 [] sched3 0 0 [] 500 0 (queued peer1 1));
    [apply run_start|lia|vm_compute; split; congruence|exact G|vm_compute; reflexivity..].
Qed.
Lemma udp_round_robin_witness :
  NoDup [peer1] /\ exists i, candidate 500000000 true [] sched2 = Ok (Some i).
Proof.
  destruct (udp_round_robin cfg_fair peer2 sched3 0 _ sched2 0 cfg_fair_ok sched3_inv
              (proj1 peer2_waits) (run3 _ peer2_waits)) as (N & _ & P).
  - intros H. apply list_elem_of_singleton in H. discriminate H.
  - split; [exact N|]. apply P; [|vm_compute; congruence].
    split; [exists (queued peer2 3); split; [right; left|done]|].
    apply (bool_decide_eq_true_1 _). vm_compute. reflexivity.
Defined.
Lemma udp_pacing_witness : paced 1000 [(0, 500)].
Proof.
  apply (udp_pacing cfg_fair true (fun _ _ _ => True) sched3 0 _ sched2 0 cfg_fair_ok sched3_inv
           (run3 (fun _ _ _ => True) I)); reflexivity.
Defined.
Lemma udp_deadline_exact_witness :
  sched_inv cfg_fair sched3 /\ exists m, sched_deadline true sched3 = Ok m.
Proof.
  split; [apply sched3_inv|].
  destruct (udp_deadline_exact cfg_fair true sched3 sched3_inv) as (m & E & _). exists m. exact E.
Defined.
