(* ===== verification/UdpPool.v ===== *)
(** * The UDP pool ([src/api/mod.rs])

    [UdpPool] multiplexes virtual UDP endpoints over one device.  A handle that goes out of
    scope is dropped into the frame pool it shares with the device ([dev_drop]).  The
    statistics are [u64] counters with the wrap-around of the release profile.  A [while]
    loop over the queue takes fuel; [poll]'s handler is a closure with a state. *)
From Stdlib Require Import ZArith Lia Bool.
From stdpp Require Import base numbers option list gmap sorting.
From S2P Require Import Prelude BufferPool Addr UdpWire Responder Device UdpSched.
#[local] Open Scope Z_scope.

Definition QUERY : list Z := [65; 78; 83; 80; 1; 0].
Definition ADVERT : list Z := [65; 78; 83; 80; 1; 1].

Record Service : Type := mkService { sv_address : SocketAddrV4; sv_id : Z }.
Record Peer : Type := mkPeer { pr_service : Service; last_seen : Z }.
Record PoolStats : Type := mkPoolStats {
  us_received : Z; us_invalid : Z; us_unbound : Z; us_submitted : Z; us_response_drops : Z;
  us_peer_overflow : Z; us_rejected : Z; us_dropped : Z; us_events_overwritten : Z
}.
#[export] Instance eta_PoolStats : Eta PoolStats := fun s =>
  mkPoolStats (us_received s) (us_invalid s) (us_unbound s) (us_submitted s) (us_response_drops s)
    (us_peer_overflow s) (us_rejected s) (us_dropped s) (us_events_overwritten s).
Inductive Action : Type := Ignore | Echo.
Record UdpEvent : Type := mkUdpEvent {
  ue_at : Z; ue_id : option Z; ue_source : SocketAddrV4; ue_destination : SocketAddrV4;
  ue_generation : Z; ue_outcome : UdpOutcome
}.

Record UdpPool (D : Type) : Type := mkUdpPool {
  device : D;
  services : gmap SocketAddrV4 Z;
  peers : gmap SocketAddrV4 Peer;
  tx : Scheduler;
  config : UdpConfig;
  events : list UdpEvent;
  next_id : Z;
  generation : Z;
  blocked_peers : list SocketAddrV4;
  rx : list PacketBuf;
  capacity_ : Z;
  peer_capacity_ : Z;
  now_ : Z;
  stats : PoolStats
}.
Arguments mkUdpPool {D}. Arguments device {D}. Arguments services {D}. Arguments peers {D}.
Arguments tx {D}. Arguments config {D}. Arguments events {D}. Arguments next_id {D}.
Arguments generation {D}. Arguments blocked_peers {D}. Arguments rx {D}.
Arguments capacity_ {D}. Arguments peer_capacity_ {D}. Arguments now_ {D}. Arguments stats {D}.
#[export] Instance eta_UdpPool D : Eta (UdpPool D) := fun p =>
  mkUdpPool (device p) (services p) (peers p) (tx p) (config p) (events p) (next_id p)
    (generation p) (blocked_peers p) (rx p) (capacity_ p) (peer_capacity_ p) (now_ p) (stats p).

Definition stats_zero : PoolStats := mkPoolStats 0 0 0 0 0 0 0 0 0.
Definition with_config {D} (device : D) (config : UdpConfig) : outcome (UdpPool D) :=
  let* _ := validate config in
  Ok (mkUdpPool device ∅ ∅ scheduler_new config [] 1 0 [] [] (queue_capacity config)
        (UdpSched.peer_capacity config) 0 stats_zero).
Definition udp_pool_new {D} (device : D) (queue_capacity_ peer_capacity_ : Z) : outcome (UdpPool D) :=
  with_config device
    (udp_config_default <| queue_capacity := queue_capacity_ |>
       <| UdpSched.peer_capacity := peer_capacity_ |> <| max_tx_peers := queue_capacity_ |>
       <| per_peer_capacity := queue_capacity_ |> <| tx_budget := queue_capacity_ |>).

Definition validate_bind (a : SocketAddrV4) : outcome unit :=
  if (port a =? 0) || is_unspecified (ip a) || is_broadcast (ip a) || is_multicast (ip a)
  then Err InvalidInput else Ok tt.
Definition failure_error (reason : UdpFailure) : ErrorKind :=
  match reason with
  | SourceUnavailable => AddrNotAvailable
  | InvalidDestination | InvalidPacket => InvalidInput
  | DeadlineExpired => TimedOut
  | _ => WouldBlock
  end.
(** The submission errors that only concern the datagram being sent. *)
Definition datagram_failure (k : ErrorKind) : bool :=
  match k with
  | InvalidInput | AddrNotAvailable | NotConnected | PermissionDenied => true
  | _ => false
  end.

(** [BTreeMap::iter]: the entries in ascending address order. *)
Definition addr_le (a b : SocketAddrV4 * Z) : Prop := sock_leb a.1 b.1 = true.
#[export] Instance addr_le_dec a b : Decision (addr_le a b).
Proof. unfold addr_le. apply _. Defined.
Definition in_order (m : gmap SocketAddrV4 Z) : list (SocketAddrV4 * Z) :=
  merge_sort addr_le (map_to_list m).

Section Pool.
Context {D : Type} `{Device D}.
Implicit Types p : UdpPool D.

Definition on_device {A} (f : ST D A) : ST (UdpPool D) A := fun p =>
  let '(r, d) := f (device p) in (r, p <| device := d |>).

(** ** Events and outcomes *)
Definition event (e : UdpEvent) p : UdpPool D :=
  if udp_event_capacity (config p) =? 0 then p
  else
    let p :=
      if zlen (events p) =? udp_event_capacity (config p)
      then p <| events ::= tail |>
             <| stats ::= fun s => s <| us_events_overwritten ::= fun n => Z.min (n + 1) U64MAX |> |>
      else p in
    p <| events ::= fun l => l ++ [e] |>.
Definition rejected (source destination : SocketAddrV4) (reason : UdpFailure) p : UdpPool D :=
  let p := p <| stats ::= fun s => s <| us_rejected ::= count 1 |> |> in
  event (mkUdpEvent (now_ p) None source destination (generation p) (Rejected reason)) p.
Definition finish (q : Queued) (outcome_ : UdpOutcome) : ST (UdpPool D) unit := fun p =>
  let p := match outcome_ with
           | Dropped _ => p <| stats ::= fun s => s <| us_dropped ::= count 1 |> |>
           | _ => p
           end in
  on_device (dev_drop (q_frame q))
    (event (mkUdpEvent (now_ p) (Some (q_id q)) (q_source q) (q_destination q) (q_generation q)
              outcome_) p).
(** [self.tx.remove(i)] followed by [finish]. *)
Definition drop_queued (i : nat) (why : UdpOutcome) : ST (UdpPool D) unit := fun p =>
  match remove i (tx p) with
  | Ok (q, s) => finish q why (p <| tx := s |>)
  | r => (recast r, p)
  end.
(** The loops of [unbind] and [advance]: cancel the queued datagrams that satisfy a test. *)
Fixpoint sweep (test : Queued -> bool) (why : UdpOutcome) (fuel i : nat) : ST (UdpPool D) unit :=
  fun p =>
  match fuel with
  | O => (OutOfFuel, p)
  | S fuel =>
      match queue (tx p) !! i with
      | None => (Ok tt, p)
      | Some q =>
          if test q
          then then_ (drop_queued i why p) id (fun _ p => sweep test why fuel i p)
          else sweep test why fuel (S i) p
      end
  end.
Definition sweep_all (test : Queued -> bool) (why : UdpOutcome) : ST (UdpPool D) unit := fun p =>
  sweep test why (S (length (queue (tx p)))) 0 p.

(** ** Endpoints *)
Definition unbind (address : SocketAddrV4) : ST (UdpPool D) bool := fun p =>
  match services p !! address with
  | None => (Ok false, p)
  | Some _ =>
      let p := p <| services ::= delete address |> <| generation ::= count 1 |> <| peers := ∅ |> in
      then_ (sweep_all (fun q => bool_decide (q_source q = address))
               (Dropped ConfigurationChanged) p) id (fun _ p => (Ok true, p))
  end.
Fixpoint insert_services (l : list Service) (m : gmap SocketAddrV4 Z)
  : outcome (gmap SocketAddrV4 Z) :=
  match l with
  | [] => Ok m
  | s :: l =>
      let* _ := validate_bind (sv_address s) in
      if bool_decide (is_Some (m !! sv_address s)) then Err AddrInUse
      else insert_services l (<[sv_address s := sv_id s]> m)
  end.
Definition validate_services (l : list Service) p : outcome (gmap SocketAddrV4 Z) :=
  if service_capacity (config p) <? zlen l then Err WouldBlock else insert_services l ∅.
Fixpoint cancel_all (fuel : nat) : ST (UdpPool D) unit := fun p =>
  match fuel with
  | O => (OutOfFuel, p)
  | S fuel =>
      match queue (tx p) with
      | [] => (Ok tt, p)
      | _ :: _ =>
          then_ (drop_queued 0 (Dropped ConfigurationChanged) p) id (fun _ p => cancel_all fuel p)
      end
  end.
Definition install_services (m : gmap SocketAddrV4 Z) : ST (UdpPool D) unit := fun p =>
  then_ (cancel_all (S (length (queue (tx p)))) p) id (fun _ p =>
  (Ok tt, p <| tx := scheduler_new |> <| services := m |> <| peers := ∅ |>
            <| generation ::= count 1 |>)).
Definition replace_services (l : list Service) : ST (UdpPool D) unit := fun p =>
  match validate_services l p with
  | Ok m => if bool_decide (m = services p) then (Ok tt, p) else install_services m p
  | r => (recast r, p)
  end.
Definition bind (s : Service) : ST (UdpPool D) unit := fun p =>
  match validate_bind (sv_address s) with
  | Ok _ =>
      if bool_decide (is_Some (services p !! sv_address s)) then (Err AddrInUse, p)
      else if service_capacity (config p) <=? Z.of_nat (size (services p)) then (Err WouldBlock, p)
      else (Ok tt, p <| services ::= <[sv_address s := sv_id s]> |>)
  | r => (r, p)
  end.

(** ** Sending *)
Definition admit_ (source destination : SocketAddrV4) (deadline : option Z) p
  : option UdpFailure * UdpPool D :=
  if negb (bool_decide (is_Some (services p !! source))) then (Some SourceUnavailable, p)
  else if (port destination =? 0) || is_unspecified (ip destination) || is_multicast (ip destination)
  then (Some InvalidDestination, p)
  else if match deadline with Some at_ => at_ <=? now_ p | None => false end
  then (Some DeadlineExpired, p)
  else let '(r, s) := admission destination (now_ p) (config p) (tx p) in (r, p <| tx := s |>).
Definition enqueue (frame : PacketBuf) (source destination : SocketAddrV4) (deadline : option Z)
  : ST (UdpPool D) Z := fun p =>
  if U64MAX <? next_id p + 1 then then_ (on_device (dev_drop frame) p) id (fun _ p => (Err OtherError, p))
  else
    let id := next_id p in
    let p := p <| next_id ::= Z.succ |> in
    let deadline := opt_min deadline (dur_add (now_ p) <$> queue_lifetime (config p)) in
    (Ok id, p <| tx ::= push (mkQueued frame id source destination deadline (generation p)) |>).
Definition send_with_options (source destination : SocketAddrV4) (payload : list Z)
    (deadline : option Z) : ST (UdpPool D) Z := fun p =>
  match admit_ source destination deadline p with
  | (Some reason, p) => (Err (failure_error reason), rejected source destination reason p)
  | (None, p) =>
      then_ (on_device dev_alloc p) id (fun frame p =>
      match frame with
      | None => (Err WouldBlock, rejected source destination NoBuffer p)
      | Some frame =>
          match udp_build frame source destination payload 0 with
          | Ok frame => enqueue frame source destination deadline p
          | Err k =>
              on_device (drop_all [frame] (Err k)) (rejected source destination InvalidPacket p)
          | r => (recast r, p)
          end
      end)
  end.
Definition send_to (source destination : SocketAddrV4) (payload : list Z) : ST (UdpPool D) unit :=
  fun p => then_ (send_with_options source destination payload None p) id (fun _ p => (Ok tt, p)).
Definition discover (source seed : SocketAddrV4) (service_id : Z) : ST (UdpPool D) unit :=
  send_to source seed (QUERY ++ be32 service_id).

(** ** Time and submission *)
Definition advance (now : Z) : ST (UdpPool D) unit := fun p =>
  if now <? now_ p then (Err InvalidInput, p)
  else
    sweep_all (fun q => match q_deadline q with Some at_ => at_ <=? now | None => false end)
      (Dropped DeadlineExpired) (p <| now_ := now |>).
(** [device.send(slice::from_mut(&mut self.tx.queue[i].frame))] *)
Definition send_one (i : nat) (q : Queued) : ST (UdpPool D) Z := fun p =>
  let '(r, (d, frames)) := dev_send (device p, [q_frame q]) in
  (r, p <| device := d |>
        <| tx ::= fun s => s <| queue ::= <[i := q <| q_frame := default (q_frame q) (head frames) |>]> |> |>).
Definition block (peer : SocketAddrV4) p : UdpPool D := p <| blocked_peers ::= fun l => l ++ [peer] |>.
Fixpoint flush_loop (n : nat) (done_ : Z) : ST (UdpPool D) Z := fun p =>
  match n with
  | O => (Ok done_, p)
  | S n =>
      match candidate (now_ p) (fair_queue (config p)) (blocked_peers p) (tx p) with
      | Ok None => (Ok done_, p)
      | Ok (Some i) =>
          match queue (tx p) !! i with
          | None => (Panic, p)
          | Some q =>
              let peer := q_destination q in
              let bytes := buf_len (q_frame q) in
              let '(r, p) := send_one i q p in
              match r with
              | Ok n_ =>
                  if n_ =? 1 then
                    match accepted peer bytes (now_ p) (config p) (tx p) with
                    | Ok s =>
                        then_ (drop_queued i Submitted (p <| tx := s |>)) id (fun _ p =>
                        flush_loop n (done_ + 1)
                          (p <| stats ::= fun s => s <| us_submitted ::= count 1 |> |>))
                    | r => (recast r, p)
                    end
                  else if n_ =? 0 then flush_loop n done_ (block peer p)
                  else (Err InvalidData, p)
              | Err WouldBlock => flush_loop n done_ (block peer p)
              | Err k =>
                  if datagram_failure k then
                    then_ (drop_queued i (Dropped (DeviceFailure k)) p) id (fun _ p =>
                    flush_loop n done_ (if fair_queue (config p) then block peer p else p))
                  else (Err k, p)
              | r => (r, p)
              end
          end
      | r => (recast r, p)
      end
  end.
Definition flush : ST (UdpPool D) Z := fun p =>
  then_ (advance (now_ p) p) id (fun _ p =>
  flush_loop (Z.to_nat (tx_budget (config p))) 0 (p <| blocked_peers := [] |>)).
Definition udp_next_deadline p : outcome (option Z) :=
  let* at_ := sched_deadline (fair_queue (config p)) (tx p) in
  Ok (Z.max (now_ p) <$> at_).
Definition pop_event p : option UdpEvent * UdpPool D := (head (events p), p <| events ::= tail |>).

(** ** Receiving *)
Fixpoint answer_query (id : Z) (source destination : SocketAddrV4) (l : list (SocketAddrV4 * Z))
  : ST (UdpPool D) unit := fun p =>
  match l with
  | [] => (Ok tt, p)
  | (address, service_id) :: l =>
      if negb (service_id =? id) || negb (port address =? port destination)
         || (negb (bool_decide (address = destination)) && negb (is_broadcast (ip destination)))
      then answer_query id source destination l p
      else
        match send_to address source (ADVERT ++ be32 id) p with
        | (Ok _, p) => answer_query id source destination l p
        | (Err _, p) =>
            answer_query id source destination l
              (p <| stats ::= fun s => s <| us_response_drops ::= count 1 |> |>)
        | r => r
        end
  end.
Definition learn (now id : Z) (source : SocketAddrV4) p : UdpPool D :=
  if (Z.of_nat (size (peers p)) <? peer_capacity_ p) || bool_decide (is_Some (peers p !! source))
  then p <| peers ::= <[source := mkPeer (mkService source id) now]> |>
  else p <| stats ::= fun s => s <| us_peer_overflow ::= count 1 |> |>.
(** The answer to a datagram for which the handler returned [Echo]. *)
Definition echo (frame : PacketBuf) (source destination : SocketAddrV4) : ST (UdpPool D) unit :=
  fun p =>
  match admit_ destination source None p with
  | (Some reason, p) =>
      on_device (dev_drop frame)
        (rejected destination source reason
           (p <| stats ::= fun s => s <| us_response_drops ::= count 1 |> |>))
  | (None, p) =>
      let responder :=
        mkResponder (octets (ip destination)) [0; 0; 0; 0; 0; 0] (Some (port destination)) in
      match respond responder frame Ip with
      | Ok (reply, frame) =>
          if is_reply reply
          then then_ (enqueue frame destination source None p) id (fun _ p => (Ok tt, p))
          else on_device (dev_drop frame) p
      | r => (recast r, p)
      end
  end.
Context {St : Type} (handler : St -> Datagram -> Action * St).
(** One iteration of the receive loop of [poll]; the frame is dropped or queued again. *)
Definition take_frame (now : Z) (frame : PacketBuf) : UdpPool D * St -> outcome unit * (UdpPool D * St) :=
  fun '(p, h) =>
  let discard p := let '(r, p) := on_device (dev_drop frame) p in (r, (p, h)) in
  match udp_parse (as_slice frame) with
  | Ok d =>
      let p := p <| stats ::= fun s => s <| us_received ::= count 1 |> |> in
      let source := dg_source d in
      let destination := dg_destination d in
      let discovery := (zlen (dg_payload d) =? 10) && list_eqb (take 4 (dg_payload d)) (take 4 QUERY) in
      if discovery && list_eqb (take 6 (dg_payload d)) QUERY then
        match read32 (dg_payload d) 6 with
        | Ok id =>
            match answer_query id source destination (in_order (services p)) p with
            | (Ok _, p) => discard p
            | (r, p) => (r, (p, h))
            end
        | r => (recast r, (p, h))
        end
      else if negb (bool_decide (is_Some (services p !! destination)))
      then discard (p <| stats ::= fun s => s <| us_unbound ::= count 1 |> |>)
      else if discovery then
        if list_eqb (take 6 (dg_payload d)) ADVERT then
          match read32 (dg_payload d) 6 with
          | Ok id => discard (learn now id source p)
          | r => (recast r, (p, h))
          end
        else discard p
      else
        let '(action, h) := handler h d in
        match action with
        | Echo => let '(r, p) := echo frame source destination p in (r, (p, h))
        | Ignore => let '(r, p) := on_device (dev_drop frame) p in (r, (p, h))
        end
  | Err _ => discard (p <| stats ::= fun s => s <| us_invalid ::= count 1 |> |>)
  | r => (recast r, (p, h))
  end.
(** [rx.drain(..)]: an error drops the frames that are left. *)
Fixpoint drain (now : Z) (frames : list PacketBuf) (ph : UdpPool D * St)
  : outcome unit * (UdpPool D * St) :=
  match frames with
  | [] => (Ok tt, ph)
  | frame :: frames =>
      match take_frame now frame ph with
      | (Ok _, ph) => drain now frames ph
      | (r, (p, h)) => let '(r, p) := on_device (drop_all frames r) p in (r, (p, h))
      end
  end.
(** [peers.retain(|_, peer| now - peer.last_seen < lease)]; the subtraction panics below zero. *)
Definition expire_peers (now lease : Z) : ST (UdpPool D) unit := fun p =>
  if bool_decide (map_Forall (fun _ peer => last_seen peer <= now) (peers p))
  then (Ok tt, p <| peers ::= filter (fun e => now - last_seen e.2 < lease) |>)
  else (Panic, p).
Definition receive (budget : Z) : ST (UdpPool D) Z := fun p =>
  let '(r, (d, frames)) := dev_recv (Z.min budget (capacity_ p)) (device p, rx p) in
  (r, p <| device := d |> <| rx := frames |>).
Definition poll (now lease budget : Z) (p : UdpPool D) (h : St) : outcome Z * (UdpPool D * St) :=
  if now <? now_ p then (Err InvalidInput, (p, h))
  else
    let g p := (p, h) in
    then_ (advance now p) g (fun _ p =>
    then_ (on_device (dev_poll_at now) p) g (fun _ p =>
    then_ (expire_peers now lease p) g (fun _ p =>
    then_ (flush p) g (fun _ p =>
    then_ (receive budget p) g (fun _ p =>
    let frames := rx p in
    then_ (drain now frames (p <| rx := [] |>, h)) id (fun _ ph => (Ok (zlen frames), ph))))))).
End Pool.
