(* ===== verification/UdpPoolInv.v ===== *)
(** * Invariant of the UDP pool

    Which frames the pool owns, the bounds of its tables and the account of its datagrams:
    every identifier handed out is queued, submitted or dropped.  The operations are proved
    against the [DeviceLaws] interface. *)
From Stdlib Require Import ZArith Lia Bool.
From stdpp Require Import base numbers option list gmap sorting.
From S2P Require Import Prelude BufferPool Addr UdpWire Responder Device UdpSched UdpPool.
#[local] Open Scope Z_scope.

Section Inv.
Context {D : Type} `{DeviceLaws D}.
Implicit Types p : UdpPool D.

Definition frames_of p : list PacketBuf := q_frame <$> queue (tx p).
Definition bindable (a : SocketAddrV4) : Prop := sock_ok a /\ validate_bind a = Ok tt.

(** The state apart from the frames; [k] datagrams are between two accounts. *)
Record core p (k : Z) : Prop := {
  co_config : udp_config_ok (config p);
  co_capacity : capacity_ p = queue_capacity (config p);
  co_peer_capacity : peer_capacity_ p = UdpSched.peer_capacity (config p);
  co_sched : sched_inv (config p) (tx p);
  co_services : Z.of_nat (size (services p)) <= service_capacity (config p);
  co_bound a n : services p !! a = Some n -> bindable a;
  co_peers : Z.of_nat (size (peers p)) <= UdpSched.peer_capacity (config p);
  co_seen a x : peers p !! a = Some x -> last_seen x <= now_ p;
  co_now : 0 <= now_ p;
  co_ids : Forall (fun q => q_id q < next_id p) (queue (tx p));
  co_order : StronglySorted Z.lt (q_id <$> queue (tx p));
  co_next : 1 <= next_id p <= U64MAX;
  co_account : zlen (queue (tx p)) + us_submitted (stats p) + us_dropped (stats p) + k = next_id p - 1;
  co_counts : 0 <= us_submitted (stats p) /\ 0 <= us_dropped (stats p);
  co_events : zlen (events p) <= udp_event_capacity (config p)
}.
Record upool p (held : list Z) (k : Z) : Prop := {
  up_core : core p k;
  up_dev : dev_inv (device p) (owned (frames_of p) ++ owned (rx p) ++ held);
  up_frames : Forall (handle (dev_pool (device p)) (dev_frame_size (device p))) (frames_of p);
  up_rx : Forall (handle (dev_pool (device p)) (dev_frame_size (device p))) (rx p)
}.

(** What an operation on the queue leaves alone. *)
Definition keeps p p' : Prop :=
  config p' = config p /\ services p' = services p /\ peers p' = peers p /\ rx p' = rx p
  /\ now_ p' = now_ p /\ generation p' = generation p /\ next_id p' = next_id p
  /\ dev_pool (device p') = dev_pool (device p)
  /\ dev_frame_size (device p') = dev_frame_size (device p).
Lemma keeps_refl p : keeps p p.
Proof. by unfold keeps. Qed.
Lemma keeps_trans p q s : keeps p q -> keeps q s -> keeps p s.
Proof. unfold keeps. intuition congruence. Qed.

Definition calm p p' : Prop :=
  config p' = config p /\ services p' = services p /\ peers p' = peers p /\ rx p' = rx p
  /\ now_ p' = now_ p /\ generation p' = generation p
  /\ dev_pool (device p') = dev_pool (device p)
  /\ dev_frame_size (device p') = dev_frame_size (device p).
Lemma calm_refl p : calm p p.
Proof. by unfold calm. Qed.
Lemma calm_trans p q s : calm p q -> calm q s -> calm p s.
Proof. unfold calm. intuition congruence. Qed.
Lemma keeps_calm p q : keeps p q -> calm p q.
Proof. unfold keeps, calm. intuition congruence. Qed.

(** ** Events and counters *)
Lemma event_same e p :
  let p' := event e p in
  config p' = config p /\ services p' = services p /\ peers p' = peers p /\ tx p' = tx p
  /\ rx p' = rx p /\ now_ p' = now_ p /\ generation p' = generation p /\ next_id p' = next_id p
  /\ device p' = device p /\ capacity_ p' = capacity_ p /\ peer_capacity_ p' = peer_capacity_ p
  /\ us_submitted (stats p') = us_submitted (stats p) /\ us_dropped (stats p') = us_dropped (stats p)
  /\ blocked_peers p' = blocked_peers p.
Proof. unfold event. destruct (_ =? 0); [done|]. destruct (_ =? _); done. Qed.
Lemma event_core e p k : core p k -> core (event e p) k.
Proof.
  intros []. unfold event. destruct (udp_event_capacity (config p) =? 0) eqn:E0; [by constructor|].
  pose proof (zlen_nonneg (events p)). bools.
  destruct (zlen (events p) =? udp_event_capacity (config p)) eqn:E1; bools;
    constructor; cbn; try done; rewrite zlen_app, zlen_cons, zlen_nil; [|lia].
  destruct (events p); [rewrite zlen_nil in E1; lia|]. rewrite zlen_cons in E1. simpl. lia.
Qed.
Lemma stats_core p k st :
  core p k -> us_submitted st = us_submitted (stats p) -> us_dropped st = us_dropped (stats p) ->
  core (p <| stats := st |>) k.
Proof. intros [] E1 E2. constructor; cbn; rewrite ?E1, ?E2; done. Qed.
Lemma device_core p k d : core p k -> core (p <| device := d |>) k.
Proof. intros []. by constructor. Qed.
Lemma rejected_core p k a b f : core p k -> core (rejected a b f p) k.
Proof.
  intros C. unfold rejected. apply event_core.
  destruct C. by constructor.
Qed.
Lemma rejected_same a b f p :
  let p' := rejected a b f p in
  keeps p p' /\ tx p' = tx p /\ device p' = device p.
Proof.
  unfold rejected. cbv zeta. match goal with |- keeps _ (event ?e ?q) /\ _ => pose proof (event_same e q) as S end.
  destruct S as (? & ? & ? & ? & ? & ? & ? & ? & Ed & _). unfold keeps.
  split_and!; try assumption; [apply (f_equal dev_pool Ed)|apply (f_equal dev_frame_size Ed)].
Qed.
Lemma upool_quiet p p' held k k' :
  upool p held k -> core p' k' -> tx p' = tx p -> rx p' = rx p -> device p' = device p ->
  upool p' held k'.
Proof. intros [] C Et Er Ed. constructor; unfold frames_of in *; rewrite ?Et, ?Er, ?Ed; done. Qed.

(** ** Dropping a queued datagram *)
Lemma perm_front {A} (a b c d : list A) : a ++ b ++ c ++ d ≡ₚ c ++ a ++ b ++ d.
Proof. rewrite !app_assoc. apply Permutation_app_tail. rewrite (Permutation_app_comm (a ++ b) c). by rewrite app_assoc. Qed.
Definition dropped (why : UdpOutcome) : Z := match why with Dropped _ => 1 | _ => 0 end.
Lemma udp_finish_spec q why p held k :
  upool p (owned [q_frame q] ++ held) k ->
  handle (dev_pool (device p)) (dev_frame_size (device p)) (q_frame q) -> dropped why <= k ->
  exists p', finish q why p = (Ok tt, p') /\ upool p' held (k - dropped why) /\ tx p' = tx p
    /\ keeps p p' /\ us_submitted (stats p') = us_submitted (stats p)
    /\ blocked_peers p' = blocked_peers p.
Proof.
  intros [C Dv Hf Hr] Hq Hk. unfold finish. set (p1 := match why with Dropped _ => _ | _ => _ end).
  assert (core p1 (k - dropped why)) as C1.
  { unfold p1. destruct C; destruct why; simpl in *; rewrite ?Z.sub_0_r; [by constructor| |by constructor].
    constructor; cbn; try done; rewrite count_small; unfold U64MAX, W64 in *;
      pose proof (zlen_nonneg (queue (tx p))); lia. }
  assert (tx p1 = tx p /\ device p1 = device p /\ rx p1 = rx p /\ keeps p p1
    /\ us_submitted (stats p1) = us_submitted (stats p) /\ blocked_peers p1 = blocked_peers p)
    as (E1 & E2 & E3 & K1 & S1 & B1) by (unfold p1; by destruct why).
  clearbody p1. set (e := mkUdpEvent _ _ _ _ _ _). pose proof (event_core e p1 _ C1) as C2.
  pose proof (event_same e p1) as S. cbv zeta in S. set (p2 := event e p1) in *. clearbody p2.
  destruct S as (T1 & T2 & T3 & T4 & T5 & T6 & T7 & T8 & T9 & _ & _ & T10 & _ & T11).
  unfold on_device. rewrite T9, E2.
  destruct (dev_drop_law (device p) (owned (frames_of p) ++ owned (rx p) ++ held) (q_frame q))
    as (d & -> & Id & P & Z); [|done|].
  { eapply dev_inv_perm; [apply perm_front|exact Dv]. }
  eexists. split; [done|]. assert (tx (p2 <| device := d |>) = tx p) as Et by (cbn; congruence).
  split; [|split; [done|split; [|cbn; split; congruence]]].
  - constructor; [by apply device_core|..]; unfold frames_of in *; cbn; rewrite ?T5, ?T4, ?E1, ?E3, ?P, ?Z; done.
  - destruct K1 as (? & ? & ? & ? & ? & ? & ? & ? & ?). unfold keeps. cbn. split_and!; congruence.
Qed.

Lemma frames_delete p i q :
  queue (tx p) !! i = Some q ->
  owned (frames_of p) ≡ₚ owned [q_frame q] ++ owned (q_frame <$> delete i (queue (tx p))).
Proof.
  intros Hi. unfold frames_of. rewrite (delete_Permutation _ _ _ Hi) at 1. rewrite fmap_cons, owned_cons. done.
Qed.
Lemma sorted_sublist (l k : list Z) : k `sublist_of` l -> StronglySorted Z.lt l -> StronglySorted Z.lt k.
Proof.
  induction 1 as [|x k l S IH|x k l S IH]; intros Hs; [done|..]; apply StronglySorted_inv in Hs as [Hs F];
    [|auto]. constructor; [auto|]. rewrite Forall_forall in *. intros y Hy. apply F.
  eapply elem_of_submseteq; [exact Hy|by apply sublist_submseteq].
Qed.
Lemma sorted_snoc (l : list Z) x : StronglySorted Z.lt l -> Forall (fun y => y < x) l -> StronglySorted Z.lt (l ++ [x]).
Proof.
  induction 1 as [|y l Hs IH F]; intros Hx; simpl; [by repeat constructor|].
  apply Forall_cons in Hx as [Hy Hx]. constructor; [auto|]. apply Forall_app. split; [done|by constructor].
Qed.
Lemma fmap_delete {A B} (f : A -> B) (l : list A) (i : nat) : f <$> delete i l = delete i (f <$> l).
Proof. revert i. induction l as [|x l IH]; intros [|i]; simpl; f_equal; auto. Qed.

Lemma drop_queued_spec i q why p held k :
  upool p held k -> 0 <= k -> queue (tx p) !! i = Some q ->
  exists p', drop_queued i why p = (Ok tt, p') /\ upool p' held (k + 1 - dropped why)
    /\ queue (tx p') = delete i (queue (tx p)) /\ keeps p p'
    /\ us_submitted (stats p') = us_submitted (stats p) /\ blocked_peers p' = blocked_peers p.
Proof.
  intros [C Dv Hf Hr] Hk Hi. unfold drop_queued.
  destruct (sched_remove_spec (config p) i q (tx p) (co_sched _ _ C) (co_config _ _ C) Hi)
    as (s & -> & Is & Eq & _).
  pose proof (list_elem_of_lookup_2 _ _ _ Hi) as Hin.
  assert (core (p <| tx := s |>) (k + 1)) as C1.
  { destruct C. constructor; cbn; try done; rewrite ?Eq.
    - rewrite Forall_forall in *. intros q' Hq'%elem_of_delete. auto.
    - rewrite fmap_delete. eapply sorted_sublist; [apply sublist_delete|done].
    - rewrite (zlen_delete _ _ _ Hi). lia. }
  destruct (udp_finish_spec q why (p <| tx := s |>) held (k + 1)) as (p' & E & U & Et & K & S & B).
  - constructor; [done|..]; unfold frames_of in *; cbn; rewrite ?Eq; [| |done].
    + eapply dev_inv_perm; [|exact Dv]. rewrite (frames_delete p i q Hi).
      rewrite <- app_assoc. symmetry. apply perm_front.
    + rewrite fmap_delete. rewrite Forall_forall in *. intros b Hb%elem_of_delete. auto.
  - cbn. rewrite Forall_forall in Hf. apply Hf. apply list_elem_of_fmap. eauto.
  - destruct why; simpl; lia.
  - exists p'. split; [done|]. split; [done|]. split; [by rewrite Et|]. done.
Qed.

Lemma delete_filter {A} (P : A -> bool) l i x :
  l !! i = Some x -> P x = true ->
  take i (delete i l) ++ filter (fun y => P y = false) (drop i (delete i l))
  = take i l ++ filter (fun y => P y = false) (drop i l).
Proof.
  intros Hi Hx. destruct (delete_split l i x Hi) as (l1 & l2 & -> & -> & <-).
  rewrite !take_app_length, !drop_app_length. f_equal. by rewrite filter_cons_False by congruence.
Qed.
Lemma sweep_spec test f fuel i p held :
  upool p held 0 -> (i <= length (queue (tx p)) < fuel + i)%nat ->
  exists p', sweep test (Dropped f) fuel i p = (Ok tt, p') /\ upool p' held 0 /\ keeps p p'
    /\ queue (tx p') = take i (queue (tx p)) ++ filter (fun q => test q = false) (drop i (queue (tx p)))
    /\ us_submitted (stats p') = us_submitted (stats p).
Proof.
  revert i p. induction fuel as [|fuel IH]; intros i p U Hf; [lia|]. simpl.
  destruct (queue (tx p) !! i) as [q|] eqn:Hi.
  - pose proof (lookup_lt_Some _ _ _ Hi). destruct (test q) eqn:Et.
    + destruct (drop_queued_spec i q (Dropped f) p held 0 U ltac:(lia) Hi) as (p1 & -> & U1 & Eq & K & S & _).
      cbn [then_]. destruct (IH i p1) as (p' & -> & U' & K' & Eq' & S').
      { exact U1. }
      { rewrite Eq, length_delete by eauto. lia. }
      exists p'. do 2 (split; [done|]). split; [by eapply keeps_trans|]. split; [|congruence].
      rewrite Eq', Eq. by apply (delete_filter test _ _ q).
    + destruct (IH (S i) p U ltac:(lia)) as (p' & -> & U' & K' & Eq' & S').
      exists p'. do 3 (split; [done|]). split; [|done]. rewrite Eq'.
      rewrite (take_S_r _ _ _ Hi), <- app_assoc. f_equal. rewrite (drop_S _ _ _ Hi).
      by rewrite filter_cons_True by exact Et.
  - exists p. split; [done|]. split; [done|]. split; [apply keeps_refl|]. split; [|done].
    apply lookup_ge_None in Hi. rewrite take_ge, drop_ge by lia. by rewrite filter_nil, app_nil_r.
Qed.
Lemma sweep_all_spec test f p held :
  upool p held 0 ->
  exists p', sweep_all test (Dropped f) p = (Ok tt, p') /\ upool p' held 0 /\ keeps p p'
    /\ queue (tx p') = filter (fun q => test q = false) (queue (tx p))
    /\ us_submitted (stats p') = us_submitted (stats p).
Proof. intros U. apply (sweep_spec test f _ 0 p held U). lia. Qed.
Lemma cancel_all_spec fuel p held :
  upool p held 0 -> (length (queue (tx p)) < fuel)%nat ->
  exists p', cancel_all fuel p = (Ok tt, p') /\ upool p' held 0 /\ keeps p p' /\ queue (tx p') = [].
Proof.
  revert p. induction fuel as [|fuel IH]; intros p U Hf; [lia|]. simpl.
  destruct (queue (tx p)) as [|q l] eqn:Eq.
  { exists p. split; [done|]. split; [done|]. split; [apply keeps_refl|done]. }
  destruct (drop_queued_spec 0 q (Dropped ConfigurationChanged) p held 0 U ltac:(lia)) as (p1 & -> & U1 & Eq1 & K & _).
  { by rewrite Eq. }
  cbn [then_]. rewrite Eq in Eq1. simpl in Eq1, Hf.
  destruct (IH p1) as (p' & -> & U' & K' & Eq'); [exact U1|rewrite Eq1; lia|].
  exists p'. do 2 (split; [done|]). split; [by eapply keeps_trans|done].
Qed.

(** ** The invariant between two calls *)
Definition packet_ok (m : gmap SocketAddrV4 Z) (q : Queued) : Prop :=
  is_Some (m !! q_source q)
  /\ exists d, udp_parse (as_slice (q_frame q)) = Ok d /\ dg_source d = q_source q
       /\ dg_destination d = q_destination q.
Record udp_inv p (held : list Z) : Prop := {
  ui_pool : upool p held 0;
  ui_packets : Forall (packet_ok (services p)) (queue (tx p))
}.

(** ** Endpoints *)
(** The pool without an endpoint, whose datagrams are still queued. *)
Definition unbound (address : SocketAddrV4) p : UdpPool D :=
  p <| services ::= delete address |> <| generation ::= count 1 |> <| peers := ∅ |>.
Lemma unbound_upool address n p held :
  upool p held 0 -> services p !! address = Some n -> upool (unbound address p) held 0.
Proof.
  intros U En. destruct U as [[] ? ? ?]. split; [|done..]. constructor; cbn; try done.
  - pose proof (map_size_delete_Some address (services p) ltac:(eauto)). lia.
  - intros a m Ha. apply lookup_delete_Some in Ha as [_ Ha]. eauto.
  - rewrite map_size_empty. destruct co_config0. lia.
Qed.
Lemma unbind_spec address p held :
  udp_inv p held ->
  exists r p', unbind address p = (Ok r, p') /\ udp_inv p' held
    /\ r = bool_decide (is_Some (services p !! address))
    /\ services p' = delete address (services p)
    /\ queue (tx p') = filter (fun q => bool_decide (q_source q = address) = false) (queue (tx p))
    /\ now_ p' = now_ p /\ config p' = config p.
Proof.
  intros [U P]. unfold unbind. destruct (services p !! address) as [n|] eqn:En.
  2:{ exists false, p. split; [done|]. split; [done|]. split; [by rewrite bool_decide_eq_false_2 by (by intros [? [=]])|].
      rewrite delete_id by done. split; [done|]. split; [|done]. symmetry. apply filter_all.
      eapply Forall_impl; [exact P|]. intros q [[x Hx] _]. apply bool_decide_eq_false_2. congruence. }
  pose proof (unbound_upool address n p held U En) as U1. set (p1 := unbound address p) in *.
  change (p <| services ::= delete address |> <| generation ::= count 1 |> <| peers := ∅ |>) with p1.
  destruct (sweep_all_spec (fun q => bool_decide (q_source q = address)) ConfigurationChanged p1 held U1)
    as (p' & -> & U' & K' & Eq & _). cbn [then_]. exists true, p'. split; [done|].
  destruct K' as (Ec & Es & _ & _ & Et & _). split; [|split; [by rewrite bool_decide_eq_true_2 by eauto|by split]].
  constructor; [done|]. rewrite Eq, Es. apply Forall_forall. intros q [Hq Hin]%list_elem_of_filter.
  apply bool_decide_eq_false_1 in Hq. rewrite Forall_forall in P. destruct (P q Hin) as [Hs Hd].
  split; [|done]. cbn. by rewrite lookup_delete_ne.
Qed.
Lemma install_spec m p held :
  udp_inv p held -> Z.of_nat (size m) <= service_capacity (config p) ->
  (forall a n, m !! a = Some n -> bindable a) ->
  exists p', install_services m p = (Ok tt, p') /\ udp_inv p' held /\ services p' = m
    /\ queue (tx p') = [] /\ peers p' = ∅ /\ config p' = config p.
Proof.
  intros [U P] Hm Hb. unfold install_services.
  destruct (cancel_all_spec (S (length (queue (tx p)))) p held U ltac:(lia)) as (p1 & -> & U1 & K & Eq).
  cbn [then_]. eexists. split; [done|]. cbn. split; [|repeat split; apply K].
  destruct K as (Ec & _). rewrite <- Ec in Hm. constructor; [|by cbn; constructor].
  destruct U1 as [[] Dv Hf Hr]. unfold frames_of in *. rewrite Eq in *.
  split; [|done..]. constructor; cbn; try done; try (constructor; fail).
  - by apply scheduler_new_inv.
  - rewrite map_size_empty. destruct co_config0. lia.
Qed.

Lemma insert_services_spec l m :
  Forall (fun s => sock_ok (sv_address s)) l -> (forall a n, m !! a = Some n -> bindable a) ->
  match insert_services l m with
  | Ok m' => size m' = (size m + length l)%nat /\ forall a n, m' !! a = Some n -> bindable a
  | Err _ => True
  | _ => False
  end.
Proof.
  revert m. induction l as [|s l IH]; intros m F B; simpl.
  { split; [lia|done]. }
  apply Forall_cons in F as [Hs F]. destruct (validate_bind (sv_address s)) as [[]| | |] eqn:Ev; cbn [obind]; try done;
    try (unfold validate_bind in Ev; by destruct (_ || _)).
  case_bool_decide as E; [done|].
  assert (m !! sv_address s = None) as En by (by apply eq_None_not_Some).
  assert (forall b n, <[sv_address s := sv_id s]> m !! b = Some n -> bindable b) as B'.
  { intros b n Hb. apply lookup_insert_Some in Hb as [[<- _]|[_ Hb]]; [done|eauto]. }
  specialize (IH _ F B'). destruct (insert_services _ _); try done.
  destruct IH as [Sz Bd]. split; [|done]. rewrite Sz, map_size_insert_None by done. simpl. lia.
Qed.
Lemma validate_services_spec l p held :
  udp_inv p held -> Forall (fun s => sock_ok (sv_address s)) l ->
  match validate_services l p with
  | Ok m => Z.of_nat (size m) <= service_capacity (config p) /\ forall a n, m !! a = Some n -> bindable a
  | Err _ => True
  | _ => False
  end.
Proof.
  intros I F. unfold validate_services. destruct (_ <? _) eqn:E; [done|]. bools.
  pose proof (insert_services_spec l ∅ F) as S. destruct (insert_services l ∅) as [m| | |]; try by apply S.
  destruct S as [Sz B]; [done|]. split; [|done]. rewrite Sz, map_size_empty. unfold zlen in E. lia.
Qed.
Lemma replace_spec l p held :
  udp_inv p held -> Forall (fun s => sock_ok (sv_address s)) l ->
  exists r p', replace_services l p = (r, p') /\ returns r /\ udp_inv p' held
    /\ match r with Ok _ => validate_services l p = Ok (services p') | _ => p' = p end.
Proof.
  intros I F. unfold replace_services. pose proof (validate_services_spec l p held I F) as V.
  destruct (validate_services l p) as [m|k| |] eqn:Ev; try done.
  - case_bool_decide as E; [subst m; by exists (Ok tt), p|].
    destruct V as [Vs Vb]. destruct (install_spec m p held I Vs Vb) as (p' & -> & I' & Es & _).
    exists (Ok tt), p'. rewrite Es. done.
  - by exists (Err k), p.
Qed.
Lemma bind_spec s p held :
  udp_inv p held -> sock_ok (sv_address s) ->
  exists r p', bind s p = (r, p') /\ returns r /\ udp_inv p' held
    /\ match r with
       | Ok _ => services p !! sv_address s = None /\ p' = p <| services ::= <[sv_address s := sv_id s]> |>
       | _ => p' = p
       end.
Proof.
  intros [U P] Hs. unfold bind. destruct (validate_bind (sv_address s)) as [[]|k| |] eqn:Ev;
    try (unfold validate_bind in Ev; by destruct (_ || _)); [|by exists (Err k), p].
  case_bool_decide as E; [by exists (Err AddrInUse), p|].
  destruct (_ <=? _) eqn:El; [by exists (Err WouldBlock), p|]. bools.
  assert (services p !! sv_address s = None) as En by (by apply eq_None_not_Some).
  eexists _, _. split; [done|]. split; [done|]. split; [|done]. constructor.
  - destruct U as [[] ? ? ?]. split; [|done..]. constructor; cbn; try done.
    + rewrite map_size_insert_None by done. lia.
    + intros a n Ha. apply lookup_insert_Some in Ha as [[<- _]|[_ Ha]]; [done|eauto].
  - cbn. eapply Forall_impl; [exact P|]. intros q [[x Hx] Hd]. split; [|done].
    rewrite lookup_insert_ne by congruence. eauto.
Qed.

(** ** Admission *)
Definition room (cfg : UdpConfig) (s : Scheduler) (d : SocketAddrV4) : Prop :=
  zlen (queue s) < queue_capacity cfg /\ queued_to d (queue s) < per_peer_capacity cfg
  /\ (sch_peers s !! d = None -> Z.of_nat (size (sch_peers s)) < max_tx_peers cfg).
Lemma udp_admit_spec source destination deadline p k :
  core p k ->
  exists r p', admit_ source destination deadline p = (r, p') /\ core p' k /\ keeps p p'
    /\ queue (tx p') = queue (tx p) /\ device p' = device p /\ rx p' = rx p /\ stats p' = stats p
    /\ (r = None -> is_Some (services p !! source) /\ room (config p') (tx p') destination).
Proof.
  intros C. unfold admit_. case_bool_decide as E; cbn [negb]; [|by eexists _, p].
  destruct (_ || _); [by eexists _, p|].
  destruct (match deadline with Some _ => _ | None => _ end); [by eexists _, p|].
  destruct (admission_spec (config p) destination (now_ p) (tx p) (co_config _ _ C) (co_sched _ _ C))
    as (r & s & -> & Is & Eq & _ & _ & _ & _ & Hr).
  eexists _, _. split; [done|]. cbn. split; [|split; [done|]].
  - destruct C. constructor; cbn; try done; by rewrite Eq.
  - do 4 (split; [done|]). intros Er. split; [done|]. unfold room. rewrite Eq. auto.
Qed.
Lemma upool_admit p p' held k :
  upool p held k -> core p' k -> keeps p p' -> queue (tx p') = queue (tx p) -> device p' = device p ->
  rx p' = rx p -> upool p' held k.
Proof. intros [] C K Eq Ed Er. constructor; unfold frames_of in *; rewrite ?Eq, ?Ed, ?Er; done. Qed.

Lemma enqueue_spec frame source destination deadline p held d :
  upool p (owned [frame] ++ held) 0 -> Forall (packet_ok (services p)) (queue (tx p)) ->
  handle (dev_pool (device p)) (dev_frame_size (device p)) frame ->
  room (config p) (tx p) destination -> is_Some (services p !! source) -> sock_ok destination ->
  udp_parse (as_slice frame) = Ok d -> dg_source d = source -> dg_destination d = destination ->
  exists r p', enqueue frame source destination deadline p = (r, p') /\ returns r /\ udp_inv p' held
    /\ match r with
       | Ok id => id = next_id p /\ exists dl,
           queue (tx p') = queue (tx p) ++ [mkQueued frame id source destination dl (generation p)]
       | _ => U64MAX <= next_id p /\ queue (tx p') = queue (tx p)
       end
    /\ calm p p'.
Proof.
  intros [C Dv Hf Hr] P Hh (R1 & R2 & R3) Hs Hd Ep Es Ed. unfold enqueue.
  destruct (_ <? _) eqn:E; bools.
  - unfold on_device. edestruct (dev_drop_law (device p)) as (d' & -> & Id & Pd & Zd); [|exact Hh|].
    { eapply dev_inv_perm; [apply perm_front|exact Dv]. }
    cbn [then_]. eexists _, _. split; [done|]. cbn. split_and!; try done; [|lia].
    split; [|done]. split; [by apply device_core|done|..]; cbn; rewrite Pd, Zd; done.
  - eexists _, _. split; [done|]. split; [done|]. set (q := mkQueued _ _ _ _ _ _).
    destruct (push_spec (config p) q (tx p) (co_config _ _ C) (co_sched _ _ C) Hd R1 R2 R3) as [Ip Eq].
    split; [|split; [split; [done|eexists; exact Eq]|done]].
    constructor; [|cbn; apply Forall_app; split; [done|]; constructor; [|done]; split; [done|by exists d]].
    constructor.
    + destruct C. constructor; cbn; try done.
      * apply Forall_app. split; [|constructor; [cbn; lia|done]].
        eapply Forall_impl; [exact co_ids0|]. intros x Hx. cbn in Hx. lia.
      * rewrite fmap_app. apply sorted_snoc; [done|]. apply Forall_fmap. exact co_ids0.
      * unfold U64MAX in *. lia.
      * rewrite zlen_app, zlen_cons, zlen_nil. lia.
    + eapply dev_inv_perm; [|exact Dv]. unfold frames_of.
      match goal with |- _ ≡ₚ owned (q_frame <$> queue ?t) ++ _ =>
        change (queue t) with (queue (tx p) ++ [q]) end.
      rewrite fmap_app, owned_app. change (q_frame <$> [q]) with [frame].
      rewrite <- app_assoc. apply Permutation_app_head, Permutation_app_swap_app.
    + unfold frames_of in *. cbn. rewrite fmap_app. apply Forall_app. split; [done|]. by constructor.
    + done.
Qed.

(** ** Sending *)
Lemma build_udp_handle pl n b d id b' :
  handle pl n b -> dg_ok d -> buf_wf b' -> capacity b' = capacity b -> buf_pool b' = buf_pool b ->
  b' = store_packet (b <| buf_len := zlen (dg_payload d) + 28 |>) (udp_datagram d id) -> handle pl n b'.
Proof.
  intros (W & B & P) Hd W' C' P' E. split; [done|]. split.
  - rewrite E. apply store_packet_bytes; [done|]. by apply udp_datagram_ok.
  - rewrite P', C'. done.
Qed.
Lemma reject_spec a b f p held k :
  upool p held k -> Forall (packet_ok (services p)) (queue (tx p)) ->
  upool (rejected a b f p) held k /\ calm p (rejected a b f p)
  /\ tx (rejected a b f p) = tx p /\ device (rejected a b f p) = device p
  /\ Forall (packet_ok (services (rejected a b f p))) (queue (tx (rejected a b f p))).
Proof.
  intros U P. pose proof (rejected_same a b f p) as (K & Et & Ed).
  split; [|split; [by apply keeps_calm|]].
  - eapply upool_quiet; [exact U|apply rejected_core, U|done|apply K|done].
  - split; [done|]. split; [done|]. rewrite Et. destruct K as (_ & -> & _). done.
Qed.
(** Dropping a handle that the operation holds. *)
Lemma release_spec frame p held k :
  upool p (owned [frame] ++ held) k -> handle (dev_pool (device p)) (dev_frame_size (device p)) frame ->
  exists d, dev_drop frame (device p) = (Ok tt, d) /\ upool (p <| device := d |>) held k
    /\ calm p (p <| device := d |>).
Proof.
  intros [C Dv Hf Hx] Hh.
  edestruct (dev_drop_law (device p)) as (d & Ed & Id & P & Z); [|exact Hh|].
  { eapply dev_inv_perm; [apply perm_front|exact Dv]. }
  exists d. split; [done|]. split; [|unfold calm; cbn; by rewrite P, Z].
  split; [by apply device_core|done|..]; cbn; rewrite P, Z; done.
Qed.
Lemma alloc_spec p held k :
  upool p held k ->
  exists r d, dev_alloc (device p) = (Ok r, d) /\ calm p (p <| device := d |>)
    /\ match r with
       | Some b => upool (p <| device := d |>) (owned [b] ++ held) k /\ handle (dev_pool d) (dev_frame_size d) b
                   /\ buf_len b = 0
       | None => upool (p <| device := d |>) held k
       end.
Proof.
  intros [C Dv Hf Hx]. destruct (dev_alloc_law _ _ Dv) as (r & d & E & P & Z & Hr).
  exists r, d. split; [done|]. split; [unfold calm; cbn; by rewrite P, Z|].
  destruct r as [b|].
  - destruct Hr as (I & Hh & Hp & Hl). rewrite P, Z. split; [|done].
    split; [by apply device_core| |cbn; rewrite P, Z; done..].
    rewrite (owned_one _ _ Hp). eapply dev_inv_perm; [|exact I].
    change (buf_idx b :: owned (frames_of p) ++ owned (rx p) ++ held)
      with ([buf_idx b] ++ owned (frames_of p) ++ owned (rx p) ++ held). symmetry. apply perm_front.
  - split; [by apply device_core|done|cbn; rewrite P, Z; done..].
Qed.

Lemma send_spec source destination payload deadline p held :
  udp_inv p held -> sock_ok destination -> bytes_ok payload ->
  exists r p', send_with_options source destination payload deadline p = (r, p') /\ returns r
    /\ udp_inv p' held /\ calm p p'
    /\ match r with
       | Ok id => id = next_id p /\ exists f dl,
           queue (tx p') = queue (tx p) ++ [mkQueued f id source destination dl (generation p)]
           /\ udp_parse (as_slice f) = Ok (mkDatagram source destination payload)
       | _ => queue (tx p') = queue (tx p)
       end.
Proof.
  intros [U P] Hd Hb. unfold send_with_options.
  destruct (udp_admit_spec source destination deadline p 0 (up_core _ _ _ U))
    as (r & p1 & -> & C1 & K1 & Eq1 & Ed1 & Er1 & _ & Hr).
  pose proof (upool_admit p p1 held 0 U C1 K1 Eq1 Ed1 Er1) as U1.
  pose proof (keeps_calm _ _ K1) as M1.
  destruct K1 as (_ & Es1 & _ & _ & _ & Eg1 & En1 & _). rewrite <- Es1, <- Eq1 in P. rewrite <- Eq1, <- Eg1, <- En1.
  clear U Eq1 Ed1 Er1 C1 Eg1 En1. destruct r as [reason|].
  { destruct (reject_spec source destination reason p1 held 0 U1 P) as (U2 & M2 & Et & _ & P2).
    eexists _, _. do 2 (split; [done|]). split; [by constructor|]. split; [by eapply calm_trans|by rewrite Et]. }
  destruct (Hr eq_refl) as [[n Hs] Rm]. rewrite <- Es1 in Hs. clear Hr Es1.
  unfold on_device at 1. destruct (alloc_spec p1 held 0 U1) as (a & d1 & -> & M2 & Ha). cbn [then_].
  pose proof (calm_trans _ _ _ M1 M2) as M. destruct a as [frame|].
  2:{ destruct (reject_spec source destination NoBuffer (p1 <| device := d1 |>) held 0 Ha P) as (U2 & M3 & Et & _ & P2).
      eexists _, _. do 2 (split; [done|]). split; [by constructor|]. split; [by eapply calm_trans|by rewrite Et]. }
  destruct Ha as (U2 & Hh & _). pose proof (co_bound _ _ (up_core _ _ _ U1) _ _ Hs) as [Hsrc _].
  set (dg := mkDatagram source destination payload).
  pose proof (udp_build_spec frame dg 0 (proj1 Hh)) as B. cbn [dg_source dg_destination dg_payload dg] in B.
  destruct (_ && _) eqn:Ez.
  - destruct B as (b & -> & Wb & Ab & Cb & Ib & Pb & Eb). bools.
    assert (dg_ok dg) as Hdg by (constructor; [done..|cbn; lia]).
    assert (udp_parse (as_slice b) = Ok dg) as Epb.
    { rewrite Ab. rewrite <- (app_nil_r (udp_datagram dg 0)). by apply udp_parse_datagram. }
    assert (owned [b] = owned [frame]) as Ob by (unfold owned; cbn; by rewrite Pb, Ib).
    edestruct (enqueue_spec b source destination deadline (p1 <| device := d1 |>) held dg) as (r & p' & -> & Rr & I' & Er & M3).
    + by rewrite Ob.
    + exact P.
    + by eapply build_udp_handle.
    + exact Rm.
    + by exists n.
    + done.
    + done.
    + done.
    + done.
    + exists r, p'. do 3 (split; [done|]). split; [by eapply calm_trans|].
      destruct r; try apply Er. destruct Er as [-> [dl Eq]]. split; [done|]. exists b, dl. done.
  - rewrite B. destruct (reject_spec source destination InvalidPacket (p1 <| device := d1 |>) _ 0 U2 P) as (U3 & M3 & Et & Ed & P3).
    unfold on_device. rewrite Ed. cbn [drop_all].
    set (p3 := rejected source destination InvalidPacket (p1 <| device := d1 |>)) in *.
    destruct (release_spec frame p3 held 0 U3) as (d & Edr & U4 & M4).
    { rewrite Ed. exact Hh. }
    rewrite Ed in Edr. cbn in Edr |- *. rewrite Edr. cbn [then_]. eexists _, _. do 2 (split; [done|]).
    split; [by constructor|]. split; [|cbn; by rewrite Et].
    eapply calm_trans; [exact M|]. by eapply calm_trans.
Qed.
End Inv.
