(* ===== verification/UdpPoolProps.v ===== *)
(** * Polling the UDP pool: proofs and properties

    [advance], [flush] and [poll] against the [DeviceLaws] interface, and the properties of
    the pool. *)
From Stdlib Require Import ZArith Lia Bool.
From stdpp Require Import base numbers option list gmap sorting.
From S2P Require Import Prelude BufferPool Addr UdpWire Responder Device Loopback UdpSched UdpPool UdpPoolInv.
#[local] Open Scope Z_scope.

Section Poll.
Context {D : Type} `{DeviceLaws D}.
Implicit Types p : UdpPool D.

(** ** Time *)
Definition expired (now : Z) (q : Queued) : bool :=
  match q_deadline q with Some at_ => at_ <=? now | None => false end.
Lemma advance_spec now p held :
  udp_inv p held ->
  exists r p', advance now p = (r, p') /\ returns r /\ udp_inv p' held
    /\ if now <? now_ p then r = Err InvalidInput /\ p' = p
       else r = Ok tt /\ calm (p <| now_ := now |>) p'
            /\ queue (tx p') = filter (fun q => expired now q = false) (queue (tx p))
            /\ us_submitted (stats p') = us_submitted (stats p) /\ next_id p' = next_id p.
Proof.
  intros [U P]. unfold advance. destruct (now <? now_ p) eqn:E; [by exists (Err InvalidInput), p|]. bools.
  set (p1 := p <| now_ := now |>).
  assert (upool p1 held 0) as U1.
  { destruct U as [C ? ? ?]. pose proof (co_seen _ _ C) as Hs. pose proof (co_now _ _ C).
    split; [|done..]. destruct C. constructor; cbn; try done; [|lia].
    intros a x Hx. specialize (Hs a x Hx). lia. }
  destruct (sweep_all_spec (expired now) DeadlineExpired p1 held U1) as (p' & E' & U' & K & Eq & S).
  unfold expired in E' at 1. rewrite E'. exists (Ok tt), p'. split; [done|]. split; [done|].
  split; [|split; [done|split; [by apply keeps_calm|split; [exact Eq|split; [done|by destruct K as (_ & _ & _ & _ & _ & _ & -> & _)]]]]].
  constructor; [done|]. destruct K as (_ & Es & _). rewrite Es, Eq. apply Forall_forall.
  intros q [_ Hq]%list_elem_of_filter. rewrite Forall_forall in P. by apply P.
Qed.

(** ** Submission *)
Lemma queued_to_dests d l k :
  q_destination <$> l = q_destination <$> k -> queued_to d l = queued_to d k.
Proof.
  revert k. induction l as [|x l IH]; intros [|y k]; try done. rewrite !fmap_cons. intros [= E E'].
  change (x :: l) with ([x] ++ l). change (y :: k) with ([y] ++ k).
  rewrite !(queued_to_app d [_]), !queued_to_one.
  by rewrite E, (IH k).
Qed.
Lemma sched_frames cfg s l :
  sched_inv cfg s -> q_destination <$> l = q_destination <$> queue s -> sched_inv cfg (s <| queue := l |>).
Proof.
  intros [] E. assert (forall d, queued_to d l = queued_to d (queue s)) as Q by (intros; by apply queued_to_dests).
  constructor; cbn; try done.
  - intros d b Hd. rewrite Q. auto.
  - intros q Hq. apply (list_elem_of_fmap_2 q_destination) in Hq. rewrite E in Hq.
    apply list_elem_of_fmap in Hq as (q' & -> & Hq'). auto.
  - unfold zlen in *. rewrite <- (length_fmap q_destination), E, length_fmap. done.
  - intros d. rewrite Q. auto.
  - apply (Forall_fmap q_destination sock_ok). rewrite E. by apply Forall_fmap.
Qed.
Lemma core_tx p k s :
  core p k -> sched_inv (config p) s -> q_id <$> queue s = q_id <$> queue (tx p) -> core (p <| tx := s |>) k.
Proof.
  intros [] Is E. constructor; cbn; try done.
  - apply (Forall_fmap q_id (fun i => i < next_id p)). rewrite E. by apply Forall_fmap.
  - by rewrite E.
  - unfold zlen in *. rewrite <- (length_fmap q_id), E, length_fmap. done.
Qed.
Lemma delete_insert_same {A} (l : list A) i x : delete i (<[i := x]> l) = delete i l.
Proof. revert i. induction l as [|y l IH]; intros [|i]; simpl; f_equal; auto. Qed.
Lemma fmap_insert_same {A B} (f : A -> B) (l : list A) i x y :
  l !! i = Some y -> f x = f y -> f <$> <[i := x]> l = f <$> l.
Proof. intros Hi E. rewrite list_fmap_insert. apply list_insert_id. by rewrite list_lookup_fmap, Hi, E. Qed.

Lemma send_one_spec i q p held :
  udp_inv p held -> queue (tx p) !! i = Some q ->
  exists r p1, send_one i q p = (r, p1) /\ returns r /\ calm p p1 /\ blocked_peers p1 = blocked_peers p
    /\ us_submitted (stats p1) = us_submitted (stats p) /\ upool p1 held 0
    /\ exists q', queue (tx p1) = <[i := q']> (queue (tx p)) /\ q_destination q' = q_destination q
    /\ match r with
       | Ok n => (n = 0 /\ p1 = p <| device := device p1 |>) \/ n = 1
       | _ => p1 = p <| device := device p1 |>
       end.
Proof.
  intros [[C Dv Hf Hx] P] Hi. unfold send_one. pose proof (frames_delete p i q Hi) as Fp.
  assert (handle (dev_pool (device p)) (dev_frame_size (device p)) (q_frame q)) as Hq.
  { rewrite Forall_forall in Hf. apply Hf, list_elem_of_fmap. eauto using list_elem_of_lookup_2. }
  set (rest := owned (q_frame <$> delete i (queue (tx p))) ++ owned (rx p) ++ held).
  destruct (dev_send_law (device p) rest [q_frame q]) as (r & d & fs & -> & Pd & Zd & Id & Hr).
  { eapply dev_inv_perm; [|exact Dv]. rewrite Fp. unfold rest. by rewrite <- app_assoc. }
  { by constructor. }
  set (f := default (q_frame q) (head fs)). set (q' := q <| q_frame := f |>).
  set (p1 := p <| device := d |> <| tx ::= _ |>).
  assert (handle (dev_pool d) (dev_frame_size d) f /\ owned [f] ≡ₚ owned fs
    /\ returns r /\ match r with Ok n => (n = 0 /\ f = q_frame q) \/ n = 1 | _ => f = q_frame q end) as (Hh & Of & Rr & Hn).
  { unfold f. rewrite Pd, Zd. destruct r as [n|k| |]; try done.
    - destruct Hr as [Hn ->]. change (zlen [q_frame q]) with 1 in Hn. assert (n = 0 \/ n = 1) as [-> | ->] by lia; simpl.
      + split; [done|]. split; [done|]. split; [done|]. by left.
      + split; [apply handle_default|]. split; [done|]. split; [done|]. by right.
    - rewrite Hr. simpl. done. }
  assert (match r with Ok n => (n = 0 /\ p1 = p <| device := device p1 |>) \/ n = 1 | _ => p1 = p <| device := device p1 |> end) as Hp1.
  { assert (f = q_frame q -> p1 = p <| device := device p1 |>) as Same.
    { intros E. assert (q' = q) as Eq' by (unfold q'; rewrite E; by destruct q).
      unfold p1. cbn. rewrite Eq', list_insert_id by done. by destruct p as [? ? ? []]. }
    destruct r as [n|k| |]; auto. destruct Hn as [[-> E]| -> ]; [left|right]; auto. }
  exists r, p1. split; [done|]. split; [done|]. split; [unfold calm, p1; cbn; by rewrite Pd, Zd|].
  do 2 (split; [done|]). split; [|exists q'; done].
  assert (queue (tx p1) = <[i := q']> (queue (tx p))) as Eq by done.
  constructor.
  - assert (core (p <| tx := tx p <| queue := <[i := q']> (queue (tx p)) |> |>) 0) as C'.
    2:{ exact (device_core _ 0 d C'). }
    apply core_tx; [done|..].
    + apply sched_frames; [apply C|]. by apply (fmap_insert_same _ _ _ _ q).
    + cbn. by apply (fmap_insert_same _ _ _ _ q).
  - unfold frames_of. rewrite Eq. change (device p1) with d. change (rx p1) with (rx p).
    rewrite list_fmap_insert. change (q_frame q') with f.
    rewrite (delete_Permutation _ i f) by (apply list_lookup_insert_eq; rewrite length_fmap; by eapply lookup_lt_Some).
    rewrite delete_insert_same, <- fmap_delete, owned_cons, Of. eapply dev_inv_perm; [|exact Id].
    unfold rest. by rewrite <- !app_assoc.
  - unfold frames_of. rewrite Eq, list_fmap_insert. change (device p1) with d. change (q_frame q') with f.
    rewrite Pd, Zd in Hh |- *. by apply Forall_insert.
  - change (device p1) with d. rewrite Pd, Zd. exact Hx.
Qed.

Lemma upool_tx p s held k :
  upool p held k -> sched_inv (config p) s -> queue s = queue (tx p) -> upool (p <| tx := s |>) held k.
Proof.
  intros [C Dv Hf Hx] Is E. constructor; unfold frames_of in *; cbn; rewrite ?E; try done.
  apply core_tx; [done..|]. by rewrite E.
Qed.
Lemma udp_block_inv peer p held : udp_inv p held -> udp_inv (block peer p) held.
Proof. intros [[C ? ? ?] P]. split; [|done]. split; [|done..]. by destruct C; constructor. Qed.
Lemma count_submitted p held :
  upool p held 1 -> upool (p <| stats ::= fun s => s <| us_submitted ::= count 1 |> |>) held 0
  /\ count 1 (us_submitted (stats p)) = us_submitted (stats p) + 1.
Proof.
  intros [C ? ? ?]. assert (count 1 (us_submitted (stats p)) = us_submitted (stats p) + 1) as E.
  { destruct C. pose proof (zlen_nonneg (queue (tx p))). apply count_small. unfold U64MAX, W64 in *. lia. }
  split; [|done]. split; [|done..]. destruct C. constructor; cbn; try done; rewrite ?E; lia.
Qed.
Lemma delete_sublist_packets m l i (P : Forall (packet_ok m) l) : Forall (packet_ok m) (delete i l).
Proof. rewrite Forall_forall in *. intros q Hq%elem_of_delete. auto. Qed.

(** What a round of submissions may do: datagrams leave the queue, one per submission
    counted and one per drop. *)
Definition flushed p held n a (r : outcome Z) p' : Prop :=
  returns r /\ udp_inv p' held /\ calm p p' /\ queue (tx p') `sublist_of` queue (tx p)
  /\ match r with
     | Ok m => us_submitted (stats p') = us_submitted (stats p) + (m - a) /\ a <= m <= a + Z.of_nat n
     | _ => True
     end.
Lemma flushed_step p p1 held n a a' r p' :
  flushed p1 held n a' r p' -> calm p p1 -> queue (tx p1) `sublist_of` queue (tx p) ->
  us_submitted (stats p1) = us_submitted (stats p) + (a' - a) -> a <= a' <= a + 1 ->
  flushed p held (S n) a r p'.
Proof.
  intros (R & I & M & S & C) M1 S1 E Ha. split; [done|]. split; [done|].
  split; [by eapply calm_trans|]. split; [by etransitivity|]. destruct r; [lia|done..].
Qed.

Lemma flush_loop_spec n a p held :
  udp_inv p held -> exists r p', flush_loop n a p = (r, p') /\ flushed p held n a r p'.
Proof.
  revert a p. induction n as [|n IH]; intros a p I; cbn [flush_loop].
  { exists (Ok a), p. split; [done|]. split; [done|]. split; [done|]. split; [apply calm_refl|]. split; [done|lia]. }
  pose proof (up_core _ _ _ (ui_pool _ _ I)) as C.
  assert (forall r : outcome Z, returns r -> (forall m, r = Ok m -> m = a) -> flushed p held (S n) a r p) as Stop.
  { intros r Rr Hm. split; [done|]. split; [done|]. split; [apply calm_refl|]. split; [done|].
    destruct r as [m|?| |]; [|done..]. rewrite (Hm m eq_refl). lia. }
  destruct (candidate_spec (config p) (now_ p) (fair_queue (config p)) (blocked_peers p) (tx p) (co_sched _ _ C))
    as ([i|] & -> & Hc).
  2:{ exists (Ok a), p. split; [done|]. apply Stop; [done|]. by intros m [= <-]. }
  destruct Hc as (_ & q & Hi & _). rewrite Hi.
  destruct (send_one_spec i q p held I Hi) as (r & p1 & -> & Rr & M1 & Eb & Es & U1 & q' & Eq1 & Ed & Hr).
  assert (p1 = p <| device := device p1 |> -> udp_inv p1 held /\ queue (tx p1) = queue (tx p)) as Same.
  { intros E. assert (queue (tx p1) = queue (tx p)) as Et by (by rewrite E). split; [|done].
    constructor; [done|]. rewrite Et. assert (services p1 = services p) as -> by apply M1. apply I. }
  assert (forall k, p1 = p <| device := device p1 |> -> returns (Err k : outcome Z) ->
    flushed p held (S n) a (Err k) p1) as Fail.
  { intros k E _. destruct (Same E) as [I1 Et]. split; [done|]. split; [done|]. split; [done|]. by rewrite Et. }
  assert (p1 = p <| device := device p1 |> ->
    exists r' p', flush_loop n a (block (q_destination q) p1) = (r', p') /\ flushed p held (S n) a r' p') as Blocked.
  { intros E. destruct (Same E) as [I1 Et].
    destruct (IH a (block (q_destination q) p1) (udp_block_inv _ _ _ I1)) as (r' & p' & -> & F).
    exists r', p'. split; [done|]. eapply flushed_step; [exact F|exact M1|cbn; by rewrite Et|cbn; lia|lia]. }
  assert (queue (tx p1) !! i = Some q') as Hi1.
  { rewrite Eq1. apply list_lookup_insert_eq. by eapply lookup_lt_Some. }
  assert (forall p3, queue (tx p3) = delete i (queue (tx p1)) -> services p3 = services p ->
    Forall (packet_ok (services p3)) (queue (tx p3)) /\ queue (tx p3) `sublist_of` queue (tx p)) as Left.
  { intros p3 E3 S3. rewrite E3, Eq1, delete_insert_same, S3. split; [|apply sublist_delete].
    apply delete_sublist_packets, I. }
  destruct r as [m|k| |]; try done.
  - destruct (m =? 1) eqn:E1; bools; subst.
    + pose proof (up_core _ _ _ U1) as C1.
      assert (0 <= buf_len (q_frame q)) as Hl.
      { pose proof (up_frames _ _ _ (ui_pool _ _ I)) as F. rewrite Forall_forall in F.
        destruct (F (q_frame q)) as [W _]; [apply list_elem_of_fmap; eauto using list_elem_of_lookup_2|].
        unfold buf_wf in W. lia. }
      rewrite <- Ed. destruct (accepted_spec (config p1) i q' (tx p1) (buf_len (q_frame q)) (now_ p1)
        (co_sched _ _ C1) (co_config _ _ C1) Hi1 Hl) as (s & ? & ? & -> & Is & Eqs & _).
      pose proof (upool_tx p1 s held 0 U1 Is Eqs) as U2.
      destruct (drop_queued_spec i q' Submitted (p1 <| tx := s |>) held 0 U2 ltac:(lia)) as (p3 & -> & U3 & Eq3 & K3 & S3 & _);
        [cbn; by rewrite Eqs|].
      cbn [then_]. destruct (count_submitted p3 held U3) as [U4 E4]. cbn in Eq3. rewrite Eqs in Eq3.
      assert (calm p p3) as M3.
      { eapply calm_trans; [exact M1|]. apply keeps_calm in K3. exact K3. }
      destruct (Left p3 Eq3) as [P3 S3']; [apply M3|].
      match goal with |- context [flush_loop n (a + 1) ?x] =>
        destruct (IH (a + 1) x) as (r' & p' & -> & F); [by constructor|] end.
      exists r', p'. split; [done|]. eapply flushed_step; [exact F|exact M3|exact S3'| |lia].
      cbn. rewrite E4, S3. cbn. rewrite Es. lia.
    + destruct Hr as [[-> E]| -> ]; [|done]. cbn. by apply Blocked.
  - assert (match k with WouldBlock => False | _ => True end \/ k = WouldBlock) as [Hk| ->] by (destruct k; auto);
      [|by apply Blocked].
    assert (exists r' p', (if datagram_failure k
      then then_ (drop_queued i (Dropped (DeviceFailure k)) p1) id (fun _ p =>
             flush_loop n a (if fair_queue (config p) then block (q_destination q) p else p))
      else (Err k, p1)) = (r', p') /\ flushed p held (S n) a r' p') as G; [|by destruct k].
    destruct (datagram_failure k); [|exists (Err k), p1; split; [done|by apply Fail]].
    destruct (drop_queued_spec i q' (Dropped (DeviceFailure k)) p1 held 0 U1 ltac:(lia) Hi1)
      as (p3 & -> & U3 & Eq3 & K3 & S3 & _). cbn [then_].
    assert (calm p p3) as M3 by (eapply calm_trans; [exact M1|by apply keeps_calm]).
    destruct (Left p3 Eq3) as [P3 S3']; [apply M3|].
    assert (udp_inv p3 held) as I3 by (constructor; [exact U3|done]).
    set (p4 := if fair_queue (config p3) then block (q_destination q) p3 else p3).
    assert (udp_inv p4 held /\ calm p p4 /\ queue (tx p4) `sublist_of` queue (tx p)
      /\ us_submitted (stats p4) = us_submitted (stats p3)) as (I4 & M4 & S4 & E4).
    { unfold p4. destruct (fair_queue _); [|done]. split; [by apply udp_block_inv|]. done. }
    destruct (IH a p4 I4) as (r' & p' & -> & F). exists r', p'. split; [done|].
    eapply flushed_step; [exact F|exact M4|exact S4|rewrite E4, S3, Es; lia|lia].
Qed.

Lemma flush_spec p held :
  udp_inv p held ->
  exists r p', flush p = (r, p') /\ returns r /\ udp_inv p' held /\ calm p p'
    /\ queue (tx p') `sublist_of` filter (fun q => expired (now_ p) q = false) (queue (tx p))
    /\ match r with
       | Ok m => us_submitted (stats p') = us_submitted (stats p) + m /\ 0 <= m <= tx_budget (config p)
       | _ => True
       end.
Proof.
  intros I. unfold flush. destruct (advance_spec (now_ p) p held I) as (r & p1 & -> & _ & I1 & Hr).
  rewrite Z.ltb_irrefl in Hr. destruct Hr as (-> & M1 & Eq1 & Es1 & _). cbn [then_].
  assert (calm p p1) as M1' by (destruct p; exact M1).
  set (p2 := p1 <| blocked_peers := [] |>).
  assert (udp_inv p2 held) as I2.
  { destruct I1 as [[C ? ? ?] ?]. split; [|done]. split; [|done..]. by destruct C; constructor. }
  destruct (flush_loop_spec (Z.to_nat (tx_budget (config p1))) 0 p2 held I2) as (r & p' & -> & R & I' & M2 & S & Hm).
  exists r, p'. split; [done|]. split; [done|]. split; [done|]. split; [by eapply calm_trans|].
  split; [by rewrite <- Eq1|]. destruct r as [m|?| |]; [|done..]. destruct Hm as [Em Bm]. cbn in Em.
  destruct M1' as (Ec & _). rewrite Ec in Bm.
  pose proof (uc_budget _ (co_config _ _ (up_core _ _ _ (ui_pool _ _ I)))). lia.
Qed.

(** ** Receiving *)
Definition steady p p' : Prop :=
  config p' = config p /\ services p' = services p /\ rx p' = rx p /\ now_ p' = now_ p
  /\ dev_pool (device p') = dev_pool (device p)
  /\ dev_frame_size (device p') = dev_frame_size (device p).
Lemma calm_steady p p' : calm p p' -> steady p p'.
Proof. unfold calm, steady. tauto. Qed.
Lemma steady_trans p q s : steady p q -> steady q s -> steady p s.
Proof. unfold steady. intuition congruence. Qed.
Lemma counters_inv p held st :
  udp_inv p held -> us_submitted st = us_submitted (stats p) -> us_dropped st = us_dropped (stats p) ->
  udp_inv (p <| stats := st |>) held.
Proof. intros [[C ? ? ?] ?] E1 E2. split; [|done]. split; [by apply stats_core|done..]. Qed.
Lemma release_inv frame p held :
  udp_inv p (owned [frame] ++ held) -> handle (dev_pool (device p)) (dev_frame_size (device p)) frame ->
  exists p', on_device (dev_drop frame) p = (Ok tt, p') /\ udp_inv p' held /\ steady p p'
    /\ tx p' = tx p /\ services p' = services p.
Proof.
  intros [U P] Hh. destruct (release_spec frame p held 0 U Hh) as (d & E & U' & M).
  unfold on_device. rewrite E. eexists. split; [done|]. split; [by constructor|]. split; [by apply calm_steady|done].
Qed.
Lemma answer_query_spec id source destination l p held :
  udp_inv p held -> sock_ok source ->
  exists p', answer_query id source destination l p = (Ok tt, p') /\ udp_inv p' held /\ calm p p'.
Proof.
  revert p. induction l as [|[a sid] l IH]; intros p I Hs; cbn [answer_query].
  { exists p. split; [done|]. split; [done|apply calm_refl]. }
  destruct (_ || _); [by apply IH|].
  destruct (send_spec a source (ADVERT ++ be32 id) None p held I Hs) as (r & p1 & E & Rr & I1 & M1 & _).
  { apply bytes_app. split; [|apply bytes_be32]. repeat constructor; unfold is_byte; lia. }
  unfold send_to. rewrite E. destruct r as [x|k| |]; try done; cbn [then_].
  - destruct (IH p1 I1 Hs) as (p' & -> & I' & M'). exists p'. split; [done|]. split; [done|by eapply calm_trans].
  - match goal with |- context [answer_query id source destination l ?x] =>
      destruct (IH x) as (p' & -> & I' & M'); [by apply counters_inv|done|] end.
    exists p'. split; [done|]. split; [done|]. eapply calm_trans; [exact M1|exact M'].
Qed.
Lemma learn_inv now id source p held :
  udp_inv p held -> now <= now_ p -> udp_inv (learn now id source p) held /\ steady p (learn now id source p)
    /\ tx (learn now id source p) = tx p.
Proof.
  intros I Hn. unfold learn. destruct (_ || _) eqn:E.
  - split; [|done]. destruct I as [[C ? ? ?] P]. split; [|done]. split; [|done..].
    destruct C. constructor; cbn; try done.
    + destruct (peers p !! source) as [x|] eqn:Ex.
      * rewrite map_size_insert_Some by eauto. done.
      * rewrite bool_decide_eq_false_2, orb_false_r in E by (by intros [? [=]]). bools.
        rewrite map_size_insert_None by done. lia.
    + intros a x Hx. apply lookup_insert_Some in Hx as [[_ <-]|[_ Hx]]; [done|]. eauto.
  - split; [by apply counters_inv|done].
Qed.

Lemma octets_ok a : zlen (octets a) = 4 /\ bytes_ok (octets a).
Proof. split; [done|apply bytes_be32]. Qed.
Lemma echo_responder_ok a po : responder_ok (mkResponder (octets a) [0; 0; 0; 0; 0; 0] po).
Proof.
  constructor; cbn; [apply octets_ok..|]. split; [done|]. repeat constructor; unfold is_byte; lia.
Qed.
Lemma echo_spec frame d p held :
  udp_inv p (owned [frame] ++ held) -> handle (dev_pool (device p)) (dev_frame_size (device p)) frame ->
  udp_parse (as_slice frame) = Ok d ->
  exists r p', echo frame (dg_source d) (dg_destination d) p = (r, p') /\ returns r /\ udp_inv p' held
    /\ steady p p'
    /\ (queue (tx p') = queue (tx p)
          /\ ((admit_ (dg_destination d) (dg_source d) None p).1 = None -> U64MAX <= next_id p)
        \/ r = Ok tt /\ exists f dl,
             queue (tx p') = queue (tx p)
               ++ [mkQueued f (next_id p) (dg_destination d) (dg_source d) dl (generation p)]
             /\ udp_parse (as_slice f) = Ok (swap_endpoints d)).
Proof.
  intros [U P] Hh Ep. unfold echo.
  pose proof (handle_bytes _ _ _ Hh) as Bf.
  assert (dg_ok d) as Hd by (destruct (udp_parse_spec _ Bf) as [E|(d' & E & Hd & _)]; congruence).
  destruct (udp_admit_spec (dg_destination d) (dg_source d) None p 0 (up_core _ _ _ U))
    as (r & p1 & -> & C1 & K1 & Eq1 & Ed1 & Er1 & _ & Hr).
  pose proof (upool_admit p p1 _ 0 U C1 K1 Eq1 Ed1 Er1) as U1.
  pose proof (calm_steady _ _ (keeps_calm _ _ K1)) as M1. rewrite <- Ed1 in Hh.
  destruct K1 as (_ & Es1 & _ & _ & _ & Eg1 & En1 & _). rewrite <- Es1, <- Eq1 in P. rewrite <- Eq1, <- Eg1, <- En1.
  destruct r as [reason|].
  - set (p2 := p1 <| stats ::= fun s => s <| us_response_drops ::= count 1 |> |>).
    assert (udp_inv p2 (owned [frame] ++ held)) as I2 by (apply counters_inv; [by constructor|done..]).
    destruct (reject_spec (dg_destination d) (dg_source d) reason p2 _ 0 (ui_pool _ _ I2) P) as (U3 & M3 & Et & Edv & P3).
    edestruct (release_inv frame (rejected (dg_destination d) (dg_source d) reason p2)) as (p' & -> & I' & M' & Et' & _).
    { by constructor. }
    { rewrite Edv. exact Hh. }
    exists (Ok tt), p'. split; [done|]. split; [done|]. split; [done|]. split; [|left; split; [by rewrite Et', Et|done]].
    eapply steady_trans; [exact M1|]. eapply steady_trans; [|exact M']. apply (calm_steady _ _ M3).
  - destruct (Hr eq_refl) as [Hs Rm]. rewrite <- Es1 in Hs.
    set (self := mkResponder _ _ _).
    destruct (udp_echo_spec self frame d (echo_responder_ok _ _) (proj1 Hh) (proj1 (proj2 Hh)) Ep eq_refl eq_refl)
      as (b & Eb & Pb & _ & Bb).
    destruct (respond_spec self frame Ip (echo_responder_ok _ _) (proj1 Hh) (proj1 (proj2 Hh)))
      as (r' & b' & Eb' & (Wb & Cb & _ & Ib & Ob) & _).
    rewrite Eb in Eb'. injection Eb' as <- <-. rewrite Eb. cbn [is_reply].
    assert (handle (dev_pool (device p1)) (dev_frame_size (device p1)) b) as Hb.
    { split; [done|]. split; [done|]. rewrite Ob, Cb. apply Hh. }
    assert (owned [b] = owned [frame]) as Ow by (unfold owned; cbn; by rewrite Ob, Ib).
    rewrite <- Ow in U1.
    destruct (enqueue_spec b (dg_destination d) (dg_source d) None p1 held (swap_endpoints d) U1 P Hb Rm Hs
      (dg_ok_source _ Hd) Pb eq_refl eq_refl) as (r & p' & -> & Rr & I' & Er & M').
    assert (steady p p') as M by (eapply steady_trans; [exact M1|by apply calm_steady]).
    destruct r as [id|k| |]; try done; cbn [then_].
    + destruct Er as [-> [dl Eq]]. exists (Ok tt), p'. do 4 (split; [done|]). right. split; [done|]. by exists b, dl.
    + destruct Er as [? ?]. exists (Err k), p'. do 4 (split; [done|]). by left.
Qed.

Context {St : Type} (handler : St -> Datagram -> Action * St).
(** The handler's state after some datagrams. *)
Definition feeds (h h' : St) : Prop := exists d, dg_ok d /\ h' = (handler h d).2.
Lemma udp_take_frame_spec now frame p h held :
  udp_inv p (owned [frame] ++ held) -> handle (dev_pool (device p)) (dev_frame_size (device p)) frame ->
  now <= now_ p ->
  exists r p' h', take_frame handler now frame (p, h) = (r, (p', h')) /\ returns r /\ udp_inv p' held
    /\ steady p p' /\ rtc feeds h h'.
Proof.
  intros I Hh Hn. unfold take_frame. pose proof (handle_bytes _ _ _ Hh) as Bf.
  assert (forall p1, udp_inv p1 (owned [frame] ++ held) -> steady p p1 -> exists r p' h',
    (let '(r, p) := on_device (dev_drop frame) p1 in (r, (p, h))) = (r, (p', h'))
    /\ returns r /\ udp_inv p' held /\ steady p p' /\ rtc feeds h h') as Discard.
  { intros p1 I1 M1. destruct (release_inv frame p1 held I1) as (p' & -> & I' & M' & _).
    - destruct M1 as (_ & _ & _ & _ & -> & ->). done.
    - exists (Ok tt), p', h. do 3 (split; [done|]). split; [by eapply steady_trans|apply rtc_refl]. }
  assert (forall st, us_submitted st = us_submitted (stats p) -> us_dropped st = us_dropped (stats p) ->
    udp_inv (p <| stats := st |>) (owned [frame] ++ held) /\ steady p (p <| stats := st |>)) as Count.
  { intros st E1 E2. split; [by apply counters_inv|done]. }
  destruct (udp_parse_spec _ Bf) as [E|(d & E & Hd & _)]; rewrite E.
  { apply Discard; by apply Count. }
  set (p1 := p <| stats ::= fun s => s <| us_received ::= count 1 |> |>).
  assert (udp_inv p1 (owned [frame] ++ held) /\ steady p p1) as [I1 M1] by (by apply Count).
  clearbody p1.
  assert (forall b, (zlen (dg_payload d) =? 10) && b = true -> exists id, read32 (dg_payload d) 6 = Ok id) as Rd.
  { intros b Eb. bools. rewrite read32_ok by lia. eauto. }
  destruct (_ && list_eqb (take 6 _) QUERY) eqn:Eq.
  { apply andb_true_iff in Eq as [Eq _]. destruct (Rd _ Eq) as [id ->].
    destruct (answer_query_spec id (dg_source d) (dg_destination d) (in_order (services p1)) p1 _ I1 (dg_ok_source _ Hd))
      as (p2 & -> & I2 & M2).
    apply Discard; [done|]. eapply steady_trans; [exact M1|by apply calm_steady]. }
  destruct (negb _).
  { apply Discard; [by apply counters_inv|]. eapply steady_trans; [exact M1|done]. }
  destruct (_ && list_eqb (take 4 _) _) eqn:Ed.
  { destruct (list_eqb _ ADVERT); [|by apply Discard]. destruct (Rd _ Ed) as [id ->].
    destruct (learn_inv now id (dg_source d) p1 _ I1) as (I2 & M2 & _).
    { destruct M1 as (_ & _ & _ & -> & _). done. }
    apply Discard; [done|]. by eapply steady_trans. }
  assert (rtc feeds h (handler h d).2) as Fd by (apply rtc_once; by exists d).
  destruct (handler h d) as [[] h'].
  - destruct (release_inv frame p1 held I1) as (p' & -> & I' & M' & _).
    { destruct M1 as (_ & _ & _ & _ & -> & ->). done. }
    exists (Ok tt), p', h'. do 3 (split; [done|]). split; [by eapply steady_trans|done].
  - destruct (echo_spec frame d p1 held I1) as (r & p' & -> & Rr & I' & M' & _); [|done|].
    { destruct M1 as (_ & _ & _ & _ & -> & ->). done. }
    exists r, p', h'. do 3 (split; [done|]). split; [by eapply steady_trans|done].
Qed.
Lemma udp_drain_spec now frames p h held :
  udp_inv p (owned frames ++ held) ->
  Forall (handle (dev_pool (device p)) (dev_frame_size (device p))) frames -> now <= now_ p ->
  exists r p' h', drain handler now frames (p, h) = (r, (p', h')) /\ returns r /\ udp_inv p' held
    /\ steady p p' /\ rtc feeds h h'.
Proof.
  revert p h. induction frames as [|f fs IH]; intros p h I F Hn; cbn [drain].
  { exists (Ok tt), p, h. do 4 (split; [done|]). apply rtc_refl. }
  apply Forall_cons in F as [Hf F]. rewrite owned_cons, <- app_assoc in I.
  destruct (udp_take_frame_spec now f p h _ I Hf Hn) as (r & p1 & h1 & -> & Rr & I1 & M1 & Fd1).
  assert (Forall (handle (dev_pool (device p1)) (dev_frame_size (device p1))) fs) as F1.
  { destruct M1 as (_ & _ & _ & _ & -> & ->). done. }
  destruct r as [[]|k| |]; try done.
  - destruct (IH p1 h1 I1 F1) as (r & p' & h' & -> & R' & I' & M' & Fd').
    { destruct M1 as (_ & _ & _ & -> & _). done. }
    exists r, p', h'. do 3 (split; [done|]). split; [by eapply steady_trans|by etrans].
  - unfold on_device. destruct I1 as [[C Dv Hq Hx] P].
    destruct (drop_all_spec (device p1) (owned (frames_of p1) ++ owned (rx p1) ++ held) fs (Err k : outcome unit))
      as (d & -> & Id & Pd & Zd); [|done|].
    { rewrite perm_front in Dv. exact Dv. }
    eexists _, _, h1. split; [done|]. split; [done|]. split.
    + split; [|done]. split; [by apply device_core|done|cbn; rewrite Pd, Zd; done..].
    + split; [|done]. eapply steady_trans; [exact M1|]. unfold steady. cbn. by rewrite Pd, Zd.
Qed.

Lemma device_inv p held (d : D) :
  udp_inv p held -> dev_inv d (owned (frames_of p) ++ owned (rx p) ++ held) ->
  dev_pool d = dev_pool (device p) -> dev_frame_size d = dev_frame_size (device p) ->
  udp_inv (p <| device := d |>) held.
Proof.
  intros [[C ? ? ?] P] Id Pd Zd. split; [|done]. split; [by apply device_core|done|cbn; by rewrite Pd, Zd..].
Qed.
Lemma expire_spec now lease p held :
  udp_inv p held -> now_ p <= now ->
  exists p', expire_peers now lease p = (Ok tt, p') /\ udp_inv p' held /\ steady p p'.
Proof.
  intros [[C ? ? ?] P] Hn. unfold expire_peers. rewrite bool_decide_eq_true_2.
  2:{ intros a x Hx. pose proof (co_seen _ _ C a x Hx). lia. }
  eexists. split; [done|]. split; [|done]. split; [|done]. split; [|done..].
  destruct C. constructor; cbn; try done.
  - pose proof (map_subseteq_size _ _ (map_filter_subseteq (fun e => now - last_seen e.2 < lease) (peers p))). lia.
  - intros a x [Hx _]%map_lookup_filter_Some. eauto.
Qed.
Lemma udp_receive_spec budget p held :
  udp_inv p held -> 0 <= budget ->
  exists r p', receive budget p = (r, p') /\ returns r /\ udp_inv p' held
    /\ config p' = config p /\ now_ p' = now_ p /\ services p' = services p.
Proof.
  intros [[C Dv Hf Hx] P] Hb. unfold receive.
  assert (0 <= Z.min budget (capacity_ p)) as Hm.
  { rewrite (co_capacity _ _ C). pose proof (uc_queue _ (co_config _ _ C)). lia. }
  destruct (dev_recv_law (device p) (owned (frames_of p) ++ held) (Z.min budget (capacity_ p)) (rx p)) as (r & d & out & -> & Rr & Pd & Zd & Id & Fo & _);
    [|exact Hm|exact Hx|].
  { rewrite Permutation_app_swap_app. exact Dv. }
  eexists _, _. split; [done|]. split; [done|]. split; [|done]. split; [|done].
  split; [by destruct C; constructor| |cbn; by rewrite Pd, Zd..].
  cbn. rewrite Permutation_app_swap_app. exact Id.
Qed.
Lemma udp_poll_spec now lease budget p h held :
  udp_inv p held -> 0 <= budget ->
  exists r p' h', poll handler now lease budget p h = (r, (p', h')) /\ returns r /\ udp_inv p' held
    /\ config p' = config p /\ now_ p' = Z.max (now_ p) now /\ services p' = services p /\ rtc feeds h h'.
Proof.
  intros I Hb. unfold poll. destruct (now <? now_ p) eqn:En; bools.
  { exists (Err InvalidInput), p, h. do 4 (split; [done|]). split; [lia|]. split; [done|apply rtc_refl]. }
  destruct (advance_spec now p held I) as (r & p1 & -> & _ & I1 & Hr).
  rewrite (proj2 (Z.ltb_ge _ _)) in Hr by lia. destruct Hr as (-> & M1 & _). cbn [then_].
  assert (config p1 = config p /\ now_ p1 = now /\ services p1 = services p) as (Ec1 & En1 & Es1) by (split_and!; apply M1).
  assert (Z.max (now_ p) now = now) as -> by lia.
  assert (forall (r : outcome Z) q, returns r -> udp_inv q held -> config q = config p -> now_ q = now ->
    services q = services p -> exists r' p' h', (r, (q, h)) = (r', (p', h')) /\ returns r' /\ udp_inv p' held
    /\ config p' = config p /\ now_ p' = now /\ services p' = services p /\ rtc feeds h h') as Stop.
  { intros r q ? ? ? ? ?. exists r, q, h. do 6 (split; [done|]). apply rtc_refl. }
  unfold on_device. destruct (dev_poll_law (device p1) _ now (up_dev _ _ _ (ui_pool _ _ I1))) as (r2 & d2 & -> & R2 & I2 & P2 & Z2).
  pose proof (device_inv p1 held d2 I1 I2 P2 Z2) as J2.
  destruct r2 as [[]|k| |]; try done; cbn [then_]; [|by apply Stop].
  destruct (expire_spec now lease _ held J2) as (p3 & -> & I3 & M3); [cbn; lia|]. cbn [then_].
  assert (config p3 = config p /\ now_ p3 = now /\ services p3 = services p) as (Ec3 & En3 & Es3).
  { destruct M3 as (-> & -> & _ & -> & _). done. }
  destruct (flush_spec p3 held I3) as (r4 & p4 & -> & R4 & I4 & M4 & _).
  assert (config p4 = config p /\ now_ p4 = now /\ services p4 = services p) as (Ec4 & En4 & Es4).
  { destruct M4 as (-> & -> & _ & _ & -> & _). done. }
  destruct r4 as [n4|k| |]; try done; cbn [then_]; [|by apply Stop].
  destruct (udp_receive_spec budget p4 held I4 Hb) as (r5 & p5 & -> & R5 & I5 & Ec5 & En5 & Es5).
  destruct r5 as [n5|k| |]; try done; cbn [then_]; [|apply Stop; try done; congruence].
  destruct I5 as [[C5 D5 F5 X5] P5].
  assert (udp_inv (p5 <| rx := [] |>) (owned (rx p5) ++ held)) as J5.
  { split; [|done]. split; [by destruct C5; constructor|exact D5|done|constructor]. }
  destruct (udp_drain_spec now (rx p5) (p5 <| rx := [] |>) h held J5 X5) as (r6 & p6 & h6 & -> & R6 & I6 & M6 & Fd); [cbn; lia|].
  destruct M6 as (E6 & S6 & _ & N6 & _). cbn in E6, N6, S6.
  destruct r6 as [[]|k| |]; try done; cbn [then_]; eexists _, p6, h6; split_and!; try done; congruence.
Qed.

(** ** Sessions *)
Inductive udp_call : Type :=
| CallBind (s : Service) | CallUnbind (a : SocketAddrV4) | CallReplace (l : list Service)
| CallSend (source destination : SocketAddrV4) (payload : list Z) (deadline : option Z)
| CallDiscover (source seed : SocketAddrV4) (id : Z)
| CallAdvance (now : Z) | CallFlush | CallPopEvent | CallPoll (now lease budget : Z).
(** The arguments are values of their Rust types. *)
Definition call_ok (c : udp_call) : Prop :=
  match c with
  | CallBind s => sock_ok (sv_address s)
  | CallReplace l => Forall (fun s => sock_ok (sv_address s)) l
  | CallSend _ destination payload _ => sock_ok destination /\ bytes_ok payload
  | CallDiscover _ seed _ => sock_ok seed
  | CallPoll _ _ budget => 0 <= budget
  | _ => True
  end.
Definition forget {A S} (r : outcome A * S) : outcome unit * S := then_ r id (fun _ s => (Ok tt, s)).
Definition run_call (c : udp_call) (p : UdpPool D) (h : St) : outcome unit * (UdpPool D * St) :=
  let keep r := let '(r, p) := r in (r, (p, h)) in
  match c with
  | CallBind s => keep (bind s p)
  | CallUnbind a => keep (forget (unbind a p))
  | CallReplace l => keep (replace_services l p)
  | CallSend source destination payload deadline =>
      keep (forget (send_with_options source destination payload deadline p))
  | CallDiscover source seed id => keep (discover source seed id p)
  | CallAdvance now => keep (advance now p)
  | CallFlush => keep (forget (flush p))
  | CallPopEvent => (Ok tt, ((pop_event p).2, h))
  | CallPoll now lease budget => forget (poll handler now lease budget p h)
  end.
Fixpoint run_calls (cs : list udp_call) (p : UdpPool D) (h : St) : list (outcome unit) * UdpPool D :=
  match cs with
  | [] => ([], p)
  | c :: cs => let '(r, (p, h)) := run_call c p h in
               let '(rs, p) := run_calls cs p h in (r :: rs, p)
  end.

Lemma run_call_inv c p h held :
  udp_inv p held -> call_ok c ->
  exists r p' h', run_call c p h = (r, (p', h')) /\ returns r /\ udp_inv p' held.
Proof.
  intros I Hc. destruct c; cbn [run_call call_ok] in *.
  - destruct (bind_spec s p held I Hc) as (r & p' & -> & R & I' & _). eauto 10.
  - destruct (unbind_spec a p held I) as (r & p' & -> & I' & _). unfold forget. cbn [then_]. eauto 10.
  - destruct (replace_spec l p held I Hc) as (r & p' & -> & R & I' & _). eauto 10.
  - destruct Hc as [Hd Hb].
    destruct (send_spec source destination payload deadline p held I Hd Hb) as (r & p' & -> & R & I' & _).
    unfold forget. destruct r; try done; cbn [then_]; eauto 10.
  - unfold discover, send_to.
    destruct (send_spec source seed (QUERY ++ be32 id) None p held I Hc) as (r & p' & -> & R & I' & _).
    { apply bytes_app. split; [|apply bytes_be32]. repeat constructor; unfold is_byte; lia. }
    destruct r; try done; cbn [then_]; eauto 10.
  - destruct (advance_spec now p held I) as (r & p' & -> & R & I' & _). eauto 10.
  - destruct (flush_spec p held I) as (r & p' & -> & R & I' & _).
    unfold forget. destruct r; try done; cbn [then_]; eauto 10.
  - eexists _, _, _. split; [done|]. split; [done|]. destruct I as [[C ? ? ?] ?]. split; [|done]. split; [|done..].
    destruct C. constructor; cbn; try done. destruct (events p); [done|]. rewrite zlen_cons in *. simpl. lia.
  - destruct (udp_poll_spec now lease budget p h held I Hc) as (r & p' & h' & -> & R & I' & _).
    unfold forget. destruct r; try done; cbn [then_]; eauto 10.
Qed.
Lemma run_calls_inv cs p h held :
  udp_inv p held -> Forall call_ok cs ->
  exists rs p', run_calls cs p h = (rs, p') /\ Forall returns rs /\ udp_inv p' held.
Proof.
  revert p h. induction cs as [|c cs IH]; intros p h I F; cbn [run_calls]; [by exists [], p|].
  apply Forall_cons in F as [Hc F]. destruct (run_call_inv c p h held I Hc) as (r & p1 & h1 & -> & R & I1).
  destruct (IH p1 h1 I1 F) as (rs & p' & -> & Rs & I'). exists (r :: rs), p'. split; [done|].
  split; [by constructor|done].
Qed.
Lemma with_config_inv (d : D) cfg p held :
  dev_inv d held -> udp_config_ok cfg -> with_config d cfg = Ok p -> udp_inv p held.
Proof.
  intros Id Hc. unfold with_config. rewrite (uc_valid _ Hc). cbn [obind]. intros [= <-].
  pose proof Hc as []. split; [|by cbn; constructor]. split; [|done|by cbn; constructor..].
  constructor; cbn; try done; rewrite ?zlen_nil, ?map_size_empty; try lia.
  - by apply scheduler_new_inv.
  - constructor.
Qed.

(** Sessions of the UDP pool.  Over any device that keeps the device laws and any
    handler, every sequence of calls returns from every call; the datagram queue, the peer and
    endpoint tables and the event log stay within their configured bounds; the frames are
    accounted for; every identifier handed out is pending, submitted or dropped, exactly
    once; and every pending datagram is a valid packet from a bound endpoint. *)
Theorem udp_sessions (d : D) cfg p0 held cs h :
  dev_inv d held -> udp_config_ok cfg -> with_config d cfg = Ok p0 -> Forall call_ok cs ->
  let '(rs, p) := run_calls cs p0 h in
  Forall returns rs
  /\ zlen (queue (tx p)) + us_submitted (stats p) + us_dropped (stats p) = next_id p - 1
  /\ zlen (queue (tx p)) <= queue_capacity (config p)
  /\ Z.of_nat (size (services p)) <= service_capacity (config p)
  /\ Z.of_nat (size (peers p)) <= UdpSched.peer_capacity (config p)
  /\ zlen (events p) <= udp_event_capacity (config p)
  /\ StronglySorted Z.lt (q_id <$> queue (tx p))
  /\ Forall (packet_ok (services p)) (queue (tx p))
  /\ dev_inv (device p) (owned (frames_of p) ++ owned (rx p) ++ held).
Proof.
  intros Id Hc E F. pose proof (with_config_inv d cfg p0 held Id Hc E) as I0.
  destruct (run_calls_inv cs p0 h held I0 F) as (rs & p & -> & R & [[C Dv ? ?] P]).
  split; [done|]. pose proof (si_len _ _ (co_sched _ _ C)). destruct C. split_and!; try done. lia.
Qed.

(** [send_with_options] either queues, behind the datagrams that wait, one packet that
    parses to exactly the given endpoints and payload, under a fresh identifier, or reports
    an error and leaves the queue as it was. *)
Theorem udp_send source destination payload deadline p held :
  udp_inv p held -> sock_ok destination -> bytes_ok payload ->
  let '(r, p') := send_with_options source destination payload deadline p in
  match r with
  | Ok id => id = next_id p /\ exists f dl,
      queue (tx p') = queue (tx p) ++ [mkQueued f id source destination dl (generation p)]
      /\ udp_parse (as_slice f) = Ok (mkDatagram source destination payload)
  | Err _ => queue (tx p') = queue (tx p)
  | _ => False
  end.
Proof.
  intros I Hd Hb. destruct (send_spec source destination payload deadline p held I Hd Hb)
    as (r & p' & -> & R & _ & _ & E). by destruct r.
Qed.

(** Echo.  A datagram for a bound endpoint that is not discovery traffic is given to the
    handler exactly as it was sent; if the handler asks for an echo and the answer is
    admitted, one packet is queued in the received frame, from that endpoint back to the
    sender, and it parses to the same payload with the endpoints exchanged. *)
Theorem udp_pool_echo now frame d p h h' held :
  udp_inv p (owned [frame] ++ held) -> handle (dev_pool (device p)) (dev_frame_size (device p)) frame ->
  udp_parse (as_slice frame) = Ok d -> is_Some (services p !! dg_destination d) ->
  zlen (dg_payload d) <> 10 \/ take 4 (dg_payload d) <> take 4 QUERY ->
  handler h d = (Echo, h') ->
  (admit_ (dg_destination d) (dg_source d) None
     (p <| stats ::= fun s => s <| us_received ::= count 1 |> |>)).1 = None ->
  next_id p < U64MAX ->
  exists p', take_frame handler now frame (p, h) = (Ok tt, (p', h')) /\ udp_inv p' held /\ exists f dl,
    queue (tx p') = queue (tx p)
      ++ [mkQueued f (next_id p) (dg_destination d) (dg_source d) dl (generation p)]
    /\ udp_parse (as_slice f) = Ok (swap_endpoints d).
Proof.
  intros I Hh Ep Hs Hq Eh Ea Hn. unfold take_frame. rewrite Ep.
  assert ((zlen (dg_payload d) =? 10) && list_eqb (take 4 (dg_payload d)) (take 4 QUERY) = false) as ->.
  { apply andb_false_iff. destruct Hq as [Hq|Hq]; [left; by bools|right].
    apply not_true_iff_false. by rewrite list_eqb_eq. }
  cbn [andb]. rewrite bool_decide_eq_true_2 by exact Hs. cbn [negb]. rewrite Eh.
  set (p1 := p <| stats ::= fun s => s <| us_received ::= count 1 |> |>) in *.
  assert (udp_inv p1 (owned [frame] ++ held)) as I1 by (by apply counters_inv).
  destruct (echo_spec frame d p1 held I1 Hh Ep) as (r & p' & -> & Rr & I' & M' & [[_ E]|[-> E]]).
  - specialize (E Ea). cbn in E. lia.
  - exists p'. split; [done|]. split; [done|]. exact E.
Qed.

(** [flush] submits only datagrams that have not expired, at most [tx_budget] of them,
    counts each one, and keeps the rest in order. *)
Theorem udp_flush p held :
  udp_inv p held ->
  let '(r, p') := flush p in
  queue (tx p') `sublist_of` filter (fun q => expired (now_ p) q = false) (queue (tx p))
  /\ match r with
     | Ok m => us_submitted (stats p') = us_submitted (stats p) + m /\ 0 <= m <= tx_budget (config p)
     | Err _ => True
     | _ => False
     end.
Proof.
  intros I. destruct (flush_spec p held I) as (r & p' & -> & R & _ & _ & S & Hm).
  split; [done|]. by destruct r.
Qed.
End Poll.

(** ** Witnesses *)
Definition alice : SocketAddrV4 := mkSock 0x0a000001 1000.
Definition bob : SocketAddrV4 := mkSock 0x0a000002 2000.
Definition cfg_small : UdpConfig := udp_config_default <| udp_event_capacity := 4 |>.
Lemma cfg_small_ok : udp_config_ok cfg_small.
Proof. constructor; [reflexivity|..]; simpl; unfold W64; try lia; intros r [=]. Qed.
Definition upool0 : UdpPool LoopbackDevice :=
  match with_config loopback2 cfg_small with
  | Ok p => p
  | _ => mkUdpPool loopback2 ∅ ∅ scheduler_new cfg_small [] 1 0 [] [] 0 0 0 stats_zero
  end.
Lemma alice_ok : sock_ok alice.
Proof. unfold sock_ok, alice, W32, W16. simpl. lia. Qed.
Lemma bob_ok : sock_ok bob.
Proof. unfold sock_ok, bob, W32, W16. simpl. lia. Qed.
Definition echoing (n : nat) (d : Datagram) : Action * nat := (Echo, S n).
Definition session : list udp_call :=
  [CallBind (mkService alice 1); CallBind (mkService bob 1);
   CallSend alice bob [104; 105] None; CallPoll 1 10 8; CallPoll 2 10 8].
Lemma session_ok : Forall call_ok session.
Proof.
  repeat (apply Forall_cons; split); try exact I; cbn; try apply alice_ok; try apply bob_ok; try lia.
  - split; [apply bob_ok|]. repeat constructor; unfold is_byte; lia.
  - constructor.
Qed.
(** The datagram goes through the loopback device, the handler echoes it, and the answer
    waits for the next submission. *)
Example udp_session_runs :
  let '(rs, p) := run_calls echoing session upool0 0%nat in
  rs = [Ok tt; Ok tt; Ok tt; Ok tt; Ok tt] /\ us_submitted (stats p) = 2
  /\ us_received (stats p) = 2 /\ next_id p = 4.
Proof. vm_compute. auto. Qed.
Lemma udp_sessions_witness :
  let '(rs, p) := run_calls echoing session upool0 0%nat in
  Forall returns rs /\ zlen (queue (tx p)) + us_submitted (stats p) + us_dropped (stats p) = next_id p - 1.
Proof.
  pose proof (udp_sessions echoing loopback2 cfg_small upool0 [] session 0%nat
    loopback2_inv cfg_small_ok eq_refl session_ok) as S.
  destruct (run_calls echoing session upool0 0%nat) as [rs p].
  exact (conj (proj1 S) (proj1 (proj2 S))).
Defined.
Lemma upool0_inv : udp_inv upool0 [].
Proof. eapply (with_config_inv loopback2 cfg_small); [apply loopback2_inv|apply cfg_small_ok|reflexivity]. Qed.
Definition upool1 : UdpPool LoopbackDevice := (run_calls echoing (take 3 session) upool0 0%nat).2.
Lemma upool1_inv : udp_inv upool1 [].
Proof.
  destruct (run_calls_inv echoing (take 3 session) upool0 0%nat [] upool0_inv) as (rs & p & E & _ & I).
  - apply Forall_take, session_ok.
  - unfold upool1. by rewrite E.
Qed.
Lemma udp_send_witness :
  match (send_with_options alice bob [1; 2; 3] None upool1).1 with Ok id => id = 2 | _ => False end.
Proof.
  pose proof (udp_send alice bob [1; 2; 3] None upool1 [] upool1_inv bob_ok
    ltac:(repeat constructor; unfold is_byte; lia)) as S.
  assert ((send_with_options alice bob [1; 2; 3] None upool1).1 = Ok 2) as E by (vm_compute; reflexivity).
  destruct (send_with_options alice bob [1; 2; 3] None upool1) as [r p']. simpl in E. subst r.
  exact (proj1 S).
Defined.
Lemma udp_flush_witness :
  let '(r, p') := flush upool1 in
  match r with Ok m => us_submitted (stats p') = us_submitted (stats upool1) + m | _ => False end.
Proof.
  pose proof (udp_flush upool1 [] upool1_inv) as S.
  assert ((flush upool1).1 = Ok 1) as E by (vm_compute; reflexivity).
  destruct (flush upool1) as [r p']. simpl in E. subst r. exact (proj1 (proj2 S)).
Defined.
(** [alice]'s datagram to [bob], taken out of the queue of [upool1]. *)
Definition upool2 : UdpPool LoopbackDevice := (run_calls echoing (take 2 session) upool0 0%nat).2.
Definition echo_in : PacketBuf := mkPacketBuf (udp_datagram (mkDatagram alice bob [104; 105]) 0) 0 30 0 None.
Lemma udp_pool_echo_witness :
  exists p', take_frame echoing 0 echo_in (upool2, 0%nat) = (Ok tt, (p', 1%nat)) /\ exists q,
    queue (tx p') = [q] /\ udp_parse (as_slice (q_frame q)) = Ok (mkDatagram bob alice [104; 105]).
Proof.
  destruct (udp_pool_echo echoing 0 echo_in (mkDatagram alice bob [104; 105]) upool2 0%nat 1%nat [])
    as (p' & E & _ & f & dl & Eq & P).
  - change (owned [echo_in] ++ []) with (@nil Z).
    destruct (run_calls_inv echoing (take 2 session) upool0 0%nat [] upool0_inv) as (rs & p & E & _ & I);
      [apply Forall_take, session_ok|]. unfold upool2. rewrite E. exact I.
  - split; [vm_compute; repeat split; discriminate|]. split; [|exact Logic.I].
    apply (udp_datagram_ok (mkDatagram alice bob [104; 105]) 0).
    constructor; [apply alice_ok|apply bob_ok|repeat constructor; unfold is_byte; lia|vm_compute; discriminate].
  - vm_compute. reflexivity.
  - exists 1. vm_compute. reflexivity.
  - left. vm_compute. discriminate.
  - reflexivity.
  - vm_compute. reflexivity.
  - vm_compute. reflexivity.
  - exists p'. split; [exact E|]. eexists. split; [exact Eq|exact P].
Defined.
