(* ===== verification/UdpEthernet.v ===== *)
(** * UDP over Ethernet ([src/api/mod.rs], [UdpPool<EthernetIpv4<D>>])

    The two layers composed: a UDP pool whose device is the Ethernet/IPv4 interface, and the
    operations that apply or withdraw an address lease to both. *)
From Stdlib Require Import ZArith Lia Bool.
From stdpp Require Import base numbers option list gmap sorting.
From S2P Require Import Prelude BufferPool Addr Ethernet Route Device Loopback OrdMap.
From S2P Require Import Interface InterfaceInv InterfaceStep InterfaceProps.
From S2P Require Import UdpWire Responder UdpSched UdpPool UdpPoolInv UdpPoolProps.
#[local] Open Scope Z_scope.

Section Lease.
Context {D : Type} `{DeviceLaws D}.
Notation Pool := (UdpPool (EthernetIpv4 D)).
Implicit Types p : UdpPool (EthernetIpv4 D).

Definition udp_configure_ipv4 (address prefix : Z) (gw : option Z) (l : list Service) : ST Pool unit := fun p =>
  match validate_services l p with
  | Ok replacement =>
      if existsb (fun s => negb (ip (sv_address s) =? address)) l then (Err InvalidInput, p)
      else
        then_ (on_device (configure_ipv4 address prefix gw) p) id (fun changed p =>
        if changed || negb (bool_decide (replacement = services p)) then
          then_ (if changed : bool then (Ok tt, p) else on_device reset_link p) id (fun _ p =>
          install_services replacement p)
        else (Ok tt, p))
  | r => (recast r, p)
  end.
Definition udp_withdraw_ipv4 : ST Pool unit := fun p =>
  then_ (on_device withdraw_ipv4 p) id (fun _ p => install_services ∅ p).

(** A lease that is in force on both layers. *)
Definition leased (address prefix : Z) p : Prop :=
  configured (device p) = true /\ if_address (e_config (device p)) = address
  /\ if_prefix_len (e_config (device p)) = prefix
  /\ forall s n, services p !! s = Some n -> ip s = address.

Lemma insert_services_ip (address : Z) l (m m' : gmap SocketAddrV4 Z) :
  insert_services l m = Ok m' -> Forall (fun s => ip (sv_address s) = address) l ->
  (forall s n, m !! s = Some n -> ip s = address) -> forall s n, m' !! s = Some n -> ip s = address.
Proof.
  revert m. induction l as [|x l IH]; intros m E F Hm; simpl in E; [by injection E as <-|].
  apply Forall_cons in F as [Hx F]. destruct (validate_bind _); try done. cbn [obind] in E.
  destruct (bool_decide _); [done|]. eapply IH; [exact E|exact F|].
  intros s n [[<- _]|[_ Hs]]%lookup_insert_Some; [done|eauto].
Qed.
Lemma same_pool p d : device p = d -> p <| device := d |> = p.
Proof. intros <-. by destruct p. Qed.

(** Dropping frames changes the interface only in the device below it. *)
Definition iface_same (e e' : EthernetIpv4 D) : Prop := e' = e <| e_device := e_device e' |>.
Lemma iface_refl e : iface_same e e.
Proof. by destruct e. Qed.
Lemma iface_trans e1 e2 e3 : iface_same e1 e2 -> iface_same e2 e3 -> iface_same e1 e3.
Proof. unfold iface_same. intros -> ->. by destruct e1. Qed.
Lemma event_device ev p : device (event ev p) = device p.
Proof. unfold event. destruct (_ =? 0); [done|]. by destruct (_ =? _). Qed.
Lemma drop_queued_iface i why p : iface_same (device p) (device (drop_queued i why p).2).
Proof.
  unfold drop_queued. destruct (remove i (tx p)) as [[q s]|k| |]; cbn; try apply iface_refl.
  unfold finish, on_device. set (p1 := event _ _).
  assert (device p1 = device p) as Ep by (unfold p1; rewrite event_device; by destruct why).
  clearbody p1. cbn [dev_drop ethernet_device]. unfold on_inner. destruct (dev_drop _ (e_device _)) as [r d]. cbn.
  rewrite Ep. unfold iface_same. by destruct (device p).
Qed.
Lemma cancel_all_iface fuel p : iface_same (device p) (device (cancel_all fuel p).2).
Proof.
  revert p. induction fuel as [|fuel IH]; intros p; cbn [cancel_all]; [apply iface_refl|].
  destruct (queue (tx p)); [apply iface_refl|].
  pose proof (drop_queued_iface 0 (Dropped ConfigurationChanged) p) as S.
  destruct (drop_queued _ _ p) as [[a|k| |] p1]; cbn [then_ snd] in *; try exact S.
  eapply iface_trans; [exact S|apply IH].
Qed.
Lemma install_iface m p : iface_same (device p) (device (install_services m p).2).
Proof.
  unfold install_services. pose proof (cancel_all_iface (S (length (queue (tx p)))) p) as S.
  destruct (cancel_all _ p) as [[a|k| |] p1]; exact S.
Qed.
Lemma install_lease address m p held :
  udp_inv p held -> Z.of_nat (size m) <= service_capacity (config p) ->
  (forall a n, m !! a = Some n -> bindable a) -> (forall s n, m !! s = Some n -> ip s = address) ->
  exists p', install_services m p = (Ok tt, p') /\ udp_inv p' held /\ iface_same (device p) (device p')
    /\ services p' = m /\ queue (tx p') = [] /\ peers p' = ∅.
Proof.
  intros I Hm Hb Hi. pose proof (install_iface m p) as S.
  destruct (install_spec m p held I Hm Hb) as (p' & E & I' & Es & Eq & Ep & _). rewrite E in S. by exists p'.
Qed.

(** The result of applying a lease. *)
Definition lease_result (address prefix : Z) (gw : option Z) (l : list Service) p (r : outcome unit) p' : Prop :=
  match r with
  | Ok _ => leased address prefix p' /\ validate_services l p = Ok (services p')
            /\ (p' = p \/ queue (tx p') = [] /\ peers p' = ∅ /\ pending (device p') = []
                          /\ ready_ (device p') = [] /\ control (device p') = [])
            /\ (leased address prefix p -> validate_services l p = Ok (services p) ->
                (configure_ipv4 address prefix gw (device p)).1 = Ok false -> p' = p)
  | Err _ => p' = p
  | _ => False
  end.
Lemma lease_spec address prefix gw l p held :
  udp_inv p held -> conf_ok address prefix gw -> Forall (fun s => sock_ok (sv_address s)) l ->
  exists r p', udp_configure_ipv4 address prefix gw l p = (r, p') /\ udp_inv p' held
    /\ lease_result address prefix gw l p r p'.
Proof.
  intros I Hc Hl. unfold udp_configure_ipv4, lease_result. pose proof (validate_services_spec l p held I Hl) as V.
  destruct (validate_services l p) as [m|k| |] eqn:Ev; try done; [|by exists (Err k), p].
  destruct V as [Vs Vb]. destruct (existsb _ l) eqn:Ex; [by exists (Err InvalidInput), p|].
  assert (forall s n, m !! s = Some n -> ip s = address) as Hi.
  { unfold validate_services in Ev. destruct (_ <? _); [done|]. eapply insert_services_ip; [exact Ev| |].
    - apply Forall_forall. intros s Hs. destruct (ip (sv_address s) =? address) eqn:E; bools; [done|exfalso].
      apply not_true_iff_false in Ex. apply Ex, existsb_exists. exists s. split; [by apply list_elem_of_In|].
      by rewrite (proj2 (Z.eqb_neq _ _)).
    - intros s n. by rewrite lookup_empty. }
  unfold on_device at 1. pose proof (up_dev _ _ _ (ui_pool _ _ I)) as Dv.
  destruct (configure_spec address prefix gw (device p) _ Dv Hc) as (o & e1 & Eo & Ro & I1 & [S1 S2] & K).
  rewrite Eo. pose proof (device_inv p held e1 I I1 S1 S2) as J1.
  destruct o as [ch|k| |]; try done; cbn [then_].
  2:{ exists (Err k), p. cbn in K. subst e1. split; [|done]. by rewrite same_pool. }
  destruct K as (K1 & K2 & K3 & K4 & K5). set (p1 := p <| device := e1 |>) in *.
  change (services p1) with (services p).
  destruct (ch || negb (bool_decide (m = services p))) eqn:Ech.
  2:{ apply orb_false_iff in Ech as [-> Em]. specialize (K4 eq_refl). subst e1.
      assert (p1 = p) as -> by (by apply same_pool). exists (Ok tt), p.
      apply negb_false_iff, bool_decide_eq_true in Em. subst m. do 2 (split; [done|]). split; [done|].
      split; [done|]. split; [by left|done]. }
  assert (exists p2, (if ch then (Ok tt, p1) else on_device reset_link p1) = (Ok tt, p2) /\ udp_inv p2 held
    /\ e_config (device p2) = e_config e1 /\ configured (device p2) = true /\ config p2 = config p
    /\ pending (device p2) = [] /\ ready_ (device p2) = [] /\ control (device p2) = [])
    as (p2 & -> & J2 & Ec & Ef & Eg & E1 & E2 & E3).
  { destruct ch; [destruct (K5 eq_refl) as (? & ? & ? & _); by exists p1|]. unfold on_device.
    destruct (reset_link_spec e1 _ I1) as (e2 & E2 & I2 & [S3 S4] & Ec & Ef & Ep & Er & Ek).
    change (device p1) with e1. rewrite E2. eexists. split; [done|]. split; [by apply (device_inv p1)|].
    cbn. rewrite Ef. done. }
  cbn [then_]. rewrite <- Eg in Vs. destruct (install_lease address m p2 held J2 Vs Vb Hi) as (p3 & -> & J3 & Sf & Es & Eq & Ep).
  exists (Ok tt), p3. split; [done|]. split; [done|]. unfold iface_same in Sf. split; [|split; [by rewrite Es|split]].
  - unfold leased. rewrite Sf, Es. cbn. rewrite Ec. done.
  - right. rewrite Sf. done.
  - intros _ [= Hm] Hf. cbn in Hf. injection Hf as ->.
    rewrite bool_decide_eq_true_2 in Ech by exact Hm. done.
Qed.
(** Applying a lease is all or nothing over both layers: when it succeeds the interface
    has the address, every endpoint is bound to it, and a change has emptied the queues of
    both layers; a refused lease changes neither layer, and renewing the lease in force with
    the same endpoints keeps the queued traffic and the peers. *)
Theorem udp_lease address prefix gw l p held :
  udp_inv p held -> conf_ok address prefix gw -> Forall (fun s => sock_ok (sv_address s)) l ->
  exists r p', udp_configure_ipv4 address prefix gw l p = (r, p') /\ udp_inv p' held
    /\ lease_result address prefix gw l p r p'.
Proof. apply lease_spec. Qed.

Lemma withdraw_lease p held :
  udp_inv p held ->
  exists p', udp_withdraw_ipv4 p = (Ok tt, p') /\ udp_inv p' held
    /\ configured (device p') = false /\ services p' = ∅ /\ queue (tx p') = [].
Proof.
  intros I. unfold udp_withdraw_ipv4, on_device. pose proof (up_dev _ _ _ (ui_pool _ _ I)) as Dv.
  destruct (withdraw_spec (device p) _ Dv) as (e1 & -> & I1 & [S1 S2] & Kf & _). cbn [then_].
  pose proof (device_inv p held e1 I I1 S1 S2) as J1. set (p1 := p <| device := e1 |>) in *.
  destruct (install_lease 0 ∅ p1 held J1) as (p2 & -> & J2 & Sf & Es & Eq & _).
  - rewrite map_size_empty. pose proof (co_services _ _ (up_core _ _ _ (ui_pool _ _ J1))). lia.
  - intros a n. by rewrite lookup_empty.
  - intros a n. by rewrite lookup_empty.
  - exists p2. do 2 (split; [done|]). unfold iface_same in Sf. by rewrite Sf.
Qed.

(** ** Sessions over both layers *)
Inductive stack_call : Type :=
| CallUdp (c : udp_call)
| CallLease (address prefix : Z) (gw : option Z) (l : list Service)
| CallWithdraw.
Definition stack_call_ok (c : stack_call) : Prop :=
  match c with
  | CallUdp c => call_ok c
  | CallLease address prefix gw l => conf_ok address prefix gw /\ Forall (fun s => sock_ok (sv_address s)) l
  | CallWithdraw => True
  end.
Context {St : Type} (handler : St -> Datagram -> Action * St).
Definition run_stack_call (c : stack_call) p (h : St) : outcome unit * (Pool * St) :=
  match c with
  | CallUdp c => run_call handler c p h
  | CallLease address prefix gw l => let '(r, p) := udp_configure_ipv4 address prefix gw l p in (r, (p, h))
  | CallWithdraw => let '(r, p) := udp_withdraw_ipv4 p in (r, (p, h))
  end.
Fixpoint run_stack (cs : list stack_call) p (h : St) : list (outcome unit) * Pool :=
  match cs with
  | [] => ([], p)
  | c :: cs => let '(r, (p, h)) := run_stack_call c p h in
               let '(rs, p) := run_stack cs p h in (r :: rs, p)
  end.
Lemma run_stack_call_inv c p h held :
  udp_inv p held -> stack_call_ok c ->
  exists r p' h', run_stack_call c p h = (r, (p', h')) /\ returns r /\ udp_inv p' held.
Proof.
  intros I Hc. destruct c as [c|address prefix gw l|]; cbn [run_stack_call stack_call_ok] in *.
  - by apply run_call_inv.
  - destruct Hc as [Hc Hl]. destruct (lease_spec address prefix gw l p held I Hc Hl) as (r & p' & -> & I' & L).
    exists r, p', h. split; [done|]. split; [by destruct r|done].
  - destruct (withdraw_lease p held I) as (p' & -> & I' & _). by exists (Ok tt), p', h.
Qed.
Lemma run_stack_inv cs p h held :
  udp_inv p held -> Forall stack_call_ok cs ->
  exists rs p', run_stack cs p h = (rs, p') /\ Forall returns rs /\ udp_inv p' held.
Proof.
  revert p h. induction cs as [|c cs IH]; intros p h I F; cbn [run_stack]; [by exists [], p|].
  apply Forall_cons in F as [Hc F]. destruct (run_stack_call_inv c p h held I Hc) as (r & p1 & h1 & -> & R & I1).
  destruct (IH p1 h1 I1 F) as (rs & p' & -> & Rs & I'). exists (r :: rs), p'. split; [done|].
  split; [by constructor|done].
Qed.

(** C15. The stack as a whole: a UDP pool over the Ethernet interface over any device that
    keeps the device laws.  Every sequence of UDP calls, leases and withdrawals returns from
    every call; afterwards both layers are within their bounds, the frames of all three
    layers are accounted for, and every queued datagram is a valid packet of a bound
    endpoint. *)
Theorem udp_over_ethernet d c lay e0 cfg p0 held cs h :
  dev_inv d held -> config_range c -> eth_new d c lay = Ok e0 ->
  udp_config_ok cfg -> with_config e0 cfg = Ok p0 -> Forall stack_call_ok cs ->
  let '(rs, p) := run_stack cs p0 h in
  Forall returns rs
  /\ zlen (queue (tx p)) <= queue_capacity (config p)
  /\ zlen (pending (device p)) + zlen (ready_ (device p)) <= tx_capacity (e_config (device p))
  /\ zlen (neighbors (device p)) <= neighbor_capacity (e_config (device p))
  /\ Forall (packet_ok (services p)) (queue (tx p))
  /\ dev_inv (e_device (device p))
       (owned (eframes (device p)) ++ owned (frames_of p) ++ owned (rx p) ++ held).
Proof.
  intros Id Hc E Hu Ep F. destruct (eth_new_spec d c lay e0 held Id Hc E) as [I0 _].
  pose proof (with_config_inv e0 cfg p0 held I0 Hu Ep) as J0.
  destruct (run_stack_inv cs p0 h held J0 F) as (rs & p & -> & R & [[C [Dv _] _ _] P]).
  pose proof (ei_core _ _ Dv) as Ce. pose proof (si_len _ _ (co_sched _ _ C)).
  split; [done|]. split; [destruct C; lia|]. split; [apply Ce|]. split; [apply Ce|]. split; [done|]. apply Dv.
Qed.
End Lease.

(** ** Witnesses *)
Definition upool_eth : UdpPool (EthernetIpv4 LoopbackDevice) :=
  match with_config eth0 cfg_small with
  | Ok p => p
  | _ => mkUdpPool eth0 ∅ ∅ scheduler_new cfg_small [] 1 0 [] [] 0 0 0 stats_zero
  end.
Definition lease_session : list stack_call :=
  [CallLease 0x0a000001 16 None [mkService alice 1]; CallUdp (CallSend alice bob [104; 105] None);
   CallUdp (CallPoll 1 10 8); CallLease 0x0a000001 16 None [mkService alice 1]; CallWithdraw].
Lemma lease_session_ok : Forall stack_call_ok lease_session.
Proof.
  assert (conf_ok 0x0a000001 16 None) as Hc by (split; [unfold W32; lia|]; split; [lia|done]).
  assert (Forall (fun s => sock_ok (sv_address s)) [mkService alice 1]) as Hs by (constructor; [apply alice_ok|constructor]).
  repeat (apply Forall_cons; split); cbn; try done; try lia.
  split; [apply bob_ok|]. repeat constructor; unfold is_byte; lia.
Qed.
(** The datagram leaves the UDP queue and waits for the neighbour's address. *)
Example stack_runs :
  let '(rs, p) := run_stack echoing (take 3 lease_session) upool_eth 0%nat in
  rs = [Ok tt; Ok tt; Ok tt] /\ queue (tx p) = [] /\ zlen (pending (device p)) = 1.
Proof. vm_compute. auto. Qed.
Lemma udp_over_ethernet_witness :
  let '(rs, p) := run_stack echoing lease_session upool_eth 0%nat in
  Forall returns rs /\ zlen (queue (tx p)) <= queue_capacity (config p).
Proof.
  pose proof (udp_over_ethernet echoing loopback2 if_cfg (fun _ => 0%nat) eth0 cfg_small upool_eth [] lease_session 0%nat) as S.
  specialize (S loopback2_inv if_cfg_range eth0_new cfg_small_ok eq_refl lease_session_ok).
  destruct (run_stack echoing lease_session upool_eth 0%nat) as [rs p].
  exact (conj (proj1 S) (proj1 (proj2 S))).
Defined.
Lemma upool_eth_inv : udp_inv upool_eth [].
Proof. eapply (with_config_inv eth0 cfg_small); [apply eth0_ok|apply cfg_small_ok|reflexivity]. Qed.
Lemma udp_lease_witness :
  exists r p', udp_configure_ipv4 0x0a000001 16 None [mkService alice 1] upool_eth = (r, p')
    /\ lease_result 0x0a000001 16 None [mkService alice 1] upool_eth r p'.
Proof.
  destruct (udp_lease 0x0a000001 16 None [mkService alice 1] upool_eth [] upool_eth_inv) as (r & p' & E & _ & L).
  - split; [unfold W32; lia|]. split; [lia|done].
  - constructor; [apply alice_ok|constructor].
  - exists r, p'. split; [exact E|exact L].
Defined.
