(* ===== verification/TcpConn.v ===== *)
(** * The TCP connection state machine ([src/api/tcp/connection.rs])

    One definition per method of [Connection]; a [&mut self] method takes and
    returns the connection.  [VecDeque]s are lists, front first.  [transmit] is
    generic in the device, as in the source; its parts that only touch the connection
    ([prepare], [select_flight], [recheck], [submitted]) are definitions of their own.

    [usize] subtractions are subtractions of [Z]: [TcpConnInv] proves that none of them
    goes below zero. *)
From Stdlib Require Import ZArith Lia Bool.
From stdpp Require Import base numbers option list.
From S2P Require Import Prelude BufferPool Addr TcpWire TcpTypes Device.
#[local] Open Scope Z_scope.

Record Flight : Type := mkFlight {
  fl_sequence : Z;
  fl_flags : Z;
  fl_payload : list Z;
  created : Z;
  last_sent : option Z;
  transmissions : Z;
  fl_rto : Z;
  persist : bool;
  rtt_eligible : bool
}.
#[export] Instance eta_Flight : Eta Flight := fun f =>
  mkFlight (fl_sequence f) (fl_flags f) (fl_payload f) (created f) (last_sent f)
    (transmissions f) (fl_rto f) (persist f) (rtt_eligible f).

(** [Flight::end] *)
Definition fl_end (f : Flight) : Z :=
  wadd32 (wadd32 (wadd32 (fl_sequence f) (u32 (zlen (fl_payload f))))
            (flag1 (has (fl_flags f) SYN))) (flag1 (has (fl_flags f) FIN)).

Definition due (f : Flight) (now : Z) : bool :=
  match last_sent f with None => true | Some at_ => dur_add at_ (fl_rto f) <=? now end.

Record Connection : Type := mkConnection {
  local : SocketAddrV4;
  remote : SocketAddrV4;
  state : TcpState;
  accepted : bool;
  received : list Z;
  local_error : option ErrorKind;
  queued : list Z;
  flights : list Flight;
  flight_payload : Z;
  cwnd : Z;
  ssthresh : Z;
  congestion_credit : Z;
  last_data_sent : option Z;
  syn_retransmitted : bool;
  timeout_retransmissions : Z;
  device_blocked : bool;
  reported : option (TcpState * TcpWait * Z);
  reported_flow : option FlowStatus;
  reported_at : Z;
  send_una : Z;
  send_next : Z;
  send_sent : Z;
  receive_next : Z;
  peer_window : Z;
  window_sequence : Z;
  window_ack : Z;
  peer_mss : Z;
  ack_pending : bool;
  peer_eof : bool;
  write_closed : bool;
  phase_deadline : option Z;
  close_deadline : option Z;
  rto : Z;
  srtt : option Z;
  rttvar : Z;
  window_probe_at : Z;
  probe_pending : bool
}.
#[export] Instance eta_Connection : Eta Connection := fun c =>
  mkConnection (local c) (remote c) (state c) (accepted c) (received c) (local_error c)
    (queued c) (flights c) (flight_payload c) (cwnd c) (ssthresh c) (congestion_credit c)
    (last_data_sent c) (syn_retransmitted c) (timeout_retransmissions c) (device_blocked c)
    (reported c) (reported_flow c) (reported_at c) (send_una c) (send_next c) (send_sent c)
    (receive_next c) (peer_window c) (window_sequence c) (window_ack c) (peer_mss c)
    (ack_pending c) (peer_eof c) (write_closed c) (phase_deadline c) (close_deadline c) (rto c)
    (srtt c) (rttvar c) (window_probe_at c) (probe_pending c).

Definition start_flight (c : Connection) (flags : Z) (payload : list Z) (persist : bool)
    (now : Z) : Connection :=
  let flight := mkFlight (send_next c) flags payload now None 0 (rto c) persist true in
  c <| send_next := fl_end flight |>
    <| flight_payload ::= fun n => n + zlen payload |>
    <| flights ::= fun fs => fs ++ [flight] |>.

Definition active (local remote : SocketAddrV4) (iss now : Z) (cfg : TcpConfig) : Connection :=
  let c := {|
    local := local; remote := remote; state := SynSent; accepted := true;
    received := []; local_error := None; queued := []; flights := []; flight_payload := 0;
    cwnd := Z.min (max_cwnd_bytes cfg) (cfg_mss cfg); ssthresh := initial_ssthresh_bytes cfg;
    congestion_credit := 0; last_data_sent := None; syn_retransmitted := false;
    timeout_retransmissions := 0; device_blocked := false; reported := None;
    reported_flow := None; reported_at := now; send_una := iss; send_next := iss;
    send_sent := iss; receive_next := 0; peer_window := 0; window_sequence := 0;
    window_ack := 0; peer_mss := 536; ack_pending := false; peer_eof := false;
    write_closed := false; phase_deadline := Some (dur_add now (handshake_timeout cfg));
    close_deadline := None; rto := initial_rto cfg; srtt := None; rttvar := 0;
    window_probe_at := now; probe_pending := false |} in
  start_flight c SYN [] false now.

(** [flights.front_mut().unwrap().flags = SYN | ACK] finds the SYN of [active]. *)
Definition passive (syn : Segment) (iss now : Z) (cfg : TcpConfig) : Connection :=
  let c := active (destination syn) (source syn) iss now cfg in
  c <| state := SynReceived |>
    <| accepted := false |>
    <| receive_next := wadd32 (sequence syn) 1 |>
    <| peer_window := window syn |>
    <| peer_mss := default 536 (mss syn) |>
    <| window_sequence := sequence syn |>
    <| flights ::= fun fs => match fs with
                             | f :: fs => f <| fl_flags := Z.lor SYN ACK |> :: fs
                             | [] => []
                             end |>.

Definition send_buffered (c : Connection) : Z := zlen (queued c) + flight_payload c.

Definition write (c : Connection) (bytes : list Z) (cfg : TcpConfig)
  : outcome Z * Connection :=
  if write_closed c || negb (can_send (state c)) then (Err NotConnected, c)
  else if zlen bytes =? 0 then (Ok 0, c)
  else
    let n := Z.min (zlen bytes) (send_capacity cfg - send_buffered c) in
    if n =? 0 then (Err WouldBlock, c)
    else (Ok n, c <| queued ::= fun q => q ++ take (Z.to_nat n) bytes |>).

(** [read] into a buffer of [len] bytes: the result carries the bytes written to
    its front. *)
Definition read (c : Connection) (len : Z) : outcome (list Z) * Connection :=
  if len =? 0 then (Ok [], c)
  else match local_error c with
  | Some kind => (Err kind, c)
  | None =>
      if bool_decide (state c = Reset_) then (Err ConnectionReset, c)
      else if bool_decide (state c = TimedOut_) then (Err TimedOut, c)
      else
        let n := Z.min len (zlen (received c)) in
        let out := take (Z.to_nat n) (received c) in
        let c := c <| received ::= drop (Z.to_nat n) |> in
        if 0 <? n then (Ok out, c <| ack_pending := true |>)
        else if peer_eof c || bool_decide (state c = Closed) then (Ok [], c)
        else (Err WouldBlock, c)
  end.

Definition close (c : Connection) (now : Z) (cfg : TcpConfig) : outcome unit * Connection :=
  if write_closed c then (Ok tt, c)
  else if negb (can_send (state c)) then (Err InvalidInput, c)
  else (Ok tt, c <| write_closed := true |>
                 <| close_deadline := Some (dur_add now (close_timeout cfg)) |>).

Definition fail_ (c : Connection) (s : TcpState) : Connection :=
  c <| state := s |>
    <| local_error := None |>
    <| queued := [] |>
    <| received := [] |>
    <| flights := [] |>
    <| flight_payload := 0 |>
    <| send_una := send_sent c |>
    <| send_next := send_sent c |>
    <| device_blocked := false |>
    <| ack_pending := false |>
    <| phase_deadline := None |>
    <| close_deadline := None |>.

Definition reset_packet (c : Connection) : Reset :=
  mkReset (local c) (remote c) (send_sent c) (receive_next c)
    (if bool_decide (state c = SynSent) then RST else Z.lor RST ACK).

(** [deadline.is_some_and(|d| now >= d)] *)
Definition reached (deadline : option Z) (now : Z) : bool :=
  match deadline with Some d => d <=? now | None => false end.

Definition tick (c : Connection) (now : Z) (cfg : TcpConfig) : Connection :=
  if is_terminal (state c) then c
  else if bool_decide (state c = TimeWait) then
    if reached (phase_deadline c) now
    then c <| state := Closed |> <| phase_deadline := None |> <| ack_pending := false |>
    else c
  else
    let expired :=
      reached (phase_deadline c) now || reached (close_deadline c) now
      || match flights c with
         | f :: _ =>
             (dur_add (created f) (send_timeout cfg) <=? now)
             || (negb (persist f) && due f now && (max_retransmits cfg <? transmissions f))
         | [] => false
         end in
    if expired then fail_ c TimedOut_ else c.

Definition next_deadline (c : Connection) (cfg : TcpConfig) : option Z :=
  if is_terminal (state c) then None
  else
    let flight :=
      match flights c with
      | f :: _ =>
          Some (Z.min (match last_sent f with
                       | Some at_ => dur_add at_ (fl_rto f)
                       | None => created f
                       end)
                      (dur_add (created f) (send_timeout cfg)))
      | [] => None
      end in
    let probe :=
      if write_closed c && (peer_window c =? 0) && bool_decide (flights c = [])
         && can_send (state c)
      then Some (window_probe_at c) else None in
    opt_min (opt_min (opt_min (phase_deadline c) (close_deadline c)) flight) probe.

(** ** Windows *)
Definition send_mss (c : Connection) (cfg : TcpConfig) : Z :=
  Z.min (cfg_mss cfg) (Z.max (peer_mss c) 1).

Definition initial_cwnd (c : Connection) (cfg : TcpConfig) : Z :=
  let mss := send_mss c cfg in
  let segments :=
    if syn_retransmitted c then 1
    else if 2190 <? mss then 2
    else if 1095 <? mss then 3
    else 4 in
  Z.min (mss * Z.min (initial_cwnd_segments cfg) segments) (max_cwnd_bytes cfg).

Definition advertised_window (c : Connection) (cfg : TcpConfig) : Z :=
  u16 (Z.min (receive_capacity cfg - zlen (received c)) (receive_window_limit cfg)).

Definition bytes_in_flight (c : Connection) : Z := wsub32 (send_sent c) (send_una c).

Definition wait_reason (c : Connection) (cfg : TcpConfig) : TcpWait :=
  let inflight := bytes_in_flight c in
  if is_terminal (state c) then Terminal
  else if device_blocked c then WaitDevice
  else if match state c with SynSent | SynReceived => true | _ => false end then Handshake
  else if negb (zlen (queued c) =? 0) then
    if peer_window c <=? inflight then PeerWindow
    else if cwnd c <=? inflight then CongestionWindow
    else if max_inflight_segments cfg <=? zlen (flights c) then FlightLimit
    else Ready
  else if (peer_window c =? 0) && (negb (zlen (flights c) =? 0) || write_closed c) then PeerWindow
  else if negb (zlen (flights c) =? 0) then Acknowledgment
  else if write_closed c then WaitClosing
  else Application.

Definition status (c : Connection) (cfg : TcpConfig) : ConnectionStatus :=
  mkConnectionStatus (local c) (remote c) (state c) (send_buffered c) (zlen (received c))
    (mkFlowStatus (advertised_window c cfg) (peer_window c) (cwnd c) (ssthresh c)
       (bytes_in_flight c) (zlen (flights c)) (rto c) (timeout_retransmissions c)
       (wait_reason c cfg))
    (local_error c).

(** ** Input *)
Definition enter_time_wait (c : Connection) (now : Z) (cfg : TcpConfig) : Connection :=
  c <| state := TimeWait |>
    <| close_deadline := None |>
    <| phase_deadline := Some (dur_add now (time_wait cfg)) |>.

Definition update_rto (c : Connection) (sample : Z) (cfg : TcpConfig) : Connection :=
  let c :=
    match srtt c with
    | Some s =>
        let difference := if sample <? s then s - sample else sample - s in
        c <| rttvar := dur_add (dur_mul (rttvar c) 3 / 4) (difference / 4) |>
          <| srtt := Some (dur_add (dur_mul s 7 / 8) (sample / 8)) |>
    | None => c <| srtt := Some sample |> <| rttvar := sample / 2 |>
    end in
  c <| rto := Z.min (Z.max (dur_add (default 0 (srtt c))
                               (Z.max (dur_mul (rttvar c) 4) MILLI))
                           (initial_rto cfg))
                    (max_rto cfg) |>.

(** What the flight loop of [acknowledge] accumulates. *)
Record Acked : Type := mkAcked {
  completed_flags : Z;
  sample : option Z;
  ambiguous : bool;
  acknowledged_payload : Z
}.
#[export] Instance eta_Acked : Eta Acked := fun a =>
  mkAcked (completed_flags a) (sample a) (ambiguous a) (acknowledged_payload a).

(** The [while let Some(f) = flights.front_mut()] loop, with the remaining flights; the
    boolean is false when the method returns from inside the loop. *)
Fixpoint ack_flights (fs : list Flight) (ack now : Z) (a : Acked)
  : bool * list Flight * Acked :=
  match fs with
  | [] => (true, [], a)
  | f :: rest =>
      if negb (before (fl_sequence f) ack) then (true, fs, a)
      else
        let a := a <| ambiguous ::= fun b => b || negb (rtt_eligible f)
                                              || (1 <? transmissions f) |> in
        if negb (before ack (fl_end f)) then
          let a := a <| completed_flags ::= Z.lor (fl_flags f) |>
                     <| acknowledged_payload ::= fun n => n + zlen (fl_payload f) |> in
          let a := if (transmissions f =? 1) && rtt_eligible f
                   then a <| sample := dur_sub now <$> last_sent f |> else a in
          ack_flights rest ack now a
        else
          let consumed := wsub32 ack (fl_sequence f) in
          if zlen (fl_payload f) <? consumed then (false, fs, a)
          else
            (true,
             f <| fl_payload ::= drop (Z.to_nat consumed) |>
               <| fl_sequence := ack |>
               <| rtt_eligible := false |> :: rest,
             a <| acknowledged_payload ::= fun n => n + consumed |>)
  end.

(** Adoption of the peer's window, unless the segment is older than the last update. *)
Definition update_window (c : Connection) (segment : Segment) : Connection :=
  let ack := acknowledgment segment in
  if before (window_sequence c) (sequence segment)
     || ((window_sequence c =? sequence segment) && negb (before ack (window_ack c)))
  then
    let c := c <| peer_window := window segment |>
               <| window_sequence := sequence segment |>
               <| window_ack := ack |> in
    if 0 <? peer_window c
    then c <| flights ::= fmap (fun f => f <| persist := false |>) |> else c
  else c.

(** Restart of the single retransmission timer on progress: the front flight, if it has
    been submitted. *)
Definition restart_front (rto now : Z) (fs : list Flight) : list Flight :=
  match fs with
  | f :: rest =>
      match last_sent f with
      | Some _ => f <| last_sent := Some now |> <| fl_rto := rto |>
                    <| rtt_eligible := false |> :: rest
      | None => fs
      end
  | [] => []
  end.
Definition restart_timer (c : Connection) (now : Z) : Connection :=
  c <| flights ::= restart_front (rto c) now |>.

(** Window growth: the initial window after the SYN, slow start, congestion avoidance. *)
Definition grow_cwnd (c : Connection) (a : Acked) (cfg : TcpConfig) : Connection :=
  if has (completed_flags a) SYN then
    let c := c <| cwnd := initial_cwnd c cfg |> in
    if syn_retransmitted c
    then c <| rto := Z.min (Z.max (3 * SECOND) (initial_rto cfg)) (max_rto cfg) |> else c
  else if 0 <? acknowledged_payload a then
    let mss := send_mss c cfg in
    let c :=
      if cwnd c <? ssthresh c
      then c <| cwnd ::= fun w => Z.min (w + Z.min (acknowledged_payload a) mss) U64MAX |>
      else
        let c := c <| congestion_credit ::= fun k => Z.min (k + acknowledged_payload a) U64MAX |> in
        if cwnd c <=? congestion_credit c
        then c <| congestion_credit ::= fun k => k - cwnd c |>
               <| cwnd ::= fun w => Z.min (w + mss) U64MAX |>
        else c in
    c <| cwnd ::= fun w => Z.min w (max_cwnd_bytes cfg) |>
  else c.

(** The acknowledgment of our FIN drives the closing states. *)
Definition fin_acked (c : Connection) (a : Acked) (now : Z) (cfg : TcpConfig) : Connection :=
  if has (completed_flags a) FIN then
    match state c with
    | FinWait1 => c <| state := FinWait2 |>
    | Closing => enter_time_wait c now cfg
    | LastAck => c <| state := Closed |> <| close_deadline := None |> <| ack_pending := false |>
    | _ => c
    end
  else c.

(** The rest of [acknowledge], for an acknowledgment beyond [send_una]. *)
Definition ack_progress (c : Connection) (ack now : Z) (cfg : TcpConfig) : Connection :=
  let '(go_on, fs, a) := ack_flights (flights c) ack now (mkAcked 0 None false 0) in
  let c := c <| flights := fs |> in
  if negb go_on then c
  else
    let c := c <| flight_payload ::= fun n => n - acknowledged_payload a |>
               <| send_una := ack |> in
    let c := match ambiguous a, sample a with
             | false, Some s => update_rto c s cfg
             | _, _ => c
             end in
    let c := restart_timer c now in
    let c := grow_cwnd c a cfg in
    fin_acked c a now cfg.

Definition acknowledge (c : Connection) (segment : Segment) (now : Z) (cfg : TcpConfig)
  : Connection :=
  let ack := acknowledgment segment in
  if before ack (send_una c) then c
  else
    let c := update_window c segment in
    if ack =? send_una c then c
    else ack_progress c ack now cfg.

Definition receive_data (c : Connection) (segment : Segment) (now : Z) (cfg : TcpConfig)
  : Connection :=
  if bool_decide (payload segment = []) && negb (has (flags segment) FIN) then c
  else
    let c := c <| ack_pending := true |> in
    if peer_eof c
       || negb match state c with Established | FinWait1 | FinWait2 => true | _ => false end
    then c
    else if before (receive_next c) (sequence segment) then c
    else
      let window := advertised_window c cfg in
      let skip := wsub32 (receive_next c) (sequence segment) in
      if zlen (payload segment) <? skip then c
      else
        let count := Z.min (zlen (payload segment) - skip) window in
        let c := c <| received ::= fun r =>
                        r ++ take (Z.to_nat count) (drop (Z.to_nat skip) (payload segment)) |>
                   <| receive_next ::= fun n => wadd32 n (u32 count) |> in
        let fin_sequence := wadd32 (sequence segment) (u32 (zlen (payload segment))) in
        if has (flags segment) FIN && (fin_sequence =? receive_next c) && (count <? window) then
          let c := c <| receive_next ::= fun n => wadd32 n 1 |> <| peer_eof := true |> in
          match state c with
          | Established => c <| state := CloseWait |>
          | FinWait1 => c <| state := Closing |>
          | FinWait2 => enter_time_wait c now cfg
          | _ => c
          end
        else c.

Definition syn_sent (c : Connection) (segment : Segment) (now : Z) (cfg : TcpConfig)
  : Connection :=
  let valid_ack := has (flags segment) ACK && (acknowledgment segment =? send_sent c)
                   && negb (send_sent c =? send_una c) in
  if has (flags segment) RST then (if valid_ack then fail_ c Reset_ else c)
  else if negb valid_ack || negb (has (flags segment) SYN) || has (flags segment) FIN then c
  else
    let c := c <| receive_next := wadd32 (sequence segment) 1 |>
               <| peer_window := window segment |>
               <| peer_mss := default 536 (mss segment) |>
               <| window_sequence := sequence segment |>
               <| window_ack := acknowledgment segment |> in
    let c := acknowledge c segment now cfg in
    let c := c <| state := Established |> <| phase_deadline := None |> <| ack_pending := true |> in
    if bool_decide (payload segment = []) then c
    else
      let data := segment <| sequence := wadd32 (sequence segment) 1 |>
                          <| flags ::= fun f => Z.land f 0xfd |> in
      receive_data c data now cfg.

(** The RFC 9293 acceptance test of the sequence number against the receive window. *)
Definition acceptable (c : Connection) (segment : Segment) (cfg : TcpConfig) : bool :=
  let window := advertised_window c cfg in
  let relative := as_i32 (wsub32 (sequence segment) (receive_next c)) in
  let length := sequence_len segment in
  if length =? 0 then (relative =? 0) || ((0 <? relative) && (relative <? window))
  else (0 <? window) && (relative <? window) && (0 <? relative + length).

Definition input (c : Connection) (segment : Segment) (now : Z) (cfg : TcpConfig) : Connection :=
  if is_terminal (state c) then c
  else if bool_decide (state c = SynSent) then syn_sent c segment now cfg
  else if bool_decide (state c = TimeWait) then
    if negb (has (flags segment) RST) then
      let c := c <| ack_pending := true |> in
      if has (flags segment) FIN
         && (wadd32 (sequence segment) (sequence_len segment) =? receive_next c)
      then c <| phase_deadline := Some (dur_add now (time_wait cfg)) |> else c
    else c
  else if bool_decide (state c = SynReceived)
          && (Z.land (flags segment) (Z.lor (Z.lor SYN ACK) RST) =? SYN)
          && (wadd32 (sequence segment) 1 =? receive_next c)
  then
    c <| flights ::= fun fs => match fs with
                               | f :: fs => f <| last_sent := None |> :: fs
                               | [] => []
                               end |>
  else if negb (acceptable c segment cfg) then
    if negb (has (flags segment) RST) then c <| ack_pending := true |> else c
  else if has (flags segment) RST then
    if sequence segment =? receive_next c then fail_ c Reset_ else c <| ack_pending := true |>
  else if has (flags segment) SYN then c <| ack_pending := true |>
  else if negb (has (flags segment) ACK) then c
  else if before (send_sent c) (acknowledgment segment) then c <| ack_pending := true |>
  else if bool_decide (state c = SynReceived)
          && (negb (acknowledgment segment =? send_sent c) || (send_sent c =? send_una c))
  then c
  else
    let c := if bool_decide (state c = SynReceived)
             then c <| state := Established |> <| phase_deadline := None |> else c in
    let c := acknowledge c segment now cfg in
    if is_terminal (state c) then c else receive_data c segment now cfg.

(** ** Output *)
Definition prepare (c : Connection) (now : Z) (cfg : TcpConfig) : Connection :=
  if negb (can_send (state c)) || (max_inflight_segments cfg <=? zlen (flights c))
     || match last (flights c) with Some f => transmissions f =? 0 | None => false end
  then c
  else if negb (zlen (queued c) =? 0) then
    let c :=
      if bool_decide (flights c = [])
         && match last_data_sent c with Some at_ => dur_add at_ (rto c) <=? now | None => false end
      then c <| cwnd ::= fun w => Z.min w (initial_cwnd c cfg) |> <| congestion_credit := 0 |>
      else c in
    let persist := (peer_window c =? 0) && bool_decide (flights c = []) in
    let reserved := wsub32 (send_next c) (send_una c) in
    let available := if persist then 1
                     else Z.max 0 (Z.min (cwnd c) (peer_window c) - reserved) in
    let n := Z.min (Z.min (zlen (queued c)) (send_mss c cfg)) available in
    if n =? 0 then c
    else
      let payload := take (Z.to_nat n) (queued c) in
      let c := c <| queued ::= drop (Z.to_nat n) |> in
      start_flight c (Z.lor ACK PSH) payload persist now
  else if bool_decide (flights c = []) && write_closed c then
    if 0 <? peer_window c then
      let c := start_flight c (Z.lor FIN ACK) [] false now in
      c <| state := if bool_decide (state c = CloseWait) then LastAck else FinWait1 |>
    else if window_probe_at c <=? now then c <| probe_pending := true |>
    else c
  else c.

(** The flight to submit: the oldest when due, else a prepared one. *)
Definition select_flight (c : Connection) (now : Z) : option Z :=
  match flights c with
  | f :: _ =>
      if due f now then Some 0
      else match last (flights c) with
           | Some l => if transmissions l =? 0 then Some (zlen (flights c) - 1) else None
           | None => None
           end
  | [] => None
  end.

(** Before the first submission of a segment both windows are tested again; what no
    longer fits goes back to the front of the queue. *)
Definition recheck (c : Connection) (index now : Z) : outcome (option Z * Connection) :=
  let* f := get_at (flights c) index in
  if (transmissions f =? 0) && negb (has (fl_flags f) SYN) then
    let inflight := bytes_in_flight c in
    let probing := (peer_window c =? 0) && (inflight =? 0) in
    let available := if probing then 1
                     else Z.max 0 (Z.min (cwnd c) (peer_window c) - inflight) in
    if (available =? 0) || (probing && has (fl_flags f) FIN) then
      Ok (None, if probing && (window_probe_at c <=? now)
                then c <| probe_pending := true |> else c)
    else
      let '(c, f) :=
        if available <? zlen (fl_payload f) then
          let tail := drop (Z.to_nat available) (fl_payload f) in
          let f := f <| fl_payload ::= take (Z.to_nat available) |> in
          (c <| queued ::= app tail |>
             <| flight_payload ::= fun n => n - wsub32 (send_next c) (fl_end f) |>
             <| send_next := fl_end f |>, f)
        else (c, f) in
      let* fs := set_at (flights c) index (f <| persist := probing |>) in
      Ok (Some index, c <| flights := fs |>)
  else Ok (Some index, c).

(** The segment that [transmit] builds, and its flags. *)
Definition outgoing (c : Connection) (flight_index : option Z) (cfg : TcpConfig)
  : outcome Segment :=
  let* '(sequence, flags, payload) :=
    match flight_index with
    | Some index =>
        let* f := get_at (flights c) index in
        Ok (fl_sequence f, fl_flags f, fl_payload f)
    | None =>
        Ok (if probe_pending c && negb (ack_pending c)
            then wsub32 (send_sent c) 1 else send_sent c, ACK, [])
    end in
  Ok (mkSegment (local c) (remote c) sequence (receive_next c) flags (advertised_window c cfg)
        (if has flags SYN then Some (cfg_mss cfg) else None) payload).

(** The retransmission branch: back-off, and the collapse of the window on a timeout. *)
Definition retransmit (c : Connection) (f : Flight) (inflight mss now : Z) (cfg : TcpConfig)
  : Connection * Flight :=
  let timed_out :=
    match last_sent f with Some at_ => dur_add at_ (fl_rto f) <=? now | None => false end in
  let c := c <| syn_retransmitted ::= orb (has (fl_flags f) SYN) |> in
  let f := f <| fl_rto ::= fun r => Z.min (dur_mul r 2) (max_rto cfg) |>
             <| rtt_eligible := false |> in
  let c := c <| rto := fl_rto f |> in
  if negb (persist f) && timed_out then
    let c := if transmissions f =? 1
             then c <| ssthresh := Z.max (inflight / 2) (2 * mss) |> else c in
    (c <| cwnd := Z.min mss (max_cwnd_bytes cfg) |>
       <| congestion_credit := 0 |>
       <| timeout_retransmissions ::= fun n => Z.min (n + 1) U64MAX |>, f)
  else (c, f).

(** Bookkeeping after the device has accepted flight [index]; the boolean tells a
    retransmission. *)
Definition flight_submitted (c : Connection) (index now : Z) (cfg : TcpConfig)
  : outcome (bool * Connection) :=
  let inflight := bytes_in_flight c in
  let mss := send_mss c cfg in
  let* f := get_at (flights c) index in
  let retransmitted := 0 <? transmissions f in
  let '(c, f) := if retransmitted then retransmit c f inflight mss now cfg else (c, f) in
  let f := f <| transmissions ::= fun n => Z.min (n + 1) U32MAX |>
             <| last_sent := Some now |> in
  let* fs := set_at (flights c) index f in
  let c := c <| flights := fs |> in
  let c := if before (send_sent c) (fl_end f) then c <| send_sent := fl_end f |> else c in
  let c := if bool_decide (fl_payload f = []) then c else c <| last_data_sent := Some now |> in
  let c := if retransmitted
           then c <| flights ::= fmap (fun f => f <| rtt_eligible := false |>) |> else c in
  Ok (retransmitted, c).

Definition submitted (c : Connection) (flight_index : option Z) (flags now : Z) (cfg : TcpConfig)
  : outcome (bool * Connection) :=
  let* '(retransmitted, c) :=
    match flight_index with
    | Some index => flight_submitted c index now cfg
    | None => Ok (false, c)
    end in
  let c := if has flags ACK then c <| ack_pending := false |> else c in
  let c := if probe_pending c
           then c <| probe_pending := false |> <| window_probe_at := dur_add now (rto c) |>
           else c in
  Ok (retransmitted, c).

Section Transmit.
Context {D : Type} `{Device D}.

(** Dropping the local [frame] when [transmit] returns [r]. *)
Definition drop_frame {A} (r : outcome A) (c : Connection) (d : D) (frame : PacketBuf)
  : outcome A * (Connection * D) :=
  then_ (dev_drop frame d) (pair c) (fun _ d => (r, (c, d))).

(** The part of [transmit] that talks to the device: allocate, build, submit. *)
Definition emit (c : Connection) (d : D) (flight_index : option Z) (now : Z) (cfg : TcpConfig)
  : outcome (bool * bool) * (Connection * D) :=
  then_ (dev_alloc d) (pair c) (fun frame d =>
  match frame with
  | None => (Ok (false, false), (c <| device_blocked := true |>, d))
  | Some frame =>
      then_ (outgoing c flight_index cfg, d) (pair c) (fun segment d =>
      match build_ipv4 frame segment with
      | Ok frame =>
          let '(r, (d, frames)) := dev_send (d, [frame]) in
          let frame := default packet_default (head frames) in
          match (match r with Err WouldBlock => Ok 0 | r => r end) with
          | Ok n =>
              if n =? 0
              then drop_frame (Ok (false, false)) (c <| device_blocked := true |>) d frame
              else
                then_ (submitted c flight_index (flags segment) now cfg, d) (pair c)
                  (fun '(retransmitted, c) d => drop_frame (Ok (true, retransmitted)) c d frame)
          | r => drop_frame (recast r) c d frame
          end
      | r => drop_frame (recast r) c d frame
      end)
  end).

Definition transmit (c : Connection) (d : D) (now : Z) (cfg : TcpConfig)
  : outcome (bool * bool) * (Connection * D) :=
  if is_terminal (state c) then (Ok (false, false), (c, d))
  else
    let c := prepare c now cfg in
    let rechecked :=
      match select_flight c now with
      | Some index => recheck c index now
      | None => Ok (None, c)
      end in
    then_ (rechecked, d) (pair c) (fun '(flight_index, c) d =>
      let c := c <| device_blocked := false |> in
      if negb (bool_decide (is_Some flight_index)) && negb (ack_pending c)
         && negb (probe_pending c)
      then (Ok (false, false), (c, d))
      else emit c d flight_index now cfg).
End Transmit.
