(* ===== verification/TcpConnInv.v ===== *)
(** * The invariant of a TCP connection

    [conn_inv cfg c] says how the sender's queues tile the sequence space, which
    buffers are bounded by what, and what each state of the state machine implies for
    the queues.  Every operation of [TcpConn] preserves it.  [pending] is the abstract
    value of the send side: the bytes the application wrote and the peer has not
    acknowledged, in order. *)
From Stdlib Require Import ZArith Lia Bool.
From stdpp Require Import base numbers option list.
From S2P Require Import Prelude BufferPool Addr TcpWire TcpTypes Device TcpConn.
#[local] Open Scope Z_scope.

(** ** Configurations *)
Record config_ok (cfg : TcpConfig) : Prop := {
  cfg_send : 0 < send_capacity cfg <= 1073741824;
  cfg_recv : 0 < receive_capacity cfg <= U16MAX;
  cfg_wlimit : 0 < receive_window_limit cfg <= U16MAX;
  cfg_cwnd : 0 < max_cwnd_bytes cfg <= 1073741824;
  cfg_icwnd : 1 <= initial_cwnd_segments cfg <= 4;
  cfg_inflight : 0 < max_inflight_segments cfg <= U16MAX;
  cfg_mss_ok : 0 < cfg_mss cfg <= U16MAX;
  cfg_mss_mtu : cfg_mss cfg + 40 <= mtu cfg;
  cfg_mtu : 68 <= mtu cfg <= U16MAX;
  cfg_rto : SECOND <= initial_rto cfg <= max_rto cfg;
  cfg_max_rto : max_rto cfg <= DURATION_MAX
}.

(** Whatever [TcpPool::new] accepts is a configuration the proofs can use. *)
Lemma config_valid_ok cfg : config_typed cfg -> config_valid cfg = true -> config_ok cfg.
Proof.
  intros [] V. unfold config_valid in V. rewrite negb_true_iff in V.
  repeat (apply orb_false_iff in V as [V ?]). bools. unfold U16MAX in *.
  constructor; unfold U16MAX; lia.
Qed.

(** ** Flights *)
Definition fl_len (f : Flight) : Z :=
  zlen (fl_payload f) + flag1 (has (fl_flags f) SYN) + flag1 (has (fl_flags f) FIN).
Definition span (fs : list Flight) : Z := foldr (fun f n => fl_len f + n) 0 fs.
Definition payloads (fs : list Flight) : list Z := fs ≫= fl_payload.

(** SYN and FIN travel alone; every flight occupies sequence space. *)
Definition data_flight (f : Flight) : Prop :=
  has (fl_flags f) SYN = false /\ has (fl_flags f) FIN = false /\ fl_payload f <> [].
Definition syn_flight (f : Flight) : Prop :=
  has (fl_flags f) SYN = true /\ has (fl_flags f) FIN = false /\ fl_payload f = [].
Definition fin_flight (f : Flight) : Prop :=
  has (fl_flags f) SYN = false /\ has (fl_flags f) FIN = true /\ fl_payload f = [].

Record flight_ok (cfg : TcpConfig) (f : Flight) : Prop := {
  fo_kind : data_flight f \/ syn_flight f \/ fin_flight f;
  fo_bytes : bytes_ok (fl_payload f);
  fo_flags : is_byte (fl_flags f);
  fo_sends : 0 <= transmissions f <= U32MAX;
  fo_rto : initial_rto cfg <= fl_rto f <= max_rto cfg;
  fo_size : zlen (fl_payload f) <= cfg_mss cfg
}.

(** Consecutive flights tile the sequence space from [s] to [e]. *)
Fixpoint chain (s : Z) (fs : list Flight) (e : Z) : Prop :=
  match fs with
  | [] => s = e
  | f :: fs => fl_sequence f = s /\ chain (fl_end f) fs e
  end.

Definition pending (c : Connection) : list Z := payloads (flights c) ++ queued c.

(** What the state implies for the queues: data is only outstanding in the data states,
    the FIN is sent after all data has been acknowledged and travels alone. *)
Definition phase_ok (c : Connection) : Prop :=
  match state c with
  | SynSent | SynReceived =>
      queued c = [] /\ (exists f, flights c = [f] /\ syn_flight f)
      /\ write_closed c = false /\ peer_eof c = false
  | Established => Forall data_flight (flights c) /\ peer_eof c = false
  | CloseWait => Forall data_flight (flights c) /\ peer_eof c = true
  | FinWait1 =>
      queued c = [] /\ (exists f, flights c = [f] /\ fin_flight f) /\ peer_eof c = false
      /\ write_closed c = true
  | Closing | LastAck =>
      queued c = [] /\ (exists f, flights c = [f] /\ fin_flight f) /\ peer_eof c = true
      /\ write_closed c = true
  | FinWait2 => queued c = [] /\ flights c = [] /\ peer_eof c = false /\ write_closed c = true
  | TimeWait => queued c = [] /\ flights c = [] /\ peer_eof c = true /\ write_closed c = true
  | Closed | Reset_ | TimedOut_ | Failed => queued c = [] /\ flights c = []
  end.

(** The flights split into submitted ones, up to [send_sent], and at most one prepared
    one, up to [send_next]. *)
Definition split_ok (una sent next : Z) (fs : list Flight) : Prop :=
  exists old new, fs = old ++ new
    /\ Forall (fun f => 0 < transmissions f) old /\ Forall (fun f => transmissions f = 0) new
    /\ (length new <= 1)%nat /\ chain una old sent /\ chain sent new next.

Record conn_core (cfg : TcpConfig) (c : Connection) : Prop := {
  inv_local : sock_ok (local c);
  inv_remote : sock_ok (remote c);
  inv_split : split_ok (send_una c) (send_sent c) (send_next c) (flights c);
  inv_flights : Forall (flight_ok cfg) (flights c);
  inv_payload : flight_payload c = zlen (payloads (flights c));
  inv_send : send_buffered c <= send_capacity cfg;
  inv_recv : zlen (received c) <= receive_capacity cfg;
  inv_count : zlen (flights c) <= max_inflight_segments cfg;
  inv_una : 0 <= send_una c < W32;
  inv_rcv : 0 <= receive_next c < W32;
  inv_window : 0 <= peer_window c < W16;
  inv_peer_mss : 0 <= peer_mss c < W16;
  inv_cwnd : 0 < cwnd c <= max_cwnd_bytes cfg;
  inv_credit : 0 <= congestion_credit c;
  inv_rto : initial_rto cfg <= rto c <= max_rto cfg;
  inv_queued : bytes_ok (queued c);
  inv_received : bytes_ok (received c)
}.

Record conn_inv (cfg : TcpConfig) (c : Connection) : Prop := {
  inv_core :> conn_core cfg c;
  inv_phase : phase_ok c
}.

(** ** Sequence space *)
Lemma fl_end_spec f : fl_end f = u32 (fl_sequence f + fl_len f).
Proof.
  unfold fl_end, wadd32, fl_len. autorewrite with u32. rewrite <- Z.add_assoc, u32_add_l. f_equal. lia.
Qed.

Lemma fl_len_pos cfg f : flight_ok cfg f -> 1 <= fl_len f.
Proof.
  intros [K _ _ _ _ _]. unfold fl_len. pose_zlen.
  destruct K as [(-> & -> & Hn)|[(-> & -> & ->)|(-> & -> & ->)]]; simpl; unfold zlen; simpl; try lia.
  destruct (fl_payload f); [done|]. simpl. lia.
Qed.

Lemma fl_len_control f : syn_flight f \/ fin_flight f -> fl_len f = 1.
Proof. unfold fl_len. intros [(-> & -> & ->)|(-> & -> & ->)]; done. Qed.

Lemma fl_len_data f : data_flight f -> fl_len f = zlen (fl_payload f).
Proof. unfold fl_len. intros (-> & -> & _). simpl. lia. Qed.

Lemma span_app fs gs : span (fs ++ gs) = span fs + span gs.
Proof. induction fs as [|f fs IH]; simpl; [done|]. rewrite IH. lia. Qed.
Lemma payloads_app fs gs : payloads (fs ++ gs) = payloads fs ++ payloads gs.
Proof. apply bind_app. Qed.

Lemma span_nonneg cfg fs : Forall (flight_ok cfg) fs -> 0 <= span fs.
Proof.
  induction 1 as [|f fs Hf _ IH]; simpl; [lia|]. pose proof (fl_len_pos _ _ Hf). lia.
Qed.

(** A flight carries its payload and at most two control bits. *)
Lemma span_bound fs : span fs <= zlen (payloads fs) + 2 * zlen fs.
Proof.
  induction fs as [|f fs IH]; [done|]. change (payloads (f :: fs)) with (fl_payload f ++ payloads fs).
  simpl span. rewrite zlen_app, zlen_cons. unfold fl_len.
  pose proof (flag1_range (has (fl_flags f) SYN)). pose proof (flag1_range (has (fl_flags f) FIN)). lia.
Qed.

Lemma chain_app s fs gs e : chain s (fs ++ gs) e <-> exists m, chain s fs m /\ chain m gs e.
Proof.
  revert s. induction fs as [|f fs IH]; intros s; simpl; [naive_solver|].
  rewrite IH. naive_solver.
Qed.

Lemma chain_end s fs e : 0 <= s < W32 -> chain s fs e -> e = u32 (s + span fs).
Proof.
  revert s. induction fs as [|f fs IH]; intros s Hs; simpl.
  - intros <-. rewrite Z.add_0_r. by rewrite u32_small.
  - intros [<- H]. assert (0 <= fl_end f < W32) as He by (rewrite fl_end_spec; apply u32_range).
    rewrite (IH _ He H), fl_end_spec.
    rewrite u32_add_l. f_equal. lia.
Qed.

Lemma chain_range s fs e : 0 <= s < W32 -> chain s fs e -> 0 <= e < W32.
Proof. intros Hs H. rewrite (chain_end _ _ _ Hs H). apply u32_range. Qed.

(** Operations that touch neither sequence nor payload nor flags nor the send count keep the
    tiling and the kinds. *)
Definition same_shape (f g : Flight) : Prop :=
  fl_sequence g = fl_sequence f /\ fl_flags g = fl_flags f /\ fl_payload g = fl_payload f
  /\ transmissions g = transmissions f.

Lemma chain_shape s fs gs e : Forall2 same_shape fs gs -> chain s fs e -> chain s gs e.
Proof.
  intros H. revert s. induction H as [|f g fs gs (E1 & E2 & E3 & _) _ IH]; intros s; [done|].
  simpl. intros [<- H]. split; [done|].
  assert (fl_end g = fl_end f) as -> by (unfold fl_end; congruence). by apply IH.
Qed.

Lemma shape_Forall (P : Flight -> Prop) fs gs :
  (forall f g, same_shape f g -> P f -> P g) -> Forall2 same_shape fs gs ->
  Forall P fs -> Forall P gs.
Proof. intros HP H. induction H; intros F; [done|]. apply Forall_cons in F as [? ?]. constructor; eauto. Qed.

Lemma split_ok_shape una sent next fs gs :
  Forall2 same_shape fs gs -> split_ok una sent next fs -> split_ok una sent next gs.
Proof.
  intros H (old & new & -> & Ho & Hn & Hl & C1 & C2).
  apply Forall2_app_inv_l in H as (old' & new' & H1 & H2 & ->).
  exists old', new'. split_and!; try done.
  - eapply shape_Forall; [|done|done]. by intros f g (_ & _ & _ & ->).
  - eapply shape_Forall; [|done|done]. by intros f g (_ & _ & _ & ->).
  - by rewrite <- (Forall2_length _ _ _ H2).
  - by eapply chain_shape.
  - by eapply chain_shape.
Qed.

Lemma shape_payloads fs gs : Forall2 same_shape fs gs -> payloads gs = payloads fs.
Proof.
  induction 1 as [|f g fs gs (_ & _ & E & _) _ IH]; [done|]. unfold payloads in *.
  by rewrite !bind_cons, E, IH.
Qed.

Lemma shape_data f g : same_shape f g -> data_flight f -> data_flight g.
Proof. unfold data_flight. by intros (_ & -> & -> & _). Qed.
Lemma shape_syn f g : same_shape f g -> syn_flight f -> syn_flight g.
Proof. unfold syn_flight. by intros (_ & -> & -> & _). Qed.
Lemma shape_fin f g : same_shape f g -> fin_flight f -> fin_flight g.
Proof. unfold fin_flight. by intros (_ & -> & -> & _). Qed.

Lemma shape_ok cfg f g :
  same_shape f g -> initial_rto cfg <= fl_rto g <= max_rto cfg -> flight_ok cfg f -> flight_ok cfg g.
Proof.
  intros S R [K1 K2 K3 K4 K5 K6]. pose proof S as (_ & E1 & E2 & E3).
  constructor; rewrite ?E1, ?E2, ?E3; try done.
  destruct K1 as [K|[K|K]]; eauto using shape_data, shape_syn, shape_fin.
Qed.

Lemma shape_refl fs : Forall2 same_shape fs fs.
Proof. induction fs; by constructor. Qed.
Lemma shape_trans fs gs hs :
  Forall2 same_shape fs gs -> Forall2 same_shape gs hs -> Forall2 same_shape fs hs.
Proof.
  intros S1. revert hs. induction S1; intros hs S2; inversion S2; subst; constructor; eauto.
  unfold same_shape in *. intuition congruence.
Qed.
Lemma shape_fmap (h : Flight -> Flight) fs :
  (forall f, same_shape f (h f)) -> Forall2 same_shape fs (h <$> fs).
Proof. intros. induction fs; constructor; auto. Qed.

Lemma has_lor a b m : has (Z.lor a b) m = has a m || has b m.
Proof.
  unfold has. rewrite Z.land_lor_distr_l. apply eq_true_iff_eq. rewrite orb_true_iff.
  rewrite !negb_true_iff, !Z.eqb_neq, Z.lor_eq_0_iff. destruct (decide (Z.land a m = 0)); tauto.
Qed.

(** ** Bounds that follow from the invariant *)
Section Inv.
Context (cfg : TcpConfig) (Hcfg : config_ok cfg).

Lemma inv_sent c : conn_core cfg c -> 0 <= send_sent c < W32.
Proof.
  intros I. destruct (inv_split _ _ I) as (old & new & _ & _ & _ & _ & H & _).
  exact (chain_range _ _ _ (inv_una _ _ I) H).
Qed.
Lemma inv_next c : conn_core cfg c -> 0 <= send_next c < W32.
Proof.
  intros I. destruct (inv_split _ _ I) as (old & new & _ & _ & _ & _ & _ & H).
  exact (chain_range _ _ _ (inv_sent _ I) H).
Qed.

(** Everything outstanding fits in half the sequence space, so serial comparison is
    exact on it. *)
Lemma inv_span c : conn_core cfg c -> 0 <= span (flights c) <= 1073741824 + 131070.
Proof.
  intros I. pose proof (span_bound (flights c)). pose proof (inv_send _ _ I) as Hs.
  unfold send_buffered in Hs. rewrite (inv_payload _ _ I) in Hs. pose proof (inv_count _ _ I).
  pose proof (cfg_send _ Hcfg). pose proof (cfg_inflight _ Hcfg). unfold U16MAX in *.
  pose proof (span_nonneg _ _ (inv_flights _ _ I)). pose_zlen. lia.
Qed.

Lemma inv_buffered c : conn_core cfg c -> 0 <= send_buffered c <= send_capacity cfg.
Proof.
  intros I. pose proof (inv_send _ _ I). unfold send_buffered in *.
  rewrite (inv_payload _ _ I) in *. pose_zlen. lia.
Qed.

Lemma pending_len c : conn_core cfg c -> zlen (pending c) = send_buffered c.
Proof.
  intros I. unfold pending, send_buffered. rewrite zlen_app, (inv_payload _ _ I). lia.
Qed.

Lemma advertised_window_spec c :
  conn_core cfg c ->
  advertised_window c cfg
  = Z.min (receive_capacity cfg - zlen (received c)) (receive_window_limit cfg)
  /\ 0 <= advertised_window c cfg <= receive_capacity cfg - zlen (received c)
  /\ advertised_window c cfg < W16.
Proof.
  intros I. pose proof (inv_recv _ _ I). pose proof (cfg_recv _ Hcfg). pose proof (cfg_wlimit _ Hcfg).
  unfold advertised_window, u16, W16, U16MAX in *. pose_zlen. rewrite Z.mod_small by lia. lia.
Qed.

Lemma send_mss_range c : conn_core cfg c -> 1 <= send_mss c cfg <= cfg_mss cfg.
Proof.
  intros I. pose proof (inv_peer_mss _ _ I). pose proof (cfg_mss_ok _ Hcfg). unfold send_mss. lia.
Qed.

Lemma initial_cwnd_range c :
  conn_core cfg c -> 0 < initial_cwnd c cfg <= max_cwnd_bytes cfg.
Proof.
  intros I. pose proof (send_mss_range _ I). pose proof (cfg_icwnd _ Hcfg).
  pose proof (cfg_cwnd _ Hcfg). unfold initial_cwnd.
  set (seg := if syn_retransmitted c then 1 else _).
  assert (1 <= seg <= 4) by (unfold seg; repeat case_match; lia).
  assert (1 <= Z.min (initial_cwnd_segments cfg) seg) by lia. nia.
Qed.

(** [same I]: the operation only changed fields the invariant does not mention, or the
    changed ones are easy. *)
Ltac same I := destruct I as [[] ?]; split; [constructor|]; simpl in *; try done.

Lemma split_ok_nil n : split_ok n n n [].
Proof. exists [], []. split_and!; try done; simpl; try lia; constructor. Qed.

(** One prepared flight, nothing submitted. *)
Lemma split_ok_new n f :
  fl_sequence f = n -> transmissions f = 0 -> split_ok n n (fl_end f) [f].
Proof. intros. exists [], [f]. split_and!; try done. by apply Forall_singleton. Qed.

(** ** Construction *)
Lemma active_inv l r iss now :
  sock_ok l -> sock_ok r -> 0 <= iss < W32 -> conn_inv cfg (active l r iss now cfg).
Proof.
  intros. pose proof (cfg_send _ Hcfg). pose proof (cfg_recv _ Hcfg). pose proof (cfg_cwnd _ Hcfg).
  pose proof (cfg_inflight _ Hcfg). pose proof (cfg_mss_ok _ Hcfg). pose proof (cfg_rto _ Hcfg).
  split; [constructor|]; simpl; unfold send_buffered, zlen, W16; simpl; try done; try lia;
    try apply Forall_nil_2.
  - by apply split_ok_new.
  - apply Forall_singleton.
    constructor; simpl; try done; unfold zlen; simpl; try lia; [|apply Forall_nil_2].
    right. left. done.
  - unfold zlen. simpl. lia.
  - split; [done|]. split; [|done]. by eexists.
Qed.

Lemma syn_end iss now r :
  fl_end (mkFlight iss SYN [] now None 0 r false true)
  = fl_end (mkFlight iss (Z.lor SYN ACK) [] now None 0 r false true).
Proof. by rewrite !fl_end_spec. Qed.

Lemma passive_inv syn iss now :
  segment_ok syn -> 0 <= iss < W32 -> conn_inv cfg (passive syn iss now cfg).
Proof.
  intros Hs Hi. pose proof (active_inv _ _ iss now (ok_destination _ Hs) (ok_source _ Hs) Hi) as A.
  pose proof (ok_window _ Hs). pose proof (ok_sequence _ Hs). pose proof (ok_mss _ Hs) as Hm.
  pose proof (cfg_send _ Hcfg).
  unfold passive, active, start_flight in *. cbn in A |- *. destruct A as [[] ?].
  split; [constructor|]; unfold send_buffered, zlen; cbn in * |-; cbn; try assumption; try apply u32_range.
  - rewrite syn_end. by apply split_ok_new.
  - apply Forall_singleton. apply Forall_singleton in inv_flights0 as [K1 K2 K3 K4 K5 K6].
    constructor; [by right; left|done..].
  - destruct (mss syn) as [m|]; simpl; [specialize (Hm m eq_refl)|]; unfold W16 in *; lia.
  - split; [done|]. split; [|done]. eexists. split; [reflexivity|]. done.
Qed.

(** ** Application calls *)
Lemma write_inv c bytes :
  conn_inv cfg c -> bytes_ok bytes -> conn_inv cfg (write c bytes cfg).2.
Proof.
  intros I Hb. unfold write; cbv zeta. pose proof (inv_buffered c I) as B.
  destruct (write_closed c || negb (can_send (state c))) eqn:E; [done|].
  destruct (zlen bytes =? 0) eqn:E0; [done|]. destruct (Z.min _ _ =? 0) eqn:E1; [done|]. bools.
  assert (can_send (state c) = true) as Hst by (destruct (can_send (state c)); naive_solver).
  unfold send_buffered in *. same I; unfold send_buffered in *; simpl.
  - rewrite zlen_app, zlen_take. lia.
  - rewrite bytes_app. eauto with net.
  - unfold phase_ok in *. simpl. by destruct (state c).
Qed.

Lemma read_inv c len : conn_inv cfg c -> 0 <= len -> conn_inv cfg (read c len).2.
Proof.
  intros I Hl. unfold read. destruct (len =? 0); [done|]. destruct (local_error c); [done|].
  destruct (bool_decide _); [done|]. destruct (bool_decide _); [done|].
  destruct (0 <? _); [|destruct (_ || _)]; simpl; same I.
  all: try zl; eauto with net.
Qed.

Lemma close_inv c now : conn_inv cfg c -> conn_inv cfg (close c now cfg).2.
Proof.
  intros I. unfold close. destruct (write_closed c) eqn:E; [done|].
  destruct (negb _) eqn:E1; [done|]. simpl. same I.
  unfold phase_ok in *. simpl. by destruct (state c).
Qed.

Lemma fail_inv c s : conn_inv cfg c -> is_terminal s = true -> conn_inv cfg (fail_ c s).
Proof.
  intros I Hs. pose proof (inv_sent c I). pose proof (cfg_send _ Hcfg). pose proof (cfg_recv _ Hcfg).
  pose proof (cfg_inflight _ Hcfg).
  same I; unfold send_buffered, zlen; simpl; try lia; try apply split_ok_nil; try constructor.
  unfold phase_ok. simpl. by destruct s.
Qed.

Lemma tick_inv c now : conn_inv cfg c -> conn_inv cfg (tick c now cfg).
Proof.
  intros I. unfold tick. destruct (is_terminal _) eqn:T; [done|].
  destruct (bool_decide (state c = TimeWait)) eqn:E.
  - destruct (reached _ _); [|done]. apply bool_decide_eq_true in E. same I.
    unfold phase_ok in *. rewrite E in *. simpl. naive_solver.
  - destruct (_ || _); [by apply fail_inv|done].
Qed.
End Inv.
