(* ===== verification/TcpAckInv.v ===== *)
(** * Acknowledgments and input of a TCP connection: proofs

    [acknowledge] consumes exactly the acknowledged prefix of [pending], [receive_data]
    appends exactly the in-order bytes that fit the advertised window, and [input] keeps
    the invariant of [TcpConnInv] on every segment. *)
From Stdlib Require Import ZArith Lia Bool.
From stdpp Require Import base numbers option list.
From S2P Require Import Prelude BufferPool Addr TcpWire TcpTypes Device TcpConn TcpConnInv.
#[local] Open Scope Z_scope.

(** ** Acknowledgments *)

(** The serial comparison of two positions of the outstanding range. *)
Lemma before_offset s a b :
  0 <= a < HALF -> 0 <= b < HALF -> before (u32 (s + a)) (u32 (s + b)) = (a <? b).
Proof.
  intros. rewrite before_spec by (unfold HALF in *; lia).
  apply eq_true_iff_eq. rewrite !Z.ltb_lt. lia.
Qed.

Lemma drop_ne_nil {A} n (l : list A) : Z.of_nat n < zlen l -> drop n l <> [].
Proof. intros H E. assert (zlen (drop n l) = 0) as Hz by (by rewrite E). rewrite zlen_drop in Hz. lia. Qed.

(** The part of a data flight that an acknowledgment leaves. *)
Lemma flight_ok_cut cfg f k q :
  flight_ok cfg f -> data_flight f -> 0 <= k < zlen (fl_payload f) ->
  let f' := f <| fl_payload ::= drop (Z.to_nat k) |> <| fl_sequence := q |>
              <| rtt_eligible := false |> in
  flight_ok cfg f' /\ data_flight f' /\ fl_len f' = fl_len f - k.
Proof.
  intros [K1 K2 K3 K4 K5 K6] (D1 & D2 & D3) Hk f'.
  assert (drop (Z.to_nat k) (fl_payload f) <> []) as Hne by (apply drop_ne_nil; lia).
  split; [|split; [done|]].
  - constructor; simpl; try done; [by left|eauto with net|]. rewrite zlen_drop. pose_zlen. lia.
  - unfold fl_len. simpl. rewrite D1, D2, zlen_drop. simpl. lia.
Qed.

(** The loop of [acknowledge], for an acknowledgment [k] positions into the submitted
    flights [old]: it consumes exactly the first [k] positions, keeps the rest in place
    and counts the payload bytes it removed. *)
Record acked_to (cfg : TcpConfig) (old : list Flight) (s k : Z) (old' : list Flight)
    (acked : list Z) : Prop := {
  at_chain : chain (u32 (s + k)) old' (u32 (s + span old));
  at_payload : payloads old = acked ++ payloads old';
  at_ok : Forall (flight_ok cfg) old';
  at_count : (length old' <= length old)%nat;
  at_sent : Forall (fun f => 0 < transmissions f) old -> Forall (fun f => 0 < transmissions f) old';
  at_data : Forall data_flight old -> Forall data_flight old' /\ zlen acked = k
}.

Lemma ack_flights_spec cfg old new s k now a :
  0 <= s < W32 -> Forall (flight_ok cfg) old ->
  chain s old (u32 (s + span old)) ->
  match new with [] => True | g :: _ => fl_sequence g = u32 (s + span old) end ->
  0 <= k <= span old -> span old < HALF ->
  exists old' a' acked, ack_flights (old ++ new) (u32 (s + k)) now a = (true, old' ++ new, a')
    /\ acknowledged_payload a' = acknowledged_payload a + zlen acked
    /\ acked_to cfg old s k old' acked.
Proof.
  intros Hs Hok. revert s k a Hs. induction Hok as [|f old Hf Hok IH];
    intros s k a Hs Hc Hn Hk Hsp; simpl in Hc, Hk, Hsp.
  - assert (k = 0) as -> by lia. simpl in Hn. rewrite Z.add_0_r in *. rewrite u32_small in * by done.
    exists [], a, []. split; [|split; [rewrite zlen_nil; lia|]].
    + destruct new as [|g new]; [done|]. simpl. by rewrite Hn, before_irrefl.
    + constructor; try done; simpl; lia.
  - destruct Hc as [Es Hc]. pose proof (fl_len_pos _ _ Hf) as Hl.
    pose proof (span_nonneg _ _ Hok) as Hsn. pose proof (zlen_nonneg (fl_payload f)).
    assert (fl_sequence f = u32 (s + 0)) as Es0 by (by rewrite Z.add_0_r, u32_small).
    assert (fl_end f = u32 (s + fl_len f)) as Ee by (by rewrite fl_end_spec, Es).
    cbn [app ack_flights].
    assert (before (fl_sequence f) (u32 (s + k)) = (0 <? k)) as ->
      by (rewrite Es0; apply before_offset; unfold HALF in *; lia).
    destruct (0 <? k) eqn:E0; bools; cbn [negb].
    2:{ assert (k = 0) as -> by lia. exists (f :: old), a, []. rewrite zlen_nil, Z.add_0_r.
        split; [done|]. split; [lia|]. constructor; try done; by constructor. }
    rewrite Ee, before_offset by (unfold HALF in *; lia).
    destruct (k <? fl_len f) eqn:E1; bools; cbn [negb].
    + assert (data_flight f) as Hd.
      { destruct (fo_kind _ _ Hf) as [|C]; [done|]. apply fl_len_control in C. lia. }
      pose proof (fl_len_data f Hd) as Hld.
      assert (wsub32 (u32 (s + k)) (fl_sequence f) = k) as Ew.
      { unfold wsub32. rewrite Es, u32_sub_l. replace (s + k - s) with k by lia.
        apply u32_small. unfold W32, HALF in *. lia. }
      rewrite Ew. rewrite (proj2 (Z.ltb_ge _ _)) by lia.
      destruct (flight_ok_cut cfg f k (u32 (s + k)) Hf Hd ltac:(lia)) as (Hf' & Hd' & Hl').
      eexists (_ :: old), _, (take (Z.to_nat k) (fl_payload f)).
      split; [reflexivity|]. split; [simpl; rewrite zlen_take; lia|].
      set (f' := f <| fl_payload ::= _ |> <| fl_sequence := _ |> <| rtt_eligible := _ |>) in *.
      assert (fl_sequence f' = u32 (s + k)) as Es' by done.
      assert (fl_payload f' = drop (Z.to_nat k) (fl_payload f)) as Ep' by done.
      assert (transmissions f' = transmissions f) as Et' by done. clearbody f'.
      constructor.
      * simpl. split; [done|]. rewrite fl_end_spec, Hl', Es'.
        rewrite u32_add_l. replace (s + k + (fl_len f - k)) with (s + fl_len f) by lia.
        by rewrite <- Ee.
      * unfold payloads; rewrite !bind_cons.
        by rewrite Ep', app_assoc, take_drop.
      * by constructor.
      * done.
      * intros Ht. apply Forall_cons in Ht as [? ?]. constructor; [by rewrite Et'|done].
      * intros Ht. apply Forall_cons in Ht as [? ?]. split; [by constructor|].
        rewrite zlen_take. lia.
    + destruct (IH (fl_end f) (k - fl_len f)
        (let a := a <| ambiguous ::= fun b => b || negb (rtt_eligible f) || (1 <? transmissions f) |> in
         let a := a <| completed_flags ::= Z.lor (fl_flags f) |>
                    <| acknowledged_payload ::= fun n => n + zlen (fl_payload f) |> in
         if (transmissions f =? 1) && rtt_eligible f
         then a <| sample := dur_sub now <$> last_sent f |> else a))
        as (old' & a' & acked & E & Ea & [R1 R2 R3 R4 R5 R6]).
      * rewrite Ee. apply u32_range.
      * rewrite Ee at 2. rewrite u32_add_l, <- Z.add_assoc. done.
      * rewrite Ee. rewrite u32_add_l, <- Z.add_assoc. done.
      * lia.
      * lia.
      * rewrite Ee, u32_add_l in E. replace (s + fl_len f + (k - fl_len f)) with (s + k) in E by lia.
        exists old', a', (fl_payload f ++ acked). split; [exact E|]. split.
        { rewrite Ea, zlen_app. destruct (_ && _); simpl; lia. }
        rewrite Ee, !u32_add_l in R1.
        constructor.
        -- simpl. replace (s + fl_len f + (k - fl_len f)) with (s + k) in R1 by lia.
           by rewrite Z.add_assoc.
        -- change (payloads (f :: old)) with (fl_payload f ++ payloads old).
           by rewrite R2, app_assoc.
        -- done.
        -- simpl. lia.
        -- intros Ht. apply Forall_cons in Ht as [? ?]. auto.
        -- intros Ht. apply Forall_cons in Ht as [Hd Ht]. destruct (R6 Ht) as [? Hz].
           split; [done|]. rewrite zlen_app, Hz, (fl_len_data f Hd). lia.
Qed.

(** Bits no flight carries are not reported as completed. *)
Lemma ack_flights_flags m fs ack now a r fs' a' :
  ack_flights fs ack now a = (r, fs', a') -> Forall (fun f => has (fl_flags f) m = false) fs ->
  has (completed_flags a') m = has (completed_flags a) m.
Proof.
  intros E F. revert a E. induction F as [|f fs Hf F IH]; intros a; cbn [ack_flights].
  { by intros [= <- <- <-]. }
  destruct (negb _); [by intros [= <- <- <-]|]. destruct (negb _).
  - intros E. rewrite (IH _ E). destruct (_ && _); simpl; by rewrite has_lor, Hf.
  - destruct (_ <? _); by intros [= <- <- <-].
Qed.

(** A SYN or FIN is acknowledged as a whole. *)
Lemma ack_flights_control f now a :
  0 <= fl_sequence f < W32 -> syn_flight f \/ fin_flight f ->
  exists a', ack_flights [f] (u32 (fl_sequence f + 1)) now a = (true, [], a')
    /\ completed_flags a' = Z.lor (fl_flags f) (completed_flags a)
    /\ acknowledged_payload a' = acknowledged_payload a.
Proof.
  intros Hs C. pose proof (fl_len_control f C) as L.
  assert (zlen (fl_payload f) = 0) as Hz by (destruct C as [(_ & _ & ->)|(_ & _ & ->)]; done).
  assert (before (fl_sequence f) (u32 (fl_sequence f + 1)) = true) as B1.
  { rewrite <- (u32_small (fl_sequence f)) at 1 by done. rewrite <- (Z.add_0_r (fl_sequence f)) at 1.
    by rewrite before_offset. }
  assert (before (u32 (fl_sequence f + 1)) (fl_end f) = false) as B2.
  { rewrite fl_end_spec, L. apply before_irrefl. }
  cbn [ack_flights]. rewrite B1, B2. cbn [negb]. eexists. split; [reflexivity|].
  destruct (_ && _); simpl; rewrite Hz; split; done || lia.
Qed.

Section Ack.
Context (cfg : TcpConfig) (Hcfg : config_ok cfg).

(** Replacing flights by flights of the same shape. *)
Lemma core_shape c gs :
  conn_core cfg c -> Forall2 same_shape (flights c) gs ->
  Forall (fun f => initial_rto cfg <= fl_rto f <= max_rto cfg) gs ->
  conn_core cfg (c <| flights := gs |>).
Proof.
  intros I S R. pose proof (Forall2_length _ _ _ S) as Hl.
  destruct I. constructor; simpl; try done.
  - by eapply split_ok_shape.
  - revert R. clear -S inv_flights. rewrite !Forall_lookup. intros R i g Hg.
    destruct (Forall2_lookup_r _ _ _ _ _ S Hg) as (f & Hf & Hs).
    eapply shape_ok; [done|by eapply R|]. rewrite Forall_lookup in inv_flights. eauto.
  - by rewrite (shape_payloads _ _ S).
  - unfold zlen in *. by rewrite <- Hl.
Qed.

Lemma core_rtos c :
  conn_core cfg c -> Forall (fun f => initial_rto cfg <= fl_rto f <= max_rto cfg) (flights c).
Proof. intros I. eapply Forall_impl; [apply (inv_flights _ _ I)|]. by intros f []. Qed.

(** What the acknowledgment path leaves alone. *)
Definition rx_same (c c' : Connection) : Prop :=
  local c' = local c /\ remote c' = remote c /\ accepted c' = accepted c
  /\ received c' = received c /\ receive_next c' = receive_next c
  /\ peer_eof c' = peer_eof c /\ write_closed c' = write_closed c /\ queued c' = queued c
  /\ send_sent c' = send_sent c /\ send_next c' = send_next c
  /\ local_error c' = local_error c.

Lemma rx_same_refl c : rx_same c c.
Proof. done. Qed.
Lemma rx_same_trans a b c : rx_same a b -> rx_same b c -> rx_same a c.
Proof. unfold rx_same. intuition congruence. Qed.

(** Effects on the connection that the steps after the loop have in common. *)
Definition cosmetic (c c' : Connection) : Prop :=
  rx_same c c' /\ Forall2 same_shape (flights c) (flights c') /\ state c' = state c
  /\ send_una c' = send_una c.
Lemma cosmetic_trans a b c : cosmetic a b -> cosmetic b c -> cosmetic a c.
Proof.
  intros (R1 & S1 & E1 & U1) (R2 & S2 & E2 & U2).
  split; [by eapply rx_same_trans|]. split; [|split; congruence].
  by eapply shape_trans.
Qed.

Lemma update_window_core c seg :
  conn_core cfg c -> segment_ok seg ->
  conn_core cfg (update_window c seg) /\ cosmetic c (update_window c seg).
Proof.
  intros I Hs. pose proof (core_rtos c I) as Hr. unfold update_window.
  assert (Forall2 same_shape (flights c) (flights c)) by apply shape_refl.
  destruct (_ || _); [|by split; [|split]].
  assert (conn_core cfg (c <| peer_window := window seg |> <| window_sequence := sequence seg |>
    <| window_ack := acknowledgment seg |>)) as I'.
  { destruct I. constructor; simpl; try done. apply Hs. }
  destruct (0 <? _); [|by split; [|split]].
  assert (Forall2 same_shape (flights c) ((fun f => f <| persist := false |>) <$> flights c)) as S
    by (by apply shape_fmap).
  split; [|by split].
  refine (core_shape _ _ I' S _). apply Forall_fmap. eapply Forall_impl; [exact Hr|]. done.
Qed.

Lemma update_rto_core c s :
  conn_core cfg c -> conn_core cfg (update_rto c s cfg) /\ cosmetic c (update_rto c s cfg).
Proof.
  intros I. pose proof (cfg_rto _ Hcfg). pose proof (shape_refl (flights c)).
  unfold update_rto. destruct (srtt c).
  all: split; [destruct I; constructor; simpl; try done; lia|by split].
Qed.

Lemma restart_timer_core c now :
  conn_core cfg c -> conn_core cfg (restart_timer c now) /\ cosmetic c (restart_timer c now).
Proof.
  intros I. pose proof (core_rtos c I) as Hr. pose proof (inv_rto _ _ I) as Hrto.
  assert (Forall2 same_shape (flights c) (restart_front (rto c) now (flights c))
    /\ Forall (fun f => initial_rto cfg <= fl_rto f <= max_rto cfg)
         (restart_front (rto c) now (flights c))) as [S R].
  { destruct Hr as [|f fs Hf Hr]; simpl; [by split|].
    pose proof (shape_refl fs). destruct (last_sent f); split; constructor; done. }
  split; [exact (core_shape c _ I S R)|]. by split.
Qed.

Lemma grow_cwnd_core c a :
  conn_core cfg c -> conn_core cfg (grow_cwnd c a cfg) /\ cosmetic c (grow_cwnd c a cfg).
Proof.
  intros I. pose proof (initial_cwnd_range cfg Hcfg c I). pose proof (cfg_cwnd _ Hcfg).
  pose proof (send_mss_range cfg Hcfg c I). pose proof (cfg_rto _ Hcfg).
  pose proof (inv_cwnd _ _ I). pose proof (inv_credit _ _ I). pose proof (shape_refl (flights c)).
  unfold grow_cwnd. destruct (has _ SYN); [|destruct (0 <? _) eqn:E; [|by split; [|split]]]; bools.
  - cbn. destruct (syn_retransmitted c).
    all: split; [destruct I; constructor; simpl; try done; lia|by split].
  - cbn. destruct (cwnd c <? ssthresh c); [|destruct (cwnd c <=? _) eqn:E2]; bools.
    all: split; [destruct I; constructor; simpl in *; try done; unfold U64MAX in *; lia|by split].
Qed.

(** The state after our FIN has been acknowledged. *)
Definition fin_next (s : TcpState) : TcpState :=
  match s with FinWait1 => FinWait2 | Closing => TimeWait | LastAck => Closed | s => s end.

Lemma fin_acked_core c a now :
  conn_core cfg c ->
  conn_core cfg (fin_acked c a now cfg) /\ rx_same c (fin_acked c a now cfg)
  /\ flights (fin_acked c a now cfg) = flights c
  /\ send_una (fin_acked c a now cfg) = send_una c
  /\ state (fin_acked c a now cfg)
     = if has (completed_flags a) FIN then fin_next (state c) else state c.
Proof.
  intros I. unfold fin_acked. destruct (has _ FIN); [|done].
  destruct (state c) eqn:E; simpl; rewrite ?E; split_and!; try done.
  all: destruct I; by constructor.
Qed.

(** [bytes_in_flight] is the sequence space of the submitted flights. *)
Lemma inflight_span c :
  conn_core cfg c ->
  exists old new, flights c = old ++ new /\ bytes_in_flight c = span old
    /\ Forall (fun f => 0 < transmissions f) old /\ Forall (fun f => transmissions f = 0) new
    /\ (length new <= 1)%nat
    /\ chain (send_una c) old (send_sent c) /\ chain (send_sent c) new (send_next c)
    /\ send_sent c = u32 (send_una c + span old) /\ 0 <= span old < HALF
    /\ Forall (flight_ok cfg) old /\ Forall (flight_ok cfg) new.
Proof.
  intros I. destruct (inv_split _ _ I) as (old & new & E & Ho & Hn & Hl & C1 & C2).
  pose proof (inv_span cfg Hcfg c I) as Hs. pose proof (inv_flights _ _ I) as F.
  rewrite E in Hs, F. rewrite span_app in Hs. apply Forall_app in F as [Fo Fn].
  pose proof (span_nonneg _ _ Fo). pose proof (span_nonneg _ _ Fn).
  pose proof (chain_end _ _ _ (inv_una _ _ I) C1) as Es.
  exists old, new. split_and!; try done; unfold HALF; try lia.
  unfold bytes_in_flight, wsub32. rewrite Es, u32_sub_l.
  replace (send_una c + span old - send_una c) with (span old) by lia.
  apply u32_small. unfold W32. lia.
Qed.

(** The acknowledgments that [acknowledge] processes lie between [send_una] and
    [send_sent]. *)
Lemma ack_offset c ack :
  conn_core cfg c -> 0 <= ack < W32 ->
  before ack (send_una c) = false -> before (send_sent c) ack = false ->
  exists k, ack = u32 (send_una c + k) /\ 0 <= k <= bytes_in_flight c.
Proof.
  intros I Ha B1 B2. destruct (inflight_span c I) as (old & new & _ & -> & _ & _ & _ & _ & _ & Es & Hs & _).
  pose proof (inv_una _ _ I) as Hu. exists (wsub32 ack (send_una c)). unfold wsub32.
  split.
  { rewrite u32_add_r. replace (send_una c + (ack - send_una c)) with ack by lia. by rewrite u32_small. }
  revert B1 B2. rewrite Es. unfold before, as_i32, wsub32, u32, HALF, W32 in *.
  rewrite Zminus_mod_idemp_l.
  set (k := (ack - send_una c) mod 4294967296).
  assert (0 <= k < 4294967296) by (apply Z.mod_pos_bound; lia).
  replace ((send_una c + span old - ack) mod 4294967296) with ((span old - k) mod 4294967296).
  2:{ unfold k. rewrite Zminus_mod_idemp_r. f_equal. lia. }
  destruct (k <? 2147483648) eqn:E1; bools; [|intros; lia]. intros _.
  destruct (decide (k <= span old)); [lia|].
  replace ((span old - k) mod 4294967296) with (span old - k + 4294967296)
    by (rewrite <- (Z.mod_add _ 1) by lia; symmetry; apply Z.mod_small; lia).
  destruct (_ <? 2147483648) eqn:E2; bools; intros; lia.
Qed.

(** The effect of an acknowledgment that makes progress, [k] positions far. *)
Record progressed (c : Connection) (k : Z) (acked : list Z) (c' : Connection) : Prop := {
  pr_core : conn_core cfg c';
  pr_rx : rx_same c c';
  pr_una : send_una c' = u32 (send_una c + k);
  pr_payload : payloads (flights c) = acked ++ payloads (flights c');
  pr_zero : k = 0 ->
    acked = [] /\ Forall2 same_shape (flights c) (flights c') /\ state c' = state c;
  pr_data : Forall data_flight (flights c) ->
    Forall data_flight (flights c') /\ zlen acked = k /\ state c' = state c;
  pr_syn : forall f, flights c = [f] -> syn_flight f -> 0 < k ->
    flights c' = [] /\ state c' = state c;
  pr_fin : forall f, flights c = [f] -> fin_flight f -> 0 < k ->
    flights c' = [] /\ state c' = fin_next (state c)
}.

(** The state of the connection right after the flight loop. *)
Definition after_loop (c : Connection) (fs : list Flight) (n ack : Z) : Connection :=
  c <| flights := fs |> <| flight_payload ::= fun m => m - n |> <| send_una := ack |>.

(** The steps after the loop, together. *)
Definition finish_ack (c : Connection) (a : Acked) (now : Z) : Connection :=
  let c := match ambiguous a, sample a with
           | false, Some s => update_rto c s cfg
           | _, _ => c
           end in
  grow_cwnd (restart_timer c now) a cfg.

Lemma finish_ack_core c a now :
  conn_core cfg c -> conn_core cfg (finish_ack c a now) /\ cosmetic c (finish_ack c a now).
Proof.
  intros I. unfold finish_ack. cbv zeta. set (c1 := match ambiguous a with true => _ | _ => _ end).
  assert (conn_core cfg c1 /\ cosmetic c c1) as [I1 S1].
  { unfold c1. pose proof (shape_refl (flights c)).
    destruct (ambiguous a); [by split; [|split]|]. destruct (sample a); [by apply update_rto_core|].
    by split; [|split]. }
  destruct (restart_timer_core c1 now I1) as [I2 S2].
  destruct (grow_cwnd_core _ a I2) as [I3 S3].
  split; [done|]. eauto using cosmetic_trans.
Qed.

Lemma after_loop_core c old new old' acked k :
  conn_core cfg c -> flights c = old ++ new ->
  Forall (fun f => 0 < transmissions f) old -> Forall (fun f => transmissions f = 0) new ->
  (length new <= 1)%nat -> chain (send_sent c) new (send_next c) ->
  send_sent c = u32 (send_una c + span old) -> Forall (flight_ok cfg) new ->
  acked_to cfg old (send_una c) k old' acked ->
  conn_core cfg (after_loop c (old' ++ new) (zlen acked) (u32 (send_una c + k))).
Proof.
  intros I E Ho Hn Hl C2 Es Fn [A1 A2 A3 A4 A5 A6].
  pose proof (inv_count _ _ I) as Hc. pose proof (inv_send _ _ I) as Hb.
  pose proof (inv_payload _ _ I) as Hp. rewrite E, payloads_app, A2, <- app_assoc, !zlen_app in Hp.
  destruct I. constructor; simpl; try done.
  - exists old', new. split_and!; try done; [by apply A5|]. by rewrite Es.
  - by apply Forall_app.
  - rewrite payloads_app, zlen_app. lia.
  - unfold send_buffered in *. simpl. pose_zlen. lia.
  - rewrite E in Hc. unfold zlen in *. rewrite length_app in *. lia.
  - apply u32_range.
Qed.

(** The loop on a lone SYN or FIN. *)
Lemma control_loop f c old new k now old' a :
  old ++ new = [f] -> syn_flight f \/ fin_flight f -> 0 < k <= span old ->
  0 <= send_una c < W32 -> chain (send_una c) old (send_sent c) ->
  ack_flights (old ++ new) (u32 (send_una c + k)) now (mkAcked 0 None false 0)
    = (true, old' ++ new, a) ->
  old' ++ new = [] /\ completed_flags a = fl_flags f.
Proof.
  intros E C Hk Hu C1 El. destruct old as [|g old]; [simpl in Hk; lia|].
  simpl in E. injection E as -> E. apply app_nil in E as [-> ->].
  simpl in Hk. rewrite (fl_len_control f C), Z.add_0_r in Hk. assert (k = 1) as -> by lia.
  destruct C1 as [E1 _]. rewrite <- E1 in *.
  destruct (ack_flights_control f now (mkAcked 0 None false 0) Hu C) as (a' & E' & Ec & _).
  change (ack_flights [f] (u32 (fl_sequence f + 1)) now (mkAcked 0 None false 0)
    = (true, old' ++ [], a)) in El.
  rewrite E' in El. injection El as E2 <-. split; [congruence|]. rewrite Ec. simpl. by rewrite Z.lor_0_r.
Qed.

Lemma ack_progress_spec c k now :
  conn_core cfg c -> 0 < k <= bytes_in_flight c ->
  exists acked, progressed c k acked (ack_progress c (u32 (send_una c + k)) now cfg).
Proof.
  intros I Hk. destruct (inflight_span c I) as
    (old & new & E & Ei & Ho & Hn & Hl & C1 & C2 & Es & Hs & Fo & Fn). rewrite Ei in Hk.
  pose proof (inv_una _ _ I) as Hu.
  destruct (ack_flights_spec cfg old new (send_una c) k now (mkAcked 0 None false 0))
    as (old' & a & acked & El & Ea & A); try done; try lia.
  { by rewrite <- Es. }
  { destruct new as [|g new]; [done|]. destruct C2 as [-> _]. done. }
  cbn in Ea. exists acked.
  pose proof (after_loop_core c old new old' acked k I E Ho Hn Hl C2 Es Fn A) as I1.
  set (c1 := after_loop _ _ _ _) in I1.
  destruct (finish_ack_core c1 a now I1) as [I2 (R2 & S2 & St2 & U2)].
  destruct (fin_acked_core _ a now I2) as (I3 & R3 & F3 & U3 & St3).
  assert (ack_progress c (u32 (send_una c + k)) now cfg = fin_acked (finish_ack c1 a now) a now cfg) as ->.
  { unfold ack_progress. rewrite E, El. cbn [negb]. unfold c1, after_loop. by rewrite Ea. }
  destruct A as [A1 A2 A3 A4 A5 A6]. constructor.
  - done.
  - eapply rx_same_trans; [|exact R3]. eapply rx_same_trans; [|exact R2]. done.
  - rewrite U3, U2. done.
  - rewrite F3, (shape_payloads _ _ S2), E, payloads_app, A2, <- app_assoc.
    simpl. by rewrite payloads_app.
  - lia.
  - rewrite E. intros [Do Dn]%Forall_app. destruct (A6 Do) as [Do' Hz]. split; [|split; [done|]].
    + rewrite F3. eapply shape_Forall; [apply shape_data|exact S2|]. by apply Forall_app.
    + rewrite St3, St2, (ack_flights_flags FIN _ _ _ _ _ _ _ El); [done|].
      apply Forall_app. split; (eapply Forall_impl; [eassumption|]); by intros f (_ & ? & _).
  - intros f Ef Kf Hk0.
    destruct (control_loop f c old new k now old' a) as [Eo Ec];
      [congruence|by left|lia|done..|].
    change (flights c1) with (old' ++ new) in S2. rewrite Eo in S2. split; [rewrite F3; by inversion S2|].
    rewrite St3, St2, Ec. by destruct Kf as (_ & -> & _).
  - intros f Ef Kf Hk0.
    destruct (control_loop f c old new k now old' a) as [Eo Ec];
      [congruence|by right|lia|done..|].
    change (flights c1) with (old' ++ new) in S2. rewrite Eo in S2. split; [rewrite F3; by inversion S2|].
    rewrite St3, St2, Ec. by destruct Kf as (_ & -> & _).
Qed.

Lemma progressed_refl c c' :
  conn_core cfg c -> conn_core cfg c' -> cosmetic c c' -> progressed c 0 [] c'.
Proof.
  intros I I' (R & S & Est & U). constructor; try done; try lia.
  - by rewrite U, Z.add_0_r, u32_small by apply I.
  - by rewrite (shape_payloads _ _ S).
  - intros D. split; [|done]. by eapply shape_Forall; [apply shape_data|exact S|].
Qed.

Lemma progressed_cosmetic c c1 k acked c' :
  cosmetic c c1 -> progressed c1 k acked c' -> progressed c k acked c'.
Proof.
  intros (R & S & Est & U) [P1 P2 P3 P4 P0 P5 P6 P7]. constructor; try done.
  - by eapply rx_same_trans.
  - by rewrite P3, U.
  - by rewrite <- P4, (shape_payloads _ _ S).
  - intros Hk. destruct (P0 Hk) as (? & S' & ?). split; [done|]. split; [|congruence].
    by eapply shape_trans.
  - intros D. rewrite <- Est. apply P5. by eapply shape_Forall; [apply shape_data|exact S|].
  - intros f E K Hk. rewrite E in S. inversion S as [|? g ? ? Sg Sn E1 E2]; subst.
    inversion Sn; subst. rewrite <- Est. eapply P6; [by symmetry|by eapply shape_syn|done].
  - intros f E K Hk. rewrite E in S. inversion S as [|? g ? ? Sg Sn E1 E2]; subst.
    inversion Sn; subst. rewrite <- Est. eapply P7; [by symmetry|by eapply shape_fin|done].
Qed.

(** [acknowledge] on any segment whose acknowledgment is not beyond [send_sent]. *)
Lemma acknowledge_spec c seg now :
  conn_core cfg c -> segment_ok seg -> before (send_sent c) (acknowledgment seg) = false ->
  exists k acked, 0 <= k <= bytes_in_flight c
    /\ progressed c k acked (acknowledge c seg now cfg)
    /\ (before (acknowledgment seg) (send_una c) = false ->
        acknowledgment seg = u32 (send_una c + k)).
Proof.
  intros I Hs B2. unfold acknowledge.
  assert (0 <= bytes_in_flight c) as Hb by apply u32_range.
  destruct (before (acknowledgment seg) (send_una c)) eqn:B1.
  { exists 0, []. split; [lia|]. split; [|done]. apply progressed_refl; try done.
    split; [done|]. split; [apply shape_refl|done]. }
  destruct (update_window_core c seg I Hs) as [I1 S1].
  set (c1 := update_window c seg) in *. pose proof S1 as (R1 & _ & _ & U1).
  destruct (ack_offset c (acknowledgment seg) I (ok_acknowledgment _ Hs) B1 B2) as (k & Ek & Hk).
  destruct (acknowledgment seg =? send_una c1) eqn:E; bools.
  - exists 0, []. split; [lia|]. split; [by apply progressed_refl|].
    intros _. rewrite Z.add_0_r, u32_small by apply I. by rewrite E, U1.
  - assert (bytes_in_flight c1 = bytes_in_flight c) as Eb.
    { unfold bytes_in_flight. rewrite U1. by destruct R1 as (_ & _ & _ & _ & _ & _ & _ & _ & -> & _). }
    rewrite <- U1 in Ek. rewrite <- Eb in Hk.
    assert (k <> 0).
    { intros ->. apply E. rewrite Ek at 1. rewrite Z.add_0_r. apply u32_small, I1. }
    destruct (ack_progress_spec c1 k now I1 ltac:(lia)) as (acked & P).
    exists k, acked. rewrite Eb in Hk. split; [done|]. split; [|by rewrite <- U1].
    rewrite Ek. by eapply progressed_cosmetic.
Qed.
End Ack.
