(* ===== verification/TcpInputInv.v ===== *)
(** * Input of a TCP connection: proofs

    In-order delivery ([receive_data]), the handshake ([syn_sent]) and the whole
    segment handler ([input]) against the invariant. *)
From Stdlib Require Import ZArith Lia Bool.
From stdpp Require Import base numbers option list.
From S2P Require Import Prelude BufferPool Addr TcpWire TcpTypes Device TcpConn TcpConnInv TcpAckInv.
#[local] Open Scope Z_scope.

(** What the receive path leaves alone. *)
Definition tx_same (c c' : Connection) : Prop :=
  local c' = local c /\ remote c' = remote c /\ accepted c' = accepted c
  /\ flights c' = flights c /\ queued c' = queued c /\ send_una c' = send_una c
  /\ send_sent c' = send_sent c /\ send_next c' = send_next c
  /\ write_closed c' = write_closed c /\ local_error c' = local_error c.

(** The states in which data arrives, and the state after the peer's FIN. *)
Definition can_receive (s : TcpState) : bool :=
  match s with Established | FinWait1 | FinWait2 => true | _ => false end.
Definition eof_next (s : TcpState) : TcpState :=
  match s with Established => CloseWait | FinWait1 => Closing | FinWait2 => TimeWait | s => s end.

(** The part of a payload at [sequence] that starts at [next] and fits [window], and whether a FIN behind the
    payload is reached with room to spare. *)
Definition reaches (next sequence : Z) (payload : list Z) : bool :=
  negb (before next sequence) && (wsub32 next sequence <=? zlen payload).
Definition fresh_data (next window sequence : Z) (payload : list Z) : list Z :=
  if reaches next sequence payload
  then take (Z.to_nat window) (drop (Z.to_nat (wsub32 next sequence)) payload) else [].
Definition fresh_fin (next window sequence : Z) (payload : list Z) (fin : bool) : bool :=
  reaches next sequence payload && fin && (zlen payload - wsub32 next sequence <? window).

(** The effect of [receive_data]: [new] is what it delivers, [eof] whether it took the FIN. *)
Record delivered (cfg : TcpConfig) (c : Connection) (new : list Z) (eof : bool) (c' : Connection) : Prop := {
  dl_core : conn_core cfg c';
  dl_tx : tx_same c c';
  dl_received : received c' = received c ++ new;
  dl_next : receive_next c' = u32 (receive_next c + zlen new + flag1 eof);
  dl_window : zlen new + flag1 eof <= advertised_window c cfg;
  dl_eof : peer_eof c' = peer_eof c || eof;
  dl_state : state c' = if eof then eof_next (state c) else state c;
  dl_when : eof = true -> can_receive (state c) = true /\ peer_eof c = false
}.

Section Input.
Context (cfg : TcpConfig) (Hcfg : config_ok cfg).

Lemma core_ack_pending c b : conn_core cfg c -> conn_core cfg (c <| ack_pending := b |>).
Proof. intros []. by constructor. Qed.

(** What [receive_data] takes of a segment. *)
Definition takes (c : Connection) : bool := can_receive (state c) && negb (peer_eof c).
Definition rcv_new (c : Connection) (seg : Segment) : list Z :=
  if takes c then fresh_data (receive_next c) (advertised_window c cfg) (sequence seg) (payload seg) else [].
Definition rcv_eof (c : Connection) (seg : Segment) : bool :=
  takes c && fresh_fin (receive_next c) (advertised_window c cfg) (sequence seg) (payload seg) (has (flags seg) FIN).

Lemma delivered_none c c' :
  conn_core cfg c -> c' = c \/ c' = c <| ack_pending := true |> -> delivered cfg c [] false c'.
Proof.
  intros I E. pose proof (advertised_window_spec cfg Hcfg c I) as (_ & Hw & _).
  assert (conn_core cfg c') as I' by (destruct E as [->| ->]; [done|by apply core_ack_pending]).
  assert (u32 (receive_next c + zlen (@nil Z) + flag1 false) = receive_next c) as En.
  { rewrite zlen_nil. simpl. rewrite !Z.add_0_r. apply u32_small, I. }
  destruct E as [->| ->]; constructor; try done; simpl; rewrite ?app_nil_r, ?orb_false_r, ?En;
    try done; unfold zlen; simpl; lia.
Qed.
Lemma rcv_nothing c seg :
  takes c = false \/ reaches (receive_next c) (sequence seg) (payload seg) = false \/ payload seg = [] /\ has (flags seg) FIN = false ->
  rcv_new c seg = [] /\ rcv_eof c seg = false.
Proof.
  unfold rcv_new, rcv_eof, fresh_data, fresh_fin. intros [->|[->|[-> ->]]]; cbn [andb]; rewrite ?andb_false_r; try by destruct (takes c).
  rewrite drop_nil, take_nil. by destruct (takes c), (reaches (receive_next c) (sequence seg) []).
Qed.

(** The data part, before the FIN is looked at. *)
Lemma deliver_core c new n :
  conn_core cfg c -> bytes_ok new -> zlen new <= advertised_window c cfg -> 0 <= n < W32 ->
  conn_core cfg (c <| received ::= fun r => r ++ new |> <| receive_next := n |>).
Proof.
  intros I Hb Hw Hn. pose proof (advertised_window_spec cfg Hcfg c I) as (_ & Hw' & _).
  destruct I. constructor; simpl; try done.
  - rewrite zlen_app. lia.
  - by apply bytes_app.
Qed.

Lemma receive_data_spec c seg now :
  conn_core cfg c -> segment_ok seg -> delivered cfg c (rcv_new c seg) (rcv_eof c seg) (receive_data c seg now cfg).
Proof.
  intros I Hs. pose proof (advertised_window_spec cfg Hcfg c I) as (_ & Hw & HwW).
  assert (forall c', c' = c \/ c' = c <| ack_pending := true |> ->
    takes c = false \/ reaches (receive_next c) (sequence seg) (payload seg) = false \/ payload seg = [] /\ has (flags seg) FIN = false ->
    delivered cfg c (rcv_new c seg) (rcv_eof c seg) c') as None_.
  { intros c' E N. destruct (rcv_nothing c seg N) as [-> ->]. by apply delivered_none. }
  unfold receive_data. destruct (bool_decide _ && _) eqn:E0.
  { apply andb_true_iff in E0 as [E0 E0']. apply bool_decide_eq_true in E0. apply negb_true_iff in E0'. by apply None_; [left|right; right]. }
  cbv zeta. set (c0 := c <| ack_pending := true |>).
  assert (peer_eof c0 || negb match state c0 with Established | FinWait1 | FinWait2 => true | _ => false end = negb (takes c)) as ->.
  { unfold takes, c0. cbn. by destruct (peer_eof c), (state c). }
  destruct (takes c) eqn:E1; cbn [negb]; [|by apply None_; [right|left]].
  change (receive_next c0) with (receive_next c). set (skip := wsub32 (receive_next c) (sequence seg)).
  destruct (before _ _) eqn:E2. { apply None_; [by right|]. right; left. unfold reaches. by rewrite E2. }
  destruct (zlen (payload seg) <? skip) eqn:E3; bools.
  { apply None_; [by right|]. right; left. unfold reaches. rewrite E2. cbn. apply Z.leb_gt. done. }
  assert (reaches (receive_next c) (sequence seg) (payload seg) = true) as Re.
  { unfold reaches. rewrite E2. cbn. by apply Z.leb_le. }
  change (advertised_window c0 cfg) with (advertised_window c cfg).
  set (count := Z.min (zlen (payload seg) - skip) (advertised_window c cfg)).
  set (new := take (Z.to_nat count) (drop (Z.to_nat skip) (payload seg))).
  pose proof (ok_payload _ Hs) as Hb. pose proof (ok_size _ Hs).
  assert (0 <= skip) by apply u32_range.
  assert (zlen new = count) as En by (unfold new; zl).
  assert (rcv_new c seg = new) as ->.
  { unfold rcv_new, fresh_data, new, count. rewrite E1, Re. fold skip.
    destruct (decide (zlen (payload seg) - skip <= advertised_window c cfg)).
    - rewrite Z.min_l by lia. rewrite !take_ge; [done|unfold zlen in *; rewrite length_drop; lia..].
    - by rewrite Z.min_r by lia. }
  assert (bytes_ok new) as Hn by (unfold new; eauto with net).
  assert (0 <= count <= advertised_window c cfg) as Hc by (unfold count; lia).
  assert (wadd32 (receive_next c) (u32 count) = u32 (receive_next c + count)) as Ea
    by (unfold wadd32; by rewrite u32_add_r).
  assert (conn_core cfg (c0 <| received ::= fun r => r ++ new |>
                            <| receive_next := u32 (receive_next c + count) |>)) as I1.
  { apply deliver_core; [by apply core_ack_pending|done| |apply u32_range].
    rewrite En. apply Hc. }
  unfold takes in E1. apply andb_true_iff in E1 as [E1' E1]. apply negb_true_iff in E1.
  assert (has (flags seg) FIN && (wadd32 (sequence seg) (u32 (zlen (payload seg))) =? u32 (receive_next c + count))
          && (count <? advertised_window c cfg) = rcv_eof c seg) as Ef.
  { unfold rcv_eof, fresh_fin, takes. rewrite E1', E1, Re. cbn [andb negb]. fold skip. destruct (has (flags seg) FIN); [|done]. cbn [andb].
    destruct (decide (zlen (payload seg) - skip < advertised_window c cfg)) as [Hlt|Hge].
    - rewrite (proj2 (Z.ltb_lt _ _) Hlt). replace count with (zlen (payload seg) - skip) by (unfold count; lia). rewrite (proj2 (Z.ltb_lt _ _) Hlt), andb_true_r.
      apply Z.eqb_eq. unfold wadd32. rewrite u32_add_r. unfold skip, wsub32, u32, W32. rewrite Z.add_sub_assoc, Zminus_mod_idemp_r. f_equal. lia.
    - rewrite (proj2 (Z.ltb_ge (zlen (payload seg) - skip) _)) by lia. rewrite (proj2 (Z.ltb_ge count _)) by (unfold count; lia). apply andb_false_r. }
  cbn. rewrite Ea, Ef. destruct (rcv_eof c seg) eqn:E4.
  - apply andb_true_iff in Ef as [_ E6]. apply Z.ltb_lt in E6.
    constructor.
    + unfold c0 in I1. cbn in I1. clear -I1 E1'.
      destruct (state c); try done; destruct I1; constructor; cbn in *; try done; apply u32_range.
    + unfold tx_same. by destruct (state c).
    + by destruct (state c).
    + rewrite En. simpl. destruct (state c); cbn; unfold wadd32; by rewrite u32_add_l.
    + rewrite En. simpl. lia.
    + rewrite orb_true_r. by destruct (state c).
    + by destruct (state c).
    + done.
  - constructor; try done.
    + rewrite En. simpl. by rewrite Z.add_0_r.
    + rewrite En. simpl. lia.
    + by rewrite orb_false_r.
Qed.

(** ** The phase after an acknowledgment and after data *)
Lemma shape_single (P : Flight -> Prop) f gs :
  (forall f g, same_shape f g -> P f -> P g) -> Forall2 same_shape [f] gs -> P f ->
  exists g, gs = [g] /\ P g.
Proof.
  intros HP S Pf. inversion S as [|? g ? ? Sg Sn]; subst. inversion Sn; subst. eauto.
Qed.

Lemma inflight_nil c : conn_core cfg c -> flights c = [] -> bytes_in_flight c = 0.
Proof.
  intros I E. destruct (inflight_span cfg Hcfg c I) as (old & new & E' & -> & _).
  rewrite E in E'. symmetry in E'. by apply app_nil in E' as [-> ->].
Qed.

(** The FIN is either still outstanding, or acknowledged and the state has moved on. *)
Lemma progressed_fin c k acked c' f :
  progressed cfg c k acked c' -> 0 <= k -> flights c = [f] -> fin_flight f ->
  (exists g, flights c' = [g] /\ fin_flight g) /\ state c' = state c
  \/ flights c' = [] /\ state c' = fin_next (state c).
Proof.
  intros P Hk E K. destruct (decide (k = 0)) as [Hz|Hz].
  - left. destruct (pr_zero _ _ _ _ _ P Hz) as (_ & S & ->). split; [|done].
    rewrite E in S. by eapply shape_single; [apply shape_fin|..].
  - right. eapply (pr_fin _ _ _ _ _ P); eauto. lia.
Qed.

Lemma progressed_phase c k acked c' :
  conn_inv cfg c -> progressed cfg c k acked c' -> 0 <= k <= bytes_in_flight c ->
  state c <> SynSent -> state c <> SynReceived -> phase_ok c'.
Proof.
  intros I P Hk Hs1 Hs2. pose proof (inv_phase _ _ I) as Ph.
  pose proof (pr_rx _ _ _ _ _ P) as (_ & _ & _ & _ & _ & Ee & Ew & Eq & _).
  pose proof (inflight_nil c I) as Hn.
  unfold phase_ok in *. destruct (state c) eqn:E; try done; clear Hs1 Hs2.
  1,4: destruct Ph as [D ?]; destruct (pr_data _ _ _ _ _ P D) as (D' & _ & ->);
       rewrite E, Ee; done.
  1,3,4: destruct Ph as (Q & (f & Ef & K) & Pe & Pw);
       destruct (progressed_fin _ _ _ _ _ P ltac:(lia) Ef K) as [[X ->]|[X ->]];
       rewrite E, ?Ee, ?Ew, Eq; simpl; done.
  all: assert (flights c = []) as Ef by (naive_solver);
       assert (k = 0) as Hz by (specialize (Hn Ef); lia);
       destruct (pr_zero _ _ _ _ _ P Hz) as (_ & S & ->); rewrite Ef in S;
       inversion S; rewrite E, ?Ee, ?Ew, Eq; naive_solver.
Qed.

Lemma delivered_phase c new eof c' :
  phase_ok c -> delivered cfg c new eof c' -> phase_ok c'.
Proof.
  intros Ph D. pose proof (dl_tx _ _ _ _ _ D) as (_ & _ & _ & Ef & Eq & _ & _ & _ & Ew & _).
  pose proof (dl_eof _ _ _ _ _ D) as Ee. pose proof (dl_state _ _ _ _ _ D) as Es.
  unfold phase_ok in *. destruct eof.
  - destruct (dl_when _ _ _ _ _ D eq_refl) as [Hr Hp].
    rewrite Es, Ef, Eq, Ew, Ee. rewrite orb_true_r. destruct (state c); try done; simpl; naive_solver.
  - rewrite orb_false_r in Ee. rewrite Es, Ef, Eq, Ew, Ee. done.
Qed.

(** ** What a segment does to a connection

    The segment resets the connection ([resets]), or its acknowledgment and its payload are processed ([processed]) or it has no effect
    on the streams.  [ack_span] is how far the acknowledgment reaches, [input_data] and [input_eof] what it brings. *)
Definition synchronizes (c : Connection) (seg : Segment) : bool :=
  has (flags seg) ACK && (acknowledgment seg =? send_sent c) && negb (send_sent c =? send_una c).
Definition resets (c : Connection) (seg : Segment) : bool :=
  has (flags seg) RST
  && match state c with
     | SynSent => synchronizes c seg
     | TimeWait | Closed | Reset_ | TimedOut_ | Failed => false
     | _ => acceptable c seg cfg && (sequence seg =? receive_next c)
     end.
Definition processed (c : Connection) (seg : Segment) : bool :=
  has (flags seg) ACK && negb (has (flags seg) RST)
  && match state c with
     | SynSent => synchronizes c seg && has (flags seg) SYN && negb (has (flags seg) FIN)
     | TimeWait | Closed | Reset_ | TimedOut_ | Failed => false
     | SynReceived => acceptable c seg cfg && negb (has (flags seg) SYN) && synchronizes c seg
     | _ => acceptable c seg cfg && negb (has (flags seg) SYN) && negb (before (send_sent c) (acknowledgment seg))
     end.
Definition ack_span (c : Connection) (seg : Segment) : Z :=
  if before (acknowledgment seg) (send_una c) then 0 else wsub32 (acknowledgment seg) (send_una c).
Definition input_span (c : Connection) (seg : Segment) : Z := if processed c seg then ack_span c seg else 0.
(** A SYN or FIN is acknowledged without payload; it travels alone. *)
Definition input_acked (c : Connection) (seg : Segment) : Z :=
  if existsb (fun f => bool_decide (fl_payload f = [])) (flights c) then 0 else input_span c seg.
(** The position at which data is expected, and where that of the segment starts: a SYN counts. *)
Definition input_next (c : Connection) (seg : Segment) : Z :=
  if bool_decide (state c = SynSent) && processed c seg then wadd32 (sequence seg) 1 else receive_next c.
Definition input_start (c : Connection) (seg : Segment) : Z :=
  if bool_decide (state c = SynSent) then wadd32 (sequence seg) 1 else sequence seg.
Definition input_open (c : Connection) (seg : Segment) : bool :=
  processed c seg && negb (peer_eof c)
  && match state c with SynSent | SynReceived | Established | FinWait1 | FinWait2 => true | _ => false end.
Definition input_data (c : Connection) (seg : Segment) : list Z :=
  if input_open c seg then fresh_data (input_next c seg) (advertised_window c cfg) (input_start c seg) (payload seg) else [].
Definition input_eof (c : Connection) (seg : Segment) : bool :=
  input_open c seg && fresh_fin (input_next c seg) (advertised_window c cfg) (input_start c seg) (payload seg) (has (flags seg) FIN).

Record input_effect (c : Connection) (seg : Segment) (c' : Connection) : Prop := {
  ie_span : 0 <= input_span c seg <= bytes_in_flight c;
  ie_una : send_una c' = u32 (send_una c + input_span c seg);
  ie_sent : send_sent c' = send_sent c;
  ie_acked : 0 <= input_acked c seg <= zlen (pending c);
  ie_pending : pending c' = drop (Z.to_nat (input_acked c seg)) (pending c);
  ie_received : received c' = received c ++ input_data c seg;
  ie_window : zlen (input_data c seg) <= advertised_window c cfg;
  ie_eof : peer_eof c' = peer_eof c || input_eof c seg;
  ie_next : receive_next c' = u32 (input_next c seg + zlen (input_data c seg) + flag1 (input_eof c seg))
}.
(** What [input] guarantees of its result. *)
Definition input_post (c : Connection) (seg : Segment) (c' : Connection) : Prop :=
  conn_inv cfg c' /\ (if resets c seg then c' = fail_ c Reset_ else input_effect c seg c').

Lemma effect_quiet c c' seg :
  conn_core cfg c -> processed c seg = false -> payloads (flights c') = payloads (flights c) -> queued c' = queued c ->
  send_una c' = send_una c -> send_sent c' = send_sent c -> received c' = received c ->
  peer_eof c' = peer_eof c -> receive_next c' = receive_next c -> input_effect c seg c'.
Proof.
  intros I E0 E1 E2 E3 E4 E5 E6 E7. pose proof (advertised_window_spec cfg Hcfg c I) as (_ & Hw & _).
  assert (0 <= bytes_in_flight c) by apply u32_range.
  assert (input_acked c seg = 0) as Ea by (unfold input_acked, input_span; rewrite E0; by destruct (existsb _ _)).
  assert (input_data c seg = [] /\ input_eof c seg = false) as [Ed Ee] by (unfold input_data, input_eof, input_open; by rewrite E0).
  assert (input_next c seg = receive_next c) as En by (unfold input_next; by rewrite E0, andb_false_r).
  assert (input_span c seg = 0) as Es by (unfold input_span; by rewrite E0).
  constructor; rewrite ?Ea, ?Ed, ?Ee, ?En, ?Es, ?orb_false_r, ?app_nil_r; try done; try lia.
  - by rewrite E3, Z.add_0_r, u32_small by apply I.
  - pose_zlen. lia.
  - unfold pending. by rewrite E1, E2.
  - unfold zlen. simpl. lia.
  - rewrite E7. unfold zlen. simpl. rewrite !Z.add_0_r. symmetry. apply u32_small, I.
Qed.

(** The span of the acknowledgment is what it removes. *)
Lemma ack_span_exact c seg now :
  conn_core cfg c -> segment_ok seg -> before (send_sent c) (acknowledgment seg) = false ->
  0 <= ack_span c seg <= bytes_in_flight c /\ exists acked, progressed cfg c (ack_span c seg) acked (acknowledge c seg now cfg).
Proof.
  intros I Hs B. destruct (acknowledge_spec cfg Hcfg c seg now I Hs B) as (k & acked & Hk & P & Ha).
  destruct (inflight_span cfg Hcfg c I) as (old & _ & _ & Ei & _ & _ & _ & _ & _ & _ & Hsp & _).
  pose proof (inv_una _ _ I) as Hu.
  assert (ack_span c seg = k) as ->; [|by split; [|exists acked]].
  unfold ack_span. destruct (before (acknowledgment seg) (send_una c)) eqn:E.
  - revert P. unfold acknowledge. rewrite E. intros P. pose proof (pr_una _ _ _ _ _ P) as Eu.
    unfold u32, W32, HALF in *. rewrite Ei in Hk. Z.div_mod_to_equations. lia.
  - rewrite (Ha eq_refl). unfold wsub32, u32, W32, HALF in *. rewrite Zminus_mod_idemp_l. rewrite Ei in Hk.
    replace (send_una c + k - send_una c) with k by lia. apply Z.mod_small. lia.
Qed.

(** Payload only leaves in the data states. *)
Lemma progressed_acked c k acked c' :
  phase_ok c -> progressed cfg c k acked c' -> 
  zlen acked = if existsb (fun f => bool_decide (fl_payload f = [])) (flights c) then 0 else k.
Proof.
  intros Ph P. pose proof (pr_payload _ _ _ _ _ P) as Ep.
  assert (payloads (flights c) = [] -> acked = []) as Hn.
  { intros E. rewrite E in Ep. symmetry in Ep. by apply app_nil in Ep as [-> _]. }
  unfold phase_ok in Ph.
  assert (Forall data_flight (flights c) \/ exists f, flights c = [f] /\ fl_payload f = []) as [D|(f & E & Ef)].
  { destruct (state c); unfold syn_flight, fin_flight in Ph; try naive_solver; left;
      (rewrite (proj1 (proj2 Ph)) || rewrite (proj2 Ph)); constructor. }
  - replace (existsb _ _) with false; [apply (pr_data _ _ _ _ _ P D)|]. symmetry. clear -D.
    induction D as [|f fs (_ & _ & N) _ IH]; [done|]. cbn. rewrite IH, orb_false_r. by apply bool_decide_eq_false.
  - rewrite E. cbn. rewrite (bool_decide_eq_true_2 _ Ef). cbn. rewrite Hn; [done|]. rewrite E. unfold payloads. simpl. by rewrite Ef.
Qed.
(** ** The state after an acknowledgment *)
Lemma update_rto_state c s : state (update_rto c s cfg) = state c.
Proof. unfold update_rto. by destruct (srtt c). Qed.

Lemma grow_cwnd_state c a : state (grow_cwnd c a cfg) = state c.
Proof.
  unfold grow_cwnd. destruct (has (completed_flags a) SYN).
  { cbv zeta. simpl. by destruct (syn_retransmitted c). }
  destruct (0 <? acknowledged_payload a); [|done]. cbv zeta.
  destruct (cwnd c <? ssthresh c); [done|]. simpl. by destruct (cwnd c <=? _).
Qed.

Lemma acknowledge_state c seg now :
  state (acknowledge c seg now cfg) = state c
  \/ state (acknowledge c seg now cfg) = fin_next (state c).
Proof.
  unfold acknowledge. destruct (before _ _); [by left|].
  assert (state (update_window c seg) = state c) as Ew.
  { unfold update_window. destruct (_ || _); [|done]. by destruct (0 <? _). }
  destruct (_ =? _); [by left|]. unfold ack_progress.
  destruct (ack_flights _ _ _ _) as [[g fs] a]. destruct (negb g); [by left|].
  set (c1 := grow_cwnd _ _ _).
  assert (state c1 = state c) as E1.
  { unfold c1. rewrite grow_cwnd_state. simpl.
    destruct (ambiguous a), (sample a); rewrite ?update_rto_state; done. }
  clearbody c1. unfold fin_acked. rewrite E1. destruct (has _ FIN); [|by left].
  destruct (state c) eqn:E; simpl; auto; rewrite E1; auto.
Qed.

(** Acknowledgment followed by data, as [input] composes them; [c2] is the connection in between. *)
Lemma effect_compose c seg acked c2 c' :
  conn_core cfg c -> processed c seg = true -> 0 <= ack_span c seg <= bytes_in_flight c ->
  zlen acked = (if existsb (fun f => bool_decide (fl_payload f = [])) (flights c) then 0 else ack_span c seg) ->
  payloads (flights c) = acked ++ payloads (flights c2) -> queued c2 = queued c ->
  send_una c2 = u32 (send_una c + ack_span c seg) -> send_sent c2 = send_sent c ->
  received c2 = received c -> peer_eof c2 = peer_eof c -> receive_next c2 = input_next c seg ->
  delivered cfg c2 (input_data c seg) (input_eof c seg) c' -> input_effect c seg c'.
Proof.
  intros I Pr Hk Hz Ep Eq Eu Es Er Ee En D.
  pose proof (dl_tx _ _ _ _ _ D) as (_ & _ & _ & Df & Dq & Du & Ds & _).
  assert (input_span c seg = ack_span c seg) as Sp by (unfold input_span; by rewrite Pr).
  assert (input_acked c seg = zlen acked) as Ea by (unfold input_acked; by rewrite Sp).
  assert (pending c = acked ++ pending c') as Pd by (unfold pending; by rewrite Df, Dq, Eq, Ep, app_assoc).
  constructor; rewrite ?Sp, ?Ea; try done.
  - by rewrite Du, Eu.
  - by rewrite Ds, Es.
  - rewrite Pd. zl.
  - rewrite Pd. unfold zlen. by rewrite Nat2Z.id, drop_app_length.
  - by rewrite (dl_received _ _ _ _ _ D), Er.
  - pose proof (dl_window _ _ _ _ _ D) as W. pose proof (flag1_range (input_eof c seg)).
    unfold advertised_window in *. rewrite Er in W. lia.
  - by rewrite (dl_eof _ _ _ _ _ D), Ee.
  - by rewrite (dl_next _ _ _ _ _ D), En.
Qed.

Lemma can_receive_fin s : can_receive (fin_next s) = can_receive s.
Proof. by destruct s. Qed.
(** What is delivered after the acknowledgment is what the segment brings. *)
Lemma input_delivered c c2 seg : state c <> SynSent -> processed c seg = true ->
  can_receive (state c2) = match state c with SynReceived | Established | FinWait1 | FinWait2 => true | _ => false end ->
  received c2 = received c -> peer_eof c2 = peer_eof c -> receive_next c2 = receive_next c ->
  rcv_new c2 seg = input_data c seg /\ rcv_eof c2 seg = input_eof c seg.
Proof.
  intros Ns Pr Cr Er Ee En. unfold rcv_new, rcv_eof, input_data, input_eof, input_open, takes, input_next, input_start.
  rewrite Pr, Ee, En, Cr, (bool_decide_eq_false_2 _ Ns). cbn [andb].
  assert (advertised_window c2 cfg = advertised_window c cfg) as -> by (unfold advertised_window; by rewrite Er).
  rewrite (andb_comm (match state c with _ => _ end)). by destruct (state c).
Qed.

Lemma input_data_post c seg now :
  conn_inv cfg c -> segment_ok seg -> state c <> SynSent -> state c <> SynReceived -> resets c seg = false -> processed c seg = true ->
  before (send_sent c) (acknowledgment seg) = false ->
  input_post c seg (let c := acknowledge c seg now cfg in
                    if is_terminal (state c) then c else receive_data c seg now cfg).
Proof.
  intros I Hs S1 S2 Rs Pr B. pose proof (inv_core _ _ I) as Ic.
  destruct (ack_span_exact c seg now Ic Hs B) as [Hk (acked & P)].
  pose proof (progressed_phase c _ acked _ I P Hk S1 S2) as Ph2.
  pose proof (progressed_acked c _ acked _ (inv_phase _ _ I) P) as Hz.
  pose proof (acknowledge_state c seg now) as Sa. pose proof (pr_core _ _ _ _ _ P) as I2.
  pose proof (pr_rx _ _ _ _ _ P) as (_ & _ & _ & Er & En & Ee & _ & Eq & Es & _).
  cbv zeta. set (c2 := acknowledge c seg now cfg) in *.
  destruct (input_delivered c c2 seg S1 Pr) as [Dn De]; try done.
  { destruct Sa as [->| ->]; rewrite ?can_receive_fin; by destruct (state c). }
  assert (delivered cfg c2 (input_data c seg) (input_eof c seg)
    (if is_terminal (state c2) then c2 else receive_data c2 seg now cfg)) as D.
  { rewrite <- Dn, <- De. destruct (is_terminal (state c2)) eqn:T; [|by apply receive_data_spec].
    destruct (rcv_nothing c2 seg) as [-> ->]; [left; unfold takes; by destruct (state c2)|]. apply delivered_none; eauto. }
  split; [split; [apply (dl_core _ _ _ _ _ D)|by eapply delivered_phase]|]. rewrite Rs.
  apply (effect_compose c seg acked c2); try done; [apply (pr_payload _ _ _ _ _ P)|apply (pr_una _ _ _ _ _ P)|].
  unfold input_next. by rewrite (bool_decide_eq_false_2 _ S1).
Qed.

(** The handshake: the acknowledgment of our SYN. *)
Lemma syn_acked c seg now f :
  conn_core cfg c -> segment_ok seg -> flights c = [f] -> syn_flight f ->
  acknowledgment seg = send_sent c -> send_sent c <> send_una c ->
  0 < ack_span c seg <= bytes_in_flight c
    /\ progressed cfg c (ack_span c seg) [] (acknowledge c seg now cfg)
    /\ flights (acknowledge c seg now cfg) = []
    /\ state (acknowledge c seg now cfg) = state c.
Proof.
  intros I Hs Ef K Ea En.
  destruct (ack_span_exact c seg now I Hs) as [Hk (acked & P)]; [rewrite Ea; apply before_irrefl|].
  assert (ack_span c seg <> 0) as Hk0.
  { intros Hz. destruct (inflight_span cfg Hcfg c I) as (old & new & E & Ei & _ & _ & _ & _ & _ & Es & Hsp & _).
    unfold ack_span in Hz. rewrite Ea in Hz. pose proof (inv_una _ _ I) as Hu. pose proof (inv_sent cfg c I) as Hq. revert Hz.
    assert (before (send_sent c) (send_una c) = false) as ->.
    { rewrite Es. rewrite <- (u32_small (send_una c)) at 2 by done. rewrite <- (Z.add_0_r (send_una c)) at 2.
      rewrite before_offset by (unfold HALF in *; lia). apply Z.ltb_ge. lia. }
    unfold wsub32, u32, W32 in *. intros Hz. apply En. Z.div_mod_to_equations. lia. }
  assert (acked = []) as ->.
  { pose proof (pr_payload _ _ _ _ _ P) as Ep. rewrite Ef in Ep.
    unfold payloads at 1 in Ep. simpl in Ep. destruct K as (_ & _ & Kp). rewrite Kp in Ep.
    symmetry in Ep. by apply app_nil in Ep as [-> _]. }
  destruct (pr_syn _ _ _ _ _ P f Ef K ltac:(lia)) as [Ef' Est].
  split_and!; try done; lia.
Qed.
Lemma syn_no_payload c f : flights c = [f] -> syn_flight f -> existsb (fun f => bool_decide (fl_payload f = [])) (flights c) = true.
Proof. intros -> (_ & _ & K). cbn. by rewrite (bool_decide_eq_true_2 _ K). Qed.
Lemma data_segment_ok seg :
  segment_ok seg ->
  segment_ok (seg <| sequence := wadd32 (sequence seg) 1 |> <| flags ::= fun f => Z.land f 0xfd |>).
Proof.
  intros []. constructor; simpl; try done; [apply u32_range|].
  apply byte_land. unfold is_byte. lia.
Qed.

Lemma syn_sent_post c seg now :
  conn_inv cfg c -> segment_ok seg -> state c = SynSent -> input_post c seg (syn_sent c seg now cfg).
Proof.
  intros I Hs St. pose proof (inv_core _ _ I) as Ic. pose proof (inv_phase _ _ I) as Ph.
  unfold phase_ok in Ph. rewrite St in Ph. destruct Ph as (Eq & (f & Ef & K) & Ew & Ee).
  unfold syn_sent. fold (synchronizes c seg). unfold input_post, resets. rewrite St.
  assert (processed c seg = has (flags seg) ACK && negb (has (flags seg) RST)
    && (synchronizes c seg && has (flags seg) SYN && negb (has (flags seg) FIN))) as Pr by (unfold processed; by rewrite St).
  destruct (has (flags seg) RST) eqn:R; cbn [andb].
  { destruct (synchronizes c seg); [split; [by apply fail_inv|done]|]. split; [done|]. apply effect_quiet; try done. by rewrite Pr, andb_false_r. }
  destruct (negb _ || _ || _) eqn:E.
  { split; [done|]. apply effect_quiet; try done. rewrite Pr. destruct (synchronizes c seg), (has (flags seg) SYN), (has (flags seg) FIN), (has (flags seg) ACK); done. }
  apply orb_false_iff in E as [E Ef0]. apply orb_false_iff in E as [E Es0]. apply negb_false_iff in E, Es0.
  pose proof E as E'. unfold synchronizes in E'. bools. destruct E' as [[Ek Ea] En].
  rewrite E, Es0, Ef0, Ek in Pr. cbn in Pr.
  set (c1 := c <| receive_next := _ |> <| peer_window := _ |> <| peer_mss := _ |>
               <| window_sequence := _ |> <| window_ack := _ |>).
  assert (conn_core cfg c1) as I1.
  { clear -Ic Hs. destruct Ic. constructor; simpl; try done; [apply u32_range|apply Hs|].
    pose proof (ok_mss _ Hs) as Hm. destruct (mss seg) as [m|]; simpl; [specialize (Hm m eq_refl)|];
      unfold W16 in *; lia. }
  destruct (syn_acked c1 seg now f I1 Hs Ef K Ea En) as (Hk & P & Ef2 & _).
  cbv zeta. set (c2 := acknowledge c1 seg now cfg) in *.
  pose proof (pr_core _ _ _ _ _ P) as I2. pose proof (pr_rx _ _ _ _ _ P) as
    (_ & _ & _ & Xr & Xn & Xe & Xw & Xq & Xs & _).
  set (c3 := c2 <| state := Established |> <| phase_deadline := None |> <| ack_pending := true |>).
  assert (conn_core cfg c3) as I3 by (clear -I2; destruct I2; by constructor).
  assert (phase_ok c3) as Ph3.
  { unfold phase_ok. simpl. rewrite Ef2, Xe. simpl. by rewrite Ee. }
  set (data := seg <| sequence := _ |> <| flags ::= _ |>).
  assert (rcv_new c3 data = input_data c seg /\ rcv_eof c3 data = input_eof c seg) as [Dn De].
  { unfold rcv_new, rcv_eof, input_data, input_eof, input_open, takes, input_next, input_start. rewrite Pr, St. cbn -[fresh_data fresh_fin advertised_window].
    rewrite Xe, Xn. cbn -[fresh_data fresh_fin advertised_window]. rewrite Ee. cbn [andb negb].
    assert (advertised_window c3 cfg = advertised_window c cfg) as -> by (unfold advertised_window, c3; cbn; by rewrite Xr).
    split; [done|]. f_equal. unfold has, FIN. rewrite <- Z.land_assoc. change (Z.land 253 1) with 1. done. }
  assert (delivered cfg c3 (input_data c seg) (input_eof c seg)
    (if bool_decide (payload seg = []) then c3 else receive_data c3 data now cfg)) as D.
  { rewrite <- Dn, <- De. case_bool_decide as Ep; [|by apply receive_data_spec, data_segment_ok].
    destruct (rcv_nothing c3 data) as [-> ->]; [|apply delivered_none; eauto]. right; right. split; [done|].
    unfold has, FIN in *. cbn. rewrite <- Z.land_assoc. by change (Z.land 253 1) with 1. }
  split; [split; [apply (dl_core _ _ _ _ _ D)|by eapply delivered_phase]|].
  apply (effect_compose c seg [] c3); try done.
  - change (ack_span c seg) with (ack_span c1 seg). change (bytes_in_flight c) with (bytes_in_flight c1). lia.
  - by rewrite (syn_no_payload c f).
  - cbn. by rewrite Ef, Ef2; unfold payloads; simpl; destruct K as (_ & _ & ->).
  - apply (pr_una _ _ _ _ _ P).
  - unfold input_next. rewrite St, Pr. cbn. by rewrite Xn.
Qed.

(** A repeated SYN makes the SYN-ACK due again. *)
Lemma dup_syn_inv c :
  conn_inv cfg c -> state c = SynReceived ->
  let c' := c <| flights ::= fun fs => match fs with
                                       | f :: fs => f <| last_sent := None |> :: fs
                                       | [] => []
                                       end |> in
  conn_inv cfg c' /\ payloads (flights c') = payloads (flights c).
Proof.
  intros I St c'. pose proof (inv_core _ _ I) as Ic. pose proof (inv_phase _ _ I) as Ph.
  unfold phase_ok in Ph. rewrite St in Ph. destruct Ph as (Eq & (f & Ef & K) & Ew & Ee).
  set (g := f <| last_sent := None |>).
  assert (c' = c <| flights := [g] |>) as -> by (unfold c'; cbn; by rewrite Ef).
  assert (Forall2 same_shape (flights c) [g]) as S by (rewrite Ef; by repeat constructor).
  split; [split|].
  - apply core_shape; [done..|]. apply Forall_singleton.
    pose proof (core_rtos cfg c Ic) as R. rewrite Ef in R. by apply Forall_cons in R as [R _].
  - unfold phase_ok. simpl. rewrite St. split; [done|]. split; [|done]. by exists g.
  - simpl. by rewrite Ef.
Qed.

(** The third segment of the handshake, possibly with data. *)
Lemma syn_received_post c seg now :
  conn_inv cfg c -> segment_ok seg -> state c = SynReceived -> resets c seg = false -> processed c seg = true ->
  acknowledgment seg = send_sent c /\ send_sent c <> send_una c ->
  input_post c seg
    (let c := acknowledge (c <| state := Established |> <| phase_deadline := None |>) seg now cfg in
     if is_terminal (state c) then c else receive_data c seg now cfg).
Proof.
  intros I Hs St Rs Pr [Ea En]. pose proof (inv_core _ _ I) as Ic. pose proof (inv_phase _ _ I) as Ph.
  unfold phase_ok in Ph. rewrite St in Ph. destruct Ph as (Eq & (f & Ef & K) & Ew & Ee).
  set (c1 := c <| state := Established |> <| phase_deadline := None |>).
  assert (conn_core cfg c1) as I1 by (clear -Ic; destruct Ic; by constructor).
  destruct (syn_acked c1 seg now f I1 Hs Ef K Ea En) as (Hk & P & Ef2 & Es2).
  cbv zeta. set (c2 := acknowledge c1 seg now cfg) in *.
  pose proof (pr_core _ _ _ _ _ P) as I2. pose proof (pr_rx _ _ _ _ _ P) as
    (_ & _ & _ & Er & Xn & Xe & _ & Xq & Xs & _).
  assert (phase_ok c2) as Ph2.
  { unfold phase_ok. rewrite Es2, Ef2, Xe. simpl. by rewrite Ee. }
  destruct (input_delivered c c2 seg ltac:(by rewrite St) Pr) as [Dn De]; try done; [by rewrite Es2, St|].
  rewrite Es2. cbn [is_terminal c1 state].
  pose proof (receive_data_spec c2 seg now I2 Hs) as D. rewrite Dn, De in D.
  split; [split; [apply (dl_core _ _ _ _ _ D)|by eapply delivered_phase]|]. rewrite Rs.
  apply (effect_compose c seg [] c2); try done.
  - change (ack_span c seg) with (ack_span c1 seg). change (bytes_in_flight c) with (bytes_in_flight c1). lia.
  - by rewrite (syn_no_payload c f).
  - by rewrite Ef, Ef2; unfold payloads; simpl; destruct K as (_ & _ & ->).
  - apply (pr_una _ _ _ _ _ P).
  - unfold input_next. by rewrite St.
Qed.

Lemma input_spec c seg now :
  conn_inv cfg c -> segment_ok seg -> input_post c seg (input c seg now cfg).
Proof.
  intros I Hs. pose proof (inv_core _ _ I) as Ic. pose proof (inv_phase _ _ I) as Ph.
  assert (forall c', resets c seg = false -> processed c seg = false -> conn_inv cfg c' -> payloads (flights c') = payloads (flights c) ->
    rx_same c c' -> send_una c' = send_una c -> input_post c seg c') as Quiet.
  { intros c' Rs Pr I' E1 (_ & _ & _ & Er & En & Ee & _ & Eq & Es & _) Eu. split; [done|]. rewrite Rs. by apply effect_quiet. }
  assert (conn_inv cfg (c <| ack_pending := true |>)) as Iack
    by (split; [by apply core_ack_pending|done]).
  unfold input. destruct (is_terminal (state c)) eqn:T.
  { apply Quiet; try done; unfold resets, processed; destruct (state c); try done; apply andb_false_r. }
  case_bool_decide as S1; [by apply syn_sent_post|].
  case_bool_decide as S2.
  { assert (resets c seg = false) by (unfold resets; rewrite S2; apply andb_false_r).
    assert (processed c seg = false) by (unfold processed; rewrite S2; apply andb_false_r).
    destruct (negb _); [|by apply Quiet]. destruct (_ && _); [|by apply Quiet].
    apply Quiet; try done. split; [|done]. clear -Ic. destruct Ic. by constructor. }
  assert (resets c seg = has (flags seg) RST && (acceptable c seg cfg && (sequence seg =? receive_next c))) as Rs
    by (unfold resets; by destruct (state c)).
  assert (processed c seg = has (flags seg) ACK && negb (has (flags seg) RST) && (acceptable c seg cfg && negb (has (flags seg) SYN)
     && if bool_decide (state c = SynReceived) then synchronizes c seg else negb (before (send_sent c) (acknowledgment seg)))) as Pr
    by (unfold processed; by destruct (state c)).
  destruct (bool_decide (state c = SynReceived) && _ && _) eqn:Dup.
  { apply andb_true_iff in Dup as [Dup _]. apply andb_true_iff in Dup as [S3 Fl]. apply bool_decide_eq_true in S3. apply Z.eqb_eq in Fl.
    assert (has (flags seg) RST = false /\ has (flags seg) SYN = true) as [F1 F2].
    { pose proof (f_equal (fun x => Z.land x RST) Fl) as G1. pose proof (f_equal (fun x => Z.land x SYN) Fl) as G2. cbn beta in G1, G2.
      rewrite <- Z.land_assoc in G1, G2. change (Z.land (Z.lor (Z.lor SYN ACK) RST) RST) with RST in G1.
      change (Z.land (Z.lor (Z.lor SYN ACK) RST) SYN) with SYN in G2. unfold has. by rewrite G1, G2. }
    destruct (dup_syn_inv c I S3) as [I' E']. apply Quiet; try done; [by rewrite Rs, F1|]. rewrite Pr, F2. cbn. by rewrite andb_false_r, andb_false_l, andb_false_r. }
  clear Dup. destruct (acceptable c seg cfg) eqn:Acc; cbn [negb].
  2: { assert (resets c seg = false) by (by rewrite Rs, andb_false_r). assert (processed c seg = false) by (by rewrite Pr, andb_false_r).
       destruct (negb _); by apply Quiet. }
  destruct (has (flags seg) RST) eqn:R.
  { assert (processed c seg = false) by (by rewrite Pr, andb_false_r).
    destruct (sequence seg =? receive_next c) eqn:Sq; [|by apply Quiet]. split; [by apply fail_inv|]. by rewrite Rs. }
  cbn [andb] in Rs. destruct (has (flags seg) SYN) eqn:Sy; [apply Quiet; try done; by rewrite Pr, andb_false_r|].
  destruct (has (flags seg) ACK) eqn:Ak; cbn [negb]; [|by apply Quiet].
  cbn [andb negb] in Pr. destruct (before _ _) eqn:B.
  { apply Quiet; try done. rewrite Pr. case_bool_decide; [|done]. unfold synchronizes. rewrite Ak. cbn [andb].
    destruct (acknowledgment seg =? send_sent c) eqn:E; [|done]. bools. rewrite E, before_irrefl in B. done. }
  case_bool_decide as S3; cbn [andb].
  - destruct (negb (_ =? _) || _) eqn:E.
    { apply Quiet; try done. rewrite Pr. unfold synchronizes. rewrite Ak. cbn [andb].
      destruct (acknowledgment seg =? send_sent c), (send_sent c =? send_una c); done. }
    bools. apply syn_received_post; try done. rewrite Pr. unfold synchronizes. rewrite Ak. cbn [andb]. by bools.
  - by apply input_data_post.
Qed.
End Input.
