(* ===== verification/TcpOutputInv.v ===== *)
(** * Output of a TCP connection: proofs

    [prepare] and the window test before the first submission move bytes between
    the queue and the flights without changing [pending]; a submitted segment
    carries the bytes that belong at its sequence number; new data stays within the peer's
    window and the congestion window; [transmit] never panics on a device that keeps the
    [DeviceLaws] and returns every frame it took. *)
From Stdlib Require Import ZArith Lia Bool.
From stdpp Require Import base numbers option list.
From S2P Require Import Prelude BufferPool Addr TcpWire TcpTypes Device TcpConn TcpConnInv TcpAckInv TcpInputInv.
#[local] Open Scope Z_scope.

(** What the send path leaves alone. *)
Definition rcv_same (c c' : Connection) : Prop :=
  local c' = local c /\ remote c' = remote c /\ accepted c' = accepted c
  /\ received c' = received c /\ receive_next c' = receive_next c /\ peer_eof c' = peer_eof c
  /\ write_closed c' = write_closed c /\ local_error c' = local_error c
  /\ send_una c' = send_una c /\ pending c' = pending c /\ peer_window c' = peer_window c.

Lemma rcv_same_refl c : rcv_same c c.
Proof. done. Qed.
Lemma rcv_same_trans a b c : rcv_same a b -> rcv_same b c -> rcv_same a c.
Proof. unfold rcv_same. intuition congruence. Qed.

Section Output.
Context (cfg : TcpConfig) (Hcfg : config_ok cfg).

Lemma core_state c s : conn_core cfg c -> conn_core cfg (c <| state := s |>).
Proof. intros []. by constructor. Qed.

(** A flight that was never submitted is the last one. *)
Lemma unsent_last c i f :
  conn_core cfg c -> flights c !! i = Some f -> transmissions f = 0 ->
  exists old, flights c = old ++ [f] /\ i = length old
    /\ Forall (fun f => 0 < transmissions f) old
    /\ chain (send_una c) old (send_sent c) /\ fl_sequence f = send_sent c
    /\ send_next c = fl_end f /\ bytes_in_flight c = span old.
Proof.
  intros I Hi Ht. destruct (inflight_span cfg Hcfg c I) as
    (old & new & E & Ei & Ho & Hn & Hl & C1 & C2 & _). exists old.
  rewrite E in Hi. destruct (decide (i < length old)%nat) as [Hlt|Hge].
  { rewrite lookup_app_l in Hi by done. rewrite Forall_lookup in Ho. specialize (Ho i f Hi). lia. }
  rewrite lookup_app_r in Hi by lia.
  destruct new as [|g [|]]; [done| |simpl in Hl; lia].
  destruct (i - length old)%nat as [|j] eqn:Ej; [|done]. simpl in Hi. injection Hi as ->.
  destruct C2 as [Eg En]. simpl in En. split_and!; try done. lia.
Qed.

(** When the last flight has been submitted, all have. *)
Lemma all_sent c :
  conn_core cfg c ->
  match last (flights c) with Some f => transmissions f =? 0 | None => false end = false ->
  Forall (fun f => 0 < transmissions f) (flights c) /\ send_next c = send_sent c
  /\ bytes_in_flight c = span (flights c).
Proof.
  intros I Hlast. destruct (inflight_span cfg Hcfg c I) as
    (old & new & E & Ei & Ho & Hn & Hl & C1 & C2 & _).
  destruct new as [|g [|]]; [| |simpl in Hl; lia].
  - rewrite app_nil_r in E. rewrite E. simpl in C2. by split_and!.
  - rewrite E, last_snoc in Hlast. apply Forall_cons in Hn as [Hg _]. bools. lia.
Qed.

Lemma start_flight_core c flags payload p now :
  conn_core cfg c ->
  Forall (fun f => 0 < transmissions f) (flights c) -> send_next c = send_sent c ->
  zlen (flights c) < max_inflight_segments cfg ->
  flight_ok cfg (mkFlight (send_next c) flags payload now None 0 (rto c) p true) ->
  send_buffered c + zlen payload <= send_capacity cfg ->
  conn_core cfg (start_flight c flags payload p now).
Proof.
  intros I Ha En Hc Hf Hb. set (f := mkFlight _ _ _ _ _ _ _ _ _) in *.
  assert (split_ok (send_una c) (send_sent c) (fl_end f) (flights c ++ [f])) as Hs.
  { destruct (inflight_span cfg Hcfg c I) as (old & new & E & _ & Ho & Hn & Hl & C1 & C2 & _).
    assert (new = []) as ->.
    { destruct new as [|g new]; [done|]. rewrite E in Ha. apply Forall_app in Ha as [_ Ha].
      apply Forall_cons in Ha as [Ha _]. apply Forall_cons in Hn as [Hn _]. lia. }
    rewrite app_nil_r in E. rewrite E. exists old, [f]. split_and!; try done.
    by apply Forall_singleton. }
  unfold start_flight. fold f. destruct I. unfold send_buffered in *.
  constructor; simpl; try done.
  - apply Forall_app. split; [done|]. by apply Forall_singleton.
  - rewrite payloads_app, zlen_app. unfold payloads at 2. simpl. rewrite app_nil_r. lia.
  - unfold send_buffered. simpl. lia.
  - rewrite zlen_app. unfold zlen at 2. simpl. lia.
Qed.

(** The restart of the congestion window after an idle period. *)
Lemma idle_restart_inv c b :
  conn_inv cfg c ->
  let c' := if b : bool
            then c <| cwnd ::= fun w => Z.min w (initial_cwnd c cfg) |> <| congestion_credit := 0 |>
            else c in
  conn_inv cfg c' /\ rcv_same c c' /\ flights c' = flights c /\ queued c' = queued c
  /\ send_next c' = send_next c /\ send_sent c' = send_sent c /\ state c' = state c
  /\ send_buffered c' = send_buffered c /\ rto c' = rto c.
Proof.
  intros I. destruct b; [|done]. cbv zeta. split; [|done].
  pose proof (initial_cwnd_range cfg Hcfg c I). pose proof (inv_cwnd _ _ I).
  destruct I as [[] Ph]. split; [constructor|]; simpl; try done. lia.
Qed.

Lemma data_flight_ok c payload p now q :
  conn_core cfg c -> payload <> [] -> bytes_ok payload -> zlen payload <= cfg_mss cfg ->
  let f := mkFlight q (Z.lor ACK PSH) payload now None 0 (rto c) p true in
  flight_ok cfg f /\ data_flight f.
Proof.
  intros I Hp Hb Hl f. assert (data_flight f) by done. split; [|done].
  constructor; simpl; try done; [by left|apply I].
Qed.

Lemma fin_flight_ok c now q :
  conn_core cfg c ->
  let f := mkFlight q (Z.lor FIN ACK) [] now None 0 (rto c) false true in
  flight_ok cfg f /\ fin_flight f.
Proof.
  intros I f. pose proof (cfg_mss_ok _ Hcfg).
  assert (fin_flight f) by done. split; [|done].
  constructor; simpl; try done; [by right; right|constructor|apply I|].
  rewrite zlen_nil. lia.
Qed.

(** Taking [n] bytes from the queue into a new flight. *)
Lemma segment_inv c n p now :
  conn_inv cfg c -> can_send (state c) = true ->
  Forall (fun f => 0 < transmissions f) (flights c) -> send_next c = send_sent c ->
  zlen (flights c) < max_inflight_segments cfg ->
  0 < n <= zlen (queued c) -> n <= cfg_mss cfg ->
  let c' := start_flight (c <| queued ::= drop (Z.to_nat n) |>) (Z.lor ACK PSH)
              (take (Z.to_nat n) (queued c)) p now in
  conn_inv cfg c' /\ rcv_same c c' /\ send_sent c' = send_sent c /\ state c' = state c.
Proof.
  intros I Hst Ha En Hc Hn Hm c'. pose proof (inv_buffered cfg c I) as Hb.
  assert (take (Z.to_nat n) (queued c) <> []) as Hne.
  { intros E. assert (zlen (take (Z.to_nat n) (queued c)) = 0) as Hz by (by rewrite E).
    rewrite zlen_take in Hz. lia. }
  assert (bytes_ok (take (Z.to_nat n) (queued c))) as Hbt by apply bytes_take, (inv_queued _ _ I).
  assert (zlen (take (Z.to_nat n) (queued c)) = n) as Hz by (rewrite zlen_take; lia).
  destruct (data_flight_ok c (take (Z.to_nat n) (queued c)) p now (send_next c)) as [Fo Fd];
    [apply I|done|done|lia|].
  split; [split|].
  - apply start_flight_core; try done.
    + destruct I as [[] ?]. unfold send_buffered in *. constructor; simpl; try done.
      * unfold send_buffered in *. simpl. rewrite zlen_drop. lia.
      * by apply bytes_drop.
    + unfold send_buffered in *. simpl. rewrite zlen_drop, Hz. lia.
  - pose proof (inv_phase _ _ I) as Ph. unfold phase_ok in *. simpl.
    destruct (state c); try done; rewrite Forall_app; repeat split; try apply Ph;
      by apply Forall_singleton.
  - split; [|done]. unfold rcv_same. split_and!; try done.
    unfold pending. simpl. rewrite payloads_app. unfold payloads at 2. simpl.
    by rewrite app_nil_r, <- app_assoc, take_drop.
Qed.

Ltac keep := split; [assumption|split; [assumption || done|split; [assumption || done|by left]]].

Lemma prepare_spec c now :
  conn_inv cfg c ->
  conn_inv cfg (prepare c now cfg) /\ rcv_same c (prepare c now cfg)
  /\ send_sent (prepare c now cfg) = send_sent c
  /\ (state (prepare c now cfg) = state c \/ state (prepare c now cfg) = FinWait1
      \/ state (prepare c now cfg) = LastAck).
Proof.
  intros I. pose proof (inv_phase _ _ I) as Ph. pose proof (inv_core _ _ I) as Ic.
  unfold prepare. destruct (_ || _) eqn:E; [keep|].
  apply orb_false_iff in E as [E El]. apply orb_false_iff in E as [Est Ec].
  apply negb_false_iff in Est. apply Z.leb_gt in Ec.
  destruct (all_sent c Ic El) as (Ha & En & Eb).
  destruct (negb (zlen (queued c) =? 0)) eqn:Eq; bools.
  - cbv zeta.
    match goal with |- context [if bool_decide _ && ?b then _ else _] =>
      set (idle := bool_decide (flights c = []) && b) end.
    pose proof (idle_restart_inv c idle I) as X. cbv zeta in X.
    match goal with |- context [if idle then ?x else c] => set (c1 := if idle then x else c) end.
    change (if idle then _ else c) with c1 in X. clearbody c1.
    destruct X as (I1 & R1 & F1 & Q1 & N1 & S1 & St1 & B1 & T1).
    pose proof (send_mss_range cfg Hcfg c1 I1).
    match goal with |- context [if ?n =? 0 then _ else _] => set (k := n) end.
    destruct (k =? 0) eqn:Ek; [keep|]. bools.
    assert (0 < k <= zlen (queued c1) /\ k <= cfg_mss cfg) as [Hk1 Hk2].
    { revert Ek. unfold k. rewrite Q1. set (av := if (peer_window c1 =? 0) && _ then 1 else _).
      assert (0 <= av) by (unfold av; destruct (_ && bool_decide (flights c1 = [])); lia).
      pose_zlen. lia. }
    destruct (segment_inv c1 k ((peer_window c1 =? 0) && bool_decide (flights c1 = [])) now I1)
      as (I2 & R2 & S2 & St2); [by rewrite St1|by rewrite F1|congruence|by rewrite F1|done|done|].
    split; [exact I2|]. split; [by eapply rcv_same_trans|]. split; [by rewrite S2, S1|].
    left. by rewrite St2.
  - destruct (bool_decide _ && write_closed c) eqn:Ew; [|keep].
    apply andb_true_iff in Ew as [Ef Ew]. apply bool_decide_eq_true in Ef.
    destruct (0 <? peer_window c).
    + destruct (fin_flight_ok c now (send_next c) Ic) as [Fo Ff].
      pose proof (inv_buffered cfg c Ic). apply zlen_zero_nil in Eq.
      split; [split|].
      * assert (conn_core cfg (start_flight c (Z.lor FIN ACK) [] false now)) as I1.
        { apply start_flight_core; try done. rewrite zlen_nil. lia. }
        exact (core_state _ _ I1).
      * unfold phase_ok in *. simpl. rewrite Ef, Eq, Ew. simpl.
        destruct (state c); try done; simpl; naive_solver.
      * split; [|split; [done|simpl; destruct (bool_decide _); by eauto]].
        unfold rcv_same. split_and!; try done. unfold pending. simpl. by rewrite Ef.
    + destruct (_ <=? _); [|keep]. split; [|split; [done|split; [done|by left]]].
      clear -I. destruct I as [[] ?]. by split; [constructor|].
Qed.

Lemma select_flight_spec c now i :
  select_flight c now = Some i -> exists f, 0 <= i /\ flights c !! Z.to_nat i = Some f.
Proof.
  unfold select_flight. destruct (flights c) as [|f fs] eqn:E; [done|].
  destruct (due f now); [intros [= <-]; by exists f|].
  destruct (last (f :: fs)) as [l|] eqn:El; [|done].
  destruct (_ =? 0); [|done]. intros [= <-]. exists l.
  rewrite last_lookup in El. simpl in El. rewrite zlen_cons. unfold zlen.
  split; [lia|]. by replace (Z.to_nat (1 + Z.of_nat (length fs) - 1)) with (length fs) by lia.
Qed.

(** How many bytes may be in flight after a first submission: both windows, or the one
    byte of a zero-window probe. *)
Definition send_limit (c : Connection) : Z :=
  if (peer_window c =? 0) && (bytes_in_flight c =? 0) then 1 else Z.min (cwnd c) (peer_window c).

Definition within_limit (c : Connection) (f : Flight) : Prop :=
  transmissions f = 0 -> has (fl_flags f) SYN = false ->
  bytes_in_flight c + fl_len f <= send_limit c.

Lemma insert_last {A} (l : list A) x y i :
  i = length l -> <[i := y]> (l ++ [x]) = l ++ [y].
Proof. intros ->. by rewrite insert_app_r_alt, Nat.sub_diag by lia. Qed.

(** Shrinking the prepared flight to [n] bytes: the rest returns to the queue. *)
Lemma shrink_inv c old f n p :
  conn_inv cfg c -> flights c = old ++ [f] -> transmissions f = 0 -> data_flight f ->
  0 < n <= zlen (fl_payload f) ->
  let f' := f <| fl_payload ::= take (Z.to_nat n) |> <| persist := p |> in
  let c' := c <| queued ::= app (drop (Z.to_nat n) (fl_payload f)) |>
              <| flight_payload ::= fun m => m - wsub32 (send_next c) (fl_end f') |>
              <| send_next := fl_end f' |> <| flights := old ++ [f'] |> in
  conn_inv cfg c' /\ rcv_same c c' /\ data_flight f' /\ fl_len f' = n.
Proof.
  intros I E Ht Hd Hn f' c'. pose proof (inv_core _ _ I) as Ic.
  destruct (unsent_last c (length old) f Ic) as (old2 & E2 & El & Ho & C1 & Es & En & Eb);
    [by rewrite E, list_lookup_middle|done|].
  assert (old2 = old) as -> by (rewrite E in E2; by apply app_inj_tail in E2 as [-> _]).
  assert (fl_payload f' = take (Z.to_nat n) (fl_payload f)) as Ep by done.
  assert (zlen (fl_payload f') = n) as Hz by (rewrite Ep, zlen_take; lia).
  assert (data_flight f') as Hd'.
  { destruct Hd as (D1 & D2 & D3). split; [done|]. split; [done|]. intros E'.
    rewrite E', zlen_nil in Hz. lia. }
  pose proof (fl_len_data f' Hd') as Hl'. pose proof (fl_len_data f Hd) as Hl.
  pose proof (inv_flights _ _ I) as F. rewrite E in F. apply Forall_app in F as [Fo Ff].
  apply Forall_cons in Ff as [Ff _].
  pose proof (fo_size _ _ Ff) as Hsz. pose proof (cfg_mss_ok _ Hcfg).
  assert (wsub32 (send_next c) (fl_end f') = zlen (drop (Z.to_nat n) (fl_payload f))) as Ew.
  { rewrite En, !fl_end_spec. change (fl_sequence f') with (fl_sequence f).
    unfold wsub32. rewrite u32_sub_l, u32_sub_r, zlen_drop, Hl, Hl', Hz.
    rewrite u32_small; [lia|]. unfold W32, U16MAX in *. lia. }
  assert (payloads (old ++ [f']) ++ drop (Z.to_nat n) (fl_payload f) = payloads (flights c)) as Epl.
  { rewrite E, !payloads_app, <- app_assoc. f_equal. unfold payloads. simpl.
    by rewrite !app_nil_r, take_drop. }
  pose proof (f_equal zlen Epl) as Ezl. rewrite zlen_app in Ezl.
  split; [|split; [|split; [done|lia]]].
  - split.
    + unfold c'. rewrite Ew. destruct Ic. unfold send_buffered in *. constructor; simpl; try done.
      * exists old, [f']. split_and!; try done. by apply Forall_singleton.
      * apply Forall_app. split; [done|]. apply Forall_singleton. clear -Ff Hd' Hz Hn.
        destruct Ff. constructor; simpl; try done; [by left|by apply bytes_take|].
        change (zlen (fl_payload f') <= cfg_mss cfg). lia.
      * lia.
      * unfold send_buffered. simpl. rewrite zlen_app. lia.
      * rewrite E in inv_count. rewrite zlen_app in *. done.
      * rewrite bytes_app. split; [|done]. apply bytes_drop. apply Ff.
    + pose proof (inv_phase _ _ I) as Ph. unfold phase_ok in *. simpl. rewrite E in Ph.
      destruct (state c); try (rewrite Forall_app, Forall_singleton in * ; naive_solver).
      all: destruct Ph as (Hq & X); exfalso.
      all: clear -X Hd; unfold syn_flight, fin_flight, data_flight in *.
      all: destruct old as [|? [|]]; naive_solver.
  - unfold rcv_same. split_and!; try done. unfold pending. simpl.
    by rewrite app_assoc, Epl.
Qed.

(** Flights that agree on position, flags and payload; the send count may differ. *)
Definition same_kind (f g : Flight) : Prop :=
  fl_sequence g = fl_sequence f /\ fl_flags g = fl_flags f /\ fl_payload g = fl_payload f.

Lemma shape_kind fs gs : Forall2 same_shape fs gs -> Forall2 same_kind fs gs.
Proof. intros S. eapply Forall2_impl; [exact S|]. unfold same_shape, same_kind. tauto. Qed.

Lemma kind_single (P : Flight -> Prop) fs gs :
  (forall f g, same_kind f g -> P f -> P g) -> Forall2 same_kind fs gs ->
  (exists f, fs = [f] /\ P f) -> exists g, gs = [g] /\ P g.
Proof.
  intros HP S (f & -> & Pf). inversion S as [|? g ? ? Sg Sn]; subst. inversion Sn; subst. eauto.
Qed.

(** The phase only depends on the kinds of the flights. *)
Lemma phase_kind c c' :
  phase_ok c -> Forall2 same_kind (flights c) (flights c') -> state c' = state c ->
  queued c' = queued c -> peer_eof c' = peer_eof c -> write_closed c' = write_closed c ->
  phase_ok c'.
Proof.
  intros Ph S Es Eq Ee Ew. unfold phase_ok in *. rewrite Es, Eq, Ee, Ew.
  assert (forall P : Flight -> Prop, (forall f g, same_kind f g -> P f -> P g) ->
    Forall P (flights c) -> Forall P (flights c')) as Hall.
  { intros P HP F. clear -S HP F. induction S; [done|]. apply Forall_cons in F as [? ?].
    constructor; eauto. }
  assert (forall f g, same_kind f g -> data_flight f -> data_flight g) as Kd
    by (unfold data_flight; by intros f g (_ & -> & ->)).
  assert (forall f g, same_kind f g -> syn_flight f -> syn_flight g) as Ks
    by (unfold syn_flight; by intros f g (_ & -> & ->)).
  assert (forall f g, same_kind f g -> fin_flight f -> fin_flight g) as Kf
    by (unfold fin_flight; by intros f g (_ & -> & ->)).
  pose proof (kind_single _ _ _ Ks S) as Hs. pose proof (kind_single _ _ _ Kf S) as Hf.
  pose proof (Hall _ Kd) as Hd.
  assert (flights c = [] -> flights c' = []) as Hn by (intros E; rewrite E in S; by inversion S).
  destruct (state c); intuition.
Qed.

(** Replacing one flight by one of the same shape. *)
Lemma reshape_inv c old f new f' :
  conn_inv cfg c -> flights c = old ++ f :: new -> same_shape f f' ->
  initial_rto cfg <= fl_rto f' <= max_rto cfg ->
  conn_inv cfg (c <| flights := old ++ f' :: new |>)
  /\ rcv_same c (c <| flights := old ++ f' :: new |>).
Proof.
  intros I E S R. pose proof (core_rtos cfg c I) as Hr.
  assert (Forall2 same_shape (flights c) (old ++ f' :: new)) as Sh.
  { rewrite E. apply Forall2_app; [apply shape_refl|]. constructor; [done|apply shape_refl]. }
  split; [split|].
  - apply core_shape; [apply I|done|]. rewrite E in Hr. rewrite Forall_app, Forall_cons in *.
    naive_solver.
  - apply (phase_kind c); try done; [apply I|]. by apply shape_kind.
  - unfold rcv_same. split_and!; try done. unfold pending. simpl. by rewrite (shape_payloads _ _ Sh).
Qed.

Lemma bytes_in_flight_ge0 c : 0 <= bytes_in_flight c.
Proof. apply u32_range. Qed.

Lemma recheck_spec c i f now :
  conn_inv cfg c -> 0 <= i -> flights c !! Z.to_nat i = Some f ->
  exists r c', recheck c i now = Ok (r, c') /\ conn_inv cfg c' /\ rcv_same c c'
    /\ send_sent c' = send_sent c /\ state c' = state c
    /\ (r = None \/ r = Some i /\ exists f', flights c' !! Z.to_nat i = Some f'
          /\ within_limit c' f').
Proof.
  intros I Hi Hf. pose proof (inv_core _ _ I) as Ic. unfold recheck.
  rewrite (get_at_ok _ _ _ Hi Hf). cbn [obind].
  destruct ((transmissions f =? 0) && negb (has (fl_flags f) SYN)) eqn:E0.
  2:{ exists (Some i), c. split_and!; try done. right. split; [done|]. exists f. split; [done|].
      intros H1 H2. rewrite H1, H2 in E0. done. }
  apply andb_true_iff in E0 as [Et Esyn]. apply Z.eqb_eq in Et. apply negb_true_iff in Esyn.
  destruct (unsent_last c _ f Ic Hf Et) as (old & E & El & Ho & C1 & Es & En & Eb).
  cbv zeta. set (probing := (peer_window c =? 0) && (bytes_in_flight c =? 0)).
  set (av := if probing then 1 else Z.max 0 (Z.min (cwnd c) (peer_window c) - bytes_in_flight c)).
  assert (0 <= av) by (unfold av; destruct probing; lia).
  destruct ((av =? 0) || probing && has (fl_flags f) FIN) eqn:E1.
  { exists None. eexists. split; [reflexivity|].
    assert (conn_inv cfg (c <| probe_pending := true |>)).
    { clear -I. destruct I as [[] ?]. by split; [constructor|]. }
    destruct (probing && (window_probe_at c <=? now)); (split; [assumption|]; split; [done|]; split; [done|]; split; [done|]; by left). }
  apply orb_false_iff in E1 as [Eav Epf]. apply Z.eqb_neq in Eav.
  assert (av <= send_limit c - bytes_in_flight c) as Hav.
  { unfold av, send_limit in *. fold probing. destruct probing eqn:Ep; [|lia].
    unfold probing in Ep. bools. lia. }
  pose proof (inv_flights _ _ I) as F. rewrite E in F. apply Forall_app in F as [_ F].
  apply Forall_cons in F as [Ff _]. pose proof (fl_len_pos _ _ Ff).
  assert (zlen (flights c) = zlen old + 1) as Hlen by (rewrite E; zl).
  destruct (av <? zlen (fl_payload f)) eqn:E2; bools.
  - assert (data_flight f) as Hd.
    { destruct (fo_kind _ _ Ff) as [|[(_ & _ & X)|(_ & _ & X)]]; [done|..];
        rewrite X, zlen_nil in E2; lia. }
    destruct (shrink_inv c old f av probing I E Et Hd ltac:(lia)) as (I' & R' & Hd' & Hl').
    rewrite set_at_ok by (simpl; unfold zlen in *; lia). cbn [obind].
    eexists (Some i), _. split; [simpl; rewrite E, insert_last by done; reflexivity|].
    split; [exact I'|]. split; [exact R'|]. split; [done|]. split; [done|]. right. split; [done|].
    eexists. split; [simpl; by rewrite El, list_lookup_middle|].
    intros _ _. unfold send_limit, bytes_in_flight in *. simpl.
    change (bytes_in_flight c + fl_len (f <| fl_payload ::= take (Z.to_nat av) |> <| persist := probing |>)
            <= send_limit c). unfold send_limit, bytes_in_flight. lia.
  - rewrite set_at_ok by (unfold zlen in *; lia). cbn [obind].
    destruct (reshape_inv c old f [] (f <| persist := probing |>) I E) as [I' R']; [done|apply Ff|].
    eexists (Some i), _. split; [rewrite E, insert_last by done; reflexivity|].
    split; [exact I'|]. split; [exact R'|]. split; [done|]. split; [done|]. right. split; [done|].
    eexists. split; [simpl; by rewrite El, list_lookup_middle|].
    intros _ _. change (bytes_in_flight c + fl_len f <= send_limit c).
    destruct (fo_kind _ _ Ff) as [D|C].
    + rewrite (fl_len_data f D). lia.
    + assert (fl_len f = 1) by (apply fl_len_control; tauto). lia.
Qed.

(** ** After the device has accepted a segment *)
Lemma kind_refl fs : Forall2 same_kind fs fs.
Proof. induction fs; by constructor. Qed.

Lemma retransmit_spec c f inflight now :
  conn_inv cfg c -> flight_ok cfg f ->
  let '(c', f') := retransmit c f inflight (send_mss c cfg) now cfg in
  conn_inv cfg c' /\ rcv_same c c' /\ flights c' = flights c /\ send_sent c' = send_sent c
  /\ same_shape f f' /\ flight_ok cfg f'.
Proof.
  intros I Hf. pose proof (inv_core _ _ I) as Ic. pose proof (send_mss_range cfg Hcfg c Ic).
  pose proof (cfg_cwnd _ Hcfg). pose proof (cfg_rto _ Hcfg). pose proof (cfg_max_rto _ Hcfg).
  pose proof (fo_rto _ _ Hf) as Hr.
  assert (initial_rto cfg <= Z.min (dur_mul (fl_rto f) 2) (max_rto cfg) <= max_rto cfg) as Hr'.
  { unfold dur_mul, SECOND in *. lia. }
  set (f' := f <| fl_rto ::= fun r => Z.min (dur_mul r 2) (max_rto cfg) |> <| rtt_eligible := false |>).
  assert (flight_ok cfg f') as Hf' by (by eapply shape_ok; [|exact Hr'|exact Hf]).
  unfold retransmit. cbv zeta. fold f'. destruct (negb (persist f') && _).
  - destruct (transmissions f' =? 1); (split; [|done]).
    all: destruct I as [[] Ph]; split; [constructor|]; simpl; try done; lia.
  - split; [|done]. destruct I as [[] Ph]. by split; [constructor|].
Qed.

(** Positions of the flights of a chain. *)
Lemma chain_lookup s fs e i f :
  0 <= s < W32 -> chain s fs e -> fs !! i = Some f ->
  fl_sequence f = u32 (s + span (take i fs)) /\ fl_end f = u32 (s + span (take i fs) + fl_len f).
Proof.
  intros Hs C E. rewrite <- (take_drop_middle _ _ _ E) in C.
  apply chain_app in C as (m & C1 & C2 & _). rewrite (chain_end _ _ _ Hs C1) in C2.
  split; [done|]. by rewrite fl_end_spec, C2, u32_add_l.
Qed.

(** [send_sent] after flight [f] has been submitted. *)
Definition sent_after (c : Connection) (f : Flight) : Z :=
  if transmissions f =? 0 then fl_end f else send_sent c.

(** The test [before(send_sent, flight.end())] recognises a first submission. *)
Lemma sent_after_test c i f :
  conn_core cfg c -> flights c !! i = Some f ->
  before (send_sent c) (fl_end f) = (transmissions f =? 0).
Proof.
  intros I Hi. pose proof (inv_flights _ _ I) as F. rewrite Forall_lookup in F.
  pose proof (fl_len_pos _ _ (F i f Hi)) as Hl. pose proof (fo_sends _ _ (F i f Hi)) as Ht.
  pose proof (inv_una _ _ I) as Hu.
  pose proof (inv_span cfg Hcfg c I) as Hsp.
  destruct (transmissions f =? 0) eqn:E; bools.
  - destruct (unsent_last c i f I Hi E) as (old & Ef & _ & _ & C1 & Es & _).
    rewrite fl_end_spec, Es, (chain_end _ _ _ Hu C1), u32_add_l.
    rewrite Ef, span_app in Hsp. simpl in Hsp.
    assert (0 <= span old) by (apply (span_nonneg cfg); apply Forall_forall; intros g Hg;
      pose proof (inv_flights _ _ I) as F'; rewrite Ef in F'; apply Forall_app in F' as [F' _];
      rewrite Forall_forall in F'; by apply F').
    rewrite <- Z.add_assoc, before_offset by (unfold HALF; lia). apply Z.ltb_lt. lia.
  - destruct (inflight_span cfg Hcfg c I) as (old & new & Ef & _ & Ho & Hn & _ & C1 & _ & Es & Hs & Fo & _).
    rewrite Ef in Hi. destruct (decide (i < length old)%nat) as [Hlt|Hge].
    + rewrite lookup_app_l in Hi by done.
      destruct (chain_lookup _ _ _ _ _ Hu C1 Hi) as [_ Ee]. rewrite Ee, Es.
      rewrite <- (take_drop_middle _ _ _ Hi) in Hs, Fo |- * at 1.
      rewrite span_app in *. simpl in *. apply Forall_app in Fo as [Fo1 Fo2].
      apply Forall_cons in Fo2 as [_ Fo2]. pose proof (span_nonneg _ _ Fo1).
      pose proof (span_nonneg _ _ Fo2).
      rewrite <- Z.add_assoc, before_offset by lia. apply Z.ltb_ge. lia.
    + rewrite lookup_app_r in Hi by lia. rewrite Forall_lookup in Hn. by specialize (Hn _ _ Hi).
Qed.

(** The core invariant after one flight has been counted as submitted. *)
Lemma submit_core c i f g :
  conn_core cfg c -> flights c !! i = Some f -> same_kind f g -> 0 < transmissions g ->
  flight_ok cfg g ->
  conn_core cfg (c <| flights := <[i := g]> (flights c) |> <| send_sent := sent_after c f |>).
Proof.
  intros I Hi (K1 & K2 & K3) Hg Hok.
  assert (fl_end g = fl_end f) as Ee by (unfold fl_end; congruence).
  pose proof (lookup_lt_Some _ _ _ Hi) as Hlt.
  assert (payloads (<[i := g]> (flights c)) = payloads (flights c)) as Ep.
  { rewrite <- (take_drop_middle _ _ _ Hi) at 2. rewrite insert_take_drop by done.
    rewrite !payloads_app. f_equal. unfold payloads. rewrite !bind_cons. by rewrite K3. }
  assert (split_ok (send_una c) (sent_after c f) (send_next c) (<[i := g]> (flights c))) as Hs.
  { unfold sent_after. destruct (transmissions f =? 0) eqn:E; bools.
    - destruct (unsent_last c i f I Hi E) as (old & Ef & El & Ho & C1 & Es & En & _).
      rewrite Ef, insert_last by done. exists (old ++ [g]), []. rewrite app_nil_r.
      split_and!; try done.
      + apply Forall_app. split; [done|]. by apply Forall_singleton.
      + simpl. lia.
      + apply chain_app. exists (send_sent c). split; [done|]. simpl. by rewrite K1, Ee.
    - destruct (inv_split _ _ I) as (old & new & Ef & Ho & Hn & Hl & C1 & C2).
      rewrite Ef in Hi |- *. destruct (decide (i < length old)%nat) as [Hlo|Hge].
      + rewrite lookup_app_l in Hi by done. rewrite insert_app_l by done.
        exists (<[i := g]> old), new. split_and!; try done.
        * by apply Forall_insert.
        * rewrite <- (take_drop_middle _ _ _ Hi) in C1. rewrite insert_take_drop by done.
          apply chain_app in C1 as (m & C1 & C1' & C1''). apply chain_app. exists m.
          split; [done|]. simpl. by rewrite K1, Ee.
      + rewrite lookup_app_r in Hi by lia. rewrite Forall_lookup in Hn. by specialize (Hn _ _ Hi). }
  pose proof (inv_flights _ _ I) as F.
  destruct I. constructor; simpl; try done.
  - by apply Forall_insert.
  - by rewrite Ep.
  - unfold zlen in *. by rewrite length_insert.
Qed.

Lemma kind_insert (fs : list Flight) i f g :
  fs !! i = Some f -> same_kind f g -> Forall2 same_kind fs (<[i := g]> fs).
Proof.
  intros Hi K. rewrite insert_take_drop by (by eapply lookup_lt_Some).
  rewrite <- (take_drop_middle _ _ _ Hi) at 1.
  apply Forall2_app; [apply kind_refl|]. constructor; [done|apply kind_refl].
Qed.

Lemma kind_payloads fs gs : Forall2 same_kind fs gs -> payloads gs = payloads fs.
Proof.
  induction 1 as [|f g fs gs (_ & _ & E) _ IH]; [done|]. unfold payloads in *.
  by rewrite !bind_cons, E, IH.
Qed.

(** Every RTT sample is suppressed after a retransmission. *)
Lemma karn_inv c :
  conn_inv cfg c ->
  let c' := c <| flights ::= fmap (fun f => f <| rtt_eligible := false |>) |> in
  conn_inv cfg c' /\ rcv_same c c'.
Proof.
  intros I c'. pose proof (core_rtos cfg c I) as Hr.
  assert (Forall2 same_shape (flights c) ((fun f => f <| rtt_eligible := false |>) <$> flights c)) as S
    by (by apply shape_fmap).
  split; [split|].
  - apply (core_shape cfg c); [apply I|done|]. apply Forall_fmap. eapply Forall_impl; [exact Hr|]. done.
  - apply (phase_kind c); try done; [apply I|]. by apply shape_kind.
  - unfold rcv_same. split_and!; try done.
    exact (f_equal (fun l => l ++ queued c) (shape_payloads _ _ S)).
Qed.

Lemma submit_inv c i f g :
  conn_inv cfg c -> flights c !! i = Some f -> same_kind f g -> 0 < transmissions g ->
  flight_ok cfg g ->
  let c' := c <| flights := <[i := g]> (flights c) |> <| send_sent := sent_after c f |> in
  conn_inv cfg c' /\ rcv_same c c'.
Proof.
  intros I Hi K Hg Hok c'. pose proof (kind_insert _ _ _ _ Hi K) as S.
  split; [split|].
  - by apply submit_core; [apply I|..].
  - apply (phase_kind c); try done. apply I.
  - unfold rcv_same. split_and!; try done. unfold pending. simpl. by rewrite (kind_payloads _ _ S).
Qed.

Lemma flight_submitted_spec c i f now :
  conn_inv cfg c -> 0 <= i -> flights c !! Z.to_nat i = Some f ->
  exists c', flight_submitted c i now cfg = Ok (0 <? transmissions f, c')
    /\ conn_inv cfg c' /\ rcv_same c c' /\ send_sent c' = sent_after c f
    /\ (transmissions f = 0 -> cwnd c' = cwnd c).
Proof.
  intros I Hi Hf. unfold flight_submitted. rewrite (get_at_ok _ _ _ Hi Hf). cbn [obind].
  pose proof (inv_flights _ _ I) as F. rewrite Forall_lookup in F. specialize (F _ _ Hf).
  pose proof (lookup_lt_Some _ _ _ Hf) as Hlt.
  assert (exists c1 f1, (if 0 <? transmissions f
      then retransmit c f (bytes_in_flight c) (send_mss c cfg) now cfg else (c, f)) = (c1, f1)
    /\ conn_inv cfg c1 /\ rcv_same c c1 /\ flights c1 = flights c /\ send_sent c1 = send_sent c
    /\ same_shape f f1 /\ flight_ok cfg f1 /\ (transmissions f = 0 -> cwnd c1 = cwnd c))
    as (c1 & f1 & -> & I1 & R1 & F1 & S1 & Sh & Ok1 & W1).
  { destruct (0 <? transmissions f) eqn:Et; [|by exists c, f]. bools.
    pose proof (retransmit_spec c f (bytes_in_flight c) now I F) as X.
    destruct (retransmit _ _ _ _ _ _) as [c1 f1]. exists c1, f1. split; [done|].
    destruct X as (? & ? & ? & ? & ? & ?). split_and!; try done. lia. }
  rewrite F1. set (g := f1 <| transmissions ::= _ |> <| last_sent := _ |>).
  rewrite set_at_ok by (unfold zlen; lia). cbn [obind].
  pose proof Sh as (E1 & E2 & E3 & E4). pose proof (fo_sends _ _ Ok1) as Ht.
  assert (same_kind f g) as Kg by done.
  assert (0 < transmissions g) as Tg by (unfold g, U32MAX in *; simpl; lia).
  assert (flight_ok cfg g) as Okg.
  { destruct Ok1. constructor; try done. unfold g, U32MAX in *; simpl; lia. }
  assert (flights c1 !! Z.to_nat i = Some f) as Hf1 by (by rewrite F1).
  destruct (submit_inv c1 _ f g I1 Hf1 Kg Tg Okg) as [I2 R2].
  pose proof (sent_after_test c1 _ f (inv_core _ _ I1) Hf1) as B.
  assert (fl_end g = fl_end f) as Eg by (destruct Kg as (? & ? & ?); unfold fl_end; congruence).
  rewrite F1 in I2, R2.
  set (c2 := c1 <| flights := <[Z.to_nat i := g]> (flights c) |>).
  assert ((if before (send_sent c2) (fl_end g) then c2 <| send_sent := fl_end g |> else c2)
    = c1 <| flights := <[Z.to_nat i := g]> (flights c) |> <| send_sent := sent_after c1 f |>) as ->.
  { change (send_sent c2) with (send_sent c1). rewrite Eg, B. unfold sent_after.
    by destruct (transmissions f =? 0). }
  set (c3 := c1 <| flights := _ |> <| send_sent := _ |>) in *.
  assert (send_sent c3 = sent_after c f) as E5 by (unfold c3, sent_after; simpl; by rewrite S1).
  assert (cwnd c3 = cwnd c1) as W3 by done.
  clearbody c3. clear c2.
  set (c4 := if bool_decide (fl_payload g = []) then c3 else _).
  assert (conn_inv cfg c4 /\ rcv_same c c4 /\ send_sent c4 = sent_after c f /\ cwnd c4 = cwnd c3)
    as (I4 & R4 & S4 & W4).
  { pose proof (rcv_same_trans _ _ _ R1 R2) as R3. unfold c4. destruct (bool_decide _); [done|].
    split; [|done]. clear -I2. destruct I2 as [[] ?]. by split; [constructor|]. }
  clearbody c4.
  assert (transmissions f = 0 -> cwnd c4 = cwnd c) as W by (intros; rewrite W4, W3; by apply W1).
  destruct (0 <? transmissions f); eexists; (split; [reflexivity|]); [|done].
  destruct (karn_inv c4 I4) as [I5 R5].
  split; [done|]. split; [by eapply rcv_same_trans|done].
Qed.

Lemma submitted_spec c fi flags now :
  conn_inv cfg c ->
  (forall i, fi = Some i -> 0 <= i /\ exists f, flights c !! Z.to_nat i = Some f) ->
  exists b c', submitted c fi flags now cfg = Ok (b, c') /\ conn_inv cfg c' /\ rcv_same c c'
    /\ (forall i f, fi = Some i -> flights c !! Z.to_nat i = Some f ->
          b = (0 <? transmissions f) /\ send_sent c' = sent_after c f
          /\ (transmissions f = 0 -> cwnd c' = cwnd c))
    /\ (fi = None -> b = false /\ send_sent c' = send_sent c).
Proof.
  intros I Hi. unfold submitted.
  assert (exists b c1, match fi with
      | Some index => flight_submitted c index now cfg | None => Ok (false, c) end = Ok (b, c1)
    /\ conn_inv cfg c1 /\ rcv_same c c1
    /\ (forall i f, fi = Some i -> flights c !! Z.to_nat i = Some f ->
          b = (0 <? transmissions f) /\ send_sent c1 = sent_after c f
          /\ (transmissions f = 0 -> cwnd c1 = cwnd c))
    /\ (fi = None -> b = false /\ send_sent c1 = send_sent c)) as (b & c1 & -> & I1 & R1 & H1 & H2).
  { destruct fi as [i|]; [|by exists false, c].
    destruct (Hi i eq_refl) as (Hi0 & f & Hf).
    destruct (flight_submitted_spec c i f now I Hi0 Hf) as (c1 & E & I1 & R1 & S1 & W1).
    exists (0 <? transmissions f), c1. split_and!; try done. intros j g [= <-] Hg.
    rewrite Hf in Hg. injection Hg as <-. done. }
  cbn [obind].
  set (c2 := if has flags ACK then _ else c1).
  assert (conn_inv cfg c2 /\ rcv_same c c2 /\ send_sent c2 = send_sent c1 /\ cwnd c2 = cwnd c1)
    as (I2 & R2 & S2 & W2).
  { unfold c2. destruct (has flags ACK); [|done]. split; [|done]. clear -I1.
    destruct I1 as [[] ?]. by split; [constructor|]. }
  clearbody c2.
  exists b. destruct (probe_pending c2); eexists; (split; [reflexivity|]).
  - split; [|split; [done|]].
    + clear -I2. destruct I2 as [[] ?]. by split; [constructor|].
    + simpl. by rewrite S2, W2.
  - split; [done|]. split; [done|]. by rewrite S2, W2.
Qed.

(** ** The segment that is sent *)

(** The payload of a segment is what [pending] holds at its sequence number. *)
Definition carries (c : Connection) (seg : Segment) : Prop :=
  payload seg <> [] ->
  exists off, 0 <= off /\ sequence seg = u32 (send_una c + off)
    /\ payload seg = take (length (payload seg)) (drop (Z.to_nat off) (pending c)).

(** Outstanding payload means that every flight is a data flight. *)
Lemma payload_data c f :
  phase_ok c -> f ∈ flights c -> fl_payload f <> [] -> Forall data_flight (flights c).
Proof.
  intros Ph Hf Hp. unfold phase_ok, syn_flight, fin_flight in Ph. destruct (state c); try tauto.
  all: exfalso; destruct Ph as (_ & X & _) || destruct Ph as (_ & X).
  all: try (rewrite X in Hf; by apply elem_of_nil in Hf).
  all: destruct X as (g & E & _ & _ & Eg); rewrite E in Hf;
       apply list_elem_of_singleton in Hf; by subst.
Qed.

Lemma span_data fs : Forall data_flight fs -> span fs = zlen (payloads fs).
Proof.
  induction 1 as [|f fs Hf _ IH]; [done|]. unfold payloads in *. rewrite bind_cons, zlen_app. simpl.
  by rewrite IH, (fl_len_data f Hf).
Qed.

Lemma flight_carried c i f :
  conn_inv cfg c -> flights c !! i = Some f -> fl_payload f <> [] ->
  exists off, 0 <= off /\ fl_sequence f = u32 (send_una c + off)
    /\ fl_payload f = take (length (fl_payload f)) (drop (Z.to_nat off) (pending c)).
Proof.
  intros I Hi Hp. pose proof (list_elem_of_lookup_2 _ _ _ Hi) as Hin.
  pose proof (payload_data c f (inv_phase _ _ I) Hin Hp) as D.
  destruct (inv_split _ _ I) as (old & new & E & _ & _ & _ & C1 & C2).
  assert (chain (send_una c) (flights c) (send_next c)) as C by (rewrite E; apply chain_app; eauto).
  destruct (chain_lookup _ _ _ _ _ (inv_una _ _ I) C Hi) as [Es _].
  exists (span (take i (flights c))).
  assert (Forall data_flight (take i (flights c))) as Dt by (by apply Forall_take).
  rewrite (span_data _ Dt) in *. split; [apply zlen_nonneg|]. split; [done|].
  unfold pending. rewrite <- (take_drop_middle _ _ _ Hi) at 2.
  rewrite payloads_app. unfold payloads at 3. rewrite bind_cons. unfold zlen. rewrite Nat2Z.id.
  rewrite <- !app_assoc, drop_app_length. by rewrite take_app_length.
Qed.

Lemma outgoing_spec c fi :
  conn_inv cfg c ->
  (forall i, fi = Some i -> 0 <= i /\ exists f, flights c !! Z.to_nat i = Some f) ->
  exists seg, outgoing c fi cfg = Ok seg /\ segment_ok seg /\ mss_valid seg = true
    /\ total_len seg <= mtu cfg /\ source seg = local c /\ destination seg = remote c
    /\ acknowledgment seg = receive_next c /\ window seg = advertised_window c cfg
    /\ carries c seg.
Proof.
  intros I Hi. pose proof (advertised_window_spec cfg Hcfg c I) as (_ & Hw & Hw').
  pose proof (cfg_mss_ok _ Hcfg) as Hm. pose proof (cfg_mss_mtu _ Hcfg) as Hmt.
  pose proof (cfg_mtu _ Hcfg) as Hmtu. pose proof (inv_sent cfg c I) as Hsent.
  unfold outgoing. destruct fi as [i|].
  - destruct (Hi i eq_refl) as (Hi0 & f & Hf). rewrite (get_at_ok _ _ _ Hi0 Hf). cbn [obind].
    pose proof (inv_flights _ _ I) as F. rewrite Forall_lookup in F. specialize (F _ _ Hf).
    destruct (inv_split _ _ I) as (old & new & E & _ & _ & _ & C1 & C2).
    assert (chain (send_una c) (flights c) (send_next c)) as C by (rewrite E; apply chain_app; eauto).
    destruct (chain_lookup _ _ _ _ _ (inv_una _ _ I) C Hf) as [Es _].
    pose proof (fo_size _ _ F) as Hsz.
    assert (has (fl_flags f) SYN = true -> fl_payload f = []) as Hsyn.
    { destruct (fo_kind _ _ F) as [(K & _)|[(_ & _ & K)|(_ & _ & K)]]; congruence. }
    eexists. split; [reflexivity|]. split; [constructor|]; simpl; try done; try (by apply I).
    + rewrite Es. apply u32_range.
    + apply F.
    + lia.
    + intros m. destruct (has _ SYN); [|done]. intros [= <-]. unfold W16, U16MAX in *. lia.
    + apply F.
    + unfold U16MAX in *. lia.
    + split_and!; try done.
      * unfold mss_valid. simpl. destruct (has (fl_flags f) SYN) eqn:Eh; [|done].
        by rewrite (proj2 (Z.eqb_neq _ _)) by lia.
      * unfold total_len, tcp_header_len. simpl. destruct (has (fl_flags f) SYN) eqn:Eh; [|lia].
        rewrite (Hsyn eq_refl), zlen_nil. lia.
      * intros Hp. by eapply flight_carried.
  - cbn [obind]. eexists. split; [reflexivity|].
    split; [constructor|]; simpl; try done; try (by apply I).
    + destruct (_ && _); [apply u32_range|done].
    + lia.
    + constructor.
    + split_and!; try done; [|by intros ?].
      unfold total_len, tcp_header_len. simpl. rewrite zlen_nil. lia.
Qed.
End Output.
