(* ===== verification/TcpTransmit.v ===== *)
(** * Transmission of a TCP connection over a device: proofs

    [transmit] against the [DeviceLaws] interface: it never panics, it gives back every
    frame it allocated and did not hand over, and what it hands over is the
    datagram of a segment that carries the right bytes within the windows. *)
From Stdlib Require Import ZArith Lia Bool.
From stdpp Require Import base numbers option list.
From S2P Require Import Prelude BufferPool Addr TcpWire TcpTypes Device TcpConn TcpConnInv TcpAckInv TcpInputInv TcpOutputInv.
#[local] Open Scope Z_scope.

Section Transmit.
Context {D : Type} `{DeviceLaws D}.
Context (cfg : TcpConfig) (Hcfg : config_ok cfg).

Lemma drop_frame_spec {A} (r : outcome A) c d d0 held b :
  dev_after d0 d (owned [b] ++ held) -> handle (dev_pool d0) (dev_frame_size d0) b ->
  exists d', drop_frame r c d b = (r, (c, d')) /\ dev_after d0 d' held.
Proof.
  intros (I & E1 & E2) Hb. rewrite <- E1, <- E2 in Hb.
  destruct (dev_drop_law d held b I Hb) as (d' & E & I' & E1' & E2').
  exists d'. unfold drop_frame. rewrite E. split; [done|]. unfold dev_after. intuition congruence.
Qed.

(** Building into an allocated frame keeps it a handle of the device. *)
Lemma build_handle p n b s b' :
  handle p n b -> segment_ok s -> buf_wf b' -> capacity b' = capacity b ->
  buf_pool b' = buf_pool b ->
  b' = store_packet (b <| buf_len := total_len s |>) (datagram s) -> handle p n b'.
Proof.
  intros (W & B & P) Hs W' C' P' E. split; [done|]. split.
  - rewrite E. apply store_packet_bytes; [done|]. by apply datagram_ok.
  - rewrite P', C'. done.
Qed.

(** What was handed to the device when [transmit] reports a submission. *)
Definition handed_over (c : Connection) (fi : option Z) : Prop :=
  exists seg d1 frame d2 frames, outgoing c fi cfg = Ok seg /\ as_slice frame = datagram seg
    /\ dev_send (d1, [frame]) = (Ok 1, (d2 : D, frames)).

Lemma block_inv c b : conn_inv cfg c -> conn_inv cfg (c <| device_blocked := b |>).
Proof. intros [[] ?]. by split; [constructor|]. Qed.

Definition valid_index (c : Connection) (fi : option Z) : Prop :=
  forall i, fi = Some i -> 0 <= i /\ exists f, flights c !! Z.to_nat i = Some f.

(** The outcomes of [emit] and [transmit]. *)
Record emitted (c : Connection) (fi : option Z) (r : outcome (bool * bool)) (c' : Connection)
  : Prop := {
  em_returns : returns r;
  em_inv : conn_inv cfg c';
  em_same : rcv_same c c';
  em_idle : (forall b, r <> Ok (true, b)) -> send_sent c' = send_sent c;
  em_sent : forall b, r = Ok (true, b) -> handed_over c fi
    /\ (forall i f, fi = Some i -> flights c !! Z.to_nat i = Some f ->
          b = (0 <? transmissions f) /\ send_sent c' = sent_after c f
          /\ (transmissions f = 0 -> cwnd c' = cwnd c))
    /\ (fi = None -> b = false /\ send_sent c' = send_sent c)
}.

Lemma emitted_idle c c' fi r :
  returns r -> conn_inv cfg c' -> rcv_same c c' -> send_sent c' = send_sent c ->
  (forall b, r <> Ok (true, b)) -> emitted c fi r c'.
Proof. intros ? ? ? ? Hn. constructor; try done. intros b ->. by destruct (Hn b). Qed.

(** The caller's slot after a send of one frame: the frame itself, or an empty slot. *)
Lemma send_one_slot (r : outcome Z) frames b p n :
  match r with
  | Ok m => 0 <= m <= zlen [b]
      /\ frames = replicate (Z.to_nat m) packet_default ++ drop (Z.to_nat m) [b]
  | Err _ => frames = [b]
  | _ => False
  end ->
  handle p n b ->
  owned [default packet_default (head frames)] = owned frames
  /\ handle p n (default packet_default (head frames)).
Proof.
  intros Hr Hb. destruct r as [m|k| |]; try done.
  - destruct Hr as [Hm ->]. change (zlen [b]) with 1 in Hm.
    assert (m = 0 \/ m = 1) as [-> | ->] by lia; [done|]. split; [done|apply handle_default].
  - by subst.
Qed.

Lemma emit_spec c d held fi now :
  conn_inv cfg c -> dev_inv d held -> valid_index c fi ->
  exists r c' d', emit c d fi now cfg = (r, (c', d')) /\ dev_after d d' held /\ emitted c fi r c'.
Proof.
  intros I Id Hv. unfold emit.
  destruct (dev_alloc_law d held Id) as (a & d1 & -> & P1 & Z1 & Ha). cbn [then_].
  destruct a as [frame|].
  2:{ eexists _, _, d1. split; [reflexivity|]. split; [done|]. by apply emitted_idle; [|apply block_inv|..]. }
  destruct Ha as (I1 & Hh & Hp & _).
  destruct (outgoing_spec cfg Hcfg c fi I Hv) as (seg & Eo & Hs & Hm & Ht & _).
  rewrite Eo. cbn [then_].
  assert (dev_after d d1 (owned [frame] ++ held)) as A1
    by (rewrite (owned_one _ _ Hp); split; [exact I1|done]).
  pose proof (build_ipv4_spec frame seg (proj1 Hh)) as B.
  destruct (_ && _) eqn:Eb.
  2:{ rewrite B. destruct (drop_frame_spec (@recast PacketBuf (bool * bool) (Err InvalidInput)) c d1 d held frame A1 Hh)
        as (d2 & -> & A2).
      eexists _, _, d2. split; [reflexivity|]. split; [done|]. by apply emitted_idle. }
  destruct B as (b & -> & Wb & Ab & Cb & _ & Ib & Pb & Db).
  pose proof (build_handle _ _ _ _ _ Hh Hs Wb Cb Pb Db) as Hb.
  assert (owned [b] = owned [frame]) as Ow.
  { rewrite (owned_one b _ (eq_trans Pb Hp)), (owned_one frame _ Hp). by rewrite Ib. }
  destruct A1 as (I1' & _). rewrite <- Ow in I1'.
  assert (Forall (handle (dev_pool d1) (dev_frame_size d1)) [b]) as Fb
    by (constructor; [by rewrite P1, Z1|constructor]).
  destruct (dev_send_law d1 held [b] I1' Fb) as (r & d2 & frames & Es & P2 & Z2 & I2 & Hr).
  rewrite Es.
  assert (dev_after d d2 (owned frames ++ held)) as A2 by (split; [done|]; intuition congruence).
  destruct (send_one_slot r frames b (dev_pool d) (dev_frame_size d) Hr Hb) as (Oh & Hh').
  set (slot := default packet_default (head frames)) in *. rewrite <- Oh in A2.
  assert (exists d3, drop_frame (Ok (false, false)) (c <| device_blocked := true |>) d2 slot
    = (Ok (false, false), (c <| device_blocked := true |>, d3)) /\ dev_after d d3 held)
    as (d3 & Eblk & A3) by (by apply drop_frame_spec).
  assert (emitted c fi (Ok (false, false)) (c <| device_blocked := true |>)) as Blk
    by (apply emitted_idle; [done|by apply block_inv|done..]).
  destruct r as [n|k| |]; [| |done|done].
  - destruct Hr as [Hn Ef]. change (zlen [b]) with 1 in Hn.
    destruct (n =? 0) eqn:En; bools; [rewrite Eblk; eauto 8|]. assert (n = 1) as -> by lia.
    destruct (submitted_spec cfg Hcfg c fi (flags seg) now I Hv) as (rt & c' & -> & I' & R' & H1 & H2).
    cbn [then_].
    destruct (drop_frame_spec (Ok (true, rt)) c' d2 d held slot A2 Hh') as (d4 & -> & A4).
    eexists _, _, d4. split; [reflexivity|]. split; [done|]. constructor; try done.
    + intros Hx. by destruct (Hx rt).
    + intros b' [= <-]. split; [|done]. by exists seg, d1, b, d2, frames.
  - destruct (decide (k = WouldBlock)) as [->|Hk].
    { change (0 =? 0) with true. cbv iota. rewrite Eblk. eauto 8. }
    destruct (drop_frame_spec (@recast Z (bool * bool) (Err k)) c d2 d held slot A2 Hh')
      as (d4 & E4 & A4).
    assert (emitted c fi (Err k) c) by (by apply emitted_idle).
    destruct k; try done; rewrite E4; eauto 8.
Qed.

(** The flight chosen by [select_flight] and tested by [recheck]. *)
Lemma choose_spec c now :
  conn_inv cfg c ->
  exists fi c', match select_flight c now with
                | Some index => recheck c index now
                | None => Ok (None, c)
                end = Ok (fi, c')
    /\ conn_inv cfg c' /\ rcv_same c c' /\ send_sent c' = send_sent c /\ state c' = state c
    /\ valid_index c' fi
    /\ (forall i f, fi = Some i -> flights c' !! Z.to_nat i = Some f -> within_limit c' f).
Proof.
  intros I. destruct (select_flight c now) as [i|] eqn:E.
  - destruct (select_flight_spec c now i E) as (f & Hi & Hf).
    destruct (recheck_spec cfg Hcfg c i f now I Hi Hf)
      as (r & c' & -> & I' & R' & S' & St' & [-> |(-> & f' & Hf' & W)]).
    + exists None, c'. split_and!; try done.
    + exists (Some i), c'. split_and!; try done.
      * intros j [= <-]. eauto.
      * intros j g [= <-] Hg. rewrite Hf' in Hg. by injection Hg as <-.
  - exists None, c. split_and!; try done.
Qed.

(** How far the sender may run ahead of the acknowledgments. *)
Definition flow_limit (c : Connection) : Z :=
  if peer_window c =? 0 then 1 else Z.min (cwnd c) (peer_window c).

(** A first submission leaves at most [flow_limit] positions in flight. *)
Lemma first_submission c i f c' :
  conn_inv cfg c -> conn_inv cfg c' -> rcv_same c c' -> 0 <= i ->
  flights c !! Z.to_nat i = Some f -> within_limit c f -> transmissions f = 0 ->
  has (fl_flags f) SYN = false -> send_sent c' = sent_after c f -> cwnd c' = cwnd c ->
  bytes_in_flight c' <= flow_limit c'.
Proof.
  intros I I' R Hi Hf W Ht Hs Es Ew. specialize (W Ht Hs).
  pose proof R as (_ & _ & _ & _ & _ & _ & _ & _ & Eu & _ & Epw).
  pose proof (inv_core _ _ I) as Ic.
  destruct (unsent_last cfg Hcfg c _ f Ic Hf Ht) as (old & Ef & _ & Ho & C1 & Eq & En & Eb).
  assert (bytes_in_flight c' = bytes_in_flight c + fl_len f) as ->.
  { unfold bytes_in_flight at 1. rewrite Es, Eu. unfold sent_after. rewrite Ht. simpl.
    rewrite fl_end_spec, Eq, (chain_end _ _ _ (inv_una _ _ I) C1), u32_add_l. unfold wsub32.
    rewrite u32_sub_l, Eb.
    pose proof (inv_span cfg Hcfg c Ic) as Hsp. rewrite Ef, span_app in Hsp. simpl in Hsp.
    pose proof (bytes_in_flight_ge0 c) as Hge. rewrite Eb in Hge.
    pose proof (inv_flights _ _ I) as F. rewrite Forall_lookup in F.
    pose proof (fl_len_pos _ _ (F _ _ Hf)).
    replace (send_una c + span old + fl_len f - send_una c) with (span old + fl_len f) by lia.
    apply u32_small. unfold W32. lia. }
  etransitivity; [exact W|]. unfold send_limit, flow_limit. rewrite Epw, Ew.
  pose proof (inv_window _ _ I). destruct (peer_window c =? 0) eqn:E; simpl; [|done].
  destruct (bytes_in_flight c =? 0); bools; lia.
Qed.

(** The guarantees of [transmit]. *)
Record transmitted (c : Connection) (r : outcome (bool * bool)) (c' : Connection) : Prop := {
  tr_returns : returns r;
  tr_inv : conn_inv cfg c';
  tr_same : rcv_same c c';
  tr_idle : (forall b, r <> Ok (true, b)) -> send_sent c' = send_sent c;
  tr_flow : send_sent c' <> send_sent c -> state c <> SynSent -> state c <> SynReceived ->
    bytes_in_flight c' <= flow_limit c';
  tr_sent : forall b, r = Ok (true, b) ->
    exists seg d1 frame d2 frames, carries c seg /\ segment_ok seg /\ total_len seg <= mtu cfg
      /\ source seg = local c /\ destination seg = remote c /\ acknowledgment seg = receive_next c
      /\ as_slice frame = datagram seg /\ dev_send (d1, [frame]) = (Ok 1, (d2 : D, frames))
}.

Lemma no_syn c i f :
  conn_inv cfg c -> state c <> SynSent -> state c <> SynReceived ->
  flights c !! i = Some f -> has (fl_flags f) SYN = false.
Proof.
  intros I S1 S2 Hf. pose proof (inv_phase _ _ I) as Ph. unfold phase_ok in Ph.
  pose proof (list_elem_of_lookup_2 _ _ _ Hf) as Hin.
  assert (Forall (fun f => has (fl_flags f) SYN = false) (flights c)) as Fa.
  { destruct (state c); try done.
    1,4: destruct Ph as [F _]; (eapply Forall_impl; [exact F|]); by intros g (? & _).
    1,3,4: destruct Ph as (_ & (g & -> & (K & _)) & _); by apply Forall_singleton.
    all: assert (flights c = []) as -> by naive_solver; constructor. }
  rewrite Forall_forall in Fa. by apply Fa.
Qed.

Lemma transmit_spec c d held now :
  conn_inv cfg c -> dev_inv d held ->
  exists r c' d', transmit c d now cfg = (r, (c', d')) /\ dev_after d d' held /\ transmitted c r c'.
Proof.
  intros I Id. unfold transmit.
  assert (dev_after d d held) as A0 by done.
  destruct (is_terminal (state c)).
  { eexists _, _, d. split; [reflexivity|]. split; [done|]. by constructor. }
  destruct (prepare_spec cfg Hcfg c now I) as (I1 & R1 & S1 & St1).
  set (c1 := prepare c now cfg) in *. clearbody c1.
  destruct (choose_spec c1 now I1) as (fi & c2 & -> & I2 & R2 & S2 & St2 & V & W). cbn [then_].
  set (c3 := c2 <| device_blocked := false |>).
  assert (conn_inv cfg c3) as I3 by (by apply block_inv).
  assert (rcv_same c c3) as R3 by (by eapply rcv_same_trans, rcv_same_trans; [exact R1|exact R2|]).
  assert (send_sent c3 = send_sent c) as S3 by (simpl; congruence).
  assert (state c3 = state c \/ state c3 = FinWait1 \/ state c3 = LastAck) as St3
    by (simpl; rewrite St2; done).
  assert (valid_index c3 fi) as V3 by exact V.
  assert (forall i f, fi = Some i -> flights c3 !! Z.to_nat i = Some f -> within_limit c3 f) as W3
    by exact W.
  clearbody c3.
  destruct (_ && negb (probe_pending c3)).
  { eexists _, _, d. split; [reflexivity|]. split; [done|]. by constructor. }
  destruct (emit_spec c3 d held fi now I3 Id V3) as (r & c' & d' & -> & A & [E1 E2 E3 E4 E5]).
  eexists _, _, d'. split; [reflexivity|]. split; [done|].
  pose proof (rcv_same_trans _ _ _ R3 E3) as R'.
  constructor; try done.
  - intros Hr. by rewrite (E4 Hr).
  - intros Hne N1 N2.
    assert (exists b, r = Ok (true, b)) as [b Hb].
    { destruct r as [[[] b]| | |]; eauto; exfalso; apply Hne; rewrite E4; done. }
    destruct (E5 b Hb) as (_ & X & Y).
    destruct fi as [i|]; [|exfalso; apply Hne; rewrite <- S3; by apply Y].
    destruct (V3 i eq_refl) as (Hi & f & Hf). destruct (X i f eq_refl Hf) as (_ & Es & Ew).
    assert (transmissions f = 0) as Ht.
    { unfold sent_after in Es. destruct (transmissions f =? 0) eqn:E; bools; [done|congruence]. }
    eapply (first_submission c3 i f); eauto.
    eapply (no_syn c3); [done|..|exact Hf]; intuition congruence.
  - intros b Hb. destruct (E5 b Hb) as ((seg & d1 & frame & d2 & frames & Eo & As & Es) & _).
    destruct (outgoing_spec cfg Hcfg c3 fi I3 V3) as (seg' & Eo' & Hs & _ & Ht & Hsrc & Hdst & Hack & _ & Hc).
    rewrite Eo in Eo'. injection Eo' as <-.
    destruct R3 as (L1 & L2 & _ & _ & L3 & _ & _ & _ & L4 & L5 & _).
    exists seg, d1, frame, d2, frames. split_and!; try done; try congruence.
    intros Hp. destruct (Hc Hp) as (off & ? & ? & ?). exists off. rewrite <- L4, <- L5. done.
Qed.
End Transmit.
