(* ===== verification/TcpProps.v ===== *)
(** * Properties of a TCP connection

    The theorems that [src/api/tcp/connection.rs] is meant to satisfy, each a short
    consequence of the component lemmas: reachability and bounded resources, the
    application interface as queues of bytes, segments, output, timers and the state
    diagram. *)
From Stdlib Require Import ZArith Lia Bool.
From stdpp Require Import base numbers option relations list.
From S2P Require Import Prelude BufferPool Addr TcpWire TcpTypes Device Loopback TcpConn TcpConnInv TcpAckInv TcpInputInv TcpOutputInv TcpTransmit.
#[local] Open Scope Z_scope.

(** ** The transition system of one connection *)
Inductive conn_step (cfg : TcpConfig) : Connection -> Connection -> Prop :=
| step_write c bytes : bytes_ok bytes -> conn_step cfg c (write c bytes cfg).2
| step_read c len : 0 <= len -> conn_step cfg c (read c len).2
| step_close c now : conn_step cfg c (close c now cfg).2
| step_fail c s : is_terminal s = true -> conn_step cfg c (fail_ c s)
| step_tick c now : conn_step cfg c (tick c now cfg)
| step_input c seg now : segment_ok seg -> conn_step cfg c (input c seg now cfg)
| step_transmit D (HD : Device D) (HL : DeviceLaws D) c (d : D) held now :
    dev_inv d held -> conn_step cfg c (transmit c d now cfg).2.1.

Inductive conn_start (cfg : TcpConfig) : Connection -> Prop :=
| start_active l r iss now :
    sock_ok l -> sock_ok r -> 0 <= iss < W32 -> conn_start cfg (active l r iss now cfg)
| start_passive syn iss now :
    segment_ok syn -> 0 <= iss < W32 -> conn_start cfg (passive syn iss now cfg).

Definition conn_reachable (cfg : TcpConfig) (c : Connection) : Prop :=
  exists c0, conn_start cfg c0 /\ rtc (conn_step cfg) c0 c.

Section Props.
Context (cfg : TcpConfig) (Hcfg : config_ok cfg).

Lemma transmit_inv {D} `{DeviceLaws D} c (d : D) held now :
  conn_inv cfg c -> dev_inv d held -> conn_inv cfg (transmit c d now cfg).2.1.
Proof.
  intros I Id. destruct (transmit_spec cfg Hcfg c d held now I Id) as (r & c' & d' & -> & _ & T).
  apply T.
Qed.

Lemma input_inv c seg now : conn_inv cfg c -> segment_ok seg -> conn_inv cfg (input c seg now cfg).
Proof. intros I Hs. apply (input_spec cfg Hcfg c seg now I Hs). Qed.

Lemma step_inv c c' : conn_step cfg c c' -> conn_inv cfg c -> conn_inv cfg c'.
Proof.
  destruct 1; intros I.
  - by apply write_inv.
  - by apply read_inv.
  - by apply close_inv.
  - by apply fail_inv.
  - by apply tick_inv.
  - by apply input_inv.
  - by eapply transmit_inv.
Qed.

Lemma reachable_inv c : conn_reachable cfg c -> conn_inv cfg c.
Proof.
  intros (c0 & S0 & R). assert (conn_inv cfg c0) as I0
    by (destruct S0; [by apply active_inv|by apply passive_inv]).
  clear S0. induction R as [|c0 c1 c St _ IH]; eauto using step_inv.
Qed.

(** ** States *)

(** Edges of the TCP state diagram that a segment can take. *)
Definition input_edge (s s' : TcpState) : Prop :=
  s' = s \/
  match s with
  | SynSent => s' = Established \/ s' = Reset_
  | SynReceived => s' = Established \/ s' = CloseWait \/ s' = Reset_
  | Established => s' = CloseWait \/ s' = Reset_
  | FinWait1 => s' = FinWait2 \/ s' = Closing \/ s' = TimeWait \/ s' = Reset_
  | FinWait2 => s' = TimeWait \/ s' = Reset_
  | CloseWait => s' = Reset_
  | Closing => s' = TimeWait \/ s' = Reset_
  | LastAck => s' = Closed \/ s' = Reset_
  | TimeWait | Closed | Reset_ | TimedOut_ | Failed => False
  end.

Lemma receive_data_state c seg now :
  state (receive_data c seg now cfg) = state c \/
  has (flags seg) FIN = true /\ state (receive_data c seg now cfg) = eof_next (state c).
Proof.
  unfold receive_data. destruct (_ && _); [by left|]. cbn.
  destruct (_ || _); [by left|]. destruct (before _ _); [by left|].
  destruct (_ <? _); [by left|]. cbn. destruct (has (flags seg) FIN); [|by left].
  destruct (_ && _); [|by left]. right. split; [done|]. by destruct (state c).
Qed.

Lemma syn_sent_edge c seg now :
  state c = SynSent -> input_edge SynSent (state (syn_sent c seg now cfg)).
Proof.
  intros E. unfold syn_sent. set (va := _ && negb _).
  destruct (has (flags seg) RST). { destruct va; [by right; right|by left]. }
  destruct (has (flags seg) FIN) eqn:Ef.
  { rewrite orb_true_r. by left. }
  destruct (_ || _); [by left|]. cbv zeta.
  destruct (bool_decide _); [by right; left|]. right. left.
  match goal with |- state (receive_data ?x ?y ?z ?w) = _ =>
    destruct (receive_data_state x y z) as [->|[Hf _]]; [done|] end.
  exfalso. revert Ef. clear -Hf. simpl in Hf. unfold has, FIN in *. rewrite <- Z.land_assoc in Hf.
  change (Z.land 253 1) with 1 in Hf. congruence.
Qed.

Lemma fail_reset_edge c : is_terminal (state c) = false -> state c <> TimeWait ->
  input_edge (state c) (state (fail_ c Reset_)).
Proof. intros T N. right. simpl. destruct (state c); try done; tauto. Qed.

(** ** Properties *)

(** C6. Resources of a connection stay bounded, whatever the peer, the application, the
    clock and the device do: in every reachable state the receive buffer, the bytes
    accepted for sending, the number of flights, the congestion window and the
    retransmission timer are within the configured limits, the bytes in flight fit in
    half the sequence space, and the advertised window never promises more than the free
    receive storage. *)
Theorem conn_bounded c :
  conn_reachable cfg c ->
  zlen (received c) <= receive_capacity cfg
  /\ 0 <= send_buffered c <= send_capacity cfg
  /\ zlen (flights c) <= max_inflight_segments cfg
  /\ 0 < cwnd c <= max_cwnd_bytes cfg
  /\ initial_rto cfg <= rto c <= max_rto cfg
  /\ 0 <= bytes_in_flight c < HALF
  /\ 0 <= advertised_window c cfg <= receive_capacity cfg - zlen (received c)
  /\ flight_payload c = zlen (payloads (flights c)).
Proof.
  intros R. pose proof (reachable_inv c R) as I. pose proof (inv_core _ _ I) as Ic.
  destruct (advertised_window_spec cfg Hcfg c Ic) as (_ & Hw & _).
  destruct (inflight_span cfg Hcfg c Ic) as (old & _ & _ & -> & _ & _ & _ & _ & _ & _ & Hs & _).
  pose proof (inv_buffered cfg c Ic). split_and!; try apply Ic; lia.
Qed.

(** [write] is an append on the stream of bytes the connection still has to deliver: it
    accepts a prefix of the input (non-empty unless the input is), leaves the receive side
    alone and keeps the invariant; [NotConnected] and [WouldBlock] change nothing, and
    [WouldBlock] means that the send buffer is full. *)
Theorem tcp_write_appends c bytes :
  conn_inv cfg c -> bytes_ok bytes ->
  match write c bytes cfg with
  | (Ok n, c') => 0 <= n <= zlen bytes /\ (bytes <> [] -> 0 < n)
      /\ pending c' = pending c ++ take (Z.to_nat n) bytes
      /\ received c' = received c /\ conn_inv cfg c'
  | (Err NotConnected, c') => c' = c /\ (write_closed c = true \/ can_send (state c) = false)
  | (Err WouldBlock, c') => c' = c /\ send_buffered c = send_capacity cfg
  | _ => False
  end.
Proof.
  intros I Hb. pose proof (write_inv cfg c bytes I Hb) as Iw. pose proof (inv_buffered cfg c I).
  revert Iw. unfold write. destruct (write_closed c || negb (can_send (state c))) eqn:E.
  { intros _. split; [done|]. bools. destruct (can_send (state c)); naive_solver. }
  destruct (zlen bytes =? 0) eqn:E0; bools.
  { intros Iw. apply zlen_zero_nil in E0 as ->. split; [unfold zlen; simpl; lia|]. split; [done|].
    by rewrite take_nil, app_nil_r. }
  pose proof (zlen_nonneg bytes). cbv zeta. destruct (Z.min _ _ =? 0) eqn:E1; bools.
  - intros _. split; [done|]. lia.
  - intros Iw. split; [lia|]. split; [lia|]. split; [|done].
    unfold pending. simpl. by rewrite app_assoc.
Qed.

(** [read] is a dequeue on the received bytes: what it returns is removed from the
    front, at most [len] bytes; it returns nothing for a non-empty buffer only at the end of
    the stream, after everything buffered has been read; errors leave the buffer alone and
    [WouldBlock] means that it is empty. *)
Theorem tcp_read_dequeues c len :
  conn_inv cfg c -> 0 <= len ->
  match read c len with
  | (Ok out, c') => received c = out ++ received c' /\ zlen out <= len
      /\ pending c' = pending c /\ conn_inv cfg c'
      /\ (out = [] -> 0 < len -> received c = [] /\ (peer_eof c = true \/ state c = Closed))
  | (Err WouldBlock, c') => received c = [] /\ received c' = [] \/ local_error c = Some WouldBlock
  | (Err k, c') => c' = c
  | _ => False
  end.
Proof.
  intros I Hl. pose proof (read_inv cfg c len I Hl) as Ir. revert Ir. unfold read.
  destruct (len =? 0) eqn:E0; bools.
  { intros Ir. split; [done|]. split; [unfold zlen; simpl; lia|]. split; [done|]. split; [done|]. lia. }
  destruct (local_error c) as [k|] eqn:Ek; [destruct k; naive_solver|].
  case_bool_decide; [done|]. case_bool_decide; [done|].
  pose proof (zlen_nonneg (received c)). cbv zeta.
  destruct (0 <? Z.min len (zlen (received c))) eqn:E1; bools.
  - intros Ir. split; [simpl; by rewrite take_drop|]. split; [rewrite zlen_take; lia|].
    split; [done|]. split; [done|]. intros Ho.
    assert (zlen (take (Z.to_nat (Z.min len (zlen (received c)))) (received c)) = 0) as Hz by (by rewrite Ho).
    rewrite zlen_take in Hz. lia.
  - assert (zlen (received c) = 0) as Hz by lia. apply zlen_zero_nil in Hz as Hr.
    replace (Z.min len (zlen (received c))) with 0 by lia. change (drop (Z.to_nat 0)) with (@id (list Z)).
    destruct (peer_eof _ || _) eqn:E2; intros Ir.
    + split; [done|]. split; [unfold zlen; simpl; lia|]. split; [done|]. split; [done|].
      intros _ _. split; [done|]. apply orb_true_iff in E2 as [E2|E2]; [by left|right].
      by apply bool_decide_eq_true in E2.
    + left. by rewrite Hr.
Qed.

(** C1. The exact effect of any well-formed segment.  It keeps the invariant, and the connection is reset exactly when
    the segment is an acceptable reset ([resets]).  Otherwise: when the segment is processed ([processed], a condition on
    its flags, sequence and acknowledgment numbers alone), the positions from [send_una] to its acknowledgment number, and the payload
    they carry, leave the send stream, and the part of its payload that starts at the next expected position and fits the
    advertised window is appended to the receive stream, with the FIN if all of it was taken and the window has room; when it is not processed,
    both streams stay as they are. *)
Theorem tcp_input_effect c seg now :
  conn_inv cfg c -> segment_ok seg ->
  conn_inv cfg (input c seg now cfg) /\
  (if resets cfg c seg then input c seg now cfg = fail_ c Reset_ else input_effect cfg c seg (input c seg now cfg)).
Proof. intros I Hs. exact (input_spec cfg Hcfg c seg now I Hs). Qed.

(** C7. [input] moves along the edges of the TCP state diagram only: in particular a
    terminal state and TIME-WAIT are never left by a segment, and the handshake states are
    never re-entered. *)
Theorem tcp_input_diagram c seg now :
  conn_inv cfg c -> input_edge (state c) (state (input c seg now cfg)).
Proof.
  intros I. unfold input. destruct (is_terminal (state c)) eqn:T; [by left|].
  case_bool_decide as S1; [rewrite S1; by apply syn_sent_edge|].
  case_bool_decide as S2.
  { left. destruct (negb _); [|done]. by destruct (_ && _). }
  destruct (_ && _ && _); [by left|].
  destruct (negb (acceptable _ _ _)); [destruct (negb _); by left|].
  destruct (has (flags seg) RST).
  { destruct (_ =? _); [|by left]. by apply fail_reset_edge. }
  destruct (has (flags seg) SYN); [by left|]. destruct (negb _); [by left|].
  destruct (before _ _); [by left|]. destruct (_ && _); [by left|]. cbv zeta.
  set (c1 := if bool_decide _ then _ else c).
  destruct (acknowledge_state cfg c1 seg now) as [E|E].
  all: destruct (is_terminal (state (acknowledge c1 seg now cfg))) eqn:T2;
    [|destruct (receive_data_state (acknowledge c1 seg now cfg) seg now) as [E'|[_ E']]];
    rewrite ?E'; rewrite E in *; unfold input_edge, c1; case_bool_decide as S3;
    simpl in *; rewrite ?S3 in *; simpl in *; try tauto;
    destruct (state c); simpl in *; try done; tauto.
Qed.

(** Timers: before [next_deadline] a tick changes nothing, so a caller that sleeps
    until that time misses no timeout. *)
Theorem tcp_deadline_sound c now :
  Forall (fun f => created f <= now) (flights c) ->
  (forall d, next_deadline c cfg = Some d -> now < d) -> tick c now cfg = c.
Proof.
  intros Hc Hd. unfold tick, next_deadline in *. destruct (is_terminal (state c)); [done|].
  set (fl := match flights c with f :: _ => _ | [] => None end) in Hd.
  set (pr := if _ && _ then _ else None) in Hd.
  assert (forall d, phase_deadline c = Some d \/ close_deadline c = Some d \/ fl = Some d -> now < d)
    as Hmin.
  { intros d Hx. destruct (phase_deadline c), (close_deadline c), fl, pr; simpl in Hd;
      try specialize (Hd _ eq_refl); naive_solver lia. }
  assert (reached (phase_deadline c) now = false) as R1.
  { unfold reached. destruct (phase_deadline c) as [d|] eqn:E; [|done]. apply Z.leb_gt. auto. }
  assert (reached (close_deadline c) now = false) as R2.
  { unfold reached. destruct (close_deadline c) as [d|] eqn:E; [|done]. apply Z.leb_gt. auto. }
  rewrite R1, R2. case_bool_decide; [done|].
  destruct (flights c) as [|f fs] eqn:Ef; [done|]. simpl.
  apply Forall_cons in Hc as [Hcr _]. specialize (Hmin _ (or_intror (or_intror eq_refl))).
  unfold due. destruct (last_sent f) as [at_|] eqn:El; [|lia].
  rewrite !(proj2 (Z.leb_gt _ _)) by lia. by rewrite andb_false_r.
Qed.

(** C2. [transmit] on any device that keeps the [DeviceLaws]: it returns (no panic, no index
    out of range), gives back every frame it did not hand over, keeps the invariant and
    the byte streams; a segment it hands over is the datagram of bytes that belong at its
    sequence number and acknowledges [receive_next]; and a first submission leaves at most
    the smaller of the peer's window and the congestion window in flight (one byte when
    the peer's window is closed). *)
Theorem tcp_transmit_safe {D} `{DeviceLaws D} c (d : D) held now :
  conn_inv cfg c -> dev_inv d held ->
  exists r c' d', transmit c d now cfg = (r, (c', d')) /\ dev_inv d' held
    /\ transmitted (D := D) cfg c r c'.
Proof.
  intros I Id. destruct (transmit_spec cfg Hcfg c d held now I Id) as (r & c' & d' & E & (Id' & _) & T).
  eauto 8.
Qed.
End Props.

(** ** Witnesses: an active open over the loopback device, answered by a SYN-ACK *)
Lemma config_default_ok : config_ok config_default.
Proof.
  apply config_valid_ok; [|by vm_compute].
  constructor; try split; vm_compute; discriminate.
Qed.

Definition cli : SocketAddrV4 := mkSock 0x0a000001 40000.
Definition srv : SocketAddrV4 := mkSock 0x0a000002 80.
Definition conn0 : Connection := active cli srv 100 0 config_default.
Definition conn1 : Connection :=
  Eval vm_compute in (transmit conn0 loopback2 0 config_default).2.1.
Definition synack : Segment :=
  mkSegment srv cli 5000 101 (Z.lor SYN ACK) 1000 (Some 1460) [].
Definition conn2 : Connection := Eval vm_compute in input conn1 synack 0 config_default.

Lemma endpoints_ok : sock_ok cli /\ sock_ok srv.
Proof. unfold sock_ok, cli, srv, W32, W16. simpl. lia. Qed.
Lemma synack_ok : segment_ok synack.
Proof.
  constructor; simpl; try apply endpoints_ok; unfold is_byte, W32, W16; simpl; try lia.
  - intros m [= <-]. lia.
  - constructor.
Qed.
Lemma conn0_inv : conn_inv config_default conn0.
Proof.
  apply active_inv; [apply config_default_ok|apply endpoints_ok|apply endpoints_ok|]. unfold W32. lia.
Qed.
Lemma conn1_inv : conn_inv config_default conn1.
Proof.
  replace conn1 with (transmit conn0 loopback2 0 config_default).2.1 by (vm_compute; reflexivity).
  exact (transmit_inv _ config_default_ok conn0 loopback2 [] 0 conn0_inv loopback2_inv).
Qed.
Lemma conn2_inv : conn_inv config_default conn2.
Proof.
  replace conn2 with (input conn1 synack 0 config_default) by (vm_compute; reflexivity).
  apply input_inv; [apply config_default_ok|apply conn1_inv|apply synack_ok].
Qed.
Example conn2_established : state conn2 = Established.
Proof. reflexivity. Qed.

Lemma conn_bounded_witness : 0 <= send_buffered conn0 <= 16384.
Proof.
  pose proof (conn_bounded config_default config_default_ok conn0) as B.
  destruct B as (_ & B & _); [|exact B].
  exists conn0. split; [|apply rtc_refl].
  apply start_active; [apply endpoints_ok|apply endpoints_ok|]. unfold W32. lia.
Defined.

Lemma tcp_write_appends_witness :
  exists c', write conn2 [1; 2; 3] config_default = (Ok 3, c') /\ pending c' = pending conn2 ++ [1; 2; 3].
Proof.
  pose proof (tcp_write_appends config_default conn2 [1; 2; 3] conn2_inv) as W.
  destruct (write conn2 [1; 2; 3] config_default) as [r c'] eqn:E.
  assert (r = Ok 3) as ->.
  { change r with (r, c').1. rewrite <- E. vm_compute. reflexivity. }
  exists c'. split; [reflexivity|].
  destruct W as (_ & _ & P & _); [|exact P]. repeat constructor; unfold is_byte; lia.
Defined.

Lemma tcp_read_dequeues_witness : read conn2 10 = (Err WouldBlock, conn2) /\ received conn2 = [].
Proof.
  pose proof (tcp_read_dequeues config_default conn2 10 conn2_inv ltac:(lia)) as R.
  assert (read conn2 10 = (Err WouldBlock, conn2)) as E by (vm_compute; reflexivity).
  rewrite E in R. split; [exact E|]. destruct R as [[R _]|R]; [exact R|discriminate R].
Defined.

(** Three bytes are sent; the peer acknowledges two of them and sends two bytes and a FIN. *)
Definition conn3 : Connection := Eval vm_compute in (transmit (write conn2 [1; 2; 3] config_default).2 loopback2 0 config_default).2.1.
Definition answer2 : Segment := mkSegment srv cli 5001 103 (Z.lor FIN ACK) 1000 None [7; 8].
Lemma conn3_inv : conn_inv config_default conn3.
Proof.
  replace conn3 with (transmit (write conn2 [1; 2; 3] config_default).2 loopback2 0 config_default).2.1 by (vm_compute; reflexivity).
  apply (transmit_inv _ config_default_ok _ loopback2 [] 0); [|exact loopback2_inv].
  apply write_inv; [apply conn2_inv|]. repeat constructor; unfold is_byte; lia.
Qed.
Lemma answer2_ok : segment_ok answer2.
Proof.
  constructor; simpl; try apply endpoints_ok; unfold is_byte, W32, W16; simpl; try lia.
  - done.
  - repeat constructor; unfold is_byte; lia.
Qed.
Lemma tcp_input_effect_witness :
  let c' := input conn3 answer2 5 config_default in
  pending conn3 = [1; 2; 3] /\ pending c' = [3] /\ send_una c' = 103 /\ received c' = [7; 8] /\ peer_eof c' = true.
Proof.
  destruct (tcp_input_effect config_default config_default_ok conn3 answer2 5 conn3_inv answer2_ok) as [_ E].
  change (resets config_default conn3 answer2) with false in E. destruct E as [_ E1 _ _ E2 E3 _ E4 _].
  split; [reflexivity|]. split; [exact E2|]. split; [exact E1|]. split; [exact E3|exact E4].
Defined.

Lemma tcp_input_diagram_witness : input_edge SynSent (state (input conn0 synack 0 config_default)).
Proof. exact (tcp_input_diagram config_default conn0 synack 0 conn0_inv). Defined.

Lemma tcp_deadline_sound_witness : tick conn1 5 config_default = conn1.
Proof.
  apply tcp_deadline_sound.
  - vm_compute flights. constructor; [vm_compute; discriminate|constructor].
  - intros d E. vm_compute in E. injection E as <-. reflexivity.
Defined.

Lemma tcp_transmit_safe_witness :
  exists r c' d', transmit conn2 loopback2 7 config_default = (r, (c', d')) /\ lb_inv d' [].
Proof.
  destruct (tcp_transmit_safe config_default config_default_ok (H0 := loopback_laws)
              conn2 loopback2 [] 7 conn2_inv loopback2_inv) as (r & c' & d' & E & I & _).
  exists r, c', d'. split; [exact E|exact I].
Defined.
