(* ===== verification/TcpPool.v ===== *)
(** * The TCP pool ([src/api/tcp/mod.rs])

    [TcpPool] owns a device, the connection table, the listener set, a bounded queue of
    resets to send and the event log.  [initial_sequence] reads four bytes of OS entropy:
    [urandom k] is the result of the [k]-th read, and [draws] counts the reads.  The
    statistics are [u64] counters, modelled with the wrap-around of the release profile. *)
From Stdlib Require Import ZArith Lia Bool.
From stdpp Require Import base numbers option list gmap.
From S2P Require Import Prelude BufferPool Addr TcpWire TcpTypes Device OrdMap TcpConn.
#[local] Open Scope Z_scope.

Record TcpPool (D : Type) : Type := mkTcpPool {
  device : D;
  config : TcpConfig;
  connections : list (Z * Connection);
  listeners : gset SocketAddrV4;
  resets : list Reset;
  rx : list PacketBuf;
  pool_now : Z;
  next_id : Z;
  stats : TcpStats;
  events : list TcpEvent;
  draws : nat
}.
Arguments mkTcpPool {D}.
Arguments device {D}. Arguments config {D}. Arguments connections {D}. Arguments listeners {D}.
Arguments resets {D}. Arguments rx {D}. Arguments pool_now {D}. Arguments next_id {D}.
Arguments stats {D}. Arguments events {D}. Arguments draws {D}.
#[export] Instance eta_TcpPool D : Eta (TcpPool D) := fun p =>
  mkTcpPool (device p) (config p) (connections p) (listeners p) (resets p) (rx p) (pool_now p)
    (next_id p) (stats p) (events p) (draws p).

Definition validate_address (a : SocketAddrV4) : outcome unit :=
  if (port a =? 0) || is_unspecified (ip a) || is_broadcast (ip a) || is_multicast (ip a)
  then Err InvalidInput else Ok tt.
Definition address_valid (a : SocketAddrV4) : bool :=
  match validate_address a with Ok _ => true | _ => false end.

Definition tcp_pool_new {D} (device : D) (config : TcpConfig) : outcome (TcpPool D) :=
  if negb (config_valid config) then Err InvalidInput
  else Ok (mkTcpPool device config [] ∅ [] [] 0 1 stats_default [] 0).

(** The errors of a submission that only concern the connection or reset being sent. *)
Definition local_failure (k : ErrorKind) : bool :=
  match k with NotConnected | AddrNotAvailable | InvalidInput => true | _ => false end.

(** The test of [find]. *)
Definition serves (local_ remote_ : SocketAddrV4) (c : Connection) : bool :=
  bool_decide (local c = local_) && bool_decide (remote c = remote_)
  && negb (is_terminal (state c)).

(** The segment of a queued reset. *)
Definition reset_segment (r : Reset) : Segment :=
  mkSegment (rs_local r) (rs_remote r) (rs_sequence r) (rs_acknowledgment r) (rs_flags r) 0 None [].

(** The reset that answers a segment no connection or listener takes. *)
Definition refusal (s : Segment) : Reset :=
  if has (flags s) ACK
  then mkReset (destination s) (source s) (acknowledgment s) 0 RST
  else mkReset (destination s) (source s) 0 (wadd32 (sequence s) (sequence_len s)) (Z.lor RST ACK).

(** One iteration of the loop of [report_states]. *)
Definition report_one (cfg : TcpConfig) (now id : Z) (c : Connection)
    (log : list TcpEvent) (st : TcpStats) : Connection * list TcpEvent * TcpStats :=
  let s := status c cfg in
  let key := (cs_state s, wait (flow s), fs_timeout_retransmissions (flow s)) in
  let transition := negb (bool_decide (reported c = Some key)) in
  let metrics_changed := negb (bool_decide (reported_flow c = Some (flow s))) in
  let sample_due := dur_add (reported_at c) (state_report_interval cfg) <=? now in
  if negb transition && negb (metrics_changed && sample_due) then (c, log, st)
  else
    let c := c <| reported := Some key |> <| reported_flow := Some (flow s) |>
               <| reported_at := now |> in
    let '(log, st) :=
      if zlen log =? event_capacity cfg
      then (tail log, st <| st_events_overwritten ::= fun n => Z.min (n + 1) U64MAX |>)
      else (log, st) in
    (c, log ++ [mkTcpEvent now id s], st).
Fixpoint report_all (cfg : TcpConfig) (now : Z) (cs : list (Z * Connection))
    (log : list TcpEvent) (st : TcpStats) : list (Z * Connection) * list TcpEvent * TcpStats :=
  match cs with
  | [] => ([], log, st)
  | (id, c) :: cs =>
      let '(c, log, st) := report_one cfg now id c log st in
      let '(cs, log, st) := report_all cfg now cs log st in
      ((id, c) :: cs, log, st)
  end.

Section Pool.
Context {D : Type} `{Device D} (urandom : nat -> outcome Z).
Implicit Types p : TcpPool D.

(** An operation on the device, in the pool. *)
Definition on_device {A} (f : ST D A) : ST (TcpPool D) A := fun p =>
  let '(r, d) := f (device p) in (r, p <| device := d |>).

Definition report_states p : TcpPool D :=
  if negb (verbose_state (config p)) then p
  else
    let '(cs, log, st) :=
      report_all (config p) (pool_now p) (connections p) (events p) (stats p) in
    p <| connections := cs |> <| events := log |> <| stats := st |>.

Definition initial_sequence : ST (TcpPool D) Z := fun p =>
  (urandom (draws p), p <| draws ::= S |>).

Definition allocate_id : ST (TcpPool D) Z := fun p =>
  if U64MAX <? next_id p + 1 then (Err InvalidInput, p)
  else (Ok (next_id p), p <| next_id ::= Z.succ |>).

Definition find p (local_ remote_ : SocketAddrV4) : option Z :=
  om_find (serves local_ remote_) (connections p).

Definition queue_reset (r : Reset) p : TcpPool D :=
  if zlen (resets p) =? control_capacity (config p)
  then p <| stats ::= fun s => s <| st_control_drops ::= count 1 |> |>
  else p <| resets ::= fun q => q ++ [r] |>.

Definition listen (a : SocketAddrV4) : ST (TcpPool D) unit := fun p =>
  match validate_address a with
  | Ok _ =>
      if bool_decide (a ∈ listeners p) then (Err AddrInUse, p)
      else if Z.of_nat (size (listeners p)) =? max_listeners (config p) then (Err WouldBlock, p)
      else (Ok tt, p <| listeners ::= fun l => {[a]} ∪ l |>)
  | r => (r, p)
  end.

Definition unlisten (a : SocketAddrV4) p : TcpPool D :=
  p <| listeners ::= fun l => l ∖ {[a]} |>
    <| connections ::= om_retain (fun c => accepted c || negb (bool_decide (local c = a))) |>.

(** Insert a connection under a fresh identifier, with fresh entropy. *)
Definition open_with (mk : Z -> Connection) : ST (TcpPool D) Z := fun p =>
  then_ (initial_sequence p) id (fun sequence p =>
  then_ (allocate_id p) id (fun id p =>
  (Ok id, p <| connections ::= fun cs => om_insert cs id (mk sequence) |>))).

Definition connect (local_ remote_ : SocketAddrV4) : ST (TcpPool D) Z := fun p =>
  then_ (validate_address local_, p) id (fun _ p =>
  then_ (validate_address remote_, p) id (fun _ p =>
  if bool_decide (local_ = remote_) then (Err InvalidInput, p)
  else if zlen (connections p) =? max_connections (config p) then (Err WouldBlock, p)
  else if bool_decide (is_Some (find p local_ remote_)) then (Err AddrInUse, p)
  else open_with (fun sequence => active local_ remote_ sequence (pool_now p) (config p)) p)).

Definition acceptable_child (a : SocketAddrV4) (c : Connection) : bool :=
  bool_decide (local c = a) && negb (accepted c)
  && match state c with Established | CloseWait => true | _ => false end.
Definition accept (a : SocketAddrV4) : ST (TcpPool D) (option Z) := fun p =>
  if negb (bool_decide (a ∈ listeners p)) then (Err InvalidInput, p)
  else match om_find (acceptable_child a) (connections p) with
  | Some id =>
      match om_get (connections p) id with
      | Some c => (Ok (Some id),
                   p <| connections ::= fun cs => om_set cs id (c <| accepted := true |>) |>)
      | None => (Panic, p)
      end
  | None => (Ok None, p)
  end.

Definition pool_status p (id : Z) : outcome ConnectionStatus :=
  match om_get (connections p) id with
  | Some c => Ok (status c (config p))
  | None => Err NotFound
  end.

Definition pop_event p : option TcpEvent * TcpPool D :=
  (head (events p), p <| events ::= tail |>).

(** [get_mut(&id)] followed by an operation of the connection. *)
Definition with_connection {A} (id : Z) (f : Connection -> outcome A * Connection)
  : ST (TcpPool D) A := fun p =>
  match om_get (connections p) id with
  | Some c =>
      let '(r, c) := f c in (r, p <| connections ::= fun cs => om_set cs id c |>)
  | None => (Err NotFound, p)
  end.
Definition pool_write (id : Z) (bytes : list Z) : ST (TcpPool D) Z := fun p =>
  with_connection id (fun c => write c bytes (config p)) p.
Definition pool_read (id len : Z) : ST (TcpPool D) (list Z) := fun p =>
  with_connection id (fun c => read c len) p.
Definition pool_close (id : Z) : ST (TcpPool D) unit := fun p =>
  with_connection id (fun c => close c (pool_now p) (config p)) p.
Definition abort_ (id : Z) : ST (TcpPool D) unit := fun p =>
  match om_get (connections p) id with
  | Some c =>
      let p := p <| connections ::= fun cs => om_set cs id (fail_ c Reset_) |> in
      (Ok tt, report_states (queue_reset (reset_packet c) p))
  | None => (Err NotFound, p)
  end.
Definition remove (id : Z) : ST (TcpPool D) unit := fun p =>
  match om_get (connections p) id with
  | Some c =>
      if negb (is_terminal (state c)) then (Err WouldBlock, p)
      else (Ok tt, report_states p <| connections ::= fun cs => om_remove cs id |>)
  | None => (Err NotFound, p)
  end.

Definition ignore p : TcpPool D := p <| stats ::= fun s => s <| st_ignored ::= count 1 |> |>.

Definition pool_input (s : Segment) : ST (TcpPool D) unit := fun p =>
  if negb (address_valid (source s)) || negb (address_valid (destination s))
     || has (flags s) URG
  then (Ok tt, ignore p)
  else match find p (destination s) (source s) with
  | Some id =>
      match om_get (connections p) id with
      | Some c =>
          (Ok tt, p <| connections ::= fun cs =>
                         om_set cs id (input c s (pool_now p) (config p)) |>)
      | None => (Panic, p)
      end
  | None =>
      if negb (existsb (fun a => ip a =? ip (destination s)) (elements (listeners p)))
         && negb (existsb (fun e => ip (local e.2) =? ip (destination s)) (connections p))
      then (Ok tt, ignore p)
      else if has (flags s) RST then (Ok tt, p)
      else if bool_decide (destination s ∈ listeners p)
              && (Z.land (flags s) (Z.lor SYN (Z.lor ACK FIN)) =? SYN)
      then
        if zlen (connections p) =? max_connections (config p)
        then (Ok tt, p <| stats ::= fun s => s <| st_connection_overflow ::= count 1 |> |>)
        else then_ (open_with (fun sequence => passive s sequence (pool_now p) (config p)) p) id
               (fun _ p => (Ok tt, p))
      else (Ok tt, queue_reset (refusal s) p)
  end.

Definition flush_reset : ST (TcpPool D) unit := fun p =>
  match resets p with
  | [] => (Ok tt, p)
  | reset :: rest =>
      then_ (on_device dev_alloc p) id (fun frame p =>
      match frame with
      | None => (Ok tt, p)
      | Some frame =>
          match build_ipv4 frame (reset_segment reset) with
          | Ok frame =>
              let '(r, (d, frames)) := dev_send (device p, [frame]) in
              let p := p <| device := d |> in
              let '(r, p) :=
                match r with
                | Err WouldBlock => (Ok tt, p)
                | Err k =>
                    if local_failure k
                    then (Ok tt, p <| resets := rest |>
                                   <| stats ::= fun s => s <| st_control_drops ::= count 1 |> |>)
                    else (Err k, p)
                | Ok n =>
                    if n =? 1
                    then (Ok tt, p <| resets := rest |>
                                   <| stats ::= fun s => s <| st_resets_submitted ::= count 1 |> |>)
                    else (Ok tt, p)
                | r => (recast r, p)
                end in
              on_device (drop_all frames r) p
          | r => on_device (drop_all [frame] (recast r)) p
          end
      end)
  end.

(** The body of the receive loop of [poll], on the bytes of one frame. *)
Definition take_frame (bytes : list Z) : ST (TcpPool D) unit := fun p =>
  if (zlen bytes <? 20) || negb (default 0 (bytes !! 9%nat) =? 6) then (Ok tt, ignore p)
  else match parse_ipv4 bytes with
  | Ok segment =>
      pool_input segment (p <| stats ::= fun s => s <| st_received ::= count 1 |> |>)
  | Err _ => (Ok tt, p <| stats ::= fun s => s <| st_malformed ::= count 1 |> |>)
  | r => (recast r, p)
  end.
(** [rx.drain(..)]: each frame is dropped after its iteration, an error drops the rest. *)
Fixpoint drain (frames : list PacketBuf) : ST (TcpPool D) unit := fun p =>
  match frames with
  | [] => (Ok tt, p)
  | frame :: frames =>
      match take_frame (as_slice frame) p with
      | (Ok _, p) => then_ (on_device (dev_drop frame) p) id (fun _ p => drain frames p)
      | (r, p) => on_device (drop_all (frame :: frames) r) p
      end
  end.

(** The transmit loops of [poll]: up to [tx_burst] segments of one connection, then the
    other connections in identifier order. *)
Definition count_sent (sent retransmitted : bool) (st : TcpStats) : TcpStats :=
  st <| st_submitted ::= count (flag1 sent) |>
     <| st_retransmitted ::= count (flag1 retransmitted) |>.
Fixpoint burst (n : nat) (c : Connection) (d : D) (st : TcpStats) (now : Z) (cfg : TcpConfig)
  : outcome unit * (Connection * D * TcpStats) :=
  match n with
  | O => (Ok tt, (c, d, st))
  | S n =>
      match transmit c d now cfg with
      | (Ok (sent, retransmitted), (c, d)) =>
          let st := count_sent sent retransmitted st in
          if negb sent then (Ok tt, (c, d, st)) else burst n c d st now cfg
      | (Err k, (c, d)) =>
          if local_failure k
          then (Ok tt, (fail_ c Failed <| local_error := Some k |>, d, st))
          else (Err k, (c, d, st))
      | (r, (c, d)) => (recast r, (c, d, st))
      end
  end.
Fixpoint transmit_all (cs : list (Z * Connection)) (d : D) (st : TcpStats) (now : Z)
    (cfg : TcpConfig) : outcome unit * (list (Z * Connection) * D * TcpStats) :=
  match cs with
  | [] => (Ok tt, ([], d, st))
  | (id, c) :: cs =>
      match burst (Z.to_nat (tx_burst cfg)) c d st now cfg with
      | (Ok _, (c, d, st)) =>
          let '(r, (cs, d, st)) := transmit_all cs d st now cfg in (r, ((id, c) :: cs, d, st))
      | (r, (c, d, st)) => (r, ((id, c) :: cs, d, st))
      end
  end.
Definition transmit_pool : ST (TcpPool D) unit := fun p =>
  let '(r, (cs, d, st)) :=
    transmit_all (connections p) (device p) (stats p) (pool_now p) (config p) in
  (r, p <| connections := cs |> <| device := d |> <| stats := st |>).

(** Clock part of [poll]: timers, state reports, reaping of unaccepted children. *)
Definition poll_clock (now : Z) p : TcpPool D :=
  let p := p <| pool_now := now |>
             <| connections ::= om_map (fun c => tick c now (config p)) |> in
  report_states p <| connections ::= om_retain (fun c => accepted c || negb (is_terminal (state c))) |>.

(** [device.recv(budget, &mut self.rx)?] *)
Definition receive (budget : Z) : ST (TcpPool D) Z := fun p =>
  let '(r, (d, frames)) := dev_recv budget (device p, rx p) in
  (r, p <| device := d |> <| rx := frames |>).

Definition poll (now budget : Z) : ST (TcpPool D) Z := fun p =>
  if now <? pool_now p then (Err InvalidInput, p)
  else
    let p := poll_clock now p in
    then_ (on_device (dev_poll_at now) p) id (fun _ p =>
    then_ (receive budget p) id (fun _ p =>
    let frames := rx p in
    then_ (drain frames (p <| rx := [] |>)) id (fun _ p =>
    then_ (flush_reset p) id (fun _ p =>
    then_ (transmit_pool p) id (fun _ p =>
    then_ (on_device (dev_poll_at now) (report_states p)) id (fun _ p =>
    (Ok (zlen frames), p))))))).

Definition pool_deadline p : option Z :=
  foldr (fun e m => opt_min (next_deadline e.2 (config p)) m) None (connections p).
End Pool.
