(* ===== verification/TcpPoolInv.v ===== *)
(** * The TCP pool: invariant and preservation

    The connection table is keyed by identifiers below [next_id], holds at most
    [max_connections] well-formed connections and at most one live connection per pair of
    endpoints; the reset queue, the event log and the listener set are within their
    configured capacities; and every device frame is accounted for. *)
From Stdlib Require Import ZArith Lia Bool.
From stdpp Require Import base numbers option list gmap.
From S2P Require Import Prelude BufferPool Addr TcpWire TcpTypes Device Loopback OrdMap TcpConn TcpConnInv TcpAckInv TcpInputInv TcpOutputInv TcpTransmit TcpPool.
#[local] Open Scope Z_scope.

(** ** Endpoints never change, terminal connections stay terminal *)
Definition ends (c c' : Connection) : Prop :=
  local c' = local c /\ remote c' = remote c /\ accepted c' = accepted c.
Definition later (c c' : Connection) : Prop :=
  local c' = local c /\ remote c' = remote c
  /\ (is_terminal (state c) = true -> is_terminal (state c') = true).

Lemma ends_refl c : ends c c.
Proof. done. Qed.
Lemma ends_trans a b c : ends a b -> ends b c -> ends a c.
Proof. unfold ends. intuition congruence. Qed.
Lemma later_refl c : later c c.
Proof. done. Qed.
Lemma later_trans a b c : later a b -> later b c -> later a c.
Proof. unfold later. intuition congruence. Qed.
#[local] Hint Resolve ends_refl later_refl : core.

Lemma ends_update_rto c s cfg : ends c (update_rto c s cfg).
Proof. unfold update_rto. by destruct (srtt c). Qed.
Lemma ends_grow_cwnd c a cfg : ends c (grow_cwnd c a cfg).
Proof.
  unfold grow_cwnd. destruct (has _ _); cbv zeta; [by destruct (syn_retransmitted _)|].
  destruct (0 <? _); [|done]. destruct (cwnd c <? ssthresh c); [done|]. by destruct (cwnd _ <=? _).
Qed.
Lemma ends_restart_timer c now : ends c (restart_timer c now).
Proof. done. Qed.
Lemma ends_fin_acked c a now cfg : ends c (fin_acked c a now cfg).
Proof. unfold fin_acked, enter_time_wait. destruct (has _ _); [|done]. by destruct (state c). Qed.
Lemma ends_update_window c seg : ends c (update_window c seg).
Proof. unfold update_window. destruct (_ || _); [|done]. by destruct (0 <? _). Qed.
Lemma ends_ack_progress c ack now cfg : ends c (ack_progress c ack now cfg).
Proof.
  unfold ack_progress. destruct (ack_flights _ _ _ _) as [[g fs] a]. destruct (negb g); [done|].
  cbv zeta. eapply ends_trans; [|apply ends_fin_acked]. eapply ends_trans; [|apply ends_grow_cwnd].
  eapply ends_trans; [|apply ends_restart_timer]. destruct (ambiguous a); [done|].
  destruct (sample a); [|done]. eapply ends_trans; [|apply ends_update_rto]. done.
Qed.
Lemma ends_acknowledge c seg now cfg : ends c (acknowledge c seg now cfg).
Proof.
  unfold acknowledge. destruct (before _ _); [done|]. cbv zeta.
  destruct (_ =? _); [apply ends_update_window|].
  eapply ends_trans; [apply ends_update_window|apply ends_ack_progress].
Qed.
Lemma ends_receive_data c seg now cfg : ends c (receive_data c seg now cfg).
Proof.
  unfold receive_data. destruct (_ && _); [done|]. cbn.
  destruct (_ || _); [done|]. destruct (before _ _); [done|].
  destruct (_ <? _); [done|]. cbn. destruct (has (flags seg) FIN); [|done].
  destruct (_ && _); [|done]. by destruct (state c).
Qed.
Lemma ends_syn_sent c seg now cfg : ends c (syn_sent c seg now cfg).
Proof.
  unfold syn_sent. destruct (has (flags seg) RST). { by destruct (_ && _). }
  destruct (_ || _); [done|]. cbv zeta.
  match goal with |- context [acknowledge ?x seg now cfg] =>
    pose proof (ends_acknowledge x seg now cfg : ends c _) as E1;
    set (c1 := acknowledge x seg now cfg) in * end.
  clearbody c1. destruct (bool_decide _); [exact E1|].
  match goal with |- ends _ (receive_data ?x _ _ _) => apply (ends_trans c x); [exact E1|] end.
  apply ends_receive_data.
Qed.
Lemma ends_input c seg now cfg : ends c (input c seg now cfg).
Proof.
  unfold input. destruct (is_terminal _); [done|].
  destruct (bool_decide _); [apply ends_syn_sent|].
  destruct (bool_decide _). { destruct (negb _); [|done]. cbv zeta. by destruct (_ && _). }
  destruct (_ && _); [done|]. destruct (negb _); [by destruct (negb _)|].
  destruct (has _ RST); [by destruct (_ =? _)|]. destruct (has _ SYN); [done|].
  destruct (negb _); [done|]. destruct (before _ _); [done|]. destruct (_ && _); [done|]. cbv zeta.
  match goal with |- context [acknowledge ?x seg now cfg] =>
    assert (ends c x) as E0 by (by destruct (bool_decide _));
    pose proof (ends_trans _ _ _ E0 (ends_acknowledge x seg now cfg)) as E1;
    set (c1 := acknowledge x seg now cfg) in * end.
  clearbody c1. destruct (is_terminal _); [done|]. eapply ends_trans; [exact E1|].
  apply ends_receive_data.
Qed.

Lemma later_input c seg now cfg : later c (input c seg now cfg).
Proof.
  destruct (ends_input c seg now cfg) as (E1 & E2 & _). split_and!; [done..|].
  intros T. unfold input. by rewrite T.
Qed.
Lemma later_fail c s : is_terminal s = true -> later c (fail_ c s).
Proof. done. Qed.
Lemma later_tick c now cfg : later c (tick c now cfg).
Proof.
  unfold tick. destruct (is_terminal _); [done|]. destruct (bool_decide _).
  { by destruct (reached _ _). }
  cbv zeta. destruct (_ || _); [|done]. by apply later_fail.
Qed.
Lemma later_write c bytes cfg : later c (write c bytes cfg).2.
Proof.
  unfold write. destruct (_ || _); [done|]. destruct (_ =? _); [done|]. cbv zeta.
  by destruct (_ =? _).
Qed.
Lemma later_read c len : later c (read c len).2.
Proof.
  unfold read. destruct (_ =? _); [done|]. destruct (local_error c); [done|].
  destruct (bool_decide _); [done|]. destruct (bool_decide _); [done|]. cbv zeta.
  destruct (0 <? _); [done|]. by destruct (_ || _).
Qed.
Lemma later_close c now cfg : later c (close c now cfg).2.
Proof. unfold close. destruct (write_closed c); [done|]. by destruct (negb _). Qed.
Lemma later_report cfg now id c log st : later c (report_one cfg now id c log st).1.1.
Proof. unfold report_one. cbv zeta. destruct (_ && _); [done|]. by destruct (_ =? _). Qed.

(** ** The connection table *)
Definition tuple_of (c : Connection) : option (SocketAddrV4 * SocketAddrV4) :=
  if is_terminal (state c) then None else Some (local c, remote c).
Definition tuples (cs : list (Z * Connection)) : list (SocketAddrV4 * SocketAddrV4) :=
  omap tuple_of cs.*2.

Record table_ok (cfg : TcpConfig) (next : Z) (cs : list (Z * Connection)) : Prop := {
  tb_sorted : om_sorted cs;
  tb_ids : Forall (fun id => 0 < id < next) cs.*1;
  tb_conns : Forall (conn_inv cfg) cs.*2;
  tb_count : zlen cs <= max_connections cfg;
  tb_unique : NoDup (tuples cs)
}.

Lemma later_tuple c c' : later c c' -> tuple_of c' = None \/ tuple_of c' = tuple_of c.
Proof.
  intros (E1 & E2 & T). unfold tuple_of. destruct (is_terminal (state c')) eqn:E; [by left|right].
  destruct (is_terminal (state c)); [by specialize (T eq_refl)|]. by rewrite E1, E2.
Qed.
Lemma omap_later (l l' : list Connection) :
  Forall2 later l l' -> omap tuple_of l' `sublist_of` omap tuple_of l.
Proof.
  induction 1 as [|c c' l l' L _ IH]; [done|]. simpl.
  destruct (later_tuple c c' L) as [-> | ->].
  - destruct (tuple_of c); [by constructor|done].
  - destruct (tuple_of c); [by constructor|done].
Qed.
(** A step of some connections. *)
Lemma table_evolve cfg next cs cs' :
  table_ok cfg next cs -> cs'.*1 = cs.*1 -> Forall2 later cs.*2 cs'.*2 ->
  Forall (conn_inv cfg) cs'.*2 -> table_ok cfg next cs'.
Proof.
  intros [] Ek L I. constructor.
  - unfold om_sorted in *. by rewrite Ek.
  - by rewrite Ek.
  - done.
  - assert (length cs' = length cs) as El by (by rewrite <- (length_fmap fst cs'), Ek, length_fmap).
    unfold zlen in *. by rewrite El.
  - eapply sublist_NoDup; [exact tb_unique0|]. by apply omap_later.
Qed.
Lemma omap_sublist {A B} (f : A -> option B) (l l' : list A) :
  l' `sublist_of` l -> omap f l' `sublist_of` omap f l.
Proof.
  induction 1 as [|x ? ? _ IH|x ? ? _ IH]; [done|..]; simpl; destruct (f x); try done;
    by constructor.
Qed.
Lemma fmap_sublist {A B} (f : A -> B) (l l' : list A) :
  l' `sublist_of` l -> f <$> l' `sublist_of` f <$> l.
Proof. induction 1; simpl; [done|by constructor..]. Qed.
Lemma Forall_sublist {A} (P : A -> Prop) (l l' : list A) :
  l' `sublist_of` l -> Forall P l -> Forall P l'.
Proof.
  induction 1; intros F; [done|..]; apply Forall_cons in F as [? ?]; auto.
Qed.
(** Connections leave the table. *)
Lemma table_sublist cfg next cs cs' :
  table_ok cfg next cs -> cs' `sublist_of` cs -> table_ok cfg next cs'.
Proof.
  intros [] S. constructor.
  - by eapply om_sublist_sorted.
  - by eapply om_sublist_keys.
  - eapply Forall_sublist; [|exact tb_conns0]. by apply fmap_sublist.
  - apply sublist_length in S. unfold zlen in *. lia.
  - eapply sublist_NoDup; [exact tb_unique0|]. by apply omap_sublist, fmap_sublist.
Qed.
(** A connection enters under the next identifier. *)
Lemma table_open cfg next cs c :
  table_ok cfg next cs -> 0 < next -> zlen cs < max_connections cfg -> conn_inv cfg c ->
  om_find (serves (local c) (remote c)) cs = None ->
  om_insert cs next c = cs ++ [(next, c)] /\ table_ok cfg (Z.succ next) (cs ++ [(next, c)]).
Proof.
  intros [] Hn Hc I Hf.
  assert (Forall (fun i => i < next) cs.*1) as Hlt
    by (eapply Forall_impl; [exact tb_ids0|]; simpl; lia).
  split; [by apply om_insert_last|]. constructor.
  - by apply om_sorted_snoc.
  - rewrite fmap_app. apply Forall_app. split; [|by repeat constructor; simpl; lia].
    eapply Forall_impl; [exact tb_ids0|]. simpl. lia.
  - rewrite fmap_app. apply Forall_app. split; [done|]. constructor; [exact I|constructor].
  - rewrite zlen_app. unfold zlen in *. simpl. lia.
  - unfold tuples. rewrite fmap_app, omap_app. apply NoDup_app. split; [done|]. split.
    + intros t Ht Hin. simpl in Hin. apply list_elem_of_omap in Ht as (c0 & Hc0 & Et).
      pose proof (om_find_none _ _ _ Hf Hc0) as S0. unfold serves in S0. unfold tuple_of in *.
      destruct (is_terminal (state c)); [by apply elem_of_nil in Hin|].
      apply list_elem_of_singleton in Hin as ->.
      destruct (is_terminal (state c0)); [done|]. injection Et as E1 E2.
      rewrite E1, E2, !bool_decide_eq_true_2 in S0 by done. done.
    + simpl. destruct (tuple_of c); [apply NoDup_singleton|constructor].
Qed.
(** One connection of the table, updated in place. *)
Lemma table_set cfg next cs id c c' :
  table_ok cfg next cs -> om_get cs id = Some c -> conn_inv cfg c' -> later c c' ->
  table_ok cfg next (om_set cs id c').
Proof.
  intros T G I L. destruct (om_set_split _ _ _ G) as (m1 & m2 & -> & Es).
  eapply table_evolve; [exact T|by rewrite om_keys_set|..]; rewrite Es, !fmap_app; simpl.
  - apply Forall2_app; [by apply Forall_Forall2_diag, Forall_true|]. constructor; [done|].
    by apply Forall_Forall2_diag, Forall_true.
  - pose proof (tb_conns _ _ _ T) as F. rewrite fmap_app in F. simpl in F.
    apply Forall_app in F as [F1 F2]. apply Forall_cons in F2 as [_ F2].
    apply Forall_app. split; [done|]. by constructor.
Qed.
Lemma table_get cfg next cs id c : table_ok cfg next cs -> om_get cs id = Some c -> conn_inv cfg c.
Proof.
  intros T G. pose proof (tb_conns _ _ _ T) as F. rewrite Forall_forall in F. apply F.
  apply om_get_elem in G. by apply (list_elem_of_fmap_2 snd) in G.
Qed.
(** At most one live connection serves a pair of endpoints. *)
Lemma tuples_unique (m : list (Z * Connection)) l r i j c c' :
  NoDup (tuples m) -> (i, c) ∈ m -> (j, c') ∈ m -> serves l r c = true -> serves l r c' = true ->
  i = j.
Proof.
  assert (forall c, serves l r c = true -> tuple_of c = Some (l, r)) as Ht.
  { intros x Hx. unfold serves in Hx. unfold tuple_of.
    rewrite !andb_true_iff, !bool_decide_eq_true, negb_true_iff in Hx. by destruct Hx as [[<- <-] ->]. }
  intros N Hi Hj S S'. apply Ht in S, S'. clear Ht. revert N.
  assert (forall (m : list (Z * Connection)) k x, (k, x) ∈ m -> tuple_of x = Some (l, r) -> (l, r) ∈ tuples m) as Hin.
  { intros m' k x Hx E. unfold tuples. apply list_elem_of_omap. exists x. split; [|done].
    by apply (list_elem_of_fmap_2 snd) in Hx. }
  unfold tuples in *. induction m as [|[k x] m IH]; [by apply elem_of_nil in Hi|]. simpl. intros N.
  apply elem_of_cons in Hi as [[= -> ->]|Hi]; apply elem_of_cons in Hj as [[= -> ->]|Hj]; [done|..].
  - rewrite S in N. apply NoDup_cons in N as [N _]. destruct N. by eapply Hin.
  - rewrite S' in N. apply NoDup_cons in N as [N _]. destruct N. by eapply Hin.
  - apply IH; try done. destruct (tuple_of x); [|done]. by apply NoDup_cons in N as [_ N].
Qed.
Lemma table_unique cfg next cs l r i j c c' :
  table_ok cfg next cs -> om_get cs i = Some c -> om_get cs j = Some c' ->
  serves l r c = true -> serves l r c' = true -> i = j.
Proof.
  intros T Gi Gj. apply om_get_elem in Gi, Gj.
  by apply (tuples_unique cs l r i j c c' (tb_unique _ _ _ T)).
Qed.

(** ** Reports *)
Lemma report_inv cfg now id c log st :
  conn_inv cfg c -> conn_inv cfg (report_one cfg now id c log st).1.1.
Proof.
  intros I. unfold report_one. cbv zeta. destruct (_ && _); [done|].
  destruct (_ =? _); cbn [fst snd]; destruct I as [[] ?]; by split; [constructor|].
Qed.
Lemma report_log cfg now id c log st :
  0 < event_capacity cfg -> zlen log <= event_capacity cfg ->
  zlen (report_one cfg now id c log st).1.2 <= event_capacity cfg.
Proof.
  intros H0 Hl. unfold report_one. cbv zeta. destruct (_ && _); [done|].
  destruct (_ =? _) eqn:E; bools; cbn [fst snd]; rewrite zlen_app; change (zlen [_]) with 1; [|lia].
  destruct log as [|e log]; [change (zlen (@nil TcpEvent)) with 0 in E; lia|].
  rewrite zlen_cons in E. simpl. lia.
Qed.
Lemma report_all_spec cfg now cs log st :
  Forall (conn_inv cfg) cs.*2 -> 0 < event_capacity cfg -> zlen log <= event_capacity cfg ->
  let '(cs', log', _) := report_all cfg now cs log st in
  cs'.*1 = cs.*1 /\ Forall2 later cs.*2 cs'.*2 /\ Forall (conn_inv cfg) cs'.*2
  /\ zlen log' <= event_capacity cfg.
Proof.
  intros F H0. revert log st. induction cs as [|[id c] cs IH]; intros log st Hl.
  { simpl. split_and!; try done. }
  simpl in F. apply Forall_cons in F as [I F]. simpl.
  pose proof (report_inv cfg now id c log st I) as Ir. pose proof (later_report cfg now id c log st) as Lr.
  pose proof (report_log cfg now id c log st H0 Hl) as Hr.
  destruct (report_one cfg now id c log st) as [[c' log'] st']. cbn [fst snd] in *.
  specialize (IH F log' st' Hr). destruct (report_all cfg now cs log' st') as [[cs' log''] st''].
  destruct IH as (E & L & F' & Hl''). rewrite !fmap_cons. cbn [fst snd]. rewrite E. split_and!; [done|by constructor| |done].
  constructor; [exact Ir|exact F'].
Qed.

(** ** The pool without its device *)
Record pool_core {D} (p : TcpPool D) : Prop := {
  pc_typed : config_typed (config p);
  pc_valid : config_valid (config p) = true;
  pc_table : table_ok (config p) (next_id p) (connections p);
  pc_next : 0 < next_id p <= U64MAX;
  pc_listeners : Z.of_nat (size (listeners p)) <= max_listeners (config p);
  pc_listening : set_Forall (fun a => address_valid a = true) (listeners p);
  pc_resets : zlen (resets p) <= control_capacity (config p);
  pc_reset_ok : Forall (fun r => segment_ok (reset_segment r)) (resets p);
  pc_events : zlen (events p) <= event_capacity (config p)
}.
(** What operations that do not touch the device leave alone. *)
Definition quiet {D} (p p' : TcpPool D) : Prop :=
  device p' = device p /\ rx p' = rx p /\ config p' = config p /\ pool_now p' = pool_now p.

Section Quiet.
Context {D : Type}.
Implicit Types p : TcpPool D.

Lemma quiet_refl p : quiet p p.
Proof. done. Qed.
Lemma quiet_trans p q r : quiet p q -> quiet q r -> quiet p r.
Proof. unfold quiet. intuition congruence. Qed.

Lemma core_ok p : pool_core p -> config_ok (config p).
Proof. intros []. by apply config_valid_ok. Qed.
Lemma core_verbose p : pool_core p -> verbose_state (config p) = true -> 0 < event_capacity (config p).
Proof.
  intros [[] V _ _ _ _ _ _ _] Hv. unfold config_valid in V. rewrite negb_true_iff in V.
  repeat (apply orb_false_iff in V as [V ?]).
  rewrite Hv in *. bools. lia.
Qed.

(** Replacing the table, and nothing the invariant looks at besides. *)
Lemma core_table p cs :
  pool_core p -> table_ok (config p) (next_id p) cs -> pool_core (p <| connections := cs |>).
Proof. intros [] T. by constructor. Qed.
Lemma core_stats p st : pool_core p -> pool_core (p <| stats := st |>).
Proof. intros []. by constructor. Qed.
Lemma core_device p d : pool_core p -> pool_core (p <| device := d |>).
Proof. intros []. by constructor. Qed.
Lemma core_rx p r : pool_core p -> pool_core (p <| rx := r |>).
Proof. intros []. by constructor. Qed.
Lemma core_now p t : pool_core p -> pool_core (p <| pool_now := t |>).
Proof. intros []. by constructor. Qed.
Lemma core_draws p n : pool_core p -> pool_core (p <| draws := n |>).
Proof. intros []. by constructor. Qed.
Lemma core_pop_reset p r rest : pool_core p -> resets p = r :: rest -> pool_core (p <| resets := rest |>).
Proof.
  intros [] E. rewrite E in *. constructor; try done; simpl.
  - rewrite zlen_cons in *. lia.
  - by apply Forall_cons in pc_reset_ok0 as [_ ?].
Qed.

Lemma report_states_spec p : pool_core p -> pool_core (report_states p) /\ quiet p (report_states p).
Proof.
  intros I. unfold report_states. destruct (verbose_state _) eqn:V; [|done]. simpl negb. cbv iota.
  pose proof (report_all_spec (config p) (pool_now p) (connections p) (events p) (stats p)
    (tb_conns _ _ _ (pc_table _ I)) (core_verbose _ I V) (pc_events _ I)) as R.
  destruct (report_all _ _ _ _ _) as [[cs log] st]. destruct R as (Ek & L & F & Hl).
  split; [|done]. pose proof (table_evolve _ _ _ _ (pc_table _ I) Ek L F) as T.
  destruct I. by constructor.
Qed.
Lemma queue_reset_spec p r :
  pool_core p -> segment_ok (reset_segment r) -> pool_core (queue_reset r p) /\ quiet p (queue_reset r p).
Proof.
  intros I Hr. unfold queue_reset. destruct (_ =? _) eqn:E; bools.
  { split; [by apply core_stats|done]. }
  split; [|done]. destruct I. constructor; try done; simpl.
  - rewrite zlen_app. change (zlen [r]) with 1. lia.
  - apply Forall_app. split; [done|]. constructor; [exact Hr|constructor].
Qed.
(** The constant fields of a reset. *)
Lemma reset_segment_ok r :
  sock_ok (rs_local r) -> sock_ok (rs_remote r) -> 0 <= rs_sequence r < W32 ->
  0 <= rs_acknowledgment r < W32 -> is_byte (rs_flags r) -> segment_ok (reset_segment r).
Proof.
  intros. constructor; simpl; try done. constructor.
Qed.
Lemma reset_packet_ok cfg c : config_ok cfg -> conn_inv cfg c -> segment_ok (reset_segment (reset_packet c)).
Proof.
  intros Hc I. pose proof (inv_sent cfg c I). pose proof (inv_rcv _ _ I).
  apply reset_segment_ok; simpl; try apply I; try done. by destruct (bool_decide _).
Qed.
Lemma refusal_ok s : segment_ok s -> segment_ok (reset_segment (refusal s)).
Proof.
  intros []. unfold refusal. destruct (has _ _); apply reset_segment_ok; simpl; try done.
  apply u32_range.
Qed.

(** A result of an operation that leaves the device alone. *)
Definition quiet_op {A} (p : TcpPool D) (res : outcome A * TcpPool D) : Prop :=
  returns res.1 /\ pool_core res.2 /\ quiet p res.2.
Lemma quiet_same {A} p (r : outcome A) : pool_core p -> returns r -> quiet_op p (r, p).
Proof. done. Qed.

Lemma address_ok a : address_valid a = true <-> validate_address a = Ok tt.
Proof. unfold address_valid, validate_address. by destruct (_ || _). Qed.
Lemma listen_spec p a : pool_core p -> quiet_op p (listen a p).
Proof.
  intros I. unfold listen. destruct (validate_address a) as [[]| | |] eqn:Ev; try done;
    [|by revert Ev; unfold validate_address; destruct (_ || _)..].
  case_bool_decide as Ha; [done|]. destruct (_ =? _) eqn:E; bools; [done|].
  split; [done|]. split; [|done]. destruct I. constructor; try done; simpl.
  - rewrite size_union by set_solver. rewrite size_singleton. lia.
  - apply set_Forall_union; [|done]. apply set_Forall_singleton. by apply address_ok.
Qed.
Lemma unlisten_spec p a : pool_core p -> pool_core (unlisten a p) /\ quiet p (unlisten a p).
Proof.
  intros I. split; [|done]. unfold unlisten.
  pose proof (table_sublist _ _ _ _ (pc_table _ I)
    (om_retain_sublist (fun c => accepted c || negb (bool_decide (local c = a))) _)) as T.
  destruct I. constructor; try done; simpl.
  - assert (size (listeners p ∖ {[a]}) <= size (listeners p))%nat
      by (apply subseteq_size; set_solver). lia.
  - intros x Hx. apply pc_listening0. set_solver.
Qed.

Lemma accept_spec p a : pool_core p -> quiet_op p (accept a p).
Proof.
  intros I. unfold accept. destruct (negb _); [done|].
  destruct (om_find _ _) as [id|] eqn:Ef; [|done].
  apply om_find_some in Ef as (c & G & _); [|apply (pc_table _ I)]. rewrite G.
  split; [done|]. split; [|done]. apply core_table; [done|].
  eapply table_set; [apply (pc_table _ I)|exact G| |done].
  pose proof (table_get _ _ _ _ _ (pc_table _ I) G) as Ic. destruct Ic as [[] ?]. by split; [constructor|].
Qed.
Lemma with_connection_spec {A} p id (f : Connection -> outcome A * Connection) :
  pool_core p ->
  (forall c, om_get (connections p) id = Some c -> conn_inv (config p) c ->
     returns (f c).1 /\ conn_inv (config p) (f c).2 /\ later c (f c).2) ->
  quiet_op p (with_connection id f p).
Proof.
  intros I Hf. unfold with_connection. destruct (om_get _ _) as [c|] eqn:G; [|done].
  destruct (Hf c eq_refl (table_get _ _ _ _ _ (pc_table _ I) G)) as (R & Ic & L).
  destruct (f c) as [r c']. split; [done|]. split; [|done]. apply core_table; [done|].
  by eapply table_set; [apply (pc_table _ I)|..].
Qed.
Lemma abort_spec p id : pool_core p -> quiet_op p (abort_ id p).
Proof.
  intros I. unfold abort_. destruct (om_get _ _) as [c|] eqn:G; [|done].
  pose proof (table_get _ _ _ _ _ (pc_table _ I) G) as Ic. cbv zeta.
  set (p1 := p <| connections ::= _ |>).
  assert (pool_core p1) as I1.
  { apply core_table; [done|]. eapply table_set; [apply (pc_table _ I)|exact G| |by apply later_fail].
    apply fail_inv; [by apply core_ok|done..]. }
  destruct (queue_reset_spec p1 (reset_packet c) I1) as (I2 & Q2).
  { apply (reset_packet_ok (config p)); [by apply core_ok|done]. }
  destruct (report_states_spec _ I2) as (I3 & Q3).
  split; [done|]. split; [done|]. eapply quiet_trans; [|exact Q3]. eapply quiet_trans; [|exact Q2]. done.
Qed.
Lemma remove_spec p id : pool_core p -> quiet_op p (remove id p).
Proof.
  intros I. unfold remove. destruct (om_get _ _) as [c|]; [|done]. destruct (negb _); [done|].
  destruct (report_states_spec _ I) as (I1 & Q1). split; [done|]. split; [|exact Q1].
  apply core_table; [done|]. eapply table_sublist; [apply (pc_table _ I1)|apply om_remove_sublist].
Qed.

End Quiet.


Section Opening.
Context {D : Type} (urandom : nat -> outcome Z) (urandom_ok : entropy_ok urandom).
Implicit Types p : TcpPool D.

(** A new connection, under a fresh identifier, when no live one has its endpoints. *)
Lemma open_with_spec p mk l r :
  pool_core p -> zlen (connections p) < max_connections (config p) -> find p l r = None ->
  (forall iss, 0 <= iss < W32 ->
     conn_inv (config p) (mk iss) /\ local (mk iss) = l /\ remote (mk iss) = r) ->
  quiet_op p (open_with urandom mk p)
  /\ match open_with urandom mk p with
     | (Ok id, p') => exists iss, id = next_id p /\ urandom (draws p) = Ok iss
         /\ connections p' = connections p ++ [(id, mk iss)]
         /\ next_id p' = Z.succ (next_id p) /\ resets p' = resets p /\ listeners p' = listeners p
     | (_, p') => connections p' = connections p
     end.
Proof.
  intros I Hc Hf Hmk. unfold open_with, initial_sequence. pose proof (urandom_ok (draws p)) as Hu.
  pose proof (core_draws p (S (draws p)) I) as I1.
  destruct (urandom (draws p)) as [iss|k| |] eqn:Eu; try done. cbn [then_].
  unfold allocate_id. destruct (_ <? _) eqn:E; bools; [done|]. cbn [then_].
  destruct (Hmk iss Hu) as (Hi & El & Er).
  pose proof (pc_next _ I) as Hn. rewrite <- El, <- Er in Hf.
  destruct (table_open _ _ _ _ (pc_table _ I) (proj1 Hn) Hc Hi Hf) as (Ei & T).
  simpl in E. split; [split; [done|split; [|done]]|].
  - destruct I. constructor; try done; simpl; [|lia]. by rewrite Ei.
  - simpl. exists iss. by rewrite Ei.
Qed.

Lemma connect_spec p l r :
  pool_core p -> sock_ok l -> sock_ok r -> quiet_op p (connect urandom l r p).
Proof.
  intros I Hl Hr. unfold connect.
  assert (forall a, validate_address a = Ok tt \/ validate_address a = Err InvalidInput) as Hv
    by (intros a; unfold validate_address; destruct (_ || _); auto).
  destruct (Hv l) as [-> | ->]; cbn [then_]; [|done].
  destruct (Hv r) as [-> | ->]; cbn [then_]; [|done].
  case_bool_decide; [done|]. destruct (_ =? _) eqn:E; bools; [done|].
  case_bool_decide as Hf; [done|]. apply eq_None_not_Some in Hf.
  apply (open_with_spec p _ l r I); [|done|].
  - pose proof (tb_count _ _ _ (pc_table _ I)). lia.
  - intros iss Hi. split; [|done]. apply active_inv; [by apply core_ok|done..].
Qed.
Lemma pool_input_spec p s : pool_core p -> segment_ok s -> quiet_op p (pool_input urandom s p).
Proof.
  intros I Hs. unfold pool_input.
  assert (quiet_op p (Ok tt, ignore p)) as Ig by (split; [done|split; [by apply core_stats|done]]).
  destruct (_ || _); [exact Ig|]. destruct (find p _ _) as [id|] eqn:Ef.
  { apply om_find_some in Ef as (c & G & _); [|apply (pc_table _ I)]. rewrite G.
    split; [done|]. split; [|done]. apply core_table; [done|].
    eapply table_set; [apply (pc_table _ I)|exact G| |apply later_input].
    eapply input_spec; [by apply core_ok|by eapply table_get, G; apply (pc_table _ I)|done]. }
  destruct (_ && _); [exact Ig|]. destruct (has _ RST); [done|].
  destruct (bool_decide _ && _).
  - destruct (_ =? _) eqn:E; bools; [split; [done|split; [by apply core_stats|done]]|].
    destruct (open_with_spec p (fun sequence => passive s sequence (pool_now p) (config p))
      (destination s) (source s) I) as (Q & _); [|done|..].
    + pose proof (tb_count _ _ _ (pc_table _ I)). lia.
    + intros iss Hi. split; [|done]. by apply passive_inv; [apply core_ok|..].
    + destruct (open_with _ _ _) as [r p']. destruct Q as (R & I' & Q'). destruct r; done.
  - destruct (queue_reset_spec p (refusal s) I (refusal_ok s Hs)). done.
Qed.
End Opening.
