(* ===== verification/TcpPoolPoll.v ===== *)
(** * Polling the TCP pool over a device: proofs

    [poll] and its phases against the [DeviceLaws] interface: receive and dispatch,
    the reset queue, the transmit loops.  Every phase returns, keeps the pool invariant and
    gives back every frame that it does not hand to the device. *)
From Stdlib Require Import ZArith Lia Bool.
From stdpp Require Import base numbers option list gmap.
From S2P Require Import Prelude BufferPool Addr TcpWire TcpTypes Device Loopback OrdMap TcpConn TcpConnInv TcpAckInv TcpInputInv TcpOutputInv TcpTransmit TcpPool TcpPoolInv.
#[local] Open Scope Z_scope.

Section Poll.
Context {D : Type} `{DeviceLaws D} (urandom : nat -> outcome Z) (urandom_ok : entropy_ok urandom).
Implicit Types p : TcpPool D.

(** The pool invariant: the frames [held] belong to the caller, the frames of the receive
    scratch vector to the pool, all others to the device. *)
Record pool_inv p (held : list Z) : Prop := {
  pi_core : pool_core p;
  pi_dev : dev_inv (device p) (owned (rx p) ++ held);
  pi_rx : Forall (handle (dev_pool (device p)) (dev_frame_size (device p))) (rx p)
}.
Lemma quiet_op_inv {A} p held (res : outcome A * TcpPool D) :
  pool_inv p held -> quiet_op p res -> returns res.1 /\ pool_inv res.2 held.
Proof.
  intros [] (R & I & (E1 & E2 & _)). split; [done|]. constructor; rewrite ?E1, ?E2; done.
Qed.

(** A phase of [poll] that leaves the scratch vector alone. *)
Definition phase {A} (p : TcpPool D) (held : list Z) (r : outcome A) (p' : TcpPool D) : Prop :=
  returns r /\ pool_core p' /\ dev_after (device p) (device p') held /\ rx p' = rx p
  /\ config p' = config p /\ pool_now p' = pool_now p.
Lemma phase_refl {A} p held (r : outcome A) :
  returns r -> pool_core p -> dev_inv (device p) held -> phase p held r p.
Proof. by unfold phase, dev_after. Qed.
Lemma phase_trans {A B} p q s h1 h2 (r1 : outcome A) (r2 : outcome B) :
  phase p h1 r1 q -> phase q h2 r2 s -> phase p h2 r2 s.
Proof.
  intros (_ & _ & A1 & X1 & C1 & N1) (R & I & A2 & X2 & C2 & N2). unfold phase.
  rewrite X2, C2, N2. split_and!; try done. by eapply dev_after_trans.
Qed.
Lemma phase_quiet {A} p held (res : outcome A * TcpPool D) :
  dev_inv (device p) held -> quiet_op p res -> phase p held res.1 res.2.
Proof. intros I (R & C & (E1 & E2 & E3 & E4)). unfold phase, dev_after. by rewrite E1. Qed.
Lemma phase_device {A} p held (r : outcome A) d :
  returns r -> pool_core p -> dev_after (device p) d held -> phase p held r (p <| device := d |>).
Proof. intros. split_and!; try done. by apply core_device. Qed.

(** ** Receiving *)
Lemma take_frame_spec p bytes :
  pool_core p -> bytes_ok bytes -> quiet_op p (take_frame urandom bytes p).
Proof.
  intros I Hb. unfold take_frame.
  destruct (_ || _); [split; [done|split; [by apply core_stats|done]]|].
  destruct (parse_ipv4_spec bytes Hb) as [-> |(s & -> & Hs & _)].
  - split; [done|split; [by apply core_stats|done]].
  - match goal with |- quiet_op _ (pool_input _ _ ?q) =>
      destruct (pool_input_spec urandom urandom_ok q s) as (R & I' & Q); [by apply core_stats|done|] end.
    by split.
Qed.
Lemma drain_cons f fs p :
  drain urandom (f :: fs) p =
    match take_frame urandom (as_slice f) p with
    | (Ok _, p) => then_ (on_device (dev_drop f) p) id (fun _ p => drain urandom fs p)
    | (r, p) => on_device (drop_all (f :: fs) r) p
    end.
Proof. done. Qed.
Lemma drain_spec frames p held :
  pool_core p -> dev_inv (device p) (owned frames ++ held) ->
  Forall (handle (dev_pool (device p)) (dev_frame_size (device p))) frames ->
  exists r p', drain urandom frames p = (r, p') /\ phase p held r p'.
Proof.
  revert p. induction frames as [|f fs IH]; intros p I Id F.
  { exists (Ok tt), p. split; [done|]. by apply phase_refl. }
  pose proof (Forall_inv F) as Hf.
  destruct (take_frame_spec p (as_slice f) I (handle_bytes _ _ _ Hf)) as (R & I1 & (E1 & E2 & E3 & E4)).
  rewrite drain_cons. destruct (take_frame _ _ _) as [r p1]. cbn [fst snd] in *.
  unfold on_device. rewrite E1.
  destruct (drop_all_spec (device p) held (f :: fs) r Id F) as (d2 & Eall & A2).
  assert (phase p held r (p1 <| device := d2 |>)) as Stop.
  { split_and!; try done. by apply core_device. }
  apply Forall_cons in F as [_ F]. rewrite owned_cons, <- app_assoc in Id.
  destruct (dev_drop_law _ _ f Id Hf) as (d1 & Ed & Id1 & P1 & Z1).
  destruct r as [[]|k| |]; try done.
  - rewrite Ed. cbn [then_].
    destruct (IH (p1 <| device := d1 |>)) as (r & p' & -> & Ph); [by apply core_device|done|by simpl; rewrite P1, Z1|].
    exists r, p'. split; [done|]. eapply (phase_trans _ _ _ _ _ (Ok tt)); [|exact Ph].
    split_and!; try done. by apply core_device.
  - rewrite Eall. eauto.
Qed.

(** ** The reset queue *)
Lemma flush_reset_spec p held :
  pool_core p -> dev_inv (device p) held ->
  exists r p', flush_reset p = (r, p') /\ phase p held r p'.
Proof.
  intros I Id. unfold flush_reset. destruct (resets p) as [|reset rest] eqn:Er.
  { eexists _, p. split; [done|]. by apply phase_refl. }
  pose proof (pc_reset_ok _ I) as Fr. rewrite Er in Fr. apply Forall_cons in Fr as [Hs _].
  pose proof (core_pop_reset p _ _ I Er) as Ip.
  unfold on_device at 1. destruct (dev_alloc_law _ held Id) as (a & d1 & -> & P1 & Z1 & Ha).
  cbn [then_]. destruct a as [frame|].
  2:{ eexists _, _. split; [done|]. by apply phase_device. }
  destruct Ha as (I1 & Hh & Hp & _). rewrite <- P1, <- Z1 in Hh.
  assert (dev_inv d1 (owned [frame] ++ held)) as I1' by (by rewrite (owned_one _ _ Hp)).
  pose proof (build_ipv4_spec frame (reset_segment reset) (proj1 Hh)) as B.
  destruct (_ && _).
  2:{ rewrite B. unfold on_device.
      destruct (drop_all_spec d1 held [frame] (Err InvalidInput : outcome unit) I1' ltac:(by constructor))
        as (d2 & E2 & A2).
      change (device (p <| device := d1 |>)) with d1. cbn [recast obind]. rewrite E2.
      eexists _, _. split; [done|]. split_and!; try done; [by repeat apply core_device|].
      eapply dev_after_trans; [|exact A2]. done. }
  destruct B as (b & -> & Wb & _ & Cb & _ & Ib & Pb & Db).
  pose proof (build_handle _ _ _ _ _ Hh Hs Wb Cb Pb Db) as Hb.
  assert (owned [b] = owned [frame]) as Ow
    by (rewrite (owned_one b _ (eq_trans Pb Hp)), (owned_one frame _ Hp); by rewrite Ib).
  rewrite <- Ow in I1'. change (device (p <| device := d1 |>)) with d1.
  assert (Forall (handle (dev_pool d1) (dev_frame_size d1)) [b]) as F1
    by (constructor; [exact Hb|constructor]).
  destruct (dev_send_law d1 held [b] I1' F1) as (r & d2 & frames & -> & P2 & Z2 & I2 & Hr).
  clear Db.
  assert (dev_after (device p) d2 (owned frames ++ held)) as A2.
  { split; [done|]. split; congruence. }
  assert (Forall (handle (dev_pool d2) (dev_frame_size d2)) frames) as F2.
  { rewrite P2, Z2. destruct r as [n|k| |]; [|by subst|done|done].
    destruct Hr as [Hn ->]. apply Forall_app. split; [|by apply Forall_drop].
    apply Forall_replicate, handle_default. }
  set (res := match r with Ok _ => _ | _ => _ end).
  assert (exists q, res.2 = q <| device := d2 |> /\ pool_core q /\ returns res.1
            /\ rx q = rx p /\ config q = config p /\ pool_now q = pool_now p) as (q & Eq & Iq & Rq & Xq & Cq & Nq).
  { unfold res. destruct r as [n|k| |]; [| |done|done].
    - destruct (n =? 1); [|by exists p].
      exists (p <| resets := rest |> <| stats ::= fun s => s <| st_resets_submitted ::= count 1 |> |>).
      split_and!; try done. by apply core_stats.
    - destruct k; try (by exists p).
      all: exists (p <| resets := rest |> <| stats ::= fun s => s <| st_control_drops ::= count 1 |> |>).
      all: split_and!; try done; by apply core_stats. }
  destruct res as [rr q']. cbn [fst snd] in *. subst q'. unfold on_device.
  destruct (drop_all_spec d2 held frames rr I2 F2) as (d3 & E3 & A3).
  change (device (q <| device := d2 |>)) with d2. rewrite E3.
  eexists _, _. split; [done|]. split_and!; try done; [by repeat apply core_device|].
  eapply dev_after_trans; [exact A2|exact A3].
Qed.

(** ** The transmit loops *)
Lemma later_transmit cfg c d now r c' d' :
  transmitted (D := D) cfg c r c' -> transmit c d now cfg = (r, (c', d')) -> later c c'.
Proof.
  intros T E. destruct (tr_same _ _ _ _ T) as (E1 & E2 & _). split_and!; [done..|].
  intros Ht. revert E. unfold transmit. rewrite Ht. intros [= _ <- _]. done.
Qed.
Lemma local_error_inv cfg c k : conn_inv cfg c -> conn_inv cfg (c <| local_error := k |>).
Proof. intros [[] ?]. by split; [constructor|]. Qed.
Lemma fail_local_inv cfg c k :
  config_ok cfg -> conn_inv cfg c -> conn_inv cfg (fail_ c Failed <| local_error := Some k |>).
Proof. intros Hc I. exact (local_error_inv _ _ (Some k) (fail_inv cfg Hc c Failed I eq_refl)). Qed.
Lemma burst_spec cfg n c d st held now :
  config_ok cfg -> conn_inv cfg c -> dev_inv d held ->
  exists r c' d' st', burst n c d st now cfg = (r, (c', d', st'))
    /\ returns r /\ conn_inv cfg c' /\ later c c' /\ dev_after d d' held.
Proof.
  intros Hc. revert c d st. induction n as [|n IH]; intros c d st I Id.
  { eexists _, c, d, st. split; [done|]. done. }
  destruct (transmit_spec cfg Hc c d held now I Id) as (r & c1 & d1 & E & A1 & T).
  pose proof (later_transmit _ _ _ _ _ _ _ T E) as L1. pose proof (tr_inv _ _ _ _ T) as I1.
  pose proof (tr_returns _ _ _ _ T) as R1. simpl. rewrite E.
  destruct r as [[sent rt]|k| |]; [| |done|done].
  - destruct sent; cbn [negb]; [|by eexists _, c1, d1, _].
    destruct (IH c1 d1 (count_sent true rt st) I1 (proj1 A1)) as (r & c2 & d2 & st2 & -> & R2 & I2 & L2 & A2).
    eexists _, c2, d2, st2. split_and!; try done; [by eapply later_trans|by eapply dev_after_trans].
  - destruct (local_failure k); [|by eexists _, c1, d1, st].
    eexists _, _, d1, st. split; [done|]. split_and!; try done; [by apply fail_local_inv|].
    destruct L1 as (-> & -> & _). done.
Qed.
Lemma transmit_all_spec cfg cs d st held now :
  config_ok cfg -> Forall (conn_inv cfg) cs.*2 -> dev_inv d held ->
  exists r cs' d' st', transmit_all cs d st now cfg = (r, (cs', d', st'))
    /\ returns r /\ cs'.*1 = cs.*1 /\ Forall2 later cs.*2 cs'.*2 /\ Forall (conn_inv cfg) cs'.*2
    /\ dev_after d d' held.
Proof.
  intros Hc. revert d st. induction cs as [|[id c] cs IH]; intros d st F Id.
  { eexists _, [], d, st. done. }
  rewrite fmap_cons in F. apply Forall_cons in F as [I F]. simpl in I.
  destruct (burst_spec cfg (Z.to_nat (tx_burst cfg)) c d st held now Hc I Id)
    as (r & c1 & d1 & st1 & E & R1 & I1 & L1 & A1).
  simpl. rewrite E. destruct r as [[]|k| |]; [| |done|done].
  - destruct (IH d1 st1 F (proj1 A1)) as (r & cs' & d2 & st2 & -> & R2 & Ek & L2 & F2 & A2).
    exists r, ((id, c1) :: cs'), d2, st2. rewrite !fmap_cons, Ek. split_and!; try done.
    + constructor; [exact L1|exact L2].
    + constructor; [exact I1|exact F2].
    + by eapply dev_after_trans.
  - exists (Err k), ((id, c1) :: cs), d1, st1. rewrite !fmap_cons. split_and!; try done.
    + constructor; [exact L1|]. by apply Forall_Forall2_diag, Forall_true.
    + constructor; [exact I1|exact F].
Qed.
Lemma transmit_pool_spec p held :
  pool_core p -> dev_inv (device p) held ->
  exists r p', transmit_pool p = (r, p') /\ phase p held r p'.
Proof.
  intros I Id. unfold transmit_pool.
  destruct (transmit_all_spec (config p) (connections p) (device p) (stats p) held (pool_now p)
    (core_ok p I) (tb_conns _ _ _ (pc_table _ I)) Id) as (r & cs & d & st & -> & R & Ek & L & F & A).
  eexists _, _. split; [done|]. split_and!; try done.
  apply core_stats, core_device, core_table; [done|]. by apply (table_evolve _ _ _ _ (pc_table _ I) Ek L F).
Qed.

(** ** The whole of [poll] *)
Lemma poll_clock_spec now p :
  pool_core p ->
  pool_core (poll_clock now p) /\ device (poll_clock now p) = device p
  /\ rx (poll_clock now p) = rx p /\ config (poll_clock now p) = config p
  /\ pool_now (poll_clock now p) = now.
Proof.
  intros I. unfold poll_clock. cbv zeta. set (p1 := p <| pool_now := now |> <| connections ::= _ |>).
  assert (pool_core p1) as I1.
  { apply (core_table (p <| pool_now := now |>)); [by apply core_now|].
    eapply table_evolve; [exact (pc_table _ I)|apply om_keys_map|..]; rewrite om_vals_map.
    - rewrite Forall2_fmap_r. apply Forall_Forall2_diag, Forall_forall. intros c _. apply later_tick.
    - apply Forall_fmap. eapply Forall_impl; [exact (tb_conns _ _ _ (pc_table _ I))|].
      intros c Hc. apply tick_inv; [by apply core_ok|done]. }
  destruct (report_states_spec p1 I1) as (I2 & (E1 & E2 & E3 & E4)).
  split; [|split_and!; [exact E1|exact E2|exact E3|exact E4]]. apply core_table; [done|].
  eapply table_sublist; [exact (pc_table _ I2)|apply om_retain_sublist].
Qed.

Lemma poll_at_spec now p held :
  pool_core p -> dev_inv (device p) held ->
  exists r p', on_device (dev_poll_at now) p = (r, p') /\ phase p held r p'.
Proof.
  intros I Id. unfold on_device.
  destruct (dev_poll_law (device p) held now Id) as (r & d & -> & R & Id' & E1 & E2).
  eexists _, _. split; [done|]. by apply phase_device.
Qed.

(** The receive step: the scratch vector is refilled with at most [budget] packets. *)
Lemma receive_spec budget p held :
  pool_inv p held -> 0 <= budget ->
  exists r p', receive budget p = (r, p') /\ returns r /\ pool_inv p' held
    /\ zlen (rx p') <= budget /\ config p' = config p /\ pool_now p' = pool_now p
    /\ dev_pool (device p') = dev_pool (device p)
    /\ dev_frame_size (device p') = dev_frame_size (device p).
Proof.
  intros [] Hb. unfold receive.
  destruct (dev_recv_law (device p) held budget (rx p) pi_dev0 Hb pi_rx0)
    as (r & d & out & -> & R & P1 & Z1 & Id & F & Hl & _).
  eexists _, _. split; [done|]. split; [done|]. split; [|done].
  constructor; [by apply core_rx, core_device|done|simpl; by rewrite P1, Z1].
Qed.

(** A phase that ends with an empty scratch vector, seen from [poll]. *)
Lemma phase_inv {A} p q held (r : outcome A) :
  phase p held r q -> rx p = [] -> pool_inv q held.
Proof.
  intros (_ & I & (Id & _) & X & _) E. constructor; [done| |]; rewrite X, E; [done|constructor].
Qed.

(** The state in which [poll] may stop, and its outcome. *)
Definition settled p held now q : Prop :=
  pool_inv q held /\ config q = config p /\ pool_now q = now.
Definition poll_post p held now budget (res : outcome Z * TcpPool D) : Prop :=
  returns res.1 /\ settled p held now res.2
  /\ match res.1 with Ok n => 0 <= n <= budget | _ => True end.
Lemma then_post {A} p held now budget (r : outcome A) q f :
  returns r -> settled p held now q ->
  (forall a, settled p held now q -> poll_post p held now budget (f a q)) ->
  poll_post p held now budget (then_ (r, q) id f).
Proof. intros R S Hf. destruct r; try done. by apply Hf. Qed.
Lemma settled_phase {A} p held now q q' (r : outcome A) :
  settled p held now q -> rx q = [] -> phase q held r q' -> settled p held now q' /\ rx q' = [].
Proof.
  intros (_ & C & N) X Ph. pose proof (phase_inv _ _ _ _ Ph X).
  destruct Ph as (_ & _ & _ & X' & C' & N'). split; [split; [done|]|]; rewrite ?C', ?N'; by try rewrite X'.
Qed.
Lemma settled_dev p held now q : settled p held now q -> rx q = [] -> dev_inv (device q) held.
Proof. intros (I & _) X. pose proof (pi_dev _ _ I) as Id. by rewrite X in Id. Qed.

(** From the receive step on. *)
Lemma poll_receive_spec p held now budget q :
  settled p held now q -> 0 <= budget ->
  poll_post p held now budget
    (then_ (receive budget q) id (fun _ q =>
     let frames := rx q in
     then_ (drain urandom frames (q <| rx := [] |>)) id (fun _ q =>
     then_ (flush_reset q) id (fun _ q =>
     then_ (transmit_pool q) id (fun _ q =>
     then_ (on_device (dev_poll_at now) (report_states q)) id (fun _ q =>
     (Ok (zlen frames), q))))))).
Proof.
  intros (Iq & Cq & Nq) Hb.
  destruct (receive_spec budget q held Iq Hb) as (r2 & p2 & -> & R2 & Ip2 & Hl & C2 & N2 & _).
  apply then_post; [done|split; [done|split; congruence]|]. intros _ _. cbv zeta.
  pose proof (zlen_nonneg (rx p2)) as Hz. set (n := zlen (rx p2)) in *.
  destruct (drain_spec (rx p2) (p2 <| rx := [] |>) held) as (r3 & p3 & -> & Ph3);
    [by apply core_rx, Ip2|apply Ip2|apply Ip2|].
  assert (settled p held now p3 /\ rx p3 = []) as [S3 X3].
  { pose proof (phase_inv _ _ _ _ Ph3 eq_refl) as Ip3. destruct Ph3 as (_ & _ & _ & X3 & C3 & N3).
    simpl in X3, C3, N3. split; [split; [done|split; congruence]|done]. }
  apply then_post; [apply Ph3|done|]. intros _ _.
  destruct (flush_reset_spec p3 held (pi_core _ _ (proj1 S3)) (settled_dev _ _ _ _ S3 X3))
    as (r4 & p4 & -> & Ph4).
  destruct (settled_phase _ _ _ _ _ _ S3 X3 Ph4) as [S4 X4].
  apply then_post; [apply Ph4|done|]. intros _ _.
  destruct (transmit_pool_spec p4 held (pi_core _ _ (proj1 S4)) (settled_dev _ _ _ _ S4 X4))
    as (r5 & p5 & -> & Ph5).
  destruct (settled_phase _ _ _ _ _ _ S4 X4 Ph5) as [S5 X5].
  apply then_post; [apply Ph5|done|]. intros _ _.
  destruct (report_states_spec p5 (pi_core _ _ (proj1 S5))) as (I6 & Q6).
  assert (phase p5 held (Ok tt) (report_states p5)) as Ph6.
  { apply (phase_quiet p5 held (Ok tt, report_states p5)); [|done]. by eapply settled_dev. }
  destruct (settled_phase _ _ _ _ _ _ S5 X5 Ph6) as [S6 X6].
  destruct (poll_at_spec now (report_states p5) held I6 (settled_dev _ _ _ _ S6 X6)) as (r7 & p7 & -> & Ph7).
  destruct (settled_phase _ _ _ _ _ _ S6 X6 Ph7) as [S7 X7].
  apply then_post; [apply Ph7|done|]. intros _ _. split_and!; try done; apply S7.
Qed.

Lemma poll_spec now budget p held :
  pool_inv p held -> 0 <= budget ->
  if now <? pool_now p then poll urandom now budget p = (Err InvalidInput, p)
  else poll_post p held now budget (poll urandom now budget p).
Proof.
  intros Ip Hb. unfold poll. destruct (now <? pool_now p); [done|].
  destruct (poll_clock_spec now p (pi_core _ _ Ip)) as (I0 & D0 & X0 & C0 & N0).
  set (p0 := poll_clock now p) in *. clearbody p0.
  assert (dev_inv (device p0) (owned (rx p0) ++ held)) as Id0 by (rewrite D0, X0; apply Ip).
  destruct (poll_at_spec now p0 _ I0 Id0) as (r1 & p1 & -> & (R1 & I1 & A1 & X1 & C1 & N1)).
  apply then_post; [done| |by intros _ S1; apply poll_receive_spec].
  split; [|split; congruence]. constructor; [done|by rewrite X1; apply A1|]. rewrite X1, X0.
  destruct A1 as (_ & -> & ->). rewrite D0. apply Ip.
Qed.
End Poll.
