(* ===== verification/TcpPoolProps.v ===== *)
(** * Properties of the TCP pool

    The pool as a transition system over any device that keeps the [DeviceLaws]:
    bounded resources, freshness of identifiers, demultiplexing of segments, opening and
    accepting connections, and a complete session executed over the loopback device. *)
From Stdlib Require Import ZArith Lia Bool.
From stdpp Require Import base numbers option list relations gmap.
From S2P Require Import Prelude BufferPool Addr TcpWire TcpTypes Device Loopback OrdMap TcpConn TcpConnInv TcpAckInv TcpInputInv TcpOutputInv TcpTransmit TcpPool TcpPoolInv TcpPoolPoll.
#[local] Open Scope Z_scope.

Section Props.
Context {D : Type} `{DeviceLaws D} (urandom : nat -> outcome Z) (urandom_ok : entropy_ok urandom).
Implicit Types p : TcpPool D.

(** ** The transition system: the public operations, with frames [held] by the caller *)
Inductive pool_step (held : list Z) : TcpPool D -> TcpPool D -> Prop :=
| do_listen p a : pool_step held p (listen a p).2
| do_unlisten p a : pool_step held p (unlisten a p)
| do_connect p l r : sock_ok l -> sock_ok r -> pool_step held p (connect urandom l r p).2
| do_accept p a : pool_step held p (accept a p).2
| do_pop_event p : pool_step held p (pop_event p).2
| do_write p id bytes : bytes_ok bytes -> pool_step held p (pool_write id bytes p).2
| do_read p id len : 0 <= len -> pool_step held p (pool_read id len p).2
| do_close p id : pool_step held p (pool_close id p).2
| do_abort p id : pool_step held p (abort_ id p).2
| do_remove p id : pool_step held p (remove id p).2
| do_poll p now budget : 0 <= budget -> pool_step held p (poll urandom now budget p).2
| do_device p d : dev_after (device p) d (owned (rx p) ++ held) ->
    pool_step held p (p <| device := d |>).
(** A pool made by [TcpPool::new] on a device in a good state. *)
Definition pool_start (held : list Z) p : Prop :=
  exists d cfg, dev_inv d held /\ config_typed cfg /\ tcp_pool_new d cfg = Ok p.
Definition pool_reachable held p : Prop :=
  exists p0, pool_start held p0 /\ rtc (pool_step held) p0 p.

Lemma quiet_step {A} p held (res : outcome A * TcpPool D) :
  pool_inv p held -> quiet_op p res -> pool_inv res.2 held.
Proof. intros I Q. apply (quiet_op_inv p held res I Q). Qed.

Lemma pop_event_core p : pool_core p -> pool_core (pop_event p).2.
Proof.
  intros []. constructor; try done. simpl. destruct (events p); [done|].
  rewrite zlen_cons in *. simpl. lia.
Qed.
Lemma pool_step_inv held p p' : pool_step held p p' -> pool_inv p held -> pool_inv p' held.
Proof.
  intros S I. pose proof (pi_core _ _ I) as Ic. pose proof (core_ok _ Ic) as Hc.
  destruct S as [p a|p a|p l r|p a|p|p id bs|p id len|p id|p id|p id|p now budget|p d].
  - by eapply quiet_step, listen_spec.
  - apply (quiet_step p held (Ok tt, unlisten a p) I).
    destruct (unlisten_spec p a Ic). done.
  - by eapply quiet_step, connect_spec.
  - by eapply quiet_step, accept_spec.
  - apply (quiet_step p held (Ok tt, (pop_event p).2) I). split; [done|]. split; [|done].
    by apply pop_event_core.
  - eapply quiet_step; [done|]. apply with_connection_spec; [done|]. intros c _ Ic'.
    split; [|split; [by apply write_inv|apply later_write]].
    unfold write. destruct (_ || _); [done|]. destruct (_ =? _); [done|]. cbv zeta. by destruct (_ =? _).
  - eapply quiet_step; [done|]. apply with_connection_spec; [done|]. intros c _ Ic'.
    split; [|split; [by apply read_inv|apply later_read]].
    unfold read. destruct (_ =? _); [done|]. destruct (local_error c); [done|].
    destruct (bool_decide _); [done|]. destruct (bool_decide _); [done|]. cbv zeta.
    destruct (0 <? _); [done|]. by destruct (_ || _).
  - eapply quiet_step; [done|]. apply with_connection_spec; [done|]. intros c _ Ic'.
    split; [|split; [by apply close_inv|apply later_close]].
    unfold close. destruct (write_closed c); [done|]. by destruct (negb _).
  - by eapply quiet_step, abort_spec.
  - by eapply quiet_step, remove_spec.
  - pose proof (poll_spec urandom urandom_ok now budget p held I) as P.
    destruct (now <? pool_now p); [by rewrite P|]. by apply P.
  - destruct I. destruct H1 as (I & E1 & E2). constructor; [by apply core_device|done|].
    simpl. by rewrite E1, E2.
Qed.
Lemma pool_start_inv held p : pool_start held p -> pool_inv p held.
Proof.
  intros (d & cfg & Id & Ht & E). revert E. unfold tcp_pool_new.
  destruct (config_valid cfg) eqn:V; [|done]. intros E. simpl in E. injection E as <-.
  pose proof Ht as []. assert (table_ok cfg 1 []) as T.
  { constructor; [constructor|constructor|constructor|done|constructor]. }
  constructor; [|done|constructor]. constructor; simpl; try done.
Qed.
Lemma pool_reachable_inv held p : pool_reachable held p -> pool_inv p held.
Proof.
  intros (p0 & S0 & R). apply pool_start_inv in S0.
  induction R as [|p0 p1 p St _ IH]; eauto using pool_step_inv.
Qed.

(** ** Identifiers *)
Definition grew p p' : Prop :=
  next_id p <= next_id p'
  /\ forall id, id ∈ (connections p').*1 -> id ∈ (connections p).*1 \/ next_id p <= id < next_id p'.
Lemma grew_refl p : grew p p.
Proof. split; [lia|auto]. Qed.
Lemma grew_trans p q r : grew p q -> grew q r -> grew p r.
Proof.
  intros [N1 K1] [N2 K2]. split; [lia|]. intros id Hid.
  destruct (K2 _ Hid) as [Hq|]; [destruct (K1 _ Hq); [by left|right; lia]|right; lia].
Qed.
Lemma grew_keys p p' :
  next_id p' = next_id p -> (connections p').*1 ⊆ (connections p).*1 -> grew p p'.
Proof. intros N K. split; [lia|]. intros id Hid. left. by apply K. Qed.
Lemma grew_same p p' : next_id p' = next_id p -> connections p' = connections p -> grew p p'.
Proof. intros N K. apply grew_keys; [done|]. by rewrite K. Qed.
Lemma grew_sub p p' :
  next_id p' = next_id p -> connections p' `sublist_of` connections p -> grew p p'.
Proof.
  intros N K. apply grew_keys; [done|]. intros id Hid. eapply elem_of_submseteq; [exact Hid|].
  by apply sublist_submseteq, fmap_sublist.
Qed.
Lemma grew_then {A B} p (m : outcome A * TcpPool D) (f : A -> TcpPool D -> outcome B * TcpPool D) :
  grew p m.2 -> (forall a q, grew q (f a q).2) -> grew p (then_ m id f).2.
Proof. intros G F. destruct m as [[a|k| |] q]; simpl; try done. eapply grew_trans; [exact G|apply F]. Qed.

Lemma keys_report cfg now cs log st : (report_all cfg now cs log st).1.1.*1 = cs.*1.
Proof.
  revert log st. induction cs as [|[id c] cs IH]; intros log st; [done|]. simpl.
  destruct (report_one _ _ _ _ _ _) as [[c' log'] st']. specialize (IH log' st').
  destruct (report_all _ _ _ _ _) as [[cs' log''] st'']. cbn [fst snd] in *.
  by rewrite !fmap_cons, IH.
Qed.
Lemma grew_report p : grew p (report_states p).
Proof.
  unfold report_states. destruct (negb _); [apply grew_refl|].
  pose proof (keys_report (config p) (pool_now p) (connections p) (events p) (stats p)) as K.
  destruct (report_all _ _ _ _ _) as [[cs log] st]. apply grew_keys; [done|]. simpl in *. by rewrite K.
Qed.
Lemma grew_queue_reset r p : grew p (queue_reset r p).
Proof. unfold queue_reset. destruct (_ =? _); by apply grew_same. Qed.
Lemma keys_insert {V} (cs : list (Z * V)) k v id :
  id ∈ (om_insert cs k v).*1 -> id = k \/ id ∈ cs.*1.
Proof.
  induction cs as [|[i w] cs IH]; simpl; [set_solver|]. destruct (k <? i); [set_solver|].
  destruct (k =? i); [set_solver|]. simpl. intros Hid. set_solver.
Qed.
Lemma grew_open mk p : grew p (open_with urandom mk p).2.
Proof.
  unfold open_with. apply grew_then; [by apply grew_same|]. intros iss q. unfold allocate_id.
  destruct (_ <? _) eqn:E; bools; [apply grew_refl|]. simpl. split; [simpl; lia|].
  intros id Hid. simpl in *. apply keys_insert in Hid as [-> |]; [right; lia|by left].
Qed.
Lemma grew_set p id c : grew p (p <| connections ::= fun cs => om_set cs id c |>).
Proof. apply grew_keys; [done|]. simpl. by rewrite om_keys_set. Qed.
Lemma grew_device {A} (f : ST D A) p : grew p (on_device f p).2.
Proof. unfold on_device. destruct (f _). by apply grew_same. Qed.
Lemma grew_with {A} id (f : Connection -> outcome A * Connection) p :
  grew p (with_connection id f p).2.
Proof.
  unfold with_connection. destruct (om_get _ _); [|apply grew_refl]. destruct (f _). apply grew_set.
Qed.
Lemma grew_input s p : grew p (pool_input urandom s p).2.
Proof.
  unfold pool_input. destruct (_ || _); [by apply grew_same|]. destruct (find _ _ _).
  { destruct (om_get _ _); [apply grew_set|apply grew_refl]. }
  destruct (_ && _); [by apply grew_same|]. destruct (has _ _); [apply grew_refl|].
  destruct (bool_decide _ && _).
  - destruct (_ =? _); [by apply grew_same|]. apply grew_then; [apply grew_open|].
    intros; apply grew_refl.
  - apply grew_queue_reset.
Qed.
Lemma grew_drain frames p : grew p (drain urandom frames p).2.
Proof.
  revert p. induction frames as [|f fs IH]; intros p; [apply grew_refl|].
  rewrite drain_cons. assert (grew p (take_frame urandom (as_slice f) p).2) as G.
  { unfold take_frame. destruct (_ || _); [by apply grew_same|].
    destruct (parse_ipv4 _); try (by apply grew_same).
    eapply grew_trans; [|apply grew_input]. by apply grew_same. }
  destruct (take_frame _ _ _) as [r q]. simpl in G. eapply grew_trans; [exact G|].
  destruct r; try apply grew_device. apply grew_then; [apply grew_device|auto].
Qed.
Lemma grew_flush p : grew p (flush_reset p).2.
Proof.
  unfold flush_reset. destruct (resets p) as [|r rest]; [apply grew_refl|].
  apply grew_then; [apply grew_device|]. intros [frame|] q; [|apply grew_refl].
  destruct (build_ipv4 _ _); try apply grew_device. destruct (dev_send _) as [n [d frames]].
  match goal with |- grew _ (let '(r, p) := ?x in _).2 =>
    assert (grew q x.2) as G; [|destruct x as [r' q']; eapply grew_trans; [exact G|apply grew_device]] end.
  destruct n as [n|k| |]; try (by apply grew_same); [destruct (n =? 1); by apply grew_same|].
  destruct k; by apply grew_same.
Qed.
Lemma keys_transmit cs (d : D) st now cfg : (transmit_all cs d st now cfg).2.1.1.*1 = cs.*1.
Proof.
  revert d st. induction cs as [|[id c] cs IH]; intros d st; [done|]. simpl.
  destruct (burst _ _ _ _ _ _) as [[r|k| |] [[c' d'] st']]; try done.
  specialize (IH d' st'). destruct (transmit_all _ _ _ _ _) as [r' [[cs' d''] st'']].
  cbn [fst snd] in *. by rewrite !fmap_cons, IH.
Qed.
Lemma grew_transmit p : grew p (transmit_pool p).2.
Proof.
  unfold transmit_pool.
  pose proof (keys_transmit (connections p) (device p) (stats p) (pool_now p) (config p)) as K.
  destruct (transmit_all _ _ _ _ _) as [r [[cs d] st]]. apply grew_keys; [done|]. simpl in *. by rewrite K.
Qed.
Lemma grew_tick now f p : grew p (p <| pool_now := now |> <| connections ::= om_map f |>).
Proof. apply grew_keys; [done|]. simpl. by rewrite om_keys_map. Qed.
Lemma grew_poll now budget p : grew p (poll urandom now budget p).2.
Proof.
  unfold poll. destruct (_ <? _); [apply grew_refl|]. eapply grew_trans with (poll_clock now p).
  { unfold poll_clock. cbv zeta. eapply grew_trans; [apply grew_tick|].
    eapply grew_trans; [apply grew_report|]. apply grew_sub; [done|apply om_retain_sublist]. }
  apply grew_then; [apply grew_device|]. intros _ q1. apply grew_then.
  { unfold receive. destruct (dev_recv _ _) as [r [d fs]]. by apply grew_same. }
  intros _ q2. cbv zeta. apply grew_then; [eapply grew_trans; [|apply grew_drain]; by apply grew_same|].
  intros _ q3. apply grew_then; [apply grew_flush|]. intros _ q4.
  apply grew_then; [apply grew_transmit|]. intros _ q5.
  apply grew_then; [eapply grew_trans; [apply grew_report|apply grew_device]|].
  intros _ q6. apply grew_refl.
Qed.
Lemma grew_step held p p' : pool_step held p p' -> grew p p'.
Proof.
  destruct 1 as [p a|p a|p l r|p a|p|p id bs|p id len|p id|p id|p id|p now budget|p d].
  - unfold listen. destruct (validate_address a); try apply grew_refl.
    case_bool_decide; [apply grew_refl|]. destruct (_ =? _); by apply grew_same.
  - apply grew_sub; [done|apply om_retain_sublist].
  - unfold connect. apply grew_then; [apply grew_refl|]. intros _ q.
    apply grew_then; [apply grew_refl|]. intros _ q'. case_bool_decide; [apply grew_refl|].
    destruct (_ =? _); [apply grew_refl|]. case_bool_decide; [apply grew_refl|apply grew_open].
  - unfold accept. destruct (negb _); [apply grew_refl|]. destruct (om_find _ _); [|apply grew_refl].
    destruct (om_get _ _); [apply grew_set|apply grew_refl].
  - by apply grew_same.
  - apply grew_with.
  - apply grew_with.
  - apply grew_with.
  - unfold abort_. destruct (om_get _ _); [|apply grew_refl]. cbv zeta.
    eapply grew_trans; [apply grew_set|]. eapply grew_trans; [apply grew_queue_reset|apply grew_report].
  - unfold remove. destruct (om_get _ _); [|apply grew_refl]. destruct (negb _); [apply grew_refl|].
    eapply grew_trans; [apply grew_report|]. apply grew_sub; [done|apply om_remove_sublist].
  - apply grew_poll.
  - by apply grew_same.
Qed.

Lemma grew_steps held p q : rtc (pool_step held) p q -> grew p q.
Proof. induction 1; eauto using grew_refl, grew_trans, grew_step. Qed.

(** Handles are never recycled: once a connection has left the pool, its identifier
    stays unknown for ever, whatever the application, the peers and the device do; a
    stale [ConnectionId] yields [NotFound] and never another connection. *)
Theorem pool_ids_fresh held p q r id c :
  pool_reachable held p -> om_get (connections p) id = Some c ->
  rtc (pool_step held) p q -> om_get (connections q) id = None ->
  rtc (pool_step held) q r -> pool_status r id = Err NotFound.
Proof.
  intros R G S1 N S2. apply pool_reachable_inv in R.
  pose proof (tb_ids _ _ _ (pc_table _ (pi_core _ _ R))) as Hid. rewrite Forall_forall in Hid.
  apply om_get_elem, (list_elem_of_fmap_2 fst), Hid in G. simpl in G.
  destruct (grew_steps _ _ _ S1) as [N1 _]. destruct (grew_steps _ _ _ S2) as [_ K].
  unfold pool_status. rewrite om_get_keys; [done|]. intros Hin.
  destruct (K _ Hin) as [Hq|]; [|lia]. by apply om_get_none in N.
Qed.

(** C5. Bounded resources of the pool: in every reachable state the connection table, the
    listener set, the reset queue and the event log are within the configured capacities,
    every connection is well formed, at most one live connection has a given pair of
    endpoints, and every device frame is accounted for. *)
Theorem pool_bounded held p :
  pool_reachable held p ->
  zlen (connections p) <= max_connections (config p)
  /\ Z.of_nat (size (listeners p)) <= max_listeners (config p)
  /\ zlen (resets p) <= control_capacity (config p)
  /\ zlen (events p) <= event_capacity (config p)
  /\ Forall (conn_inv (config p)) (connections p).*2
  /\ (forall i j c c', om_get (connections p) i = Some c -> om_get (connections p) j = Some c' ->
        local c = local c' -> remote c = remote c' ->
        is_terminal (state c) = false -> is_terminal (state c') = false -> i = j)
  /\ dev_inv (device p) (owned (rx p) ++ held).
Proof.
  intros R. apply pool_reachable_inv in R. pose proof (pi_dev _ _ R).
  pose proof (pc_table _ (pi_core _ _ R)) as T. split_and!; try apply (pi_core _ _ R); try apply T; [|done].
  intros i j c c' Gi Gj El Er Tc Tc'. eapply (table_unique _ _ _ (local c) (remote c)); [exact T|exact Gi|exact Gj|..].
  - unfold serves. by rewrite !bool_decide_eq_true_2, Tc.
  - unfold serves. by rewrite !bool_decide_eq_true_2, Tc'.
Qed.

(** C4. [poll] with any device and any received packets: it refuses a clock that goes
    backwards without touching the pool; otherwise it returns (no panic, no index out of
    range), reports at most [budget] packets, keeps the pool invariant and balances
    the device's frames, on success and on every error path. *)
Theorem pool_poll_safe now budget p held :
  pool_inv p held -> 0 <= budget ->
  if now <? pool_now p then poll urandom now budget p = (Err InvalidInput, p)
  else poll_post p held now budget (poll urandom now budget p).
Proof. apply (poll_spec urandom urandom_ok). Qed.

(** ** Demultiplexing *)
Definition addressed (s : Segment) : bool :=
  address_valid (source s) && address_valid (destination s) && negb (has (flags s) URG).
(** The pool answers for an IP address that one of its listeners or connections uses. *)
Definition own_ip p (a : Z) : Prop :=
  (exists l, l ∈ listeners p /\ ip l = a) \/ (exists c, c ∈ (connections p).*2 /\ ip (local c) = a).

Lemma own_ip_test p a :
  negb (existsb (fun l => ip l =? a) (elements (listeners p)))
  && negb (existsb (fun e => ip (local e.2) =? a) (connections p)) = false -> own_ip p a.
Proof.
  intros E. apply andb_false_iff in E as [E|E]; apply negb_false_iff, existsb_exists in E as (x & Hx & Ex);
    apply Z.eqb_eq in Ex; apply list_elem_of_In in Hx.
  - left. exists x. split; [by apply elem_of_elements|done].
  - right. exists x.2. split; [by apply list_elem_of_fmap_2|done].
Qed.

(** The four ways in which the pool handles a segment. *)
Inductive handled p (s : Segment) : TcpPool D -> Prop :=
| handled_ignored q : connections q = connections p -> resets q = resets p ->
    (addressed s = false \/ forall id c, om_get (connections p) id = Some c ->
       serves (destination s) (source s) c = false) -> handled p s q
| handled_conn id c q : addressed s = true -> om_get (connections p) id = Some c ->
    serves (destination s) (source s) c = true ->
    connections q = om_set (connections p) id (input c s (pool_now p) (config p)) ->
    resets q = resets p -> handled p s q
| handled_open iss q : addressed s = true -> find p (destination s) (source s) = None ->
    destination s ∈ listeners p -> has (flags s) RST = false ->
    Z.land (flags s) (Z.lor SYN (Z.lor ACK FIN)) = SYN ->
    zlen (connections p) < max_connections (config p) ->
    connections q = connections p ++ [(next_id p, passive s iss (pool_now p) (config p))] ->
    resets q = resets p -> handled p s q
| handled_refused q : addressed s = true -> find p (destination s) (source s) = None ->
    own_ip p (ip (destination s)) -> has (flags s) RST = false ->
    connections q = connections p ->
    resets q = resets p \/ resets q = resets p ++ [refusal s] -> handled p s q.

Lemma handled_input p s : pool_core p -> segment_ok s -> handled p s (pool_input urandom s p).2.
Proof.
  intros I Hs. unfold pool_input. pose proof (pc_table _ I) as T.
  destruct (_ || _) eqn:Ea.
  { apply handled_ignored; try done. left. unfold addressed. revert Ea.
    by destruct (address_valid _), (address_valid _), (has _ _). }
  assert (addressed s = true) as Had.
  { unfold addressed. revert Ea. by destruct (address_valid _), (address_valid _), (has _ _). }
  clear Ea.
  destruct (find p _ _) as [id|] eqn:Ef.
  { apply om_find_some in Ef as (c & G & S); [|apply T]. rewrite G. by eapply handled_conn. }
  assert (forall id c, om_get (connections p) id = Some c -> serves (destination s) (source s) c = false) as Hn.
  { intros id c G. eapply om_find_none; [exact Ef|]. by apply om_get_elem, (list_elem_of_fmap_2 snd) in G. }
  destruct (_ && _) eqn:Eo; [by apply handled_ignored; auto|]. apply own_ip_test in Eo.
  destruct (has _ RST) eqn:Er; [by apply handled_ignored; auto|].
  destruct (bool_decide _ && _) eqn:El.
  - apply andb_true_iff in El as [El Es]. apply bool_decide_eq_true in El. apply Z.eqb_eq in Es.
    destruct (_ =? _) eqn:Em; [by apply handled_ignored; auto|]. bools.
    pose proof (tb_count _ _ _ T) as Hm.
    destruct (open_with_spec urandom urandom_ok p (fun sequence => passive s sequence (pool_now p) (config p))
      (destination s) (source s) I ltac:(lia) Ef) as (_ & O).
    { intros iss Hi. split; [|done]. by apply passive_inv; [apply core_ok|..]. }
    assert (resets (open_with urandom (fun sequence => passive s sequence (pool_now p) (config p)) p).2
            = resets p) as Erst.
    { unfold open_with, initial_sequence, allocate_id. destruct (urandom _); try done. simpl.
      by destruct (_ <? _). }
    destruct (open_with _ _ _) as [r q]. simpl in Erst. destruct r; simpl; try (by apply handled_ignored; auto).
    destruct O as (iss & -> & _ & Eq & _). eapply handled_open; try done. lia.
  - cbn [snd]. unfold queue_reset.
    destruct (zlen (resets p) =? _); (apply handled_refused; [done..|]); [by left|by right].
Qed.

(** C3. Demultiplexing: a segment changes at most the one live connection with its
    endpoints, which processes it; every other connection is untouched.  A connection
    appears only for a bare SYN to a listener, under a fresh identifier; a reset is
    queued only for a segment that carries no RST, that no live connection serves, and
    that is addressed to an IP address in use by the pool. *)
Theorem pool_input_demux p s :
  pool_core p -> segment_ok s ->
  let q := (pool_input urandom s p).2 in
  (forall id c, om_get (connections p) id = Some c ->
     om_get (connections q) id =
       Some (if addressed s && serves (destination s) (source s) c
             then input c s (pool_now p) (config p) else c))
  /\ (forall id c, om_get (connections q) id = Some c -> om_get (connections p) id = None ->
        id = next_id p /\ destination s ∈ listeners p
        /\ Z.land (flags s) (Z.lor SYN (Z.lor ACK FIN)) = SYN
        /\ exists iss, c = passive s iss (pool_now p) (config p))
  /\ (resets q = resets p \/ resets q = resets p ++ [refusal s]
        /\ has (flags s) RST = false /\ own_ip p (ip (destination s))
        /\ find p (destination s) (source s) = None).
Proof.
  intros I Hs q. pose proof (pc_table _ I) as T. pose proof (handled_input p s I Hs) as Hh.
  fold q in Hh. clearbody q.
  assert (find p (destination s) (source s) = None -> forall id c,
    om_get (connections p) id = Some c -> serves (destination s) (source s) c = false) as Hnone.
  { intros Hf id c G. eapply om_find_none; [exact Hf|]. by apply om_get_elem, (list_elem_of_fmap_2 snd) in G. }
  destruct Hh as [q Ec Er Hn|id0 c0 q Ha G0 S0 Ec Er|iss q Ha Hf Hl HR Hfl Hm Ec Er|q Ha Hf Ho HR Ec Er];
    rewrite Ec.
  - split_and!; [|by intros ? ? -> |by left]. intros id c G. rewrite G.
    destruct Hn as [-> |Hn]; [done|]. by rewrite (Hn _ _ G), andb_false_r.
  - split_and!; [| |by left]; intros id c.
    + intros G. rewrite om_get_set, G0. destruct (id0 =? id) eqn:E; bools; subst.
      * rewrite G0 in G. injection G as <-. by rewrite Ha, S0.
      * rewrite G. destruct (serves _ _ c) eqn:S; [|by rewrite andb_false_r].
        by destruct E; eapply table_unique.
    + intros G N. rewrite om_get_set in G. destruct (id0 =? id) eqn:E; bools; subst; congruence.
  - split_and!; [| |by left]; intros id c G.
    + by rewrite om_get_app, G, (Hnone Hf _ _ G), andb_false_r.
    + intros N. rewrite om_get_app, N in G. simpl in G. destruct (next_id p =? id) eqn:E; [|done].
      bools. injection G as <-. eauto.
  - split_and!; [|by intros ? ? -> |destruct Er; auto]. intros id c G.
    by rewrite G, (Hnone Hf _ _ G), andb_false_r.
Qed.

(** [connect] adds exactly one connection, in [SynSent], under an identifier no
    connection has; it refuses invalid or equal endpoints, a full table and endpoints that
    a live connection has, and on every error the table is unchanged. *)
Theorem pool_connect p l r :
  pool_core p -> sock_ok l -> sock_ok r ->
  match connect urandom l r p with
  | (Ok id, q) => id = next_id p /\ om_get (connections p) id = None
      /\ address_valid l = true /\ address_valid r = true /\ l <> r
      /\ zlen (connections p) < max_connections (config p)
      /\ (forall i c, om_get (connections p) i = Some c -> serves l r c = false)
      /\ exists iss, connections q = connections p ++ [(id, active l r iss (pool_now p) (config p))]
  | (Err k, q) => connections q = connections p
      /\ (k = AddrInUse -> urandom (draws p) <> Err AddrInUse ->
            exists i c, om_get (connections p) i = Some c /\ serves l r c = true)
  | _ => False
  end.
Proof.
  intros I Hl Hr. pose proof (pc_table _ I) as T. unfold connect.
  assert (forall a, validate_address a = Ok tt \/ validate_address a = Err InvalidInput) as Hv
    by (intros a; unfold validate_address; destruct (_ || _); auto).
  destruct (Hv l) as [El|El]; rewrite El; cbn [then_]; [|done].
  destruct (Hv r) as [Er|Er]; rewrite Er; cbn [then_]; [|done].
  case_bool_decide as Hne; [done|]. destruct (_ =? _) eqn:E; bools; [done|].
  case_bool_decide as Hf.
  { split; [done|]. intros _ _. destruct Hf as [i Hf].
    apply om_find_some in Hf as (c & ? & ?); [eauto|apply T]. }
  apply eq_None_not_Some in Hf. pose proof (tb_count _ _ _ T) as Hm.
  destruct (open_with_spec urandom urandom_ok p (fun iss => active l r iss (pool_now p) (config p)) l r I
    ltac:(lia) Hf) as ((R & _) & O).
  { intros iss Hi. split; [|done]. apply active_inv; [by apply core_ok|done..]. }
  assert (forall k q, open_with urandom (fun iss => active l r iss (pool_now p) (config p)) p = (Err k, q) ->
            k = AddrInUse -> urandom (draws p) = Err AddrInUse) as Hk.
  { intros k q. unfold open_with, initial_sequence, allocate_id. destruct (urandom _) as [v|k0| |]; try done.
    - simpl. destruct (_ <? _); [|done]. by intros [= <- _].
    - by intros [= -> _] ->. }
  destruct (open_with _ _ _) as [[id|k| |] q]; try done.
  - destruct O as (iss & -> & _ & Eq & _). split_and!; try done; try (by apply address_ok); [|lia| |eauto].
    + apply om_get_keys. intros Hin. pose proof (tb_ids _ _ _ T) as Hid. rewrite Forall_forall in Hid.
      specialize (Hid _ Hin). simpl in Hid. lia.
    + intros i c G. eapply om_find_none; [exact Hf|]. by apply om_get_elem, (list_elem_of_fmap_2 snd) in G.
  - split; [done|]. intros Ek Hn. destruct Hn. by eapply Hk.
Qed.

(** [accept] hands out the child with the smallest identifier that completed its
    handshake at the listening address and marks it, so that no child is handed out twice;
    it returns nothing only when there is no such child, and changes nothing else. *)
Theorem pool_accept p a :
  pool_core p ->
  match accept a p with
  | (Ok (Some id), q) => exists c, om_get (connections p) id = Some c
      /\ local c = a /\ accepted c = false /\ (state c = Established \/ state c = CloseWait)
      /\ (forall i c', om_get (connections p) i = Some c' -> acceptable_child a c' = true -> id <= i)
      /\ (forall i, om_get (connections q) i =
            if id =? i then Some (c <| accepted := true |>) else om_get (connections p) i)
  | (Ok None, q) => q = p /\ forall i c, om_get (connections p) i = Some c -> acceptable_child a c = false
  | (Err k, q) => q = p /\ a ∉ listeners p
  | _ => False
  end.
Proof.
  intros I. pose proof (pc_table _ I) as T. unfold accept. case_bool_decide as Hl; [|done].
  cbn [negb]. destruct (om_find _ _) as [id|] eqn:Ef.
  - pose proof Ef as Ef'. apply om_find_some in Ef' as (c & G & Ac); [|apply T]. rewrite G.
    unfold acceptable_child in Ac. rewrite !andb_true_iff, bool_decide_eq_true, negb_true_iff in Ac.
    destruct Ac as [[El Ea] Es]. exists c. split_and!; try done.
    + destruct (state c); auto; done.
    + intros i c' G' A'. eapply om_find_first; [apply T|exact Ef|exact G'|exact A'].
    + intros i. cbn. rewrite om_get_set, G. done.
  - split; [done|]. intros i c G. eapply om_find_none; [exact Ef|].
    by apply om_get_elem, (list_elem_of_fmap_2 snd) in G.
Qed.
End Props.

(** ** Witnesses: a pool that serves both ends of connections over the loopback device *)
Definition urandom0 (n : nat) : outcome Z := Ok (7 + 1000 * Z.of_nat n).
Lemma urandom0_ok : entropy_ok (fun n => urandom0 (n mod 4)).
Proof.
  intros k. unfold urandom0. pose proof (Nat.mod_upper_bound k 4). unfold W32. lia.
Qed.
Definition noise (n : nat) : outcome Z := urandom0 (n mod 4).
Definition client : SocketAddrV4 := mkSock 0x0a000001 1000.
Definition server : SocketAddrV4 := mkSock 0x0a000002 80.
Definition pool0 : TcpPool LoopbackDevice :=
  match tcp_pool_new loopback2 config_default with
  | Ok p => p | _ => mkTcpPool loopback2 config_default [] ∅ [] [] 0 1 stats_default [] 0 end.
Definition pool1 : TcpPool LoopbackDevice := (connect noise client server (listen server pool0).2).2.
Definition at_ (t : Z) (p : TcpPool LoopbackDevice) : TcpPool LoopbackDevice := (poll noise t 8 p).2.

(** A whole session in the model: three-way handshake, accept, two bytes from the
    client to the server, orderly close of both sides. *)
Example loopback_session :
  let p := at_ 1 (at_ 1 (at_ 1 (at_ 1 pool1))) in
  let '(child, p) := accept server p in
  let p := (pool_write 1 [104; 105] p).2 in
  let p := at_ 3 (at_ 2 p) in
  let '(data, p) := pool_read 2 10 p in
  let p := (pool_close 1 (at_ 5 (at_ 4 p))).2 in
  let p := (pool_close 2 (at_ 8 (at_ 7 (at_ 6 p)))).2 in
  let p := at_ 12 (at_ 11 (at_ 10 (at_ 9 p))) in
  child = Ok (Some 2) /\ data = Ok [104; 105]
  /\ (state <$> om_get (connections p) 1) = Some TimeWait
  /\ (state <$> om_get (connections p) 2) = Some Closed.
Proof. vm_compute. auto. Qed.

Lemma config_default_typed : config_typed config_default.
Proof. constructor; try split; vm_compute; discriminate. Qed.
Lemma noise_ok : entropy_ok noise.
Proof. apply urandom0_ok. Qed.
Lemma pool0_start : pool_start (D := LoopbackDevice) [] pool0.
Proof.
  exists loopback2, config_default. split; [apply loopback2_inv|]. split; [apply config_default_typed|].
  reflexivity.
Qed.
Lemma client_ok : sock_ok client.
Proof. unfold sock_ok, client, W32, W16. simpl. lia. Qed.
Lemma server_ok : sock_ok server.
Proof. unfold sock_ok, server, W32, W16. simpl. lia. Qed.
Lemma pool1_reachable : pool_reachable noise [] pool1.
Proof.
  exists pool0. split; [apply pool0_start|]. eapply rtc_l; [apply (do_listen noise [] pool0 server)|].
  eapply rtc_l; [|apply rtc_refl]. apply do_connect; [apply client_ok|apply server_ok].
Qed.
Lemma pool1_inv : pool_inv pool1 [].
Proof. eapply pool_reachable_inv, pool1_reachable. apply noise_ok. Qed.

Lemma pool_ids_fresh_witness :
  pool_status (remove 1 (abort_ 1 pool1).2).2 1 = Err NotFound.
Proof.
  eapply (pool_ids_fresh noise noise_ok [] pool1 (remove 1 (abort_ 1 pool1).2).2 _ 1).
  - apply pool1_reachable.
  - vm_compute. reflexivity.
  - eapply rtc_l; [apply do_abort|]. eapply rtc_l; [apply do_remove|apply rtc_refl].
  - vm_compute. reflexivity.
  - apply rtc_refl.
Defined.
Lemma pool_bounded_witness : zlen (connections pool1) <= max_connections (config pool1).
Proof. exact (proj1 (pool_bounded noise noise_ok [] pool1 pool1_reachable)). Defined.
Lemma pool_poll_safe_witness : poll_post pool1 [] 5 8 (poll noise 5 8 pool1).
Proof. exact (pool_poll_safe noise noise_ok 5 8 pool1 [] pool1_inv ltac:(lia)). Defined.
Definition answer : Segment := mkSegment server client 5000 8 (Z.lor SYN ACK) 1000 (Some 1460) [].
Lemma answer_ok : segment_ok answer.
Proof.
  constructor; simpl; try apply client_ok; try apply server_ok; unfold is_byte, W32, W16; simpl; try lia.
  - intros m [= <-]. lia.
  - constructor.
Qed.
Lemma pool_input_demux_witness :
  om_get (connections (pool_input noise answer pool1).2) 1
    = Some (input (active client server 7 0 config_default) answer 0 config_default).
Proof.
  destruct (pool_input_demux noise noise_ok pool1 answer (pi_core _ _ pool1_inv) answer_ok) as (Dm & _).
  refine (Dm 1 (active client server 7 0 config_default) _). vm_compute. reflexivity.
Defined.
Lemma pool_connect_witness : connect noise client server pool0 = (Ok 1, (connect noise client server pool0).2)
  /\ om_get (connections pool0) 1 = None.
Proof.
  assert (pool_core pool0) as I by exact (pi_core _ _ (pool_start_inv [] pool0 pool0_start)).
  pose proof (pool_connect noise noise_ok pool0 client server I client_ok server_ok) as C.
  assert ((connect noise client server pool0).1 = Ok 1) as E by (vm_compute; reflexivity).
  destruct (connect noise client server pool0) as [r q]. simpl in E. subst r. split; [reflexivity|].
  apply C.
Defined.
Lemma pool_accept_witness : (accept server pool1).1 = Ok None /\ (accept server pool1).2 = pool1.
Proof.
  pose proof (pool_accept pool1 server (pi_core _ _ pool1_inv)) as A.
  assert ((accept server pool1).1 = Ok None) as E by (vm_compute; reflexivity).
  destruct (accept server pool1) as [r q]. simpl in E. subst r. split; [reflexivity|]. apply A.
Defined.
