(* ===== verification/DnsWire.v ===== *)
(** * The DNS wire format ([src/dns/wire.rs])

    Names are byte strings ([str] restricted to the ASCII bytes the code accepts);
    [Err(())], the answer to a malformed or mismatched message, is [Err InvalidData]. *)
From Stdlib Require Import ZArith Lia Bool.
From stdpp Require Import base numbers option list relations.
From S2P Require Import Prelude.
#[local] Open Scope Z_scope.

(** [ResolveError] of [src/dns/mod.rs]. *)
Inductive ResolveError : Type :=
| InvalidName | Busy | Timeout_ | NameNotFound | NoData | ServerFailure | Refused | ProtocolError
| TcpRequired | AliasLimit | Cancelled | NetworkChanged | Local (kind : ErrorKind).
#[export] Instance ResolveError_eq_dec : EqDecision ResolveError.
Proof. solve_decision. Defined.

(** ** Names *)
Definition DOT : Z := 46.
Definition is_upper (c : Z) : bool := (65 <=? c) && (c <=? 90).
Definition is_alphanumeric (c : Z) : bool :=
  ((48 <=? c) && (c <=? 57)) || is_upper c || ((97 <=? c) && (c <=? 122)).
Definition host_byte (c : Z) : bool := is_alphanumeric c || (c =? 45) || (c =? 95).
Definition lower (c : Z) : Z := if is_upper c then c + 32 else c.
Definition to_lower (s : list Z) : list Z := lower <$> s.
(** [s.split('.')]. *)
Fixpoint split (s : list Z) : list (list Z) :=
  match s with
  | [] => [[]]
  | c :: s =>
      if c =? DOT then [] :: split s
      else match split s with label :: rest => (c :: label) :: rest | [] => [[c]] end
  end.
Definition strip_dot (s : list Z) : list Z :=
  if bool_decide (last s = Some DOT) then take (length s - 1) s else s.

Definition bad_label (label : list Z) : bool :=
  bool_decide (label = []) || (63 <? zlen label) || negb (forallb host_byte label).
Definition normalize (input : list Z) : ResolveError + list Z :=
  let name := strip_dot input in
  if bool_decide (name = []) || (253 <? zlen name) || existsb bad_label (split name)
  then inl InvalidName else inr (to_lower name).

Definition encode_label (label : list Z) : list Z := zlen label mod 256 :: label.
Definition query (id : Z) (name : list Z) : list Z :=
  be16 id ++ [1; 0; 0; 1; 0; 0; 0; 0; 0; 0] ++ (split name ≫= encode_label) ++ [0; 0; 1; 0; 1].

(** ** Decoding *)
(** [b.get(at)], [b.get(at..end)] with the error of a missing range. *)
Definition byte_at (b : list Z) (at_ : Z) : outcome Z :=
  if (0 <=? at_) && (at_ <? zlen b) then Ok (nth (Z.to_nat at_) b 0) else Err InvalidData.
Definition range (b : list Z) (at_ end_ : Z) : outcome (list Z) :=
  if (0 <=? at_) && (at_ <=? end_) && (end_ <=? zlen b)
  then Ok (take (Z.to_nat (end_ - at_)) (drop (Z.to_nat at_) b)) else Err InvalidData.
Definition word (b : list Z) (at_ : Z) : outcome Z :=
  let* r := range b at_ (at_ + 2) in
  match r with [h; l] => Ok (de16 h l) | _ => Err InvalidData end.
Definition long (b : list Z) (at_ : Z) : outcome Z :=
  let* r := range b at_ (at_ + 4) in
  match r with [a; b; c; d] => Ok (de32 a b c d) | _ => Err InvalidData end.

(** The loop of [name], with the iterations that are left. *)
Fixpoint name_loop (n : nat) (b : list Z) (at_ : Z) (end_ : option Z) (out : list Z)
  : outcome (list Z * Z) :=
  match n with
  | O => Err InvalidData
  | S n =>
      let* len := byte_at b at_ in
      if Z.land len 0xc0 =? 0xc0 then
        let* w := word b at_ in
        let target := Z.land w 0x3fff in
        if (target <? 12) || (at_ <=? target) then Err InvalidData
        else name_loop n b target (Some (default (at_ + 2) end_)) out
      else if len =? 0 then Ok (out, default (at_ + 1) end_)
      else if 63 <? len then Err InvalidData
      else
        let* label := range b (at_ + 1) (at_ + 1 + len) in
        let out := if bool_decide (out = []) then out else out ++ [DOT] in
        if negb (forallb host_byte label) then Err InvalidData
        else
          let out := out ++ label in
          if 253 <? zlen out then Err InvalidData
          else name_loop n b (at_ + 1 + len) end_ out
  end.
Definition name (b : list Z) (start : Z) : outcome (list Z * Z) := name_loop 128 b start None [].

Record DnsRecord : Type := mkDnsRecord {
  rr_owner : list Z; rr_kind : Z; rr_ttl : Z; rr_start : Z; rr_end : Z; rr_authority : bool
}.
Inductive WireAnswer : Type :=
| Addresses (canonical : list Z) (addresses : list Z) (ttl : Z)
| Alias (target : list Z) (ttl hops : Z)
| Negative (error : ResolveError) (ttl : option Z)
| Failure (error : ResolveError).

(** The records from the [i]-th one on, and the offset behind them. *)
Fixpoint records_loop (n : nat) (b : list Z) (answers authority i at_ : Z) (records : list DnsRecord)
  : outcome (list DnsRecord * Z) :=
  match n with
  | O => Ok (records, at_)
  | S n =>
      let* '(owner, at_) := name b at_ in
      let* kind := word b at_ in
      let* class := word b (at_ + 2) in
      let* ttl := long b (at_ + 4) in
      let* len := word b (at_ + 8) in
      let at_ := at_ + 10 in
      let end_ := at_ + len in
      if zlen b <? end_ then Err InvalidData
      else
        let records :=
          if (class =? 1) && (i <? answers + authority)
          then records ++ [mkDnsRecord (to_lower owner) kind
                             (if negb (Z.land ttl 0x80000000 =? 0) then 0 else ttl)
                             at_ end_ (answers <=? i)]
          else records in
        records_loop n b answers authority (i + 1) end_ records
  end.

(** The answers for one name: addresses, alias and the shortest lifetime. *)
Fixpoint scan (b : list Z) (records : list DnsRecord) (addresses : list Z) (alias : option (list Z)) (ttl : Z)
  : outcome (list Z * option (list Z) * Z) :=
  match records with
  | [] => Ok (addresses, alias, ttl)
  | rr :: records =>
      if rr_kind rr =? 1 then
        if negb (rr_end rr - rr_start rr =? 4) then Err InvalidData
        else
          let* b0 := get b (rr_start rr) in
          let* b1 := get b (rr_start rr + 1) in
          let* b2 := get b (rr_start rr + 2) in
          let* b3 := get b (rr_start rr + 3) in
          let ip := de32 b0 b1 b2 b3 in
          scan b records (if bool_decide (ip ∈ addresses) then addresses else addresses ++ [ip]) alias
            (Z.min ttl (rr_ttl rr))
      else if rr_kind rr =? 5 then
        let* '(target, end_) := name b (rr_start rr) in
        if negb (end_ =? rr_end rr) || bool_decide (target = []) then Err InvalidData
        else
          let target := to_lower target in
          if match alias with Some old => negb (bool_decide (old = target)) | None => false end
          then Err InvalidData
          else scan b records addresses (Some target) (Z.min ttl (rr_ttl rr))
      else scan b records addresses alias ttl
  end.
Definition ends_with (s t : list Z) : bool :=
  (zlen t <=? zlen s) && bool_decide (drop (length s - length t) s = t).
(** The negative lifetime from the authority section. *)
Fixpoint soa (b : list Z) (records : list DnsRecord) (current : list Z) (ttl : Z) (negative : option Z)
  : outcome (option Z) :=
  match records with
  | [] => Ok negative
  | rr :: records =>
      if negb (bool_decide (rr_owner rr = []) || bool_decide (current = rr_owner rr)
               || ends_with current (DOT :: rr_owner rr))
      then soa b records current ttl negative
      else
        let* '(mname, next) := name b (rr_start rr) in
        let* '(rname, next) := name b next in
        if negb (next + 20 =? rr_end rr) then Err InvalidData
        else
          let* minimum := long b (next + 16) in
          let value := Z.min (Z.min (rr_ttl rr) minimum) ttl in
          soa b records current ttl
            (Some (match negative with None => value | Some old => Z.min old value end))
  end.
Definition answers_for (records : list DnsRecord) (current : list Z) : list DnsRecord :=
  filter (fun r => rr_authority r = false /\ rr_owner r = current) records.
Definition soa_records (records : list DnsRecord) : list DnsRecord :=
  filter (fun r => rr_authority r = true /\ rr_kind r = 6) records.

(** Following the aliases; [n] names may still be looked at. *)
Fixpoint follow (n : nat) (b : list Z) (question : list Z) (rcode : Z) (records : list DnsRecord)
    (current : list Z) (seen : list (list Z)) (ttl : Z) : outcome WireAnswer :=
  match n with
  | O => Ok (Failure AliasLimit)
  | S n =>
      if bool_decide (current ∈ seen) then Ok (Failure AliasLimit)
      else
        let seen := seen ++ [current] in
        let* '(found, ttl) := scan b (answers_for records current) [] None ttl in
        let '(addresses, alias) := found in
        if negb (bool_decide (addresses = [])) then
          if bool_decide (is_Some alias) || (rcode =? 3) then Err InvalidData
          else Ok (Addresses current addresses ttl)
        else match alias with
        | Some target => follow n b question rcode records target seen ttl
        | None =>
            let* negative := soa b (soa_records records) current ttl None in
            if rcode =? 3 then Ok (Negative NameNotFound negative)
            else if negb (bool_decide (current = question)) && bool_decide (negative = None)
            then Ok (Alias current ttl (zlen seen - 1))
            else Ok (Negative NoData negative)
        end
  end.

(** The checks on header and question: flags and the offset behind the question. *)
Definition response_head (b : list Z) (id : Z) (question : list Z) : outcome (Z * Z) :=
  if (zlen b <? 12) || (512 <? zlen b) then Err InvalidData
  else
    let* id' := word b 0 in
    if negb (id' =? id) then Err InvalidData
    else
      let* flags := word b 2 in
      if (Z.land flags 0x8000 =? 0) || negb (Z.land flags 0x7800 =? 0) || negb (Z.land flags 0x40 =? 0)
      then Err InvalidData
      else
        let* questions := word b 4 in
        if negb (questions =? 1) then Err InvalidData
        else
          let* '(q, at_) := name b 12 in
          if negb (list_eqb (to_lower q) (to_lower question)) then Err InvalidData
          else
            let* type_ := word b at_ in
            if negb (type_ =? 1) then Err InvalidData
            else
              let* class := word b (at_ + 2) in
              if negb (class =? 1) then Err InvalidData else Ok (flags, at_ + 4).
Definition response (b : list Z) (id : Z) (question : list Z) (alias_budget : Z) : outcome WireAnswer :=
  let* '(flags, at_) := response_head b id question in
  if negb (Z.land flags 0x200 =? 0) then Ok (Failure TcpRequired)
  else
    let rcode := Z.land flags 15 in
    if rcode =? 2 then Ok (Failure ServerFailure)
    else if rcode =? 5 then Ok (Failure Refused)
    else if negb ((rcode =? 0) || (rcode =? 3)) then Ok (Failure ProtocolError)
    else
      let* answers := word b 6 in
      let* authority := word b 8 in
      let* additional := word b 10 in
      let total := answers + authority + additional in
      if 64 <? total then Err InvalidData
      else
        let* '(records, at_) := records_loop (Z.to_nat total) b answers authority 0 at_ [] in
        if negb (at_ =? zlen b) then Err InvalidData
        else
          follow (S (Z.to_nat (Z.min alias_budget 8))) b question rcode records question [] U32MAX.

(** ** Names as lists of labels *)
Fixpoint join (ls : list (list Z)) : list Z :=
  match ls with [] => [] | [l] => l | l :: ls => l ++ DOT :: join ls end.
Definition good (label : list Z) : Prop := bad_label label = false.
(** What [normalize] returns, and every name a response is asked about. *)
Definition valid_name (s : list Z) : Prop :=
  s <> [] /\ zlen s <= 253 /\ Forall good (split s) /\ to_lower s = s.

Lemma good_spec l : good l <-> l <> [] /\ zlen l <= 63 /\ Forall (fun c => host_byte c = true) l.
Proof.
  unfold good, bad_label. rewrite !orb_false_iff, negb_false_iff, bool_decide_eq_false, Z.ltb_ge.
  rewrite forallb_forall, Forall_forall. setoid_rewrite list_elem_of_In. tauto.
Qed.
Lemma host_not_dot c : host_byte c = true -> c <> DOT.
Proof. intros H ->. done. Qed.
Lemma host_is_byte c : host_byte c = true -> is_byte c.
Proof.
  unfold host_byte, is_alphanumeric, is_upper, is_byte. intros H.
  repeat (rewrite ?orb_true_iff, ?andb_true_iff, ?Z.leb_le, ?Z.eqb_eq in H). lia.
Qed.
Lemma split_not_nil s : split s <> [].
Proof. destruct s as [|c s]; simpl; [done|]. destruct (c =? DOT); [done|]. by destruct (split s). Qed.
Lemma join_cons l ls : ls <> [] -> join (l :: ls) = l ++ DOT :: join ls.
Proof. by destruct ls. Qed.
Lemma join_split s : join (split s) = s.
Proof.
  induction s as [|c s IH]; simpl; [done|]. destruct (c =? DOT) eqn:E; bools.
  - subst. rewrite join_cons by apply split_not_nil. cbn. by rewrite IH.
  - destruct (split s) as [|l [|l' ls]] eqn:Es; [by apply split_not_nil in Es|..]; cbn in *; by rewrite IH.
Qed.
Lemma split_app_dot l s : Forall (fun c => c <> DOT) l -> split (l ++ DOT :: s) = l :: split s.
Proof.
  induction 1 as [|c l Hc _ IH]; simpl; [done|]. rewrite IH. by rewrite (proj2 (Z.eqb_neq _ _)).
Qed.
Lemma split_label l : Forall (fun c => c <> DOT) l -> split l = [l].
Proof. induction 1 as [|c l Hc _ IH]; simpl; [done|]. rewrite IH. by rewrite (proj2 (Z.eqb_neq _ _)). Qed.
Lemma good_no_dot l : good l -> Forall (fun c => c <> DOT) l.
Proof.
  intros (_ & _ & F)%good_spec. eapply Forall_impl; [exact F|]. cbn. apply host_not_dot.
Qed.
Lemma split_join ls : ls <> [] -> Forall good ls -> split (join ls) = ls.
Proof.
  induction ls as [|l ls IH]; intros Hn F; [done|]. apply Forall_cons in F as [Hl F]. apply good_no_dot in Hl.
  destruct ls as [|l' ls]; [by apply split_label|].
  rewrite join_cons, split_app_dot by done. by rewrite IH.
Qed.
Lemma join_snoc ls l : ls <> [] -> join (ls ++ [l]) = join ls ++ DOT :: l.
Proof.
  induction ls as [|x ls IH]; intros Hn; [done|]. destruct ls as [|y ls]; [done|].
  rewrite <- app_comm_cons, !join_cons, IH by (done || by destruct ls). by rewrite <- app_assoc.
Qed.
Lemma join_prefix ls ks : zlen (join ls) <= zlen (join (ls ++ ks)).
Proof.
  induction ls as [|l ls IH]; [apply zlen_nonneg|]. rewrite <- app_comm_cons. destruct ls as [|x ls].
  - destruct ks as [|k ks]; [apply Z.le_refl|]. change ([] ++ k :: ks) with (k :: ks).
    rewrite (join_cons l (k :: ks)), zlen_app by done. pose proof (zlen_nonneg (DOT :: join (k :: ks))).
    change (join [l]) with l. lia.
  - change ((x :: ls) ++ ks) with (x :: (ls ++ ks)) in *. set (u := x :: (ls ++ ks)) in *. set (v := x :: ls) in *.
    rewrite (join_cons l u), (join_cons l v), !zlen_app, !zlen_cons by done. lia.
Qed.
Lemma join_nil ls : Forall good ls -> join ls = [] -> ls = [].
Proof.
  destruct ls as [|l ls]; [done|]. intros [Hl _]%Forall_cons E. apply good_spec in Hl as (Hl & _).
  destruct ls; [by subst|]. rewrite join_cons in E by done. by destruct l.
Qed.

(** Lower case keeps the shape of a name. *)
Lemma lower_host c : host_byte (lower c) = host_byte c.
Proof.
  unfold lower. destruct (is_upper c) eqn:E; [|done]. unfold host_byte, is_alphanumeric. rewrite E.
  unfold is_upper in *. rewrite andb_true_iff, !Z.leb_le in E. destruct E.
  rewrite orb_true_r. cbn. rewrite !orb_true_iff, !andb_true_iff, !Z.leb_le. lia.
Qed.
Lemma lower_idem c : lower (lower c) = lower c.
Proof.
  unfold lower at 2 3. destruct (is_upper c) eqn:E; [|unfold lower; by rewrite E].
  unfold lower, is_upper in *. rewrite andb_true_iff, !Z.leb_le in E. rewrite (proj2 (Z.leb_gt _ 90)) by lia.
  by rewrite andb_false_r.
Qed.
Lemma lower_dot c : lower c = DOT <-> c = DOT.
Proof.
  unfold lower, DOT. destruct (is_upper c) eqn:E; [|done]. unfold is_upper in E.
  rewrite andb_true_iff, !Z.leb_le in E. lia.
Qed.
Lemma to_lower_idem s : to_lower (to_lower s) = to_lower s.
Proof. unfold to_lower. rewrite <- list_fmap_compose. apply list_fmap_ext. intros _ c _. apply lower_idem. Qed.
Lemma zlen_to_lower s : zlen (to_lower s) = zlen s.
Proof. unfold zlen, to_lower. by rewrite length_fmap. Qed.
Lemma to_lower_nil s : to_lower s = [] <-> s = [].
Proof. by destruct s. Qed.
Lemma good_lower l : good l -> good (to_lower l).
Proof.
  rewrite !good_spec, zlen_to_lower, to_lower_nil. intros (? & ? & F). split_and!; try done.
  apply Forall_fmap. eapply Forall_impl; [exact F|]. cbn. intros c. by rewrite lower_host.
Qed.
Lemma split_lower s : split (to_lower s) = to_lower <$> split s.
Proof.
  induction s as [|c s IH]; [done|]. change (to_lower (c :: s)) with (lower c :: to_lower s). cbn [split]. rewrite IH.
  destruct (c =? DOT) eqn:E; bools.
  - rewrite (proj2 (Z.eqb_eq (lower c) DOT)) by (by apply lower_dot). done.
  - rewrite (proj2 (Z.eqb_neq (lower c) DOT)) by (by rewrite lower_dot). by destruct (split s).
Qed.
Lemma goods_lower ls : Forall good ls -> Forall good (to_lower <$> ls).
Proof. intros F. apply Forall_fmap. eapply Forall_impl; [exact F|]. cbn. apply good_lower. Qed.
Lemma existsb_bad ls : existsb bad_label ls = false <-> Forall good ls.
Proof.
  unfold good. induction ls as [|l ls IH]; cbn; [by split|]. rewrite orb_false_iff, Forall_cons, IH. done.
Qed.
Lemma normalize_valid input n : normalize input = inr n -> valid_name n.
Proof.
  unfold normalize. set (s := strip_dot input). destruct (_ || _) eqn:E; [done|]. intros [= <-].
  rewrite !orb_false_iff, bool_decide_eq_false, Z.ltb_ge, existsb_bad in E. destruct E as [[En El] Eg].
  unfold valid_name. rewrite zlen_to_lower, split_lower, to_lower_nil, to_lower_idem. split_and!; try done. by apply goods_lower.
Qed.

(** ** Reading *)
Lemma byte_at_cases b i : (0 <= i < zlen b /\ byte_at b i = Ok (nth (Z.to_nat i) b 0)) \/ byte_at b i = Err InvalidData.
Proof. unfold byte_at. destruct (_ && _) eqn:E; bools; auto. Qed.
Lemma range_cases b i j :
  (0 <= i <= j /\ j <= zlen b /\ range b i j = Ok (take (Z.to_nat (j - i)) (drop (Z.to_nat i) b)))
  \/ range b i j = Err InvalidData.
Proof. unfold range. destruct (_ && _) eqn:E; bools; [left|by right]. split_and!; try done; lia. Qed.
Lemma word_cases b i :
  (0 <= i /\ i + 2 <= zlen b /\ word b i = Ok (de16 (nth (Z.to_nat i) b 0) (nth (Z.to_nat i + 1) b 0)))
  \/ word b i = Err InvalidData.
Proof.
  unfold word. destruct (range_cases b i (i + 2)) as [(Hi & Hj & ->)| ->]; [left|by right]. cbn [obind].
  do 2 (split; [lia|]). replace (i + 2 - i) with 2 by lia. unfold zlen in Hj.
  pose proof (length_drop b (Z.to_nat i)) as L.
  destruct (drop (Z.to_nat i) b) as [|x [|y l]] eqn:E; cbn in L; try lia.
  change (Z.to_nat 2) with 2%nat. cbn.
  rewrite <- (Nat.add_0_r (Z.to_nat i)) at 1. rewrite <- !nth_skipn. rewrite E. done.
Qed.
Lemma long_cases b i :
  (exists v, 0 <= i /\ i + 4 <= zlen b /\ long b i = Ok v) \/ long b i = Err InvalidData.
Proof.
  unfold long. destruct (range_cases b i (i + 4)) as [(Hi & Hj & ->)| ->]; [left|by right]. cbn [obind].
  replace (i + 4 - i) with 4 by lia. unfold zlen in *.
  pose proof (length_drop b (Z.to_nat i)) as L.
  destruct (drop (Z.to_nat i) b) as [|x [|y [|z [|w l]]]]; cbn in L; try lia.
  change (Z.to_nat 4) with 4%nat. cbn. eexists. split_and!; [lia|lia|done].
Qed.

(** A decoded name consists of good labels and ends inside the message, behind its start. *)
Definition name_end (b : list Z) (at_ : Z) (end_ : option Z) (e : Z) : Prop :=
  match end_ with Some x => e = x | None => at_ < e <= zlen b end.
Lemma name_loop_spec n b at_ end_ ls :
  Forall good ls -> zlen (join ls) <= 253 ->
  match name_loop n b at_ end_ (join ls) with
  | Ok (s, e) => name_end b at_ end_ e /\ zlen s <= 253 /\ exists ls', s = join ls' /\ Forall good ls'
  | Err k => k = InvalidData
  | _ => False
  end.
Proof.
  revert at_ end_ ls. induction n as [|n IH]; intros at_ end_ ls G L; cbn [name_loop]; [done|].
  destruct (byte_at_cases b at_) as [[Ha ->]| ->]; [|done]. cbn [obind]. set (len := nth _ b 0).
  destruct (_ =? 0xc0).
  { destruct (word_cases b at_) as [(H0 & H1 & ->)| ->]; [|done]. cbn [obind]. set (t := Z.land _ 0x3fff).
    destruct (_ || _) eqn:E; [done|]. specialize (IH t (Some (default (at_ + 2) end_)) ls G L).
    destruct (name_loop n b t _ _) as [[s e]|k| |]; try done. destruct IH as (He & Hs). split; [|done].
    cbn in He. subst e. unfold name_end. destruct end_; cbn; [done|lia]. }
  destruct (len =? 0) eqn:E0.
  { split; [|by eauto]. unfold name_end. destruct end_; cbn; [done|lia]. }
  destruct (63 <? len) eqn:E1; [done|]. bools.
  destruct (range_cases b (at_ + 1) (at_ + 1 + len)) as [(H0 & H1 & Er)|Er]; rewrite Er; [|done]. cbn [obind].
  set (label := take _ _) in *. destruct (forallb host_byte label) eqn:Ef; cbn [negb]; [|done].
  assert (zlen label = len) as Ll.
  { unfold label. unfold zlen in *. rewrite length_take, length_drop. lia. }
  assert (good label) as Gl.
  { apply good_spec. split; [intros X; rewrite X, zlen_nil in Ll; lia|]. split; [lia|].
    apply Forall_forall. intros c Hc. rewrite forallb_forall in Ef. by apply Ef, list_elem_of_In. }
  assert ((if bool_decide (join ls = []) then join ls else join ls ++ [DOT]) ++ label = join (ls ++ [label])) as ->.
  { case_bool_decide as En; [apply join_nil in En; [by subst|done]|].
    rewrite join_snoc by (by intros ->). by rewrite <- app_assoc. }
  destruct (253 <? zlen (join (ls ++ [label]))) eqn:E2; [done|]. bools.
  specialize (IH (at_ + 1 + len) end_ (ls ++ [label])). rewrite Forall_app, Forall_singleton in IH.
  specialize (IH (conj G Gl) E2). destruct (name_loop n b _ _ _) as [[s e]|k| |]; try done.
  destruct IH as (He & Hs). split; [|done]. unfold name_end in *. destruct end_; [done|lia].
Qed.
Lemma name_spec b start :
  match name b start with
  | Ok (s, e) => start < e <= zlen b /\ zlen s <= 253 /\ (s = [] \/ valid_name (to_lower s))
  | Err k => k = InvalidData
  | _ => False
  end.
Proof.
  unfold name. pose proof (name_loop_spec 128 b start None []) as S. cbn [join] in S.
  specialize (S (Forall_nil_2 _) ltac:(rewrite zlen_nil; lia)).
  destruct (name_loop 128 b start None []) as [[s e]|k| |]; try done.
  destruct S as (He & Hs & ls & -> & G). split; [done|]. split; [done|].
  destruct ls as [|l ls]; [by left|right]. assert (join (l :: ls) <> []) as Hn by (by intros X%join_nil).
  unfold valid_name. rewrite to_lower_nil, zlen_to_lower, split_lower, split_join, to_lower_idem by done.
  split_and!; try done. by apply goods_lower.
Qed.

(** ** Encoding and decoding *)
Lemma land_c0 x : 0 <= x <= 63 -> Z.land x 0xc0 = 0.
Proof.
  intros Hx. assert (forallb (fun k => Z.land (Z.of_nat k) 0xc0 =? 0) (seq 0 64) = true) as F by (vm_compute; reflexivity).
  rewrite forallb_forall in F. specialize (F (Z.to_nat x)). rewrite Z2Nat.id in F by lia.
  apply Z.eqb_eq, F, in_seq. lia.
Qed.
Lemma byte_at_app pre c post : byte_at (pre ++ c :: post) (zlen pre) = Ok c.
Proof.
  unfold byte_at. rewrite zlen_app, zlen_cons. pose proof (zlen_nonneg post). pose proof (zlen_nonneg pre).
  rewrite (proj2 (Z.leb_le _ _)), (proj2 (Z.ltb_lt _ _)) by lia. cbn [andb]. f_equal.
  unfold zlen. rewrite Nat2Z.id, app_nth2, Nat.sub_diag by lia. done.
Qed.
Lemma range_app pre l post : range (pre ++ l ++ post) (zlen pre) (zlen pre + zlen l) = Ok l.
Proof.
  unfold range. rewrite !zlen_app. pose proof (zlen_nonneg post). pose proof (zlen_nonneg pre). pose proof (zlen_nonneg l).
  rewrite !(proj2 (Z.leb_le _ _)) by lia. cbn [andb]. f_equal.
  replace (Z.to_nat (zlen pre + zlen l - zlen pre)) with (length l) by (unfold zlen; lia).
  unfold zlen. rewrite Nat2Z.id, drop_app_length. by rewrite take_app_length.
Qed.
Lemma encode_good l : good l -> encode_label l = zlen l :: l.
Proof. intros (_ & L & _)%good_spec. unfold encode_label. pose proof (zlen_nonneg l). by rewrite Z.mod_small by lia. Qed.
Lemma name_loop_encode ls n pre post end_ front :
  (length ls < n)%nat -> Forall good (front ++ ls) -> zlen (join (front ++ ls)) <= 253 ->
  name_loop n (pre ++ (ls ≫= encode_label) ++ 0 :: post) (zlen pre) end_ (join front)
  = Ok (join (front ++ ls), default (zlen pre + zlen (ls ≫= encode_label) + 1) end_).
Proof.
  revert n pre front. induction ls as [|l ls IH]; intros [|n] pre front Hn G L; cbn [length] in Hn; try lia; cbn [name_loop].
  { change ([] ≫= encode_label) with (@nil Z). rewrite app_nil_l, byte_at_app. cbn [obind]. change (zlen (@nil Z)) with 0. rewrite app_nil_r. change (Z.land 0 192 =? 192) with false. change (0 =? 0) with true. cbv iota. by rewrite (Z.add_0_r (zlen pre)). }
  rewrite Forall_app, Forall_cons in G. destruct G as (Gf & Gl & G).
  pose proof Gl as (Hl & Ll & Hh)%good_spec.
  rewrite bind_cons, (encode_good l Gl), <- app_assoc. cbn [app]. rewrite byte_at_app. cbn [obind].
  assert (0 < zlen l) as Lp by (destruct l; [done|rewrite zlen_cons; pose proof (zlen_nonneg l); lia]).
  rewrite land_c0 by lia. change (0 =? 0xc0) with false. rewrite (proj2 (Z.eqb_neq (zlen l) 0)), (proj2 (Z.ltb_ge 63 _)) by lia.
  set (pre' := pre ++ [zlen l]).
  assert (forall x, pre ++ zlen l :: x = pre' ++ x) as Ep by (intros x; unfold pre'; by rewrite <- app_assoc).
  assert (zlen pre' = zlen pre + 1) as Lp' by (unfold pre'; rewrite zlen_app, zlen_cons, zlen_nil; lia).
  rewrite Ep, <- Lp', range_app. cbn [obind].
  assert (forallb host_byte l = true) as ->.
  { apply forallb_forall. intros c Hc. rewrite Forall_forall in Hh. by apply Hh, list_elem_of_In. }
  cbn [negb].
  assert ((if bool_decide (join front = []) then join front else join front ++ [DOT]) ++ l = join (front ++ [l])) as ->.
  { case_bool_decide as En; [apply join_nil in En; [by subst|done]|].
    rewrite join_snoc by (by intros ->). by rewrite <- app_assoc. }
  assert (zlen (join (front ++ [l])) <= zlen (join (front ++ l :: ls))) as Lj.
  { change (l :: ls) with ([l] ++ ls). rewrite app_assoc. apply join_prefix. }
  rewrite (proj2 (Z.ltb_ge 253 _)) by lia.
  rewrite (app_assoc pre' l), <- zlen_app, IH.
  - rewrite <- app_assoc. do 3 f_equal. rewrite zlen_app, Lp'. change ((zlen l :: l) ++ (ls ≫= encode_label)) with (zlen l :: (l ++ (ls ≫= encode_label))).
    rewrite zlen_cons, zlen_app. lia.
  - lia.
  - rewrite <- app_assoc. apply Forall_app. split; [done|by constructor].
  - by rewrite <- app_assoc.
Qed.
Lemma zlen_encode ls : ls <> [] -> Forall good ls -> zlen (ls ≫= encode_label) = zlen (join ls) + 1.
Proof.
  induction ls as [|l ls IH]; intros Hn G; [done|]. apply Forall_cons in G as [Gl G].
  rewrite bind_cons, (encode_good l Gl), zlen_app, zlen_cons. destruct ls as [|x ls].
  { change (zlen ([] ≫= encode_label)) with 0. change (join [l]) with l. lia. }
  rewrite IH, (join_cons l), zlen_app, zlen_cons by done. lia.
Qed.
Lemma label_count ls : ls <> [] -> Forall good ls -> 2 * zlen ls <= zlen (join ls) + 1.
Proof.
  induction ls as [|l ls IH]; intros Hn G; [done|]. apply Forall_cons in G as [Gl G].
  assert (1 <= zlen l) as Lp.
  { apply good_spec in Gl as (Hl & _). destruct l; [done|]. rewrite zlen_cons. pose proof (zlen_nonneg l). lia. }
  destruct ls as [|x ls]; [change (zlen [l]) with 1; change (join [l]) with l; lia|].
  specialize (IH ltac:(done) G). rewrite (join_cons l), zlen_app, !zlen_cons in * by done. lia.
Qed.
Lemma bytes_good l : good l -> bytes_ok l.
Proof. intros (_ & _ & F)%good_spec. eapply Forall_impl; [exact F|]. cbn. apply host_is_byte. Qed.
Lemma query_bytes id n : valid_name n -> bytes_ok (query id n).
Proof.
  intros (_ & _ & G & _). unfold query. rewrite !bytes_app. split_and!; [apply bytes_be16| | |].
  - repeat constructor; unfold is_byte; lia.
  - induction G as [|l ls Gl G IH]; [constructor|]. rewrite bind_cons, (encode_good l Gl), bytes_app. split; [|done].
    constructor; [|by apply bytes_good]. apply good_spec in Gl as (_ & L & _). pose proof (zlen_nonneg l). unfold is_byte. lia.
  - repeat constructor; unfold is_byte; lia.
Qed.
Lemma query_name id n :
  valid_name n -> name (query id n) 12 = Ok (n, zlen n + 14) /\ zlen (query id n) = zlen n + 18.
Proof.
  intros (Hn & L & G & _). pose proof (split_not_nil n) as Sn. pose proof (label_count _ Sn G) as Lc.
  pose proof (zlen_encode _ Sn G) as Le. rewrite join_split in *. unfold query.
  set (enc := split n ≫= encode_label) in *.
  change [0; 0; 1; 0; 1] with (0 :: [0; 1; 0; 1]). set (hd := [1; 0; 0; 1; 0; 0; 0; 0; 0; 0]). rewrite app_assoc.
  assert (zlen (be16 id ++ hd) = 12) as Lh by done. split.
  - unfold name. rewrite <- Lh at 1. unfold enc. rewrite (name_loop_encode (split n) 128 _ _ None []).
    + rewrite app_nil_l, join_split. fold enc. cbn [default]. do 2 f_equal. lia.
    + unfold zlen in *. lia.
    + done.
    + by rewrite app_nil_l, join_split.
  - rewrite !zlen_app in *. rewrite Le. change (zlen [0; 0; 1; 0; 1]) with 5. lia.
Qed.

(** ** Responses *)
Definition rr_in (b : list Z) (r : DnsRecord) : Prop := 0 <= rr_start r <= rr_end r /\ rr_end r <= zlen b.
Lemma word_range b i w : bytes_ok b -> word b i = Ok w -> 0 <= w < W16.
Proof.
  intros B. destruct (word_cases b i) as [(_ & _ & ->)| ->]; [|done]. intros [= <-]. eauto with net.
Qed.
Definition fails {A} (P : A -> Prop) (o : outcome A) : Prop :=
  match o with Ok a => P a | Err k => k = InvalidData | _ => False end.
Lemma fails_bind {A B} (P : A -> Prop) (Q : B -> Prop) o (f : A -> outcome B) :
  fails P o -> (forall a, o = Ok a -> P a -> fails Q (f a)) -> fails Q (obind o f).
Proof. destruct o; cbn; auto. Qed.
Lemma fails_impl {A} (P Q : A -> Prop) o : (forall a, o = Ok a -> P a -> Q a) -> fails P o -> fails Q o.
Proof. destruct o; cbn; auto. Qed.
Lemma word_fails b i : bytes_ok b -> fails (fun w => 0 <= w < W16 /\ 0 <= i /\ i + 2 <= zlen b) (word b i).
Proof.
  intros B. pose proof (word_range b i) as R. destruct (word_cases b i) as [(H0 & H1 & E)|E]; rewrite E in *; cbn; [|done]. auto.
Qed.
Lemma long_fails b i : fails (fun w => 0 <= i /\ i + 4 <= zlen b) (long b i).
Proof. destruct (long_cases b i) as [(v & ? & ? & ->)| ->]; cbn; auto. Qed.
Lemma name_fails b i :
  fails (fun '(s, e) => i < e <= zlen b /\ zlen s <= 253 /\ (s = [] \/ valid_name (to_lower s))) (name b i).
Proof. pose proof (name_spec b i) as S. destruct (name b i) as [[s e]| | |]; done. Qed.

Lemma records_loop_spec n b answers authority i at_ rs :
  bytes_ok b -> 0 <= at_ -> Forall (rr_in b) rs ->
  fails (fun '(rs', e) => Forall (rr_in b) rs') (records_loop n b answers authority i at_ rs).
Proof.
  intros B. revert i at_ rs. induction n as [|n IH]; intros i at_ rs Ha F; cbn [records_loop]; [done|].
  eapply fails_bind; [apply name_fails|]. intros [owner at1] _ (H1 & _).
  eapply fails_bind; [by apply word_fails|]. intros kind _ _.
  eapply fails_bind; [by apply word_fails|]. intros class _ _.
  eapply fails_bind; [apply long_fails|]. intros ttl _ _.
  eapply fails_bind; [by apply word_fails|]. intros len _ (Hl & _). cbv zeta.
  destruct (zlen b <? _) eqn:E; [done|]. bools. apply IH; [lia|].
  destruct (_ && _); [|done]. apply Forall_app. split; [done|]. constructor; [|constructor]. unfold rr_in. cbn. lia.
Qed.

(** An address record and an alias record of the message. *)
Definition address_of (b : list Z) (r : DnsRecord) : Z :=
  let at_ k := nth (Z.to_nat (rr_start r + k)) b 0 in de32 (at_ 0) (at_ 1) (at_ 2) (at_ 3).
Definition alias_of (b : list Z) (r : DnsRecord) (m : list Z) : Prop :=
  rr_kind r = 5 /\ exists t, name b (rr_start r) = Ok (t, rr_end r) /\ t <> [] /\ m = to_lower t.
Record scanned (b : list Z) (rs : list DnsRecord) (as0 : list Z) (al0 : option (list Z)) (ttl0 : Z)
    (as1 : list Z) (al1 : option (list Z)) (ttl1 : Z) : Prop := {
  sc_addresses x : x ∈ as1 <-> x ∈ as0 \/ exists r, r ∈ rs /\ rr_kind r = 1 /\ x = address_of b r;
  sc_nodup : NoDup as0 -> NoDup as1;
  sc_alias m : al1 = Some m -> al0 = Some m \/ exists r, r ∈ rs /\ alias_of b r m;
  sc_ttl : ttl1 <= ttl0;
  sc_ttls r : r ∈ rs -> rr_kind r = 1 \/ rr_kind r = 5 -> ttl1 <= rr_ttl r
}.
Lemma scan_spec b rs as0 al0 ttl0 :
  Forall (rr_in b) rs ->
  fails (fun '(as1, al1, ttl1) => scanned b rs as0 al0 ttl0 as1 al1 ttl1) (scan b rs as0 al0 ttl0).
Proof.
  intros F. revert as0 al0 ttl0. induction F as [|r rs Hr F IH]; intros as0 al0 ttl0; cbn [scan].
  { constructor; try done; [|auto|intros r Hr; by apply elem_of_nil in Hr].
    intros x. split; [auto|]. intros [|(r & Hr & _)]; [done|by apply elem_of_nil in Hr]. }
  destruct (rr_kind r =? 1) eqn:E1; bools.
  - destruct (_ =? 4) eqn:E4; cbn [negb]; [|done]. bools. destruct Hr as [Hs He].
    rewrite !get_ok by lia. cbn [obind].
    set (ip := de32 _ _ _ _).
    assert (ip = address_of b r) as Ei by (unfold ip, address_of; by rewrite Z.add_0_r).
    set (as' := if bool_decide (ip ∈ as0) then as0 else as0 ++ [ip]).
    eapply fails_impl; [|apply IH]. intros [[as1 al1] ttl1] _ [A Nd Al Tt Ts]. constructor.
    + intros x. rewrite A. unfold as'. case_bool_decide as Ein.
      * split; [intros [|(r' & Hr' & ?)]; [by left|right; exists r'; split; [by right|done]]|].
        intros [|(r' & [-> |Hr']%elem_of_cons & Hk & ->)]; [by left|left; by rewrite <- Ei|right; by exists r'].
      * rewrite elem_of_app, list_elem_of_singleton.
        split; [intros [[Hx| ->]|(r' & Hr' & ?)]; [by left|right; exists r; split; [left|done]|right; exists r'; split; [by right|done]]|].
        intros [|(r' & [-> |Hr']%elem_of_cons & Hk & ->)]; [by left; left|left; right; by rewrite <- Ei|right; by exists r'].
    + intros N. apply Nd. unfold as'. case_bool_decide; [done|]. apply NoDup_app. split; [done|].
      split; [|apply NoDup_singleton]. intros x Hx ->%list_elem_of_singleton. done.
    + intros m Hm. destruct (Al m Hm) as [|(r' & Hr' & ?)]; [by left|right; exists r'; split; [by right|done]].
    + lia.
    + intros r' [-> |Hr']%elem_of_cons Hk; [lia|eauto].
  - destruct (rr_kind r =? 5) eqn:E5; bools.
    + eapply fails_bind; [apply name_fails|]. intros [t e] En _.
      destruct (_ || _) eqn:Ec; [done|]. apply orb_false_iff in Ec as [Ec1 Ec2]. bools.
      apply bool_decide_eq_false in Ec2. subst e. cbv zeta. destruct (match al0 with Some _ => _ | None => _ end); [done|].
      eapply fails_impl; [|apply IH]. intros [[as1 al1] ttl1] _ [A Nd Al Tt Ts]. constructor; try done.
      * intros x. rewrite A. split; (intros [|(r' & Hr' & Hk & ?)]; [by left|right; exists r']); [split; [by right|done]|].
        apply elem_of_cons in Hr' as [-> |Hr']; [congruence|done].
      * intros m Hm. destruct (Al m Hm) as [[= <-]|(r' & Hr' & ?)]; right; [|exists r'; split; [by right|done]].
        exists r. split; [left|]. split; [done|]. by exists t.
      * lia.
      * intros r' [-> |Hr']%elem_of_cons Hk; [lia|eauto].
    + eapply fails_impl; [|apply IH]. intros [[as1 al1] ttl1] _ [A Nd Al Tt Ts]. constructor; try done.
      * intros x. rewrite A. split; (intros [|(r' & Hr' & Hk & ?)]; [by left|right; exists r']); [split; [by right|done]|].
        apply elem_of_cons in Hr' as [-> |Hr']; [congruence|done].
      * intros m Hm. destruct (Al m Hm) as [|(r' & Hr' & ?)]; [by left|right; exists r'; split; [by right|done]].
      * intros r' [-> |Hr']%elem_of_cons Hk; [lia|eauto].
Qed.

Lemma soa_fails b rs current ttl negative : fails (fun _ => True) (soa b rs current ttl negative).
Proof.
  revert negative. induction rs as [|r rs IH]; intros negative; cbn [soa]; [done|].
  destruct (negb _); [apply IH|]. eapply fails_bind; [apply name_fails|]. intros [m n] _ _.
  eapply fails_bind; [apply name_fails|]. intros [m' n'] _ _. destruct (negb _); [done|].
  eapply fails_bind; [apply long_fails|]. intros v _ _. apply IH.
Qed.
(** One alias of the answer section leads from a name to the next. *)
Definition cname (b : list Z) (rs : list DnsRecord) (n m : list Z) : Prop :=
  exists r, r ∈ answers_for rs n /\ alias_of b r m.
Definition chain_reaches (b : list Z) (rs : list DnsRecord) (question : list Z) (budget : nat) (n : list Z) (k : nat) : Prop :=
  (k <= budget)%nat /\ nsteps (cname b rs) k question n.
Definition answer_sound (b : list Z) (rs : list DnsRecord) (question : list Z) (budget : nat) (a : WireAnswer) : Prop :=
  match a with
  | Addresses n addresses ttl =>
      (exists k, chain_reaches b rs question budget n k) /\ addresses <> [] /\ NoDup addresses
      /\ (forall x, x ∈ addresses <-> exists r, r ∈ answers_for rs n /\ rr_kind r = 1 /\ x = address_of b r)
      /\ forall r, r ∈ answers_for rs n -> rr_kind r = 1 -> ttl <= rr_ttl r
  | Alias n ttl hops =>
      exists k, chain_reaches b rs question budget n k /\ hops = Z.of_nat k /\ n <> question
  | _ => True
  end.
Lemma follow_spec n b question rcode rs current seen ttl :
  Forall (rr_in b) rs -> nsteps (cname b rs) (length seen) question current ->
  fails (answer_sound b rs question (length seen + n - 1)) (follow n b question rcode rs current seen ttl).
Proof.
  intros F. revert current seen ttl. induction n as [|n IH]; intros current seen ttl St; cbn [follow]; [done|].
  case_bool_decide; [done|].
  assert (chain_reaches b rs question (length seen + S n - 1) current (length seen)) as R by (split; [lia|done]).
  assert (Forall (rr_in b) (answers_for rs current)) as Fa by (eapply sublist_Forall; [apply sublist_filter|done]).
  eapply fails_bind; [apply (scan_spec b _ [] None ttl Fa)|]. intros [[as1 al1] ttl1] _ [A Nd Al Tt Ts].
  case_bool_decide as Ea; cbn [negb].
  - destruct al1 as [m|].
    + specialize (IH m (seen ++ [current]) ttl1). rewrite length_app in IH. cbn [length] in IH.
      replace (length seen + S n - 1)%nat with (length seen + 1 + n - 1)%nat by lia. apply IH.
      rewrite Nat.add_1_r. eapply nsteps_r; [exact St|]. destruct (Al m eq_refl) as [|(r & Hr & Hm)]; [done|by exists r].
    + eapply fails_bind; [apply soa_fails|]. intros neg _ _. destruct (rcode =? 3); [done|].
      destruct (_ && _) eqn:E; [|done]. apply andb_true_iff in E as [E _]. apply negb_true_iff, bool_decide_eq_false in E.
      exists (length seen). split; [done|]. split; [|done]. rewrite zlen_app. unfold zlen. cbn. lia.
  - destruct (_ || _); [done|]. split; [by exists (length seen)|]. split; [done|]. split; [apply Nd; constructor|]. split.
    + intros x. rewrite A. split; [intros [Hx%elem_of_nil|]; [done|done]|by right].
    + intros r Hr Hk. apply Ts; auto.
Qed.
Lemma chain_valid b rs question budget n k :
  valid_name question -> chain_reaches b rs question budget n k -> valid_name n.
Proof.
  intros V [_ St]. destruct k as [|k]; [inversion St; by subst|].
  apply nsteps_inv_r in St as (m & _ & (r & _ & _ & t & En & Ht & ->)).
  pose proof (name_spec b (rr_start r)) as S. rewrite En in S. destruct S as (_ & _ & [|]); done.
Qed.

(** What the header and question of an accepted response say. *)
Definition head_ok (b : list Z) (id : Z) (question : list Z) (flags at_ : Z) : Prop :=
  12 <= zlen b <= 512 /\ word b 0 = Ok id /\ word b 2 = Ok flags /\ Z.land flags 0x8000 <> 0
  /\ word b 4 = Ok 1 /\ (exists q e, name b 12 = Ok (q, e) /\ to_lower q = to_lower question
       /\ word b e = Ok 1 /\ word b (e + 2) = Ok 1 /\ at_ = e + 4).
Lemma response_head_spec b id question :
  bytes_ok b -> fails (fun '(flags, at_) => head_ok b id question flags at_ /\ 0 <= at_) (response_head b id question).
Proof.
  intros B. unfold response_head. destruct (_ || _) eqn:E; [done|]. bools.
  eapply fails_bind; [by apply word_fails|]. intros i Ei _. destruct (i =? id) eqn:E1; cbn [negb]; [|done]. bools. subst i.
  eapply fails_bind; [by apply word_fails|]. intros fl Ef _.
  destruct (_ || _) eqn:E2; [done|]. rewrite !orb_false_iff in E2. destruct E2 as [[E2 _] _]. bools.
  eapply fails_bind; [by apply word_fails|]. intros qs Eq _. destruct (qs =? 1) eqn:E3; cbn [negb]; [|done]. bools. subst qs.
  eapply fails_bind; [apply name_fails|]. intros [q e] En (He & _).
  destruct (list_eqb _ _) eqn:E4; cbn [negb]; [|done]. apply list_eqb_eq in E4.
  eapply fails_bind; [by apply word_fails|]. intros ty Ety _. destruct (ty =? 1) eqn:E5; cbn [negb]; [|done]. bools. subst ty.
  eapply fails_bind; [by apply word_fails|]. intros cl Ecl _. destruct (cl =? 1) eqn:E6; cbn [negb]; [|done]. bools. subst cl.
  split; [|lia]. split; [lia|]. do 4 (split; [done|]). by exists q, e.
Qed.
(** The records of a message whose question ends at [at_]. *)
Definition message_records (b : list Z) (at_ : Z) (rs : list DnsRecord) : Prop :=
  exists answers authority additional,
    word b 6 = Ok answers /\ word b 8 = Ok authority /\ word b 10 = Ok additional
    /\ records_loop (Z.to_nat (answers + authority + additional)) b answers authority 0 at_ [] = Ok (rs, zlen b).
Definition response_sound (b : list Z) (id : Z) (question : list Z) (budget : Z) (a : WireAnswer) : Prop :=
  exists flags at_, head_ok b id question flags at_
    /\ ((exists e, a = Failure e)
        \/ exists rs, message_records b at_ rs
             /\ answer_sound b rs question (Z.to_nat (Z.min budget 8)) a).
Lemma response_spec b id question budget :
  bytes_ok b -> 0 <= budget -> fails (response_sound b id question budget) (response b id question budget).
Proof.
  intros B Hb. unfold response. eapply fails_bind; [by apply response_head_spec|]. intros [fl at_] _ [Hh Ha].
  assert (forall e, fails (response_sound b id question budget) (Ok (Failure e))) as Fail.
  { intros e. exists fl, at_. split; [done|]. left. by exists e. }
  destruct (negb _); [apply Fail|]. cbv zeta. destruct (_ =? 2); [apply Fail|]. destruct (_ =? 5); [apply Fail|].
  destruct (negb _); [apply Fail|].
  eapply fails_bind; [by apply word_fails|]. intros an Ean _. eapply fails_bind; [by apply word_fails|]. intros au Eau _.
  eapply fails_bind; [by apply word_fails|]. intros ad Ead _. destruct (64 <? _); [done|].
  eapply fails_bind; [by apply records_loop_spec|]. intros [rs e] Er F. destruct (e =? zlen b) eqn:E; cbn [negb]; [|done].
  bools. subst e.
  eapply fails_impl; [|apply (follow_spec (S (Z.to_nat (Z.min budget 8))) b question _ rs question [] U32MAX F); constructor].
  intros a _ S. exists fl, at_. split; [done|]. right. exists rs. split; [by exists an, au, ad|]. cbn [length] in S.
  by replace (0 + Datatypes.S (Z.to_nat (Z.min budget 8)) - 1)%nat with (Z.to_nat (Z.min budget 8)) in S by lia.
Qed.

Lemma split_snoc_dot s : split (s ++ [DOT]) = split s ++ [[]].
Proof.
  induction s as [|c s IH]; [done|]. cbn [app split]. rewrite IH. destruct (c =? DOT); [done|].
  destruct (split s) eqn:E; [by apply split_not_nil in E|done].
Qed.
Lemma normalize_fixed n : valid_name n -> normalize n = inr n.
Proof.
  intros (Hn & L & G & Lo). unfold normalize, strip_dot. rewrite (bool_decide_eq_false_2 (last n = Some DOT)).
  - cbv zeta. rewrite bool_decide_eq_false_2, (proj2 (Z.ltb_ge _ _)), (proj2 (existsb_bad _)), Lo by done. done.
  - intros E. apply last_Some in E as [m ->]. rewrite split_snoc_dot, Forall_app, Forall_singleton in G.
    destruct G as [_ []%good_spec]. done.
Qed.

(** C20. A query carries its identifier and the name it asks about: decoding the question
    of the query of a normalised name gives that name, within the size of a classic DNS
    message; normalising is idempotent. *)
Theorem dns_query_roundtrip input n id :
  normalize input = inr n -> 0 <= id < W16 ->
  normalize n = inr n /\ word (query id n) 0 = Ok id
  /\ name (query id n) 12 = Ok (n, zlen (query id n) - 4) /\ zlen (query id n) <= 271 /\ bytes_ok (query id n).
Proof.
  intros E Hi. apply normalize_valid in E. pose proof E as (_ & L & _). destruct (query_name id n E) as [En Ez].
  split; [by apply normalize_fixed|]. split.
  - unfold word, query. pose proof (range_app [] (be16 id)) as R. cbn [app] in R. change (zlen (@nil Z)) with 0 in R.
    change (0 + zlen (be16 id)) with (0 + 2) in R. rewrite R. cbn [obind]. unfold be16. f_equal. by apply de16_be16.
  - rewrite En, Ez. split; [do 2 f_equal; lia|]. split; [lia|]. by apply query_bytes.
Qed.

(** C19. Decoding any message returns: it is refused as malformed, or its identifier and
    question are those of the query; addresses and alias targets come from records of its
    answer section, chain_reaches from the question by at most eight aliases, every address of the
    last name is listed once, and the lifetime is that of no longer-lived record. *)
Theorem dns_response_sound b id question budget :
  bytes_ok b -> 0 <= budget ->
  match response b id question budget with
  | Ok a => response_sound b id question budget a
  | Err k => k = InvalidData
  | _ => False
  end.
Proof. apply response_spec. Qed.

(** ** Witnesses *)
(** [a.b]: an alias of [c.b], which has the address 10.0.0.7. *)
Definition asked : list Z := [97; 46; 98].
Definition reply : list Z :=
  [0; 7; 0x81; 0x80; 0; 1; 0; 2; 0; 0; 0; 0]
  ++ [1; 97; 1; 98; 0; 0; 1; 0; 1]
  ++ [0xc0; 12; 0; 5; 0; 1; 0; 0; 0; 60; 0; 4; 1; 99; 0xc0; 14]
  ++ [0xc0; 33; 0; 1; 0; 1; 0; 0; 0; 30; 0; 4; 10; 0; 0; 7].
Lemma reply_bytes : bytes_ok reply.
Proof. repeat constructor; unfold is_byte; lia. Qed.
Example reply_decoded : response reply 7 asked 8 = Ok (Addresses [99; 46; 98] [0x0a000007] 30).
Proof. vm_compute. reflexivity. Qed.
Lemma dns_response_sound_witness : response_sound reply 7 asked 8 (Addresses [99; 46; 98] [0x0a000007] 30).
Proof.
  pose proof (dns_response_sound reply 7 asked 8 reply_bytes ltac:(lia)) as S. rewrite reply_decoded in S. exact S.
Defined.
Lemma dns_query_roundtrip_witness : name (query 9 asked) 12 = Ok (asked, 17).
Proof.
  destruct (dns_query_roundtrip [65; 46; 98; 46] asked 9) as (_ & _ & N & _).
  - vm_compute. reflexivity.
  - unfold W16. lia.
  - exact N.
Defined.
