(* ===== verification/DnsResolver.v ===== *)
(** * The DNS resolver ([src/dns/mod.rs])

    [UdpResolver] owns a UDP pool.  The cache is a [BTreeMap] keyed by name, kept as the list
    of its entries in byte order because the eviction picks the first of the entries that
    expire earliest.  [urandom k] is the result of the [k]-th read of four bytes of OS
    entropy, as a 32-bit word, and [dn_draws] counts the reads. *)
From Stdlib Require Import ZArith Lia Bool.
From stdpp Require Import base numbers option list gmap sorting.
From S2P Require Import Prelude BufferPool Addr UdpWire Device OrdMap UdpSched UdpPool DnsWire.
#[local] Open Scope Z_scope.

Record DnsAnswer : Type := mkDnsAnswer { canonical_name : list Z; an_addresses : list Z; expires_at : Z }.
Definition DnsResult : Type := ResolveError + DnsAnswer.
Record Completion : Type := mkCompletion {
  cp_id : Z; cp_name : list Z; cp_generation : Z; from_cache : bool; cp_result : DnsResult
}.
Record NetworkConfig : Type := mkNetworkConfig { local_address : Z; servers : list SocketAddrV4 }.
#[export] Instance NetworkConfig_eq_dec : EqDecision NetworkConfig.
Proof. solve_decision. Defined.
Definition plain_unicast (a : Z) : bool :=
  negb (is_unspecified a) && negb (is_multicast a) && negb (is_broadcast a).
Definition network_validate (n : NetworkConfig) : outcome unit :=
  if negb (plain_unicast (local_address n)) || bool_decide (servers n = []) || (8 <? zlen (servers n))
     || existsb (fun s => (port s =? 0) || negb (plain_unicast (ip s))) (servers n)
  then Err InvalidInput else Ok tt.

Record ResolverConfig : Type := mkResolverConfig {
  dn_capacity : Z; cache_capacity : Z; max_cache_ttl : Z; lookup_timeout : Z; attempt_timeout : Z;
  attempts_per_name : Z; receive_budget : Z
}.
Definition resolver_config_default : ResolverConfig :=
  mkResolverConfig 64 128 (3600 * SECOND) (10 * SECOND) (1 * SECOND) 3 64.
Record ResolverStats : Type := mkResolverStats {
  queries_submitted : Z; cache_hits : Z; ignored_responses : Z; malformed_responses : Z; completed : Z
}.
#[export] Instance eta_ResolverStats : Eta ResolverStats := fun s =>
  mkResolverStats (queries_submitted s) (cache_hits s) (ignored_responses s) (malformed_responses s)
    (completed s).

Record DnsPending : Type := mkDnsPending {
  pq_original : list Z;
  pq_question : list Z;
  aliases : list (list Z);
  alias_expires : option Z;
  pq_deadline : Z;
  pq_next : Z;
  attempts : Z;
  pq_local : option SocketAddrV4;
  pq_server : SocketAddrV4;
  wire_id : Z;
  datagram : option Z
}.
#[export] Instance eta_DnsPending : Eta DnsPending := fun q =>
  mkDnsPending (pq_original q) (pq_question q) (aliases q) (alias_expires q) (pq_deadline q)
    (pq_next q) (attempts q) (pq_local q) (pq_server q) (wire_id q) (datagram q).
Record Cached : Type := mkCached { ca_expires : Z; ca_result : DnsResult }.
Record Incoming : Type := mkIncoming {
  in_source : SocketAddrV4; in_destination : SocketAddrV4; in_payload : list Z
}.

Record UdpResolver (D : Type) : Type := mkUdpResolver {
  dn_pool : UdpPool D;
  dn_config : ResolverConfig;
  dn_network : NetworkConfig;
  dn_draws : nat;
  dn_pending : list (Z * DnsPending);
  dn_results : list Completion;
  dn_cache : list (list Z * Cached);
  dn_now : Z;
  dn_generation : Z;
  dn_next_id : Z;
  dn_stats : ResolverStats
}.
Arguments mkUdpResolver {D}. Arguments dn_pool {D}. Arguments dn_config {D}. Arguments dn_network {D}.
Arguments dn_draws {D}. Arguments dn_pending {D}. Arguments dn_results {D}. Arguments dn_cache {D}.
Arguments dn_now {D}. Arguments dn_generation {D}. Arguments dn_next_id {D}. Arguments dn_stats {D}.
#[export] Instance eta_UdpResolver D : Eta (UdpResolver D) := fun r =>
  mkUdpResolver (dn_pool r) (dn_config r) (dn_network r) (dn_draws r) (dn_pending r) (dn_results r)
    (dn_cache r) (dn_now r) (dn_generation r) (dn_next_id r) (dn_stats r).

(** ** The cache, ordered by name *)
Fixpoint str_lt (a b : list Z) : bool :=
  match a, b with
  | _, [] => false
  | [], _ :: _ => true
  | x :: a, y :: b => (x <? y) || ((x =? y) && str_lt a b)
  end.
Fixpoint cache_get (m : list (list Z * Cached)) (k : list Z) : option Cached :=
  match m with
  | [] => None
  | (n, c) :: m => if list_eqb n k then Some c else cache_get m k
  end.
Fixpoint cache_insert (m : list (list Z * Cached)) (k : list Z) (v : Cached) : list (list Z * Cached) :=
  match m with
  | [] => [(k, v)]
  | (n, c) :: m =>
      if str_lt k n then (k, v) :: (n, c) :: m
      else if list_eqb n k then (k, v) :: m
      else (n, c) :: cache_insert m k v
  end.
Fixpoint cache_remove (m : list (list Z * Cached)) (k : list Z) : list (list Z * Cached) :=
  match m with
  | [] => []
  | (n, c) :: m => if list_eqb n k then m else (n, c) :: cache_remove m k
  end.
(** [iter().min_by_key(|(_, c)| c.expires)]: the first of the smallest. *)
Fixpoint earliest (m : list (list Z * Cached)) : option (list Z * Cached) :=
  match m with
  | [] => None
  | e :: m =>
      match earliest m with
      | Some e' => if ca_expires e'.2 <? ca_expires e.2 then Some e' else Some e
      | None => Some e
      end
  end.

Section Resolver.
Context {D : Type} `{Device D} (urandom : nat -> outcome Z).
Notation R := (UdpResolver D).
Implicit Types r : UdpResolver D.

Definition on_pool {A} (f : ST (UdpPool D) A) : ST R A := fun r =>
  let '(o, p) := f (dn_pool r) in (o, r <| dn_pool := p |>).

Definition limits_valid (c : ResolverConfig) : bool :=
  negb ((dn_capacity c =? 0) || (4096 <? dn_capacity c) || (4096 <? cache_capacity c)
        || (lookup_timeout c =? 0) || (attempt_timeout c =? 0) || (attempts_per_name c =? 0)
        || (16 <? attempts_per_name c) || (receive_budget c =? 0) || (256 <? receive_budget c)).
Definition resolver_pool_config (c : ResolverConfig) : UdpConfig :=
  udp_config_default <| queue_capacity := dn_capacity c |> <| service_capacity := dn_capacity c |>
    <| max_tx_peers := 8 |> <| per_peer_capacity := dn_capacity c |> <| tx_budget := dn_capacity c |>
    <| queue_lifetime := Some (attempt_timeout c) |> <| udp_event_capacity := dn_capacity c * 4 |>
    <| fair_queue := true |>.
(** [opened] is the result of opening the entropy source. *)
Definition resolver_new (device : D) (network : NetworkConfig) (config : ResolverConfig)
    (opened : outcome unit) : outcome R :=
  let* _ := network_validate network in
  if negb (limits_valid config) then Err InvalidInput
  else
    let* _ := opened in
    let* pool := with_config device (resolver_pool_config config) in
    Ok (mkUdpResolver pool config network 0%nat [] [] [] 0 0 1 (mkResolverStats 0 0 0 0 0)).

Definition dns_close (q : DnsPending) : ST R DnsPending := fun r =>
  match pq_local q with
  | Some a =>
      then_ (on_pool (unbind a) r) id (fun _ r =>
      (Ok (q <| pq_local := None |> <| datagram := None |>), r))
  | None => (Ok (q <| datagram := None |>), r)
  end.
(** Keep a result for [ttl], making room for it. *)
Definition store (name : list Z) (result : DnsResult) (ttl : Z) r : R :=
  let expires := dur_add (dn_now r) (Z.min ttl (max_cache_ttl (dn_config r))) in
  if (dn_now r <? expires) && (0 <? cache_capacity (dn_config r)) then
    let r :=
      if cache_capacity (dn_config r) <=? zlen (dn_cache r)
      then match earliest (dn_cache r) with
           | Some (old, _) => r <| dn_cache ::= fun m => cache_remove m old |>
           | None => r
           end
      else r in
    r <| dn_cache ::= fun m => cache_insert m name (mkCached expires result) |>
  else r.
Definition dns_finish (id : Z) (result : DnsResult) (ttl : option Z) : ST R unit := fun r =>
  match om_get (dn_pending r) id with
  | None => (Ok tt, r)
  | Some q =>
      then_ (dns_close q (r <| dn_pending ::= fun m => om_remove m id |>)) Datatypes.id (fun q r =>
      let r := match ttl with Some ttl => store (pq_original q) result ttl r | None => r end in
      (Ok tt,
       r <| dn_stats ::= fun s => s <| completed ::= count 1 |> |>
         <| dn_results ::= fun l => l ++ [mkCompletion id (pq_original q) (dn_generation r) false result] |>))
  end.

(** The loop of [attempt]: draw a source port, bind it and queue the query. *)
Fixpoint attempt_loop (n : nat) (q : DnsPending) r : outcome unit * (R * DnsPending) :=
  match n with
  | O => (Err WouldBlock, (r, q))
  | S n =>
      let random := urandom (dn_draws r) in
      let r := r <| dn_draws ::= S |> in
      match random with
      | Ok word =>
          let port_ := word mod 65536 in
          if port_ <? 1024 then attempt_loop n q r
          else
            let local_ := mkSock (local_address (dn_network r)) port_ in
            match on_pool (bind (mkService local_ 0)) r with
            | (Err AddrInUse, r) => attempt_loop n q r
            | (Ok _, r) =>
                let q := q <| pq_local := Some local_ |> <| wire_id := word / 65536 |> in
                match get_at (servers (dn_network r)) (attempts q mod zlen (servers (dn_network r))) with
                | Ok server =>
                    let q := q <| pq_server := server |> in
                    let next :=
                      Z.min (dur_add (dn_now r)
                               (dur_mul (attempt_timeout (dn_config r)) (Z.shiftl 1 (attempts q))))
                        (pq_deadline q) in
                    match on_pool (send_with_options local_ server (query (wire_id q) (pq_question q))
                                     (Some next)) r with
                    | (Ok sent, r) =>
                        (Ok tt, (r <| dn_stats ::= fun s => s <| queries_submitted ::= count 1 |> |>,
                                 q <| datagram := Some sent |> <| attempts ::= Z.succ |> <| pq_next := next |>))
                    | (o, r) => (recast o, (r, q))
                    end
                | o => (recast o, (r, q))
                end
            | (o, r) => (o, (r, q))
            end
      | o => (recast o, (r, q))
      end
  end.
Definition attempt (id : Z) : ST R unit := fun r =>
  match om_get (dn_pending r) id with
  | None => (Panic, r)
  | Some q =>
      then_ (dns_close q (r <| dn_pending ::= fun m => om_remove m id |>)) Datatypes.id (fun q r =>
      let '(o, (r, q)) := attempt_loop 32 q r in
      let insert q r := r <| dn_pending ::= fun m => om_insert m id q |> in
      match o with
      | Ok _ => (Ok tt, insert q r)
      | Err k => then_ (dns_close q r) Datatypes.id (fun q r => (Err k, insert q r))
      | o => (o, r)
      end)
  end.

(** ** Responses *)
Definition matches (input : Incoming) (wire_id_ : Z) (q : DnsPending) : bool :=
  bool_decide (pq_local q = Some (in_destination input)) && bool_decide (pq_server q = in_source input)
  && (wire_id q =? wire_id_) && bool_decide (is_Some (datagram q)).
(** The end of the lifetime [ttl], in seconds, of an answer to [q]. *)
Definition expiry (q : DnsPending) (ttl : Z) r : Z :=
  let expires := dur_add (dn_now r) (Z.min (ttl * SECOND) (max_cache_ttl (dn_config r))) in
  match alias_expires q with Some old => Z.min old expires | None => expires end.
Definition update (id : Z) (q : DnsPending) r : R := r <| dn_pending ::= fun m => om_set m id q |>.
Definition accept_answer (id : Z) (q : DnsPending) (a : WireAnswer) : ST R unit := fun r =>
  match a with
  | Addresses canonical addresses ttl =>
      let expires := expiry q ttl r in
      dns_finish id (inr (mkDnsAnswer canonical addresses expires)) (Some (dur_sub expires (dn_now r))) r
  | Alias target ttl hops =>
      let expires := expiry q ttl r in
      if bool_decide (target ∈ aliases q) || (8 <? zlen (aliases q) - 1 + hops)
      then dns_finish id (inl AliasLimit) None r
      else
        (Ok tt,
         update id (q <| aliases ::= fun l => l ++ replicate (Z.to_nat (Z.max hops 1)) target |>
                      <| pq_question := target |> <| alias_expires := Some expires |>
                      <| attempts := 0 |> <| pq_next := dn_now r |> <| datagram := None |>) r)
  | Negative error ttl =>
      dns_finish id (inl error) ((fun ttl => dur_sub (expiry q ttl r) (dn_now r)) <$> ttl) r
  | Failure error =>
      if match error with ServerFailure | Refused => true | _ => false end
         && (attempts q <? attempts_per_name (dn_config r))
      then (Ok tt, update id (q <| pq_next := dn_now r |> <| datagram := None |>) r)
      else dns_finish id (inl error) None r
  end.
Definition count_malformed_response r : R := r <| dn_stats ::= fun s => s <| malformed_responses ::= count 1 |> |>.
Definition count_ignored_response r : R := r <| dn_stats ::= fun s => s <| ignored_responses ::= count 1 |> |>.
Definition dns_receive (input : Incoming) : ST R unit := fun r =>
  if zlen (in_payload input) <? 2 then (Ok tt, count_malformed_response r)
  else
    match read16 (in_payload input) 0 with
    | Ok w =>
        match om_find (matches input w) (dn_pending r) with
        | None => (Ok tt, count_ignored_response r)
        | Some id =>
            match om_get (dn_pending r) id with
            | None => (Panic, r)
            | Some q =>
                if (pq_deadline q <=? dn_now r) || (pq_next q <=? dn_now r)
                then (Ok tt, count_ignored_response r)
                else
                  match response (in_payload input) w (pq_question q)
                          (Z.max 0 (8 - (zlen (aliases q) - 1))) with
                  | Ok a => accept_answer id q a r
                  | Err _ => (Ok tt, count_malformed_response r)
                  | o => (recast o, r)
                  end
            end
        end
    | o => (recast o, r)
    end.
Fixpoint receive_all (inputs : list Incoming) : ST R unit := fun r =>
  match inputs with
  | [] => (Ok tt, r)
  | input :: inputs => then_ (dns_receive input r) id (fun _ r => receive_all inputs r)
  end.

(** ** The [Resolver] interface *)
Definition new_lookup (id : Z) (name : list Z) : ST R (ResolveError + Z) := fun r =>
  match servers (dn_network r) with
  | [] => (Panic, r)
  | server :: _ =>
      (Ok (inr id),
       r <| dn_pending ::= fun m => om_insert m id
              (mkDnsPending name name [name] None (dur_add (dn_now r) (lookup_timeout (dn_config r)))
                 (dn_now r) 0 None server 0 None) |>)
  end.
Definition dns_resolve (input : list Z) : ST R (ResolveError + Z) := fun r =>
  match normalize input with
  | inl e => (Ok (inl e), r)
  | inr name =>
      if dn_capacity (dn_config r) <=? zlen (dn_pending r) + zlen (dn_results r) then (Ok (inl Busy), r)
      else if U64MAX <? dn_next_id r + 1 then (Ok (inl Busy), r)
      else
        let id := dn_next_id r in
        let r := r <| dn_next_id ::= Z.succ |> in
        match cache_get (dn_cache r) name with
        | Some c =>
            if dn_now r <? ca_expires c then
              (Ok (inr id),
               r <| dn_results ::= fun l => l ++ [mkCompletion id name (dn_generation r) true (ca_result c)] |>
                 <| dn_stats ::= fun s => s <| cache_hits ::= count 1 |> <| completed ::= count 1 |> |>)
            else new_lookup id name r
        | None => new_lookup id name r
        end
  end.

(** The handler that [poll] gives to the UDP pool. *)
Definition collect (incoming : list Incoming) (d : Datagram) : Action * list Incoming :=
  (Ignore,
   if zlen (dg_payload d) <=? 512
   then incoming ++ [mkIncoming (dg_source d) (dg_destination d) (dg_payload d)] else incoming).
(** One event of the UDP pool. *)
Definition take_event (now : Z) (ev : UdpEvent) : ST R unit := fun r =>
  match ue_outcome ev with
  | Dropped reason =>
      match om_find (fun q => bool_decide (is_Some (datagram q)) && bool_decide (datagram q = ue_id ev))
              (dn_pending r) with
      | None => (Ok tt, r)
      | Some id =>
          match reason with
          | DeviceFailure kind => dns_finish id (inl (Local kind)) None r
          | _ =>
              match om_get (dn_pending r) id with
              | Some q => (Ok tt, update id (q <| pq_next := now |>) r)
              | None => (Panic, r)
              end
          end
      end
  | _ => (Ok tt, r)
  end.
(** [while let Some(event) = self.pool.pop_event()]. *)
Fixpoint take_events (fuel : nat) (now : Z) : ST R unit := fun r =>
  match fuel with
  | O => (OutOfFuel, r)
  | S fuel =>
      let '(ev, p) := pop_event (dn_pool r) in
      match ev with
      | None => (Ok tt, r)
      | Some ev =>
          then_ (take_event now ev (r <| dn_pool := p |>)) id (fun _ r => take_events fuel now r)
      end
  end.
(** The part of [poll] for one lookup. *)
Definition work_one (now id : Z) : ST R unit := fun r =>
  match om_get (dn_pending r) id with
  | None => (Panic, r)
  | Some q =>
      if (pq_deadline q <=? now)
         || ((pq_next q <=? now) && (attempts_per_name (dn_config r) <=? attempts q))
      then dns_finish id (inl Timeout_) None r
      else if pq_next q <=? now then
        match attempt id r with
        | (Ok _, r) => (Ok tt, r)
        | (Err WouldBlock, r) =>
            match om_get (dn_pending r) id with
            | Some q => (Ok tt, update id (q <| pq_next := dur_add now (10 * MILLI) |>) r)
            | None => (Panic, r)
            end
        | (Err k, r) => dns_finish id (inl (Local k)) None r
        | o => o
        end
      else (Ok tt, r)
  end.
Fixpoint work_all (now : Z) (ids : list Z) : ST R unit := fun r =>
  match ids with
  | [] => (Ok tt, r)
  | id :: ids => then_ (work_one now id r) Datatypes.id (fun _ r => work_all now ids r)
  end.
Definition pool_backlog (p : UdpPool D) : nat := length (events p) + length (queue (tx p)).
Definition dns_poll (now : Z) : ST R unit := fun r =>
  if now <? dn_now r then (Err InvalidInput, r)
  else
    let r := r <| dn_now := now |> <| dn_cache ::= List.filter (fun e => now <? ca_expires e.2) |> in
    let '(o, (p, incoming)) := poll collect now 0 (receive_budget (dn_config r)) (dn_pool r) [] in
    then_ (o, r <| dn_pool := p |>) id (fun _ r =>
    then_ (receive_all incoming r) id (fun _ r =>
    then_ (take_events (S (pool_backlog (dn_pool r))) now r) id (fun _ r =>
    then_ (work_all now (dn_pending r).*1 r) id (fun _ r =>
    then_ (on_pool flush r) id (fun _ r => (Ok tt, r)))))).
Definition dns_pop_result r : option Completion * R := (head (dn_results r), r <| dn_results ::= tail |>).
Definition dns_cancel (id : Z) : ST R bool := fun r =>
  match om_get (dn_pending r) id with
  | None => (Ok false, r)
  | Some _ => then_ (dns_finish id (inl Cancelled) None r) Datatypes.id (fun _ r => (Ok true, r))
  end.
Definition dns_next_deadline r : outcome (option Z) :=
  let* pool_deadline := udp_next_deadline (dn_pool r) in
  Ok (foldr (fun e m => opt_min (Some (Z.min (pq_next e.2) (pq_deadline e.2))) m) pool_deadline (dn_pending r)).
Fixpoint finish_all (ids : list Z) (error : ResolveError) : ST R unit := fun r =>
  match ids with
  | [] => (Ok tt, r)
  | id :: ids => then_ (dns_finish id (inl error) None r) Datatypes.id (fun _ r => finish_all ids error r)
  end.
Definition dns_invalidate : ST R unit := fun r =>
  then_ (finish_all (dn_pending r).*1 NetworkChanged r) id (fun _ r =>
  (Ok tt, r <| dn_cache := [] |> <| dn_generation ::= count 1 |>)).
Definition dns_configure (network : NetworkConfig) : ST R unit := fun r =>
  match network_validate network with
  | Ok _ =>
      if bool_decide (dn_network r = network) then (Ok tt, r)
      else then_ (dns_invalidate r) id (fun _ r => (Ok tt, r <| dn_network := network |>))
  | o => (o, r)
  end.
End Resolver.
