(* ===== verification/DnsInv.v ===== *)
(** * Invariant of the DNS resolver

    The bounds of its tables, the shape of a pending lookup, and the agreement with the UDP
    pool below: the bound endpoints are exactly those of the pending lookups. *)
From Stdlib Require Import ZArith Lia Bool.
From stdpp Require Import base numbers option list gmap sorting relations.
From S2P Require Import Prelude BufferPool Addr UdpWire Device OrdMap UdpSched UdpPool UdpPoolInv UdpPoolProps.
From S2P Require Import DnsWire DnsResolver.
#[local] Open Scope Z_scope.

Record limits_ok (c : ResolverConfig) : Prop := {
  lm_capacity : 0 < dn_capacity c <= 4096;
  lm_cache : 0 <= cache_capacity c <= 4096;
  lm_ttl : 0 <= max_cache_ttl c;
  lm_lookup : 0 < lookup_timeout c;
  lm_attempt : 0 < attempt_timeout c <= DURATION_MAX;
  lm_attempts : 0 < attempts_per_name c <= 16;
  lm_budget : 0 < receive_budget c <= 256
}.
Definition network_ok (n : NetworkConfig) : Prop :=
  servers n <> [] /\ Forall sock_ok (servers n) /\ 0 <= local_address n < W32.
Record lookup_ok (c : ResolverConfig) (now : Z) (q : DnsPending) : Prop := {
  lo_original : valid_name (pq_original q);
  lo_question : valid_name (pq_question q);
  lo_aliases : 1 <= zlen (aliases q) <= 9;
  lo_attempts : 0 <= attempts q <= attempts_per_name c;
  lo_wire : 0 <= wire_id q < W16;
  lo_deadline : pq_deadline q <= now + lookup_timeout c
}.
Definition cache_ok (e : list Z * Cached) : Prop :=
  match ca_result e.2 with inr a => ca_expires e.2 <= expires_at a | inl _ => True end.

(** ** The cache *)
Lemma cache_remove_length m k v : (k, v) ∈ m -> (length (cache_remove m k) < length m)%nat.
Proof.
  induction m as [|[n c] m IH]; intros Hin; [by apply elem_of_nil in Hin|]. cbn [cache_remove].
  destruct (list_eqb n k) eqn:E; [cbn; lia|]. apply elem_of_cons in Hin as [[= -> ->]|Hin].
  - by rewrite list_eqb_refl in E.
  - specialize (IH Hin). cbn. lia.
Qed.
Lemma cache_insert_length m k v : (length (cache_insert m k v) <= S (length m))%nat.
Proof.
  induction m as [|[n c] m IH]; cbn [cache_insert]; [cbn; lia|]. destruct (str_lt k n); [cbn; lia|].
  destruct (list_eqb n k); cbn; lia.
Qed.
Lemma cache_remove_Forall (P : list Z * Cached -> Prop) m k : Forall P m -> Forall P (cache_remove m k).
Proof. induction 1 as [|[n c] m H F IH]; cbn [cache_remove]; [done|]. destruct (list_eqb n k); [done|by constructor]. Qed.
Lemma cache_insert_Forall (P : list Z * Cached -> Prop) m k v : Forall P m -> P (k, v) -> Forall P (cache_insert m k v).
Proof.
  intros F Hk. induction F as [|[n c] m H F IH]; cbn [cache_insert]; [by constructor|].
  destruct (str_lt k n); [by repeat constructor|]. destruct (list_eqb n k); by constructor.
Qed.
Lemma earliest_elem m : match earliest m with Some e => e ∈ m | None => m = [] end.
Proof.
  induction m as [|e m IH]; cbn [earliest]; [done|]. destruct (earliest m) as [e'|]; [|left].
  destruct (_ <? _); [by right|left].
Qed.
Lemma cache_get_elem m k c : cache_get m k = Some c -> (k, c) ∈ m.
Proof.
  induction m as [|[n d] m IH]; cbn [cache_get]; [done|]. destruct (list_eqb n k) eqn:E.
  - apply list_eqb_eq in E as ->. intros [= ->]. left.
  - intros H. right. auto.
Qed.

Section Inv.
Context {D : Type} `{DeviceLaws D}.
Notation R := (UdpResolver D).
Implicit Types (r : UdpResolver D) (p : UdpPool D).

(** ** Endpoints of the UDP pool *)
Definition ports p : list SocketAddrV4 := (map_to_list (services p)).*1.
Lemma ports_insert p a n : services p !! a = None -> ports (p <| services ::= <[a := n]> |>) ≡ₚ a :: ports p.
Proof. intros E. unfold ports. cbn. by rewrite map_to_list_insert. Qed.
Lemma ports_delete p p' a l :
  services p' = delete a (services p) -> ports p ≡ₚ a :: l -> ports p' ≡ₚ l.
Proof.
  intros Es P. assert (a ∈ ports p) as Hin by (rewrite P; left). unfold ports in *.
  apply list_elem_of_fmap in Hin as [[b n] [-> Hin]]. apply elem_of_map_to_list in Hin. cbn in *.
  rewrite <- (map_to_list_delete _ _ _ Hin) in P. cbn in P. rewrite Es. by apply Permutation_cons_inv in P.
Qed.

(** ** Work that is left in the pool *)
Lemma event_length ev p : (length (events (event ev p)) <= S (length (events p)))%nat.
Proof.
  unfold event. destruct (_ =? 0); [lia|]. destruct (_ =? _); cbn; rewrite length_app; cbn; [|lia].
  destruct (events p); cbn; lia.
Qed.
Lemma drop_queued_events i why p : (length (events (drop_queued i why p).2) <= S (length (events p)))%nat.
Proof.
  unfold drop_queued. destruct (remove i (tx p)) as [[q s]| | |]; cbn; try lia.
  unfold finish, on_device. set (e := mkUdpEvent _ _ _ _ _ _). set (p1 := match why with Dropped _ => _ | _ => _ end).
  pose proof (event_length e p1) as L. destruct (dev_drop _ _) as [o d]. cbn.
  assert (events p1 = events p) as Ep by (by unfold p1; destruct why). rewrite Ep in L. exact L.
Qed.
Lemma sweep_backlog test f fuel i p held :
  upool p held 0 -> (i <= length (queue (tx p)) < fuel + i)%nat ->
  (pool_backlog (sweep test (Dropped f) fuel i p).2 <= pool_backlog p)%nat.
Proof.
  revert i p. induction fuel as [|fuel IH]; intros i p U Hf; [lia|]. cbn [sweep].
  destruct (queue (tx p) !! i) as [q|] eqn:Hi; [|done]. pose proof (lookup_lt_Some _ _ _ Hi). destruct (test q).
  - pose proof (drop_queued_events i (Dropped f) p) as L.
    destruct (drop_queued_spec i q (Dropped f) p held 0 U ltac:(lia) Hi) as (p1 & E & U1 & Eq & _).
    rewrite E in *. cbn [then_ snd] in *. rewrite IH; [|exact U1|].
    + unfold pool_backlog. rewrite Eq, length_delete by eauto. lia.
    + rewrite Eq, length_delete by eauto. lia.
  - apply IH; [done|lia].
Qed.
Lemma unbind_backlog a p held : udp_inv p held -> (pool_backlog (unbind a p).2 <= pool_backlog p)%nat.
Proof.
  intros [U P]. unfold unbind. destruct (services p !! a) as [n|] eqn:En; [|done].
  pose proof (unbound_upool a n p held U En) as U1.
  fold (unbound a p). set (p1 := unbound a p) in *. unfold sweep_all.
  pose proof (sweep_backlog (fun q => bool_decide (q_source q = a)) ConfigurationChanged
    (S (length (queue (tx p1)))) 0 p1 held U1 ltac:(lia)) as L.
  destruct (sweep _ _ _ 0 p1) as [[]  p']; exact L.
Qed.

(** ** The invariant *)
Definition locals (m : list (Z * DnsPending)) : list SocketAddrV4 := omap (fun e => pq_local e.2) m.
Definition all_ids r : list Z := (dn_pending r).*1 ++ (cp_id <$> dn_results r).
(** [k] lookups are between the tables. *)
Record rcore r (k : Z) : Prop := {
  rc_limits : limits_ok (dn_config r);
  rc_network : network_ok (dn_network r);
  rc_sorted : om_sorted (dn_pending r);
  rc_lookups : Forall (fun e => lookup_ok (dn_config r) (dn_now r) e.2) (dn_pending r);
  rc_ids : Forall (fun i => 1 <= i < dn_next_id r) (all_ids r);
  rc_room : zlen (dn_pending r) + zlen (dn_results r) + k <= dn_capacity (dn_config r);
  rc_cache : zlen (dn_cache r) <= cache_capacity (dn_config r);
  rc_fresh : Forall cache_ok (dn_cache r);
  rc_next : 1 <= dn_next_id r <= U64MAX;
  rc_now : 0 <= dn_now r
}.
(** The pool with the endpoints [extra] besides those of the pending lookups. *)
Record rpool r (held : list Z) (extra : list SocketAddrV4) : Prop := {
  rp_pool : udp_inv (dn_pool r) held;
  rp_time : now_ (dn_pool r) <= dn_now r;
  rp_ports : ports (dn_pool r) ≡ₚ extra ++ locals (dn_pending r)
}.
Definition res_inv r held : Prop := rcore r 0 /\ rpool r held [].

(** What the operations on the pool leave alone. *)
Definition pool_only r r' : Prop :=
  dn_config r' = dn_config r /\ dn_network r' = dn_network r /\ dn_pending r' = dn_pending r
  /\ dn_results r' = dn_results r /\ dn_cache r' = dn_cache r /\ dn_now r' = dn_now r
  /\ dn_generation r' = dn_generation r /\ dn_next_id r' = dn_next_id r.
Lemma pool_only_refl r : pool_only r r.
Proof. done. Qed.
Lemma pool_only_trans r1 r2 r3 : pool_only r1 r2 -> pool_only r2 r3 -> pool_only r1 r3.
Proof. unfold pool_only. intuition congruence. Qed.
Lemma pool_only_core r r' k : pool_only r r' -> rcore r k -> rcore r' k.
Proof.
  intros (E1 & E2 & E3 & E4 & E5 & E6 & E7 & E8) []. constructor; unfold all_ids in *;
    rewrite ?E1, ?E2, ?E3, ?E4, ?E5, ?E6, ?E7, ?E8; done.
Qed.

Lemma close_spec q r held extra :
  rpool r held (option_list (pq_local q) ++ extra) ->
  exists r', dns_close q r = (Ok (q <| pq_local := None |> <| datagram := None |>), r')
    /\ rpool r' held extra /\ pool_only r r' /\ dn_stats r' = dn_stats r /\ dn_draws r' = dn_draws r
    /\ (pool_backlog (dn_pool r') <= pool_backlog (dn_pool r))%nat.
Proof.
  intros [I T P]. unfold dns_close, on_pool. destruct (pq_local q) as [a|] eqn:Ea; cbn [option_list app] in P.
  - pose proof (unbind_backlog a (dn_pool r) held I) as L.
    destruct (unbind_spec a (dn_pool r) held I) as (b & p' & E & I' & _ & Es & _ & En & _).
    rewrite E in *. cbn [then_ snd] in *. eexists. split; [done|]. split; [|done].
    constructor; cbn; [done|by rewrite En|]. by eapply ports_delete.
  - exists r. split; [|done]. f_equal. f_equal. destruct q. cbn in *. by subst.
Qed.

(** ** Completing a lookup *)
Definition lifetime_ok (now : Z) (ttl : option Z) (result : DnsResult) : Prop :=
  match ttl, result with Some t, inr a => t <= Z.max 0 (expires_at a - now) | _, _ => True end.
Lemma store_core name result ttl r k :
  rcore r k -> lifetime_ok (dn_now r) (Some ttl) result ->
  rcore (store name result ttl r) k /\ dn_pool (store name result ttl r) = dn_pool r
  /\ dn_pending (store name result ttl r) = dn_pending r /\ dn_results (store name result ttl r) = dn_results r
  /\ dn_config (store name result ttl r) = dn_config r /\ dn_network (store name result ttl r) = dn_network r
  /\ dn_now (store name result ttl r) = dn_now r /\ dn_generation (store name result ttl r) = dn_generation r
  /\ dn_next_id (store name result ttl r) = dn_next_id r.
Proof.
  intros C L. unfold store. destruct (_ && _) eqn:E; [|done]. apply andb_true_iff in E as [E1 E2]. bools.
  set (v := mkCached _ result).
  assert (forall m, cache_ok (m, v)) as Vo.
  { intros m. unfold cache_ok. cbn. destruct result as [|a]; [done|]. cbn in L. unfold dur_add in *. lia. }
  pose proof (rc_cache _ _ C) as Lc. pose proof (rc_fresh _ _ C) as Fc.
  assert (forall m, Forall cache_ok m -> zlen m < cache_capacity (dn_config r) ->
    rcore (r <| dn_cache := cache_insert m name v |>) k) as New.
  { intros m Fm Lm. destruct C. constructor; cbn; try done; [|by apply cache_insert_Forall].
    pose proof (cache_insert_length m name v). unfold zlen in *. lia. }
  destruct (_ <=? _) eqn:E3; bools; [|by split; [apply New; [done|lia]|]].
  pose proof (earliest_elem (dn_cache r)) as Ee. destruct (earliest (dn_cache r)) as [[old c]|].
  - split; [|done]. apply (New (cache_remove (dn_cache r) old)); [by apply cache_remove_Forall|].
    apply cache_remove_length in Ee. unfold zlen in *. lia.
  - split; [|done]. rewrite Ee in E3. change (zlen []) with 0 in E3. lia.
Qed.
Record finished (id : Z) (q : DnsPending) (result : DnsResult) r r' : Prop := {
  fi_pending : dn_pending r' = om_remove (dn_pending r) id;
  fi_results : dn_results r' = dn_results r ++ [mkCompletion id (pq_original q) (dn_generation r) false result];
  fi_config : dn_config r' = dn_config r;
  fi_network : dn_network r' = dn_network r;
  fi_now : dn_now r' = dn_now r;
  fi_generation : dn_generation r' = dn_generation r;
  fi_next : dn_next_id r' = dn_next_id r
}.
Lemma locals_app m1 m2 : locals (m1 ++ m2) = locals m1 ++ locals m2.
Proof. apply omap_app. Qed.
Lemma locals_cons i q m : locals ((i, q) :: m) = option_list (pq_local q) ++ locals m.
Proof. unfold locals. cbn. by destruct (pq_local q). Qed.
Lemma locals_remove m id q :
  om_get m id = Some q -> locals m ≡ₚ option_list (pq_local q) ++ locals (om_remove m id).
Proof.
  intros G. destruct (om_remove_split _ _ _ G) as (m1 & m2 & -> & ->). rewrite !locals_app, locals_cons. perm.
Qed.
(** Taking a lookup out of the table. *)
Lemma take_out id q r held extra k :
  rcore r k -> rpool r held extra -> om_get (dn_pending r) id = Some q ->
  rcore (r <| dn_pending ::= fun m => om_remove m id |>) (k + 1)
  /\ rpool (r <| dn_pending ::= fun m => om_remove m id |>) held (option_list (pq_local q) ++ extra)
  /\ (dn_pending r).*1 ≡ₚ id :: (om_remove (dn_pending r) id).*1
  /\ lookup_ok (dn_config r) (dn_now r) q /\ 1 <= id < dn_next_id r.
Proof.
  intros C [I T P] G. destruct (om_remove_split _ _ _ G) as (m1 & m2 & Em & Er).
  pose proof (rc_lookups _ _ C) as F. pose proof (rc_ids _ _ C) as Fi. pose proof (rc_room _ _ C) as Ro.
  assert ((dn_pending r).*1 ≡ₚ id :: (om_remove (dn_pending r) id).*1) as Pk.
  { rewrite Er, Em, !fmap_app. cbn. by rewrite <- Permutation_middle. }
  unfold all_ids in Fi. rewrite Pk in Fi. cbn in Fi. apply Forall_cons in Fi as [Hid Fi].
  refine (conj _ (conj _ (conj Pk (conj _ Hid)))).
  - destruct C. constructor; cbn; try done.
    + eapply om_sublist_sorted; [apply om_remove_sublist|done].
    + eapply sublist_Forall; [apply om_remove_sublist|done].
    + rewrite Er. rewrite Em in Ro. rewrite zlen_app, zlen_cons in Ro. rewrite zlen_app. lia.
  - constructor; [done|done|]. cbn -[locals]. rewrite P, (locals_remove _ _ _ G). perm.
  - rewrite Forall_forall in F. exact (F (id, q) (om_get_elem _ _ _ G)).
Qed.
Lemma finish_core id result r q :
  rcore r 1 -> 1 <= id < dn_next_id r ->
  rcore (r <| dn_stats ::= fun s => s <| completed ::= count 1 |> |>
           <| dn_results ::= fun l => l ++ [mkCompletion id q (dn_generation r) false result] |>) 0.
Proof.
  intros C Hid. pose proof (rc_room _ _ C) as Ro. pose proof (rc_ids _ _ C) as Fi. destruct C. constructor; cbn; try done.
  - unfold all_ids in *. cbn. rewrite fmap_app, app_assoc. apply Forall_app. split; [done|]. by constructor.
  - rewrite zlen_app, zlen_cons, zlen_nil. lia.
Qed.
Lemma dns_finish_spec id q result ttl r held :
  res_inv r held -> om_get (dn_pending r) id = Some q -> lifetime_ok (dn_now r) ttl result ->
  exists r', dns_finish id result ttl r = (Ok tt, r') /\ res_inv r' held /\ finished id q result r r'
    /\ (pool_backlog (dn_pool r') <= pool_backlog (dn_pool r))%nat.
Proof.
  intros [C P] G L. unfold dns_finish. rewrite G.
  destruct (take_out id q r held [] 0 C P G) as (C1 & P1 & Pk & Lq & Hid). rewrite app_nil_r in P1.
  set (r1 := r <| dn_pending ::= _ |>) in *.
  rewrite <- (app_nil_r (option_list _)) in P1.
  destruct (close_spec q r1 held [] P1) as (r2 & -> & P2 & O2 & _ & _ & B2). cbn [then_].
  pose proof (pool_only_core _ _ _ O2 C1) as C2. destruct O2 as (E1 & E2 & E3 & E4 & E5 & E6 & E7 & E8).
  cbn [pq_original]. set (r3 := match ttl with Some _ => _ | None => r2 end).
  assert (rcore r3 (0 + 1) /\ dn_pool r3 = dn_pool r2 /\ dn_pending r3 = dn_pending r2 /\ dn_results r3 = dn_results r2
    /\ dn_config r3 = dn_config r2 /\ dn_network r3 = dn_network r2 /\ dn_now r3 = dn_now r2
    /\ dn_generation r3 = dn_generation r2 /\ dn_next_id r3 = dn_next_id r2)
    as (C3 & F1 & F2 & F3 & F4 & F5 & F6 & F7 & F8).
  { unfold r3. destruct ttl as [t|]; [|done]. apply store_core; [done|]. by rewrite E6. }
  clearbody r3. eexists. split; [done|]. split; [split|split].
  - apply finish_core; [exact C3|]. rewrite F8, E8. exact Hid.
  - destruct P2 as [I2 T2 Q2]. constructor; cbn; rewrite ?F1, ?F6, ?F2; done.
  - constructor; cbn; [by rewrite F2, E3|by rewrite F3, F7, E4, E7|by rewrite F4, E1|by rewrite F5, E2|by rewrite F6, E6|
      by rewrite F7, E7|by rewrite F8, E8].
  - cbn. rewrite F1. exact B2.
Qed.
Lemma finished_ids id q result r r' :
  om_get (dn_pending r) id = Some q -> finished id q result r r' -> all_ids r' ≡ₚ all_ids r.
Proof.
  intros G Fi. destruct (om_remove_split _ _ _ G) as (m1 & m2 & Em & Er). unfold all_ids.
  rewrite (fi_pending _ _ _ _ _ Fi), (fi_results _ _ _ _ _ Fi), Er, Em, !fmap_app. cbn.
  change (id :: m2.*1) with ([id] ++ m2.*1). perm.
Qed.

(** ** Steps that keep the lookups *)
(** [q'] is the lookup [q] at a later stage: it ends at the same instant. *)
Definition same_lookup (q q' : DnsPending) : Prop :=
  pq_deadline q' = pq_deadline q /\ pq_original q' = pq_original q.
(** [c] is the result of a lookup that is pending in [r]; from its deadline on, an error. *)
Definition completes r (c : Completion) : Prop :=
  exists q, om_get (dn_pending r) (cp_id c) = Some q /\ cp_name c = pq_original q
    /\ (pq_deadline q <= dn_now r -> exists e, cp_result c = inl e).
Record kept r r' : Prop := {
  kp_pending id q' : om_get (dn_pending r') id = Some q' ->
    exists q, om_get (dn_pending r) id = Some q /\ same_lookup q q';
  kp_results : exists new, dn_results r' = dn_results r ++ new /\ Forall (completes r) new
}.
Lemma kept_same r r' : dn_pending r' = dn_pending r -> dn_results r' = dn_results r -> kept r r'.
Proof.
  intros E1 E2. constructor; [rewrite E1; intros id q G; by exists q|]. exists []. by rewrite app_nil_r.
Qed.
Lemma kept_trans r1 r2 r3 : dn_now r2 = dn_now r1 -> kept r1 r2 -> kept r2 r3 -> kept r1 r3.
Proof.
  intros En [K1 (n1 & E1 & F1)] [K2 (n2 & E2 & F2)]. constructor.
  - intros id q3 (q2 & (q1 & G1 & D1 & O1)%K1 & D2 & O2)%K2. exists q1. split; [done|]. split; congruence.
  - exists (n1 ++ n2). rewrite E2, E1, app_assoc. split; [done|]. apply Forall_app. split; [done|].
    eapply Forall_impl; [exact F2|]. intros c (q2 & (q1 & G1 & D1 & O1)%K1 & Ec & L).
    exists q1. split; [done|]. rewrite Ec. split; [done|]. intros Hd. apply L. lia.
Qed.
(** Every lookup stays in one of the two tables and keeps its deadline, and results are only
    appended. *)
Record rstep (held : list Z) r r' : Prop := {
  rs_inv : res_inv r' held;
  rs_config : dn_config r' = dn_config r;
  rs_network : dn_network r' = dn_network r;
  rs_now : dn_now r' = dn_now r;
  rs_generation : dn_generation r' = dn_generation r;
  rs_next : dn_next_id r' = dn_next_id r;
  rs_ids : all_ids r' ≡ₚ all_ids r;
  rs_kept : kept r r'
}.
Lemma rstep_refl held r : res_inv r held -> rstep held r r.
Proof. constructor; try done. by apply kept_same. Qed.
Lemma rstep_trans held r1 r2 r3 : rstep held r1 r2 -> rstep held r2 r3 -> rstep held r1 r3.
Proof.
  intros [] []. constructor; try congruence; [by etransitivity|by eapply kept_trans].
Qed.
(** An answer is given before the deadline, and is not kept longer than it is valid. *)
Definition timely (now : Z) (q : DnsPending) (ttl : option Z) (result : DnsResult) : Prop :=
  match result with inl _ => True | inr _ => now < pq_deadline q /\ lifetime_ok now ttl result end.
Lemma timely_lifetime now q ttl result : timely now q ttl result -> lifetime_ok now ttl result.
Proof. destruct result; [by destruct ttl|by intros []]. Qed.
Lemma finished_get id q result r r' j :
  om_sorted (dn_pending r) -> finished id q result r r' ->
  om_get (dn_pending r') j = if j =? id then None else om_get (dn_pending r) j.
Proof. intros S F. rewrite (fi_pending _ _ _ _ _ F). by apply om_get_remove. Qed.
Lemma finished_kept id q result ttl r r' :
  om_sorted (dn_pending r) -> om_get (dn_pending r) id = Some q -> timely (dn_now r) q ttl result ->
  finished id q result r r' -> kept r r'.
Proof.
  intros Sd G L F. constructor.
  - intros j q'. rewrite (finished_get _ _ _ _ _ _ Sd F). destruct (j =? id); [done|]. intros Gj. by exists q'.
  - eexists. split; [apply F|]. constructor; [|done]. exists q. split; [done|]. split; [done|]. cbn. intros Hd.
    destruct result as [e|]; [by exists e|]. destruct L. lia.
Qed.
Lemma finish_step id q result ttl r held :
  res_inv r held -> om_get (dn_pending r) id = Some q -> timely (dn_now r) q ttl result ->
  exists r', dns_finish id result ttl r = (Ok tt, r') /\ rstep held r r' /\ finished id q result r r'
    /\ (pool_backlog (dn_pool r') <= pool_backlog (dn_pool r))%nat.
Proof.
  intros I G L. destruct (dns_finish_spec id q result ttl r held I G (timely_lifetime _ _ _ _ L)) as (r' & E & I' & F & B).
  exists r'. split; [done|]. split; [|done]. pose proof (finished_ids _ _ _ _ _ G F).
  pose proof (finished_kept _ _ _ _ _ _ (rc_sorted _ _ (proj1 I)) G L F). by destruct F.
Qed.

Lemma put_in id q r held extra k :
  rcore r (k + 1) -> rpool r held (option_list (pq_local q) ++ extra) -> om_get (dn_pending r) id = None ->
  lookup_ok (dn_config r) (dn_now r) q -> 1 <= id < dn_next_id r ->
  rcore (r <| dn_pending ::= fun m => om_insert m id q |>) k
  /\ rpool (r <| dn_pending ::= fun m => om_insert m id q |>) held extra.
Proof.
  intros C [I T P] G L Hid. pose proof (om_insert_perm (dn_pending r) id q G) as Pm. split.
  - pose proof (rc_room _ _ C) as Ro. pose proof (rc_ids _ _ C) as Fi. destruct C. constructor; cbn; try done.
    + by apply om_sorted_insert.
    + by apply om_insert_Forall.
    + unfold all_ids in *. cbn. rewrite Pm. cbn. by constructor.
    + unfold zlen in *. rewrite Pm. cbn. lia.
  - constructor; [done|done|]. cbn -[locals]. unfold locals at 1. rewrite Pm. fold (locals ((id, q) :: dn_pending r)).
    rewrite locals_cons, P. perm.
Qed.
Lemma update_step id q q' r held :
  res_inv r held -> om_get (dn_pending r) id = Some q -> lookup_ok (dn_config r) (dn_now r) q' ->
  pq_local q' = pq_local q -> same_lookup q q' -> rstep held r (update id q' r).
Proof.
  intros [C [I T P]] G L El Sl. destruct (om_set_split _ _ _ G) as (m1 & m2 & Em & Es). specialize (Es q').
  assert (all_ids (update id q' r) = all_ids r) as Ei by (unfold all_ids; cbn; by rewrite om_keys_set).
  constructor; try done; [|by rewrite Ei|].
  2:{ constructor; [|exists []; by rewrite app_nil_r]. intros j q1. cbn. rewrite om_get_set, G.
      destruct (Z.eqb_spec id j) as [<-|]; [intros [= <-]; by exists q|intros Gj; by exists q1]. }
  split.
  - pose proof (rc_room _ _ C) as Ro. pose proof (rc_lookups _ _ C) as F. rewrite Em in F.
    apply Forall_app in F as [F1 [_ F2]%Forall_cons].
    destruct C. constructor; cbn; try done.
    + unfold om_sorted. by rewrite om_keys_set.
    + rewrite Es. apply Forall_app. split; [done|]. by constructor.
    + change (Forall (fun i => 1 <= i < dn_next_id r) (all_ids (update id q' r))). by rewrite Ei.
    + unfold zlen in *. rewrite <- (length_fmap fst), om_keys_set, length_fmap. done.
  - constructor; [done|done|]. cbn -[locals]. rewrite Es, P, Em, !locals_app, !locals_cons, El. done.
Qed.
Lemma update_get id q q' r j :
  om_get (dn_pending r) id = Some q ->
  om_get (dn_pending (update id q' r)) j = if id =? j then Some q' else om_get (dn_pending r) j.
Proof. intros G. cbn. by rewrite om_get_set, G. Qed.
End Inv.
