(* ===== verification/DnsStep.v ===== *)
(** * Steps of the DNS resolver

    Every part of [poll] against the invariant: transmitting a query, taking a response,
    taking the events of the UDP pool and the work on each lookup. *)
From Stdlib Require Import ZArith Lia Bool.
From stdpp Require Import base numbers option list gmap sorting relations.
From S2P Require Import Prelude BufferPool Addr UdpWire Device OrdMap UdpSched UdpPool UdpPoolInv UdpPoolProps.
From S2P Require Import DnsWire DnsResolver DnsInv.
#[local] Open Scope Z_scope.

Section Steps.
Context {D : Type} `{DeviceLaws D} (urandom : nat -> outcome Z) (Hu : entropy_ok urandom).
Implicit Types (r : UdpResolver D) (p : UdpPool D).

(** ** Transmitting a query *)
Lemma pool_swap r p' held extra :
  rpool r held extra -> udp_inv p' held -> now_ p' = now_ (dn_pool r) -> services p' = services (dn_pool r) ->
  rpool (r <| dn_pool := p' |>) held extra.
Proof. intros [I T P] I' En Es. constructor; cbn; [done|lia|]. unfold ports in *. by rewrite Es. Qed.
Lemma draw_word (k : nat) w : urandom k = Ok w -> 0 <= w < W32.
Proof. intros E. specialize (Hu k). by rewrite E in Hu. Qed.
Lemma random_sock a w : 0 <= a < W32 -> sock_ok (mkSock a (w mod 65536)).
Proof. intros Ha. pose proof (Z.mod_pos_bound w 65536 eq_refl). split; cbn; [done|unfold W16; lia]. Qed.
Lemma server_at (n : NetworkConfig) k :
  network_ok n -> 0 <= k -> exists s, get_at (servers n) (k mod zlen (servers n)) = Ok s /\ sock_ok s.
Proof.
  intros (Hn & Hs & _) Hk. assert (0 < zlen (servers n)) as Hl.
  { destruct (servers n); [done|]. rewrite zlen_cons. pose proof (zlen_nonneg l). lia. }
  pose proof (Z.mod_pos_bound k _ Hl) as Hm.
  destruct (lookup_lt_is_Some_2 (servers n) (Z.to_nat (k mod zlen (servers n)))) as [s Es]; [unfold zlen in *; lia|].
  exists s. split; [apply get_at_ok; [lia|done]|]. rewrite Forall_forall in Hs. eauto using list_elem_of_lookup_2.
Qed.
(** The time of the next attempt of a lookup. *)
Definition next_attempt (c : ResolverConfig) (now : Z) (q : DnsPending) : Z :=
  Z.min (dur_add now (dur_mul (attempt_timeout c) (Z.shiftl 1 (attempts q)))) (pq_deadline q).
Definition attempted (o : outcome unit) r r' q q' held : Prop :=
  returns o /\ rpool r' held (option_list (pq_local q')) /\ pool_only r r'
  /\ lookup_ok (dn_config r) (dn_now r) q' /\ same_lookup q q'
  /\ (o = Ok tt -> pq_next q' = next_attempt (dn_config r) (dn_now r) q).
Lemma attempt_loop_spec n q r held :
  network_ok (dn_network r) -> rpool r held [] -> pq_local q = None -> lookup_ok (dn_config r) (dn_now r) q ->
  attempts q < attempts_per_name (dn_config r) ->
  exists o r' q', attempt_loop urandom n q r = (o, (r', q')) /\ attempted o r r' q q' held.
Proof.
  intros Hn. revert r Hn. induction n as [|n IH]; intros r Hn P El L Ha; cbn [attempt_loop].
  { eexists _, r, q. split; [done|]. unfold attempted. rewrite El. do 5 (split; [done|]). done. }
  set (r1 := r <| dn_draws ::= S |>).
  assert (rpool r1 held []) as P1 by (by destruct P; constructor).
  assert (pool_only r r1) as O1 by done.
  specialize (IH r1 Hn P1 El L Ha). change (dn_network r1) with (dn_network r). change (dn_config r1) with (dn_config r).
  change (dn_now r1) with (dn_now r). pose proof (draw_word (dn_draws r)) as Hw. pose proof (Hu (dn_draws r)) as Hk.
  destruct (urandom (dn_draws r)) as [w|k| |]; try done.
  2:{ exists (Err k), r1, q. split; [done|]. unfold attempted. rewrite El. do 5 (split; [done|]). done. }
  specialize (Hw w eq_refl). destruct (_ <? 1024); [exact IH|].
  set (a := mkSock (local_address (dn_network r)) (w mod 65536)).
  pose proof (random_sock (local_address (dn_network r)) w (proj2 (proj2 Hn))) as Ha'. fold a in Ha'.
  destruct (bind_spec (mkService a 0) (dn_pool r1) held (rp_pool _ _ _ P1) Ha') as (o & p1 & Eb & Ro & I1 & Hb).
  assert (Ok tt = o \/ Err AddrInUse = o \/ exists k, o = Err k /\ k <> AddrInUse) as Co.
  { destruct o as [[]|[]| |]; eauto; destruct Ro. }
  unfold on_pool. rewrite Eb. clear Eb. destruct Co as [<-|[<-|(k & -> & Hk')]].
  3:{ subst p1. exists (Err k), r1, q. split; [by destruct k|]. unfold attempted. rewrite El. do 5 (split; [done|]). done. }
  2:{ subst p1. exact IH. }
  destruct Hb as [Fr ->]. set (p1 := dn_pool r1 <| services ::= _ |>) in *. set (r2 := r1 <| dn_pool := p1 |>).
  set (q1 := q <| pq_local := _ |> <| wire_id := _ |>).
  assert (rpool r2 held [a]) as P2.
  { destruct P1 as [? T1 Q1]. constructor; [done|done|].
    change (ports p1 ≡ₚ [a] ++ locals (dn_pending r1)). unfold p1. rewrite ports_insert by done. by rewrite Q1. }
  assert (forall s n, lookup_ok (dn_config r) (dn_now r)
    (q1 <| pq_server := s |> <| datagram := Some n |> <| attempts ::= Z.succ |> <| pq_next := next_attempt (dn_config r) (dn_now r) q |>)
    /\ lookup_ok (dn_config r) (dn_now r) (q1 <| pq_server := s |>)) as Lq.
  { intros s m. assert (0 <= w / 65536 < W16) as Hw1.
    { split; [apply Z.div_pos; lia|]. apply Z.div_lt_upper_bound; unfold W16, W32 in *; lia. }
    destruct L. split; constructor; cbn; try done; lia. }
  change (attempts q1) with (attempts q). change (dn_network r2) with (dn_network r).
  destruct (server_at (dn_network r) (attempts q) Hn ltac:(apply L)) as (s & -> & Hs).
  fold (next_attempt (dn_config r) (dn_now r) q).
  destruct (send_spec a s (query (wire_id (q1 <| pq_server := s |>)) (pq_question q)) (Some (next_attempt (dn_config r) (dn_now r) q))
    p1 held (rp_pool _ _ _ P2) Hs (query_bytes _ _ (lo_question _ _ _ L))) as (o & p2 & Es & Ro2 & I2 & M2 & _).
  change (dn_pool r2) with p1.
  match goal with |- context [send_with_options ?x1 ?x2 ?x3 ?x4 ?x5] =>
    assert (send_with_options x1 x2 x3 x4 x5 = (o, p2)) as -> by exact Es end.
  destruct M2 as (_ & Sv & _ & _ & Nw & _).
  pose proof (pool_swap r2 p2 held [a] P2 I2 Nw Sv) as P3.
  destruct o as [m|k| |]; try done.
  - eexists _, _, _. split; [done|]. split; [done|]. split; [by destruct P3; constructor|]. split; [done|].
    split; [apply (Lq s m)|]. done.
  - eexists _, _, _. split; [done|]. split; [done|]. split; [exact P3|]. split; [done|]. split; [apply (Lq s 0)|]. done.
Qed.
(** A lookup that was taken out of the table comes back. *)
Lemma put_back id q q' r r2 held :
  res_inv r held -> om_get (dn_pending r) id = Some q ->
  pool_only (r <| dn_pending ::= fun m => om_remove m id |>) r2 -> rpool r2 held (option_list (pq_local q')) ->
  lookup_ok (dn_config r) (dn_now r) q' -> same_lookup q q' ->
  let r' := r2 <| dn_pending ::= fun m => om_insert m id q' |> in
  rstep held r r' /\ forall j, om_get (dn_pending r') j = if id =? j then Some q' else om_get (dn_pending r) j.
Proof.
  intros [C P] G O P2 L Sl. destruct (take_out id q r held [] 0 C P G) as (C1 & _ & Pk & _ & Hid).
  pose proof (pool_only_core _ _ _ O C1) as C2. destruct O as (E1 & E2 & E3 & E4 & E5 & E6 & E7 & E8). cbn in *.
  pose proof (om_get_remove (dn_pending r) id) as Gr.
  assert (forall i, om_get (dn_pending r2) i = if i =? id then None else om_get (dn_pending r) i) as G2.
  { intros i. rewrite E3. apply Gr, C. }
  assert (om_get (dn_pending r2) id = None) as Gn by (by rewrite G2, Z.eqb_refl).
  rewrite <- (app_nil_r (option_list _)) in P2.
  destruct (put_in id q' r2 held [] 0 C2 P2 Gn) as [C3 P3]; [by rewrite E1, E6|by rewrite E8|].
  assert (forall j, om_get (om_insert (dn_pending r2) id q') j = if id =? j then Some q' else om_get (dn_pending r) j) as Gj.
  { intros j. rewrite om_get_insert, G2, (Z.eqb_sym j). by destruct (id =? j). }
  split; [constructor; cbn; try done|exact Gj].
  - unfold all_ids. cbn. rewrite (om_insert_perm _ _ _ Gn), E3, E4. cbn. by rewrite Pk.
  - constructor; cbn; [|exists []; by rewrite E4, app_nil_r]. intros j q1. rewrite Gj.
    destruct (Z.eqb_spec id j) as [<-|]; [intros [= <-]; by exists q|intros Gq; by exists q1].
Qed.
Lemma attempt_step id q r held :
  res_inv r held -> om_get (dn_pending r) id = Some q -> attempts q < attempts_per_name (dn_config r) ->
  exists o r' q', attempt urandom id r = (o, r') /\ returns o /\ rstep held r r'
    /\ (forall j, om_get (dn_pending r') j = if id =? j then Some q' else om_get (dn_pending r) j)
    /\ lookup_ok (dn_config r) (dn_now r) q' /\ same_lookup q q'
    /\ (o = Ok tt -> pq_next q' = next_attempt (dn_config r) (dn_now r) q).
Proof.
  intros I G Ha. pose proof I as [C P]. unfold attempt. rewrite G.
  destruct (take_out id q r held [] 0 C P G) as (_ & P1 & _ & Lq & _).
  destruct (close_spec q _ held [] P1) as (r2 & -> & P2 & O2 & _). cbn [then_].
  set (q1 := q <| pq_local := None |> <| datagram := None |>).
  pose proof O2 as (E1 & E2 & _ & _ & _ & E6 & _). cbn in E1, E2, E6.
  destruct (attempt_loop_spec 32 q1 r2 held) as (o & r3 & q2 & -> & Ro & P3 & O3 & L3 & Ed & En);
    [rewrite E2; apply C|done|done|rewrite E1, E6; by destruct Lq; constructor|by rewrite E1|].
  rewrite E1, E6 in *. pose proof (pool_only_trans _ _ _ O2 O3) as O.
  destruct o as [[]|k| |]; try done.
  - destruct (put_back id q q2 r r3 held I G O P3 L3 Ed) as [S Gj]. eexists _, _, q2. split; [done|]. done.
  - rewrite <- (app_nil_r (option_list _)) in P3. destruct (close_spec q2 r3 held [] P3) as (r4 & -> & P4 & O4 & _). cbn [then_].
    destruct (put_back id q (q2 <| pq_local := None |> <| datagram := None |>) r r4 held I G) as [S Gj];
      [by eapply pool_only_trans|done|by destruct L3; constructor|done|].
    eexists _, _, _. split; [done|]. split; [done|]. split; [done|]. split; [done|]. split; [by destruct L3; constructor|]. done.
Qed.

(** ** The work on one lookup *)
Definition waits (now : Z) (q : DnsPending) : Prop := now < pq_next q /\ now < pq_deadline q.
Lemma next_attempt_later c now q :
  limits_ok c -> 0 <= attempts q -> now < DURATION_MAX -> now < pq_deadline q -> now < next_attempt c now q.
Proof.
  intros L Ha Hn Hd. unfold next_attempt, dur_add, dur_mul. pose proof (lm_attempt _ L) as Lt.
  rewrite Z.shiftl_1_l. assert (0 < 2 ^ attempts q) by (apply Z.pow_pos_nonneg; lia).
  assert (0 < attempt_timeout c * 2 ^ attempts q) by nia. assert (0 < DURATION_MAX) by done. lia.
Qed.
(** [r'] differs from [r] in the lookup [id] only, and a lookup that is left waits. *)
Definition settled (id : Z) r r' : Prop :=
  (forall j, j <> id -> om_get (dn_pending r') j = om_get (dn_pending r) j)
  /\ (forall q, om_get (dn_pending r') id = Some q -> waits (dn_now r) q).
Lemma finish_settled id q result ttl r held :
  res_inv r held -> om_get (dn_pending r) id = Some q -> timely (dn_now r) q ttl result ->
  exists r', dns_finish id result ttl r = (Ok tt, r') /\ rstep held r r' /\ settled id r r'.
Proof.
  intros I G L. destruct (finish_step id q result ttl r held I G L) as (r' & E & S & F & _).
  exists r'. split; [done|]. split; [done|]. split.
  - intros j Hj. rewrite (finished_get _ _ _ _ _ _ (rc_sorted _ _ (proj1 I)) F). by rewrite (proj2 (Z.eqb_neq j id)).
  - intros q'. by rewrite (finished_get _ _ _ _ _ _ (rc_sorted _ _ (proj1 I)) F), Z.eqb_refl.
Qed.
Lemma work_one_step id q r held :
  res_inv r held -> om_get (dn_pending r) id = Some q -> dn_now r < DURATION_MAX ->
  exists r', work_one urandom (dn_now r) id r = (Ok tt, r') /\ rstep held r r' /\ settled id r r'.
Proof.
  intros I G Hn. unfold work_one. rewrite G. destruct (_ || _) eqn:E1; [by eapply finish_settled|].
  apply orb_false_iff in E1 as [E1 E2]. bools. destruct (pq_next q <=? _) eqn:E3; bools.
  2:{ exists r. split; [done|]. split; [by apply rstep_refl|]. split; [done|]. intros q'. rewrite G. by intros [= <-]. }
  destruct E2 as [E2|E2]; [lia|].
  destruct (attempt_step id q r held I G E2) as (o & r1 & q1 & -> & Ro & S1 & G1 & L1 & Sl & En). pose proof (proj1 Sl) as Ed.
  pose proof (G1 id) as G1'. rewrite Z.eqb_refl in G1'.
  assert (forall r2, rstep held r1 r2 /\ settled id r1 r2 -> rstep held r r2 /\ settled id r r2) as Then.
  { intros r2 [S2 [O2 W2]]. split; [by eapply rstep_trans|]. rewrite (rs_now _ _ _ S1) in W2. split; [|done].
    intros j Hj. rewrite O2, G1 by done. by rewrite (proj2 (Z.eqb_neq id j)) by lia. }
  assert (forall k, exists r', dns_finish id (inl (Local k)) None r1 = (Ok tt, r') /\ rstep held r r' /\ settled id r r') as Fail.
  { intros k. destruct (finish_settled id q1 (inl (Local k)) None r1 held (rs_inv _ _ _ S1) G1' Logic.I) as (r2 & -> & X). eauto. }
  destruct o as [[]|k| |]; try done.
  - exists r1. split; [done|]. split; [done|]. split.
    + intros j Hj. rewrite G1. by rewrite (proj2 (Z.eqb_neq id j)) by lia.
    + intros q'. rewrite G1'. intros [= <-]. split; [|lia]. rewrite En by done. apply next_attempt_later; [apply I| |done|lia].
      pose proof (rc_lookups _ _ (proj1 I)) as F. rewrite Forall_forall in F. apply (F (id, q)), om_get_elem, G.
  - assert (k = WouldBlock \/ k <> WouldBlock) as [-> |Hk] by (destruct k; auto).
    + rewrite G1'. eexists. split; [done|]. apply Then. split.
      * eapply update_step; [apply S1|exact G1'| |done..]. rewrite (rs_config _ _ _ S1), (rs_now _ _ _ S1).
        by destruct L1; constructor.
      * split; [intros j Hj; erewrite update_get by exact G1'; by rewrite (proj2 (Z.eqb_neq id j)) by lia|].
        intros q'. erewrite update_get by exact G1'. rewrite Z.eqb_refl. intros [= <-]. rewrite (rs_now _ _ _ S1).
        split; cbn; [|lia]. unfold dur_add, MILLI. lia.
    + destruct (Fail k) as (r' & E & X). exists r'. split; [|done]. destruct k; by rewrite ?E.
Qed.
Lemma work_all_step ids r held :
  res_inv r held -> dn_now r < DURATION_MAX -> NoDup ids -> (forall id, id ∈ ids -> is_Some (om_get (dn_pending r) id)) ->
  exists r', work_all urandom (dn_now r) ids r = (Ok tt, r') /\ rstep held r r'
    /\ (forall j, j ∉ ids -> om_get (dn_pending r') j = om_get (dn_pending r) j)
    /\ (forall j q, j ∈ ids -> om_get (dn_pending r') j = Some q -> waits (dn_now r) q).
Proof.
  revert r. induction ids as [|id ids IH]; intros r I Hn Nd Hs; cbn [work_all].
  { exists r. split; [done|]. split; [by apply rstep_refl|]. split; [done|]. by intros j q ?%elem_of_nil. }
  apply NoDup_cons in Nd as [Hid Nd]. destruct (Hs id) as [q G]; [left|].
  destruct (work_one_step id q r held I G Hn) as (r1 & -> & S1 & O1 & W1). cbn [then_].
  pose proof (rs_now _ _ _ S1) as En. rewrite <- En.
  destruct (IH r1) as (r2 & -> & S2 & O2 & W2); [apply S1|by rewrite En|done| |].
  { intros j Hj. rewrite O1 by congruence. apply Hs. by right. }
  exists r2. split; [done|]. split; [by eapply rstep_trans|]. split.
  - intros j [Hj1 Hj2]%not_elem_of_cons. by rewrite O2, O1.
  - intros j q' Hj Gj. destruct (decide (j ∈ ids)) as [Hin|Hout]; [eauto|].
    apply elem_of_cons in Hj as [-> |]; [|done]. rewrite O2 in Gj by done. rewrite En. eauto.
Qed.

(** ** Responses *)
(** The lookup [q] waits for a response that came as [input]. *)
Definition expects (input : Incoming) r (q : DnsPending) : Prop :=
  pq_local q = Some (in_destination input) /\ pq_server q = in_source input
  /\ read16 (in_payload input) 0 = Ok (wire_id q) /\ is_Some (datagram q) /\ waits (dn_now r) q.
Definition concluded (q : DnsPending) (a : WireAnswer) r : DnsResult :=
  match a with
  | Addresses n l ttl => inr (mkDnsAnswer n l (expiry q ttl r))
  | Alias _ _ _ => inl AliasLimit
  | Negative e _ | Failure e => inl e
  end.
(** The lookup has its result, or asks again: for the target of an alias, or after a
    failure of the server. *)
Definition answered (id : Z) (q : DnsPending) (a : WireAnswer) r r' : Prop :=
  finished id q (concluded q a r) r r'
  \/ exists q', r' = update id q' r /\ datagram q' = None /\ pq_deadline q' = pq_deadline q
       /\ match a with
          | Alias n _ _ => pq_question q' = n /\ zlen (aliases q) < zlen (aliases q') <= 9 /\ n ∉ aliases q
          | Failure _ => pq_question q' = pq_question q /\ attempts q' < attempts_per_name (dn_config r)
          | _ => False
          end.
Lemma pending_ok id q r k : rcore r k -> om_get (dn_pending r) id = Some q -> lookup_ok (dn_config r) (dn_now r) q.
Proof. intros C G. pose proof (rc_lookups _ _ C) as F. rewrite Forall_forall in F. apply (F (id, q)), om_get_elem, G. Qed.
Definition alias_budget (q : DnsPending) : Z := Z.max 0 (8 - (zlen (aliases q) - 1)).
Lemma accept_answer_step id q a b r held :
  res_inv r held -> om_get (dn_pending r) id = Some q -> dn_now r < pq_deadline q ->
  response_sound b (wire_id q) (pq_question q) (alias_budget q) a ->
  exists r', accept_answer id q a r = (Ok tt, r') /\ rstep held r r' /\ answered id q a r r'.
Proof.
  intros I G Hd (fl & at_ & _ & Ha). pose proof (pending_ok _ _ _ _ (proj1 I) G) as L. unfold accept_answer.
  assert (forall ttl, timely (dn_now r) q ttl (concluded q a r) -> exists r',
    dns_finish id (concluded q a r) ttl r = (Ok tt, r') /\ rstep held r r' /\ answered id q a r r') as Fin.
  { intros ttl Lt. destruct (finish_step id q _ ttl r held I G Lt) as (r' & -> & S & F & _). exists r'.
    split; [done|]. split; [done|]. by left. }
  assert (forall q', lookup_ok (dn_config r) (dn_now r) q' -> pq_local q' = pq_local q -> same_lookup q q' ->
    rstep held r (update id q' r)) as Upd by (intros; by eapply update_step).
  destruct a as [n l ttl|n ttl hops|e ttl|e].
  - apply (Fin (Some _)). cbn. unfold dur_sub. lia.
  - destruct (_ || _) eqn:E; [by apply (Fin None)|]. apply orb_false_iff in E as [E1 E2]. bools.
    apply bool_decide_eq_false in E1. destruct Ha as [[? [=]]|(rs & _ & k & R & -> & Hn)].
    assert (k <> 0)%nat as Hk by (intros ->; destruct R as [_ R]; inversion R; by subst).
    pose proof (chain_valid _ _ _ _ _ _ (lo_question _ _ _ L) R) as V.
    eexists. split; [done|]. split; [apply Upd; [|done..]|right; eexists; split; [done|]; split; [done|]; split; [done|]].
    + destruct L. constructor; cbn; try done; try lia. rewrite zlen_app, zlen_replicate by lia. lia.
    + cbn. split; [done|]. rewrite zlen_app, zlen_replicate by lia. split; [|done]. pose proof (lo_aliases _ _ _ L). lia.
  - apply Fin. by destruct ttl.
  - destruct (_ && _) eqn:E; [|by apply (Fin None)]. apply andb_true_iff in E as [_ E]. bools.
    eexists. split; [done|]. split; [apply Upd; [|done..]|right; eexists; split; [done|]; done].
    by destruct L; constructor.
Qed.
Lemma stats_step r held st : res_inv r held -> rstep held r (r <| dn_stats := st |>).
Proof. intros [[] []]. constructor; try done. by apply kept_same. Qed.
Lemma dns_receive_step input r held :
  res_inv r held -> bytes_ok (in_payload input) ->
  exists r', dns_receive input r = (Ok tt, r') /\ rstep held r r'
    /\ (r' = r <| dn_stats := dn_stats r' |>
        \/ exists id q a, om_get (dn_pending r) id = Some q /\ expects input r q
             /\ response_sound (in_payload input) (wire_id q) (pq_question q) (alias_budget q) a
             /\ answered id q a r r').
Proof.
  intros I B. unfold dns_receive.
  assert (forall r1, r1 = r <| dn_stats := dn_stats r1 |> -> exists r', ((Ok tt : outcome unit), r1) = (Ok tt, r')
    /\ rstep held r r' /\ (r' = r <| dn_stats := dn_stats r' |>
        \/ exists id q a, om_get (dn_pending r) id = Some q /\ expects input r q
             /\ response_sound (in_payload input) (wire_id q) (pq_question q) (alias_budget q) a
             /\ answered id q a r r')) as Skip.
  { intros r1 E. exists r1. split; [done|]. split; [rewrite E; by apply stats_step|by left]. }
  destruct (_ <? 2) eqn:E; bools; [by apply Skip|]. rewrite read16_ok by lia. set (w := de16 _ _).
  destruct (om_find _ _) as [id|] eqn:Ef; [|by apply Skip].
  apply om_find_some in Ef as (q & G & M); [|apply I]. rewrite G. unfold matches in M. bools.
  destruct (_ || _) eqn:Et; [by apply Skip|]. apply orb_false_iff in Et as [Et1 Et2]. bools. fold (alias_budget q).
  destruct M as [[[M1 M2] M3] M4]. apply bool_decide_eq_true in M1, M2, M4. subst w.
  pose proof (response_spec (in_payload input) (wire_id q) (pq_question q) (alias_budget q) B) as S.
  rewrite <- M3. unfold fails in S. destruct (response _ _ _ _) as [a|k| |]; [|by apply Skip|..];
    try (destruct S; unfold alias_budget; lia).
  specialize (S ltac:(unfold alias_budget; lia)).
  destruct (accept_answer_step id q a (in_payload input) r held I G ltac:(lia) S) as (r' & -> & St & A).
  exists r'. split; [done|]. split; [done|]. right. exists id, q, a. split; [done|]. split; [|done].
  split; [done|]. split; [done|]. split; [|done]. rewrite read16_ok by lia. by f_equal.
Qed.
Lemma receive_all_step inputs r held :
  res_inv r held -> Forall (fun i => bytes_ok (in_payload i)) inputs ->
  exists r', receive_all inputs r = (Ok tt, r') /\ rstep held r r'.
Proof.
  intros I F. revert r I. induction F as [|i l B F IH]; intros r I; cbn [receive_all].
  { exists r. split; [done|]. by apply rstep_refl. }
  destruct (dns_receive_step i r held I B) as (r1 & -> & S1 & _). cbn [then_].
  destruct (IH r1 (rs_inv _ _ _ S1)) as (r2 & -> & S2). exists r2. split; [done|]. by eapply rstep_trans.
Qed.

(** ** Events of the UDP pool *)
Lemma take_event_step ev r held :
  res_inv r held ->
  exists r', take_event (dn_now r) ev r = (Ok tt, r') /\ rstep held r r'
    /\ (pool_backlog (dn_pool r') <= pool_backlog (dn_pool r))%nat.
Proof.
  intros I. unfold take_event.
  assert (exists r', ((Ok tt : outcome unit), r) = (Ok tt, r') /\ rstep held r r'
    /\ (pool_backlog (dn_pool r') <= pool_backlog (dn_pool r))%nat) as Skip.
  { exists r. split; [done|]. split; [by apply rstep_refl|done]. }
  destruct (ue_outcome ev) as [f|f|]; try exact Skip. destruct (om_find _ _) as [id|] eqn:Ef; [|done].
  apply om_find_some in Ef as (q & G & _); [|apply I].
  assert (forall k, exists r', dns_finish id (inl (Local k)) None r = (Ok tt, r') /\ rstep held r r'
    /\ (pool_backlog (dn_pool r') <= pool_backlog (dn_pool r))%nat) as Fin.
  { intros k. destruct (finish_step id q (inl (Local k)) None r held I G Logic.I) as (r' & -> & S & _ & L). eauto. }
  assert (exists r', match om_get (dn_pending r) id with
      | Some q => (Ok tt, update id (q <| pq_next := dn_now r |>) r) | None => (Panic, r) end = (Ok tt, r')
    /\ rstep held r r' /\ (pool_backlog (dn_pool r') <= pool_backlog (dn_pool r))%nat) as Again.
  { rewrite G. eexists. split; [done|]. split; [|done]. eapply update_step; [done|exact G| |done..].
    by destruct (pending_ok _ _ _ _ (proj1 I) G); constructor. }
  destruct f; try exact Again. apply Fin.
Qed.
Lemma pop_inv p held es :
  udp_inv p held -> zlen es <= zlen (events p) -> udp_inv (p <| events := es |>) held.
Proof.
  intros [[C ? ? ?] ?] L. split; [|done]. split; [|done..]. destruct C. constructor; cbn; try done. lia.
Qed.
Lemma take_events_step fuel r held :
  res_inv r held -> (pool_backlog (dn_pool r) < fuel)%nat ->
  exists r', take_events fuel (dn_now r) r = (Ok tt, r') /\ rstep held r r' /\ events (dn_pool r') = [].
Proof.
  revert r. induction fuel as [|fuel IH]; intros r I Hf; [lia|]. cbn [take_events]. unfold pop_event.
  destruct (events (dn_pool r)) as [|ev es] eqn:Ee; cbn [head].
  { exists r. split; [done|]. split; [by apply rstep_refl|done]. }
  set (p1 := dn_pool r <| events ::= tail |>). set (r1 := r <| dn_pool := p1 |>).
  assert (events p1 = es) as E1 by (unfold p1; cbn; by rewrite Ee).
  assert (rstep held r r1) as S1.
  { destruct I as [C [Ip T P]]. constructor; try done; [|by apply kept_same]. split; [by destruct C; constructor|]. constructor; cbn; try done.
    replace p1 with (dn_pool r <| events := es |>) by (unfold p1; destruct (dn_pool r); cbn in *; by subst).
    apply pop_inv; [done|]. rewrite Ee, zlen_cons. lia. }
  change (dn_now r) with (dn_now r1).
  destruct (take_event_step ev r1 held (rs_inv _ _ _ S1)) as (r2 & -> & S2 & L2). cbn [then_].
  pose proof (rs_now _ _ _ S2) as En. rewrite <- En.
  destruct (IH r2 (rs_inv _ _ _ S2)) as (r3 & -> & S3 & E3).
  { change (dn_pool r1) with p1 in L2. unfold pool_backlog in *. rewrite E1 in L2. rewrite Ee in Hf. cbn in *. lia. }
  exists r3. split; [done|]. split; [|done]. eapply rstep_trans; [exact S1|]. by eapply rstep_trans.
Qed.

(** ** Polling *)
Lemma collect_bytes h h' :
  rtc (feeds collect) h h' -> Forall (fun i => bytes_ok (in_payload i)) h -> Forall (fun i => bytes_ok (in_payload i)) h'.
Proof.
  induction 1 as [|h h1 h2 [d [Hd ->]] _ IH]; [done|]. intros F. apply IH. cbn. destruct (_ <=? 512); [|done].
  apply Forall_app. split; [done|]. constructor; [|done]. apply Hd.
Qed.
Lemma expire_cache now r held :
  res_inv r held -> dn_now r <= now ->
  res_inv (r <| dn_now := now |> <| dn_cache ::= List.filter (fun e => now <? ca_expires e.2) |>) held.
Proof.
  intros [C [I T P]] Hn. split; [|constructor; cbn; [done|lia|done]].
  pose proof (rc_cache _ _ C) as Lc. pose proof (rc_lookups _ _ C) as Fl. pose proof (rc_fresh _ _ C) as Fc.
  destruct C. constructor; cbn; try done; try lia.
  - eapply Forall_impl; [exact Fl|]. intros e []. constructor; try done. lia.
  - pose proof (filter_length_le (fun e : list Z * Cached => now <? ca_expires e.2) (dn_cache r)). unfold zlen in *. lia.
  - rewrite Forall_forall in *. intros e He. apply Fc. apply list_elem_of_In in He.
    apply filter_In in He as [He _]. by apply list_elem_of_In.
Qed.
Lemma pool_step r held p :
  res_inv r held -> udp_inv p held -> now_ p <= dn_now r -> services p = services (dn_pool r) ->
  rstep held r (r <| dn_pool := p |>).
Proof.
  intros [C [I T P]] Ip Hn Es. constructor; try done; [|by apply kept_same]. split; [by destruct C; constructor|]. constructor; cbn; try done.
  unfold ports in *. by rewrite Es.
Qed.
(** What [poll] at [now] does when the clock does not go back. *)
Lemma dns_poll_step now r held :
  res_inv r held -> dn_now r <= now -> now < DURATION_MAX ->
  exists o r', dns_poll urandom now r = (o, r') /\ returns o /\ rstep held (r <| dn_now := now |>) r'
    /\ (o = Ok tt -> Forall (fun e => waits now e.2) (dn_pending r')).
Proof.
  intros I Hn Hm. unfold dns_poll. rewrite (proj2 (Z.ltb_ge _ _)) by lia.
  set (r1 := r <| dn_now := now |> <| dn_cache ::= _ |>). pose proof (expire_cache now r held I Hn) as I1. fold r1 in I1.
  assert (forall r', rstep held r1 r' -> rstep held (r <| dn_now := now |>) r') as Up.
  { intros r' S. eapply rstep_trans; [|exact S]. constructor; try done. by apply kept_same. }
  destruct (udp_poll_spec collect now 0 (receive_budget (dn_config r1)) (dn_pool r1) [] held) as
    (o & p & inc & -> & Ro & Ip & _ & En & Es & Fd); [apply I1|apply Z.lt_le_incl, (lm_budget _ (rc_limits _ _ (proj1 I1)))|].
  assert (now_ p <= now) as Np.
  { rewrite En. apply Z.max_lub; [exact (rp_time _ _ _ (proj2 I1))|done]. }
  pose proof (pool_step r1 held p I1 Ip Np Es) as S2. set (r2 := r1 <| dn_pool := p |>) in *.
  destruct o as [n|k| |]; try done; cbn [then_].
  2:{ exists (Err k), r2. split; [done|]. split; [done|]. split; [by apply Up|done]. }
  destruct (receive_all_step inc r2 held (rs_inv _ _ _ S2)) as (r3 & -> & S3).
  { eapply collect_bytes; [exact Fd|constructor]. }
  cbn [then_]. pose proof (rstep_trans _ _ _ _ S2 S3) as T3. pose proof (rs_now _ _ _ T3) as N3.
  change (dn_now r1) with now in N3.
  destruct (take_events_step (S (pool_backlog (dn_pool r3))) r3 held (rs_inv _ _ _ T3) (Nat.lt_succ_diag_r _)) as (r4 & E4 & S4 & _).
  rewrite N3 in E4. rewrite E4. clear E4. cbn [then_]. pose proof (rstep_trans _ _ _ _ T3 S4) as T4.
  pose proof (rs_now _ _ _ T4) as N4. change (dn_now r1) with now in N4.
  pose proof (rs_inv _ _ _ T4) as I4.
  destruct (work_all_step (dn_pending r4).*1 r4 held I4) as (r5 & E5 & S5 & Out & W5); [by rewrite N4|apply om_sorted_nodup, I4| |].
  { intros j Hj. destruct (om_get (dn_pending r4) j) eqn:G; [eauto|]. by apply om_get_none in G. }
  rewrite N4 in E5, W5. rewrite E5. clear E5. cbn [then_]. pose proof (rstep_trans _ _ _ _ T4 S5) as T5.
  pose proof (rs_now _ _ _ T5) as N5. change (dn_now r1) with now in N5. pose proof (rs_inv _ _ _ T5) as I5.
  assert (Forall (fun e => waits now e.2) (dn_pending r5)) as W.
  { apply Forall_forall. intros [j q] Hj. apply om_elem_get in Hj; [|apply I5]. cbn.
    destruct (decide (j ∈ (dn_pending r4).*1)) as [Hin|Hout]; [eauto|]. rewrite Out in Hj by done.
    by rewrite om_get_keys in Hj. }
  unfold on_pool. destruct (flush_spec (dn_pool r5) held (rp_pool _ _ _ (proj2 I5))) as (o & p6 & -> & Ro6 & I6 & M6 & _).
  destruct M6 as (_ & Es6 & _ & _ & En6 & _).
  assert (rstep held r5 (r5 <| dn_pool := p6 |>)) as S6.
  { apply pool_step; [done|done| |done]. rewrite En6. apply I5. }
  pose proof (Up _ (rstep_trans _ _ _ _ T5 S6)) as T6.
  destruct o as [n6|k| |]; try done; cbn [then_]; by eexists _, _.
Qed.
End Steps.
