(* ===== verification/DnsProps.v ===== *)
(** * Sessions of the DNS resolver: properties

    The calls of the [Resolver] interface against the invariant, sequences of them, and the
    properties of the resolver. *)
From Stdlib Require Import ZArith Lia Bool.
From stdpp Require Import base numbers option list gmap sorting relations.
From S2P Require Import Prelude BufferPool Addr UdpWire Device Loopback OrdMap UdpSched UdpPool UdpPoolInv UdpPoolProps.
From S2P Require Import DnsWire DnsResolver DnsInv DnsStep.
#[local] Open Scope Z_scope.

(** The arguments are values of their Rust types. *)
Record resolver_typed (c : ResolverConfig) : Prop := {
  ty_capacity : 0 <= dn_capacity c;
  ty_cache : 0 <= cache_capacity c;
  ty_ttl : 0 <= max_cache_ttl c;
  ty_lookup : 0 <= lookup_timeout c;
  ty_attempt : 0 <= attempt_timeout c <= DURATION_MAX;
  ty_attempts : 0 <= attempts_per_name c;
  ty_budget : 0 <= receive_budget c
}.
Definition network_typed (n : NetworkConfig) : Prop := Forall sock_ok (servers n) /\ 0 <= local_address n < W32.
Lemma limits_valid_ok c : resolver_typed c -> limits_valid c = true -> limits_ok c.
Proof.
  intros []. unfold limits_valid. rewrite negb_true_iff, !orb_false_iff. intros V.
  destruct V as [[[[[[[[? ?] ?] ?] ?] ?] ?] ?] ?]. bools. constructor; lia.
Qed.
Lemma network_valid n : network_validate n = Ok tt \/ network_validate n = Err InvalidInput.
Proof. unfold network_validate. destruct (_ || _); auto. Qed.
Lemma network_validate_ok n : network_typed n -> network_validate n = Ok tt -> network_ok n.
Proof.
  intros [Hs Hl]. unfold network_validate. destruct (_ || _) eqn:E; [done|]. intros _.
  apply orb_false_iff in E as [[[_ E]%orb_false_iff _]%orb_false_iff _]. by apply bool_decide_eq_false in E.
Qed.
Lemma resolver_pool_ok c : limits_ok c -> udp_config_ok (resolver_pool_config c).
Proof.
  intros []. constructor; cbn; try done; try (unfold W64; lia).
  - unfold validate, resolver_pool_config. cbn.
    rewrite !(proj2 (Z.eqb_neq (dn_capacity c) 0)) by lia. cbn.
    rewrite !bool_decide_eq_false_2; [done| |done..]. intros [= E]. lia.
  - intros l [= <-]. lia.
Qed.

Section Props.
Context {D : Type} `{DeviceLaws D} (urandom : nat -> outcome Z) (Hu : entropy_ok urandom).
Implicit Types (r : UdpResolver D) (p : UdpPool D).

Lemma resolver_new_ok (d : D) network config opened r :
  resolver_new d network config opened = Ok r ->
  network_validate network = Ok tt /\ limits_valid config = true
  /\ exists p, with_config d (resolver_pool_config config) = Ok p
     /\ r = mkUdpResolver p config network 0%nat [] [] [] 0 0 1 (mkResolverStats 0 0 0 0 0).
Proof.
  unfold resolver_new, obind. destruct (network_validate network) as [[]| | |]; try done.
  destruct (limits_valid config); [|done]. destruct opened; try done.
  destruct (with_config _ _) as [p| | |]; try done. intros [= <-]. eauto 10.
Qed.
Lemma with_config_empty (d : D) cfg p : with_config d cfg = Ok p -> services p = ∅ /\ now_ p = 0.
Proof. unfold with_config, obind. destruct (validate cfg); try done. by intros [= <-]. Qed.
Lemma resolver_new_inv (d : D) network config opened r held :
  dev_inv d held -> network_typed network -> resolver_typed config ->
  resolver_new d network config opened = Ok r -> res_inv r held /\ all_ids r = [] /\ dn_next_id r = 1.
Proof.
  intros Id Tn Tc E. apply resolver_new_ok in E as (E & El & p & Ep & ->). pose proof (limits_valid_ok _ Tc El) as L.
  pose proof (resolver_pool_ok _ L) as Pc. destruct (with_config_empty _ _ _ Ep) as [Es En].
  pose proof (with_config_inv d _ p held Id Pc Ep) as I. split; [|done].
  pose proof (lm_capacity _ L). pose proof (lm_cache _ L). split.
  - constructor; cbn [dn_config dn_pending dn_results dn_cache dn_next_id dn_now dn_network].
    + done.
    + by apply network_validate_ok.
    + apply SSorted_nil.
    + constructor.
    + constructor.
    + change (zlen []) with 0. lia.
    + change (zlen []) with 0. lia.
    + constructor.
    + unfold U64MAX, W64. lia.
    + lia.
  - constructor; [exact I|cbn; lia|]. unfold ports. cbn [dn_pool]. by rewrite Es, map_to_list_empty.
Qed.

(** ** The calls *)
(** [fresh] new lookups were accepted. *)
Definition grows (held : list Z) (new : list Z) r r' : Prop :=
  res_inv r' held /\ dn_config r' = dn_config r
  /\ new ++ all_ids r ≡ₚ all_ids r' /\ dn_next_id r' = dn_next_id r + zlen new
  /\ (new = [] \/ new = [dn_next_id r]).
Lemma rstep_grows held r r' : rstep held r r' -> grows held [] r r'.
Proof. intros []. split; [done|]. split; [done|]. split; [done|]. rewrite zlen_nil. split; [lia|by left]. Qed.
Lemma next_id_core r k :
  rcore r k -> dn_next_id r < U64MAX -> rcore (r <| dn_next_id ::= Z.succ |>) k.
Proof.
  intros C Hn. pose proof (rc_ids _ _ C) as Fi. destruct C. constructor; cbn; try done; try lia.
  eapply Forall_impl; [exact Fi|]. cbn. lia.
Qed.
Definition asked_for name r : DnsPending :=
  mkDnsPending name name [name] None (dur_add (dn_now r) (lookup_timeout (dn_config r))) (dn_now r) 0 None
    (hd (mkSock 0 0) (servers (dn_network r))) 0 None.
Lemma new_lookup_step name r held :
  rcore (r <| dn_next_id ::= Z.succ |>) 1 -> rpool r held [] -> valid_name name ->
  Forall (fun i => i < dn_next_id r) (dn_pending r).*1 -> 1 <= dn_next_id r ->
  exists r', new_lookup (dn_next_id r) name (r <| dn_next_id ::= Z.succ |>) = (Ok (inr (dn_next_id r)), r')
    /\ dn_now r' = dn_now r /\ grows held [dn_next_id r] r r' /\ dn_results r' = dn_results r
    /\ dn_pending r' = dn_pending r ++ [(dn_next_id r, asked_for name r)].
Proof.
  intros C [I T P] V Fp Nx. set (r1 := r <| dn_next_id ::= Z.succ |>) in *.
  unfold new_lookup. change (servers (dn_network r1)) with (servers (dn_network r)).
  pose proof (rc_network _ _ C) as (Hne & _). pose proof (rc_limits _ _ C) as Lm.
  change (dn_network r1) with (dn_network r) in Hne. change (dn_config r1) with (dn_config r) in Lm.
  destruct (servers (dn_network r)) as [|s ss] eqn:Es; [done|]. eexists. split; [done|]. split; [done|].
  set (q := mkDnsPending _ _ _ _ _ _ _ _ _ _ _).
  assert (q = asked_for name r) as Eq by (unfold asked_for; by rewrite Es).
  destruct (put_in (dn_next_id r) q r1 held [] 0) as [C2 P2]; [exact C|by constructor| | |cbn; lia|].
  - cbn. apply om_get_keys. intros Hin. rewrite Forall_forall in Fp. specialize (Fp _ Hin). lia.
  - pose proof (lm_attempts _ Lm). pose proof (lm_lookup _ Lm).
    constructor; cbn; try done; unfold dur_add, W16, zlen; cbn [length]; lia.
  - pose proof (om_insert_last (dn_pending r) (dn_next_id r) q Fp) as El. rewrite <- Eq.
    split; [|split; [done|by cbn; rewrite El]]. split; [by split|]. split; [done|]. split; [|split; [done|by right]].
    unfold all_ids. cbn. rewrite El, fmap_app. cbn. change (dn_next_id r :: ?x) with ([dn_next_id r] ++ x). perm.
Qed.
(** What [resolve] may do. *)
Definition resolves (input : list Z) held (x : ResolveError + Z) r r' : Prop :=
  match x with
  | inl e => r' = r /\ (normalize input = inl e \/ e = Busy)
  | inr id => id = dn_next_id r /\ grows held [id] r r' /\ exists name, normalize input = inr name
      /\ ((exists c, cache_get (dn_cache r) name = Some c /\ dn_now r < ca_expires c /\ dn_pending r' = dn_pending r
             /\ dn_results r' = dn_results r ++ [mkCompletion id name (dn_generation r) true (ca_result c)])
          \/ (dn_results r' = dn_results r /\ dn_pending r' = dn_pending r ++ [(id, asked_for name r)]))
  end.
Lemma dns_resolve_step input r held :
  res_inv r held -> exists x r', dns_resolve input r = (Ok x, r') /\ dn_now r' = dn_now r /\ resolves input held x r r'.
Proof.
  intros [C P]. unfold dns_resolve, resolves. destruct (normalize input) as [e|name] eqn:En.
  { exists (inl e), r. split; [done|]. split; [done|]. split; [done|]. by left. }
  destruct (_ <=? _) eqn:E1; [by exists (inl Busy), r; auto 10|].
  destruct (_ <? _ + 1) eqn:E2; [by exists (inl Busy), r; auto 10|]. bools.
  pose proof (next_id_core r 0 C ltac:(lia)) as C1. pose proof (rc_ids _ _ C) as Fi. pose proof (rc_next _ _ C) as Nx.
  destruct (new_lookup_step name r held) as (r2 & E2' & N2 & G2 & R2 & P2); [|done|by eapply normalize_valid| |lia|].
  { destruct C1; constructor; try done; cbn; lia. }
  { apply Forall_app in Fi as [Fi _]. eapply Forall_impl; [exact Fi|]. cbn. lia. }
  set (r1 := r <| dn_next_id ::= Z.succ |>) in *. change (dn_cache r1) with (dn_cache r). change (dn_now r1) with (dn_now r).
  destruct (cache_get (dn_cache r) name) as [c|] eqn:Ec.
  2:{ rewrite E2'. exists (inr (dn_next_id r)), r2. eauto 10. }
  destruct (_ <? _) eqn:E3; bools.
  2:{ rewrite E2'. exists (inr (dn_next_id r)), r2. eauto 10. }
  eexists (inr (dn_next_id r)), _. split; [done|]. split; [done|]. split; [done|]. split; [|by eauto 10].
  split; [|split; [done|split; [|split; [done|by right]]]].
  - split; [|by destruct P; constructor]. pose proof (rc_ids _ _ C1) as Fi1. destruct C1. constructor; cbn; try done.
    + unfold all_ids in *. cbn. rewrite fmap_app, app_assoc. apply Forall_app. split; [done|]. constructor; [cbn; lia|done].
    + rewrite zlen_app, zlen_cons, zlen_nil. lia.
  - unfold all_ids. cbn. rewrite fmap_app. cbn. change (dn_next_id r :: ?x) with ([dn_next_id r] ++ x). perm.
Qed.

(** Completions of the lookups [ids] with one error. *)
Definition failed error r r' (ids : list Z) : Prop :=
  exists cs, dn_results r' = dn_results r ++ cs /\ cp_id <$> cs = ids
    /\ Forall (fun c => cp_result c = inl error /\ cp_generation c = dn_generation r /\ from_cache c = false) cs.
Lemma finish_all_step ids error r held :
  res_inv r held -> NoDup ids -> (forall id, id ∈ ids -> is_Some (om_get (dn_pending r) id)) ->
  exists r', finish_all ids error r = (Ok tt, r') /\ rstep held r r' /\ failed error r r' ids
    /\ forall j, om_get (dn_pending r') j = if bool_decide (j ∈ ids) then None else om_get (dn_pending r) j.
Proof.
  revert r. induction ids as [|id ids IH]; intros r I Nd Hs; cbn [finish_all].
  { exists r. split; [done|]. split; [by apply rstep_refl|]. split; [exists []; by rewrite app_nil_r|]. done. }
  apply NoDup_cons in Nd as [Hid Nd]. destruct (Hs id) as [q G]; [left|].
  destruct (finish_step id q (inl error) None r held I G Logic.I) as (r1 & -> & S1 & F1 & _). cbn [then_].
  pose proof (fun j => finished_get id q (inl error) r r1 j (rc_sorted _ _ (proj1 I)) F1) as G1.
  destruct (IH r1 (rs_inv _ _ _ S1) Nd) as (r2 & -> & S2 & (cs & Ecs & Ei & Fc) & G2).
  { intros j Hj. rewrite G1. assert (j <> id) by congruence. rewrite (proj2 (Z.eqb_neq j id)) by done. apply Hs. by right. }
  exists r2. split; [done|]. split; [by eapply rstep_trans|]. split.
  - exists (mkCompletion id (pq_original q) (dn_generation r) false (inl error) :: cs).
    rewrite Ecs, (fi_results _ _ _ _ _ F1), <- app_assoc. split; [done|]. split; [by rewrite fmap_cons, Ei|].
    constructor; [done|]. by rewrite <- (fi_generation _ _ _ _ _ F1).
  - intros j. rewrite G2, G1. destruct (Z.eqb_spec j id) as [-> |Hj].
    + rewrite (bool_decide_eq_true_2 (id ∈ id :: ids)) by left. by destruct (bool_decide _).
    + rewrite (bool_decide_ext (j ∈ id :: ids) (j ∈ ids)); [done|]. rewrite elem_of_cons. intuition congruence.
Qed.
Lemma om_get_all_none {V} (m : list (Z * V)) : (forall j, om_get m j = None) -> m = [].
Proof. destruct m as [|[i v] m]; [done|]. intros N. specialize (N i). cbn in N. by rewrite Z.eqb_refl in N. Qed.
Lemma dns_invalidate_step r held :
  res_inv r held ->
  exists r', dns_invalidate r = (Ok tt, r') /\ grows held [] r r' /\ failed NetworkChanged r r' (dn_pending r).*1
    /\ dn_pending r' = [] /\ dn_cache r' = [] /\ dn_generation r' = count 1 (dn_generation r)
    /\ dn_network r' = dn_network r.
Proof.
  intros I. unfold dns_invalidate.
  destruct (finish_all_step (dn_pending r).*1 NetworkChanged r held I) as (r1 & -> & S1 & F1 & G1).
  { apply om_sorted_nodup, I. }
  { intros j Hj. destruct (om_get (dn_pending r) j) eqn:G; [eauto|]. by apply om_get_none in G. }
  cbn [then_]. assert (dn_pending r1 = []) as E1.
  { apply om_get_all_none. intros j. rewrite G1. case_bool_decide as Hj; [done|]. by apply om_get_keys. }
  destruct (rstep_grows _ _ _ S1) as (I1 & Ec & Ei & En & Hn). eexists. split; [done|].
  split; [|split; [done|]; split; [done|]; split; [done|]].
  - split; [|done]. destruct I1 as [C1 P1]. split; [|by destruct P1; constructor].
    pose proof (lm_cache _ (rc_limits _ _ C1)). destruct C1. constructor; cbn; try done; change (zlen []) with 0; lia.
  - cbn. by rewrite (rs_generation _ _ _ S1), (rs_network _ _ _ S1).
Qed.
Lemma dns_configure_step network r held :
  res_inv r held -> network_typed network ->
  exists o r', dns_configure network r = (o, r') /\ returns o /\ grows held [] r r'
    /\ match o with
       | Ok _ => dn_network r' = network
           /\ (r' = r \/ failed NetworkChanged r r' (dn_pending r).*1 /\ dn_pending r' = [] /\ dn_cache r' = []
                         /\ dn_generation r' = count 1 (dn_generation r))
       | _ => r' = r
       end.
Proof.
  intros I Tn. unfold dns_configure. pose proof (rstep_grows _ _ _ (rstep_refl _ _ I)) as Gr.
  destruct (network_valid network) as [E|E]; rewrite E; [|by exists (Err InvalidInput), r].
  case_bool_decide as Eq.
  { exists (Ok tt), r. split; [done|]. split; [done|]. split; [done|]. split; [done|]. by left. }
  destruct (dns_invalidate_step r held I) as (r1 & -> & (I1 & Ec & Ei & En & Hn) & F1 & P1 & C1 & G1 & _). cbn [then_].
  eexists (Ok tt), _. split; [done|]. split; [done|]. split; [split; [|done]|split; [done|by right]].
  destruct I1 as [K1 Q1]. split; [|by destruct Q1; constructor]. destruct K1. constructor; cbn; try done.
  by apply network_validate_ok.
Qed.

(** ** Sessions *)
Inductive dns_call : Type :=
| AskName (input : list Z) | PollAt (now : Z) | PopResult | CancelLookup (id : Z) | Invalidate
| Reconfigure (network : NetworkConfig).
Definition dns_call_ok (c : dns_call) : Prop :=
  match c with
  | PollAt now => 0 <= now < DURATION_MAX
  | Reconfigure network => network_typed network
  | _ => True
  end.
(** A call on the resolver and the completions popped so far. *)
Definition dns_run (c : dns_call) r (out : list Completion) : outcome unit * (UdpResolver D * list Completion) :=
  let keep x := let '(o, s) := x in (o, (s, out)) in
  match c with
  | AskName input => keep (forget (dns_resolve input r))
  | PollAt now => keep (dns_poll urandom now r)
  | PopResult => let '(c, r) := dns_pop_result r in (Ok tt, (r, out ++ option_list c))
  | CancelLookup id => keep (forget (dns_cancel id r))
  | Invalidate => keep (dns_invalidate r)
  | Reconfigure network => keep (dns_configure network r)
  end.
Fixpoint dns_runs (cs : list dns_call) r (out : list Completion) : list (outcome unit) * (UdpResolver D * list Completion) :=
  match cs with
  | [] => ([], (r, out))
  | c :: cs => let '(o, (r, out)) := dns_run c r out in
               let '(os, s) := dns_runs cs r out in (o :: os, s)
  end.
(** Every accepted lookup is in exactly one place. *)
Definition once r (out : list Completion) : Prop := (cp_id <$> out) ++ all_ids r ≡ₚ seqZ 1 (dn_next_id r - 1).
Lemma grows_once held new r r' out : grows held new r r' -> 1 <= dn_next_id r -> once r out -> once r' out.
Proof.
  intros (_ & _ & Pn & En & Hn) Nx O. unfold once in *. rewrite <- Pn, En. destruct Hn as [-> | ->].
  - change (zlen []) with 0. rewrite Z.add_0_r. exact O.
  - change (zlen [dn_next_id r]) with 1. replace (dn_next_id r + 1 - 1) with (dn_next_id r - 1 + 1) by lia.
    rewrite seqZ_app, <- O by lia. replace (1 + (dn_next_id r - 1)) with (dn_next_id r) by lia.
    assert (seqZ (dn_next_id r) 1 = [dn_next_id r]) as -> by (unfold seqZ; cbn; f_equal; lia). perm.
Qed.
Lemma dns_cancel_step id r held :
  res_inv r held -> exists r', dns_cancel id r = (Ok (bool_decide (is_Some (om_get (dn_pending r) id))), r')
    /\ rstep held r r' /\ om_get (dn_pending r') id = None.
Proof.
  intros I. unfold dns_cancel. destruct (om_get (dn_pending r) id) as [q|] eqn:G.
  - destruct (finish_step id q (inl Cancelled) None r held I G Logic.I) as (r' & -> & S & F & _). cbn [then_].
    exists r'. rewrite bool_decide_eq_true_2 by eauto. split; [done|]. split; [done|].
    by rewrite (finished_get _ _ _ _ _ _ (rc_sorted _ _ (proj1 I)) F), Z.eqb_refl.
  - exists r. rewrite bool_decide_eq_false_2 by (by intros [? [=]]). split; [done|]. split; [by apply rstep_refl|done].
Qed.
Lemma pop_result_step r held out :
  res_inv r held -> once r out ->
  res_inv (dns_pop_result r).2 held /\ once (dns_pop_result r).2 (out ++ option_list (dns_pop_result r).1).
Proof.
  intros [C P] O. unfold dns_pop_result. cbn [fst snd]. destruct (dn_results r) as [|c cs] eqn:E.
  { cbn [head option_list]. rewrite app_nil_r. replace (r <| dn_results ::= tail |>) with r by (clear -E; destruct r; cbn in *; by rewrite E). by split. }
  split.
  - split; [|by destruct P; constructor]. pose proof (rc_ids _ _ C) as Fi. pose proof (rc_room _ _ C) as Ro.
    unfold all_ids in Fi. rewrite E in Fi, Ro. apply Forall_app in Fi as [F1 [_ F2]%Forall_cons].
    destruct C. constructor; cbn; try done; rewrite ?E; cbn [tail].
    + unfold all_ids. cbn. rewrite ?E. by apply Forall_app.
    + rewrite zlen_cons in Ro. lia.
  - unfold once, all_ids in *. cbn. rewrite E in *. cbn in *. rewrite <- O, fmap_app. cbn.
    change (cp_id c :: ?x) with ([cp_id c] ++ x). perm.
Qed.
Lemma dns_run_step c r out held :
  res_inv r held -> once r out -> dns_call_ok c ->
  exists o r' out', dns_run c r out = (o, (r', out')) /\ returns o /\ res_inv r' held /\ once r' out'
    /\ dn_config r' = dn_config r /\ out `prefix_of` out'.
Proof.
  intros I O Hc. pose proof (rc_next _ _ (proj1 I)) as [Nx _].
  assert (forall o new r', returns (o : outcome unit) -> grows held new r r' -> exists o' r'' out',
    (o, (r', out)) = (o', (r'', out')) /\ returns o' /\ res_inv r'' held /\ once r'' out'
    /\ dn_config r'' = dn_config r /\ out `prefix_of` out') as Grow.
  { intros o new r' Ro G. exists o, r', out. split; [done|]. split; [done|]. pose proof G as (I' & Ec & _).
    split; [done|]. split; [by eapply grows_once|]. done. }
  destruct c as [input|now| |id| |network]; cbn [dns_run dns_call_ok] in *.
  - destruct (dns_resolve_step input r held I) as (x & r' & -> & _ & X). unfold forget. cbn [then_]. destruct x as [e|id].
    + destruct X as [-> _]. by eapply Grow, rstep_grows, rstep_refl.
    + destruct X as (_ & G & _). by eapply Grow.
  - destruct (Z.le_gt_cases (dn_now r) now) as [Hn|Hn].
    + destruct (dns_poll_step urandom Hu now r held I Hn (proj2 Hc)) as (o & r' & -> & Ro & S & _).
      eapply Grow; [done|]. apply rstep_grows in S. exact S.
    + unfold dns_poll. rewrite (proj2 (Z.ltb_lt _ _)) by lia. by eapply Grow, rstep_grows, rstep_refl.
  - destruct (pop_result_step r held out I O) as [I' O']. unfold dns_pop_result in *. cbn [fst snd] in *.
    eexists _, _, _. split; [done|]. split; [done|]. split; [exact I'|]. split; [exact O'|]. split; [done|]. by eexists.
  - destruct (dns_cancel_step id r held I) as (r' & -> & S & _). unfold forget. cbn [then_]. by eapply Grow, rstep_grows.
  - destruct (dns_invalidate_step r held I) as (r' & -> & G & _). by eapply Grow.
  - destruct (dns_configure_step network r held I Hc) as (o & r' & -> & Ro & G & _). by eapply Grow.
Qed.
Lemma dns_runs_step cs r out held :
  res_inv r held -> once r out -> Forall dns_call_ok cs ->
  exists os r' out', dns_runs cs r out = (os, (r', out')) /\ Forall returns os /\ res_inv r' held /\ once r' out'
    /\ dn_config r' = dn_config r /\ out `prefix_of` out'.
Proof.
  revert r out. induction cs as [|c cs IH]; intros r out I O F; cbn [dns_runs]; [by exists [], r, out|].
  apply Forall_cons in F as [Hc F]. destruct (dns_run_step c r out held I O Hc) as (o & r1 & o1 & -> & Ro & I1 & O1 & E1 & P1).
  destruct (IH r1 o1 I1 O1 F) as (os & r2 & o2 & -> & Rs & I2 & O2 & E2 & P2). exists (o :: os), r2, o2.
  split; [done|]. split; [by constructor|]. do 2 (split; [done|]). split; [congruence|by etransitivity].
Qed.

(** C16. Sessions of the resolver.  Over any device that keeps the device laws and any entropy
    source, every sequence of calls returns from every call; lookups and results together stay
    within the capacity and the cache within its own; the bound UDP endpoints are exactly those
    of the pending lookups; and every identifier handed out is popped, waiting as a result or
    pending, exactly once. *)
Theorem dns_sessions (d : D) network config opened r0 held cs :
  dev_inv d held -> network_typed network -> resolver_typed config ->
  resolver_new d network config opened = Ok r0 -> Forall dns_call_ok cs ->
  let '(os, (r, out)) := dns_runs cs r0 [] in
  Forall returns os
  /\ (cp_id <$> out) ++ (cp_id <$> dn_results r) ++ (dn_pending r).*1 ≡ₚ seqZ 1 (dn_next_id r - 1)
  /\ zlen (dn_pending r) + zlen (dn_results r) <= dn_capacity config
  /\ zlen (dn_cache r) <= cache_capacity config
  /\ (map_to_list (services (dn_pool r))).*1 ≡ₚ omap (fun e => pq_local e.2) (dn_pending r)
  /\ Forall (fun e => attempts e.2 <= attempts_per_name config /\ zlen (aliases e.2) <= 9) (dn_pending r)
  /\ udp_inv (dn_pool r) held.
Proof.
  intros Id Tn Tc E F. destruct (resolver_new_inv d network config opened r0 held Id Tn Tc E) as (I0 & A0 & N0).
  assert (once r0 []) as O0 by (unfold once; by rewrite A0, N0).
  destruct (dns_runs_step cs r0 [] held I0 O0 F) as (os & r & out & -> & Rs & [C P] & O & Ec & _).
  assert (dn_config r0 = config) as E0 by (apply resolver_new_ok in E as (_ & _ & p & _ & ->); done).
  rewrite E0 in Ec. rewrite <- Ec. split; [done|]. split; [|split; [|split; [apply C|split; [apply P|split; [|apply P]]]]].
  - unfold once, all_ids in O. rewrite <- O. perm.
  - pose proof (rc_room _ _ C). lia.
  - eapply Forall_impl; [apply C|]. intros e []. lia.
Qed.

(** C17. Responses.  A datagram changes nothing but a counter unless it answers the outstanding
    query of a pending lookup: it was sent from the server asked to the endpoint the query was
    sent from, carries the identifier and the question of the query, and arrives before the
    attempt times out.  The result is then what the records of the message say, and only that
    lookup moves. *)
Theorem dns_receive_safe input r held :
  res_inv r held -> bytes_ok (in_payload input) ->
  let '(o, r') := dns_receive input r in
  o = Ok tt /\ res_inv r' held
  /\ (r' = r <| dn_stats := dn_stats r' |>
      \/ exists id q a, om_get (dn_pending r) id = Some q /\ expects input r q
           /\ response_sound (in_payload input) (wire_id q) (pq_question q) (alias_budget q) a
           /\ answered id q a r r' /\ forall j, j <> id -> om_get (dn_pending r') j = om_get (dn_pending r) j).
Proof.
  intros I B. destruct (dns_receive_step input r held I B) as (r' & -> & S & X). split; [done|]. split; [apply S|].
  destruct X as [X|(id & q & a & G & Ex & Rs & A)]; [by left|right]. exists id, q, a. do 4 (split; [done|]).
  intros j Hj. destruct A as [F|(q' & -> & _)].
  - rewrite (finished_get _ _ _ _ _ _ (rc_sorted _ _ (proj1 I)) F). by rewrite (proj2 (Z.eqb_neq j id)).
  - erewrite update_get by exact G. by rewrite (proj2 (Z.eqb_neq id j)) by lia.
Qed.

(** What [poll] at [now] leaves of the lookup [q] known as [id], when it adds the results
    [new]: the lookup is pending with the deadline it had, which is still to come, and waits
    for an instant that is still to come; or it has its result, an error when the deadline
    has come. *)
Definition lookup_after (now id : Z) (q : DnsPending) (new : list Completion) (left : option DnsPending) : Prop :=
  match left with
  | Some q' => same_lookup q q' /\ now < pq_deadline q /\ now < pq_next q'
  | None => exists c, c ∈ new /\ cp_id c = id /\ cp_name c = pq_original q
      /\ (pq_deadline q <= now -> exists e, cp_result c = inl e)
  end.
(** A lookup that leaves the table has one of the new results. *)
Lemma left_has_result held r r' new id q :
  rstep held r r' -> dn_results r' = dn_results r ++ new -> Forall (completes r) new ->
  om_get (dn_pending r) id = Some q -> om_get (dn_pending r') id = None ->
  exists c, c ∈ new /\ cp_id c = id /\ cp_name c = pq_original q /\ (pq_deadline q <= dn_now r -> exists e, cp_result c = inl e).
Proof.
  intros S En F G Gn. pose proof (rs_ids _ _ _ S) as P. unfold all_ids in P.
  rewrite En, fmap_app, (Permutation_app_comm (cp_id <$> dn_results r)), app_assoc in P.
  apply Permutation_app_inv_r in P.
  assert (id ∈ cp_id <$> new) as Hin.
  { apply om_get_elem, (list_elem_of_fmap_2 fst) in G. rewrite <- P in G. apply elem_of_app in G as [G|G]; [|done].
    by apply om_get_none in Gn. }
  apply list_elem_of_fmap in Hin as (c & -> & Hc). rewrite Forall_forall in F.
  destruct (F c Hc) as (q1 & G1 & X). rewrite G in G1. injection G1 as <-. by exists c.
Qed.

(** C18. Lookups are bounded.  A [poll] that succeeds only appends results, and settles every
    pending lookup: one whose deadline has come has left the table and has its result, which
    is an error, under its identifier and name; any other has its result or is pending with
    the very deadline it had, waiting for an instant that is still to come.  A [poll] that
    fails loses no lookup, and moves no deadline. *)
Theorem dns_lookup_bounded now r held :
  res_inv r held -> dn_now r <= now < DURATION_MAX ->
  let '(o, r') := dns_poll urandom now r in
  match o with
  | Ok _ => exists new, dn_results r' = dn_results r ++ new
      /\ forall id q, om_get (dn_pending r) id = Some q -> lookup_after now id q new (om_get (dn_pending r') id)
  | Err _ => res_inv r' held /\ all_ids r' ≡ₚ all_ids r
      /\ forall id q', om_get (dn_pending r') id = Some q' ->
           exists q, om_get (dn_pending r) id = Some q /\ same_lookup q q'
  | _ => False
  end.
Proof.
  intros I Hn. destruct (dns_poll_step urandom Hu now r held I (proj1 Hn) (proj2 Hn)) as (o & r' & -> & Ro & S & W).
  pose proof (rs_kept _ _ _ S) as [K (new & En & F)].
  destruct o as [[]|k| |]; try done; [|split; [apply S|split; [apply S|exact K]]].
  exists new. split; [exact En|]. intros id q G. destruct (om_get (dn_pending r') id) as [q'|] eqn:G'; cbn.
  - destruct (K id q' G') as (q1 & G1 & Sl). cbn in G1. rewrite G in G1. injection G1 as <-.
    specialize (W eq_refl). rewrite Forall_forall in W. destruct (W _ (om_get_elem _ _ _ G')) as [W1 W2]. cbn in W1, W2.
    destruct Sl as [Ed Eo]. split; [done|]. split; [|done]. by rewrite <- Ed.
  - exact (left_has_result held _ r' new id q S En F G G').
Qed.

(** [resolve].  A name that is not a host name, a full table and an exhausted identifier
    space are refused with the state unchanged; otherwise the lookup gets the next identifier,
    and either completes at once from a cache entry that has not expired, with addresses that
    are still valid, or is pending with its deadline. *)
Theorem dns_resolve_effect input r held :
  res_inv r held ->
  let '(o, r') := dns_resolve input r in
  match o with
  | Ok (inl e) => r' = r /\ (normalize input = inl e \/ e = Busy)
  | Ok (inr id) => id = dn_next_id r /\ res_inv r' held /\ exists name, normalize input = inr name
      /\ ((exists x, dn_pending r' = dn_pending r
             /\ dn_results r' = dn_results r ++ [mkCompletion id name (dn_generation r) true x]
             /\ match x with inr a => dn_now r < expires_at a | inl _ => True end)
          \/ (dn_results r' = dn_results r /\ dn_pending r' = dn_pending r ++ [(id, asked_for name r)]))
  | _ => False
  end.
Proof.
  intros I. destruct (dns_resolve_step input r held I) as (x & r' & -> & _ & X). destruct x as [e|id]; [done|].
  destruct X as (-> & (I' & _) & name & En & X). split; [done|]. split; [done|]. exists name. split; [done|].
  destruct X as [(c & Ec & Hc & Ep & Er)|X]; [left|by right]. exists (ca_result c). do 2 (split; [done|]).
  pose proof (rc_fresh _ _ (proj1 I)) as F. rewrite Forall_forall in F. specialize (F _ (cache_get_elem _ _ _ Ec)).
  unfold cache_ok in F. cbn in F. destruct (ca_result c); [done|]. lia.
Qed.

(** [configure].  A configuration that is not valid is refused; a new one ends every
    pending lookup with [NetworkChanged], in order and under the old generation, releases every
    endpoint, empties the cache and starts the next generation. *)
Theorem dns_reconfigure network r held :
  res_inv r held -> network_typed network ->
  let '(o, r') := dns_configure network r in
  res_inv r' held
  /\ match o with
     | Ok _ => dn_network r' = network
         /\ (dn_network r = network /\ r' = r
             \/ failed NetworkChanged r r' (dn_pending r).*1 /\ dn_pending r' = [] /\ dn_cache r' = []
                /\ services (dn_pool r') = ∅ /\ dn_generation r' = count 1 (dn_generation r))
     | Err k => k = InvalidInput /\ r' = r
     | _ => False
     end.
Proof.
  intros I Tn. pose proof (dns_configure_step network r held I Tn) as (o & r' & E & Ro & (I' & _) & X). rewrite E.
  split; [done|]. destruct o as [[]|k| |]; try done.
  - destruct X as [En X]. split; [done|]. destruct X as [-> |(F & Ep & Ec & Eg)]; [by left|right].
    do 3 (split; [done|]). split; [|done]. pose proof (rp_ports _ _ _ (proj2 I')) as P. rewrite Ep in P.
    change (locals []) with (@nil SocketAddrV4) in P. symmetry in P. apply Permutation_nil in P. unfold ports in P.
    apply fmap_nil_inv in P. by apply map_to_list_empty_iff in P.
  - split; [|done]. unfold dns_configure in E. destruct (network_valid network) as [Ev|Ev]; rewrite Ev in E; [|by injection E as <-].
    case_bool_decide; [done|]. destruct (dns_invalidate_step r held I) as (r1 & E1 & _). by rewrite E1 in E.
Qed.
End Props.

(** ** Witnesses *)
Definition lab_network : NetworkConfig := mkNetworkConfig 0x0a000001 [mkSock 0x0a000002 53].
(** Identifier 7 and port 32000. *)
Definition fixed_entropy (k : nat) : outcome Z := Ok (7 * 65536 + 32000).
Lemma fixed_entropy_ok : entropy_ok fixed_entropy.
Proof. intros k. cbn. unfold W32. lia. Qed.
Lemma lab_typed : network_typed lab_network.
Proof. split; [repeat constructor; cbn; unfold W32, W16; lia|cbn; unfold W32; lia]. Qed.
Lemma default_typed : resolver_typed resolver_config_default.
Proof. constructor; cbn; unfold DURATION_MAX, U64MAX, W64, SECOND; lia. Qed.
Definition resolver0 : UdpResolver LoopbackDevice :=
  match resolver_new loopback2 lab_network resolver_config_default (Ok tt) with
  | Ok r => r
  | _ => mkUdpResolver upool0 resolver_config_default lab_network 0%nat [] [] [] 0 0 1 (mkResolverStats 0 0 0 0 0)
  end.
Definition lookup_calls : list dns_call := [AskName asked; PollAt 1].
Lemma lookup_calls_ok : Forall dns_call_ok lookup_calls.
Proof. repeat constructor; cbn; unfold DURATION_MAX, U64MAX, W64, SECOND; lia. Qed.
Lemma resolver0_inv : res_inv resolver0 [] /\ all_ids resolver0 = [] /\ dn_next_id resolver0 = 1.
Proof.
  apply (resolver_new_inv loopback2 lab_network resolver_config_default (Ok tt));
    [apply loopback2_inv|apply lab_typed|apply default_typed|reflexivity].
Qed.
(** The resolver with its query on the way. *)
Definition resolver1 : UdpResolver LoopbackDevice := (dns_runs fixed_entropy lookup_calls resolver0 []).2.1.
Lemma resolver1_inv : res_inv resolver1 [].
Proof.
  destruct resolver0_inv as (I & A & N).
  destruct (dns_runs_step fixed_entropy fixed_entropy_ok lookup_calls resolver0 [] []) as (os & r & out & E & _ & I1 & _);
    [done|unfold once; by rewrite A, N|apply lookup_calls_ok|]. unfold resolver1. by rewrite E.
Qed.
Definition server_reply : Incoming := mkIncoming (mkSock 0x0a000002 53) (mkSock 0x0a000001 32000) reply.
(** The answer of the server ends the lookup; the same answer from another port does not. *)
Example dns_answer_accepted :
  dn_results (dns_receive server_reply resolver1).2
  = [mkCompletion 1 asked 0 false (inr (mkDnsAnswer [99; 46; 98] [0x0a000007] (1 + 30 * SECOND)))]
  /\ dn_results (dns_receive (mkIncoming (mkSock 0x0a000002 54) (mkSock 0x0a000001 32000) reply) resolver1).2 = [].
Proof. vm_compute. auto. Qed.
Lemma dns_sessions_witness :
  let '(os, (r, out)) := dns_runs fixed_entropy lookup_calls resolver0 [] in
  Forall returns os
  /\ (cp_id <$> out) ++ (cp_id <$> dn_results r) ++ (dn_pending r).*1 ≡ₚ seqZ 1 (dn_next_id r - 1).
Proof.
  pose proof (dns_sessions fixed_entropy fixed_entropy_ok loopback2 lab_network resolver_config_default (Ok tt) resolver0 []
    lookup_calls loopback2_inv lab_typed default_typed eq_refl lookup_calls_ok) as S.
  destruct (dns_runs fixed_entropy lookup_calls resolver0 []) as [os [r out]].
  exact (conj (proj1 S) (proj1 (proj2 S))).
Defined.
Lemma dns_receive_safe_witness : res_inv (dns_receive server_reply resolver1).2 [].
Proof.
  pose proof (dns_receive_safe server_reply resolver1 [] resolver1_inv reply_bytes) as S.
  destruct (dns_receive server_reply resolver1) as [o r]. exact (proj1 (proj2 S)).
Defined.
(** A [poll] eleven seconds later, past the deadline, ends the lookup with an error. *)
Lemma dns_lookup_bounded_witness :
  match dns_poll fixed_entropy (11 * SECOND) resolver1 with
  | (Ok _, r) => om_get (dn_pending r) 1 = None /\ exists c, c ∈ dn_results r /\ cp_id c = 1 /\ exists e, cp_result c = inl e
  | _ => False
  end.
Proof.
  pose proof (dns_lookup_bounded fixed_entropy fixed_entropy_ok (11 * SECOND) resolver1 [] resolver1_inv
    ltac:(split; [vm_compute; discriminate|vm_compute; reflexivity])) as S.
  assert ((dns_poll fixed_entropy (11 * SECOND) resolver1).1 = Ok tt) as E by (vm_compute; reflexivity).
  assert (exists q, om_get (dn_pending resolver1) 1 = Some q /\ pq_deadline q <= 11 * SECOND) as (q & G & Hd).
  { eexists. split; [vm_compute; reflexivity|]. vm_compute. discriminate. }
  destruct (dns_poll fixed_entropy (11 * SECOND) resolver1) as [o r]. cbn [fst] in E. subst o.
  destruct S as (new & En & S). specialize (S 1 q G). destruct (om_get (dn_pending r) 1) as [q'|].
  - destruct S as (_ & Hl & _). exfalso. lia.
  - destruct S as (c & Hc & Ei & _ & He). split; [reflexivity|]. exists c. rewrite En. split; [apply elem_of_app; right; exact Hc|].
    split; [exact Ei|exact (He Hd)].
Defined.
Lemma dns_resolve_effect_witness : exists r, dns_resolve asked resolver1 = (Ok (inr 2), r) /\ res_inv r [].
Proof.
  pose proof (dns_resolve_effect asked resolver1 [] resolver1_inv) as S.
  assert ((dns_resolve asked resolver1).1 = Ok (inr 2)) as E by (vm_compute; reflexivity).
  destruct (dns_resolve asked resolver1) as [o r]. cbn in E. subst o. exists r. exact (conj eq_refl (proj1 (proj2 S))).
Defined.
Lemma dns_reconfigure_witness :
  exists r, dns_configure (mkNetworkConfig 0x0a000003 [mkSock 0x0a000002 53]) resolver1 = (Ok tt, r) /\ res_inv r [].
Proof.
  pose proof (dns_reconfigure (mkNetworkConfig 0x0a000003 [mkSock 0x0a000002 53]) resolver1 [] resolver1_inv
    ltac:(split; [repeat constructor; cbn; unfold W32, W16; lia|cbn; unfold W32; lia])) as S.
  assert ((dns_configure (mkNetworkConfig 0x0a000003 [mkSock 0x0a000002 53]) resolver1).1 = Ok tt) as E
    by (vm_compute; reflexivity).
  destruct (dns_configure _ resolver1) as [o r]. cbn in E. subst o. exists r. exact (conj eq_refl (proj1 S)).
Defined.
