(* ===== verification/XdpRing.v ===== *)
(** * The shared-memory rings of AF_XDP ([src/device/backend/af_xdp/umem.rs], [socket.rs])

    A [Ring] is memory shared with the kernel: a producer and a consumer counter of 32 bits
    that wrap, a flags word that some kernels do not have, and a power of two of
    descriptors.  On the fill and TX rings the program produces and the kernel consumes, on the
    completion and RX rings the other way round.  Each side keeps a copy of its own counter and
    a possibly stale copy of the other's.

    The mapping behind the pointers is the record itself; a load is a field access, a
    descriptor access goes through [index], which masks the counter. *)
From Stdlib Require Import ZArith Lia Bool.
From stdpp Require Import base numbers option list relations.
From S2P Require Import Prelude.
#[local] Open Scope Z_scope.

Record Ring (A : Type) : Type := mkRing {
  rg_producer : Z;
  rg_consumer : Z;
  rg_flags : option Z;
  rg_desc : list A;
  rg_entries : Z
}.
Arguments mkRing {A}. Arguments rg_producer {A}. Arguments rg_consumer {A}. Arguments rg_flags {A}.
Arguments rg_desc {A}. Arguments rg_entries {A}.
#[export] Instance eta_Ring A : Eta (Ring A) := fun r =>
  mkRing (rg_producer r) (rg_consumer r) (rg_flags r) (rg_desc r) (rg_entries r).

Definition is_power_of_two (n : Z) : bool := (0 <? n) && (Z.land n (n - 1) =? 0).
(** Reject invalid sizes before opening or mapping any kernel resources. *)
Definition validate_ring_size (entries : Z) : outcome unit :=
  if negb (is_power_of_two entries) || (2 ^ 30 <? entries) then Err InvalidInput else Ok tt.

Section Ring.
Context {A : Type}.
Implicit Types (r : Ring A) (l : list A).

Definition flags_load r : Z := default 0 (rg_flags r).
Definition index r (i : Z) : Z := Z.land i (rg_entries r - 1).
Definition read_desc r (i : Z) : outcome A := get_at (rg_desc r) (index r i).
Definition write_desc r (i : Z) (v : A) : Ring A :=
  r <| rg_desc ::= fun d => <[Z.to_nat (index r i) := v]> d |>.

(** The free slots that two counters leave to the producer. *)
Definition slots_between (producer consumer : Z) : Z := u32 (consumer - producer).
(** The other side's counter, as [fill_free_slots] and [tx_free_slots] cache it. *)
Definition limit_load r : Z := u32 (rg_consumer r + rg_entries r).

(** [write_desc(producer.wrapping_add(i), l[i])], from the [i]-th descriptor on. *)
Fixpoint write_all r (producer i : Z) l : Ring A :=
  match l with
  | [] => r
  | v :: l => write_all (write_desc r (u32 (producer + i)) v) producer (i + 1) l
  end.
(** The descriptors, then the counter that publishes them; the new cached producer. *)
Definition publish r (producer : Z) l : Ring A * Z :=
  let r := write_all r producer 0 l in
  let producer := u32 (producer + zlen l) in
  (if 0 <? zlen l then r <| rg_producer := producer |> else r, producer).

(** [fill_free_slots] and [tx_free_slots]: the consumer is loaded again only when the cached
    one does not leave enough room; the free slots and the cached consumer. *)
Definition free_slots (needed : Z) r (producer consumer : Z) : Z * Z :=
  let free := slots_between producer consumer in
  if free <? needed
  then (slots_between producer (limit_load r), limit_load r)
  else (free, consumer).
(** [fill_push] and [tx_push]: the number taken, the ring and the cached counters. *)
Definition ring_push l r (producer consumer : Z) : Z * (Ring A * Z * Z) :=
  let '(free, consumer) := free_slots (zlen l) r producer consumer in
  let n := Z.min (zlen l) free in
  let '(r, producer) := publish r producer (take (Z.to_nat n) l) in
  (n, (r, producer, consumer)).

(** The loop of [rx_pop]: [n] descriptors from [consumer] on. *)
Fixpoint read_all r (consumer i : Z) (n : nat) : outcome (list A) :=
  match n with
  | O => Ok []
  | S n =>
      let* v := read_desc r (u32 (consumer + i)) in
      let* l := read_all r consumer (i + 1) n in
      Ok (v :: l)
  end.
(** Releasing what was read; the new cached consumer. *)
Definition release r (consumer n : Z) : Ring A * Z :=
  let consumer := u32 (consumer + n) in
  (if 0 <? n then r <| rg_consumer := consumer |> else r, consumer).
Definition batch_pop r (consumer max : Z) : outcome (list A * (Ring A * Z)) :=
  let n := Z.min max (u32 (rg_producer r - consumer)) in
  let* l := read_all r consumer 0 (Z.to_nat n) in
  Ok (l, release r consumer n).
(** The [while] loop of [cq_pop]; [room] is [max - n]. *)
Fixpoint pop_loop (room : nat) r (producer consumer : Z) : outcome (list A * Z) :=
  if consumer =? producer then Ok ([], consumer)
  else
    match room with
    | O => Ok ([], consumer)
    | S room =>
        let* v := read_desc r consumer in
        let* '(l, consumer) := pop_loop room r producer (u32 (consumer + 1)) in
        Ok (v :: l, consumer)
    end.
Definition loop_pop r (consumer max : Z) : outcome (list A * (Ring A * Z)) :=
  let* '(l, consumer) := pop_loop (Z.to_nat max) r (rg_producer r) consumer in
  Ok (l, (if 0 <? zlen l then r <| rg_consumer := consumer |> else r, consumer)).

(** ** The queue in a ring *)
(** The geometry: what no access may change. *)
Record ring_shape r : Prop := {
  sh_size : exists k, 0 <= k <= 30 /\ rg_entries r = 2 ^ k;
  sh_desc : zlen (rg_desc r) = rg_entries r;
  sh_producer : 0 <= rg_producer r < W32;
  sh_consumer : 0 <= rg_consumer r < W32
}.
Definition ring_count r : Z := u32 (rg_producer r - rg_consumer r).
(** The ring holds the descriptors [l], oldest first. *)
Record holds r l : Prop := {
  ho_shape : ring_shape r;
  ho_count : zlen l = ring_count r;
  ho_room : zlen l <= rg_entries r;
  ho_desc : forall i v, l !! i = Some v -> rg_desc r !! Z.to_nat (index r (u32 (rg_consumer r + Z.of_nat i))) = Some v
}.

Lemma entries_bounds r : ring_shape r -> 0 < rg_entries r <= 2 ^ 30 /\ (rg_entries r | W32).
Proof.
  intros [(k & Hk & E) _ _ _]. rewrite E. split.
  - split; [apply Z.pow_pos_nonneg; lia|apply Z.pow_le_mono_r; lia].
  - exists (2 ^ (32 - k)). rewrite <- Z.pow_add_r by lia. by replace (32 - k + k) with 32 by lia.
Qed.
Lemma index_mod r i : ring_shape r -> index r i = i mod rg_entries r.
Proof.
  intros [(k & Hk & E) _ _ _]. unfold index. rewrite E. rewrite <- Z.land_ones by lia.
  by rewrite Z.ones_equiv, <- Z.sub_1_r.
Qed.
Lemma index_same r r' i : rg_entries r' = rg_entries r -> index r' i = index r i.
Proof. intros E. unfold index. by rewrite E. Qed.
Lemma index_u32 r i : ring_shape r -> index r (u32 i) = i mod rg_entries r.
Proof.
  intros Sh. rewrite (index_mod r _ Sh). destruct (entries_bounds r Sh) as [B [q Hq]].
  assert (0 < q) by (unfold W32 in Hq; nia). unfold u32. rewrite Hq. rewrite Z.mul_comm, Z.rem_mul_r by lia. rewrite (Z.mul_comm (rg_entries r)), Z.mod_add by lia. by apply Z.mod_mod; lia.
Qed.
Lemma index_range r i : ring_shape r -> 0 <= index r (u32 i) < rg_entries r.
Proof. intros Sh. rewrite index_u32 by done. apply Z.mod_pos_bound. by apply (entries_bounds r Sh). Qed.
Lemma index_inj r a b : ring_shape r -> index r (u32 a) = index r (u32 b) -> Z.abs (a - b) < rg_entries r -> a = b.
Proof.
  intros Sh E L. rewrite !index_u32 in E by done. destruct (entries_bounds r Sh) as [B _].
  apply Z.cong_iff_0, Z.mod_divide in E as [q Hq]; [|lia]. assert (q = 0) by nia. lia.
Qed.

Lemma write_desc_shape r i v : ring_shape r -> ring_shape (write_desc r i v).
Proof. intros []. constructor; cbn; try done. unfold zlen in *. by rewrite length_insert. Qed.
Lemma write_all_same r producer i l :
  ring_shape r ->
  let r' := write_all r producer i l in
  ring_shape r' /\ rg_producer r' = rg_producer r /\ rg_consumer r' = rg_consumer r /\ rg_entries r' = rg_entries r
  /\ rg_flags r' = rg_flags r.
Proof.
  revert r i. induction l as [|v l IH]; intros r i Sh; cbn [write_all]; [done|].
  destruct (IH (write_desc r (u32 (producer + i)) v) (i + 1) (write_desc_shape _ _ _ Sh)) as (Sh' & E1 & E2 & E3 & E4).
  by rewrite E1, E2, E3, E4.
Qed.
(** Writing [l] changes exactly the slots of the counters [producer + i] on. *)
Lemma write_all_desc r producer i l :
  ring_shape r -> zlen l <= rg_entries r ->
  (forall k v, l !! k = Some v ->
     rg_desc (write_all r producer i l) !! Z.to_nat (index r (u32 (producer + i + Z.of_nat k))) = Some v)
  /\ (forall c, (forall k, (k < length l)%nat -> index r (u32 c) <> index r (u32 (producer + i + Z.of_nat k))) ->
      rg_desc (write_all r producer i l) !! Z.to_nat (index r (u32 c)) = rg_desc r !! Z.to_nat (index r (u32 c))).
Proof.
  revert r i. induction l as [|v l IH]; intros r i Sh L; cbn [write_all]; [done|].
  set (r1 := write_desc r (u32 (producer + i)) v). pose proof (write_desc_shape r (u32 (producer + i)) v Sh) as S1.
  rewrite zlen_cons in L. destruct (IH r1 (i + 1) S1 ltac:(cbn; lia)) as [In Out].
  change (index r1) with (index r) in *.
  assert (rg_desc r1 !! Z.to_nat (index r (u32 (producer + i))) = Some v) as E1.
  { cbn. apply list_lookup_insert_eq. pose proof (index_range r (producer + i) Sh). pose proof (sh_desc r Sh). unfold zlen in *. lia. }
  split.
  - intros [|k] w Hk; cbn in Hk.
    + injection Hk as ->. rewrite Z.add_0_r. rewrite Out; [done|]. intros k Hk E. apply index_inj in E; [lia|done|].
      unfold zlen in L. lia.
    + replace (producer + i + Z.of_nat (S k)) with (producer + (i + 1) + Z.of_nat k) by lia. by apply In.
  - intros c Hc. rewrite Out.
    + cbn. apply list_lookup_insert_ne. specialize (Hc 0%nat ltac:(cbn; lia)). rewrite Z.add_0_r in Hc.
      pose proof (index_range r c Sh). pose proof (index_range r (producer + i) Sh). lia.
    + intros k Hk. specialize (Hc (S k) ltac:(cbn; lia)).
      by replace (producer + (i + 1) + Z.of_nat k) with (producer + i + Z.of_nat (S k)) by lia.
Qed.
Lemma u32_idem x : u32 (u32 x) = u32 x.
Proof. unfold u32. apply Z.mod_mod. done. Qed.
Lemma holds_producer r l : holds r l -> rg_producer r = u32 (rg_consumer r + zlen l).
Proof.
  intros [Sh E _ _]. rewrite E. unfold ring_count. rewrite Z.add_comm, u32_add_l.
  replace (rg_producer r - rg_consumer r + rg_consumer r) with (rg_producer r) by lia.
  symmetry. apply u32_small, Sh.
Qed.
(** Publishing appends to the queue. *)
Lemma publish_holds r l vs :
  holds r l -> zlen l + zlen vs <= rg_entries r ->
  holds (publish r (rg_producer r) vs).1 (l ++ vs)
  /\ rg_producer (publish r (rg_producer r) vs).1 = (publish r (rg_producer r) vs).2
  /\ rg_consumer (publish r (rg_producer r) vs).1 = rg_consumer r
  /\ rg_entries (publish r (rg_producer r) vs).1 = rg_entries r.
Proof.
  intros Hh L. pose proof (holds_producer r l Hh) as Ep. destruct Hh as [Sh E Rm Ds]. unfold publish. cbn [fst snd].
  pose proof (zlen_nonneg l). pose proof (zlen_nonneg vs). pose proof (entries_bounds r Sh) as [B _].
  destruct (write_all_same r (rg_producer r) 0 vs Sh) as (S1 & E1 & E2 & E3 & _).
  destruct (write_all_desc r (rg_producer r) 0 vs Sh ltac:(lia)) as [In Out].
  destruct (0 <? zlen vs) eqn:Ev; bools.
  2:{ assert (vs = []) as -> by (destruct vs; [done|rewrite zlen_cons in Ev; pose proof (zlen_nonneg vs); lia]).
      cbn [write_all]. rewrite app_nil_r. change (zlen []) with 0. rewrite Z.add_0_r.
      split; [by constructor|]. split; [symmetry; apply u32_small, Sh|done]. }
  set (r1 := write_all r (rg_producer r) 0 vs) in *. split; [|by cbn]. constructor.
  - destruct S1. constructor; cbn; try done. apply u32_range.
  - rewrite zlen_app. unfold ring_count. cbn. rewrite E2, Ep, u32_add_l, u32_sub_l. rewrite u32_small; [lia|].
    unfold W32. lia.
  - rewrite zlen_app. cbn. lia.
  - intros i v Hi. rewrite (index_same r) by done. cbn [rg_consumer rg_desc setter eta_Ring]. rewrite E2.
    apply lookup_app_Some in Hi as [Hi|[Hi Hv]].
    + rewrite Out; [by apply Ds|]. intros k Hk Ex. pose proof (lookup_lt_Some _ _ _ Hi).
      assert (index r (u32 (rg_producer r + 0 + Z.of_nat k)) = index r (u32 (rg_consumer r + zlen l + Z.of_nat k))) as Ez.
      { rewrite Z.add_0_r, Ep, u32_add_l. done. }
      rewrite Ez in Ex. apply index_inj in Ex; [|done|]; unfold zlen in *; lia.
    + specialize (In _ _ Hv). rewrite Z.add_0_r, Ep, u32_add_l in In.
      replace (rg_consumer r + Z.of_nat i) with (rg_consumer r + zlen l + Z.of_nat (i - length l)) by (unfold zlen; lia).
      done.
Qed.
(** The other side takes [n] descriptors. *)
Lemma advance_holds r l (n : Z) :
  holds r l -> 0 <= n <= zlen l -> holds (r <| rg_consumer := u32 (rg_consumer r + n) |>) (drop (Z.to_nat n) l).
Proof.
  intros Hh Hn. pose proof (holds_producer r l Hh) as Ep. destruct Hh as [Sh E Rm Ds].
  pose proof (entries_bounds r Sh) as [B _].
  assert (zlen (drop (Z.to_nat n) l) = zlen l - n) as El by (unfold zlen in *; rewrite length_drop; lia).
  constructor; cbn.
  - destruct Sh. constructor; cbn; try done. apply u32_range.
  - rewrite El. unfold ring_count. cbn. rewrite u32_sub_r, Ep, u32_sub_l. rewrite u32_small; [lia|]. unfold W32. lia.
  - lia.
  - intros i v Hi. rewrite lookup_drop in Hi. specialize (Ds _ _ Hi). rewrite (index_same r) by done. rewrite u32_add_l. replace (rg_consumer r + n + Z.of_nat i) with (rg_consumer r + Z.of_nat (Z.to_nat n + i)) by lia. done.
Qed.
Lemma release_holds r l n :
  holds r l -> 0 <= n <= zlen l ->
  holds (release r (rg_consumer r) n).1 (drop (Z.to_nat n) l)
  /\ rg_consumer (release r (rg_consumer r) n).1 = (release r (rg_consumer r) n).2.
Proof.
  intros Hh Hn. unfold release. cbn [fst snd]. destruct (0 <? n) eqn:En; bools.
  - split; [by apply advance_holds|done].
  - assert (n = 0) as -> by lia. split; [done|]. rewrite Z.add_0_r. symmetry. apply u32_small, Hh.
Qed.
(** Reading finds the oldest descriptors. *)
Lemma read_all_holds r l i n :
  holds r l -> (i + n <= length l)%nat -> read_all r (rg_consumer r) (Z.of_nat i) n = Ok (take n (drop i l)).
Proof.
  intros Hh. revert i. induction n as [|n IH]; intros i L; cbn [read_all]; [done|].
  destruct (lookup_lt_is_Some_2 l i ltac:(lia)) as [v Hv]. pose proof (index_range r (rg_consumer r + Z.of_nat i) (ho_shape _ _ Hh)).
  unfold read_desc. rewrite (get_at_ok _ _ v); [|lia|by apply Hh]. cbn [obind].
  replace (Z.of_nat i + 1) with (Z.of_nat (S i)) by lia. rewrite IH by lia. cbn [obind]. by rewrite (drop_S l v i Hv).
Qed.
(** The loop reads what the batch reads. *)
Lemma pop_loop_eq room r producer consumer :
  0 <= producer < W32 -> 0 <= consumer < W32 ->
  let n := Z.min (Z.of_nat room) (u32 (producer - consumer)) in
  pop_loop room r producer consumer
  = let* l := read_all r consumer 0 (Z.to_nat n) in Ok (l, u32 (consumer + n)).
Proof.
  intros Hp. revert consumer. 
  assert (forall c i n, read_all r (u32 (c + 1)) i n = read_all r c (i + 1) n) as Shift.
  { intros c i n. revert i. induction n as [|n IH]; intros i; cbn [read_all]; [done|]. rewrite u32_add_l, IH.
    replace (c + 1 + i) with (c + (i + 1)) by lia. done. }
  induction room as [|room IH]; intros consumer Hc; cbn [pop_loop].
  - rewrite Z.min_l by apply u32_range. cbn. rewrite Z.add_0_r, u32_small by done. by destruct (_ =? _).
  - destruct (consumer =? producer) eqn:E; bools.
    + subst. rewrite Z.sub_diag. change (u32 0) with 0. rewrite Z.min_r by lia. cbn. by rewrite Z.add_0_r, u32_small.
    + set (d := u32 (producer - consumer)).
      assert (1 <= d) as Hd.
      { pose proof (u32_range (producer - consumer)). destruct (Z.eq_dec d 0) as [E0|]; [|lia].
        unfold d, u32 in E0. apply Z.mod_divide in E0 as [q Hq]; [|done]. unfold W32 in *. nia. }
      assert (u32 (producer - u32 (consumer + 1)) = d - 1) as Ed.
      { rewrite u32_sub_r. unfold d. replace (producer - (consumer + 1)) with (producer - consumer - 1) by lia.
        rewrite <- u32_sub_l. fold d. apply u32_small. pose proof (u32_range (producer - consumer)). lia. }
      rewrite IH by apply u32_range. rewrite Ed.
      replace (Z.to_nat (Z.min (Z.of_nat (S room)) d)) with (S (Z.to_nat (Z.min (Z.of_nat room) (d - 1)))) by lia.
      cbn [read_all]. rewrite Z.add_0_r, (u32_small consumer) by done. destruct (read_desc r consumer); try done. cbn [obind].
      rewrite Shift. destruct (read_all r consumer (0 + 1) _); try done. cbn [obind]. do 2 f_equal. rewrite u32_add_l. f_equal. lia.
Qed.

(** ** A ring between the program and the kernel *)
(** A ring the program produces into, with the cached counters, what was published and what
    the kernel has taken. *)
Record TxSide : Type := mkTxSide {
  ts_ring : Ring A; ts_producer : Z; ts_consumer : Z; ts_sent : list A; ts_taken : list A
}.
Inductive tx_step : TxSide -> TxSide -> Prop :=
| tx_push_step l s n r producer consumer :
    ring_push l (ts_ring s) (ts_producer s) (ts_consumer s) = (n, (r, producer, consumer)) ->
    tx_step s (mkTxSide r producer consumer (ts_sent s ++ take (Z.to_nat n) l) (ts_taken s))
| tx_kernel_step s n l :
    0 <= n <= ring_count (ts_ring s) ->
    read_all (ts_ring s) (rg_consumer (ts_ring s)) 0 (Z.to_nat n) = Ok l ->
    tx_step s (mkTxSide (ts_ring s <| rg_consumer := u32 (rg_consumer (ts_ring s) + n) |>)
                 (ts_producer s) (ts_consumer s) (ts_sent s) (ts_taken s ++ l)).
Record tx_inv (s : TxSide) (queue : list A) : Prop := {
  ti_holds : holds (ts_ring s) queue;
  ti_producer : ts_producer s = rg_producer (ts_ring s);
  ti_room : slots_between (ts_producer s) (ts_consumer s) <= rg_entries (ts_ring s) - zlen queue;
  ti_fifo : ts_sent s = ts_taken s ++ queue
}.
Lemma limit_slots r q : holds r q -> slots_between (rg_producer r) (limit_load r) = rg_entries r - zlen q.
Proof.
  intros Hh. unfold slots_between, limit_load. pose proof (holds_producer r q Hh) as Ep. destruct Hh as [Sh E Rm _].
  pose proof (entries_bounds r Sh) as [B _]. pose proof (zlen_nonneg q). rewrite u32_sub_l, Ep, u32_sub_r.
  rewrite u32_small; [lia|]. unfold W32. lia.
Qed.
(** A push takes exactly what there is room for. *)
Lemma ring_push_spec l r q consumer :
  holds r q -> slots_between (rg_producer r) consumer <= rg_entries r - zlen q ->
  exists r' producer' consumer',
    let n := Z.min (zlen l) (rg_entries r - zlen q) in
    ring_push l r (rg_producer r) consumer = (n, (r', producer', consumer'))
    /\ holds r' (q ++ take (Z.to_nat n) l) /\ producer' = rg_producer r' /\ rg_entries r' = rg_entries r
    /\ slots_between producer' consumer' <= rg_entries r' - zlen (q ++ take (Z.to_nat n) l).
Proof.
  intros Hh Hr. pose proof (limit_slots r q Hh) as Lm. pose proof (zlen_nonneg l). pose proof (zlen_nonneg q).
  pose proof (ho_room _ _ Hh) as Rm. unfold ring_push.
  set (n := Z.min (zlen l) (rg_entries r - zlen q)).
  assert (exists c, free_slots (zlen l) r (rg_producer r) consumer
     = (slots_between (rg_producer r) c, c) /\ Z.min (zlen l) (slots_between (rg_producer r) c) = n
     /\ slots_between (rg_producer r) c <= rg_entries r - zlen q) as (c & -> & En & Hc).
  { unfold free_slots. destruct (_ <? _) eqn:E; bools.
    - exists (limit_load r). split; [done|]. rewrite Lm. split; [done|lia].
    - exists consumer. split; [done|]. split; [unfold n; lia|done]. }
  rewrite En. assert (zlen (take (Z.to_nat n) l) = n) as Lt by (unfold n, zlen in *; rewrite length_take; lia).
  destruct (publish_holds r q (take (Z.to_nat n) l) Hh) as (H1 & E1 & E2 & E3); [lia|].
  destruct (publish r (rg_producer r) (take (Z.to_nat n) l)) as [r' p'] eqn:Ep. cbn [fst snd] in *.
  eexists _, _, _. split; [done|]. split; [done|]. split; [done|]. split; [done|].
  assert (p' = u32 (rg_producer r + n)) as -> by (unfold publish in Ep; rewrite Lt in Ep; by injection Ep as _ <-).
  rewrite zlen_app, Lt, E3. unfold slots_between in *. rewrite u32_sub_r.
  replace (c - (rg_producer r + n)) with (c - rg_producer r - n) by lia. rewrite <- u32_sub_l. rewrite u32_small; [lia|].
  pose proof (u32_range (c - rg_producer r)). unfold n in *. lia.
Qed.
Lemma tx_step_inv s s' q : tx_inv s q -> tx_step s s' -> exists q', tx_inv s' q' /\ rg_entries (ts_ring s') = rg_entries (ts_ring s).
Proof.
  intros [Hh Ep Hr Hf] St. destruct St as [l s n r p c E|s n l Hn E].
  - rewrite Ep in *. destruct (ring_push_spec l _ q _ Hh Hr) as (r' & p' & c' & E' & H' & Ep' & Ee & Hr').
    rewrite E in E'. injection E' as -> -> -> ->. eexists. split; [|exact Ee]. constructor; [exact H'|exact Ep'|exact Hr'|].
    cbn [ts_sent ts_taken]. by rewrite Hf, app_assoc.
  - assert (n <= zlen q) as Hq by (rewrite (ho_count _ _ Hh); lia).
    change 0 with (Z.of_nat 0) in E. rewrite (read_all_holds _ q) in E; [|done|unfold zlen in *; lia]. injection E as <-.
    exists (drop (Z.to_nat n) q). split; [|done]. constructor; [apply (advance_holds _ q n Hh); lia|done| |].
    + cbn. unfold zlen in *. rewrite length_drop. lia.
    + cbn [ts_sent ts_taken]. rewrite Hf, <- app_assoc. cbn [drop]. by rewrite take_drop.
Qed.

(** A ring the kernel produces into. *)
Record RxSide : Type := mkRxSide { xs_ring : Ring A; xs_consumer : Z; xs_sent : list A; xs_taken : list A }.
Inductive rx_step : RxSide -> RxSide -> Prop :=
| rx_kernel_step l s :
    ring_count (xs_ring s) + zlen l <= rg_entries (xs_ring s) ->
    rx_step s (mkRxSide (publish (xs_ring s) (rg_producer (xs_ring s)) l).1 (xs_consumer s) (xs_sent s ++ l) (xs_taken s))
| rx_batch_step max s l r c :
    0 <= max -> batch_pop (xs_ring s) (xs_consumer s) max = Ok (l, (r, c)) ->
    rx_step s (mkRxSide r c (xs_sent s) (xs_taken s ++ l))
| rx_loop_step max s l r c :
    0 <= max -> loop_pop (xs_ring s) (xs_consumer s) max = Ok (l, (r, c)) ->
    rx_step s (mkRxSide r c (xs_sent s) (xs_taken s ++ l)).
Record rx_inv (s : RxSide) (queue : list A) : Prop := {
  xi_holds : holds (xs_ring s) queue;
  xi_consumer : xs_consumer s = rg_consumer (xs_ring s);
  xi_fifo : xs_sent s = xs_taken s ++ queue
}.
Lemma loop_pop_batch r consumer max :
  ring_shape r -> 0 <= consumer < W32 -> 0 <= max -> loop_pop r consumer max = batch_pop r consumer max.
Proof.
  intros Sh Hc Hm. unfold loop_pop, batch_pop. rewrite pop_loop_eq by (done || apply Sh). rewrite Z2Nat.id by done.
  set (n := Z.min max _). pose proof (u32_range (rg_producer r - consumer)).
  assert (forall i k l, read_all r consumer i k = Ok l -> length l = k) as Len.
  { intros i k. revert i. induction k as [|k IH]; intros i l; cbn [read_all]; [by intros [= <-]|].
    destruct (read_desc _ _); try done. cbn [obind]. destruct (read_all r consumer (i + 1) k) eqn:E; try done. cbn [obind].
    intros [= <-]. cbn. f_equal. eauto. }
  destruct (read_all r consumer 0 (Z.to_nat n)) as [l|k| |] eqn:E; try done. cbn [obind]. apply Len in E.
  unfold release. assert (zlen l = n) as -> by (unfold zlen, n in *; lia). done.
Qed.
Lemma batch_pop_spec r q max :
  holds r q -> 0 <= max ->
  let n := Z.min max (zlen q) in
  exists r', batch_pop r (rg_consumer r) max = Ok (take (Z.to_nat n) q, (r', rg_consumer r'))
    /\ holds r' (drop (Z.to_nat n) q) /\ rg_entries r' = rg_entries r.
Proof.
  intros Hh Hm n. unfold batch_pop. fold (ring_count r). rewrite <- (ho_count _ _ Hh). fold n.
  pose proof (zlen_nonneg q). change 0 with (Z.of_nat 0). rewrite (read_all_holds r q) by (done || unfold n, zlen; lia). cbn [obind].
  destruct (release_holds r q n Hh ltac:(unfold n; lia)) as [H1 E1]. cbn [drop].
  exists (release r (rg_consumer r) n).1. rewrite E1. split; [by destruct (release _ _ _)|]. split; [done|].
  unfold release. by destruct (0 <? n).
Qed.
Lemma rx_step_inv s s' q : rx_inv s q -> rx_step s s' -> exists q', rx_inv s' q' /\ rg_entries (xs_ring s') = rg_entries (xs_ring s).
Proof.
  intros [Hh Ec Hf] St.
  assert (forall max l r c, 0 <= max -> batch_pop (xs_ring s) (xs_consumer s) max = Ok (l, (r, c)) ->
    exists q', rx_inv (mkRxSide r c (xs_sent s) (xs_taken s ++ l)) q' /\ rg_entries r = rg_entries (xs_ring s)) as Pop.
  { intros max l r c Hm E. rewrite Ec in E. destruct (batch_pop_spec _ q max Hh Hm) as (r' & E' & H' & Ee). rewrite E in E'.
    injection E' as -> -> ->. eexists. split; [constructor; cbn; [exact H'|done|]|done]. by rewrite Hf, <- app_assoc, take_drop. }
  destruct St as [l s L|max s l r c Hm E|max s l r c Hm E].
  - destruct (publish_holds (xs_ring s) q l Hh) as (H1 & E1 & E2 & E3); [rewrite (ho_count _ _ Hh); lia|].
    exists (q ++ l). split; [|done]. constructor; [done|by rewrite Ec, <- E2|cbn [xs_sent xs_taken]; by rewrite Hf, app_assoc].
  - by eapply Pop.
  - rewrite loop_pop_batch in E by (done || (try rewrite Ec); apply Hh). by eapply Pop.
Qed.

(** The rings are FIFO queues across the wrap of their counters.  Whatever the program
    pushes and the kernel takes, in any interleaving and with the consumer the program caches as
    stale as it may be, the kernel takes exactly what was published, in order, with no
    descriptor overwritten before it is taken; a push takes exactly what there is room for. *)
Theorem ring_producer_fifo r0 s l :
  holds r0 [] -> rtc tx_step (mkTxSide r0 (rg_producer r0) (limit_load r0) [] []) s ->
  exists queue, ts_sent s = ts_taken s ++ queue /\ zlen queue = ring_count (ts_ring s)
    /\ zlen queue <= rg_entries r0
    /\ read_all (ts_ring s) (rg_consumer (ts_ring s)) 0 (length queue) = Ok queue
    /\ (ring_push l (ts_ring s) (ts_producer s) (ts_consumer s)).1 = Z.min (zlen l) (rg_entries r0 - zlen queue).
Proof.
  intros H0 St.
  assert (exists q, tx_inv (mkTxSide r0 (rg_producer r0) (limit_load r0) [] []) q /\ rg_entries r0 = rg_entries r0) as I0.
  { exists []. split; [|done]. constructor; cbn; [done|done| |done]. by rewrite (limit_slots r0 []). }
  assert (exists q, tx_inv s q /\ rg_entries (ts_ring s) = rg_entries r0) as (q & [Hh Ep Hr Hf] & Ee).
  { revert I0. set (s0 := mkTxSide _ _ _ _ _) in *. change (rg_entries r0) with (rg_entries (ts_ring s0)).
    clearbody s0. induction St as [|s0 s1 s2 St _ IH]; [done|]. intros (q & Iq & _).
    destruct (tx_step_inv _ _ _ Iq St) as (q1 & I1 & E1). destruct IH as (q2 & I2 & E2); [eauto|]. exists q2. split; [done|congruence]. }
  exists q. split; [done|]. split; [apply Hh|]. split; [rewrite <- Ee; apply Hh|]. split.
  - change 0 with (Z.of_nat 0). rewrite (read_all_holds _ q) by (done || lia). cbn [drop]. by rewrite firstn_all.
  - rewrite Ep in *. destruct (ring_push_spec l _ q _ Hh Hr) as (r' & p' & c' & -> & _). cbn. by rewrite Ee.
Qed.
(** C23. The kernel's rings.  What the program pops, with the batch of the RX ring or the loop of
    the completion ring, is exactly what the kernel published, in order and once; and the
    two ways of popping are the same function. *)
Theorem ring_consumer_fifo r0 s max :
  holds r0 [] -> rtc rx_step (mkRxSide r0 (rg_consumer r0) [] []) s -> 0 <= max ->
  exists queue, xs_sent s = xs_taken s ++ queue
    /\ loop_pop (xs_ring s) (xs_consumer s) max = batch_pop (xs_ring s) (xs_consumer s) max
    /\ exists r' c, batch_pop (xs_ring s) (xs_consumer s) max = Ok (take (Z.to_nat max) queue, (r', c)).
Proof.
  intros H0 St Hm.
  assert (exists q, rx_inv (mkRxSide r0 (rg_consumer r0) [] []) q) as I0 by (exists []; by constructor).
  assert (exists q, rx_inv s q) as (q & [Hh Ec Hf]).
  { revert I0. induction St as [|s0 s1 s2 St _ IH]; [done|]. intros (q & Iq).
    destruct (rx_step_inv _ _ _ Iq St) as (q1 & I1 & _). eauto. }
  exists q. split; [done|]. rewrite Ec. split; [apply loop_pop_batch; [apply Hh|apply Hh|done]|].
  assert (take (Z.to_nat (Z.min max (zlen q))) q = take (Z.to_nat max) q) as <-.
  { destruct (Z.le_gt_cases max (zlen q)); [f_equal; lia|]. rewrite !take_ge; [done|unfold zlen in *; lia..]. }
  destruct (batch_pop_spec _ q max Hh Hm) as (r' & E & _). eexists _, _. exact E.
Qed.
End Ring.

(** ** Witnesses *)
(** A ring of four slots whose counters are about to wrap. *)
Definition ring4 : Ring Z := mkRing (W32 - 2) (W32 - 2) (Some 0) [0; 0; 0; 0] 4.
Lemma ring4_holds : holds ring4 [].
Proof.
  constructor; [constructor|done..]; cbn; [|done|unfold W32; lia..]. exists 2. lia.
Qed.
Definition pushed4 : TxSide :=
  let '(n, (r, p, c)) := ring_push [10; 11; 12; 13; 14] ring4 (W32 - 2) (limit_load ring4) in
  mkTxSide r p c (take (Z.to_nat n) [10; 11; 12; 13; 14]) [].
(** As the tests of the repository: four of five fit and the producer is at 2. *)
Example ring_wraps : rg_producer (ts_ring pushed4) = 2 /\ ts_sent pushed4 = [10; 11; 12; 13].
Proof. vm_compute. auto. Qed.
Lemma ring_producer_fifo_witness :
  exists queue, ts_sent pushed4 = [] ++ queue /\ (ring_push [15] (ts_ring pushed4) (ts_producer pushed4) (ts_consumer pushed4)).1 = 0.
Proof.
  destruct (ring_producer_fifo ring4 pushed4 [15] ring4_holds) as (q & E1 & E2 & _ & _ & E3).
  - eapply rtc_l; [|apply rtc_refl]. exact (tx_push_step [10; 11; 12; 13; 14] (mkTxSide ring4 (rg_producer ring4) (limit_load ring4) [] []) 4
      (ts_ring pushed4) (ts_producer pushed4) (ts_consumer pushed4) ltac:(vm_compute; reflexivity)).
  - exists q. split; [exact E1|]. rewrite E3, E2. vm_compute. reflexivity.
Defined.
Definition filled4 : RxSide :=
  mkRxSide (publish ring4 (rg_producer ring4) [20; 21; 22]).1 (rg_consumer ring4) [20; 21; 22] [].
Lemma ring_consumer_fifo_witness : exists queue, [20; 21; 22] = [] ++ queue
  /\ loop_pop (xs_ring filled4) (xs_consumer filled4) 2 = batch_pop (xs_ring filled4) (xs_consumer filled4) 2.
Proof.
  destruct (ring_consumer_fifo ring4 filled4 2 ring4_holds) as (q & E1 & E2 & _); [| lia |exists q; exact (conj E1 E2)].
  eapply rtc_l; [|apply rtc_refl]. apply (rx_kernel_step [20; 21; 22] (mkRxSide ring4 (rg_consumer ring4) [] [])).
  vm_compute. discriminate.
Defined.
