(* ===== verification/XdpDevice.v ===== *)
(** * The AF_XDP device ([src/device/backend/af_xdp/device.rs])

    [XdpDevice] with the fields of its [UMem] and [XskSocket].  The kernel shares the four rings
    and the arena: [kernel k g a] is what the rings [g] and the frames [a] have become when
    the program looks for the [k]-th time.  It is an arbitrary function of which the code
    relies only on [kernel_ok]: the geometry does not change and memory holds bytes and 32-bit
    counters.  [xd_wakes] lists the system calls that wake the kernel.  The scratch vectors
    are values of the operations; [indices], which is as long as a batch, keeps its
    bound. *)
From Stdlib Require Import ZArith Lia Bool.
From stdpp Require Import base numbers option list.
From S2P Require Import Prelude BufferPool Device XdpRing.
#[local] Open Scope Z_scope.

Definition XDP_COPY : Z := 2.
Definition XDP_ZEROCOPY : Z := 4.
Definition XDP_USE_NEED_WAKEUP : Z := 8.
Definition XDP_UMEM_UNALIGNED_CHUNK_FLAG : Z := 1.
Definition XDP_OPTIONS_ZEROCOPY : Z := 1.
Definition XDP_RING_NEED_WAKEUP : Z := 1.

Inductive XdpMode : Type := XAuto | XCopy | XZeroCopy.
#[export] Instance XdpMode_eq_dec : EqDecision XdpMode.
Proof. solve_decision. Defined.
Record XdpConfig : Type := mkXdpConfig {
  xc_frames : Z; chunk_size : Z; xc_headroom : Z; fill_entries : Z; cq_entries : Z; rx_entries : Z;
  tx_entries : Z; xc_attach : bool; attach_generic : bool; max_queues : Z; xc_mode : XdpMode;
  batch_size : Z; tx_reserve : Z
}.
Definition xdp_config_default : XdpConfig :=
  mkXdpConfig 4096 4096 0 2048 2048 1024 1024 true false 64 XAuto 64 512.
Definition xdp_validate (c : XdpConfig) (queue : Z) : outcome unit :=
  let* _ := validate_ring_size (fill_entries c) in
  let* _ := validate_ring_size (cq_entries c) in
  let* _ := validate_ring_size (rx_entries c) in
  let* _ := validate_ring_size (tx_entries c) in
  if (xc_frames c <? 2) || (xc_frames c <=? tx_reserve c) || (batch_size c =? 0) || (4096 <? batch_size c)
     || negb (is_power_of_two (chunk_size c)) || (chunk_size c <? 2048) || (U32MAX <? chunk_size c)
     || (chunk_size c - 256 <? xc_headroom c) || (U64MAX <? xc_frames c * chunk_size c)
     || (max_queues c =? 0) || (max_queues c <=? queue)
     || (attach_generic c && bool_decide (xc_mode c = XZeroCopy))
  then Err InvalidInput else Ok tt.

(** How the redirect program ended up attached ([prog.rs]). *)
Inductive AttachMode : Type := AttachNone | AttachDriver | AttachGeneric | AlreadyAttached.
#[export] Instance AttachMode_eq_dec : EqDecision AttachMode.
Proof. solve_decision. Defined.
Record XdpSys : Type := mkXdpSys {
  sys_ifindex : outcome Z;
  sys_page : Z;
  sys_umem : outcome (Ring Z * Ring Z);
  sys_program : outcome unit;
  sys_attach : outcome AttachMode;
  sys_bind : Z -> outcome ((Ring (Z * Z) * Ring (Z * Z)) * Z);
  sys_socket : outcome unit
}.

Record XdpCounters : Type := mkXdpCounters {
  rx_packets : Z; tx_submitted : Z; tx_completed : Z; tx_backpressure : Z; invalid_descriptors : Z
}.
#[export] Instance eta_XdpCounters : Eta XdpCounters := fun c =>
  mkXdpCounters (rx_packets c) (tx_submitted c) (tx_completed c) (tx_backpressure c) (invalid_descriptors c).

(** The owner of a frame. *)
Inductive FrameState : Type := FREE | RX_KERNEL | APP | TX_KERNEL.
#[export] Instance FrameState_eq_dec : EqDecision FrameState.
Proof. solve_decision. Defined.

Record Rings : Type := mkRings { fq : Ring Z; cq : Ring Z; xrx : Ring (Z * Z); xtx : Ring (Z * Z) }.
#[export] Instance eta_Rings : Eta Rings := fun g => mkRings (fq g) (cq g) (xrx g) (xtx g).
Inductive XdpWake : Type := PollRx | KickTx.

Record XdpDevice : Type := mkXdpDevice {
  xd_rings : Rings;
  cached_fill_producer : Z; cached_fill_consumer : Z; cached_cq_consumer : Z;
  bind_flags : Z;
  cached_tx_producer : Z; cached_tx_consumer : Z; cached_rx_consumer : Z;
  xd_pool : PoolInner;
  xd_state : list FrameState;
  xd_cfg : XdpConfig;
  rx_owned : Z; rx_target : Z; tx_pending : Z;
  attach_mode : AttachMode;
  xd_counters : XdpCounters;
  xd_looks : nat;
  xd_wakes : list XdpWake
}.
#[export] Instance eta_XdpDevice : Eta XdpDevice := fun d =>
  mkXdpDevice (xd_rings d) (cached_fill_producer d) (cached_fill_consumer d) (cached_cq_consumer d) (bind_flags d)
    (cached_tx_producer d) (cached_tx_consumer d) (cached_rx_consumer d) (xd_pool d) (xd_state d) (xd_cfg d)
    (rx_owned d) (rx_target d) (tx_pending d) (attach_mode d) (xd_counters d) (xd_looks d) (xd_wakes d).

Definition decode_rx (addr len chunk frames : Z) : option (Z * Z) :=
  let idx := addr / chunk in
  let offset := addr mod chunk in
  if (idx <? frames) && (0 <? len) && (len <=? chunk - offset) then Some (idx, offset) else None.

Section Device.
Context (kernel : nat -> Rings -> list (list Z) -> Rings * list (list Z)).
Abbreviation D := XdpDevice.

(** The program looks at the memory it shares with the kernel. *)
Definition look (d : D) : D :=
  let '(g, a) := kernel (xd_looks d) (xd_rings d) (arena (xd_pool d)) in
  d <| xd_rings := g |> <| xd_pool := xd_pool d <| arena := a |> |> <| xd_looks ::= S |>.
Definition need_wakeup_enabled (d : D) : bool :=
  negb (Z.land (bind_flags d) XDP_USE_NEED_WAKEUP =? 0) && bool_decide (is_Some (rg_flags (xtx (xd_rings d)))).
Definition wake_tx (d : D) : D :=
  let d := look d in
  if negb (need_wakeup_enabled d) || negb (Z.land (flags_load (xtx (xd_rings d))) XDP_RING_NEED_WAKEUP =? 0)
  then d <| xd_wakes ::= fun w => w ++ [KickTx] |> else d.
Definition fill_needs_wakeup (d : D) : bool :=
  negb (Z.land (flags_load (fq (xd_rings d))) XDP_RING_NEED_WAKEUP =? 0).

(** ** Rings *)
Definition fill_push (addrs : list Z) (d : D) : Z * D :=
  let d := look d in
  let '(n, (r, producer, consumer)) :=
    ring_push addrs (fq (xd_rings d)) (cached_fill_producer d) (cached_fill_consumer d) in
  (n, d <| xd_rings ::= fun g => g <| fq := r |> |> <| cached_fill_producer := producer |>
        <| cached_fill_consumer := consumer |>).
Definition cq_pop (max : Z) (d : D) : outcome (list Z * D) :=
  let d := look d in
  let* '(l, (r, consumer)) := loop_pop (cq (xd_rings d)) (cached_cq_consumer d) max in
  Ok (l, d <| xd_rings ::= fun g => g <| cq := r |> |> <| cached_cq_consumer := consumer |>).
Definition tx_free_slots (needed : Z) (d : D) : Z * D :=
  let d := look d in
  let '(free, consumer) := free_slots needed (xtx (xd_rings d)) (cached_tx_producer d) (cached_tx_consumer d) in
  (free, d <| cached_tx_consumer := consumer |>).
Definition tx_push (descs : list (Z * Z)) (d : D) : Z * D :=
  let d := look d in
  let '(n, (r, producer, consumer)) :=
    ring_push descs (xtx (xd_rings d)) (cached_tx_producer d) (cached_tx_consumer d) in
  (n, d <| xd_rings ::= fun g => g <| xtx := r |> |> <| cached_tx_producer := producer |>
        <| cached_tx_consumer := consumer |>).
Definition rx_pop (max : Z) (d : D) : outcome (list (Z * Z) * D) :=
  let d := look d in
  let* '(l, (r, consumer)) := batch_pop (xrx (xd_rings d)) (cached_rx_consumer d) max in
  Ok (l, d <| xd_rings ::= fun g => g <| xrx := r |> |> <| cached_rx_consumer := consumer |>).

(** ** Frames *)
Definition set_state (idx : Z) (s : FrameState) (d : D) : outcome D :=
  let* l := set_at (xd_state d) idx s in Ok (d <| xd_state := l |>).
Fixpoint set_states (ids : list Z) (s : FrameState) (d : D) : outcome D :=
  match ids with
  | [] => Ok d
  | i :: ids => let* d := set_state i s d in set_states ids s d
  end.
Definition count_invalid (d : D) : D := d <| xd_counters ::= fun c => c <| invalid_descriptors ::= count 1 |> |>.

(** The loop of [drain_cq]; [valid] is [indices[..valid]]. *)
Fixpoint complete_all (addrs valid : list Z) (d : D) : outcome (list Z * D) :=
  match addrs with
  | [] => Ok (valid, d)
  | addr :: addrs =>
      let idx := addr / chunk_size (xd_cfg d) in
      if bool_decide (xd_state d !! Z.to_nat idx = Some TX_KERNEL) then
        let* d := set_state idx FREE d in
        if zlen valid <? batch_size (xd_cfg d) then complete_all addrs (valid ++ [idx]) d else Panic
      else complete_all addrs valid (count_invalid d)
  end.
(** [a - b] on [usize]. *)
Definition usub (a b : Z) : outcome Z := if b <=? a then Ok (a - b) else Panic.
Definition drain_cq (d : D) : outcome (Z * D) :=
  let* '(addrs, d) := cq_pop (batch_size (xd_cfg d)) d in
  let* '(valid, d) := complete_all addrs [] d in
  let* p := free_n (xd_pool d) valid in
  let* pending := usub (tx_pending d) (zlen valid) in
  Ok (zlen addrs,
      d <| xd_pool := p |> <| tx_pending := pending |>
        <| xd_counters ::= fun c => c <| tx_completed ::= count (zlen valid) |> |>).
(** The [while budget > 0] loop of [refill]. *)
Fixpoint refill_loop (fuel : nat) (budget : Z) (d : D) : outcome D :=
  if 0 <? budget then
    match fuel with
    | O => OutOfFuel
    | S fuel =>
        let limit := Z.min budget (batch_size (xd_cfg d)) in
        let* '(ids, p) := alloc_n (xd_pool d) limit in
        let '(pushed, d) := fill_push ((fun i => i * chunk_size (xd_cfg d)) <$> ids) (d <| xd_pool := p |>) in
        let* d := set_states (take (Z.to_nat pushed) ids) RX_KERNEL d in
        let* p := free_n (xd_pool d) (drop (Z.to_nat pushed) ids) in
        let d := d <| xd_pool := p |> <| rx_owned ::= Z.add pushed |> in
        if pushed <? limit then Ok d else refill_loop fuel (budget - pushed) d
    end
  else Ok d.
Definition refill (d : D) : outcome D :=
  let* room := usub (rx_target d) (rx_owned d) in
  let budget := Z.min room (Z.max 0 (available (xd_pool d) - tx_reserve (xd_cfg d))) in
  let* d := refill_loop (S (Z.to_nat budget)) budget d in
  let d := look d in
  if negb (need_wakeup_enabled d) || fill_needs_wakeup d
  then Ok (d <| xd_wakes ::= fun w => w ++ [PollRx] |>) else Ok d.
Definition progress (d : D) : outcome (Z * D) :=
  let* '(n, d) := drain_cq d in
  let* d := refill d in
  Ok (n, if 0 <? tx_pending d then wake_tx d else d).

(** ** The device operations *)
Definition xd_drop (b : PacketBuf) : ST D unit := fun d =>
  match drop_packet (xd_pool d) b with
  | Ok p => (Ok tt, d <| xd_pool := p |>)
  | r => (recast r, d)
  end.
Fixpoint xd_clear (out : list PacketBuf) (d : D) : outcome unit * D :=
  match out with
  | [] => (Ok tt, d)
  | b :: out => then_ (xd_drop b d) id (fun _ d => xd_clear out d)
  end.
(** One received descriptor. *)
Definition take_desc (desc : Z * Z) (out : list PacketBuf) (d : D) : outcome (list PacketBuf * D) :=
  let '(addr, len) := desc in
  match decode_rx addr len (chunk_size (xd_cfg d)) (xc_frames (xd_cfg d)) with
  | None => Ok (out, count_invalid d)
  | Some (idx, offset) =>
      let* s := get_at (xd_state d) idx in
      if negb (bool_decide (s = RX_KERNEL)) then Ok (out, count_invalid d)
      else
        let* rest := usub (rx_owned d) 1 in
        let* d := set_state idx APP (d <| rx_owned := rest |>) in
        let* buf := packet_buf (xd_pool d) idx 0 in
        let* buf := set_headroom buf offset in
        let* buf := set_len buf len in
        Ok (out ++ [buf], d)
  end.
Fixpoint take_descs (descs : list (Z * Z)) (out : list PacketBuf) (d : D) : outcome (list PacketBuf * D) :=
  match descs with
  | [] => Ok (out, d)
  | desc :: descs => let* '(out, d) := take_desc desc out d in take_descs descs out d
  end.
Definition xd_recv (max : Z) : ST (D * list PacketBuf) Z := fun s =>
  then_ (xd_clear s.2 s.1) (fun d => (d, [])) (fun _ d =>
    match
      (let* '(done_, d) := progress d in
       let* '(descs, d) := rx_pop (Z.min max (batch_size (xd_cfg d))) d in
       take_descs descs [] d)
    with
    | Ok (out, d) =>
        (Ok (zlen out), (d <| xd_counters ::= fun c => c <| rx_packets ::= count (zlen out) |> |>, out))
    | r => (recast r, (d, []))
    end).

Definition sendable (d : D) (b : PacketBuf) : bool :=
  bool_decide (buf_pool b = Some (pool_id (xd_pool d))) && negb (is_empty b).
(** The loop that takes the frames: their bytes stay in the arena for the kernel. *)
Fixpoint submit_all (frames : list PacketBuf) (d : D) : outcome (list (Z * Z) * D) :=
  match frames with
  | [] => Ok ([], d)
  | b :: frames =>
      let '(idx, len) := into_parts b in
      let* d := set_state idx TX_KERNEL d in
      let* a := set_at (arena (xd_pool d)) idx (buf_mem b) in
      let* '(descs, d) := submit_all frames (d <| xd_pool ::= fun p => p <| arena := a |> |>) in
      Ok ((idx * chunk_size (xd_cfg d) + data_offset b, u32 len) :: descs, d)
  end.
Definition submit (n : Z) (frames : list PacketBuf) (d : D) : outcome D :=
  let* '(descs, d) := submit_all (take (Z.to_nat n) frames) d in
  let '(pushed, d) := tx_push descs d in
  if negb (pushed =? n) then Panic
  else
    let d := d <| tx_pending ::= Z.add n |>
               <| xd_counters ::= fun c => c <| tx_submitted ::= count n |> |> in
    Ok (if 0 <? tx_pending d then wake_tx d else d).
Definition xd_send : ST (D * list PacketBuf) Z := fun s =>
  let '(d, frames) := s in
  match drain_cq d with
  | Ok (_, d) =>
      let requested := Z.min (zlen frames) (batch_size (xd_cfg d)) in
      let '(free, d) := tx_free_slots requested d in
      let n := Z.min requested free in
      let d := if n <? requested
               then d <| xd_counters ::= fun c => c <| tx_backpressure ::= count 1 |> |> else d in
      if negb (forallb (sendable d) (take (Z.to_nat n) frames)) then (Err InvalidInput, (d, frames))
      else
        match submit n frames d with
        | Ok d => (Ok n, (d, replicate (Z.to_nat n) packet_default ++ drop (Z.to_nat n) frames))
        | r => (recast r, (d, frames))
        end
  | r => (recast r, (d, frames))
  end.
Definition headroom_buf (d : D) (idx : Z) : outcome PacketBuf :=
  let* b := packet_buf (xd_pool d) idx 0 in set_headroom b (xc_headroom (xd_cfg d)).
Definition alloc_frame (d : D) : outcome (option PacketBuf * D) :=
  let* d := if available (xd_pool d) =? 0 then (let* '(done_, d) := progress d in Ok d) else Ok d in
  let* '(i, p) := alloc (xd_pool d) in
  let d := d <| xd_pool := p |> in
  match i with
  | None => Ok (None, d)
  | Some i =>
      let* d := set_state i APP d in
      let* b := headroom_buf d i in
      Ok (Some b, d)
  end.
Definition xd_alloc : ST D (option PacketBuf) := fun d =>
  match alloc_frame d with
  | Ok (b, d) => (Ok b, d)
  | r => (recast r, d)
  end.
Fixpoint batch_bufs (ids : list Z) (out : list PacketBuf) (d : D) : outcome (list PacketBuf * D) :=
  match ids with
  | [] => Ok (out, d)
  | i :: ids =>
      let* d := set_state i APP d in
      let* b := headroom_buf d i in
      batch_bufs ids (out ++ [b]) d
  end.
Definition xd_alloc_batch (max : Z) (out : list PacketBuf) (d : D) : outcome (Z * (list PacketBuf * D)) :=
  let* '(done_, d) := drain_cq d in
  let* '(ids, p) := alloc_n (xd_pool d) (Z.min max (batch_size (xd_cfg d))) in
  let* s := batch_bufs ids out (d <| xd_pool := p |>) in
  Ok (zlen ids, s).

(** ** Construction *)
(** [sys] is what the system calls between the checks answer: the interface index, the page
    size, the mapped fill and completion rings, the loaded program, the attachment, the mapped
    RX and TX rings with the socket options after [bind] with some flags, and the XSKMAP
    update.  [frames] is the fresh arena. *)
Definition umem_valid (num_frames chunk headroom fill cqe flags page : Z) : outcome unit :=
  let* _ := validate_ring_size fill in
  let* _ := validate_ring_size cqe in
  if (num_frames =? 0) || (chunk <? 2048) || (page <? chunk) || (chunk - 256 <? headroom)
     || negb (Z.land flags (Z.lnot XDP_UMEM_UNALIGNED_CHUNK_FLAG) =? 0)
     || ((flags =? 0) && negb (is_power_of_two chunk))
  then Err InvalidInput else Ok tt.
Definition socket_flags_valid (rxe txe flags : Z) : outcome unit :=
  let* _ := validate_ring_size rxe in
  let* _ := validate_ring_size txe in
  let copies := Z.lor XDP_COPY XDP_ZEROCOPY in
  if negb (Z.land flags (Z.lnot (Z.lor copies XDP_USE_NEED_WAKEUP)) =? 0) || (Z.land flags copies =? copies)
  then Err InvalidInput else Ok tt.
(** The bind flags a socket reports, from the requested ones and the kernel's options. *)
Definition active_flags (flags options : Z) : outcome Z :=
  let active := if negb (Z.land options XDP_OPTIONS_ZEROCOPY =? 0) then XDP_ZEROCOPY else XDP_COPY in
  if negb (Z.land flags XDP_ZEROCOPY =? 0) && negb (active =? XDP_ZEROCOPY) then Err Unsupported
  else Ok (Z.lor (Z.land flags (Z.lnot (Z.lor XDP_COPY XDP_ZEROCOPY))) active).
Definition requested_flags (c : XdpConfig) (mode : AttachMode) : Z :=
  Z.lor XDP_USE_NEED_WAKEUP
    match xc_mode c with
    | XZeroCopy => XDP_ZEROCOPY
    | XCopy => XDP_COPY
    | XAuto => if bool_decide (mode = AttachGeneric) then XDP_COPY else 0
    end.
Definition xdp_with_config (c : XdpConfig) (queue id : Z) (frames : list (list Z)) (sys : XdpSys) : outcome D :=
  let* _ := xdp_validate c queue in
  let* _ := sys_ifindex sys in
  let* _ := umem_valid (xc_frames c) (chunk_size c) (xc_headroom c) (fill_entries c) (cq_entries c) 0 (sys_page sys) in
  let* umem := sys_umem sys in
  let* _ := sys_program sys in
  let* mode := if xc_attach c then sys_attach sys else Ok AttachNone in
  if bool_decide (mode = AlreadyAttached) then Err AlreadyExists
  else if bool_decide (mode = AttachGeneric) && bool_decide (xc_mode c = XZeroCopy) then Err Unsupported
  else
    let flags := requested_flags c mode in
    let* _ := socket_flags_valid (rx_entries c) (tx_entries c) flags in
    let* '(rings, options) := sys_bind sys flags in
    let* bound := active_flags flags options in
    let d := mkXdpDevice (mkRings umem.1 umem.2 rings.1 rings.2) 0 (u32 (fill_entries c)) 0 bound
               0 (u32 (tx_entries c)) 0
               (build id (chunk_size c) (xc_frames c) frames)
               (replicate (Z.to_nat (xc_frames c)) FREE) c
               0 (Z.min (fill_entries c) (xc_frames c - tx_reserve c)) 0 mode (mkXdpCounters 0 0 0 0 0) 0 [] in
    let* d := refill d in
    let* _ := sys_socket sys in
    Ok d.

Definition xdp_new : Z -> Z -> list (list Z) -> XdpSys -> outcome D := xdp_with_config xdp_config_default.
Definition is_zero_copy (d : D) : bool := negb (Z.land (bind_flags d) XDP_ZEROCOPY =? 0).

#[export] Instance xdp_device : Device XdpDevice := {|
  dev_poll_at := fun _ d => (Ok tt, d);
  dev_recv := xd_recv;
  dev_send := xd_send;
  dev_alloc := xd_alloc;
  dev_drop := xd_drop;
  dev_frame_size := fun d => chunk_size (xd_cfg d)
|}.
End Device.
