(* ===== verification/XdpInv.v ===== *)
(** * Ownership of the frames of an AF_XDP device

    Every frame is free, with the kernel for RX or TX, or outside the device, whatever the
    kernel writes into the shared rings; the device keeps the device laws. *)
From Stdlib Require Import ZArith Lia Bool.
From stdpp Require Import base numbers option list.
From S2P Require Import Prelude BufferPool Device XdpRing XdpDevice.
#[local] Open Scope Z_scope.

(** ** The frames in one state *)
Definition in_state (s : FrameState) (st : list FrameState) : list Z :=
  filter (fun i => st !! Z.to_nat i = Some s) (indices (zlen st)).
Lemma elem_in_state s st i : i ∈ in_state s st <-> 0 <= i /\ st !! Z.to_nat i = Some s.
Proof.
  unfold in_state. rewrite list_elem_of_filter, elem_of_indices. split; [intuition|]. intros [Hi E]. split; [done|].
  apply lookup_lt_Some in E. unfold zlen. lia.
Qed.
Lemma NoDup_in_state s st : NoDup (in_state s st).
Proof. apply NoDup_filter, NoDup_indices. Qed.
(** A frame moves from one state to another. *)
Lemma in_state_enter st i s s0 :
  0 <= i -> st !! Z.to_nat i = Some s0 -> s0 <> s -> in_state s (<[Z.to_nat i := s]> st) ≡ₚ i :: in_state s st.
Proof.
  intros Hi E Hs. pose proof (lookup_lt_Some _ _ _ E). apply NoDup_Permutation; [apply NoDup_in_state| |].
  - constructor; [|apply NoDup_in_state]. rewrite elem_in_state. intros [_ E']. congruence.
  - intros j. rewrite elem_of_cons, !elem_in_state. destruct (decide (j = i)) as [-> |Hj].
    + rewrite list_lookup_insert_eq by done. tauto.
    + destruct (decide (0 <= j)); [|intuition]. rewrite list_lookup_insert_ne by lia. tauto.
Qed.
Lemma in_state_other st i s s0 s1 :
  0 <= i -> st !! Z.to_nat i = Some s0 -> s1 <> s0 -> s1 <> s -> in_state s1 (<[Z.to_nat i := s]> st) = in_state s1 st.
Proof.
  intros Hi E H0 H1. unfold in_state, zlen. rewrite length_insert. apply list_filter_iff. intros j.
  destruct (decide (Z.to_nat j = Z.to_nat i)) as [Ej|Ej]; [|by rewrite list_lookup_insert_ne].
  rewrite Ej, list_lookup_insert_eq by (by eapply lookup_lt_Some). rewrite E. split; congruence.
Qed.
Lemma in_state_leave st i s s0 :
  0 <= i -> st !! Z.to_nat i = Some s0 -> s0 <> s -> in_state s0 st ≡ₚ i :: in_state s0 (<[Z.to_nat i := s]> st).
Proof.
  intros Hi E Hs. pose proof (lookup_lt_Some _ _ _ E).
  rewrite <- (in_state_enter (<[Z.to_nat i := s]> st) i s0 s Hi); [|by rewrite list_lookup_insert_eq|congruence].
  by rewrite list_insert_insert_eq, list_insert_id.
Qed.
Definition with_kernel (st : list FrameState) : list Z := in_state RX_KERNEL st ++ in_state TX_KERNEL st.
Lemma in_state_disjoint s s' st i : i ∈ in_state s st -> i ∈ in_state s' st -> s = s'.
Proof. rewrite !elem_in_state. intros [_ ?] [_ ?]. congruence. Qed.

(** ** What is relied on of the kernel *)
Definition frame_ok (size : Z) (m : list Z) : Prop := zlen m = size /\ bytes_ok m.
Record rings_ok (g : Rings) : Prop := {
  ro_fq : ring_shape (fq g); ro_cq : ring_shape (cq g); ro_rx : ring_shape (xrx g); ro_tx : ring_shape (xtx g);
  ro_done : Forall (fun a => 0 <= a) (rg_desc (cq g));
  ro_received : Forall (fun d => 0 <= d.1 /\ 0 <= d.2) (rg_desc (xrx g))
}.
(** The kernel keeps the geometry of the rings and of the arena; counters are 32-bit words,
    descriptors unsigned and memory bytes. *)
Definition kernel_ok (kernel : nat -> Rings -> list (list Z) -> Rings * list (list Z)) : Prop :=
  forall k g a size, rings_ok g -> Forall (frame_ok size) a ->
    rings_ok (kernel k g a).1 /\ length (kernel k g a).2 = length a /\ Forall (frame_ok size) (kernel k g a).2.

Section Inv.
Context (kernel : nat -> Rings -> list (list Z) -> Rings * list (list Z)) (Hk : kernel_ok kernel).
Implicit Types d : XdpDevice.
Abbreviation look := (look kernel).

(** [kr] and [kt] frames are between the accounts of the kernel's frames. *)
Record xcore d (held : list Z) (kr kt : Z) : Prop := {
  xo_pool : pool_inv (xd_pool d) (with_kernel (xd_state d) ++ held);
  xo_size : frame_size (xd_pool d) = chunk_size (xd_cfg d);
  xo_frames : num_frames (xd_pool d) = xc_frames (xd_cfg d);
  xo_state : zlen (xd_state d) = num_frames (xd_pool d);
  xo_rx : zlen (in_state RX_KERNEL (xd_state d)) = rx_owned d + kr;
  xo_tx : zlen (in_state TX_KERNEL (xd_state d)) + kt = tx_pending d;
  xo_target : rx_owned d + kr <= rx_target d;
  xo_bytes : Forall (frame_ok (chunk_size (xd_cfg d))) (arena (xd_pool d));
  xo_rings : rings_ok (xd_rings d);
  xo_caches : 0 <= cached_cq_consumer d < W32 /\ 0 <= cached_rx_consumer d < W32;
  xo_batch : 0 < batch_size (xd_cfg d);
  xo_headroom : 0 <= xc_headroom (xd_cfg d) <= chunk_size (xd_cfg d)
}.
Definition xdp_inv d (held : list Z) : Prop := xcore d held 0 0.
(** What no operation changes. *)
Definition xsame d d' : Prop :=
  xd_cfg d' = xd_cfg d /\ pool_id (xd_pool d') = pool_id (xd_pool d) /\ rx_target d' = rx_target d.
Lemma xsame_refl d : xsame d d.
Proof. done. Qed.
Lemma xsame_trans d1 d2 d3 : xsame d1 d2 -> xsame d2 d3 -> xsame d1 d3.
Proof. unfold xsame. intuition congruence. Qed.
Lemma xcore_perm d h k kr kt : h ≡ₚ k -> xcore d h kr kt -> xcore d k kr kt.
Proof. intros E []. constructor; try done. by rewrite <- E. Qed.

Lemma look_core d held kr kt : xcore d held kr kt -> xcore (look d) held kr kt.
Proof.
  intros []. unfold XdpDevice.look. destruct (Hk (xd_looks d) (xd_rings d) (arena (xd_pool d)) _ xo_rings0 xo_bytes0) as (G & L & F).
  destruct (kernel _ _ _) as [g a]. cbn in *. constructor; cbn; try done. destruct xo_pool0. constructor; cbn; try done; try congruence.
  rewrite xo_size0. eapply Forall_impl; [exact F|]. by intros m [? _].
Qed.
Lemma look_same d : xsame d (look d) /\ xd_state (look d) = xd_state d /\ rx_owned (look d) = rx_owned d
  /\ tx_pending (look d) = tx_pending d /\ cached_tx_producer (look d) = cached_tx_producer d
  /\ cached_tx_consumer (look d) = cached_tx_consumer d /\ free_count (xd_pool (look d)) = free_count (xd_pool d).
Proof. unfold XdpDevice.look. by destruct (kernel _ _ _). Qed.
(** Reading memory of the right shape never fails. *)
Lemma read_all_total {A} (r : Ring A) consumer i n (P : A -> Prop) :
  ring_shape r -> Forall P (rg_desc r) -> exists l, read_all r consumer i n = Ok l /\ length l = n /\ Forall P l.
Proof.
  intros Sh F. revert i. induction n as [|n IH]; intros i; cbn [read_all]; [by exists []|].
  pose proof (index_range r (consumer + i) Sh) as Hi. pose proof (sh_desc r Sh).
  destruct (lookup_lt_is_Some_2 (rg_desc r) (Z.to_nat (index r (u32 (consumer + i))))) as [v Hv]; [unfold zlen in *; lia|].
  unfold read_desc. rewrite (get_at_ok _ _ v) by (done || lia). cbn [obind]. destruct (IH (i + 1)) as (l & -> & L & Fl).
  exists (v :: l). split; [done|]. split; [cbn; lia|]. constructor; [|done]. rewrite Forall_forall in F.
  eauto using list_elem_of_lookup_2.
Qed.
Lemma release_shape {A} (r : Ring A) consumer n :
  ring_shape r -> ring_shape (release r consumer n).1 /\ rg_desc (release r consumer n).1 = rg_desc r
  /\ 0 <= (release r consumer n).2 < W32.
Proof.
  intros Sh. unfold release. cbn. split; [|split; [by destruct (0 <? n)|apply u32_range]].
  destruct (0 <? n); [|done]. destruct Sh. constructor; cbn; try done. apply u32_range.
Qed.
Lemma batch_pop_total {A} (r : Ring A) consumer max (P : A -> Prop) :
  ring_shape r -> Forall P (rg_desc r) -> 0 <= max ->
  exists l r' c, batch_pop r consumer max = Ok (l, (r', c)) /\ zlen l <= max /\ Forall P l
    /\ ring_shape r' /\ rg_desc r' = rg_desc r /\ 0 <= c < W32.
Proof.
  intros Sh F Hm. unfold batch_pop. set (n := Z.min max _). pose proof (u32_range (rg_producer r - consumer)).
  destruct (read_all_total r consumer 0 (Z.to_nat n) P Sh F) as (l & -> & L & Fl). cbn [obind].
  destruct (release_shape r consumer n Sh) as (S1 & E1 & C1). destruct (release r consumer n) as [r' c]. cbn in *.
  eexists _, _, _. split; [done|]. split; [unfold zlen, n in *; lia|]. done.
Qed.
Lemma publish_shape {A} (r : Ring A) producer l : ring_shape r -> ring_shape (publish r producer l).1.
Proof.
  intros Sh. unfold publish. cbn. destruct (write_all_same r producer 0 l Sh) as (S1 & _).
  destruct (0 <? zlen l); [|done]. destruct S1. constructor; cbn; try done. apply u32_range.
Qed.
Lemma ring_push_total {A} (l : list A) (r : Ring A) producer consumer :
  ring_shape r -> exists n r' p c, ring_push l r producer consumer = (n, (r', p, c)) /\ 0 <= n <= zlen l /\ ring_shape r'.
Proof.
  intros Sh. unfold ring_push. destruct (free_slots (zlen l) r producer consumer) as [free c] eqn:E.
  assert (0 <= free) by (unfold free_slots, slots_between in E; destruct (_ <? _); injection E as <- <-; apply u32_range).
  pose proof (publish_shape r producer (take (Z.to_nat (Z.min (zlen l) free)) l) Sh) as Sp. destruct (publish _ _ _) as [r' p]. cbn in Sp.
  pose proof (zlen_nonneg l). eexists _, _, _, _. split; [done|]. split; [lia|done].
Qed.

(** ** Moving frames *)
(** Only rings, caches and counters change. *)
Lemma xcore_rings d held kr kt g fp fc cc tp tc rc w :
  xcore d held kr kt -> rings_ok g -> 0 <= cc < W32 -> 0 <= rc < W32 ->
  xcore (d <| xd_rings := g |> <| cached_fill_producer := fp |> <| cached_fill_consumer := fc |>
           <| cached_cq_consumer := cc |> <| cached_tx_producer := tp |> <| cached_tx_consumer := tc |>
           <| cached_rx_consumer := rc |> <| xd_wakes := w |>) held kr kt.
Proof. intros [] G Hc Hr. by constructor. Qed.
Lemma xcore_counters d held kr kt c : xcore d held kr kt -> xcore (d <| xd_counters := c |>) held kr kt.
Proof. intros []. by constructor. Qed.
Lemma held_state d held kr kt i :
  xcore d held kr kt -> i ∈ held ->
  exists s, 0 <= i /\ xd_state d !! Z.to_nat i = Some s /\ s <> RX_KERNEL /\ s <> TX_KERNEL.
Proof.
  intros C Hi. pose proof (xo_pool _ _ _ _ C) as P. assert (0 <= i < num_frames (xd_pool d)) as Hr.
  { apply (inv_held_range _ _ P). apply elem_of_app. by right. }
  pose proof (xo_state _ _ _ _ C) as Ls.
  destruct (lookup_lt_is_Some_2 (xd_state d) (Z.to_nat i)) as [s E]; [unfold zlen in *; lia|].
  pose proof (inv_nodup _ _ P) as N. apply NoDup_app in N as (_ & _ & N). apply NoDup_app in N as (_ & Nd & _).
  exists s. split; [lia|]. split; [done|]. unfold with_kernel in Nd. split; intros ->; eapply Nd; try exact Hi; apply elem_of_app;
    [left|right]; apply elem_in_state; auto with lia.
Qed.
Lemma set_state_ok d i s s0 :
  0 <= i -> xd_state d !! Z.to_nat i = Some s0 -> set_state i s d = Ok (d <| xd_state := <[Z.to_nat i := s]> (xd_state d) |>).
Proof. intros Hi E. apply lookup_lt_Some in E. unfold set_state. rewrite set_at_ok; [done|]. unfold zlen. lia. Qed.
Lemma pool_inv_perm p h k : h ≡ₚ k -> pool_inv p h -> pool_inv p k.
Proof.
  intros E []. constructor; try done.
  - destruct inv_flags as [L F]. split; [done|]. intros i Hi. rewrite (F i Hi). f_equal. apply bool_decide_ext. by rewrite E.
  - by rewrite <- E.
Qed.
(** A frame from outside stays outside, whatever the table says of it. *)
Lemma set_outside d held kr kt i s :
  xcore d held kr kt -> i ∈ held -> s <> RX_KERNEL -> s <> TX_KERNEL ->
  exists d', set_state i s d = Ok d' /\ xcore d' held kr kt /\ d' = d <| xd_state := <[Z.to_nat i := s]> (xd_state d) |>.
Proof.
  intros C Hi N1 N2. destruct (held_state _ _ _ _ _ C Hi) as (s0 & H0 & E & M1 & M2).
  eexists. split; [by eapply set_state_ok|]. split; [|done].
  assert (in_state RX_KERNEL (<[Z.to_nat i:=s]> (xd_state d)) = in_state RX_KERNEL (xd_state d)) as Er by (by eapply in_state_other).
  assert (in_state TX_KERNEL (<[Z.to_nat i:=s]> (xd_state d)) = in_state TX_KERNEL (xd_state d)) as Et by (by eapply in_state_other).
  destruct C. constructor; cbn; try done; unfold with_kernel in *; rewrite ?Er, ?Et; try done.
  unfold zlen in *. by rewrite length_insert.
Qed.
(** A frame from outside goes to the kernel for RX or TX. *)
Lemma give_rx d held kr kt i :
  xcore d (i :: held) kr kt -> rx_owned d + kr < rx_target d ->
  exists d', set_state i RX_KERNEL d = Ok d' /\ xcore d' held (kr + 1) kt
    /\ d' = d <| xd_state := <[Z.to_nat i := RX_KERNEL]> (xd_state d) |>.
Proof.
  intros C Ht. destruct (held_state _ _ _ _ i C) as (s0 & H0 & E & M1 & M2); [left|].
  eexists. split; [by eapply set_state_ok|]. split; [|done].
  pose proof (in_state_enter _ _ RX_KERNEL _ H0 E M1) as Er.
  assert (in_state TX_KERNEL (<[Z.to_nat i:=RX_KERNEL]> (xd_state d)) = in_state TX_KERNEL (xd_state d)) as Et by (by eapply in_state_other).
  destruct C. constructor; cbn; try done; rewrite ?Et; try done; try lia.
  - eapply pool_inv_perm; [|exact xo_pool0]. unfold with_kernel. rewrite Er, Et. rewrite <- Permutation_middle. by rewrite !app_comm_cons.
  - unfold zlen in *. by rewrite length_insert.
  - unfold zlen in *. rewrite Er. cbn. lia.
Qed.
Lemma give_tx d held kr kt i :
  xcore d (i :: held) kr kt ->
  exists d', set_state i TX_KERNEL d = Ok d' /\ xcore d' held kr (kt - 1)
    /\ d' = d <| xd_state := <[Z.to_nat i := TX_KERNEL]> (xd_state d) |>.
Proof.
  intros C. destruct (held_state _ _ _ _ i C) as (s0 & H0 & E & M1 & M2); [left|].
  eexists. split; [by eapply set_state_ok|]. split; [|done].
  pose proof (in_state_enter _ _ TX_KERNEL _ H0 E M2) as Et.
  assert (in_state RX_KERNEL (<[Z.to_nat i:=TX_KERNEL]> (xd_state d)) = in_state RX_KERNEL (xd_state d)) as Er by (by eapply in_state_other).
  destruct C. constructor; cbn; try done; rewrite ?Er; try done.
  - eapply pool_inv_perm; [|exact xo_pool0]. unfold with_kernel. rewrite Er, Et. rewrite <- Permutation_middle, <- !app_assoc. cbn.
    by rewrite <- Permutation_middle.
  - unfold zlen in *. by rewrite length_insert.
  - unfold zlen in *. rewrite Et. cbn. lia.
Qed.
(** A frame comes back from the kernel. *)
Lemma take_rx d held kr kt i :
  xcore d held kr kt -> 0 <= i -> xd_state d !! Z.to_nat i = Some RX_KERNEL ->
  exists d', set_state i APP d = Ok d' /\ xcore d' (i :: held) (kr - 1) kt
    /\ d' = d <| xd_state := <[Z.to_nat i := APP]> (xd_state d) |>.
Proof.
  intros C H0 E. eexists. split; [by eapply set_state_ok|]. split; [|done].
  pose proof (in_state_leave _ _ APP _ H0 E ltac:(done)) as Er.
  assert (in_state TX_KERNEL (<[Z.to_nat i:=APP]> (xd_state d)) = in_state TX_KERNEL (xd_state d)) as Et by (by eapply in_state_other).
  destruct C. constructor; cbn; try done; rewrite ?Et; try done; try lia.
  - eapply pool_inv_perm; [|exact xo_pool0]. unfold with_kernel. rewrite Et, Er. rewrite <- Permutation_middle. by rewrite !app_comm_cons.
  - unfold zlen in *. by rewrite length_insert.
  - unfold zlen in *. rewrite Er in xo_rx0. cbn in xo_rx0. lia.
Qed.
Lemma take_tx d held kr kt i :
  xcore d held kr kt -> 0 <= i -> xd_state d !! Z.to_nat i = Some TX_KERNEL ->
  exists d', set_state i FREE d = Ok d' /\ xcore d' (i :: held) kr (kt + 1)
    /\ d' = d <| xd_state := <[Z.to_nat i := FREE]> (xd_state d) |>.
Proof.
  intros C H0 E. eexists. split; [by eapply set_state_ok|]. split; [|done].
  pose proof (in_state_leave _ _ FREE _ H0 E ltac:(done)) as Et.
  assert (in_state RX_KERNEL (<[Z.to_nat i:=FREE]> (xd_state d)) = in_state RX_KERNEL (xd_state d)) as Er by (by eapply in_state_other).
  destruct C. constructor; cbn; try done; rewrite ?Er; try done.
  - eapply pool_inv_perm; [|exact xo_pool0]. unfold with_kernel. rewrite Er, Et. rewrite <- !app_assoc. cbn.
    by rewrite <- !Permutation_middle.
  - unfold zlen in *. by rewrite length_insert.
  - unfold zlen in *. rewrite Et in xo_tx0. cbn in xo_tx0. lia.
Qed.

(** ** Completions *)
Lemma complete_all_spec addrs valid d held kr kt :
  xcore d (valid ++ held) kr (kt + zlen valid) -> Forall (fun a => 0 <= a) addrs ->
  zlen valid + zlen addrs <= batch_size (xd_cfg d) -> 0 < chunk_size (xd_cfg d) ->
  exists valid' d', complete_all addrs valid d = Ok (valid', d') /\ xcore d' (valid' ++ held) kr (kt + zlen valid') /\ xsame d d'.
Proof.
  intros C F. revert valid d C. induction F as [|a addrs Ha F IH]; intros valid d C L Hc; cbn [complete_all].
  { exists valid, d. done. }
  rewrite zlen_cons in L. pose proof (zlen_nonneg addrs). pose proof (zlen_nonneg valid).
  case_bool_decide as E.
  - pose proof (Z.div_pos a _ Ha Hc) as Hi. destruct (take_tx _ _ _ _ _ C Hi E) as (d1 & -> & C1 & E1). cbn [obind].
    assert (xd_cfg d1 = xd_cfg d) as Ec by (by subst d1). rewrite Ec. rewrite (proj2 (Z.ltb_lt _ _)) by lia.
    set (i := a / chunk_size (xd_cfg d)) in *.
    destruct (IH (valid ++ [i]) d1) as (v' & d' & -> & C' & S'); [|rewrite Ec, zlen_app, zlen_cons, zlen_nil; lia|by rewrite Ec|].
    + replace (kt + zlen (valid ++ [i])) with (kt + zlen valid + 1) by (rewrite zlen_app, zlen_cons, zlen_nil; lia).
      eapply xcore_perm; [|exact C1]. rewrite <- app_assoc. cbn. by rewrite <- Permutation_middle.
    + exists v', d'. split; [done|]. split; [done|]. eapply xsame_trans; [|exact S']. by subst d1.
  - destruct (IH valid (count_invalid d)) as (v' & d' & -> & C' & S'); [by apply xcore_counters|cbn; lia|done|].
    exists v', d'. done.
Qed.
Lemma complete_rx addrs valid d v d' : complete_all addrs valid d = Ok (v, d') -> rx_owned d' = rx_owned d.
Proof.
  revert valid d. induction addrs as [|a addrs IH]; intros valid d; cbn [complete_all]; [by intros [= _ <-]|].
  case_bool_decide; [|intros E; by rewrite (IH _ _ E)]. unfold set_state. destruct (set_at _ _ _); try done. cbn [obind].
  destruct (_ <? _); [|done]. intros E. by rewrite (IH _ _ E).
Qed.
Lemma free_frames d ids held kr kt :
  xcore d (ids ++ held) kr kt ->
  exists p, free_n (xd_pool d) ids = Ok p /\ xcore (d <| xd_pool := p |>) held kr kt /\ pool_id p = pool_id (xd_pool d)
    /\ free_count p = free_count (xd_pool d) + zlen ids.
Proof.
  intros C. pose proof (xo_pool _ _ _ _ C) as P.
  destruct (free_n_spec _ _ (with_kernel (xd_state d) ++ held) ids P) as (p & E & P' & Fc & Ea & Ei & Es & En).
  { by rewrite Permutation_app_swap_app. }
  exists p. split; [done|]. split; [|done]. destruct C. constructor; cbn; try done; rewrite ?Es, ?En, ?Ea; done.
Qed.
Lemma drain_cq_spec d held :
  xdp_inv d held -> exists n d', drain_cq kernel d = Ok (n, d') /\ xdp_inv d' held /\ xsame d d' /\ rx_owned d' = rx_owned d.
Proof.
  intros I. unfold drain_cq, cq_pop. pose proof (look_core d held 0 0 I) as C1. destruct (look_same d) as (S1 & _ & R1 & _).
  set (d1 := look d) in *. pose proof (xo_rings _ _ _ _ C1) as G1. pose proof (xo_caches _ _ _ _ C1) as [Hc _].
  assert (xd_cfg d1 = xd_cfg d) as Ec by apply S1. rewrite <- Ec. pose proof (xo_batch _ _ _ _ C1) as Hb.
  rewrite loop_pop_batch by (done || apply G1 || lia).
  destruct (batch_pop_total (cq (xd_rings d1)) (cached_cq_consumer d1) (batch_size (xd_cfg d1)) (fun a => 0 <= a)) as
    (l & r & c & -> & Ll & Fl & Sr & Dr & Hc'); [apply G1|apply G1|lia|]. cbn [obind].
  set (d2 := d1 <| xd_rings ::= _ |> <| cached_cq_consumer := c |>).
  assert (xcore d2 ([] ++ held) 0 (0 + zlen (@nil Z))) as C2.
  { change (0 + zlen (@nil Z)) with 0. cbn [app].
    destruct C1. constructor; try done; [|split; [exact Hc'|apply xo_caches0]].
    destruct G1. constructor; cbn; try done. by rewrite Dr. }
  assert (0 < chunk_size (xd_cfg d2)) as Hz by (rewrite <- (xo_size _ _ _ _ C2); apply (inv_size _ _ (xo_pool _ _ _ _ C2))).
  destruct (complete_all_spec l [] d2 held 0 0 C2 Fl ltac:(change (zlen []) with 0; cbn; lia) Hz) as (v & d3 & E3 & C3 & S3).
  pose proof (complete_rx l [] d2 v d3 E3) as Rx. rewrite E3. cbn [obind].
  destruct (free_frames _ _ _ _ _ C3) as (p & -> & C4 & Ei & _). cbn [obind].
  pose proof (xo_tx _ _ _ _ C3) as Tx. pose proof (zlen_nonneg (in_state TX_KERNEL (xd_state d3))).
  unfold usub. rewrite (proj2 (Z.leb_le _ _)) by lia. cbn [obind]. eexists _, _. split; [done|].
  split; [|split].
  - destruct C4. constructor; cbn in *; try done. lia.
  - eapply xsame_trans; [exact S1|]. eapply xsame_trans; [exact S3|]. done.
  - cbn. rewrite Rx. exact R1.
Qed.

(** ** Refilling *)
Lemma set_states_rx ids d held kr kt :
  xcore d (ids ++ held) kr kt -> rx_owned d + kr + zlen ids <= rx_target d ->
  exists d', set_states ids RX_KERNEL d = Ok d' /\ xcore d' held (kr + zlen ids) kt /\ xsame d d'
    /\ rx_owned d' = rx_owned d /\ xd_pool d' = xd_pool d.
Proof.
  revert d kr. induction ids as [|i ids IH]; intros d kr C Ht; cbn [set_states].
  { exists d. change (zlen []) with 0. by rewrite Z.add_0_r. }
  rewrite zlen_cons in *. pose proof (zlen_nonneg ids).
  destruct (give_rx d (ids ++ held) kr kt i C ltac:(lia)) as (d1 & -> & C1 & E1). cbn [obind].
  destruct (IH d1 (kr + 1) C1) as (d2 & -> & C2 & S2 & R2 & P2); [subst d1; cbn; lia|].
  exists d2. split; [done|]. replace (kr + (1 + zlen ids)) with (kr + 1 + zlen ids) by lia. split; [done|].
  split; [eapply xsame_trans; [|exact S2]; by subst d1|]. rewrite R2, P2. by subst d1.
Qed.
Lemma fill_push_core addrs d held kr kt :
  xcore d held kr kt ->
  exists n d', fill_push kernel addrs d = (n, d') /\ 0 <= n <= zlen addrs /\ xcore d' held kr kt /\ xsame d d'
    /\ rx_owned d' = rx_owned d /\ free_count (xd_pool d') = free_count (xd_pool d).
Proof.
  intros C. unfold fill_push. pose proof (look_core d held kr kt C) as C1. destruct (look_same d) as (S1 & _ & R1 & _ & _ & _ & F1).
  set (d1 := look d) in *. pose proof (xo_rings _ _ _ _ C1) as G1.
  destruct (ring_push_total addrs (fq (xd_rings d1)) (cached_fill_producer d1) (cached_fill_consumer d1)) as (n & r & p & c & -> & Hn & Sr);
    [apply G1|].
  eexists _, _. split; [done|]. split; [done|]. split; [|done]. destruct C1. constructor; try done. destruct G1. by constructor.
Qed.
Lemma alloc_frames d held kr kt limit :
  xcore d held kr kt -> 0 <= limit ->
  exists ids p, alloc_n (xd_pool d) limit = Ok (ids, p) /\ xcore (d <| xd_pool := p |>) (ids ++ held) kr kt
    /\ zlen ids = Z.min limit (free_count (xd_pool d)) /\ pool_id p = pool_id (xd_pool d).
Proof.
  intros C Hl. destruct (alloc_n_spec _ _ limit (xo_pool _ _ _ _ C) Hl) as (ids & p & E & L & _ & P' & _ & Ea & Ei & Es & En).
  exists ids, p. split; [done|]. split; [|done]. destruct C. constructor; cbn; rewrite ?Es, ?En, ?Ea; try done.
  eapply pool_inv_perm; [|exact P']. by rewrite Permutation_app_swap_app.
Qed.
Lemma refill_loop_spec fuel budget d held :
  xdp_inv d held -> (Z.to_nat budget < fuel)%nat -> rx_owned d + budget <= rx_target d ->
  exists d', refill_loop kernel fuel budget d = Ok d' /\ xdp_inv d' held /\ xsame d d'.
Proof.
  revert budget d. induction fuel as [|fuel IH]; intros budget d I Hf Ht; [lia|]. cbn [refill_loop].
  destruct (0 <? budget) eqn:E; bools; [|by exists d]. pose proof (xo_batch _ _ _ _ I) as Hb.
  set (limit := Z.min budget (batch_size (xd_cfg d))).
  destruct (alloc_frames d held 0 0 limit I ltac:(lia)) as (ids & p & -> & C1 & L1 & I1). cbn [obind].
  set (d1 := d <| xd_pool := p |>) in *.
  destruct (fill_push_core ((fun i => i * chunk_size (xd_cfg d)) <$> ids) d1 _ _ _ C1) as (n & d2 & -> & Hn & C2 & S2 & R2 & F2).
  assert (zlen ((fun i => i * chunk_size (xd_cfg d)) <$> ids) = zlen ids) as Lm by (unfold zlen; by rewrite length_fmap).
  rewrite Lm in Hn. rewrite <- (take_drop (Z.to_nat n) ids), <- app_assoc in C2.
  assert (zlen (take (Z.to_nat n) ids) = n) as Lt by (unfold zlen in *; rewrite length_take; lia).
  destruct (set_states_rx _ _ _ _ _ C2) as (d3 & -> & C3 & S3 & R3 & P3).
  { rewrite R2, Lt. destruct S2 as (_ & _ & ->). cbn. lia. }
  cbn [obind]. destruct (free_frames _ _ _ _ _ C3) as (p4 & -> & C4 & I4 & _). cbn [obind]. rewrite Lt in *.
  set (d4 := d3 <| xd_pool := p4 |> <| rx_owned ::= Z.add n |>).
  assert (xdp_inv d4 held) as J4 by (destruct C4; constructor; cbn in *; try done; lia).
  assert (xsame d d4) as S4.
  { eapply (xsame_trans d d1); [done|]. eapply xsame_trans; [exact S2|]. eapply xsame_trans; [exact S3|]. done. }
  destruct (n <? limit) eqn:En; bools; [by exists d4|].
  destruct (IH (budget - n) d4 J4) as (d5 & -> & J5 & S5); [lia| |].
  - cbn. rewrite R3, R2. destruct S3 as (_ & _ & ->), S2 as (_ & _ & ->). cbn. lia.
  - exists d5. split; [done|]. split; [done|]. by eapply xsame_trans.
Qed.
Lemma wake_core d held kr kt w : xcore d held kr kt -> xcore (d <| xd_wakes := w |>) held kr kt.
Proof. intros []. by constructor. Qed.
Lemma xd_refill_spec d held : xdp_inv d held -> exists d', refill kernel d = Ok d' /\ xdp_inv d' held /\ xsame d d'.
Proof.
  intros I. unfold refill, usub. pose proof (xo_target _ _ _ _ I) as Ht. rewrite (proj2 (Z.leb_le _ _)) by lia. cbn [obind].
  set (budget := Z.min _ _). destruct (refill_loop_spec (S (Z.to_nat budget)) budget d held I) as (d1 & -> & I1 & S1); [lia..|].
  cbn [obind]. pose proof (look_core d1 held 0 0 I1) as I2. destruct (look_same d1) as (S2 & _). set (d2 := look d1) in *.
  assert (xsame d d2) as S by (by eapply xsame_trans). destruct (_ || _); eexists; (split; [done|]); (split; [|done]); [|done].
  by apply wake_core.
Qed.
Lemma wake_tx_core d held kr kt : xcore d held kr kt -> xcore (wake_tx kernel d) held kr kt /\ xsame d (wake_tx kernel d).
Proof.
  intros C. unfold wake_tx. pose proof (look_core d held kr kt C). destruct (look_same d) as (S & _). set (d1 := look d) in *.
  destruct (_ || _); [|done]. split; [by apply wake_core|done].
Qed.
Lemma progress_spec d held : xdp_inv d held -> exists n d', progress kernel d = Ok (n, d') /\ xdp_inv d' held /\ xsame d d'.
Proof.
  intros I. unfold progress. destruct (drain_cq_spec d held I) as (n & d1 & -> & I1 & S1 & _). cbn [obind].
  destruct (xd_refill_spec d1 held I1) as (d2 & -> & I2 & S2). cbn [obind]. destruct (wake_tx_core d2 held 0 0 I2) as [I3 S3].
  eexists _, _. split; [done|]. pose proof (xsame_trans _ _ _ S1 S2). destruct (0 <? _); [|done]. split; [done|by eapply xsame_trans].
Qed.

(** ** Handles *)
Definition xhandle d (b : PacketBuf) : Prop := handle (pool_id (xd_pool d)) (chunk_size (xd_cfg d)) b.
Lemma xhandle_same d d' b : xsame d d' -> xhandle d b -> xhandle d' b.
Proof. intros (E1 & E2 & _). unfold xhandle. by rewrite E1, E2. Qed.
Lemma fresh_handle d held kr kt i offset len :
  xcore d held kr kt -> 0 <= i < num_frames (xd_pool d) -> 0 <= offset -> 0 <= len -> offset + len <= chunk_size (xd_cfg d) ->
  exists b, (let* b := packet_buf (xd_pool d) i 0 in let* b := set_headroom b offset in set_len b len) = Ok b
    /\ (let* b := packet_buf (xd_pool d) i 0 in set_headroom b offset) = Ok (b <| buf_len := 0 |>)
    /\ xhandle d b /\ xhandle d (b <| buf_len := 0 |>) /\ buf_idx b = i /\ buf_pool b = Some (pool_id (xd_pool d)) /\ buf_len b = len
    /\ data_offset b = offset.
Proof.
  intros C Hi Ho Hl Hs. destruct (packet_buf_spec _ _ i (xo_pool _ _ _ _ C) Hi) as (b & -> & Ei & (L0 & Ep & Ec & Hd & Hm)).
  cbn [obind]. pose proof (xo_size _ _ _ _ C) as Es. unfold set_headroom. rewrite L0, Ec, Es.
  rewrite (proj2 (Z.leb_le _ _)) by lia. cbn [obind]. unfold set_len.
  assert (capacity (b <| data_offset := offset |>) = chunk_size (xd_cfg d)) as Ec' by (unfold capacity in *; cbn; lia).
  rewrite Ec'. cbn [data_offset setter]. rewrite (proj2 (Z.leb_le _ _)) by (cbn; lia).
  assert (bytes_ok (buf_mem b)) as Bm.
  { pose proof (xo_bytes _ _ _ _ C) as F. rewrite Forall_forall in F. by apply F in Hm as [_ ?]. }
  unfold capacity in Ec. rewrite Es in Ec.
  eexists. split; [done|]. split; [destruct b; cbn in *; by subst|]. unfold xhandle, handle, buf_wf, capacity. cbn. rewrite Ep.
  split; [split_and!; try done; lia|]. split; [split_and!; try done; lia|]. done.
Qed.
Lemma xd_drop_spec d held b :
  xdp_inv d (owned [b] ++ held) -> xhandle d b -> exists d', xd_drop b d = (Ok tt, d') /\ xdp_inv d' held /\ xsame d d'.
Proof.
  intros I (_ & Hb & Hp). unfold xd_drop, owned in *. cbn in I. destruct (buf_pool b) as [id|] eqn:E.
  - destruct Hp as [-> Hc]. pose proof (xo_pool _ _ _ _ I) as P. pose proof (xo_size _ _ _ _ I) as Es.
    destruct (drop_packet_spec (xd_pool d) _ (with_kernel (xd_state d) ++ held) b P E ltac:(lia)) as (p & -> & P' & _ & Ei & Esz & Ea).
    { cbn. by rewrite Permutation_middle. }
    eexists. split; [done|]. split; [|done].
    assert (num_frames p = num_frames (xd_pool d)) as En.
    { pose proof (inv_arena _ _ P'). pose proof (inv_arena _ _ P). rewrite Ea, length_insert in *.
      pose proof (inv_num _ _ P). pose proof (inv_num _ _ P'). lia. }
    destruct I. constructor; cbn; rewrite ?Esz, ?En; try done. rewrite Ea. apply Forall_insert; [done|]. by split.
  - unfold drop_packet. rewrite E. eexists. split; [done|]. split; [|done]. by destruct I; constructor.
Qed.
Lemma xd_clear_spec out d held :
  xdp_inv d (owned out ++ held) -> Forall (xhandle d) out ->
  exists d', xd_clear out d = (Ok tt, d') /\ xdp_inv d' held /\ xsame d d'.
Proof.
  revert d. induction out as [|b out IH]; intros d I F; cbn [xd_clear]; [by exists d|].
  apply Forall_cons in F as [Hb F]. rewrite owned_cons, <- app_assoc in I.
  destruct (xd_drop_spec d _ b I Hb) as (d1 & -> & I1 & S1). cbn [then_].
  destruct (IH d1 I1) as (d2 & -> & I2 & S2); [eapply Forall_impl; [exact F|]; intros; by eapply xhandle_same|].
  exists d2. split; [done|]. split; [done|]. by eapply xsame_trans.
Qed.
End Inv.
