(* ===== verification/XdpProps.v ===== *)
(** * The AF_XDP device: operations and properties

    Receiving, sending and allocating against the ownership invariant, for every kernel of the
    right shape; the device laws; and what the device promises about its frames. *)
From Stdlib Require Import ZArith Lia Bool.
From stdpp Require Import base numbers option list.
From S2P Require Import Prelude BufferPool Device XdpRing XdpDevice XdpInv.
#[local] Open Scope Z_scope.

Section Ops.
Context (kernel : nat -> Rings -> list (list Z) -> Rings * list (list Z)) (Hk : kernel_ok kernel).
Implicit Types d : XdpDevice.

(** ** Receiving *)
Lemma decode_rx_spec addr len chunk frames i o :
  0 <= addr -> 0 < chunk -> decode_rx addr len chunk frames = Some (i, o) ->
  0 <= i < frames /\ 0 <= o /\ 0 < len /\ o + len <= chunk /\ addr = i * chunk + o.
Proof.
  intros Ha Hc. unfold decode_rx. destruct (_ && _) eqn:E; [|done]. intros [= <- <-].
  apply andb_true_iff in E as [[E1 E2]%andb_true_iff E3]. bools. pose proof (Z.mod_pos_bound addr chunk Hc).
  pose proof (Z.div_pos addr chunk Ha Hc). pose proof (Z.div_mod addr chunk). lia.
Qed.
(** [b] is the packet of a descriptor whose frame was with the kernel for RX. *)
Definition received d (desc : Z * Z) (b : PacketBuf) : Prop :=
  xd_state d !! Z.to_nat (buf_idx b) = Some RX_KERNEL /\ desc = (buf_idx b * chunk_size (xd_cfg d) + data_offset b, buf_len b)
  /\ 0 < buf_len b /\ buf_pool b = Some (pool_id (xd_pool d)).
Lemma take_desc_spec desc out d held :
  xdp_inv d (owned out ++ held) -> Forall (xhandle d) out -> 0 <= desc.1 /\ 0 <= desc.2 ->
  exists bs d', take_desc desc out d = Ok (out ++ bs, d') /\ xdp_inv d' (owned (out ++ bs) ++ held)
    /\ Forall (xhandle d) bs /\ xsame d d'
    /\ (bs = [] /\ xd_state d' = xd_state d
        \/ exists b, bs = [b] /\ received d desc b /\ xd_state d' = <[Z.to_nat (buf_idx b) := APP]> (xd_state d)).
Proof.
  intros I F [Ha Hl]. destruct desc as [addr len]. cbn in Ha, Hl. unfold take_desc.
  assert (exists bs d', Ok (out, count_invalid d) = Ok (out ++ bs, d') /\ xdp_inv d' (owned (out ++ bs) ++ held)
    /\ Forall (xhandle d) bs /\ xsame d d' /\ (bs = [] /\ xd_state d' = xd_state d
        \/ exists b, bs = [b] /\ received d (addr, len) b /\ xd_state d' = <[Z.to_nat (buf_idx b) := APP]> (xd_state d))) as Skip.
  { exists [], (count_invalid d). rewrite app_nil_r. split; [done|]. split; [by apply xcore_counters|]. split; [constructor|].
    split; [done|by left]. }
  assert (0 < chunk_size (xd_cfg d)) as Hz by (rewrite <- (xo_size _ _ _ _ I); apply (inv_size _ _ (xo_pool _ _ _ _ I))).
  destruct (decode_rx _ _ _ _) as [[i o]|] eqn:Ed; [|exact Skip].
  destruct (decode_rx_spec _ _ _ _ _ _ Ha Hz Ed) as (Hi & Ho & Hl' & Hs & Ea).
  pose proof (xo_state _ _ _ _ I) as Ls. pose proof (xo_frames _ _ _ _ I) as Nf.
  destruct (lookup_lt_is_Some_2 (xd_state d) (Z.to_nat i)) as [s Es]; [unfold zlen in *; lia|].
  rewrite (get_at_ok _ _ s) by (done || lia). cbn [obind]. case_bool_decide as Er; cbn [negb]; [subst s|exact Skip].
  pose proof (xo_rx _ _ _ _ I) as Rx. rewrite (in_state_leave _ _ APP _ (proj1 Hi) Es ltac:(done)) in Rx.
  assert (1 <= rx_owned d) as R1.
  { rewrite zlen_cons in Rx. pose proof (zlen_nonneg (in_state RX_KERNEL (<[Z.to_nat i:=APP]> (xd_state d)))). lia. }
  unfold usub. rewrite (proj2 (Z.leb_le _ _)) by lia. cbn [obind]. set (d1 := d <| rx_owned := rx_owned d - 1 |>).
  assert (xcore d1 (owned out ++ held) 1 0) as C1 by (destruct I; constructor; cbn in *; try done; lia).
  destruct (take_rx d1 _ _ _ i C1 (proj1 Hi) Es) as (d2 & -> & C2 & E2). cbn [obind].
  destruct (fresh_handle d2 _ _ _ i o len C2) as (b & Eb & _ & Hb & _ & Ei & Ep & El & Eo);
    [subst d2; cbn in *; lia|lia|lia|subst d2; cbn; lia|].
  destruct (packet_buf (xd_pool d2) i 0) as [b0| | |]; try done. cbn [obind] in *.
  destruct (set_headroom b0 o) as [b1| | |]; try done. cbn [obind] in *. rewrite Eb. cbn [obind].
  exists [b], d2. split; [done|]. assert (xsame d d2) as S2 by (by subst d2). split; [|split; [|split; [done|right]]].
  - eapply xcore_perm; [|exact C2]. rewrite owned_app, (owned_one b _ Ep), Ei, <- app_assoc. cbn. by rewrite Permutation_middle.
  - constructor; [|constructor]. destruct S2 as (E1 & E3 & _). unfold xhandle in *. by rewrite E1, E3 in Hb.
  - exists b. split; [done|]. unfold received. rewrite Ei, El, Eo, Ep, <- Ea. by subst d2.
Qed.
Lemma take_descs_spec descs out d held :
  xdp_inv d (owned out ++ held) -> Forall (xhandle d) out -> Forall (fun x => 0 <= x.1 /\ 0 <= x.2) descs ->
  exists bs d', take_descs descs out d = Ok (out ++ bs, d') /\ xdp_inv d' (owned (out ++ bs) ++ held)
    /\ Forall (xhandle d) bs /\ xsame d d' /\ zlen bs <= zlen descs
    /\ Forall (fun b => exists desc, desc ∈ descs /\ received d desc b) bs.
Proof.
  intros I Fo Fd. revert out d I Fo. induction Fd as [|desc descs Hd Fd IH]; intros out d I Fo; cbn [take_descs].
  { exists [], d. rewrite app_nil_r. done. }
  destruct (take_desc_spec desc out d held I Fo Hd) as (bs & d1 & -> & I1 & F1 & S1 & X1). cbn [obind].
  assert (Forall (xhandle d1) (out ++ bs)) as Fo1.
  { apply Forall_app. split; (eapply Forall_impl; [eassumption|]); intros; by eapply xhandle_same. }
  destruct (IH (out ++ bs) d1 I1 Fo1) as (bs' & d2 & -> & I2 & F2 & S2 & L2 & R2).
  exists (bs ++ bs'), d2. rewrite app_assoc. split; [done|]. split; [done|]. split; [|split; [by eapply xsame_trans|]].
  { apply Forall_app. split; [done|]. eapply Forall_impl; [exact F2|]. intros b Hb. destruct S1 as (E1 & E2 & _).
    unfold xhandle in *. by rewrite E1, E2 in Hb. }
  rewrite zlen_app, zlen_cons. split; [|apply Forall_app; split].
  - destruct X1 as [[-> _]|(b & -> & _)]; [change (zlen []) with 0|change (zlen [b]) with 1]; lia.
  - destruct X1 as [[-> _]|(b & -> & Rb & _)]; [constructor|]. constructor; [|constructor]. exists desc. split; [left|done].
  - eapply Forall_impl; [exact R2|]. intros b (x & Hx & (Es & Ex & Hl & Hp)). exists x. split; [by right|].
    destruct S1 as (E1 & E2 & _). split; [|by rewrite E1 in Ex; rewrite E2 in Hp].
    destruct X1 as [[_ E]|(b1 & _ & _ & E)]; rewrite E in Es; [done|].
    destruct (decide (Z.to_nat (buf_idx b) = Z.to_nat (buf_idx b1))) as [Eq|Ne]; [|by rewrite list_lookup_insert_ne in Es].
    rewrite Eq in Es. apply list_lookup_insert_Some in Es as [(_ & [=] & _)|[? _]]; done.
Qed.
Lemma rx_pop_core max d held :
  xdp_inv d held -> 0 <= max ->
  exists descs d', rx_pop kernel max d = Ok (descs, d') /\ xdp_inv d' held /\ xsame d d' /\ zlen descs <= max
    /\ Forall (fun x => 0 <= x.1 /\ 0 <= x.2) descs /\ xd_state d' = xd_state d.
Proof.
  intros I Hm. unfold rx_pop. pose proof (look_core kernel Hk d held 0 0 I) as C1. destruct (look_same kernel d) as (S1 & E1 & _).
  set (d1 := look kernel d) in *. pose proof (xo_rings _ _ _ _ C1) as G1.
  destruct (batch_pop_total (xrx (xd_rings d1)) (cached_rx_consumer d1) max (fun x => 0 <= x.1 /\ 0 <= x.2)) as
    (l & r & c & -> & Ll & Fl & Sr & Dr & Hc); [apply G1|apply G1|done|]. cbn [obind].
  eexists _, _. split; [done|]. split; [|done]. destruct C1. constructor; try done; [|split; [apply xo_caches|exact Hc]].
  destruct G1. constructor; cbn; try done. by rewrite Dr.
Qed.
Lemma xd_recv_spec max out d held :
  xdp_inv d (owned out ++ held) -> 0 <= max -> Forall (xhandle d) out ->
  exists d' out', xd_recv kernel max (d, out) = (Ok (zlen out'), (d', out')) /\ xdp_inv d' (owned out' ++ held)
    /\ Forall (xhandle d) out' /\ xsame d d' /\ zlen out' <= max
    /\ Forall (fun b => 0 < buf_len b /\ buf_pool b = Some (pool_id (xd_pool d))) out'.
Proof.
  intros I Hm F. unfold xd_recv. cbn [fst snd]. destruct (xd_clear_spec out d held I F) as (d1 & -> & I1 & S1). cbn [then_].
  destruct (progress_spec kernel Hk d1 held I1) as (n & d2 & -> & I2 & S2). cbn [obind]. pose proof (xo_batch _ _ _ _ I2).
  destruct (rx_pop_core (Z.min max (batch_size (xd_cfg d2))) d2 held I2 ltac:(lia)) as (l & d3 & -> & I3 & S3 & L3 & F3 & _). cbn [obind].
  destruct (take_descs_spec l [] d3 held I3 ltac:(constructor) F3) as (bs & d4 & -> & I4 & F4 & S4 & L4 & R4). cbn [app] in *.
  pose proof (xsame_trans _ _ _ S1 (xsame_trans _ _ _ S2 S3)) as S.
  eexists _, bs. split; [done|]. split; [by apply xcore_counters|]. pose proof S as (E1 & E2 & E3).
  split; [|split; [by eapply xsame_trans|split; [lia|]]].
  - eapply Forall_impl; [exact F4|]. intros b Hb. unfold xhandle in *. by rewrite E1, E2 in Hb.
  - eapply Forall_impl; [exact R4|]. intros b (x & _ & _ & _ & Hl & Hp). by rewrite E2 in Hp.
Qed.

(** ** Sending *)
Definition desc_of d (b : PacketBuf) : Z * Z := (buf_idx b * chunk_size (xd_cfg d) + data_offset b, u32 (buf_len b)).
Lemma submit_all_spec frames d held kt :
  xcore d (owned frames ++ held) 0 kt -> Forall (xhandle d) frames ->
  Forall (fun b => buf_pool b = Some (pool_id (xd_pool d))) frames ->
  exists d', submit_all frames d = Ok (desc_of d <$> frames, d') /\ xcore d' held 0 (kt - zlen frames) /\ xsame d d'
    /\ cached_tx_producer d' = cached_tx_producer d /\ cached_tx_consumer d' = cached_tx_consumer d
    /\ tx_pending d' = tx_pending d /\ xd_rings d' = xd_rings d.
Proof.
  revert d kt. induction frames as [|b frames IH]; intros d kt C F Fp; cbn [submit_all].
  { exists d. change (zlen []) with 0. by rewrite Z.sub_0_r. }
  apply Forall_cons in F as [Hb F]. apply Forall_cons in Fp as [Ep Fp]. rewrite owned_cons, (owned_one b _ Ep) in C. cbn in C.
  unfold into_parts. destruct (give_tx d _ 0 kt _ C) as (d1 & -> & C1 & E1). cbn [obind].
  assert (0 <= buf_idx b < num_frames (xd_pool d)) as Hi.
  { apply (inv_held_range _ _ (xo_pool _ _ _ _ C)). apply elem_of_app. right. left. }
  assert (xd_pool d1 = xd_pool d) as Ep1 by (by subst d1). pose proof (inv_arena _ _ (xo_pool _ _ _ _ C)) as La.
  rewrite set_at_ok by (rewrite Ep1; unfold zlen; lia). cbn [obind].
  set (d2 := d1 <| xd_pool ::= _ |>).
  destruct Hb as (_ & Bb & Hp). rewrite Ep in Hp. destruct Hp as [_ Hc].
  assert (xcore d2 (owned frames ++ held) 0 (kt - 1)) as C2.
  { destruct C1. constructor; cbn; try done.
    - destruct xo_pool. constructor; cbn; try done; [by rewrite length_insert|].
      apply Forall_insert; [done|]. unfold capacity in Hc. rewrite xo_size. by subst d1.
    - apply Forall_insert; [done|]. split; [|done]. subst d1. exact Hc. }
  assert (xsame d d2) as S2 by (subst d2 d1; done).
  destruct (IH d2 (kt - 1) C2) as (d3 & -> & C3 & S3 & T1 & T2 & T3 & T4).
  { eapply Forall_impl; [exact F|]. intros; by eapply xhandle_same. }
  { destruct S2 as (_ & -> & _). done. }
  cbn [obind]. exists d3. assert (xd_cfg d3 = xd_cfg d) as Ec by (destruct S3 as (-> & _), S2 as (-> & _); done).
  assert (desc_of d2 <$> frames = desc_of d <$> frames) as Ed.
  { apply list_fmap_ext. intros ? x _. unfold desc_of. by destruct S2 as (-> & _). }
  split; [by rewrite Ec, Ed|]. rewrite zlen_cons. replace (kt - (1 + zlen frames)) with (kt - 1 - zlen frames) by lia.
  split; [done|]. split; [by eapply xsame_trans|]. rewrite T1, T2, T3, T4. subst d2 d1. done.
Qed.
(** The slots that were counted are still there when the descriptors are written. *)
Lemma tx_push_exact descs d held kr kt :
  xcore d held kr kt -> zlen descs <= slots_between (cached_tx_producer d) (cached_tx_consumer d) ->
  exists d', tx_push kernel descs d = (zlen descs, d') /\ xcore d' held kr kt /\ xsame d d' /\ tx_pending d' = tx_pending d.
Proof.
  intros C Hl. unfold tx_push. pose proof (look_core kernel Hk d held kr kt C) as C1.
  destruct (look_same kernel d) as (S1 & _ & _ & T1 & P1 & Q1 & _). set (d1 := look kernel d) in *.
  pose proof (xo_rings _ _ _ _ C1) as G1. unfold ring_push, free_slots. rewrite P1, Q1, (proj2 (Z.ltb_ge _ _)) by lia.
  rewrite Z.min_l by lia. rewrite take_ge by (unfold zlen; lia).
  pose proof (publish_shape (xtx (xd_rings d1)) (cached_tx_producer d) descs (ro_tx _ G1)) as Sp. destruct (publish _ _ _) as [r' p'].
  eexists. split; [done|]. split; [|done]. destruct C1. constructor; try done. destruct G1. by constructor.
Qed.
Lemma submit_spec n frames d held :
  xdp_inv d (owned frames ++ held) -> Forall (xhandle d) frames -> 0 <= n <= zlen frames ->
  forallb (sendable d) (take (Z.to_nat n) frames) = true -> n <= slots_between (cached_tx_producer d) (cached_tx_consumer d) ->
  exists d', submit kernel n frames d = Ok d' /\ xdp_inv d' (owned (drop (Z.to_nat n) frames) ++ held) /\ xsame d d'.
Proof.
  intros I F Hn Hs Hl. unfold submit. set (fs := take (Z.to_nat n) frames) in *.
  assert (zlen fs = n) as Lf by (unfold fs, zlen in *; rewrite length_take; lia).
  assert (Forall (fun b => buf_pool b = Some (pool_id (xd_pool d))) fs) as Fp.
  { apply Forall_forall. intros b Hb. rewrite forallb_forall in Hs. apply list_elem_of_In in Hb. specialize (Hs _ Hb).
    unfold sendable in Hs. apply andb_true_iff in Hs as [Hs _]. by apply bool_decide_eq_true in Hs. }
  destruct (submit_all_spec fs d (owned (drop (Z.to_nat n) frames) ++ held) 0) as (d1 & -> & C1 & S1 & P1 & Q1 & T1 & _);
    [|by apply Forall_take|done|].
  { eapply xcore_perm; [|exact I]. rewrite app_assoc, <- owned_app. unfold fs. by rewrite take_drop. }
  cbn [obind]. assert (zlen (desc_of d <$> fs) = n) as Ld by (unfold zlen in *; by rewrite length_fmap).
  destruct (tx_push_exact (desc_of d <$> fs) d1 _ _ _ C1) as (d2 & -> & C2 & S2 & T2); [by rewrite Ld, P1, Q1|].
  rewrite Ld, Z.eqb_refl. cbn [negb]. set (d3 := d2 <| tx_pending ::= _ |> <| xd_counters ::= _ |>).
  assert (xdp_inv d3 (owned (drop (Z.to_nat n) frames) ++ held)) as I3.
  { destruct C2. constructor; cbn in *; try done. rewrite Lf in xo_tx. lia. }
  assert (xsame d d3) as S3 by (eapply xsame_trans; [exact S1|exact S2]).
  destruct (wake_tx_core kernel Hk d3 _ 0 0 I3) as [I4 S4]. destruct (0 <? tx_pending d3); eexists; (split; [done|]).
  - split; [exact I4|by eapply xsame_trans].
  - split; [exact I3|exact S3].
Qed.
Lemma xd_send_spec frames d held :
  xdp_inv d (owned frames ++ held) -> Forall (xhandle d) frames ->
  exists r d' frames', xd_send kernel (d, frames) = (r, (d', frames')) /\ xdp_inv d' (owned frames' ++ held) /\ xsame d d'
    /\ match r with
       | Ok n => 0 <= n <= zlen frames /\ frames' = replicate (Z.to_nat n) packet_default ++ drop (Z.to_nat n) frames
       | Err k => k = InvalidInput /\ frames' = frames
       | _ => False
       end.
Proof.
  intros I F. unfold xd_send. destruct (drain_cq_spec kernel Hk d _ I) as (m & d1 & -> & I1 & S1 & _).
  set (requested := Z.min (zlen frames) (batch_size (xd_cfg d1))). pose proof (xo_batch _ _ _ _ I1) as Hb. pose proof (zlen_nonneg frames).
  unfold tx_free_slots. pose proof (look_core kernel Hk d1 _ 0 0 I1) as I2. destruct (look_same kernel d1) as (S2 & _).
  set (d2 := look kernel d1) in *.
  destruct (free_slots requested (xtx (xd_rings d2)) (cached_tx_producer d2) (cached_tx_consumer d2)) as [free c] eqn:Ef.
  assert (free = slots_between (cached_tx_producer d2) c) as Es by (unfold free_slots in Ef; destruct (_ <? _); by injection Ef as <- <-).
  assert (0 <= free) as Hf by (rewrite Es; apply u32_range).
  set (d3 := d2 <| cached_tx_consumer := c |>). set (n := Z.min requested free).
  set (d4 := if n <? requested then _ else d3).
  assert (xdp_inv d4 (owned frames ++ held) /\ xsame d2 d4 /\ cached_tx_producer d4 = cached_tx_producer d2 /\ cached_tx_consumer d4 = c)
    as (I4 & S4 & P4 & Q4).
  { assert (xdp_inv d3 (owned frames ++ held)) as I3 by (destruct I2; by constructor).
    unfold d4. destruct (n <? requested); [|done]. split; [by apply xcore_counters|done]. }
  assert (xsame d d4) as S by (eapply xsame_trans; [exact S1|]; by eapply xsame_trans). clearbody d4.
  destruct (forallb (sendable d4) (take (Z.to_nat n) frames)) eqn:Ev; cbn [negb].
  2:{ eexists _, d4, frames. split; [done|]. done. }
  destruct (submit_spec n frames d4 held I4) as (d5 & -> & I5 & S5); try done; [|unfold n; lia|rewrite P4, Q4, <- Es; unfold n; lia|].
  { eapply Forall_impl; [exact F|]. intros; by eapply xhandle_same. }
  eexists _, d5, _. split; [done|]. rewrite owned_app, owned_defaults. split; [exact I5|]. split; [by eapply xsame_trans|].
  split; [unfold n; lia|done].
Qed.

(** ** Allocating *)
Lemma headroom_spec d held i :
  xdp_inv d held -> 0 <= i < num_frames (xd_pool d) ->
  exists b, headroom_buf d i = Ok b /\ xhandle d b /\ buf_idx b = i /\ buf_pool b = Some (pool_id (xd_pool d)) /\ buf_len b = 0.
Proof.
  intros I Hi. pose proof (xo_headroom _ _ _ _ I) as Hh.
  destruct (fresh_handle d _ _ _ i (xc_headroom (xd_cfg d)) 0 I Hi) as (b & _ & E & _ & Hb & Ei & Ep & _); [lia..|].
  eexists. unfold headroom_buf. split; [exact E|]. done.
Qed.
Lemma xd_alloc_spec d held :
  xdp_inv d held ->
  exists r d', xd_alloc kernel d = (Ok r, d') /\ xsame d d'
    /\ match r with
       | Some b => xdp_inv d' (buf_idx b :: held) /\ xhandle d b /\ buf_pool b = Some (pool_id (xd_pool d)) /\ buf_len b = 0
       | None => xdp_inv d' held
       end.
Proof.
  intros I. unfold xd_alloc, alloc_frame.
  assert (exists d1, (if available (xd_pool d) =? 0 then (let* '(done_, d) := progress kernel d in Ok d) else Ok d) = Ok d1
    /\ xdp_inv d1 held /\ xsame d d1) as (d1 & -> & I1 & S1).
  { destruct (_ =? 0); [|by exists d]. destruct (progress_spec kernel Hk d held I) as (n & d1 & -> & X). by exists d1. }
  cbn [obind]. pose proof (xo_pool _ _ _ _ I1) as P1.
  destruct (Z.eq_dec (free_count (xd_pool d1)) 0) as [E0|E0].
  { rewrite (alloc_empty _ _ P1 E0). cbn [obind]. eexists None, _. split; [done|]. split; [done|]. by destruct I1; constructor. }
  destruct (alloc_some _ _ P1) as (i & p & -> & _ & Hi & P2 & _ & Ea & Epid & Esz & Enum); [pose proof (inv_count _ _ P1); lia|]. cbn [obind].
  set (d2 := d1 <| xd_pool := p |>).
  assert (xdp_inv d2 (i :: held)) as I2.
  { destruct I1. constructor; cbn; rewrite ?Esz, ?Enum, ?Ea; try done. eapply pool_inv_perm; [|exact P2]. by rewrite Permutation_middle. }
  destruct (set_outside d2 _ _ _ i APP I2) as (d3 & -> & I3 & E3); [left|done..|]. cbn [obind].
  assert (xsame d d3) as S3 by (eapply xsame_trans; [exact S1|]; by subst d3).
  destruct (headroom_spec d3 _ i I3) as (b & -> & Hb & Ei & Ep & El).
  { subst d3. cbn. by rewrite Enum. }
  cbn [obind]. eexists (Some b), d3. split; [done|]. split; [done|]. rewrite Ei. split; [done|]. destruct S3 as (E1 & E2 & _).
  unfold xhandle in *. rewrite E1, E2 in *. done.
Qed.
Lemma batch_bufs_spec ids out d held :
  xdp_inv d (ids ++ held) ->
  exists bs d', batch_bufs ids out d = Ok (out ++ bs, d') /\ xdp_inv d' (ids ++ held) /\ xsame d d'
    /\ Forall (xhandle d) bs /\ buf_idx <$> bs = ids /\ Forall (fun b => buf_pool b = Some (pool_id (xd_pool d)) /\ buf_len b = 0) bs.
Proof.
  assert (forall done rest d out, xdp_inv d (done ++ rest ++ held) -> exists bs d', batch_bufs rest out d = Ok (out ++ bs, d')
    /\ xdp_inv d' (done ++ rest ++ held) /\ xsame d d' /\ Forall (xhandle d) bs /\ buf_idx <$> bs = rest
    /\ Forall (fun b => buf_pool b = Some (pool_id (xd_pool d)) /\ buf_len b = 0) bs) as Gen.
  2:{ intros I. apply (Gen [] ids d out I). }
  intros done rest. revert done. induction rest as [|i rest IH]; intros done d0 out0 I; cbn [batch_bufs].
  { exists [], d0. rewrite app_nil_r. split; [by destruct done|]. split; [by destruct done|]. done. }
  destruct (set_outside d0 _ _ _ i APP I) as (d1 & -> & I1 & E1); [apply elem_of_app; right; left|done..|]. cbn [obind].
  assert (0 <= i < num_frames (xd_pool d1)) as Hi.
  { apply (inv_held_range _ _ (xo_pool _ _ _ _ I1)). rewrite !elem_of_app. right. right. left. left. }
  destruct (headroom_spec d1 _ i I1 Hi) as (b & -> & Hb & Ei & Ep & El). cbn [obind].
  assert (xsame d0 d1) as S1 by (by subst d1).
  destruct (IH (done ++ [i]) d1 (out0 ++ [b])) as (bs & d2 & -> & I2 & S2 & F2 & E2 & P2).
  { eapply xcore_perm; [|exact I1]. by rewrite <- !app_assoc. }
  exists (b :: bs), d2. rewrite <- app_assoc. split; [done|]. split; [|split; [by eapply xsame_trans|]].
  { eapply xcore_perm; [|exact I2]. by rewrite <- !app_assoc. }
  destruct S1 as (Ec & Ei1 & _). unfold xhandle in *. rewrite Ec, Ei1 in *. split; [by constructor|].
  split; [by rewrite fmap_cons, Ei, E2|]. by constructor.
Qed.
Lemma xd_alloc_batch_spec max out d held :
  xdp_inv d held -> 0 <= max ->
  exists bs d', xd_alloc_batch kernel max out d = Ok (zlen bs, (out ++ bs, d')) /\ xdp_inv d' (owned bs ++ held) /\ xsame d d'
    /\ Forall (xhandle d) bs /\ zlen bs <= Z.min max (batch_size (xd_cfg d)).
Proof.
  intros I Hm. unfold xd_alloc_batch. destruct (drain_cq_spec kernel Hk d held I) as (n & d1 & -> & I1 & S1 & _). cbn [obind].
  pose proof (xo_batch _ _ _ _ I1).
  destruct (alloc_frames d1 held 0 0 (Z.min max (batch_size (xd_cfg d1))) I1 ltac:(lia)) as (ids & p & -> & C2 & L2 & P2). cbn [obind].
  destruct (batch_bufs_spec ids out _ held C2) as (bs & d2 & -> & I3 & S3 & F3 & E3 & B3). cbn [obind].
  assert (owned bs = ids) as Eo.
  { rewrite (owned_live (pool_id p)); [done|]. eapply Forall_impl; [exact B3|]. by intros b [? _]. }
  exists bs, d2. assert (zlen ids = zlen bs) as Lb by (rewrite <- E3; unfold zlen; by rewrite length_fmap). rewrite Lb.
  split; [done|]. rewrite Eo. split; [done|]. destruct S1 as (Ec & Ep & Et). split.
  - destruct S3 as (Ec3 & Ep3 & Et3). cbn in *. unfold xsame. split_and!; congruence.
  - split; [|rewrite <- Ec; lia]. eapply Forall_impl; [exact F3|]. unfold xhandle. cbn. by rewrite Ec, P2, Ep.
Qed.

(** ** The device laws *)
#[local] Existing Instance xdp_device.
Definition xdp_laws : @DeviceLaws XdpDevice (xdp_device kernel).
Proof.
  refine {| dev_pool := fun d : XdpDevice => pool_id (xd_pool d) : Z; dev_inv := xdp_inv |}.
  - intros d h k E I. by eapply xcore_perm.
  - intros d held I. destruct (xd_alloc_spec d held I) as (r & d' & E & (Ec & Ep & _) & X). exists r, d'. cbn. rewrite Ec. done.
  - intros d held b I Hb. destruct (xd_drop_spec d held b I Hb) as (d' & E & I' & (Ec & Ep & _)). exists d'. cbn. rewrite Ec. done.
  - intros d held frames I F. destruct (xd_send_spec frames d held I F) as (r & d' & fs & E & I' & (Ec & Ep & _) & X).
    exists r, d', fs. cbn. rewrite Ec. do 4 (split; [done|]). destruct r; try done. by destruct X.
  - intros d held max out I Hm F. destruct (xd_recv_spec max out d held I Hm F) as (d' & out' & E & I' & F' & (Ec & Ep & _) & L & _).
    exists (Ok (zlen out')), d', out'. cbn. rewrite Ec. done.
  - intros d held now I. exists (Ok tt), d. done.
Defined.

(** ** Construction *)
Definition fresh_ring {A} (entries : Z) (r : Ring A) : Prop :=
  rg_entries r = entries /\ zlen (rg_desc r) = entries /\ rg_producer r = 0 /\ rg_consumer r = 0.
(** The system calls map fresh rings of the sizes asked for. *)
Record sys_ok (c : XdpConfig) (sys : XdpSys) : Prop := {
  so_umem u : sys_umem sys = Ok u ->
    fresh_ring (fill_entries c) u.1 /\ fresh_ring (cq_entries c) u.2 /\ Forall (fun a => 0 <= a) (rg_desc u.2);
  so_bind flags g o : sys_bind sys flags = Ok (g, o) ->
    fresh_ring (rx_entries c) g.1 /\ fresh_ring (tx_entries c) g.2 /\ Forall (fun x => 0 <= x.1 /\ 0 <= x.2) (rg_desc g.1)
}.
Lemma power_of_two n : is_power_of_two n = true -> exists k, 0 <= k /\ n = 2 ^ k.
Proof.
  unfold is_power_of_two. intros [E1 E2]%andb_true_iff. bools.
  exists (Z.log2 n). split; [apply Z.log2_nonneg|].
  destruct (Z.log2_spec n E1) as [L1 L2]. destruct (Z.eq_dec n (2 ^ Z.log2 n)) as [|Ne]; [done|exfalso].
  pose proof (Z.log2_nonneg n) as Hg.
  assert (Z.testbit n (Z.log2 n) = true) as B1 by (apply Z.bit_log2; lia).
  assert (Z.testbit (n - 1) (Z.log2 n) = true) as B2.
  { assert (Z.log2 (n - 1) = Z.log2 n) as <-; [|apply Z.bit_log2; lia].
    apply Z.log2_unique; [done|]. split; [lia|]. lia. }
  assert (Z.testbit (Z.land n (n - 1)) (Z.log2 n) = true) as B3 by (by rewrite Z.land_spec, B1, B2).
  rewrite E2, Z.bits_0 in B3. done.
Qed.
Lemma ring_size_ok entries : validate_ring_size entries = Ok tt -> exists k, 0 <= k <= 30 /\ entries = 2 ^ k.
Proof.
  unfold validate_ring_size. destruct (is_power_of_two entries) eqn:E; cbn [negb orb]; [|done].
  destruct (_ <? _) eqn:L; [done|]. intros _. bools. apply power_of_two in E as (k & Hp & ->). exists k. split; [|done].
  split; [done|]. apply (Z.pow_le_mono_r_iff 2); lia.
Qed.
Lemma fresh_shape {A} entries (r : Ring A) : validate_ring_size entries = Ok tt -> fresh_ring entries r -> ring_shape r.
Proof.
  intros V (E & L & P & C). destruct (ring_size_ok _ V) as (k & Hp & Ek). constructor; [exists k; by rewrite E|congruence|..];
    rewrite ?P, ?C; unfold W32; lia.
Qed.
(** The configuration is a value of its Rust type, and the arena is mapped memory. *)
Record xdp_typed (c : XdpConfig) (frames : list (list Z)) : Prop := {
  xt_headroom : 0 <= xc_headroom c;
  xt_batch : 0 <= batch_size c;
  xt_reserve : 0 <= tx_reserve c;
  xt_arena : length frames = Z.to_nat (xc_frames c) /\ Forall (frame_ok (chunk_size c)) frames
}.
Lemma ring_size_unit e : validate_ring_size e = Ok tt \/ validate_ring_size e = Err InvalidInput.
Proof. unfold validate_ring_size. destruct (_ || _); auto. Qed.
Lemma obind_ok {A B} (m : outcome A) (f : A -> outcome B) b : obind m f = Ok b -> exists a, m = Ok a /\ f a = Ok b.
Proof. destruct m; try done. eauto. Qed.
Lemma validate_ok c queue u :
  xdp_validate c queue = Ok u ->
  validate_ring_size (fill_entries c) = Ok tt /\ validate_ring_size (cq_entries c) = Ok tt
  /\ validate_ring_size (rx_entries c) = Ok tt /\ validate_ring_size (tx_entries c) = Ok tt
  /\ 2 <= xc_frames c /\ tx_reserve c < xc_frames c /\ batch_size c <> 0 /\ 2048 <= chunk_size c
  /\ xc_headroom c <= chunk_size c - 256.
Proof.
  unfold xdp_validate. intros E. apply obind_ok in E as ([] & -> & E). apply obind_ok in E as ([] & -> & E).
  apply obind_ok in E as ([] & -> & E). apply obind_ok in E as ([] & -> & E). do 4 (split; [done|]).
  destruct (_ || _) eqn:Eo; [done|]. rewrite !orb_false_iff in Eo.
  destruct Eo as [[[[[[[[[[[? ?] ?] ?] ?] ?] ?] ?] ?] ?] ?] ?]. bools. lia.
Qed.
Lemma in_state_fresh s n : s <> FREE -> in_state s (replicate n FREE) = [].
Proof.
  intros Hs. unfold in_state. destruct (filter _ _) as [|i l] eqn:E; [done|].
  assert (i ∈ in_state s (replicate n FREE)) as Hi by (unfold in_state; rewrite E; left).
  apply elem_in_state in Hi as [_ Hi]. apply lookup_replicate in Hi as [? _]. congruence.
Qed.
Lemma xdp_new_inv c queue id frames sys d :
  xdp_typed c frames -> sys_ok c sys -> xdp_with_config kernel c queue id frames sys = Ok d -> xdp_inv d [].
Proof.
  intros T So. unfold xdp_with_config. intros E. apply obind_ok in E as (u & V & E).
  destruct (validate_ok _ _ _ V) as (V1 & V2 & V3 & V4 & Hf & Hr & Hb & Hc & Hh).
  apply obind_ok in E as (ifi & _ & E). apply obind_ok in E as ([] & _ & E). apply obind_ok in E as (um & Eu & E).
  apply obind_ok in E as ([] & _ & E). apply obind_ok in E as (mode & _ & E).
  destruct (bool_decide _); [done|]. destruct (_ && _); [done|]. apply obind_ok in E as ([] & _ & E).
  apply obind_ok in E as ([g o] & Eg & E). apply obind_ok in E as (bound & _ & E). apply obind_ok in E as (d1 & E1 & E).
  apply obind_ok in E as ([] & _ & [= <-]). destruct (so_umem _ _ So _ Eu) as (F1 & F2 & F3).
  destruct (so_bind _ _ So _ _ _ Eg) as (F4 & F5 & F6). destruct T as [T1 T2 T3 [T4 T5]].
  set (d0 := mkXdpDevice _ _ _ _ _ _ _ _ _ _ _ _ _ _ _ _ _ _) in E1.
  assert (xdp_inv d0 []) as I0.
  { destruct (ring_size_ok _ V1) as (k & Hp & Ek). pose proof (Z.pow_pos_nonneg 2 k ltac:(lia) ltac:(lia)).
    constructor; cbn [d0 xd_pool xd_state xd_cfg rx_owned rx_target tx_pending xd_rings cached_cq_consumer cached_rx_consumer];
      try done; unfold with_kernel; rewrite ?(in_state_fresh RX_KERNEL), ?(in_state_fresh TX_KERNEL) by done;
      change (zlen []) with 0; try lia.
    - apply build_inv; [lia|lia|done|]. eapply Forall_impl; [exact T5|]. by intros m [? _].
    - cbn. unfold zlen. rewrite length_replicate. lia.
    - constructor; cbn; [by eapply (fresh_shape (fill_entries c))|by eapply (fresh_shape (cq_entries c))|
        by eapply (fresh_shape (rx_entries c))|by eapply (fresh_shape (tx_entries c))|done|done]. }
  destruct (xd_refill_spec kernel Hk d0 [] I0) as (d2 & E2 & I2 & _). rewrite E2 in E1. by injection E1 as <-.
Qed.

(** C21. A device that [with_config] builds keeps the device laws from its first operation on,
    whatever the kernel does within the geometry of the shared memory: its ring entries may be
    wrong, repeated, out of range or stale.  The protocol layers proved against the laws run
    over it unchanged. *)
Theorem xdp_refines_device c queue id frames sys d :
  xdp_typed c frames -> sys_ok c sys -> xdp_with_config kernel c queue id frames sys = Ok d ->
  exists L : @DeviceLaws XdpDevice (xdp_device kernel),
    @dev_inv _ _ L d [] /\ @dev_pool _ _ L d = pool_id (xd_pool d)
    /\ (forall d held, @dev_inv _ _ L d held <-> xdp_inv d held).
Proof. intros T So E. exists xdp_laws. split; [by eapply xdp_new_inv|done]. Qed.

(** C22. No frame has two owners.  After [recv] with any kernel, the frames in the returned
    buffers, those the application held before, those with the kernel for RX and for TX and the
    free ones are all the frames of the arena, each exactly once; no call panics; and every
    returned packet lies within its frame. *)
Theorem xdp_recv_exclusive max out d held :
  xdp_inv d (owned out ++ held) -> 0 <= max -> Forall (xhandle d) out ->
  let '(r, (d', out')) := xd_recv kernel max (d, out) in
  r = Ok (zlen out') /\ zlen out' <= max
  /\ take (Z.to_nat (free_count (xd_pool d'))) (free_list (xd_pool d'))
       ++ in_state RX_KERNEL (xd_state d') ++ in_state TX_KERNEL (xd_state d') ++ owned out' ++ held
     ≡ₚ indices (xc_frames (xd_cfg d))
  /\ rx_owned d' = zlen (in_state RX_KERNEL (xd_state d')) /\ tx_pending d' = zlen (in_state TX_KERNEL (xd_state d'))
  /\ Forall (fun b => 0 < buf_len b /\ data_offset b + buf_len b <= chunk_size (xd_cfg d)) out'.
Proof.
  intros I Hm F. destruct (xd_recv_spec max out d held I Hm F) as (d' & out' & -> & I' & F' & (Ec & _) & L & R).
  split; [done|]. split; [done|]. split; [|split; [pose proof (xo_rx _ _ _ _ I'); lia|split; [pose proof (xo_tx _ _ _ _ I'); lia|]]].
  - pose proof (inv_part _ _ (xo_pool _ _ _ _ I')) as P. rewrite (xo_frames _ _ _ _ I'), Ec in P. rewrite <- P.
    unfold with_kernel. by rewrite <- !app_assoc.
  - apply Forall_forall. intros b Hb. rewrite Forall_forall in F', R. destruct (F' b Hb) as (W & _ & Hp). destruct (R b Hb) as [? Ep].
    rewrite Ep in Hp. destruct Hp as [_ Hc]. unfold buf_wf in W. lia.
Qed.
End Ops.

(** ** A small device *)
Definition xdp_cfg : XdpConfig := mkXdpConfig 4 2048 0 4 4 4 4 false false 1 XAuto 2 1.
Definition blank_ring {A} (v : A) (n : Z) : Ring A := mkRing 0 0 None (replicate (Z.to_nat n) v) n.
Definition xdp_sys : XdpSys :=
  mkXdpSys (Ok 1) 4096 (Ok (blank_ring 0 4, blank_ring 0 4)) (Ok tt) (Ok AttachNone) (fun _ => Ok ((blank_ring (0, 0) 4, blank_ring (0, 0) 4), 0)) (Ok tt).
Definition xdp_arena : list (list Z) := replicate 4 (replicate 2048 0).
(** A kernel that delivers one packet when [recv] looks at the RX ring, and the same one once more. *)
Definition deliver (g : Rings) : Rings :=
  g <| xrx ::= fun r => write_desc (write_desc r 0 (4196, 60)) 1 (4196, 60) <| rg_producer := 2 |> |>.
Definition faulty (k : nat) (g : Rings) (a : list (list Z)) : Rings * list (list Z) :=
  (if bool_decide (k = 5%nat) then deliver g else g, a).
Lemma faulty_ok : kernel_ok faulty.
Proof.
  intros k g a size G F. unfold faulty. cbn [fst snd]. split; [|done]. case_bool_decide; [|done]. destruct G.
  constructor; cbn; try done.
  - pose proof (write_desc_shape _ 1 (4196, 60) (write_desc_shape _ 0 (4196, 60) ro_rx)) as []. by constructor.
  - do 2 (apply Forall_insert; [|cbn; lia]). done.
Qed.
Lemma xdp_cfg_typed : xdp_typed xdp_cfg xdp_arena.
Proof.
  constructor; [cbn; lia..|]. split; [reflexivity|]. apply Forall_replicate. split; [reflexivity|apply bytes_zeros].
Qed.
Lemma xdp_sys_ok : sys_ok xdp_cfg xdp_sys.
Proof.
  split.
  - intros u [= <-]. split_and!; try done. repeat constructor; lia.
  - intros flags g o [= <- <-]. split_and!; try done. repeat constructor; cbn; lia.
Qed.
Definition unbuilt : XdpDevice :=
  mkXdpDevice (mkRings (blank_ring 0 4) (blank_ring 0 4) (blank_ring (0, 0) 4) (blank_ring (0, 0) 4)) 0 0 0 0 0 0 0 (build 1 2048 4 []) [] xdp_cfg
    0 0 0 AttachNone (mkXdpCounters 0 0 0 0 0) 0 [].
Definition xdp_dev : XdpDevice :=
  match xdp_with_config faulty xdp_cfg 0 1 xdp_arena xdp_sys with Ok d => d | _ => unbuilt end.
Lemma xdp_dev_built : xdp_with_config faulty xdp_cfg 0 1 xdp_arena xdp_sys = Ok xdp_dev.
Proof. vm_compute. reflexivity. Qed.
Example xdp_dev_refilled : xd_state xdp_dev = [RX_KERNEL; RX_KERNEL; RX_KERNEL; FREE] /\ xd_wakes xdp_dev = [PollRx].
Proof. vm_compute. auto. Qed.
(** The packet is delivered once and the repeated descriptor is counted as invalid. *)
Example xdp_dev_received :
  let '(r, (d, out)) := xd_recv faulty 4 (xdp_dev, []) in
  r = Ok 1 /\ ((fun b => (buf_idx b, data_offset b, buf_len b)) <$> out) = [(2, 100, 60)]
  /\ xd_state d = [RX_KERNEL; RX_KERNEL; APP; FREE] /\ xd_counters d = mkXdpCounters 1 0 0 0 1.
Proof. vm_compute. auto. Qed.
Lemma xdp_refines_device_witness :
  exists L : @DeviceLaws XdpDevice (xdp_device faulty), @dev_inv _ _ L xdp_dev [].
Proof.
  destruct (xdp_refines_device faulty faulty_ok xdp_cfg 0 1 xdp_arena xdp_sys xdp_dev xdp_cfg_typed xdp_sys_ok xdp_dev_built)
    as (L & I & _).
  exists L. exact I.
Defined.
Lemma xdp_recv_exclusive_witness :
  let '(r, (d', out')) := xd_recv faulty 4 (xdp_dev, []) in r = Ok (zlen out') /\ zlen out' <= 4.
Proof.
  pose proof (xdp_recv_exclusive faulty faulty_ok 4 [] xdp_dev []
    (xdp_new_inv faulty faulty_ok xdp_cfg 0 1 xdp_arena xdp_sys xdp_dev xdp_cfg_typed xdp_sys_ok xdp_dev_built)
    ltac:(lia) ltac:(constructor)) as X.
  destruct (xd_recv faulty 4 (xdp_dev, [])) as [r [d' out']]. exact (conj (proj1 X) (proj1 (proj2 X))).
Defined.
