(* ===== verification/Tun.v ===== *)
(** * The TUN backends ([src/device/backend/tun.rs], [tun/linux.rs], [tun/macos.rs])

    A TUN device is a frame pool and a file descriptor that carries one datagram per system
    call.  [rd k room] is the result of the [k]-th system call when it reads into [room] bytes,
    [wr k data] when it writes [data]: an error or what was read, respectively how much was
    written.  [tn_calls] counts the calls, [tn_read] lists the datagrams that the kernel has
    delivered and [tn_written] those that it took whole.  The retry loops on [EINTR] take fuel [patience].  The macOS device carries
    an address family in front of each packet.  The send and receive loops of the two are the
    same code over different reads and writes. *)
From Stdlib Require Import ZArith Lia Bool.
From stdpp Require Import base numbers option list.
From S2P Require Import Prelude BufferPool Device.
#[local] Open Scope Z_scope.

Definition DEFAULT_MTU : Z := 1500.
Definition frame_size_for_mtu (mtu : Z) : Z := (mtu + 4 + 128 + 64 + 511) / 512 * 512.
Definition IFNAMSIZ : Z := 16.
Definition TUN_FRAME_COUNT : Z := 256.
(** [set_ifname]: the name and its terminator over the beginning of the field. *)
Definition set_ifname (dst name : list Z) : outcome (list Z) :=
  if zlen name <? zlen dst then let* dst := copy_at dst 0 name in set_at dst (zlen name) 0 else Panic.

(** The bytes in front of the first NUL. *)
Fixpoint c_str (l : list Z) : list Z :=
  match l with
  | [] => []
  | x :: l => if x =? 0 then [] else x :: c_str l
  end.

Record TunDevice : Type := mkTunDevice {
  tn_pool : PoolInner; tn_calls : nat; tn_read : list (list Z); tn_written : list (list Z)
}.
#[export] Instance eta_TunDevice : Eta TunDevice :=
  fun d => mkTunDevice (tn_pool d) (tn_calls d) (tn_read d) (tn_written d).
(** What a system call gives: an error kind or a value. *)
Abbreviation io A := (ErrorKind + A)%type.

Definition mtu_valid (mtu : Z) : bool := (68 <=? mtu) && (mtu <=? 65535).
(** [TunDevice::new_with_mtu], with the name that the kernel assigned; [opened] is what opening
    and configuring the descriptor with a name field gives: an error, or the field written
    back.  [Error::InvalidTunnelName] is represented by [InvalidInput]. *)
Definition tun_new_with_mtu (id : Z) (name : list Z) (mtu : Z) (opened : list Z -> outcome (list Z))
  : outcome (list Z * TunDevice) :=
  if negb (mtu_valid mtu) then Err InvalidInput
  else if (IFNAMSIZ <=? zlen name) || existsb (Z.eqb 0) name then Err InvalidInput
  else
    let* ifr_name := set_ifname (replicate (Z.to_nat IFNAMSIZ) 0) name in
    let* ifr_name := opened ifr_name in
    let assigned := c_str ifr_name in
    let* p := pool_new id TUN_FRAME_COUNT (frame_size_for_mtu mtu) in
    Ok (assigned, mkTunDevice p 0 [] []).
(** "com.apple.net.utun_control" *)
Definition CTRL_NAME : list Z :=
  [99; 111; 109; 46; 97; 112; 112; 108; 101; 46; 110; 101; 116; 46; 117; 116; 117; 110; 95; 99; 111; 110; 116; 114;
   111; 108].
(** [UtunDevice::new_with_mtu]; [opened] is what opening the control of that name and
    connecting to the unit gives. *)
Definition utun_new_with_mtu (id unit_ mtu : Z) (opened : list Z -> Z -> outcome unit) : outcome TunDevice :=
  if negb (mtu_valid mtu) then Err InvalidInput
  else
    let* ctl_name := set_ifname (replicate 96 0) CTRL_NAME in
    let* connected := opened ctl_name unit_ in
    let* p := pool_new id TUN_FRAME_COUNT (frame_size_for_mtu mtu) in
    Ok (mkTunDevice p 0 [] []).

Section Tun.
Context (rd : nat -> Z -> io (list Z)) (wr : nat -> list Z -> io Z) (patience : nat).
Implicit Types d : TunDevice.

(** ** Reading *)
Fixpoint read_loop (fuel : nat) (room : Z) (k : nat) : outcome (io (list Z) * nat) :=
  match fuel with
  | O => OutOfFuel
  | S fuel => match rd k room with inl Interrupted => read_loop fuel room (S k) | r => Ok (r, S k) end
  end.
Definition read_datagram (buf : PacketBuf) d : outcome (io (option Z) * PacketBuf * TunDevice) :=
  let off := data_offset buf in
  let room := capacity buf - off in
  let* '(r, k) := read_loop patience room (tn_calls d) in
  let d := d <| tn_calls := k |> in
  match r with
  | inl WouldBlock => Ok (inr None, buf, d)
  | inl e => Ok (inl e, buf, d)
  | inr data =>
      let* m := copy_at (buf_mem buf) off data in
      let buf := buf <| buf_mem := m |> in
      let n := zlen data in
      if n =? 0 then Ok (inr None, buf, d)
      else
        let d := d <| tn_read ::= fun l => l ++ [data] |> in
        if n =? room then Ok (inl InvalidData, buf, d)
        else let* buf := set_len buf n in Ok (inr (Some n), buf, d)
  end.
(** macOS: the address family is left in the headroom. *)
Definition read_packet (buf : PacketBuf) d : outcome (io (option Z) * PacketBuf * TunDevice) :=
  let* '(r, buf, d) := read_datagram buf d in
  match r with
  | inr (Some n) =>
      if n <? 4 then Ok (inl InvalidData, buf, d)
      else let* buf := pull_header buf 4 in Ok (inr (Some (n - 4)), buf, d)
  | r => Ok (r, buf, d)
  end.

(** ** Writing *)
Fixpoint write_loop (fuel : nat) (data : list Z) (k : nat) : outcome (io Z * nat) :=
  match fuel with
  | O => OutOfFuel
  | S fuel => match wr k data with inl Interrupted => write_loop fuel data (S k) | r => Ok (r, S k) end
  end.
(** One [write] or [writev] of the bytes. *)
Definition write_bytes (data : list Z) d : outcome (io unit * TunDevice) :=
  let* '(r, k) := write_loop patience data (tn_calls d) in
  let d := d <| tn_calls := k |> in
  match r with
  | inl e => Ok (inl e, d)
  | inr n => if n =? zlen data then Ok (inr tt, d <| tn_written ::= fun l => l ++ [data] |>) else Ok (inl WriteZero, d)
  end.
Definition write_datagram (buf : PacketBuf) d : outcome (io unit * TunDevice) := write_bytes (as_slice buf) d.
Definition AF_INET : Z := 2.
Definition AF_INET6 : Z := 30.
Definition family_for (buf : PacketBuf) : io Z :=
  match as_slice buf with
  | [] => inl InvalidData
  | first :: _ =>
      if Z.shiftr first 4 =? 4 then inr AF_INET else if Z.shiftr first 4 =? 6 then inr AF_INET6 else inl InvalidData
  end.
Definition write_packet (buf : PacketBuf) d : outcome (io unit * TunDevice) :=
  match family_for buf with
  | inl e => Ok (inl e, d)
  | inr family => write_bytes (be32 family ++ as_slice buf) d
  end.

(** ** The device operations *)
Definition tn_drop (b : PacketBuf) d : outcome TunDevice := let* p := drop_packet (tn_pool d) b in Ok (d <| tn_pool := p |>).
Fixpoint tn_drops (bs : list PacketBuf) d : outcome TunDevice :=
  match bs with
  | [] => Ok d
  | b :: bs => let* d := tn_drop b d in tn_drops bs d
  end.
Definition tn_alloc : ST TunDevice (option PacketBuf) := fun d =>
  match alloc_packet (tn_pool d) with
  | Ok (b, p) => (Ok b, d <| tn_pool := p |>)
  | r => (recast r, d)
  end.
Definition tn_alloc_batch (max : Z) : ST (TunDevice * list PacketBuf) Z := fun '(d, out) =>
  match alloc_batch (tn_pool d) max out with
  | Ok (n, out, p) => (Ok n, (d <| tn_pool := p |>, out))
  | r => (recast r, (d, out))
  end.
Section Loops.
Context (reader : PacketBuf -> TunDevice -> outcome (io (option Z) * PacketBuf * TunDevice))
  (writer : PacketBuf -> TunDevice -> outcome (io unit * TunDevice)).
(** The receive loop: the error that ended it, if any. *)
Fixpoint recv_loop (max : nat) (out : list PacketBuf) d : outcome (option ErrorKind * list PacketBuf * TunDevice) :=
  match max with
  | O => Ok (None, out, d)
  | S max =>
      let* '(b, p) := alloc_packet (tn_pool d) in
      let d := d <| tn_pool := p |> in
      match b with
      | None => Ok (None, out, d)
      | Some b =>
          let* '(r, b, d) := reader b d in
          match r with
          | inr (Some _) => recv_loop max (out ++ [b]) d
          | inr None => let* d := tn_drop b d in Ok (None, out, d)
          | inl e => let* d := tn_drop b d in Ok (Some e, out, d)
          end
      end
  end.
Definition tun_recv (max : Z) : ST (TunDevice * list PacketBuf) Z := fun '(d, out) =>
  match (let* d := tn_drops out d in recv_loop (Z.to_nat max) [] d) with
  | Ok (e, out, d) => (match e with Some e => Err e | None => Ok (zlen out) end, (d, out))
  | r => (recast r, (d, out))
  end.
(** The send loop: how many datagrams were taken, and the error that ended it unless it is
    backpressure. *)
Fixpoint send_frames (frames : list PacketBuf) (sent : Z) d : outcome (Z * option ErrorKind * TunDevice) :=
  match frames with
  | [] => Ok (sent, None, d)
  | b :: frames =>
      let* '(r, d) := writer b d in
      match r with
      | inr _ => send_frames frames (sent + 1) d
      | inl e => Ok (sent, if bool_decide (e = WouldBlock) then None else Some e, d)
      end
  end.
Definition tun_send : ST (TunDevice * list PacketBuf) Z := fun '(d, frames) =>
  match
    (let* '(sent, err, d) := send_frames frames 0 d in
     let* d := tn_drops (take (Z.to_nat sent) frames) d in
     Ok (sent, err, d))
  with
  | Ok (sent, err, d) =>
      (if 0 <? sent then Ok sent else match err with Some e => Err e | None => Ok 0 end,
       (d, replicate (Z.to_nat sent) packet_default ++ drop (Z.to_nat sent) frames))
  | r => (recast r, (d, frames))
  end.
Definition loop_device : Device TunDevice := {|
  dev_poll_at := fun _ d => (Ok tt, d);
  dev_recv := tun_recv;
  dev_send := tun_send;
  dev_alloc := tn_alloc;
  dev_drop := fun b d => match tn_drop b d with Ok d => (Ok tt, d) | r => (recast r, d) end;
  dev_frame_size := fun d => frame_size (tn_pool d)
|}.
End Loops.
Definition tun_device : Device TunDevice := loop_device read_datagram write_datagram.
Definition utun_device : Device TunDevice := loop_device read_packet write_packet.
End Tun.
