(* ===== verification/TunProps.v ===== *)
(** * The TUN backends keep the device laws and carry every datagram once, in order

    The receive and send loops are proved once, against what they need of the read and the
    write of one datagram ([reads] and [writes]); the Linux and the macOS backend discharge it.
    A datagram on the descriptor is [pre] bytes followed by the packet. *)
From Stdlib Require Import ZArith Lia Bool.
From stdpp Require Import base numbers option list.
From S2P Require Import Prelude BufferPool Device Tun.
#[local] Open Scope Z_scope.
Implicit Types d : TunDevice.

(** What is relied on of the system calls: a read fills at most the room it is given with
    bytes, and calls are not interrupted [patience] times in a row. *)
Record syscalls_ok (rd : nat -> Z -> io (list Z)) (wr : nat -> list Z -> io Z) (patience : nat) : Prop := {
  so_read k room data : rd k room = inr data -> zlen data <= room /\ bytes_ok data;
  so_rd k room : exists j, (j < patience)%nat /\ rd (k + j)%nat room <> inl Interrupted;
  so_wr k data : exists j, (j < patience)%nat /\ wr (k + j)%nat data <> inl Interrupted
}.
Record tn_inv d (held : list Z) : Prop := { tn_pool_inv : pool_inv (tn_pool d) held; tn_bytes : Forall bytes_ok (arena (tn_pool d)) }.
#[export] Instance tn_inv_perm d : Proper ((≡ₚ) ==> iff) (tn_inv d).
Proof. intros h k E. split; intros [I B]; constructor; try done; [by rewrite <- E|by rewrite E]. Qed.
Definition tn_handle d : PacketBuf -> Prop := handle (pool_id (tn_pool d)) (frame_size (tn_pool d)).
(** Two devices over the same pool geometry. *)
Definition tn_same d d' : Prop :=
  pool_id (tn_pool d') = pool_id (tn_pool d) /\ frame_size (tn_pool d') = frame_size (tn_pool d).
#[export] Instance tn_same_pre : PreOrder tn_same.
Proof. split; [done|]. intros a b c [] []. split; congruence. Qed.
(** The room of a fresh buffer behind its headroom. *)
Definition room_of d : Z := frame_size (tn_pool d) - Z.min (frame_size (tn_pool d) / 4) 128.

(** The retry loops end with the first call that is not interrupted. *)
Lemma read_loop_spec rd patience room k :
  (exists j, (j < patience)%nat /\ rd (k + j)%nat room <> inl Interrupted) ->
  exists r j, read_loop rd patience room k = Ok (r, j) /\ r <> inl Interrupted /\ exists i, rd i room = r.
Proof.
  revert k. induction patience as [|p IH]; intros k (j & Hj & N); [lia|]. cbn [read_loop].
  destruct (decide (rd k room = inl Interrupted)) as [E|E].
  - rewrite E. apply IH. destruct j as [|j]; [by rewrite Nat.add_0_r in N|]. exists j. split; [lia|].
    by rewrite Nat.add_succ_r in N.
  - exists (rd k room), (S k). split; [|eauto]. by destruct (rd k room) as [[]|].
Qed.
Lemma write_loop_spec wr patience data k :
  (exists j, (j < patience)%nat /\ wr (k + j)%nat data <> inl Interrupted) ->
  exists r j, write_loop wr patience data k = Ok (r, j) /\ r <> inl Interrupted.
Proof.
  revert k. induction patience as [|p IH]; intros k (j & Hj & N); [lia|]. cbn [write_loop].
  destruct (decide (wr k data = inl Interrupted)) as [E|E].
  - rewrite E. apply IH. destruct j as [|j]; [by rewrite Nat.add_0_r in N|]. exists j. split; [lia|].
    by rewrite Nat.add_succ_r in N.
  - exists (wr k data), (S k). split; [|done]. by destruct (wr k data) as [[]|].
Qed.

(** ** The pool of the device *)
Lemma tn_drop_spec d held b :
  tn_inv d (owned [b] ++ held) -> tn_handle d b ->
  exists d', tn_drop b d = Ok d' /\ tn_inv d' held /\ tn_same d d' /\ tn_read d' = tn_read d /\ tn_written d' = tn_written d.
Proof.
  intros [I B] Hb. unfold tn_drop. destruct (drop_handle_spec _ b held I B Hb) as (p & -> & Ip & Bp & E1 & E2). cbn [obind].
  eexists. split; [reflexivity|]. done.
Qed.
Lemma tn_drops_spec bs d held :
  tn_inv d (owned bs ++ held) -> Forall (tn_handle d) bs ->
  exists d', tn_drops bs d = Ok d' /\ tn_inv d' held /\ tn_same d d' /\ tn_read d' = tn_read d /\ tn_written d' = tn_written d.
Proof.
  revert d. induction bs as [|b bs IH]; intros d I F; [by exists d|]. apply Forall_cons in F as [Hb F].
  rewrite owned_cons, <- app_assoc in I. cbn [tn_drops].
  destruct (tn_drop_spec d _ b I Hb) as (d1 & -> & I1 & S1 & R1 & W1). cbn [obind].
  destruct (IH d1 I1) as (d2 & -> & I2 & S2 & R2 & W2).
  { unfold tn_handle. destruct S1 as [-> ->]. done. }
  exists d2. split_and!; try done; [by etrans|congruence..].
Qed.

Lemma alloc_packet_offset p b p' :
  alloc_packet p = Ok (Some b, p') -> 0 < frame_size p -> data_offset b = Z.min (frame_size p / 4) 128.
Proof.
  intros E Hs. unfold alloc_packet in E. apply obind_Ok in E as ([i q] & Ea & E). destruct i as [i|]; [|done].
  apply obind_Ok in E as (c & Eb & [= -> ->]).
  assert (frame_size p' = frame_size p) as Ef.
  { unfold alloc in Ea. destruct (_ =? 0); [done|]. apply obind_Ok in Ea as (j & _ & Ea). apply obind_Ok in Ea as (q & Eq & [= -> ->]).
    unfold mark_used in Eq. apply obind_Ok in Eq as (o & _ & Eq). destruct (eqb _ _); [done|].
    apply obind_Ok in Eq as (u & _ & [= <-]). done. }
  unfold packet_buf in Eb. destruct (_ && _); [|done]. apply obind_Ok in Eb as (m & _ & [= <-]). cbn. rewrite Ef.
  pose proof (Z.div_lt (frame_size p) 4). lia.
Qed.
(** A fresh frame for the receive loop. *)
Lemma tn_alloc_spec d held :
  tn_inv d held ->
  alloc_packet (tn_pool d) = Ok (None, tn_pool d) \/
  exists b p, alloc_packet (tn_pool d) = Ok (Some b, p) /\ tn_inv (d <| tn_pool := p |>) (buf_idx b :: held)
    /\ tn_same d (d <| tn_pool := p |>) /\ tn_handle d b /\ buf_len b = 0 /\ buf_pool b = Some (pool_id (tn_pool d))
    /\ data_offset b = Z.min (frame_size (tn_pool d) / 4) 128.
Proof.
  intros [I B]. destruct (alloc_packet_spec _ _ I) as [[-> _]|(b & p & E & I' & (S1 & S2 & S3 & S4) & F)]; [by left|].
  right. exists b, p. pose proof F as (L & Ep & Hc & Ho & Hm). rewrite Forall_forall in B. split; [done|].
  split; [constructor; cbn; [done|rewrite S1; by apply Forall_forall]|]. split_and!; try done.
  - split; [unfold buf_wf; lia|]. split; [by apply B|]. by rewrite Ep.
  - eapply alloc_packet_offset; [done|]. apply (inv_size _ _ I).
Qed.

(** ** What the loops need of one datagram *)
Section Loops.
Context (pre : nat)
  (reader : PacketBuf -> TunDevice -> outcome (io (option Z) * PacketBuf * TunDevice))
  (writer : PacketBuf -> TunDevice -> outcome (io unit * TunDevice))
  (wire : list Z -> list Z -> Prop).
(** The datagram that the reader found, and whether it is the packet of the buffer. *)
Definition read_effect d d' (r : io (option Z)) (b' : PacketBuf) : Prop :=
  match r with
  | inr (Some n) => exists dg, tn_read d' = tn_read d ++ [dg] /\ (pre <= length dg)%nat /\ as_slice b' = drop pre dg
  | inr None => tn_read d' = tn_read d
  | inl e => tn_read d' = tn_read d \/
      exists dg, tn_read d' = tn_read d ++ [dg] /\ e = InvalidData /\ (zlen dg < Z.of_nat pre \/ room_of d <= zlen dg)
  end.
Definition reads : Prop := forall d b,
  tn_handle d b -> buf_pool b = Some (pool_id (tn_pool d)) -> data_offset b = Z.min (frame_size (tn_pool d) / 4) 128 ->
  exists r b' d', reader b d = Ok (r, b', d') /\ tn_pool d' = tn_pool d /\ tn_written d' = tn_written d
    /\ tn_handle d b' /\ buf_idx b' = buf_idx b /\ buf_pool b' = buf_pool b /\ read_effect d d' r b'.
Definition writes : Prop := forall d b,
  tn_handle d b ->
  exists r d', writer b d = Ok (r, d') /\ tn_pool d' = tn_pool d /\ tn_read d' = tn_read d
    /\ match r with
       | inr _ => exists w, tn_written d' = tn_written d ++ [w] /\ wire (as_slice b) w
       | inl _ => tn_written d' = tn_written d
       end.
Definition carried (dg : list Z) (b : PacketBuf) : Prop := (pre <= length dg)%nat /\ as_slice b = drop pre dg.
(** A datagram that is refused is shorter than what precedes a packet or fills the frame. *)
Definition refused d (e : option ErrorKind) (rej : list (list Z)) : Prop :=
  rej = [] \/ exists dg, rej = [dg] /\ e = Some InvalidData /\ (zlen dg < Z.of_nat pre \/ room_of d <= zlen dg).
Context (R : reads) (W : writes).
Lemma recv_loop_spec max out d held :
  tn_inv d (owned out ++ held) -> Forall (tn_handle d) out ->
  exists e more d' dgs rej, recv_loop reader max out d = Ok (e, out ++ more, d')
    /\ tn_inv d' (owned (out ++ more) ++ held) /\ tn_same d d' /\ Forall (tn_handle d) (out ++ more)
    /\ (length more <= max)%nat /\ tn_written d' = tn_written d
    /\ tn_read d' = tn_read d ++ dgs ++ rej /\ Forall2 carried dgs more /\ refused d e rej.
Proof.
  revert out d. induction max as [|max IH]; intros out d I F; cbn [recv_loop].
  { exists None, [], d, [], []. rewrite !app_nil_r. split_and!; try done. by left. }
  destruct (tn_alloc_spec d _ I) as [-> |(b & p & -> & I1 & S1 & Hb & Lb & Pb & Ob)]; cbn [obind].
  { exists None, [], d, [], []. rewrite !app_nil_r. replace (d <| tn_pool := tn_pool d |>) with d by (by destruct d).
    split_and!; try done; [cbn; lia|by left]. }
  destruct (R (d <| tn_pool := p |>) b) as (r & b' & d2 & -> & P2 & W2 & H2 & Ix & Po & Ef).
  { unfold tn_handle. by destruct S1 as [-> ->]. }
  { by destruct S1 as [-> _]. }
  { by destruct S1 as [_ ->]. }
  cbn [obind]. assert (tn_same d d2) as S2 by (unfold tn_same; rewrite P2; exact S1).
  assert (tn_handle d b') as H2' by (unfold tn_handle in *; destruct S1 as [<- <-]; done).
  assert (owned [b'] = [buf_idx b]) as Eo by (rewrite (owned_one b' (pool_id (tn_pool d))) by congruence; by rewrite Ix).
  assert (tn_inv d2 (owned [b'] ++ owned out ++ held)) as I2.
  { rewrite Eo. destruct I1 as [A B]. constructor; rewrite P2; done. }
  assert (room_of (d <| tn_pool := p |>) = room_of d) as Er by (unfold room_of; by destruct S1 as [_ ->]).
  assert (forall b, tn_handle d b <-> tn_handle d2 b) as Hs by (intros c; unfold tn_handle; by destruct S2 as [-> ->]).
  unfold read_effect in Ef. rewrite Er in Ef. change (tn_read (d <| tn_pool := p |>)) with (tn_read d) in Ef.
  change (tn_written (d <| tn_pool := p |>)) with (tn_written d) in W2.
  destruct r as [e|[n|]].
  - destruct (tn_drop_spec d2 _ b' I2) as (d3 & -> & I3 & S3 & R3 & W3); [by apply Hs|]. cbn [obind].
    assert (exists rej, tn_read d3 = tn_read d ++ rej /\ refused d (Some e) rej) as (rej & Erj & Hrj).
    { rewrite R3. destruct Ef as [E|(dg & E & -> & Hd)].
      - exists []. rewrite app_nil_r. split; [done|by left].
      - exists [dg]. split; [done|]. right. by exists dg. }
    exists (Some e), [], d3, [], rej. rewrite !app_nil_r. split_and!; try done; [by etrans|cbn; lia|congruence].
  - destruct (IH (out ++ [b']) d2) as (e & more & d3 & dgs & rej & -> & I3 & S3 & F3 & L3 & W3 & R3 & C3 & J3).
    { rewrite owned_app. eapply tn_inv_perm; [|exact I2]. perm. }
    { apply Forall_app. split; [|constructor; [by apply Hs|done]]. eapply Forall_impl; [exact F|]. apply Hs. }
    destruct Ef as (dg & Ed & Hd & Ea). rewrite <- app_assoc in *.
    exists e, (b' :: more), d3, (dg :: dgs), rej. split_and!; try done.
    + by etrans.
    + eapply Forall_impl; [exact F3|]. apply Hs.
    + cbn. lia.
    + congruence.
    + rewrite R3, Ed. cbn. by rewrite <- app_assoc.
    + constructor; done.
    + unfold refused, room_of in *. destruct S2 as [_ E2]. by rewrite E2 in J3.
  - destruct (tn_drop_spec d2 _ b' I2) as (d3 & -> & I3 & S3 & R3 & W3); [by apply Hs|]. cbn [obind].
    exists None, [], d3, [], []. rewrite !app_nil_r. split_and!; try done; [by etrans|cbn; lia|congruence|cbn in *; congruence|by left].
Qed.
Lemma send_frames_spec frames sent d held :
  tn_inv d held -> Forall (tn_handle d) frames ->
  exists n e d' ws, send_frames writer frames sent d = Ok (sent + Z.of_nat n, e, d') /\ (n <= length frames)%nat
    /\ tn_pool d' = tn_pool d /\ tn_read d' = tn_read d
    /\ tn_written d' = tn_written d ++ ws /\ Forall2 wire (as_slice <$> take n frames) ws.
Proof.
  revert sent d. induction frames as [|b frames IH]; intros sent d I F; cbn [send_frames].
  { exists 0%nat, None, d, []. rewrite Z.add_0_r, app_nil_r. split_and!; try done. }
  apply Forall_cons in F as [Hb F]. destruct (W d b Hb) as (r & d1 & -> & P1 & R1 & W1). cbn [obind].
  destruct r as [e|u].
  - exists 0%nat. eexists _, d1, []. rewrite Z.add_0_r, app_nil_r. split_and!; try done; lia.
  - destruct W1 as (w & W1 & Hw). destruct (IH (sent + 1) d1) as (n & e & d2 & ws & -> & Hn & P2 & R2 & W2 & Fw).
    { destruct I as [A B]. constructor; by rewrite P1. }
    { unfold tn_handle. by rewrite P1. }
    exists (S n), e, d2, (w :: ws). split; [do 3 f_equal; lia|]. split; [cbn; lia|]. split; [congruence|]. split; [congruence|].
    split; [rewrite W2, W1; by rewrite <- app_assoc|]. by constructor.
Qed.

Lemma tun_recv_spec d held max out :
  tn_inv d (owned out ++ held) -> Forall (tn_handle d) out -> 0 <= max ->
  exists e out' d' dgs rej, tun_recv reader max (d, out) = (match e with Some e => Err e | None => Ok (zlen out') end, (d', out'))
    /\ tn_inv d' (owned out' ++ held) /\ tn_same d d' /\ Forall (tn_handle d) out' /\ zlen out' <= max
    /\ tn_written d' = tn_written d /\ tn_read d' = tn_read d ++ dgs ++ rej /\ Forall2 carried dgs out' /\ refused d e rej.
Proof.
  intros I F Hm. unfold tun_recv. destruct (tn_drops_spec out d held I F) as (d1 & -> & I1 & S1 & R1 & W1). cbn [obind].
  destruct (recv_loop_spec (Z.to_nat max) [] d1 held I1) as (e & more & d2 & dgs & rej & -> & I2 & S2 & F2 & L2 & W2 & R2 & C2 & J2); [done|].
  exists e, more, d2, dgs, rej. split_and!; try done; [by etrans| |unfold zlen; lia|congruence|congruence|].
  - eapply Forall_impl; [exact F2|]. intros b. unfold tn_handle. by destruct S1 as [-> ->].
  - unfold refused, room_of in *. destruct S1 as [_ E1]. by rewrite E1 in J2.
Qed.
Lemma tun_send_spec d held frames :
  tn_inv d (owned frames ++ held) -> Forall (tn_handle d) frames ->
  exists n e d' ws, (n <= length frames)%nat /\ (e = None \/ n = 0%nat)
    /\ tun_send writer (d, frames)
       = (match e with Some e => Err e | None => Ok (Z.of_nat n) end, (d', replicate n packet_default ++ drop n frames))
    /\ tn_inv d' (owned (replicate n packet_default ++ drop n frames) ++ held) /\ tn_same d d'
    /\ tn_read d' = tn_read d /\ tn_written d' = tn_written d ++ ws /\ Forall2 wire (as_slice <$> take n frames) ws.
Proof.
  intros I F. destruct (send_frames_spec frames 0 d _ I F) as (n & e & d1 & ws & E & Hn & P1 & R1 & W1 & Fw).
  unfold tun_send. rewrite E. cbn [obind]. rewrite Z.add_0_l, Nat2Z.id.
  destruct (tn_drops_spec (take n frames) d1 (owned (drop n frames) ++ held)) as (d2 & -> & I2 & S2 & R2 & W2).
  { destruct I as [A B]. constructor; rewrite P1; [|done]. by rewrite app_assoc, <- owned_app, take_drop. }
  { apply Forall_take. unfold tn_handle. by rewrite P1. }
  cbn [obind]. exists n, (if 0 <? Z.of_nat n then None else e), d2, ws. split; [done|].
  split; [destruct n; [by right|by left]|]. split; [destruct n; [by destruct e|by rewrite Nat2Z.id]|].
  rewrite owned_app, owned_defaults. split; [done|].
  split; [destruct S2 as [E1 E2]; split; congruence|]. split_and!; [congruence..|done].
Qed.

(** A device whose reads and writes are such keeps the device laws. *)
Definition loop_laws : @DeviceLaws TunDevice (loop_device reader writer).
Proof.
  refine {| dev_pool := fun d => pool_id (tn_pool d); dev_inv := tn_inv |}.
  - intros d h k E I. by rewrite <- E.
  - intros d held I. cbn. unfold tn_alloc.
    destruct (tn_alloc_spec d _ I) as [-> |(b & p & -> & I1 & S1 & Hb & Lb & Pb & _)].
    + exists None, (d <| tn_pool := tn_pool d |>). by destruct d.
    + exists (Some b), (d <| tn_pool := p |>). destruct S1. done.
  - intros d held b I Hb. destruct (tn_drop_spec d held b I Hb) as (d' & E & I' & [S1 S2] & _).
    exists d'. cbn. by rewrite E.
  - intros d held frames I F.
    destruct (tun_send_spec d held frames I F) as (n & e & d' & ws & Hn & He & E & I' & [S1 S2] & _).
    eexists _, d', _. split; [exact E|]. split_and!; try done. destruct e as [e|].
    + destruct He as [He|He]; [done|by rewrite He].
    + rewrite Nat2Z.id. unfold zlen. split; [lia|done].
  - intros d held max out I Hm F.
    destruct (tun_recv_spec d held max out I F Hm) as (e & out' & d' & dgs & rej & E & I' & [S1 S2] & F' & L & _).
    eexists _, d', out'. split; [exact E|]. split_and!; try done; by destruct e.
  - intros d held now I. by exists (Ok tt), d.
Defined.
End Loops.

(** ** The two backends *)
Section Backends.
Context (rd : nat -> Z -> io (list Z)) (wr : nat -> list Z -> io Z) (patience : nat) (Ok_ : syscalls_ok rd wr patience).

(** One read on a fresh buffer: the datagram lies behind the headroom. *)
Lemma read_datagram_spec d b :
  tn_handle d b -> buf_pool b = Some (pool_id (tn_pool d)) -> data_offset b = Z.min (frame_size (tn_pool d) / 4) 128 ->
  exists r b' d', read_datagram rd patience b d = Ok (r, b', d') /\ tn_pool d' = tn_pool d /\ tn_written d' = tn_written d
    /\ tn_handle d b' /\ buf_idx b' = buf_idx b /\ buf_pool b' = buf_pool b
    /\ match r with
       | inr (Some n) => tn_read d' = tn_read d ++ [as_slice b'] /\ n = buf_len b' /\ 0 < n
       | inr None => tn_read d' = tn_read d
       | inl e => tn_read d' = tn_read d \/
           exists dg, tn_read d' = tn_read d ++ [dg] /\ e = InvalidData /\ room_of d <= zlen dg
       end.
Proof.
  intros Hb Pb Ob. pose proof Hb as (Wb & Bb & Cb). rewrite Pb in Cb. destruct Cb as [_ Cb]. unfold read_datagram.
  destruct (read_loop_spec rd patience (capacity b - data_offset b) (tn_calls d) (so_rd _ _ _ Ok_ _ _))
    as (r & k & -> & Ni & i & Hi). cbn [obind].
  destruct r as [e|data].
  { assert (exists r, match e with WouldBlock => Ok (inr None, b, d <| tn_calls := k |>) | e => Ok (inl e, b, d <| tn_calls := k |>) end
      = Ok (r, b, d <| tn_calls := k |>) /\ match r with inr (Some n) => False | _ => True end) as (r & -> & Hr).
    { destruct e; eexists; (split; [reflexivity|done]). }
    eexists r, b, _. split; [done|]. split_and!; try done. destruct r as [e'|[n|]]; [by left|done|done]. }
  destruct (so_read _ _ _ Ok_ _ _ _ Hi) as [Hl Hd]. unfold buf_wf in Wb. pose proof (zlen_nonneg data) as Hp.
  destruct (copy_at (buf_mem b) (data_offset b) data) as [m| | |] eqn:Ec.
  2-4: exfalso; revert Ec; rewrite copy_at_ok by (unfold capacity in *; lia); done.
  cbn [obind]. pose proof (copy_at_inv _ _ _ _ Ec) as (Lm & _ & _).
  assert (forall n, 0 <= n <= capacity b - data_offset b -> tn_handle d (b <| buf_mem := m |> <| buf_len := n |>)) as Hh.
  { intros n Hn. split; [unfold buf_wf, capacity in *; cbn; lia|]. split; [by eapply copy_at_bytes|]. cbn. rewrite Pb.
    unfold capacity in *. cbn. split; [done|lia]. }
  assert (tn_handle d (b <| buf_mem := m |>)) as Hm by (specialize (Hh (buf_len b) ltac:(lia)); by destruct b).
  destruct (zlen data =? 0) eqn:E0; bools.
  { eexists (inr None), _, _. split; [reflexivity|]. done. }
  destruct (zlen data =? capacity b - data_offset b) eqn:E1; bools.
  { eexists (inl InvalidData), _, _. split; [reflexivity|]. split_and!; try done. right. exists data. split_and!; try done.
    unfold room_of. lia. }
  unfold set_len. rewrite (proj2 (Z.leb_le _ _)) by (unfold capacity in *; cbn in *; lia). cbn [obind].
  eexists (inr (Some (zlen data))), _, _. split; [reflexivity|]. split_and!; try done; [apply Hh; lia| |lia].
  cbn. do 3 f_equal. unfold as_slice. cbn. revert Ec. rewrite copy_at_ok by (unfold capacity in *; lia). intros [= <-].
  rewrite drop_app_length' by (rewrite length_take; unfold capacity, zlen in *; lia).
  unfold zlen. by rewrite Nat2Z.id, take_app_length.
Qed.
Lemma tun_reads : reads 0 (read_datagram rd patience).
Proof.
  intros d b Hb Pb Ob. destruct (read_datagram_spec d b Hb Pb Ob) as (r & b' & d' & E & P & W & H & Ix & Po & Ef).
  exists r, b', d'. split_and!; try done. destruct r as [e|[n|]]; [|destruct Ef as (Ef & _ & _)|done].
  - destruct Ef as [Ef|(dg & Ef & -> & Hd)]; [by left|]. right. exists dg. split_and!; try done. by right.
  - exists (as_slice b'). split_and!; [done|lia|done].
Qed.
Lemma utun_reads : reads 4 (read_packet rd patience).
Proof.
  intros d b Hb Pb Ob. destruct (read_datagram_spec d b Hb Pb Ob) as (r & b' & d' & E & P & W & H & Ix & Po & Ef).
  unfold read_packet. rewrite E. cbn [obind]. destruct r as [e|[n|]].
  - eexists _, b', d'. split; [done|]. split_and!; try done.
    destruct Ef as [Ef|(dg & Ef & -> & Hd)]; [by left|]. right. exists dg. split_and!; try done. by right.
  - destruct Ef as (Ef & -> & Hn). pose proof H as (Wb & Bb & Cb). destruct (buf_len b' <? 4) eqn:E4; bools.
    + eexists _, b', d'. split; [done|]. split_and!; try done. right. eexists. split; [exact Ef|]. split; [done|]. left.
      rewrite zlen_as_slice by done. lia.
    + destruct (pull_header_spec b' 4 Wb ltac:(lia)) as (c & Ec & Wc & Sc & Oc & Lc & Cc & Ic & Pc).
      rewrite Ec. cbn [obind]. eexists _, c, d'. split; [done|]. split_and!; try done; try congruence.
      * split; [done|]. rewrite Cc, Pc. split; [|done]. unfold pull_header in Ec. destruct (_ <=? _); [|done]. by injection Ec as <-.
      * exists (as_slice b'). split; [done|]. split; [|done]. pose proof (zlen_as_slice b' Wb). unfold zlen in *. lia.
  - eexists _, b', d'. split; [done|]. done.
Qed.
Lemma write_bytes_spec data d :
  exists r d', write_bytes wr patience data d = Ok (r, d') /\ tn_pool d' = tn_pool d /\ tn_read d' = tn_read d
    /\ tn_written d' = tn_written d ++ match r with inr _ => [data] | inl _ => [] end.
Proof.
  unfold write_bytes. destruct (write_loop_spec wr patience data (tn_calls d) (so_wr _ _ _ Ok_ _ _)) as (r & k & -> & _). cbn [obind].
  destruct r as [e|n]; [eexists (inl e), _; split; [reflexivity|]; by rewrite app_nil_r|].
  destruct (n =? zlen data); [eexists (inr tt), _; by split|eexists (inl WriteZero), _; split; [reflexivity|]; by rewrite app_nil_r].
Qed.
(** A packet on the macOS descriptor: the family of its IP version, then the packet. *)
Definition framed (p w : list Z) : Prop :=
  exists first rest family, p = first :: rest
    /\ (Z.shiftr first 4 = 4 /\ family = AF_INET \/ Z.shiftr first 4 = 6 /\ family = AF_INET6) /\ w = be32 family ++ p.
Lemma tun_writes : writes (write_datagram wr patience) eq.
Proof.
  intros d b _. destruct (write_bytes_spec (as_slice b) d) as (r & d' & E & P & R & W). exists r, d'. split_and!; try done.
  destruct r; [by rewrite app_nil_r in W|eauto].
Qed.
Lemma utun_writes : writes (write_packet wr patience) framed.
Proof.
  intros d b _. unfold write_packet, family_for. destruct (as_slice b) as [|x l] eqn:Es; [by eexists (inl _), d|].
  assert (forall f, Z.shiftr x 4 = 4 /\ f = AF_INET \/ Z.shiftr x 4 = 6 /\ f = AF_INET6 ->
    exists r d', write_bytes wr patience (be32 f ++ x :: l) d = Ok (r, d') /\ tn_pool d' = tn_pool d /\ tn_read d' = tn_read d
    /\ match r with inr _ => exists w, tn_written d' = tn_written d ++ [w] /\ framed (x :: l) w
       | inl _ => tn_written d' = tn_written d end) as Go.
  { intros f Hf. destruct (write_bytes_spec (be32 f ++ x :: l) d) as (r & d' & E & P & R & W). exists r, d'. split_and!; try done.
    destruct r; [by rewrite app_nil_r in W|]. eexists. split; [exact W|]. by exists x, l, f. }
  destruct (Z.shiftr x 4 =? 4) eqn:E4; bools; [apply Go; by left|].
  destruct (Z.shiftr x 4 =? 6) eqn:E6; bools; [apply Go; by right|]. by eexists (inl _), d.
Qed.
End Backends.

(** ** Properties *)
Section Properties.
Context (rd : nat -> Z -> io (list Z)) (wr : nat -> list Z -> io Z) (patience : nat).

(** The Linux backend, or the macOS one, and the bytes in front of a packet. *)
Definition backend (mac : bool) : Device TunDevice :=
  if mac then utun_device rd wr patience else tun_device rd wr patience.
Definition prefix_len (mac : bool) : nat := if mac then 4%nat else 0%nat.
Definition on_wire (mac : bool) : list Z -> list Z -> Prop := if mac then framed else eq.

Lemma mtu_frame mtu : mtu_valid mtu = true -> 512 <= frame_size_for_mtu mtu <= 66048.
Proof.
  unfold mtu_valid. intros V. bools. unfold frame_size_for_mtu. pose proof (Z.div_le_mono 512 (mtu + 4 + 128 + 64 + 511) 512).
  pose proof (Z.div_le_mono (mtu + 4 + 128 + 64 + 511) 66303 512). change (512 / 512) with 1 in *. change (66303 / 512) with 129 in *. lia.
Qed.
Lemma tun_pool_ok id mtu :
  mtu_valid mtu = true ->
  exists p, pool_new id TUN_FRAME_COUNT (frame_size_for_mtu mtu) = Ok p /\ pool_inv p []
    /\ Forall bytes_ok (arena p) /\ frame_size p = frame_size_for_mtu mtu /\ pool_id p = id /\ num_frames p = TUN_FRAME_COUNT.
Proof.
  intros V. pose proof (mtu_frame mtu V) as Hf.
  assert (exists p, pool_new id TUN_FRAME_COUNT (frame_size_for_mtu mtu) = Ok p) as [p Ep].
  { unfold pool_new. replace (_ && _) with true; [eauto|]. symmetry. bools. unfold TUN_FRAME_COUNT, U64MAX. lia. }
  destruct (pool_new_zeroed _ _ _ _ Ep) as (B & Ef & Ei). exists p. split; [done|]. split; [by eapply pool_new_inv|].
  split_and!; try done. unfold pool_new in Ep. destruct (_ && _); [|done]. by injection Ep as <-.
Qed.
(** Construction succeeds exactly for a valid MTU and name, when the kernel obliges. *)
Lemma tun_new_ok id name mtu opened field :
  mtu_valid mtu = true -> zlen name < IFNAMSIZ -> existsb (Z.eqb 0) name = false ->
  (forall l, opened l = Ok field) -> exists d, tun_new_with_mtu id name mtu opened = Ok (c_str field, d) /\ num_frames (tn_pool d) = TUN_FRAME_COUNT.
Proof.
  intros V Hn Hz Ho. unfold tun_new_with_mtu. rewrite V, Hz. rewrite (proj2 (Z.leb_gt _ _)) by done. cbn [negb orb].
  unfold set_ifname. change (zlen (replicate (Z.to_nat IFNAMSIZ) 0)) with IFNAMSIZ. rewrite (proj2 (Z.ltb_lt _ _)) by done.
  pose proof (zlen_nonneg name). set (l := replicate _ _). assert (zlen l = IFNAMSIZ) as Ll by done. clearbody l.
  destruct (copy_at l 0 name) as [m| | |] eqn:Ec.
  2-4: exfalso; revert Ec; rewrite copy_at_ok by lia; done.
  pose proof (copy_at_inv _ _ _ _ Ec) as (Lm & _ & _). cbn [obind]. rewrite set_at_ok by lia.
  cbn [obind]. rewrite Ho. cbn [obind]. destruct (tun_pool_ok id mtu V) as (p & -> & _ & _ & _ & _ & En). cbn [obind]. eauto.
Qed.

(** C24. Both TUN backends keep the laws of a device from their construction on: a device that
    [new_with_mtu] builds has the frame size of its MTU and all its frames, and every operation
    of the trait returns, hands out only frames that nobody else holds and takes back exactly
    what it took, for any system calls that respect the buffer they are given and are not
    interrupted for ever. *)
Theorem tun_refines_device (mac : bool) id name unit_ mtu opened opened' d :
  syscalls_ok rd wr patience ->
  (if mac then utun_new_with_mtu id unit_ mtu opened' = Ok d
   else exists assigned, tun_new_with_mtu id name mtu opened = Ok (assigned, d)) ->
  exists L : @DeviceLaws TunDevice (backend mac),
    @dev_inv _ _ L d [] /\ @dev_pool _ _ L d = id
    /\ @dev_frame_size _ (backend mac) d = frame_size_for_mtu mtu
    /\ (forall d held, @dev_inv _ _ L d held <-> tn_inv d held).
Proof.
  intros So E.
  assert (exists p, d = mkTunDevice p 0 [] [] /\ pool_new id TUN_FRAME_COUNT (frame_size_for_mtu mtu) = Ok p) as (p & -> & Ep).
  { destruct mac.
    - unfold utun_new_with_mtu in E. destruct (mtu_valid mtu); [|done]. cbn [negb] in E.
      apply obind_Ok in E as (c & _ & E). apply obind_Ok in E as (o & _ & E). apply obind_Ok in E as (p & Ep & [= <-]). eauto.
    - destruct E as [a E]. unfold tun_new_with_mtu in E. destruct (mtu_valid mtu); [|done]. destruct (_ || _); [done|]. cbn [negb] in E.
      apply obind_Ok in E as (c & _ & E). apply obind_Ok in E as (o & _ & E). apply obind_Ok in E as (p & Ep & [= _ <-]). eauto. }
  destruct (pool_new_zeroed _ _ _ _ Ep) as (B & Ef & Ei). pose proof (pool_new_inv _ _ _ _ Ep) as I.
  destruct mac; cbn [backend].
  - exists (loop_laws 4 _ _ _ (utun_reads rd wr patience So) (utun_writes rd wr patience So)). done.
  - exists (loop_laws 0 _ _ _ (tun_reads rd wr patience So) (tun_writes rd wr patience So)). done.
Qed.

(** What the application receives is what the kernel delivered: [recv] hands out the
    datagrams of its reads in order, each in a frame of its own and (macOS) without its
    address family; at most one more datagram was read, and then the call returns
    [InvalidData] because that datagram is too short for a family or fills the frame.  A
    datagram within the MTU that the device was built for never fills it, however the
    reads were interrupted in between. *)
Theorem tun_recv_delivers (mac : bool) d held max out :
  syscalls_ok rd wr patience -> tn_inv d (owned out ++ held) -> 0 <= max -> Forall (tn_handle d) out ->
  exists r d' out' dgs rej, @dev_recv _ (backend mac) max (d, out) = (r, (d', out'))
    /\ tn_inv d' (owned out' ++ held) /\ zlen out' <= max /\ tn_written d' = tn_written d
    /\ tn_read d' = tn_read d ++ dgs ++ rej
    /\ Forall2 (fun dg b => (prefix_len mac <= length dg)%nat /\ as_slice b = drop (prefix_len mac) dg) dgs out'
    /\ (r = Ok (zlen out') /\ rej = [] \/ exists e, r = Err e /\ (rej = [] \/ exists dg, rej = [dg] /\ e = InvalidData))
    /\ (forall mtu, frame_size (tn_pool d) = frame_size_for_mtu mtu -> mtu_valid mtu = true ->
        Forall (fun dg => Z.of_nat (prefix_len mac) <= zlen dg <= mtu + Z.of_nat (prefix_len mac)) rej -> rej = []).
Proof.
  intros So I Hm F.
  assert (exists e out' d' dgs rej,
    @dev_recv _ (backend mac) max (d, out) = (match e with Some e => Err e | None => Ok (zlen out') end, (d', out'))
    /\ tn_inv d' (owned out' ++ held) /\ tn_same d d' /\ Forall (tn_handle d) out' /\ zlen out' <= max
    /\ tn_written d' = tn_written d /\ tn_read d' = tn_read d ++ dgs ++ rej
    /\ Forall2 (carried (prefix_len mac)) dgs out' /\ refused (prefix_len mac) d e rej)
    as (e & out' & d' & dgs & rej & E & I' & _ & _ & L & W & R & C & J).
  { destruct mac.
    - by apply (tun_recv_spec 4 _ (utun_reads rd wr patience So)).
    - by apply (tun_recv_spec 0 _ (tun_reads rd wr patience So)). }
  eexists _, d', out', dgs, rej. split; [exact E|]. split_and!; try done.
  - destruct J as [-> |(dg & -> & -> & _)]; [|right; eauto 6]. destruct e as [e|]; [right; eauto|by left].
  - intros mtu Ef V Fr. destruct J as [-> |(dg & -> & _ & Hd)]; [done|]. apply Forall_cons in Fr as [Fr _]. exfalso.
    unfold mtu_valid in V. bools. destruct V as [V1 V2].
    assert (frame_size_for_mtu mtu >= mtu + 196) as Hf.
    { unfold frame_size_for_mtu. pose proof (Z.div_mod (mtu + 4 + 128 + 64 + 511) 512 ltac:(lia)).
      pose proof (Z.mod_pos_bound (mtu + 4 + 128 + 64 + 511) 512 ltac:(lia)). lia. }
    unfold room_of in Hd. rewrite Ef in Hd. destruct mac; cbn [prefix_len] in *; lia.
Qed.

(** Every packet that [send] takes goes to the kernel exactly once, whole and in order,
    on macOS behind the family of its IP version: after [Ok(n)] the kernel took the first [n]
    packets and the caller keeps the others; after an error it took none and the caller keeps
    all.  Backpressure in the middle of a batch never repeats or loses a packet. *)
Theorem tun_send_delivers (mac : bool) d held frames :
  syscalls_ok rd wr patience -> tn_inv d (owned frames ++ held) -> Forall (tn_handle d) frames ->
  exists r n d' ws, @dev_send _ (backend mac) (d, frames) = (r, (d', replicate n packet_default ++ drop n frames))
    /\ (r = Ok (Z.of_nat n) \/ n = 0%nat /\ exists e, r = Err e) /\ (n <= length frames)%nat
    /\ tn_inv d' (owned (drop n frames) ++ held)
    /\ tn_read d' = tn_read d /\ tn_written d' = tn_written d ++ ws
    /\ Forall2 (on_wire mac) (as_slice <$> take n frames) ws.
Proof.
  intros So I F.
  assert (exists n e d' ws, (n <= length frames)%nat /\ (e = None \/ n = 0%nat)
    /\ @dev_send _ (backend mac) (d, frames)
       = (match e with Some e => Err e | None => Ok (Z.of_nat n) end, (d', replicate n packet_default ++ drop n frames))
    /\ tn_inv d' (owned (replicate n packet_default ++ drop n frames) ++ held) /\ tn_same d d'
    /\ tn_read d' = tn_read d /\ tn_written d' = tn_written d ++ ws /\ Forall2 (on_wire mac) (as_slice <$> take n frames) ws)
    as (n & e & d' & ws & Hn & He & E & I' & _ & R & W & Fw).
  { destruct mac.
    - by apply (tun_send_spec _ _ (utun_writes rd wr patience So)).
    - by apply (tun_send_spec _ _ (tun_writes rd wr patience So)). }
  rewrite owned_app, owned_defaults in I'. eexists _, n, d', ws. split; [exact E|]. split_and!; try done.
  destruct e as [e|]; [|by left]. right. destruct He as [He|He]; [done|eauto].
Qed.
End Properties.

(** ** A descriptor that is interrupted, delivers one datagram and takes one *)
Definition rd1 (k : nat) (room : Z) : io (list Z) :=
  match k with
  | 0%nat => inl Interrupted
  | 1%nat => if room <? 6 then inl OtherError else inr [0; 0; 0; 2; 69; 7]
  | _ => inl WouldBlock
  end.
Definition wr1 (k : nat) (data : list Z) : io Z := if (k =? 0)%nat then inr (zlen data) else inl WouldBlock.
Lemma syscalls1 : syscalls_ok rd1 wr1 2.
Proof.
  constructor.
  - intros [|[|k]] room data; [done| |done]. cbn. destruct (room <? 6) eqn:E; bools; [done|]. intros [= <-].
    split; [unfold zlen; cbn; lia|]. by repeat constructor.
  - intros [|[|k]] room; [exists 1%nat|exists 0%nat..]; (split; [lia|]); cbn; try done; by destruct (room <? 6).
  - intros k data. exists 0%nat. split; [lia|]. unfold wr1. by destruct (k + 0 =? 0)%nat.
Qed.
Definition pool_tun : PoolInner := build 5 32 2 (replicate 2 (replicate 32 0)).
Definition dev_tun : TunDevice := mkTunDevice pool_tun 0 [] [].
Lemma dev_tun_inv : tn_inv dev_tun [].
Proof.
  constructor.
  - apply build_inv; [lia|lia|done|]. by apply Forall_replicate.
  - apply (Forall_replicate bytes_ok 2), (bytes_zeros 32).
Qed.
Definition pkt_tun (x : Z) (i : Z) : PacketBuf := mkPacketBuf (x :: replicate 31 0) 0 3 i None.
Lemma pkt_handle x i : 0 <= x < 256 -> tn_handle dev_tun (pkt_tun x i).
Proof.
  intros Hx. split; [|split; [|done]].
  - unfold buf_wf, pkt_tun, capacity. cbn [data_offset buf_len buf_mem]. rewrite zlen_cons. pose_zlen.
    unfold zlen. rewrite length_replicate. lia.
  - constructor; [done|apply bytes_zeros].
Qed.

Lemma tun_refines_device_witness :
  exists d (L : @DeviceLaws TunDevice (backend rd1 wr1 2 false)),
    tun_new_with_mtu 5 [116; 117; 110; 48] 1500 (fun _ => Ok [116; 117; 110; 48]) = Ok ([116; 117; 110; 48], d)
    /\ @dev_inv _ _ L d [] /\ @dev_frame_size _ (backend rd1 wr1 2 false) d = 2048.
Proof.
  destruct (tun_new_ok 5 [116; 117; 110; 48] 1500 (fun _ => Ok [116; 117; 110; 48]) [116; 117; 110; 48]) as (d & E & _); [done..|].
  destruct (tun_refines_device rd1 wr1 2 false 5 [116; 117; 110; 48] 0 1500 (fun _ => Ok [116; 117; 110; 48]) (fun _ _ => Panic) d syscalls1)
    as (L & I & _ & Ef & _); [by eexists|].
  exists d, L. split; [exact E|]. split; [exact I|exact Ef].
Defined.
Lemma tun_recv_delivers_witness :
  exists d' b dgs rej, @dev_recv _ (backend rd1 wr1 2 true) 4 (dev_tun, []) = (Ok 1, (d', [b]))
    /\ as_slice b = [69; 7] /\ tn_read d' = dgs ++ rej /\ rej = [] /\ tn_inv d' [buf_idx b].
Proof.
  destruct (tun_recv_delivers rd1 wr1 2 true dev_tun [] 4 [] syscalls1)
    as (r & d' & out' & dgs & rej & E & I & _ & _ & R & C & J & _); [apply dev_tun_inv|lia|done|].
  assert (exists d0 b0, @dev_recv _ (backend rd1 wr1 2 true) 4 (dev_tun, []) = (Ok 1, (d0, [b0])) /\ as_slice b0 = [69; 7]
    /\ buf_pool b0 = Some 5) as (d0 & b0 & E0 & A0 & P0).
  { eexists _, _. split; [vm_compute; reflexivity|]. done. }
  rewrite E0 in E. injection E as <- <- <-. exists d0, b0, dgs, rej. split; [done|]. split; [done|]. split; [exact R|].
  split; [destruct J as [[_ ?]|(e & ? & _)]; done|]. rewrite app_nil_r, (owned_one _ _ P0) in I. exact I.
Defined.
Lemma tun_send_delivers_witness :
  exists d' ws, @dev_send _ (backend rd1 wr1 2 true) (dev_tun, [pkt_tun 69 0; pkt_tun 96 1])
      = (Ok 1, (d', [packet_default; pkt_tun 96 1]))
    /\ tn_written d' = ws /\ ws = [[0; 0; 0; 2; 69; 0; 0]].
Proof.
  destruct (tun_send_delivers rd1 wr1 2 true dev_tun [] [pkt_tun 69 0; pkt_tun 96 1] syscalls1)
    as (r & n & d' & ws & E & Hr & Hn & _ & _ & W & Fw).
  { apply dev_tun_inv. }
  { repeat apply Forall_cons_2; [apply pkt_handle; lia..|apply Forall_nil_2]. }
  assert (exists d0, @dev_send _ (backend rd1 wr1 2 true) (dev_tun, [pkt_tun 69 0; pkt_tun 96 1])
      = (Ok 1, (d0, [packet_default; pkt_tun 96 1])) /\ tn_written d0 = [[0; 0; 0; 2; 69; 0; 0]]) as (d0 & E0 & W0).
  { eexists. split; [vm_compute; reflexivity|]. done. }
  rewrite E0 in E. injection E as _ <- _. exists d0, ws. split; [exact E0|]. split; [exact W|].
  etrans; [symmetry; exact W|exact W0].
Defined.
