(* ===== verification/Uring.v ===== *)
(** * The io_uring TUN backend ([src/device/backend/uring/mod.rs], [ring.rs])

    A request is a submission entry in a ring shared with the kernel; its buffer stays in the
    slot of [pending] that the entry's user data names until the completion entry with the same
    user data is reaped.  [UringShared] is the memory that both sides access: the rings of
    [XdpRing], the buffers that requests point to, and, with the kernel, the requests that it
    has taken and not completed.  Slot [i] of the kernel's index array always names entry [i]
    and is not kept separately; an address is an offset in the frame of the pending buffer.

    [kernel k enter s] is what the kernel makes of the shared memory at the [k]-th
    observation of the program, inside [io_uring_enter] or not, and [enter_errno k n] the error
    of that system call.  Statistics are counters of 64 bits that wrap. *)
From Stdlib Require Import ZArith Lia Bool.
From stdpp Require Import base numbers option list.
From S2P Require Import Prelude BufferPool Device XdpRing Tun.
#[local] Open Scope Z_scope.

(** ** The rings ([ring.rs]) *)
Record Sqe : Type := mkSqe {
  sqe_opcode : Z; sqe_flags : Z; sqe_fd : Z; sqe_address : Z; sqe_len : Z; sqe_user_data : Z
}.
Record Cqe : Type := mkCqe { cqe_user_data : Z; cqe_result : Z; cqe_flags : Z }.
Record UringPending : Type := mkPending { pd_buf : PacketBuf; pd_read : bool }.

Record UringShared : Type := mkShared {
  sh_sq : Ring Sqe; sh_cq : Ring Cqe; sh_flight : list Sqe; sh_pending : list (option UringPending)
}.
#[export] Instance eta_Shared : Eta UringShared := fun s => mkShared (sh_sq s) (sh_cq s) (sh_flight s) (sh_pending s).

Record UringConfig : Type := mkUringConfig { uc_entries : Z; uc_rx_depth : Z }.
Definition uring_validate (c : UringConfig) : outcome unit :=
  if negb (is_power_of_two (uc_entries c)) || negb ((2 <=? uc_entries c) && (uc_entries c <=? 4096))
     || (uc_entries c <=? uc_rx_depth c)
  then Err InvalidInput else Ok tt.

Record UringStats : Type := mkUringStats {
  enter_calls : Z; st_rx_submitted : Z; st_rx_completed : Z; st_tx_submitted : Z; st_tx_completed : Z;
  st_tx_bytes : Z; rx_errors : Z; tx_errors : Z; submit_errors : Z; last_errno : option Z
}.
#[export] Instance eta_UringStats : Eta UringStats := fun s =>
  mkUringStats (enter_calls s) (st_rx_submitted s) (st_rx_completed s) (st_tx_submitted s) (st_tx_completed s)
    (st_tx_bytes s) (rx_errors s) (tx_errors s) (submit_errors s) (last_errno s).
Definition uring_stats_default : UringStats := mkUringStats 0 0 0 0 0 0 0 0 0 None.

Record UringTunDevice : Type := mkUring {
  ud_shared : UringShared;
  sq_tail : Z;
  cq_head : Z;
  ud_pool : PoolInner;
  ud_free : list Z;          (* last element on top of the stack *)
  ud_ready : list PacketBuf;
  ud_cfg : UringConfig;
  rx_pending : Z;
  tx_pending : Z;
  ud_stats : UringStats;
  ud_error : option ErrorKind;
  ud_turn : nat
}.
#[export] Instance eta_UringTunDevice : Eta UringTunDevice := fun d =>
  mkUring (ud_shared d) (sq_tail d) (cq_head d) (ud_pool d) (ud_free d) (ud_ready d) (ud_cfg d) (rx_pending d)
    (tx_pending d) (ud_stats d) (ud_error d) (ud_turn d).

Definition EINTR : Z := 4.
Definition EAGAIN : Z := 11.
Definition ENOENT : Z := 2.
(** [io::Error::from_raw_os_error(errno).kind()], for the kinds this library tells apart. *)
Definition errno_kind (errno : Z) : ErrorKind :=
  if errno =? EINTR then Interrupted
  else if errno =? EAGAIN then WouldBlock
  else if errno =? ENOENT then NotFound
  else if (errno =? 1) || (errno =? 13) then PermissionDenied
  else if errno =? 17 then AlreadyExists
  else if errno =? 22 then InvalidInput
  else OtherError.

Section Uring.
Context (kernel : nat -> bool -> UringShared -> UringShared) (enter_errno : nat -> Z -> option Z).
Implicit Types d : UringTunDevice.
Abbreviation R := UringTunDevice.

(** The kernel gets to work before the program looks at the shared memory. *)
Definition look (enter : bool) d : R :=
  d <| ud_shared := kernel (ud_turn d) enter (ud_shared d) |> <| ud_turn ::= S |>.

(** [Ring::entries], [free_slots] and [push]; the subtraction is checked. *)
Definition ring_entries d : Z := rg_entries (sh_sq (ud_shared d)).
Definition sq_free_slots d : outcome Z :=
  let used := u32 (sq_tail d - rg_consumer (sh_sq (ud_shared d))) in
  if used <=? ring_entries d then Ok (ring_entries d - used) else Panic.
Definition sq_push (sqe : Sqe) d : outcome R :=
  let* n := sq_free_slots d in
  if 0 <? n then
    Ok (d <| ud_shared ::= fun s => s <| sh_sq ::= fun r => write_desc r (sq_tail d) sqe |> |>
          <| sq_tail := u32 (sq_tail d + 1) |>)
  else Panic.
(** [Ring::submit]: an error other than an interruption or backpressure is its errno. *)
Definition ring_submit d : option Z * R :=
  let d := d <| ud_shared ::= fun s => s <| sh_sq ::= fun r => r <| rg_producer := sq_tail d |> |> |> in
  let pending := u32 (sq_tail d - rg_consumer (sh_sq (ud_shared d))) in
  let ret := enter_errno (ud_turn d) pending in
  let d := look true d in
  match ret with
  | Some errno =>
      if bool_decide (errno_kind errno = Interrupted) || bool_decide (errno_kind errno = WouldBlock)
      then (None, d) else (Some errno, d)
  | None => (None, d)
  end.
Definition ring_pop d : outcome (option Cqe * R) :=
  let d := look false d in
  if cq_head d =? rg_producer (sh_cq (ud_shared d)) then Ok (None, d)
  else
    let* cqe := read_desc (sh_cq (ud_shared d)) (cq_head d) in
    Ok (Some cqe, d <| cq_head := u32 (cq_head d + 1) |>).
Definition release_completions d : R :=
  d <| ud_shared ::= fun s => s <| sh_cq ::= fun r => r <| rg_consumer := cq_head d |> |> |>.

(** ** The device ([mod.rs]) *)
(** [from_parts]; [ring] is what [Ring::new] gives: the mapped rings or an error. *)
Definition uring_from_parts (ring : outcome UringShared) (pool : PoolInner) (cfg : UringConfig) : outcome R :=
  let* valid := uring_validate cfg in
  if num_frames pool <=? uc_rx_depth cfg then Err InvalidInput
  else
    let* ring := ring in
    let entries := rg_entries (sh_sq ring) in
    Ok (mkUring (ring <| sh_pending := replicate (Z.to_nat entries) None |>) 0 0 pool (reverse (indices entries)) []
          cfg 0 0 uring_stats_default None 0).

Definition uring_from_tun (ring : outcome UringShared) (tun : TunDevice) (cfg : UringConfig) : outcome R :=
  let* valid := uring_validate cfg in uring_from_parts ring (tn_pool tun) cfg.
(** [UringTunDevice::new]: the assigned name and the device. *)
Definition uring_new (ring : outcome UringShared) (id : Z) (name : list Z) (mtu : Z) (opened : list Z -> outcome (list Z))
  (cfg : UringConfig) : outcome (list Z * R) :=
  let* valid := uring_validate cfg in
  let* '(assigned, tun) := tun_new_with_mtu id name mtu opened in
  let* d := uring_from_tun ring tun cfg in
  Ok (assigned, d).
Definition stat (f : UringStats -> UringStats) d : R := d <| ud_stats ::= f |>.
Definition record_error (kind : ErrorKind) (errno : option Z) d : R :=
  let d := stat (fun s => s <| last_errno := errno |>) d in
  match ud_error d with None => d <| ud_error := Some kind |> | Some _ => d end.
(** Dropping a handle of the device's pool. *)
Definition ud_drop (b : PacketBuf) d : outcome R := let* p := drop_packet (ud_pool d) b in Ok (d <| ud_pool := p |>).
Fixpoint ud_drops (bs : list PacketBuf) d : outcome R :=
  match bs with
  | [] => Ok d
  | b :: bs => let* d := ud_drop b d in ud_drops bs d
  end.

(** The body of the loop of [reap]: the request of a completion leaves the table, and is
    dealt with by its result. *)
Definition take_request (cqe : Cqe) d : outcome (UringPending * R) :=
  let id := cqe_user_data cqe in
  let* op := match sh_pending (ud_shared d) !! Z.to_nat id with Some (Some op) => Ok op | _ => Panic end in
  let d := d <| ud_shared ::= fun s => s <| sh_pending ::= fun l => <[Z.to_nat id := None]> l |> |> in
  let d := d <| ud_free ::= fun l => l ++ [id] |> in
  let* d :=
    if pd_read op
    then if 0 <? rx_pending d then Ok (d <| rx_pending ::= fun n => n - 1 |>) else Panic
    else if 0 <? tx_pending d then Ok (d <| tx_pending ::= fun n => n - 1 |>) else Panic in
  Ok (op, d).
Definition finish_request (cqe : Cqe) (op : UringPending) d : outcome R :=
  let buf := pd_buf op in
  if cqe_result cqe <? 0 then
    let errno := - cqe_result cqe in
    if pd_read op && ((errno =? EAGAIN) || (errno =? EINTR)) then ud_drop buf d
    else
      let d := if pd_read op then stat (fun s => s <| rx_errors ::= count 1 |>) d else stat (fun s => s <| tx_errors ::= count 1 |>) d in
      ud_drop buf (record_error (errno_kind errno) (Some errno) d)
  else if pd_read op then
    if (cqe_result cqe =? 0) || (tail_capacity buf <=? cqe_result cqe) then
      ud_drop buf (record_error InvalidData None (stat (fun s => s <| rx_errors ::= count 1 |>) d))
    else
      let* buf := set_len buf (cqe_result cqe) in
      Ok (stat (fun s => s <| st_rx_completed ::= count 1 |>) d <| ud_ready ::= fun l => l ++ [buf] |>)
  else if negb (cqe_result cqe =? buf_len buf) then
    ud_drop buf (record_error WriteZero None (stat (fun s => s <| tx_errors ::= count 1 |>) d))
  else
    ud_drop buf (stat (fun s => s <| st_tx_completed ::= count 1 |> <| st_tx_bytes ::= count (cqe_result cqe) |>) d).
Definition reap_one (cqe : Cqe) d : outcome R :=
  let* '(op, d) := take_request cqe d in finish_request cqe op d.
Fixpoint reap_loop (fuel : nat) d : outcome R :=
  match fuel with
  | O => OutOfFuel
  | S fuel =>
      let* '(cqe, d) := ring_pop d in
      match cqe with
      | None => Ok d
      | Some cqe => let* d := reap_one cqe d in reap_loop fuel d
      end
  end.
Definition reap d : outcome R :=
  let* d := reap_loop (S (length (sh_pending (ud_shared d)))) d in
  Ok (release_completions d).
(** [self.error.take()] *)
Definition take_error d : option ErrorKind * R := (ud_error d, d <| ud_error := None |>).

Definition READ : Z := 22.
Definition WRITE : Z := 23.
Definition queue_request (buf : PacketBuf) (read : bool) d : outcome R :=
  match last (ud_free d) with
  | None => Panic
  | Some id =>
      let d := d <| ud_free ::= fun l => take (length l - 1) l |> in
      let len := if read then tail_capacity buf else buf_len buf in
      if id <? zlen (sh_pending (ud_shared d)) then
        let d := d <| ud_shared ::= fun s => s <| sh_pending ::= fun l => <[Z.to_nat id := Some (mkPending buf read)]> l |> |> in
        let* d := sq_push (mkSqe (if read then READ else WRITE) 1 0 (data_offset buf) (u32 len) id) d in
        Ok (if read
            then stat (fun s => s <| st_rx_submitted ::= count 1 |>) (d <| rx_pending ::= Z.succ |>)
            else stat (fun s => s <| st_tx_submitted ::= count 1 |>) (d <| tx_pending ::= Z.succ |>))
      else Panic
  end.
Fixpoint queue_writes (frames : list PacketBuf) d : outcome R :=
  match frames with
  | [] => Ok d
  | b :: frames => let* d := queue_request b false d in queue_writes frames d
  end.

(** [progress]: the error that it returns, if any. *)
Definition uring_progress d : outcome (option ErrorKind * R) :=
  let* d := reap d in
  let '(e, d) := take_error d in
  match e with
  | Some e => Ok (Some e, d)
  | None =>
      if zlen (ud_free d) <? zlen (sh_pending (ud_shared d)) then
        let d := stat (fun s => s <| enter_calls ::= count 1 |>) d in
        match ring_submit d with
        | (Some errno, d) =>
            Ok (Some (errno_kind errno), stat (fun s => s <| submit_errors ::= count 1 |> <| last_errno := Some errno |>) d)
        | (None, d) => let* d := reap d in Ok (take_error d)
        end
      else Ok (take_error d)
  end.

(** The loop of [recv] that keeps reads outstanding. *)
Fixpoint fill_reads (fuel : nat) d : outcome R :=
  match fuel with
  | O => OutOfFuel
  | S fuel =>
      if (rx_pending d + zlen (ud_ready d) <? uc_rx_depth (ud_cfg d)) && negb (zlen (ud_free d) =? 0) then
        let d := look false d in
        let* n := sq_free_slots d in
        if 0 <? n then
          let* '(i, p) := alloc (ud_pool d) in
          let d := d <| ud_pool := p |> in
          match i with
          | None => Ok d
          | Some i =>
              let* b := packet_buf (ud_pool d) i 0 in
              let* d := queue_request b true d in
              fill_reads fuel d
          end
        else Ok d
      else Ok d
  end.
(** [recv] after [out.clear()]: the error, or the packets handed out. *)
Definition recv_body (max : Z) d : outcome (outcome (list PacketBuf) * R) :=
  let* d := reap d in
  let '(e, d) := take_error d in
  match e with
  | Some e => Ok (Err e, d)
  | None =>
      let* d := fill_reads (S (Z.to_nat (uc_rx_depth (ud_cfg d)))) d in
      let* '(e, d) := uring_progress d in
      match e with
      | Some e => Ok (Err e, d)
      | None =>
          let n := Z.to_nat (Z.min max (zlen (ud_ready d))) in
          Ok (Ok (take n (ud_ready d)), d <| ud_ready ::= drop n |>)
      end
  end.
Definition uring_recv (max : Z) : ST (R * list PacketBuf) Z := fun '(d, out) =>
  match (let* d := ud_drops out d in recv_body max d) with
  | Ok (Ok out, d) => (Ok (zlen out), (d, out))
  | Ok (r, d) => (recast r, (d, []))
  | r => (recast r, (d, out))
  end.
(** [send]: the error, or the number of frames taken. *)
Definition send_body (frames : list PacketBuf) d : outcome (outcome Z * R) :=
  let* d := reap d in
  let '(e, d) := take_error d in
  match e with
  | Some e => Ok (Err e, d)
  | None =>
      let d := look false d in
      let* slots := sq_free_slots d in
      let n := Z.min (Z.min (zlen frames) (zlen (ud_free d))) slots in
      let taken := take (Z.to_nat n) frames in
      if existsb (fun f => is_empty f || (U32MAX <? buf_len f)) taken then Ok (Err InvalidInput, d)
      else
        let* d := queue_writes taken d in
        let* '(e, d) := uring_progress d in
        Ok (Ok n, match e with Some e => d <| ud_error := Some e |> | None => d end)
  end.
Definition uring_send : ST (R * list PacketBuf) Z := fun '(d, frames) =>
  match send_body frames d with
  | Ok (Ok n, d) => (Ok n, (d, replicate (Z.to_nat n) packet_default ++ drop (Z.to_nat n) frames))
  | Ok (r, d) => (recast r, (d, frames))
  | r => (recast r, (d, frames))
  end.
Definition uring_alloc : ST R (option PacketBuf) := fun d =>
  match alloc_packet (ud_pool d) with
  | Ok (b, p) => (Ok b, d <| ud_pool := p |>)
  | r => (recast r, d)
  end.
Definition uring_device : Device R := {|
  dev_poll_at := fun _ d => (Ok tt, d);
  dev_recv := uring_recv;
  dev_send := uring_send;
  dev_alloc := uring_alloc;
  dev_drop := fun b d => match ud_drop b d with Ok d => (Ok tt, d) | r => (recast r, d) end;
  dev_frame_size := fun d => frame_size (ud_pool d)
|}.
End Uring.

(** ** Teardown *)
(** [cancel_all]: [None] for success, or the errno; [cancel k] is the errno of the [k]-th try. *)
Fixpoint ring_cancel_all (cancel : nat -> option Z) (fuel k : nat) : outcome (option Z) :=
  match fuel with
  | O => OutOfFuel
  | S fuel =>
      match cancel k with
      | None => Ok None
      | Some errno =>
          if errno =? ENOENT then Ok None
          else if bool_decide (errno_kind errno = Interrupted) then ring_cancel_all cancel fuel (S k)
          else Ok (Some errno)
      end
  end.
(** The buffers in a table of requests. *)
Definition bufs (l : list (option UringPending)) : list PacketBuf := pd_buf <$> omap id l.
(** [Drop for UringTunDevice]: the pool that survives in outstanding handles.  A failed
    cancellation forgets the pending buffers, otherwise they are dropped with the table. *)
Definition uring_teardown (cancel : nat -> option Z) (fuel : nat) (d : UringTunDevice) : outcome PoolInner :=
  let* e := ring_cancel_all cancel fuel 0 in
  let pending := match e with Some _ => [] | None => bufs (sh_pending (ud_shared d)) end in
  let* d := ud_drops (pending ++ ud_ready d) d in
  Ok (ud_pool d).
