(* ===== verification/UringInv.v ===== *)
(** * Ownership of the buffers of io_uring requests

    Every slot of the request table is free, or named by exactly one request that waits in
    the submission ring, is with the kernel, or waits in the completion ring; its buffer is then
    exactly where the request says.  The kernel keeps this by what is documented of it
    ([kernel_step]), so no operation of the device panics. *)
From Stdlib Require Import ZArith Lia Bool.
From stdpp Require Import base numbers option list relations.
From S2P Require Import Prelude BufferPool Device XdpRing Uring.
#[local] Open Scope Z_scope.
Implicit Types (s : UringShared) (d : UringTunDevice) (l : list (option UringPending)).

(** ** What is relied on of the kernel *)
(** Data written to the buffer of a request. *)
Definition store_data (sqe : Sqe) (data : list Z) l : list (option UringPending) :=
  match l !! Z.to_nat (sqe_user_data sqe) with
  | Some (Some p) =>
      let m := buf_mem (pd_buf p) in
      let off := Z.to_nat (sqe_address sqe) in
      <[Z.to_nat (sqe_user_data sqe) :=
          Some (mkPending (pd_buf p <| buf_mem := take off m ++ data ++ drop (off + length data) m |>) (pd_read p))]> l
  | _ => l
  end.
(** The kernel takes submitted entries in order, only inside [io_uring_enter]; it completes
    each request that it took once, in any order, with a result of at most the length of the
    request, into a completion ring with room; only a read writes to memory, within the
    address range of its request, and as many bytes as it reports. *)
Inductive kernel_step (enter : bool) : UringShared -> UringShared -> Prop :=
| ks_take s sqe :
    enter = true -> rg_consumer (sh_sq s) <> rg_producer (sh_sq s) ->
    read_desc (sh_sq s) (rg_consumer (sh_sq s)) = Ok sqe ->
    kernel_step enter s
      (s <| sh_sq ::= fun r => r <| rg_consumer := u32 (rg_consumer r + 1) |> |>
         <| sh_flight ::= fun f => f ++ [sqe] |>)
| ks_complete s f g sqe result flags data :
    sh_flight s = f ++ sqe :: g -> ring_count (sh_cq s) < rg_entries (sh_cq s) ->
    result <= sqe_len sqe -> bytes_ok data -> zlen data <= sqe_len sqe -> (0 <= result -> zlen data = result) ->
    kernel_step enter s
      (s <| sh_cq ::= fun r => (publish r (rg_producer r) [mkCqe (sqe_user_data sqe) result flags]).1 |>
         <| sh_flight := f ++ g |>
         <| sh_pending ::= if sqe_opcode sqe =? READ then store_data sqe data else id |>).
Definition kernel_ok (kernel : nat -> bool -> UringShared -> UringShared) : Prop :=
  forall k enter s, rtc (kernel_step enter) s (kernel k enter s).

(** ** The request table *)
(** A slot whose buffer may have other bytes. *)
Definition like (p q : UringPending) : Prop :=
  pd_read q = pd_read p /\ buf_idx (pd_buf q) = buf_idx (pd_buf p) /\ buf_pool (pd_buf q) = buf_pool (pd_buf p)
  /\ data_offset (pd_buf q) = data_offset (pd_buf p) /\ buf_len (pd_buf q) = buf_len (pd_buf p)
  /\ capacity (pd_buf q) = capacity (pd_buf p) /\ (bytes_ok (buf_mem (pd_buf p)) -> bytes_ok (buf_mem (pd_buf q))).
#[export] Instance like_pre : PreOrder like.
Proof. split; [done|]. intros p q r. unfold like. intuition congruence. Qed.
Definition likes : list (option UringPending) -> list (option UringPending) -> Prop := Forall2 (option_Forall2 like).
#[export] Instance likes_pre : PreOrder likes.
Proof.
  split.
  - intros l. apply Forall_Forall2_diag, Forall_true. intros [p|]; by constructor.
  - intros a b c H. revert c. unfold likes. induction H as [|x y a b Hx H IH]; intros c Hc; [done|].
    apply Forall2_cons_inv_l in Hc as (z & c' & Hz & Hc & ->). constructor; [|by apply IH].
    destruct Hx as [p q Hp|]; inversion Hz; subst; constructor. by etrans.
Qed.
Lemma likes_slot l l' i p : likes l l' -> l !! i = Some (Some p) -> exists q, l' !! i = Some (Some q) /\ like p q.
Proof.
  intros H E. destruct (Forall2_lookup_l _ _ _ _ _ H E) as (y & Ey & Hy). inversion Hy; subst. eauto.
Qed.
Lemma likes_none l l' i : likes l l' -> l !! i = Some None -> l' !! i = Some None.
Proof. intros H E. destruct (Forall2_lookup_l _ _ _ _ _ H E) as (y & Ey & Hy). by inversion Hy; subst. Qed.
Lemma likes_insert l i p q : l !! i = Some (Some p) -> like p q -> likes l (<[i := Some q]> l).
Proof.
  intros E H. apply Forall2_same_length_lookup_2; [by rewrite length_insert|]. intros j x y Hx Hy.
  destruct (decide (j = i)) as [-> |N].
  - rewrite list_lookup_insert_eq in Hy by (by eapply lookup_lt_Some). assert (x = Some p) as -> by congruence.
    injection Hy as <-. by constructor.
  - rewrite list_lookup_insert_ne in Hy by done. assert (x = y) as -> by congruence. destruct y; by constructor.
Qed.
(** The buffers, and the requests of one kind. *)
Definition count_of (read : bool) l : Z := zlen (filter (fun p => pd_read p = read) (omap id l)).
Lemma slot_split {A} (l : list A) i x : l !! i = Some x -> exists a b, l = a ++ x :: b /\ forall y, <[i := y]> l = a ++ y :: b.
Proof.
  intros E. exists (take i l), (drop (S i) l). split; [by rewrite take_drop_middle|]. intros y.
  rewrite insert_take_drop by (by eapply lookup_lt_Some). done.
Qed.
Lemma bufs_app l l' : bufs (l ++ l') = bufs l ++ bufs l'.
Proof. unfold bufs. by rewrite omap_app, fmap_app. Qed.
Lemma count_app read l l' : count_of read (l ++ l') = count_of read l + count_of read l'.
Proof. unfold count_of. by rewrite omap_app, filter_app, zlen_app. Qed.
Lemma count_cons read p l :
  count_of read (Some p :: l) = count_of read l + (if bool_decide (pd_read p = read) then 1 else 0).
Proof.
  unfold count_of. change (omap id (Some p :: l)) with (p :: omap id l). rewrite filter_cons. case_decide as D.
  - rewrite bool_decide_true, zlen_cons by done. lia.
  - rewrite bool_decide_false by done. lia.
Qed.
Lemma bufs_leave l i p : l !! i = Some (Some p) -> bufs l ≡ₚ pd_buf p :: bufs (<[i := None]> l).
Proof. intros E. destruct (slot_split l i _ E) as (a & b & -> & ->). rewrite !bufs_app. cbn. by rewrite <- Permutation_middle. Qed.
Lemma bufs_enter l i p : l !! i = Some None -> bufs (<[i := Some p]> l) ≡ₚ pd_buf p :: bufs l.
Proof. intros E. destruct (slot_split l i _ E) as (a & b & -> & ->). rewrite !bufs_app. cbn. by rewrite <- Permutation_middle. Qed.
Lemma count_leave l i p read :
  l !! i = Some (Some p) -> count_of read l = count_of read (<[i := None]> l) + (if bool_decide (pd_read p = read) then 1 else 0).
Proof.
  intros E. destruct (slot_split l i _ E) as (a & b & -> & ->). rewrite !count_app, count_cons.
  change (count_of read (None :: b)) with (count_of read b). lia.
Qed.
Lemma count_enter l i p read :
  l !! i = Some None -> count_of read (<[i := Some p]> l) = count_of read l + (if bool_decide (pd_read p = read) then 1 else 0).
Proof.
  intros E. pose proof (lookup_lt_Some _ _ _ E).
  rewrite (count_leave _ i p) by (by apply list_lookup_insert_eq). by rewrite list_insert_insert_eq, list_insert_id.
Qed.
Lemma likes_bufs l l' : likes l l' -> Forall2 (fun b c => buf_idx c = buf_idx b /\ buf_pool c = buf_pool b
  /\ data_offset c = data_offset b /\ buf_len c = buf_len b /\ capacity c = capacity b
  /\ (bytes_ok (buf_mem b) -> bytes_ok (buf_mem c))) (bufs l) (bufs l').
Proof.
  induction 1 as [|x y l l' Hx H IH]; [constructor|]. destruct Hx as [p q Hp|]; [|done]. unfold bufs in *. cbn. constructor; [apply Hp|done].
Qed.
Lemma likes_owned l l' : likes l l' -> owned (bufs l') = owned (bufs l).
Proof.
  intros H. apply likes_bufs in H. induction H as [|b c bs cs (Hi & Hp & _) H IH]; [done|].
  rewrite !(owned_cons _ bs), (owned_cons _ cs), IH. f_equal. unfold owned. cbn. by rewrite Hi, Hp.
Qed.
Lemma likes_handles l l' pl n : likes l l' -> Forall (handle pl n) (bufs l) -> Forall (handle pl n) (bufs l').
Proof.
  intros H. apply likes_bufs in H. induction H as [|b c bs cs (Hi & Hp & Ho & Hl & Hc & Hb) H IH]; [done|]. intros F.
  apply Forall_cons in F as [(W & B & P) F]. constructor; [|by apply IH].
  split; [unfold buf_wf in *; by rewrite Ho, Hl, Hc|]. split; [by apply Hb|]. by rewrite Hp, Hc.
Qed.
Lemma likes_count l l' read : likes l l' -> count_of read l' = count_of read l.
Proof.
  induction 1 as [|x y l l' Hx H IH]; [done|]. destruct Hx as [p q [Hr _]|]; [|done].
  by rewrite !count_cons, Hr, IH.
Qed.

(** ** The rings and the table *)
Definition request_len (p : UringPending) : Z := if pd_read p then tail_capacity (pd_buf p) else buf_len (pd_buf p).
Definition asks (q : Sqe) (p : UringPending) : Prop :=
  sqe_opcode q = (if pd_read p then READ else WRITE) /\ sqe_len q = request_len p
  /\ sqe_address q = data_offset (pd_buf p) /\ buf_wf (pd_buf p).
Definition request_ok l (q : Sqe) : Prop := exists p, l !! Z.to_nat (sqe_user_data q) = Some (Some p) /\ asks q p.
Definition answer_ok l (c : Cqe) : Prop :=
  exists p, l !! Z.to_nat (cqe_user_data c) = Some (Some p) /\ cqe_result c <= request_len p.
(** [Q] waits in the submission ring, [P] was popped from the completion ring and not yet
    released, [C] waits there. *)
Record ring_inv s (tail head : Z) (free : list Z) (Q : list Sqe) (P C : list Cqe) : Prop := {
  ri_sq : holds (sh_sq s <| rg_producer := tail |>) Q;
  ri_pub : exists n, 0 <= n <= zlen Q /\ rg_producer (sh_sq s) = u32 (rg_consumer (sh_sq s) + n);
  ri_size : rg_entries (sh_sq s) = zlen (sh_pending s);
  ri_cq : holds (sh_cq s) (P ++ C);
  ri_head : head = u32 (rg_consumer (sh_cq s) + zlen P);
  ri_ids : free ++ (sqe_user_data <$> Q ++ sh_flight s) ++ (cqe_user_data <$> C) ≡ₚ indices (zlen (sh_pending s));
  ri_free : Forall (fun i => sh_pending s !! Z.to_nat i = Some None) free;
  ri_req : Forall (request_ok (sh_pending s)) (Q ++ sh_flight s);
  ri_done : Forall (answer_ok (sh_pending s)) C
}.
Lemma request_len_like p q : like p q -> request_len q = request_len p.
Proof. intros (Hr & _ & _ & Ho & Hl & Hc & _). unfold request_len, tail_capacity. by rewrite Hr, Ho, Hl, Hc. Qed.
Lemma request_like l l' q : likes l l' -> request_ok l q -> request_ok l' q.
Proof.
  intros H (p & E & Eo & El & Ea & W). destruct (likes_slot l l' _ p H E) as (p' & E' & Lk). exists p'.
  split; [done|]. pose proof (request_len_like _ _ Lk) as Er. destruct Lk as (Hr & _ & _ & Ho & Hl & Hc & _).
  unfold asks, buf_wf in *. by rewrite Hr, Ho, Hl, Hc, Er.
Qed.
Lemma answer_like l l' c : likes l l' -> answer_ok l c -> answer_ok l' c.
Proof.
  intros H (p & E & Er). destruct (likes_slot l l' _ p H E) as (p' & E' & Lk). exists p'. split; [done|]. by rewrite (request_len_like _ _ Lk).
Qed.
Lemma store_likes sqe data l :
  request_ok l sqe -> sqe_opcode sqe = READ -> bytes_ok data -> zlen data <= sqe_len sqe -> likes l (store_data sqe data l).
Proof.
  intros (p & E & Eo & El & Ea & W) Er B L. unfold store_data. rewrite E. eapply likes_insert; [done|].
  assert (pd_read p = true) as Hr by (destruct (pd_read p); [done|exfalso; rewrite Er in Eo; discriminate Eo]). rewrite Hr in *.
  unfold request_len in El. rewrite Hr in El. unfold buf_wf, tail_capacity, capacity in *.
  unfold like, capacity. cbn. rewrite Hr. split_and!; try done.
  - unfold zlen in *. rewrite !length_app, length_take, length_drop. lia.
  - intros Bm. rewrite !bytes_app. eauto with net.
Qed.
Lemma u32_same_add a n : 0 <= n < W32 -> u32 (a + n) = u32 a -> n = 0.
Proof.
  intros Hn E. unfold u32, W32 in *. apply Z.cong_iff_0, Z.mod_divide in E as [q Hq]; [|done]. assert (q = 0) by nia. lia.
Qed.
Lemma kernel_step_inv enter s s' tail head free Q P C :
  ring_inv s tail head free Q P C -> kernel_step enter s s' ->
  exists Q' C', ring_inv s' tail head free Q' P C' /\ likes (sh_pending s) (sh_pending s').
Proof.
  intros I St. destruct St as [s sqe _ Ne Er|s f g sqe result flags data Ef Rm Lr Bd Ld Lres].
  - pose proof I as [Hq (n & Hn & Ep) Sz Hc Hh Ids Fr Rq Dn].
    pose proof (sh_consumer _ (ho_shape _ _ Hq)) as Hcr. cbn in Hcr.
    destruct Q as [|q Q]; [exfalso; apply Ne; change (zlen []) with 0 in Hn; assert (n = 0) as -> by lia; by rewrite Ep, Z.add_0_r, u32_small|].
    assert (q = sqe) as ->.
    { pose proof (ho_desc _ _ Hq 0%nat q eq_refl) as Ed. cbn in Ed. rewrite Z.add_0_r, u32_small in Ed by done.
      pose proof (index_range _ (rg_consumer (sh_sq s)) (ho_shape _ _ Hq)) as Hx. rewrite u32_small in Hx by done.
      unfold read_desc in Er. change (index (sh_sq s <| rg_producer := tail |>)) with (index (sh_sq s)) in Ed, Hx.
      rewrite (get_at_ok _ _ q) in Er; [by injection Er|lia|done]. }
    rewrite zlen_cons in Hn. assert (n <> 0) as Hn0.
    { intros ->. apply Ne. by rewrite Ep, Z.add_0_r, u32_small. }
    exists Q, C. split; [|done]. constructor; cbn; try done.
    + apply (advance_holds _ _ 1) in Hq; [exact Hq|]. rewrite zlen_cons. pose_zlen. lia.
    + exists (n - 1). split; [lia|]. rewrite Ep, u32_add_l. f_equal. lia.
    + rewrite <- Ids. rewrite !fmap_app. change (sqe_user_data <$> sqe :: Q) with ([sqe_user_data sqe] ++ (sqe_user_data <$> Q)).
      change (sqe_user_data <$> [sqe]) with [sqe_user_data sqe]. perm.
    + rewrite !Forall_app in *. cbn in Rq. rewrite Forall_cons in Rq. rewrite Forall_singleton. tauto.
  - pose proof I as [Hq Pb Sz Hc Hh Ids Fr Rq Dn].
    assert (request_ok (sh_pending s) sqe) as Rs.
    { rewrite Forall_forall in Rq. apply Rq. rewrite Ef, !elem_of_app, elem_of_cons. tauto. }
    set (l' := (if sqe_opcode sqe =? READ then store_data sqe data else id) (sh_pending s)).
    assert (likes (sh_pending s) l') as Lk.
    { unfold l'. destruct (_ =? READ) eqn:E; bools; [by apply store_likes|done]. }
    pose proof (Forall2_length _ _ _ Lk) as Ll.
    destruct (publish_holds (sh_cq s) (P ++ C) [mkCqe (sqe_user_data sqe) result flags] Hc) as (H1 & _ & E2 & _).
    { rewrite (ho_count _ _ Hc). unfold zlen. cbn. lia. }
    exists Q, (C ++ [mkCqe (sqe_user_data sqe) result flags]). split; [|exact Lk]. constructor; cbn; fold l'; try done.
    + unfold zlen in *. by rewrite <- Ll.
    + by rewrite app_assoc.
    + unfold zlen in *. rewrite <- Ll, <- Ids, Ef, !fmap_app.
      change (sqe_user_data <$> sqe :: g) with ([sqe_user_data sqe] ++ (sqe_user_data <$> g)).
      change (cqe_user_data <$> [mkCqe (sqe_user_data sqe) result flags]) with [sqe_user_data sqe]. perm.
    + eapply Forall_impl; [exact Fr|]. intros i. by apply likes_none.
    + rewrite Ef in Rq. rewrite !Forall_app, Forall_cons in Rq. rewrite !Forall_app. destruct Rq as (A & B & _ & D).
      split_and!; eapply Forall_impl; try done; intros q; by apply request_like.
    + apply Forall_app. split; [eapply Forall_impl; [exact Dn|]; intros c; by apply answer_like|]. apply Forall_singleton.
      apply (answer_like _ _ _ Lk). destruct Rs as (p & E & _ & El & _). exists p. cbn. split; [done|lia].
Qed.
Lemma kernel_steps_inv enter s s' tail head free Q P C :
  rtc (kernel_step enter) s s' -> ring_inv s tail head free Q P C ->
  exists Q' C', ring_inv s' tail head free Q' P C' /\ likes (sh_pending s) (sh_pending s').
Proof.
  intros St. revert Q C. induction St as [s|s s1 s2 S1 St IH]; intros Q C I; [by exists Q, C|].
  destruct (kernel_step_inv _ _ _ _ _ _ _ _ _ I S1) as (Q1 & C1 & I1 & L1).
  destruct (IH Q1 C1 I1) as (Q2 & C2 & I2 & L2). exists Q2, C2. split; [done|by etrans].
Qed.

(** ** The device *)
Record core_inv s (tail head : Z) (free : list Z) (p : PoolInner) (ready : list PacketBuf) (depth rx tx : Z)
  (Q : list Sqe) (P C : list Cqe) (held : list Z) : Prop := {
  ci_ring : ring_inv s tail head free Q P C;
  ci_pool : pool_inv p (owned (bufs (sh_pending s)) ++ owned ready ++ held);
  ci_bytes : Forall bytes_ok (arena p);
  ci_bufs : Forall (handle (pool_id p) (frame_size p)) (bufs (sh_pending s));
  ci_ready : Forall (handle (pool_id p) (frame_size p)) ready;
  ci_rx : rx = count_of true (sh_pending s);
  ci_tx : tx = count_of false (sh_pending s);
  ci_depth : rx + zlen ready <= depth;
  ci_size : frame_size p < W32
}.
Definition uring_inv d : list Sqe -> list Cqe -> list Cqe -> list Z -> Prop :=
  core_inv (ud_shared d) (sq_tail d) (cq_head d) (ud_free d) (ud_pool d) (ud_ready d) (uc_rx_depth (ud_cfg d))
    (rx_pending d) (tx_pending d).
(** Every request is submitted once and completes, fails or is pending; a read may also be
    retried.  The counters have wrapped; fewer than [n] reads were submitted. *)
Definition books (t : UringStats) (rx tx n : Z) : Prop :=
  st_tx_submitted t = (st_tx_completed t + tx_errors t + tx) mod W64
  /\ exists sent completed failed, st_rx_submitted t = sent mod W64 /\ st_rx_completed t = completed mod W64
       /\ rx_errors t = failed mod W64 /\ 0 <= completed /\ 0 <= failed /\ completed + failed + rx <= sent <= n.
Definition booked d : Prop := books (ud_stats d) (rx_pending d) (tx_pending d) (Z.of_nat (ud_turn d)).
Record uinv d (P : list Cqe) (held : list Z) : Prop := {
  uv_inv : exists Q C, uring_inv d Q P C held;
  uv_books : booked d
}.
Lemma count_mod x : count 1 (x mod W64) = (x + 1) mod W64.
Proof. unfold count. by rewrite Z.add_mod_idemp_l. Qed.
Lemma books_more t rx tx n m : n <= m -> books t rx tx n -> books t rx tx m.
Proof. intros L (T & s & c & e & E1 & E2 & E3 & H). split; [done|]. exists s, c, e. split_and!; try done; lia. Qed.
Lemma books_read_sent t rx tx n : books t rx tx n -> books (t <| st_rx_submitted ::= count 1 |>) (Z.succ rx) tx (n + 1).
Proof.
  intros (T & s & c & e & E1 & E2 & E3 & H). split; [done|]. exists (s + 1), c, e. cbn. rewrite E1, count_mod.
  split_and!; try done; lia.
Qed.
Lemma books_read_done t rx tx n : books t (rx + 1) tx n -> books (t <| st_rx_completed ::= count 1 |>) rx tx n.
Proof.
  intros (T & s & c & e & E1 & E2 & E3 & H). split; [done|]. exists s, (c + 1), e. cbn. rewrite E2, count_mod.
  split_and!; try done; lia.
Qed.
Lemma books_read_failed t rx tx n : books t (rx + 1) tx n -> books (t <| rx_errors ::= count 1 |>) rx tx n.
Proof.
  intros (T & s & c & e & E1 & E2 & E3 & H). split; [done|]. exists s, c, (e + 1). cbn. rewrite E3, count_mod.
  split_and!; try done; lia.
Qed.
Lemma books_read_again t rx tx n : books t (rx + 1) tx n -> books t rx tx n.
Proof. intros (T & s & c & e & E1 & E2 & E3 & H). split; [done|]. exists s, c, e. split_and!; try done; lia. Qed.
Lemma books_write_sent t rx tx n : books t rx tx n -> books (t <| st_tx_submitted ::= count 1 |>) rx (Z.succ tx) n.
Proof. intros (T & H). split; [|done]. cbn. rewrite T, count_mod. f_equal. lia. Qed.
Lemma books_write_done t rx tx n : books t rx (tx + 1) n -> books (t <| st_tx_completed ::= count 1 |>) rx tx n.
Proof.
  intros (T & H). split; [|done]. cbn. rewrite T. unfold count. rewrite <- (Z.add_assoc (_ mod _)), Z.add_mod_idemp_l by done. f_equal. lia.
Qed.
Lemma books_write_failed t rx tx n : books t rx (tx + 1) n -> books (t <| tx_errors ::= count 1 |>) rx tx n.
Proof.
  intros (T & H). split; [|done]. cbn. rewrite T. unfold count.
  rewrite (Z.add_comm (st_tx_completed t) (_ mod _)), <- (Z.add_assoc (_ mod _)), Z.add_mod_idemp_l by done. f_equal. lia.
Qed.
(** What no operation changes. *)
Definition ud_same d d' : Prop :=
  pool_id (ud_pool d') = pool_id (ud_pool d) /\ frame_size (ud_pool d') = frame_size (ud_pool d) /\ ud_cfg d' = ud_cfg d
  /\ length (sh_pending (ud_shared d')) = length (sh_pending (ud_shared d)).
#[export] Instance ud_same_pre : PreOrder ud_same.
Proof. split; [done|]. intros a b c. unfold ud_same. intuition congruence. Qed.
Definition ud_handle d : PacketBuf -> Prop := handle (pool_id (ud_pool d)) (frame_size (ud_pool d)).
Lemma ud_same_handle d d' b : ud_same d d' -> ud_handle d' b <-> ud_handle d b.
Proof. intros (E1 & E2 & _). unfold ud_handle. by rewrite E1, E2. Qed.

Lemma core_perm s tail head free p ready depth rx tx Q P C h k :
  h ≡ₚ k -> core_inv s tail head free p ready depth rx tx Q P C h -> core_inv s tail head free p ready depth rx tx Q P C k.
Proof. intros E []. constructor; try done. by rewrite <- E. Qed.
Lemma uinv_perm d P h k : h ≡ₚ k -> uinv d P h -> uinv d P k.
Proof. intros E [(Q & C & I) B]. constructor; [|done]. exists Q, C. by eapply core_perm. Qed.
#[export] Instance uinv_proper d P : Proper ((≡ₚ) ==> iff) (uinv d P).
Proof. intros h k E. split; by apply uinv_perm. Qed.

Lemma count_pos l i p : l !! i = Some (Some p) -> 0 < count_of (pd_read p) l.
Proof.
  intros E. rewrite (count_leave l i p _ E), bool_decide_true by done. unfold count_of. pose_zlen. lia.
Qed.
(** A slot is named once. *)
Lemma ids_distinct n ids i rest :
  ids ≡ₚ indices n -> ids ≡ₚ i :: rest -> 0 <= i < n /\ forall j, j ∈ rest -> Z.to_nat j <> Z.to_nat i.
Proof.
  intros E1 E2. rewrite E1 in E2. assert (forall j, j ∈ i :: rest -> 0 <= j < n) as Hr by (intros j; rewrite <- E2; apply elem_of_indices).
  split; [apply Hr; by left|]. intros j Hj Ej. assert (NoDup (i :: rest)) as Nd by (rewrite <- E2; apply NoDup_indices).
  apply NoDup_cons in Nd as [Ni _]. apply Ni. assert (0 <= i < n) by (apply Hr; by left). assert (0 <= j < n) by (apply Hr; by right).
  by assert (i = j) as -> by lia.
Qed.
(** The slot of a reaped completion becomes free. *)
Lemma ring_reap s tail head free Q P c C p :
  ring_inv s tail head free Q P (c :: C) -> sh_pending s !! Z.to_nat (cqe_user_data c) = Some (Some p) ->
  ring_inv (s <| sh_pending ::= fun l => <[Z.to_nat (cqe_user_data c) := None]> l |>) tail (u32 (head + 1))
    (free ++ [cqe_user_data c]) Q (P ++ [c]) C.
Proof.
  intros [Hq Pb Sz Hc Hh Ids Fr Rq Dn] E. set (i := cqe_user_data c) in *.
  destruct (ids_distinct _ _ i (free ++ (sqe_user_data <$> Q ++ sh_flight s) ++ (cqe_user_data <$> C)) Ids) as [_ Other].
  { rewrite fmap_cons. fold i. change (?x :: ?l) with ([x] ++ l). perm. }
  assert (forall j x, Z.to_nat j <> Z.to_nat i -> sh_pending s !! Z.to_nat j = x -> <[Z.to_nat i := None]> (sh_pending s) !! Z.to_nat j = x) as Ins.
  { intros j x N Ej. by rewrite list_lookup_insert_ne. }
  constructor; cbn; try done.
  - unfold zlen in *. by rewrite length_insert.
  - by rewrite <- app_assoc.
  - rewrite Hh, u32_add_l, zlen_app. f_equal. unfold zlen. cbn. lia.
  - unfold zlen in *. rewrite length_insert, <- Ids, fmap_cons. fold i.
    change (i :: (cqe_user_data <$> C)) with ([i] ++ (cqe_user_data <$> C)). perm.
  - apply Forall_app. split.
    + eapply Forall_impl; [exact Fr|]. intros j Ej. cbv beta. destruct (decide (Z.to_nat j = Z.to_nat i)) as [-> |N]; [|by apply Ins].
      apply list_lookup_insert_eq. by eapply lookup_lt_Some.
    + apply Forall_singleton. apply list_lookup_insert_eq. by eapply lookup_lt_Some.
  - rewrite Forall_forall in *. intros q Hq'. destruct (Rq q Hq') as (p' & E' & R'). exists p'. split; [|exact R'].
    apply Ins; [|done]. apply Other. rewrite !elem_of_app. right. left. by apply list_elem_of_fmap_2.
  - apply Forall_cons in Dn as [_ Dn]. rewrite Forall_forall in *. intros q Hq'. destruct (Dn q Hq') as (p' & E' & R'). exists p'.
    split; [|exact R']. apply Ins; [|done]. apply Other. rewrite !elem_of_app. right. right. by apply list_elem_of_fmap_2.
Qed.
Lemma core_drop s tail head free p ready depth rx tx Q P C held b :
  core_inv s tail head free p ready depth rx tx Q P C (owned [b] ++ held) -> handle (pool_id p) (frame_size p) b ->
  exists p', drop_packet p b = Ok p' /\ core_inv s tail head free p' ready depth rx tx Q P C held
    /\ pool_id p' = pool_id p /\ frame_size p' = frame_size p.
Proof.
  intros [R I B F1 F2 Rx Tx Dp Sz] Hb.
  destruct (drop_handle_spec p b (owned (bufs (sh_pending s)) ++ owned ready ++ held)) as (p' & E & Ip & Bp & E1 & E2); [|done|done|].
  { eapply pool_inv_proper; [|exact I]. perm. }
  exists p'. split; [done|]. split; [|done]. constructor; rewrite ?E1, ?E2; done.
Qed.
Lemma ud_drop_spec d P held b :
  uinv d P (owned [b] ++ held) -> ud_handle d b -> exists d', ud_drop b d = Ok d' /\ uinv d' P held /\ ud_same d d'
    /\ ud_free d' = ud_free d.
Proof.
  intros [(Q & C & I) B] Hb. destruct (core_drop _ _ _ _ _ _ _ _ _ _ _ _ _ _ I Hb) as (p' & E & I' & E1 & E2).
  unfold ud_drop. rewrite E. cbn [obind]. eexists. split; [reflexivity|]. split; [|done]. constructor; [|done]. by exists Q, C.
Qed.
Lemma ud_drops_spec bs d P held :
  uinv d P (owned bs ++ held) -> Forall (ud_handle d) bs -> exists d', ud_drops bs d = Ok d' /\ uinv d' P held /\ ud_same d d'.
Proof.
  revert d. induction bs as [|b bs IH]; intros d I F; [by exists d|]. apply Forall_cons in F as [Hb F].
  rewrite owned_cons, <- app_assoc in I. cbn [ud_drops].
  destruct (ud_drop_spec d P _ b I Hb) as (d1 & -> & I1 & S1 & _). cbn [obind].
  destruct (IH d1 I1) as (d2 & -> & I2 & S2).
  { eapply Forall_impl; [exact F|]. intros c. by apply ud_same_handle. }
  exists d2. split; [done|]. split; [done|]. by etrans.
Qed.

#[local] Arguments owned : simpl never.
#[local] Arguments bufs : simpl never.
#[local] Arguments count_of : simpl never.
(** A request whose slot was emptied still owes its entry in the books. *)
Lemma core_reap s tail head free p ready depth rx tx Q P c C held op :
  core_inv s tail head free p ready depth rx tx Q P (c :: C) held ->
  sh_pending s !! Z.to_nat (cqe_user_data c) = Some (Some op) ->
  core_inv (s <| sh_pending ::= fun l => <[Z.to_nat (cqe_user_data c) := None]> l |>) tail (u32 (head + 1))
    (free ++ [cqe_user_data c]) p ready depth (if pd_read op then rx - 1 else rx) (if pd_read op then tx else tx - 1)
    Q (P ++ [c]) C (owned [pd_buf op] ++ held)
  /\ handle (pool_id p) (frame_size p) (pd_buf op) /\ (if pd_read op then 0 < rx else 0 < tx).
Proof.
  intros [R I B F1 F2 Rx Tx Dp Sz] E. pose proof (bufs_leave _ _ _ E) as Pm. pose proof (count_pos _ _ _ E) as Cp.
  pose proof (count_leave _ _ _ true E) as Ct. pose proof (count_leave _ _ _ false E) as Cf. rewrite Pm in F1. apply Forall_cons in F1 as [Hb F1].
  assert (forall x y : bool, bool_decide (x = y) = eqb x y) as Eb by (by intros [] []). rewrite Eb in Ct, Cf.
  split; [|split; [done|destruct (pd_read op); lia]].
  rewrite Pm, owned_cons in I. constructor; cbn; try done.
  - by eapply ring_reap.
  - eapply (pool_inv_proper); [|exact I]. perm.
  - destruct (pd_read op); cbn in *; lia.
  - destruct (pd_read op); cbn in *; lia.
  - destruct (pd_read op); lia.
Qed.

Section Kernel.
Context (kernel : nat -> bool -> UringShared -> UringShared) (enter_errno : nat -> Z -> option Z) (Hk : kernel_ok kernel).

Lemma look_spec enter d Q P C held :
  uring_inv d Q P C held ->
  exists Q' C', uring_inv (look kernel enter d) Q' P C' held /\ ud_same d (look kernel enter d).
Proof.
  intros [R I B F1 F2 Rx Tx Dp Sz].
  destruct (kernel_steps_inv _ _ _ _ _ _ _ _ _ (Hk (ud_turn d) enter (ud_shared d)) R) as (Q' & C' & R' & Lk).
  exists Q', C'. split.
  - constructor; cbn; try done.
    + by rewrite (likes_owned _ _ Lk).
    + by eapply likes_handles.
    + by rewrite (likes_count _ _ _ Lk).
    + by rewrite (likes_count _ _ _ Lk).
  - unfold ud_same. cbn. by rewrite (Forall2_length _ _ _ Lk).
Qed.
Lemma uinv_look enter d P held : uinv d P held -> uinv (look kernel enter d) P held /\ ud_same d (look kernel enter d).
Proof.
  intros [(Q & C & I) B]. destruct (look_spec enter _ _ _ _ _ I) as (Q' & C' & I' & S'). split; [|done]. constructor; [eauto|].
  eapply books_more; [|exact B]. cbn. lia.
Qed.
(** Popping finds the oldest completion, if there is one. *)
Lemma cq_pop_spec d P held :
  uinv d P held ->
  exists c d', ring_pop kernel d = Ok (c, d') /\ ud_same d d' /\ ud_free d' = ud_free d /\ ud_error d' = ud_error d
    /\ match c with
       | None => uinv d' P held
       | Some c => exists d1 Q C, d' = d1 <| cq_head := u32 (cq_head d1 + 1) |> /\ uring_inv d1 Q P (c :: C) held
           /\ booked d1
       end.
Proof.
  intros U. pose proof (uv_books _ _ _ (proj1 (uinv_look false d P held U))) as Bk.
  destruct U as [(Q0 & C0 & I0) _]. destruct (look_spec false d Q0 P C0 held I0) as (Q & C & I & Sm). unfold ring_pop.
  pose proof (ci_ring _ _ _ _ _ _ _ _ _ _ _ _ _ I) as R. pose proof (ri_cq _ _ _ _ _ _ _ R) as Hc. pose proof (ri_head _ _ _ _ _ _ _ R) as Hh.
  set (d1 := look kernel false d) in *. pose proof (holds_producer _ _ Hc) as Ep. rewrite zlen_app in Ep.
  destruct C as [|c C].
  - change (zlen []) with 0 in Ep. rewrite Z.add_0_r in Ep. rewrite Hh, Ep, Z.eqb_refl. exists None, d1. split_and!; try done.
    constructor; [by exists Q, []|done].
  - pose proof (ho_room _ _ Hc) as Rm. destruct (entries_bounds _ (ho_shape _ _ Hc)) as [Be _]. rewrite zlen_app in Rm. pose_zlen.
    rewrite (proj2 (Z.eqb_neq _ _)).
    2: { intros E. rewrite Hh, Ep, zlen_cons in E. rewrite Z.add_assoc in E. symmetry in E. apply u32_same_add in E; unfold W32 in *; rewrite ?zlen_cons in *; pose_zlen; lia. }
    pose proof (ho_desc _ _ Hc (length P) c) as Ed. rewrite lookup_app_r, Nat.sub_diag in Ed by done. specialize (Ed eq_refl).
    pose proof (index_range _ (rg_consumer (sh_cq (ud_shared d1)) + Z.of_nat (length P)) (ho_shape _ _ Hc)) as Hx.
    unfold read_desc. rewrite Hh. unfold zlen at 1. rewrite (get_at_ok _ _ c) by (done || lia). cbn [obind].
    eexists (Some c), _. split; [done|]. split_and!; try done. exists d1, Q, C. split; [by rewrite <- Hh|]. done.
Qed.
(** The books while one request has left the table and is not booked yet. *)
Definition booked_but (op : UringPending) d : Prop :=
  if pd_read op then books (ud_stats d) (rx_pending d + 1) (tx_pending d) (Z.of_nat (ud_turn d))
  else books (ud_stats d) (rx_pending d) (tx_pending d + 1) (Z.of_nat (ud_turn d)).
(** Reaping a completion never meets a request that is not pending. *)
Lemma take_request_spec d Q P c C held :
  uring_inv d Q P (c :: C) held -> booked d ->
  exists op d1, take_request c (d <| cq_head := u32 (cq_head d + 1) |>) = Ok (op, d1)
    /\ uring_inv d1 Q (P ++ [c]) C (owned [pd_buf op] ++ held) /\ ud_same d d1 /\ ud_handle d1 (pd_buf op)
    /\ (if pd_read op then rx_pending d1 + 1 + zlen (ud_ready d1) <= uc_rx_depth (ud_cfg d1) else True)
    /\ booked_but op d1 /\ ud_free d1 = ud_free d ++ [cqe_user_data c].
Proof.
  intros I Bk. pose proof (ri_done _ _ _ _ _ _ _ (ci_ring _ _ _ _ _ _ _ _ _ _ _ _ _ I)) as Dn.
  apply Forall_cons in Dn as [(op & E & _) _]. pose proof (ci_depth _ _ _ _ _ _ _ _ _ _ _ _ _ I) as Dp.
  destruct (core_reap _ _ _ _ _ _ _ _ _ _ _ _ _ _ op I E) as (I1 & Hb & Hp).
  unfold take_request. change (sh_pending (ud_shared (d <| cq_head := u32 (cq_head d + 1) |>))) with (sh_pending (ud_shared d)).
  rewrite E. cbn [obind]. cbv zeta. exists op. destruct (pd_read op) eqn:Er.
  - match goal with |- context [0 <? rx_pending ?x] => change (rx_pending x) with (rx_pending d) end.
    rewrite (proj2 (Z.ltb_lt _ _)) by done. cbn [obind]. eexists. split; [reflexivity|]. split; [exact I1|].
    split; [unfold ud_same; cbn; by rewrite length_insert|]. split; [exact Hb|]. split; [cbn; lia|]. split; [|done].
    unfold booked_but. rewrite Er. cbn. by rewrite Z.sub_add.
  - match goal with |- context [0 <? tx_pending ?x] => change (tx_pending x) with (tx_pending d) end.
    rewrite (proj2 (Z.ltb_lt _ _)) by done. cbn [obind]. eexists. split; [reflexivity|]. split; [exact I1|].
    split; [unfold ud_same; cbn; by rewrite length_insert|]. split; [exact Hb|]. split; [done|]. split; [|done].
    unfold booked_but. rewrite Er. cbn. by rewrite Z.sub_add.
Qed.
(** The buffer of a request goes back to the pool, whatever became of the statistics. *)
Lemma finish_drop d d2 Q P C held b :
  uring_inv d2 Q P C (owned [b] ++ held) -> ud_handle d2 b -> booked d2 ->
  ud_same d d2 -> ud_free d2 = ud_free d ->
  exists d', ud_drop b d2 = Ok d' /\ uinv d' P held /\ ud_same d d' /\ ud_free d' = ud_free d.
Proof.
  intros I Hb B S2 F2. destruct (ud_drop_spec d2 P held b) as (d' & E & I' & S' & F'); [constructor; [by exists Q, C|done]|done|].
  exists d'. split_and!; try done; [by etrans|congruence].
Qed.
Lemma record_error_eq k e d :
  exists er, record_error k e d = d <| ud_stats ::= fun t => t <| last_errno := e |> |> <| ud_error := er |>.
Proof.
  unfold record_error, stat. cbn. destruct (ud_error d) as [x|] eqn:E; [exists (Some x)|by exists (Some k)]. destruct d. cbn in *. by subst.
Qed.
(** Every request is booked once, and a packet that was read is ready. *)
Lemma finish_request_spec d Q P c C held op :
  uring_inv d Q P C (owned [pd_buf op] ++ held) -> ud_handle d (pd_buf op) ->
  (if pd_read op then rx_pending d + 1 + zlen (ud_ready d) <= uc_rx_depth (ud_cfg d) else True) ->
  booked_but op d ->
  exists d', finish_request c op d = Ok d' /\ uinv d' P held /\ ud_same d d' /\ ud_free d' = ud_free d.
Proof.
  intros I Hb Dp Bk. unfold booked_but in Bk.
  unfold finish_request. destruct (cqe_result c <? 0) eqn:E0; bools.
  { destruct (pd_read op && _) eqn:Ea; bools.
    - destruct Ea as [Ea _]. rewrite Ea in *. eapply (finish_drop d d Q P C); [exact I|exact Hb|by apply books_read_again|done|done].
    - match goal with |- context [record_error ?k ?e ?x] => destruct (record_error_eq k e x) as [er ->] end.
      destruct (pd_read op).
      + eapply (finish_drop d _ Q P C); [exact I|exact Hb|exact (books_read_failed _ _ _ _ Bk)|done|done].
      + eapply (finish_drop d _ Q P C); [exact I|exact Hb|exact (books_write_failed _ _ _ _ Bk)|done|done]. }
  destruct (pd_read op) eqn:Ep.
  - destruct ((cqe_result c =? 0) || _) eqn:Ez.
    + match goal with |- context [record_error ?k ?e ?x] => destruct (record_error_eq k e x) as [er ->] end.
      eapply (finish_drop d _ Q P C); [exact I|exact Hb|exact (books_read_failed _ _ _ _ Bk)|done|done].
    + bools. destruct Ez as [Ez1 Ez2]. pose proof Hb as (Wb & Bb & Cb).
      destruct (set_len_spec (pd_buf op) (cqe_result c) Wb ltac:(lia)) as [-> Ws]. cbn [obind].
      eexists. split; [reflexivity|].
      split; [|done]. constructor; [|exact (books_read_done _ _ _ _ Bk)].
      exists Q, C. destruct I as [R2 P2 B2 F2 G2 X2 T2 D2 Z2]. set (b := pd_buf op <| buf_len := cqe_result c |>) in *.
      assert (owned [b] = owned [pd_buf op]) as Eo by done. assert (ud_handle d b) as Hh by (split; [done|]; by split).
      clearbody b. constructor; cbn; try done.
      * rewrite owned_app, Eo. eapply pool_inv_proper; [|exact P2]. perm.
      * apply Forall_app. split; [done|]. by apply Forall_singleton.
      * rewrite zlen_app. change (zlen [b]) with 1. lia.
  - destruct (negb _).
    + match goal with |- context [record_error ?k ?e ?x] => destruct (record_error_eq k e x) as [er ->] end.
      eapply (finish_drop d _ Q P C); [exact I|exact Hb|exact (books_write_failed _ _ _ _ Bk)|done|done].
    + unfold stat. eapply (finish_drop d _ Q P C); [exact I|exact Hb|exact (books_write_done _ _ _ _ Bk)|done|done].
Qed.
(** The loop of [reap] ends: each round frees a slot. *)
Lemma free_bound d Q P C held : uring_inv d Q P C held -> (length (ud_free d) <= length (sh_pending (ud_shared d)))%nat.
Proof.
  intros I. pose proof (ri_ids _ _ _ _ _ _ _ (ci_ring _ _ _ _ _ _ _ _ _ _ _ _ _ I)) as E. apply Permutation_length in E.
  rewrite !length_app, length_indices in E. unfold zlen in E. lia.
Qed.
Lemma reap_loop_spec fuel d P held :
  uinv d P held -> (length (sh_pending (ud_shared d)) - length (ud_free d) < fuel)%nat ->
  exists d' P', reap_loop kernel fuel d = Ok d' /\ uinv d' P' held /\ ud_same d d'.
Proof.
  revert d P. induction fuel as [|fuel IH]; intros d P I L; [lia|]. cbn [reap_loop].
  destruct (cq_pop_spec d P held I) as (c & d1 & -> & S1 & F1 & _ & H1). cbn [obind]. destruct c as [c|]; [|by exists d1, P].
  destruct H1 as (d0 & Q & C & -> & I0 & B0).
  destruct (take_request_spec d0 Q P c C held I0 B0) as (op & d2 & E2 & I2 & S2 & Hb & Dp & Bk & F2).
  destruct (finish_request_spec d2 Q (P ++ [c]) c C held op I2 Hb Dp Bk) as (d3 & E3 & I3 & S3 & F3).
  unfold reap_one. rewrite E2. cbn [obind]. rewrite E3. cbn [obind].
  assert (ud_same d d3) as S13 by (etrans; [exact S1|]; etrans; [exact S2|exact S3]).
  destruct (IH d3 _ I3) as (d4 & P4 & -> & I4 & S4).
  { destruct S13 as (_ & _ & _ & El). rewrite El, F3, F2, length_app. cbn [length].
    pose proof (free_bound _ _ _ _ _ I2) as Fb. destruct S2 as (_ & _ & _ & El2). destruct S1 as (_ & _ & _ & El1).
    cbn in El1, F1. rewrite F2, length_app in Fb. cbn in Fb. rewrite <- F1 in L. lia. }
  exists d4, P4. split; [done|]. split; [done|]. by etrans.
Qed.
Lemma reap_spec d held : uinv d [] held -> exists d', reap kernel d = Ok d' /\ uinv d' [] held /\ ud_same d d'.
Proof.
  intros I. unfold reap. destruct (reap_loop_spec (S (length (sh_pending (ud_shared d)))) d [] held I ltac:(lia)) as (d1 & P & -> & [(Q & C & I1) B1] & S1). cbn [obind].
  eexists. split; [reflexivity|]. split; [|done]. constructor; [|done]. exists Q, C.
  destruct I1 as [[Hq Pb Sz Hc Hh Ids Fr Rq Dn] P1 B2 F1 F2 Rx Tx Dp Z1]. constructor; try done. constructor; try done; cbn.
  - rewrite Hh. apply (advance_holds _ _ (zlen P)) in Hc; [|rewrite zlen_app; pose_zlen; lia].
    unfold zlen in Hc at 2. by rewrite Nat2Z.id, drop_app_length in Hc.
  - rewrite Z.add_0_r. symmetry. apply u32_small. rewrite Hh. apply u32_range.
Qed.

(** ** Submitting *)
Lemma slots_spec d Q P C held :
  uring_inv d Q P C held -> exists n, sq_free_slots d = Ok n /\ zlen (ud_free d) <= n /\ n = zlen (sh_pending (ud_shared d)) - zlen Q.
Proof.
  intros I. pose proof (ci_ring _ _ _ _ _ _ _ _ _ _ _ _ _ I) as [Hq _ Sz _ _ Ids _ _ _].
  pose proof (ho_count _ _ Hq) as Ec. pose proof (ho_room _ _ Hq) as Er. unfold ring_count in Ec. cbn in Ec, Er.
  apply Permutation_length in Ids. rewrite !length_app, length_fmap, !length_app, length_indices in Ids.
  unfold sq_free_slots, ring_entries. rewrite <- Ec. rewrite (proj2 (Z.leb_le _ _)) by lia. eexists. split; [reflexivity|].
  rewrite Sz. unfold zlen in *. split; [lia|done].
Qed.
(** Pushing the entry of a new request. *)
Lemma ring_push_request s tail head free id Q P C q p :
  ring_inv s tail head (free ++ [id]) Q P C -> sqe_user_data q = id -> asks q p ->
  ring_inv (s <| sh_pending ::= fun l => <[Z.to_nat id := Some p]> l |> <| sh_sq ::= fun r => write_desc r tail q |>)
    (u32 (tail + 1)) head free (Q ++ [q]) P C.
Proof.
  intros [Hq Pb Sz Hc Hh Ids Fr Rq Dn] Ei As.
  destruct (ids_distinct _ _ id (free ++ (sqe_user_data <$> Q ++ sh_flight s) ++ (cqe_user_data <$> C)) Ids) as [Hi Other].
  { change (id :: ?l) with ([id] ++ l). perm. }
  assert (forall j x, Z.to_nat j <> Z.to_nat id -> sh_pending s !! Z.to_nat j = x -> <[Z.to_nat id := Some p]> (sh_pending s) !! Z.to_nat j = x) as Ins.
  { intros j x N Ej. by rewrite list_lookup_insert_ne. }
  assert (zlen Q + 1 <= zlen (sh_pending s)) as Rm.
  { apply Permutation_length in Ids. rewrite !length_app, length_fmap, !length_app, length_indices in Ids. cbn in Ids. unfold zlen in *. lia. }
  pose proof (sh_producer _ (ho_shape _ _ Hq)) as Ht. cbn in Ht.
  destruct (publish_holds _ _ [q] Hq) as (H1 & _ & _ & _); [cbn; rewrite Sz; change (zlen [q]) with 1; lia|].
  assert ((publish (sh_sq s <| rg_producer := tail |>) tail [q]).1 = write_desc (sh_sq s) tail q <| rg_producer := u32 (tail + 1) |>) as Epub.
  { unfold publish. cbn [write_all]. rewrite Z.add_0_r, (u32_small tail) by done. done. }
  change (rg_producer (sh_sq s <| rg_producer := tail |>)) with tail in H1. rewrite Epub in H1.
  constructor; cbn; try done.
  - destruct Pb as (n & Hn & Ep). exists n. rewrite zlen_app. split; [pose_zlen; lia|done].
  - unfold zlen in *. by rewrite length_insert.
  - unfold zlen in *. rewrite length_insert, <- Ids, !fmap_app. change (sqe_user_data <$> [q]) with [sqe_user_data q]. rewrite Ei. perm.
  - apply Forall_app in Fr as [Fr _]. rewrite Forall_forall in *. intros j Hj. apply Ins; [|by apply Fr]. apply Other.
    rewrite !elem_of_app. by left.
  - assert (Forall (request_ok (<[Z.to_nat id := Some p]> (sh_pending s))) (Q ++ sh_flight s)) as Old.
    { rewrite Forall_forall in *. intros r Hr. destruct (Rq r Hr) as (p' & E' & R'). exists p'. split; [|exact R'].
      apply Ins; [|done]. apply Other. rewrite !elem_of_app. right. left. by apply list_elem_of_fmap_2. }
    apply Forall_app in Old as [O1 O2]. rewrite !Forall_app. split_and!; try done. apply Forall_singleton. exists p.
    split; [|done]. rewrite Ei. apply list_lookup_insert_eq. unfold zlen in *. lia.
  - rewrite Forall_forall in *. intros r Hr. destruct (Dn r Hr) as (p' & E' & R'). exists p'. split; [|exact R'].
    apply Ins; [|done]. apply Other. rewrite !elem_of_app. right. right. by apply list_elem_of_fmap_2.
Qed.
Lemma core_push s tail head free id p ready depth rx tx Q C held q b read :
  core_inv s tail head (free ++ [id]) p ready depth rx tx Q [] C (owned [b] ++ held) -> handle (pool_id p) (frame_size p) b ->
  sqe_user_data q = id -> asks q (mkPending b read) -> (read = true -> rx + zlen ready < depth) ->
  core_inv (s <| sh_pending ::= fun l => <[Z.to_nat id := Some (mkPending b read)]> l |> <| sh_sq ::= fun r => write_desc r tail q |>)
    (u32 (tail + 1)) head free p ready depth (if read then Z.succ rx else rx) (if read then tx else Z.succ tx) (Q ++ [q]) [] C held.
Proof.
  intros [R I B F1 F2 Rx Tx Dp Sz] Hb Ei As Hd.
  assert (sh_pending s !! Z.to_nat id = Some None) as En.
  { pose proof (ri_free _ _ _ _ _ _ _ R) as Fr. rewrite Forall_app, Forall_singleton in Fr. tauto. }
  pose proof (bufs_enter _ _ (mkPending b read) En) as Pm.
  pose proof (count_enter _ _ (mkPending b read) true En) as Ct. pose proof (count_enter _ _ (mkPending b read) false En) as Cf.
  assert (forall x y : bool, bool_decide (x = y) = eqb x y) as Eb by (by intros [] []). rewrite Eb in Ct, Cf. cbn [pd_read pd_buf] in *.
  constructor; cbn; try done.
  - by apply ring_push_request.
  - rewrite Pm, owned_cons. eapply pool_inv_proper; [|exact I]. perm.
  - rewrite Pm. by constructor.
  - destruct read; cbn in *; lia.
  - destruct read; cbn in *; lia.
  - destruct read; [specialize (Hd eq_refl)|]; lia.
Qed.
(** A buffer that the caller owned becomes a pending request. *)
Lemma queue_request_spec d b (read : bool) held :
  (exists Q C, uring_inv d Q [] C (owned [b] ++ held)) ->
  books (ud_stats d) (rx_pending d) (tx_pending d) (Z.of_nat (ud_turn d) - (if read then 1 else 0)) ->
  ud_handle d b -> 0 < zlen (ud_free d) -> 0 <= request_len (mkPending b read) < W32 ->
  (read = true -> rx_pending d + zlen (ud_ready d) < uc_rx_depth (ud_cfg d)) ->
  exists d', queue_request b read d = Ok d' /\ uinv d' [] held /\ ud_same d d' /\ zlen (ud_free d') = zlen (ud_free d) - 1
    /\ ud_ready d' = ud_ready d /\ rx_pending d' = rx_pending d + (if read then 1 else 0) /\ ud_error d' = ud_error d.
Proof.
  intros (Q & C & I) B Hb Hf Hl Hd. pose proof (ci_ring _ _ _ _ _ _ _ _ _ _ _ _ _ I) as R.
  destruct (slots_spec d Q [] C _ I) as (n & En & Hn & _). unfold queue_request.
  destruct (last (ud_free d)) as [id|] eqn:El; [|apply last_None in El; rewrite El in Hf; done]. apply last_Some in El as [fr Ef].
  assert (take (length (ud_free d) - 1) (ud_free d) = fr) as Et.
  { rewrite Ef, length_app. cbn. rewrite Nat.add_sub. apply take_app_length. }
  assert (0 <= id < zlen (sh_pending (ud_shared d))) as Hi.
  { apply elem_of_indices. rewrite <- (ri_ids _ _ _ _ _ _ _ R), Ef, !elem_of_app. left. right. by left. }
  cbv zeta. cbn [ud_free ud_shared]. 
  match goal with |- context [id <? zlen (sh_pending (ud_shared ?x))] => change (sh_pending (ud_shared x)) with (sh_pending (ud_shared d)) end.
  rewrite (proj2 (Z.ltb_lt _ _)) by lia.
  unfold sq_push. match goal with |- context [sq_free_slots ?x] => change (sq_free_slots x) with (sq_free_slots d) end.
  rewrite En. cbn [obind]. rewrite (proj2 (Z.ltb_lt _ _)) by lia. cbn [obind].
  rewrite (u32_small (if read then tail_capacity b else buf_len b)) by exact Hl.
  set (q := mkSqe _ _ _ _ _ _). assert (asks q (mkPending b read)) as As by (split; [done|]; split; [done|]; split; [done|apply Hb]).
  unfold uring_inv in I. rewrite Ef in I. pose proof (core_push _ _ _ _ _ _ _ _ _ _ _ _ _ q b read I Hb eq_refl As Hd) as I'.
  rewrite <- Et in I'.
  assert (zlen (take (length (ud_free d) - 1) (ud_free d)) = zlen (ud_free d) - 1) as Lf.
  { rewrite Et, Ef, zlen_app. change (zlen [id]) with 1. lia. }
  assert (forall t, booked t -> (exists Q C, uring_inv t Q [] C held) -> uinv t [] held) as Mk by (by constructor).
  destruct read; (eexists; split; [reflexivity|]; split; [apply Mk; [|by exists (Q ++ [q]), C]|];
    [unfold booked; cbn; first [apply books_read_sent in B; by rewrite Z.sub_add in B|rewrite Z.sub_0_r in B; by apply books_write_sent]|];
    split; [unfold ud_same; cbn; by rewrite length_insert|]; split; [exact Lf|]; split_and!; try done; cbn; lia).
Qed.
Lemma queue_writes_spec bs d held :
  uinv d [] (owned bs ++ held) -> Forall (ud_handle d) bs -> Forall (fun b => 0 <= buf_len b <= U32MAX) bs ->
  zlen bs <= zlen (ud_free d) ->
  exists d', queue_writes bs d = Ok d' /\ uinv d' [] held /\ ud_same d d'.
Proof.
  revert d. induction bs as [|b bs IH]; intros d I F L Hf; [by exists d|]. apply Forall_cons in F as [Hb F]. apply Forall_cons in L as [Lb L].
  rewrite zlen_cons in Hf. pose proof (zlen_nonneg bs). rewrite owned_cons, <- app_assoc in I. cbn [queue_writes].
  destruct I as [I Bk].
  destruct (queue_request_spec d b false _ I ltac:(rewrite Z.sub_0_r; exact Bk) Hb) as (d1 & -> & I1 & S1 & F1 & _); [lia|unfold request_len; cbn; unfold U32MAX, W32 in *; lia|done|].
  cbn [obind]. destruct (IH d1 I1) as (d2 & -> & I2 & S2); [|done|lia|].
  { eapply Forall_impl; [exact F|]. intros c. by apply ud_same_handle. }
  exists d2. split; [done|]. split; [done|]. by etrans.
Qed.
Lemma ring_submit_spec d held :
  uinv d [] held -> exists e d', ring_submit kernel enter_errno d = (e, d') /\ uinv d' [] held /\ ud_same d d'.
Proof.
  intros [(Q & C & I) B]. unfold ring_submit. cbv zeta.
  match goal with |- context [look kernel true ?x] => set (d1 := x) end.
  assert (uring_inv d1 Q [] C held) as I1.
  { destruct I as [[Hq Pb Sz Hc Hh Ids Fr Rq Dn] P1 B2 F1 F2 Rx Tx Dp Z1]. constructor; try done. constructor; try done. cbn.
    exists (zlen Q). split; [pose_zlen; lia|]. exact (holds_producer _ _ Hq). }
  destruct (uinv_look true d1 [] held) as [I2 S2]; [constructor; [by exists Q, C|done]|].
  assert (ud_same d d1) as S1 by done.
  destruct (enter_errno _ _) as [e|]; [destruct (_ || _)|]; (eexists _, (look kernel true d1); split; [reflexivity|]; split; [done|by etrans]).
Qed.
Lemma take_error_spec d held :
  uinv d [] held -> uinv (take_error d).2 [] held /\ ud_same d (take_error d).2.
Proof. intros [(Q & C & I) B]. split; [|done]. constructor; [by exists Q, C|done]. Qed.
Lemma uring_progress_spec d held :
  uinv d [] held -> exists e d', uring_progress kernel enter_errno d = Ok (e, d') /\ uinv d' [] held /\ ud_same d d'.
Proof.
  intros I. unfold uring_progress. destruct (reap_spec d held I) as (d1 & -> & I1 & S1). cbn [obind].
  destruct (take_error_spec d1 held I1) as [I2 S2]. destruct (take_error d1) as [e d2]. cbn [snd] in *.
  assert (ud_same d d2) as S02 by (by etrans).
  destruct e as [e|]; [by exists (Some e), d2|]. destruct (_ <? _).
  - match goal with |- context [ring_submit _ _ ?x] => set (d3 := x) end.
    assert (uinv d3 [] held) as I3 by (destruct I2 as [(Q & C & I2) B2]; constructor; [by exists Q, C|exact B2]).
    destruct (ring_submit_spec d3 held I3) as (e & d4 & -> & I4 & S4).
    assert (ud_same d d4) as S04 by (etrans; [exact S02|exact S4]). destruct e as [e|].
    + eexists _, _. split; [reflexivity|]. split; [|exact S04]. destruct I4 as [(Q & C & I4) B4]. constructor; [by exists Q, C|exact B4].
    + destruct (reap_spec d4 held I4) as (d5 & -> & I5 & S5). cbn [obind]. destruct (take_error_spec d5 held I5) as [I6 S6].
      eexists _, _. split; [by rewrite (surjective_pairing (take_error d5))|]. split; [done|]. etrans; [exact S04|]. by etrans.
  - destruct (take_error_spec d2 held I2) as [I6 S6].
    eexists _, _. split; [by rewrite (surjective_pairing (take_error d2))|]. split; [done|]. by etrans.
Qed.
(** The loop that keeps reads outstanding ends: each round uses up the RX budget. *)
Lemma fill_reads_spec fuel d held :
  uinv d [] held -> uc_rx_depth (ud_cfg d) - (rx_pending d + zlen (ud_ready d)) < Z.of_nat fuel ->
  exists d', fill_reads kernel fuel d = Ok d' /\ uinv d' [] held /\ ud_same d d'.
Proof.
  revert d. induction fuel as [|fuel IH]; intros d I L.
  { exfalso. destruct I as [(Q & C & I) B]. pose proof (ci_depth _ _ _ _ _ _ _ _ _ _ _ _ _ I). lia. }
  cbn [fill_reads]. destruct (_ && _) eqn:Ec; [|by exists d]. bools. destruct Ec as [Ed Ef].
  destruct (uinv_look false d [] held I) as [I1 S1]. pose proof (uv_books _ _ _ I) as B0.
  assert (books (ud_stats (look kernel false d)) (rx_pending (look kernel false d)) (tx_pending (look kernel false d))
    (Z.of_nat (ud_turn (look kernel false d)) - 1)) as Bl.
  { unfold booked in B0. cbn -[Z.of_nat]. by replace (Z.of_nat (S (ud_turn d)) - 1) with (Z.of_nat (ud_turn d)) by lia. }
  assert (ud_free (look kernel false d) = ud_free d /\ rx_pending (look kernel false d) = rx_pending d
    /\ ud_ready (look kernel false d) = ud_ready d /\ ud_cfg (look kernel false d) = ud_cfg d) as (Fr1 & Rx1 & Rd1 & Cf1) by done.
  set (d1 := look kernel false d) in *. clearbody d1.
  destruct I1 as [(Q & C & I1) B1]. destruct (slots_spec d1 Q [] C held I1) as (n & -> & Hn & _). cbn [obind].
  assert (0 < zlen (ud_free d1)) as Hf by (rewrite Fr1; pose proof (zlen_nonneg (ud_free d)); lia).
  rewrite (proj2 (Z.ltb_lt _ _)) by lia.
  pose proof I1 as [R1 P1 Y1 F1 G1 X1 T1 D1 Z1].
  destruct (decide (free_count (ud_pool d1) = 0)) as [E0|E0].
  { rewrite (alloc_empty _ _ P1 E0). cbn [obind]. exists (d1 <| ud_pool := ud_pool d1 |>). split; [done|].
    split; [constructor; [by exists Q, C|exact B1]|exact S1]. }
  pose proof (inv_count _ _ P1) as Hc.
  destruct (alloc_some _ _ P1 ltac:(lia)) as (i & p & -> & Ni & Hi & Ip & _ & Ea & Eid & Esz & Enm). cbn [obind].
  destruct (packet_buf_spec p _ i Ip ltac:(lia)) as (b & Eb & Ei & (Lb & Pb & Cb & Ob & Mb)).
  change (ud_pool (d1 <| ud_pool := p |>)) with p. rewrite Eb. cbn [obind].
  assert (handle (pool_id p) (frame_size p) b) as Hb.
  { split; [unfold buf_wf; lia|]. split; [|by rewrite Pb]. rewrite Ea in Mb. rewrite Forall_forall in Y1. by apply Y1. }
  destruct (queue_request_spec (d1 <| ud_pool := p |>) b true held) as (d2 & -> & I2 & S2 & F2 & Rd2 & Rx2 & _).
  - exists Q, C. constructor; cbn; rewrite ?Eid, ?Esz, ?Ea; try done.
    rewrite (owned_one b (pool_id p)) by done. rewrite Ei. eapply pool_inv_proper; [|exact Ip].
    change (i :: ?l) with ([i] ++ l). perm.
  - exact Bl.
  - exact Hb.
  - exact Hf.
  - unfold request_len. cbn. unfold tail_capacity. rewrite Cb. lia.
  - intros _. cbn. rewrite Rx1, Rd1, Cf1. lia.
  - cbn [obind]. assert (ud_same d d2) as S02.
    { etrans; [exact S1|]. etrans; [|exact S2]. unfold ud_same. cbn. by rewrite Eid, Esz. }
    destruct (IH d2 I2) as (d3 & -> & I3 & S3).
    { destruct S02 as (_ & _ & -> & _). rewrite Rx2, Rd2. cbn. rewrite Rx1, Rd1. lia. }
    exists d3. split; [done|]. split; [done|]. by etrans.
Qed.

(** ** The device operations *)
Lemma recv_body_spec max d held :
  uinv d [] held -> 0 <= max ->
  exists r d', recv_body kernel enter_errno max d = Ok (r, d') /\ ud_same d d'
    /\ match r with
       | Ok out => uinv d' [] (owned out ++ held) /\ Forall (ud_handle d) out /\ zlen out <= max
       | Err _ => uinv d' [] held
       | _ => False
       end.
Proof.
  intros I Hm. unfold recv_body. destruct (reap_spec d held I) as (d1 & -> & I1 & S1). cbn [obind].
  destruct (take_error_spec d1 held I1) as [I2 S2]. destruct (take_error d1) as [e d2]. cbn [snd] in *.
  assert (ud_same d d2) as S02 by (by etrans).
  destruct e as [e|]; [by exists (Err e), d2|].
  destruct (fill_reads_spec (S (Z.to_nat (uc_rx_depth (ud_cfg d2)))) d2 held I2) as (d3 & -> & I3 & S3).
  { destruct I2 as [(Q & C & I2) _]. pose proof (ci_rx _ _ _ _ _ _ _ _ _ _ _ _ _ I2) as Hr. unfold count_of in Hr. pose_zlen. lia. }
  cbn [obind]. destruct (uring_progress_spec d3 held I3) as (e & d4 & -> & I4 & S4). cbn [obind].
  assert (ud_same d d4) as S04 by (etrans; [exact S02|]; by etrans).
  destruct e as [e|]; [by exists (Err e), d4|].
  set (n := Z.to_nat (Z.min max (zlen (ud_ready d4)))). eexists _, _. split; [reflexivity|]. split; [exact S04|].
  destruct I4 as [(Q & C & [R P B F G X T D Z]) Bk]. rewrite <- (take_drop n (ud_ready d4)) in P, G, D. apply Forall_app in G as [G1 G2].
  split_and!.
  - constructor; [|exact Bk]. exists Q, C. constructor; cbn; try done.
    + rewrite owned_app in P. eapply pool_inv_proper; [|exact P]. perm.
    + rewrite zlen_app in D. pose_zlen. lia.
  - eapply Forall_impl; [exact G1|]. intros b Hb. apply (ud_same_handle d d4 b S04). exact Hb.
  - unfold n, zlen. rewrite length_take. lia.
Qed.
Lemma uring_recv_spec d held max out :
  uinv d [] (owned out ++ held) -> 0 <= max -> Forall (ud_handle d) out ->
  exists r d' out', uring_recv kernel enter_errno max (d, out) = (r, (d', out')) /\ returns r /\ ud_same d d'
    /\ uinv d' [] (owned out' ++ held) /\ Forall (ud_handle d) out' /\ zlen out' <= max
    /\ match r with Ok n => n = zlen out' | _ => out' = [] end.
Proof.
  intros I Hm F. unfold uring_recv. destruct (ud_drops_spec out d [] held I F) as (d1 & -> & I1 & S1). cbn [obind].
  destruct (recv_body_spec max d1 held I1 Hm) as (r & d2 & -> & S2 & H2).
  assert (ud_same d d2) as S02 by (by etrans). destruct r as [out'|e| |]; try done.
  - destruct H2 as (I2 & F2 & L2). eexists _, d2, out'. split; [reflexivity|]. split_and!; try done.
    eapply Forall_impl; [exact F2|]. intros b Hb. by apply (ud_same_handle d d1 b S1).
  - eexists (Err e), d2, []. split; [reflexivity|]. done.
Qed.
Lemma send_body_spec frames d held :
  uinv d [] (owned frames ++ held) -> Forall (ud_handle d) frames ->
  exists r d', send_body kernel enter_errno frames d = Ok (r, d') /\ ud_same d d'
    /\ match r with
       | Ok n => 0 <= n <= zlen frames /\ uinv d' [] (owned (drop (Z.to_nat n) frames) ++ held)
       | Err _ => uinv d' [] (owned frames ++ held)
       | _ => False
       end.
Proof.
  intros I F. unfold send_body. destruct (reap_spec d _ I) as (d1 & -> & I1 & S1). cbn [obind].
  destruct (take_error_spec d1 _ I1) as [I2 S2]. destruct (take_error d1) as [e d2]. cbn [snd] in *.
  assert (ud_same d d2) as S02 by (by etrans).
  destruct e as [e|]; [by exists (Err e), d2|].
  destruct (uinv_look false d2 [] _ I2) as [I3 S3]. set (d3 := look kernel false d2) in *. clearbody d3.
  assert (ud_same d d3) as S03 by (by etrans).
  assert (exists n, sq_free_slots d3 = Ok n /\ zlen (ud_free d3) <= n) as (n & -> & Hn).
  { destruct I3 as [(Q & C & I3) _]. destruct (slots_spec _ _ _ _ _ I3) as (n & ? & ? & _). eauto. }
  cbn [obind]. set (k := Z.min (Z.min (zlen frames) (zlen (ud_free d3))) n).
  assert (0 <= k <= zlen frames /\ k <= zlen (ud_free d3)) as Hk' by (unfold k; pose_zlen; lia).
  destruct (existsb _ _) eqn:Ex; [by exists (Err InvalidInput), d3|].
  assert (owned frames = owned (take (Z.to_nat k) frames) ++ owned (drop (Z.to_nat k) frames)) as Eo by (by rewrite <- owned_app, take_drop).
  rewrite Eo, <- app_assoc in I3.
  destruct (queue_writes_spec (take (Z.to_nat k) frames) d3 _ I3) as (d4 & -> & I4 & S4).
  { apply Forall_take. eapply Forall_impl; [exact F|]. intros b. by apply ud_same_handle. }
  { pose proof (Forall_take _ (Z.to_nat k) _ F) as Ft. rewrite Forall_forall in Ft |- *. intros b Hb.
    destruct (Ft b Hb) as ((_ & Wb & _) & _).
    split; [done|]. apply Z.nlt_ge. intros Hl. apply not_true_iff_false in Ex. apply Ex. apply existsb_exists. exists b.
    split; [by apply list_elem_of_In|]. rewrite (proj2 (Z.ltb_lt _ _) Hl). apply orb_true_r. }
  { unfold zlen in *. rewrite length_take. lia. }
  cbn [obind]. destruct (uring_progress_spec d4 _ I4) as (e & d5 & -> & I5 & S5). cbn [obind].
  assert (ud_same d d5) as S05 by (etrans; [exact S03|]; by etrans).
  eexists (Ok k), _. split; [reflexivity|]. destruct e as [e|].
  - split; [exact S05|]. split; [lia|]. destruct I5 as [(Q & C & I5) B5]. constructor; [by exists Q, C|exact B5].
  - split; [exact S05|]. split; [lia|done].
Qed.
Lemma uring_send_spec d held frames :
  uinv d [] (owned frames ++ held) -> Forall (ud_handle d) frames ->
  exists r d' frames', uring_send kernel enter_errno (d, frames) = (r, (d', frames')) /\ ud_same d d'
    /\ uinv d' [] (owned frames' ++ held)
    /\ match r with
       | Ok n => 0 <= n <= zlen frames /\ frames' = replicate (Z.to_nat n) packet_default ++ drop (Z.to_nat n) frames
       | Err _ => frames' = frames
       | _ => False
       end.
Proof.
  intros I F. unfold uring_send. destruct (send_body_spec frames d held I F) as (r & d' & -> & Sm & H).
  destruct r as [n|e| |]; try done.
  - destruct H as [Hn I']. eexists (Ok n), d', _. split; [reflexivity|]. split_and!; try done; try lia.
    by rewrite owned_app, owned_defaults.
  - by exists (Err e), d', frames.
Qed.
Lemma uring_alloc_spec d held :
  uinv d [] held ->
  exists r d', uring_alloc d = (Ok r, d') /\ ud_same d d'
    /\ match r with
       | Some b => uinv d' [] (buf_idx b :: held) /\ ud_handle d b /\ buf_pool b = Some (pool_id (ud_pool d)) /\ buf_len b = 0
       | None => uinv d' [] held
       end.
Proof.
  intros [(Q & C & [R P B F G X T D Z]) Bk]. unfold uring_alloc.
  destruct (alloc_packet_spec _ _ P) as [[-> _]|(b & p & -> & Ip & (S1 & S2 & S3 & S4) & (F1 & F2 & F3 & F4 & F5))].
  - eexists None, _. split; [reflexivity|]. split; [done|]. constructor; [|exact Bk]. exists Q, C. done.
  - eexists (Some b), _. split; [reflexivity|]. split; [unfold ud_same; cbn; by rewrite S2, S3|]. split.
    + constructor; [|exact Bk]. exists Q, C. constructor; cbn; rewrite ?S1, ?S2, ?S3; try done.
      eapply pool_inv_proper; [|exact Ip]. change (buf_idx b :: ?l) with ([buf_idx b] ++ l). perm.
    + split; [|done]. split; [unfold buf_wf; lia|]. split; [|by rewrite F2]. rewrite Forall_forall in B. by apply B.
Qed.
Definition uring_laws : @DeviceLaws UringTunDevice (uring_device kernel enter_errno).
Proof.
  refine {| dev_pool := fun d => pool_id (ud_pool d); dev_inv := fun d held => uinv d [] held |}.
  - intros d h k E I. by eapply uinv_perm.
  - intros d held I. destruct (uring_alloc_spec d held I) as (r & d' & E & (S1 & S2 & _) & H). exists r, d'.
    split; [exact E|]. split; [exact S1|]. split; [exact S2|]. exact H.
  - intros d held b I Hb. destruct (ud_drop_spec d [] held b I Hb) as (d' & E & I' & (S1 & S2 & _) & _).
    exists d'. cbn. by rewrite E.
  - intros d held frames I F. destruct (uring_send_spec d held frames I F) as (r & d' & fs & E & (S1 & S2 & _) & I' & H).
    by exists r, d', fs.
  - intros d held max out I Hm F. destruct (uring_recv_spec d held max out I Hm F) as (r & d' & out' & E & Rt & (S1 & S2 & _) & I' & F' & L & H).
    exists r, d', out'. split_and!; try done. by destruct r.
  - intros d held now I. by exists (Ok tt), d.
Defined.
End Kernel.
