(* ===== verification/UringProps.v ===== *)
(** * What the io_uring TUN backend promises

    The laws of a device, the account of every request and every frame in all sequences of
    calls, and the quarantine of kernel-owned frames at teardown. *)
From Stdlib Require Import ZArith Lia Bool.
From stdpp Require Import base numbers option list relations.
From S2P Require Import Prelude BufferPool Device XdpRing Tun TunProps Uring UringInv.
#[local] Open Scope Z_scope.
Implicit Types (s : UringShared) (d : UringTunDevice).

(** The rings that the kernel sets up: empty, of a power of two of entries. *)
Record fresh_rings s : Prop := {
  fr_sq : holds (sh_sq s) [];
  fr_cq : holds (sh_cq s) [];
  fr_sq0 : rg_producer (sh_sq s) = 0 /\ rg_consumer (sh_sq s) = 0;
  fr_cq0 : rg_producer (sh_cq s) = 0 /\ rg_consumer (sh_cq s) = 0;
  fr_flight : sh_flight s = []
}.
Lemma omap_nones n : omap id (replicate n (@None UringPending)) = [].
Proof. by induction n. Qed.
Lemma uring_parts_inv ring p cfg d :
  (forall s, ring = Ok s -> fresh_rings s) -> pool_inv p [] -> Forall bytes_ok (arena p) -> frame_size p < W32 ->
  0 <= uc_rx_depth cfg -> uring_from_parts ring p cfg = Ok d -> uinv d [] [] /\ ud_pool d = p.
Proof.
  intros Hr I B Sz Hd E. unfold uring_from_parts in E. apply obind_Ok in E as (u & _ & E). destruct (_ <=? _); [done|].
  apply obind_Ok in E as (s & Es & [= <-]). destruct (Hr s Es) as [Hq Hc [Sq1 Sq2] [Cq1 Cq2] Hf]. split; [|done].
  destruct (entries_bounds _ (ho_shape _ _ Hq)) as [Be _]. pose proof (length_indices (rg_entries (sh_sq s))) as Li.
  constructor; [|split; [done|by exists 0, 0, 0]]. exists [], []. constructor; cbn [ud_shared sq_tail cq_head ud_free ud_pool ud_ready ud_cfg rx_pending tx_pending sh_pending].
  - constructor; cbn; try done.
    + destruct (sh_sq s). cbn in *. by subst.
    + exists 0. split; [done|]. by rewrite Sq1, Sq2.
    + unfold zlen. rewrite length_replicate. lia.
    + by rewrite Cq2.
    + rewrite Hf. cbn. rewrite app_nil_r. unfold zlen. rewrite length_replicate, Z2Nat.id by lia. apply reverse_Permutation.
    + apply Forall_forall. intros i Hi. rewrite elem_of_reverse, elem_of_indices in Hi. apply lookup_replicate_2. lia.
    + by rewrite Hf.
  - unfold bufs. cbn. by rewrite omap_nones.
  - done.
  - unfold bufs. cbn. by rewrite omap_nones.
  - constructor.
  - unfold count_of. cbn. by rewrite omap_nones.
  - unfold count_of. cbn. by rewrite omap_nones.
  - cbn. change (zlen []) with 0. lia.
  - done.
Qed.
(** A device over the pool of a TUN device. *)
Lemma uring_new_inv ring id name mtu opened cfg assigned d :
  (forall s, ring = Ok s -> fresh_rings s) -> 0 <= uc_rx_depth cfg ->
  uring_new ring id name mtu opened cfg = Ok (assigned, d) ->
  uinv d [] [] /\ pool_id (ud_pool d) = id /\ frame_size (ud_pool d) = frame_size_for_mtu mtu.
Proof.
  intros Hr Hd E. unfold uring_new in E. apply obind_Ok in E as (u & _ & E). apply obind_Ok in E as ([a t] & Et & E).
  apply obind_Ok in E as (d' & Ed & [= <- ->]). unfold uring_from_tun in Ed. apply obind_Ok in Ed as (u' & _ & Ed).
  unfold tun_new_with_mtu in Et. destruct (mtu_valid mtu) eqn:V; [|done]. destruct (_ || _); [done|]. cbn [negb] in Et.
  apply obind_Ok in Et as (x & _ & Et). apply obind_Ok in Et as (y & _ & Et). apply obind_Ok in Et as (p & Ep & [= _ <-]).
  destruct (tun_pool_ok id mtu V) as (p' & Ep' & I & B & Ef & Ei & _). rewrite Ep in Ep'. injection Ep' as <-.
  destruct (uring_parts_inv ring p cfg d Hr I B) as [Iu Eu]; [|done|done|].
  - rewrite Ef. apply mtu_frame in V. unfold W32. lia.
  - by rewrite Eu.
Qed.

(** ** Sessions *)
(** A device and the handles that the application holds. *)
Abbreviation Session := (UringTunDevice * list PacketBuf)%type.
Section Sessions.
Context (kernel : nat -> bool -> UringShared -> UringShared) (enter_errno : nat -> Z -> option Z).
Inductive uring_step : Session -> Session -> Prop :=
| us_recv max out rest d app r d' out' :
    0 <= max -> app ≡ₚ out ++ rest -> uring_recv kernel enter_errno max (d, out) = (r, (d', out')) ->
    uring_step (d, app) (d', out' ++ rest)
| us_send frames rest d app r d' frames' :
    app ≡ₚ frames ++ rest -> uring_send kernel enter_errno (d, frames) = (r, (d', frames')) ->
    uring_step (d, app) (d', frames' ++ rest)
| us_progress d app e d' : uring_progress kernel enter_errno d = Ok (e, d') -> uring_step (d, app) (d', app)
| us_alloc d app b d' : uring_alloc d = (Ok (Some b), d') -> uring_step (d, app) (d', b :: app)
| us_drop b rest d app d' : app ≡ₚ b :: rest -> ud_drop b d = Ok d' -> uring_step (d, app) (d', rest)
(** the application writes a packet into a frame that it holds *)
| us_edit b b' rest d app :
    app ≡ₚ b :: rest -> buf_wf b' -> bytes_ok (buf_mem b') -> capacity b' = capacity b -> buf_idx b' = buf_idx b ->
    buf_pool b' = buf_pool b -> uring_step (d, app) (d, b' :: rest).

Definition session_inv (x : Session) : Prop := uinv x.1 [] (owned x.2) /\ Forall (ud_handle x.1) x.2.
Lemma handles_same d d' bs : ud_same d d' -> Forall (ud_handle d) bs -> Forall (ud_handle d') bs.
Proof. intros S F. eapply Forall_impl; [exact F|]. intros b. by apply ud_same_handle. Qed.
Lemma uring_step_inv x y : kernel_ok kernel -> uring_step x y -> session_inv x -> session_inv y.
Proof.
  intros Hk St [I F]. destruct St as [max out rest d app r d' out' Hm Ea E|frames rest d app r d' fs' Ea E|d app e d' E|d app b d' E|b rest d app d' Ea E|b b' rest d app Ea W B Ec Ei Ep];
    cbn [fst snd] in *.
  - rewrite Ea, owned_app in I. rewrite Ea, Forall_app in F. destruct F as [F1 F2].
    destruct (uring_recv_spec kernel enter_errno Hk d _ max out I Hm F1) as (r0 & d0 & o0 & E0 & _ & Sm & I' & F' & _).
    rewrite E in E0. injection E0 as -> -> ->. split; cbn [fst snd]; [by rewrite owned_app|]. eapply handles_same; [exact Sm|]. by apply Forall_app.
  - rewrite Ea, owned_app in I. rewrite Ea, Forall_app in F. destruct F as [F1 F2].
    destruct (uring_send_spec kernel enter_errno Hk d _ frames I F1) as (r0 & d0 & f0 & E0 & Sm & I' & H).
    rewrite E in E0. injection E0 as -> -> ->. split; cbn [fst snd]; [by rewrite owned_app|]. eapply handles_same; [exact Sm|]. apply Forall_app.
    split; [|done]. destruct r0 as [n|e| |]; try done; [|by subst]. destruct H as [_ ->]. apply Forall_app.
    split; [apply Forall_replicate, handle_default|by apply Forall_drop].
  - destruct (uring_progress_spec kernel enter_errno Hk d _ I) as (e0 & d0 & E0 & I' & Sm). rewrite E in E0. injection E0 as -> ->.
    split; [done|by eapply handles_same].
  - destruct (uring_alloc_spec d _ I) as (r & d0 & E0 & Sm & H). rewrite E in E0. injection E0 as <- <-. destruct H as (I' & Hb & Pb & _).
    split; cbn [fst snd]; [by rewrite owned_cons, (owned_one _ _ Pb)|]. eapply handles_same; [exact Sm|]. by constructor.
  - rewrite Ea, owned_cons in I. rewrite Ea, Forall_cons in F. destruct F as [F1 F2].
    destruct (ud_drop_spec d [] _ b I F1) as (d0 & E0 & I' & Sm & _). rewrite E in E0. injection E0 as ->. split; [done|by eapply handles_same].
  - rewrite Ea, owned_cons in I. rewrite Ea, Forall_cons in F. destruct F as [(_ & _ & P) F2].
    assert (owned [b'] = owned [b]) as Eo by (unfold owned; cbn; by rewrite Ei, Ep). split; cbn [fst snd].
    + by rewrite owned_cons, Eo.
    + constructor; [|done]. split; [done|]. split; [done|]. by rewrite Ep, Ec.
Qed.
Lemma session_steps x y : kernel_ok kernel -> rtc uring_step x y -> session_inv x -> session_inv y.
Proof. intros Hk St. induction St; eauto using uring_step_inv. Qed.

(** C25. A device that [new] builds keeps the laws of a device from its first operation on, for
    every kernel that completes each request it took exactly once, with a result within the
    request, and writes only to the buffers of reads that it holds: no expectation of the
    backend ("kernel returned a live request id", "space checked", a free submission slot,
    the checked counters) can fail, and the loops that reap completions and post reads end. *)
Theorem uring_refines_device ring id name mtu opened cfg assigned d :
  kernel_ok kernel -> (forall s, ring = Ok s -> fresh_rings s) -> 0 <= uc_rx_depth cfg ->
  uring_new ring id name mtu opened cfg = Ok (assigned, d) ->
  exists L : @DeviceLaws UringTunDevice (uring_device kernel enter_errno),
    @dev_inv _ _ L d [] /\ @dev_pool _ _ L d = id
    /\ @dev_frame_size _ (uring_device kernel enter_errno) d = frame_size_for_mtu mtu
    /\ (forall d held, @dev_inv _ _ L d held <-> uinv d [] held).
Proof.
  intros Hk Hr Hd E. destruct (uring_new_inv _ _ _ _ _ _ _ _ Hr Hd E) as (I & Ei & Ef).
  exists (uring_laws kernel enter_errno Hk). done.
Qed.

(** ** The entries in the rings *)
(** What was pushed to the submission ring and the kernel has not taken: the entries from the
    kernel's head to the tail of the program. *)
Definition waiting d : outcome (list Sqe) :=
  let r := sh_sq (ud_shared d) in read_all r (rg_consumer r) 0 (Z.to_nat (u32 (sq_tail d - rg_consumer r))).
(** What the kernel completed and the program has not reaped: the entries from the head of
    the program to the kernel's tail. *)
Definition answers d : outcome (list Cqe) :=
  let r := sh_cq (ud_shared d) in read_all r (cq_head d) 0 (Z.to_nat (u32 (rg_producer r - cq_head d))).
Lemma read_all_producer {A} (r : Ring A) p c i n : read_all (r <| rg_producer := p |>) c i n = read_all r c i n.
Proof. revert i. induction n as [|n IH]; intros i; cbn [read_all]; [done|]. by rewrite IH. Qed.
Lemma waiting_spec d Q P C held : uring_inv d Q P C held -> waiting d = Ok Q.
Proof.
  intros I. pose proof (ri_sq _ _ _ _ _ _ _ (ci_ring _ _ _ _ _ _ _ _ _ _ _ _ _ I)) as Hq.
  pose proof (ho_count _ _ Hq) as Ec. unfold ring_count in Ec. cbn in Ec. unfold waiting. rewrite <- Ec.
  pose proof (read_all_holds _ _ 0 (length Q) Hq ltac:(lia)) as E. rewrite firstn_all, read_all_producer in E.
  unfold zlen. rewrite Nat2Z.id. exact E.
Qed.
Lemma answers_spec d Q C held : uring_inv d Q [] C held -> answers d = Ok C.
Proof.
  intros I. pose proof (ci_ring _ _ _ _ _ _ _ _ _ _ _ _ _ I) as R. pose proof (ri_cq _ _ _ _ _ _ _ R) as Hc.
  pose proof (ri_head _ _ _ _ _ _ _ R) as Hh. change (zlen []) with 0 in Hh. cbn [app] in Hc.
  rewrite Z.add_0_r, u32_small in Hh by apply (sh_consumer _ (ho_shape _ _ Hc)).
  unfold answers. rewrite Hh. fold (ring_count (sh_cq (ud_shared d))). rewrite <- (ho_count _ _ Hc).
  pose proof (read_all_holds _ _ 0 (length C) Hc ltac:(lia)) as E. rewrite firstn_all in E.
  unfold zlen. rewrite Nat2Z.id. exact E.
Qed.

(** ** Publishing *)
(** The program's side of the submission ring is as it was. *)
Definition sq_same d d' : Prop :=
  rg_producer (sh_sq (ud_shared d')) = rg_producer (sh_sq (ud_shared d)) /\ sq_tail d' = sq_tail d.
#[local] Instance sq_same_pre : PreOrder sq_same.
Proof. split; [done|]. intros a b c. unfold sq_same. intuition congruence. Qed.
Lemma look_sq enter d : kernel_ok kernel -> sq_same d (look kernel enter d).
Proof.
  intros Hk. split; [|done]. cbn. generalize (Hk (ud_turn d) enter (ud_shared d)).
  generalize (kernel (ud_turn d) enter (ud_shared d)). induction 1 as [|s1 s2 s3 [] _ IH]; [done|..]; exact IH.
Qed.
Lemma drop_sq b d d' : ud_drop b d = Ok d' -> sq_same d d'.
Proof. intros E. unfold ud_drop in E. by apply obind_Ok in E as (p & _ & [= <-]). Qed.
Lemma reap_one_sq c d d' : reap_one c d = Ok d' -> sq_same d d'.
Proof.
  intros E. unfold reap_one in E. apply obind_Ok in E as ([op d1] & E1 & E2). unfold take_request in E1.
  apply obind_Ok in E1 as (op1 & _ & E1). apply obind_Ok in E1 as (d2 & E1 & [= -> ->]).
  assert (sq_same d d1) as S1 by (destruct (pd_read op); [destruct (0 <? rx_pending _)|destruct (0 <? tx_pending _)]; try done; by injection E1 as <-).
  etrans; [exact S1|]. clear S1 E1. unfold finish_request in E2. destruct (_ <? 0).
  - destruct (_ && _); [by eapply drop_sq|].
    match type of E2 with context [record_error ?k ?e ?x] => destruct (record_error_eq k e x) as [er Er]; rewrite Er in E2 end.
    apply drop_sq in E2. by destruct (pd_read op).
  - destruct (pd_read op); [destruct (_ || _)|destruct (negb _)].
    + match type of E2 with context [record_error ?k ?e ?x] => destruct (record_error_eq k e x) as [er Er]; rewrite Er in E2 end.
      by apply drop_sq in E2.
    + by apply obind_Ok in E2 as (b & _ & [= <-]).
    + match type of E2 with context [record_error ?k ?e ?x] => destruct (record_error_eq k e x) as [er Er]; rewrite Er in E2 end.
      by apply drop_sq in E2.
    + by apply drop_sq in E2.
Qed.
Lemma reap_sq d d' : kernel_ok kernel -> reap kernel d = Ok d' -> sq_same d d'.
Proof.
  intros Hk E. unfold reap in E. apply obind_Ok in E as (d1 & E & [= <-]). etrans; [|done].
  revert E. generalize (S (length (sh_pending (ud_shared d)))). intros fuel. revert d.
  induction fuel as [|fuel IH]; intros d E; [done|]. cbn [reap_loop] in E. apply obind_Ok in E as ([c d2] & E2 & E).
  assert (sq_same d d2) as S2.
  { unfold ring_pop in E2. etrans; [apply (look_sq false d Hk)|]. destruct (_ =? _); [by injection E2 as _ <-|].
    by apply obind_Ok in E2 as (q & _ & [= _ <-]). }
  etrans; [exact S2|]. destruct c as [c|]; [|by injection E as <-].
  apply obind_Ok in E as (d3 & E3 & E). etrans; [by eapply reap_one_sq|]. by apply IH.
Qed.
(** A [progress] without an error leaves nothing unpublished. *)
Lemma progress_publishes d d' held :
  kernel_ok kernel -> uinv d [] held -> uring_progress kernel enter_errno d = Ok (None, d') ->
  rg_producer (sh_sq (ud_shared d')) = sq_tail d'.
Proof.
  intros Hk I E. unfold uring_progress in E. destruct (reap_spec kernel Hk d held I) as (d1 & E1 & I1 & _).
  rewrite E1 in E. cbn [obind] in E. unfold take_error in E. destruct (ud_error d1); [done|].
  destruct (_ <? _) eqn:Ef.
  - match type of E with context [ring_submit _ _ ?x] => set (d2 := x) in E end.
    assert (forall e d3, ring_submit kernel enter_errno d2 = (e, d3) -> rg_producer (sh_sq (ud_shared d3)) = sq_tail d3) as Sub.
    { intros e d3 Es. unfold ring_submit in Es. cbv zeta in Es.
      match type of Es with context [look kernel true ?x] => destruct (look_sq true x Hk) as [L1 L2] end.
      assert (d3 = look kernel true (d2 <| ud_shared ::= fun s => s <| sh_sq ::= fun r => r <| rg_producer := sq_tail d2 |> |> |>)) as ->
        by (destruct (enter_errno _ _) as [?|]; [destruct (_ || _)|]; by injection Es).
      rewrite L1, L2. done. }
    destruct (ring_submit kernel enter_errno d2) as [[errno|] d3]; [done|].
    apply obind_Ok in E as (d4 & E4 & [= _ <-]). destruct (reap_sq _ _ Hk E4) as [R1 R2]. cbn. rewrite R1, R2. by eapply Sub.
  - injection E as <-. cbn. bools. destruct I1 as [(Q & C & I1) _].
    pose proof (ci_ring _ _ _ _ _ _ _ _ _ _ _ _ _ I1) as [Hq (n & Hn & Ep) _ _ _ Ids _ _ _].
    pose proof (holds_producer _ _ Hq) as Et. cbn in Et. cbn in Ef.
    apply Permutation_length in Ids. rewrite !length_app, length_fmap, !length_app, length_indices in Ids.
    assert (zlen Q = 0) by (unfold zlen in *; lia). rewrite Ep, Et. f_equal. lia.
Qed.

(** C26. Every request is accounted for exactly once, in every sequence of calls and for every
    behaviour of the kernel.  Each slot of the request table is empty and free, or holds a
    buffer and is named by exactly one entry: in the submission ring from the kernel's head to the
    program's tail, with the kernel, or in the completion ring from the program's head to the
    kernel's tail; a submission entry asks for what its slot holds, and a completion is within its
    request.  A [progress] without an error has published all that was pushed.  Of the frames accepted
    for sending, those completed, failed and pending add up, in the wrapping counters of 64 bits;
    the reads do not exceed those submitted, as long as the program has observed the kernel less than
    2^64 times, and with the packets not yet fetched stay within the RX budget.  Every frame of the
    pool is free, with a request, ready, or in the application's hands, in exactly one place; and
    every further [recv] and [send] returns. *)
Theorem uring_exactly_once ring id name mtu opened cfg assigned d0 d app :
  kernel_ok kernel -> (forall s, ring = Ok s -> fresh_rings s) -> 0 <= uc_rx_depth cfg ->
  uring_new ring id name mtu opened cfg = Ok (assigned, d0) -> rtc uring_step (d0, []) (d, app) ->
  (exists pushed completed, waiting d = Ok pushed /\ answers d = Ok completed
     /\ ud_free d ++ (sqe_user_data <$> pushed ++ sh_flight (ud_shared d)) ++ (cqe_user_data <$> completed)
        ≡ₚ indices (zlen (sh_pending (ud_shared d)))
     /\ Forall (fun i => sh_pending (ud_shared d) !! Z.to_nat i = Some None) (ud_free d)
     /\ Forall (request_ok (sh_pending (ud_shared d))) (pushed ++ sh_flight (ud_shared d))
     /\ Forall (answer_ok (sh_pending (ud_shared d))) completed)
  /\ (forall d', uring_progress kernel enter_errno d = Ok (None, d') -> rg_producer (sh_sq (ud_shared d')) = sq_tail d')
  /\ st_tx_submitted (ud_stats d) = (st_tx_completed (ud_stats d) + tx_errors (ud_stats d) + tx_pending d) mod W64
  /\ (Z.of_nat (ud_turn d) < W64 -> st_rx_completed (ud_stats d) + rx_errors (ud_stats d) + rx_pending d <= st_rx_submitted (ud_stats d))
  /\ rx_pending d + zlen (ud_ready d) <= uc_rx_depth (ud_cfg d)
  /\ take (Z.to_nat (free_count (ud_pool d))) (free_list (ud_pool d))
       ++ owned (bufs (sh_pending (ud_shared d))) ++ owned (ud_ready d) ++ owned app
     ≡ₚ indices (num_frames (ud_pool d))
  /\ (forall max out rest, app ≡ₚ out ++ rest -> 0 <= max -> returns (uring_recv kernel enter_errno max (d, out)).1)
  /\ (forall frames rest, app ≡ₚ frames ++ rest -> returns (uring_send kernel enter_errno (d, frames)).1).
Proof.
  intros Hk Hr Hd E St. destruct (uring_new_inv _ _ _ _ _ _ _ _ Hr Hd E) as (I0 & _ & _).
  destruct (session_steps _ _ Hk St) as [I F]; [split; [exact I0|constructor]|]. cbn [fst snd] in *.
  pose proof I as [(Q & C & IQ) Bk]. pose proof Bk as [B1 (n & c & e & E1 & E2 & E3 & B2)].
  rename I into U. rename IQ into I.
  assert (0 <= rx_pending d) as Hrx.
  { rewrite (ci_rx _ _ _ _ _ _ _ _ _ _ _ _ _ I). unfold count_of. pose_zlen. lia. }
  refine (conj _ (conj _ (conj B1 (conj _ (conj _ (conj _ (conj _ _))))))).
  - exists Q, C. split; [by eapply waiting_spec|]. split; [by eapply answers_spec|].
    pose proof (ci_ring _ _ _ _ _ _ _ _ _ _ _ _ _ I) as []. done.
  - intros d' Ep. by eapply progress_publishes.
  - intros Ht. rewrite E1, E2, E3, !Z.mod_small by lia. lia.
  - apply (ci_depth _ _ _ _ _ _ _ _ _ _ _ _ _ I).
  - apply (inv_part _ _ (ci_pool _ _ _ _ _ _ _ _ _ _ _ _ _ I)).
  - intros max out rest Ea Hm. rewrite Ea, Forall_app in F. destruct F as [F _].
    destruct (uring_recv_spec kernel enter_errno Hk d (owned rest) max out) as (r & d' & o & -> & Rt & _); [|done|done|exact Rt].
    eapply uinv_perm; [by rewrite <- owned_app, <- Ea|]. exact U.
  - intros frames rest Ea. rewrite Ea, Forall_app in F. destruct F as [F _].
    destruct (uring_send_spec kernel enter_errno Hk d (owned rest) frames) as (r & d' & o & -> & _ & _ & H); [|done|by destruct r].
    eapply uinv_perm; [by rewrite <- owned_app, <- Ea|]. exact U.
Qed.
End Sessions.

(** ** Teardown *)
Lemma cancel_all_total cancel fuel k :
  (exists j, (j < fuel)%nat /\ cancel (k + j)%nat <> Some EINTR) -> exists e, ring_cancel_all cancel fuel k = Ok e.
Proof.
  revert k. induction fuel as [|fuel IH]; intros k (j & Hj & N); [lia|]. cbn [ring_cancel_all].
  destruct (cancel k) as [errno|] eqn:E; [|eauto]. destruct (errno =? ENOENT) eqn:E0; [eauto|]. bools.
  destruct (bool_decide _) eqn:E1; [|eauto]. apply bool_decide_eq_true in E1.
  assert (errno = EINTR) as ->.
  { unfold errno_kind in E1. destruct (errno =? EINTR) eqn:E2; bools; [done|]. exfalso. revert E1. by repeat case_match. }
  apply IH. destruct j as [|j]; [by rewrite Nat.add_0_r in N|]. exists j. split; [lia|]. by rewrite Nat.add_succ_r in N.
Qed.
Lemma drops_pool bs d held :
  pool_inv (ud_pool d) (owned bs ++ held) -> Forall bytes_ok (arena (ud_pool d)) -> Forall (ud_handle d) bs ->
  exists d', ud_drops bs d = Ok d' /\ pool_inv (ud_pool d') held.
Proof.
  revert d. induction bs as [|b bs IH]; intros d I B F; [by exists d|]. apply Forall_cons in F as [Hb F].
  rewrite owned_cons, <- app_assoc in I. cbn [ud_drops]. unfold ud_drop.
  destruct (drop_handle_spec _ b _ I B Hb) as (p & -> & Ip & Bp & E1 & E2). cbn [obind].
  apply (IH (d <| ud_pool := p |>)); [done|done|]. eapply Forall_impl; [exact F|]. intros c. unfold ud_handle. cbn. by rewrite E1, E2.
Qed.
(** C27. Dropping the device never lets kernel-owned memory be reused: when the cancellation of the
    outstanding requests fails, their frames stay allocated in the surviving pool for ever; when
    it succeeds, exactly the frames that the application still holds stay allocated.  Interrupted
    cancellations are retried. *)
Theorem uring_teardown_safe cancel fuel d held :
  uinv d [] held -> (exists j, (j < fuel)%nat /\ cancel j <> Some EINTR) ->
  exists e p, ring_cancel_all cancel fuel 0 = Ok e /\ uring_teardown cancel fuel d = Ok p
    /\ pool_inv p (match e with Some _ => owned (bufs (sh_pending (ud_shared d))) | None => [] end ++ held).
Proof.
  intros [(Q & C & I) B] Hc. destruct (cancel_all_total cancel fuel 0 Hc) as [e Ee]. unfold uring_teardown. rewrite Ee. cbn [obind].
  pose proof I as [_ P Y F G _ _ _ _].
  destruct (drops_pool (match e with Some _ => [] | None => bufs (sh_pending (ud_shared d)) end ++ ud_ready d) d
    (match e with Some _ => owned (bufs (sh_pending (ud_shared d))) | None => [] end ++ held)) as (d' & -> & Ip); [|done| |].
  - eapply pool_inv_proper; [|exact P]. rewrite owned_app. destruct e; [change (owned []) with (@nil Z)|]; perm.
  - apply Forall_app. split; [by destruct e|done].
  - cbn [obind]. by exists e, (ud_pool d').
Qed.

(** ** A kernel that serves requests as they come *)
(** Takes the oldest submission; a read gets a packet of two bytes if it has room for them, a
    write is taken whole. *)
Definition take1 s : UringShared :=
  if rg_consumer (sh_sq s) =? rg_producer (sh_sq s) then s
  else match read_desc (sh_sq s) (rg_consumer (sh_sq s)) with
       | Ok sqe => s <| sh_sq ::= fun r => r <| rg_consumer := u32 (rg_consumer r + 1) |> |>
                     <| sh_flight ::= fun f => f ++ [sqe] |>
       | _ => s
       end.
Definition serve1 s : UringShared :=
  match sh_flight s with
  | [] => s
  | sqe :: g =>
      if ring_count (sh_cq s) <? rg_entries (sh_cq s) then
        let data := if sqe_opcode sqe =? READ then if sqe_len sqe <? 2 then [] else [69; 7]
                    else replicate (Z.to_nat (sqe_len sqe)) 0 in
        if zlen data <=? sqe_len sqe then
          s <| sh_cq ::= fun r => (publish r (rg_producer r) [mkCqe (sqe_user_data sqe) (zlen data) 0]).1 |>
            <| sh_flight := g |>
            <| sh_pending ::= if sqe_opcode sqe =? READ then store_data sqe data else id |>
        else s
      else s
  end.
Definition kernel1 (k : nat) (enter : bool) s : UringShared := if enter then serve1 (take1 (take1 s)) else s.
Lemma take1_ok s : rtc (kernel_step true) s (take1 s).
Proof.
  unfold take1. destruct (_ =? _) eqn:E; [done|]. bools. destruct (read_desc _ _) as [q| | |] eqn:Eq; try done. apply rtc_once. by constructor.
Qed.
Lemma serve1_ok enter s : rtc (kernel_step enter) s (serve1 s).
Proof.
  unfold serve1. destruct (sh_flight s) as [|q g] eqn:Ef; [done|]. destruct (_ <? _) eqn:Ec; [|done]. bools. cbv zeta.
  destruct (_ <=? _) eqn:El; [|done]. bools. apply rtc_once. eapply (ks_complete enter s [] g q); try done.
  repeat case_match; [constructor|by repeat constructor|apply bytes_zeros].
Qed.
Lemma kernel1_ok : kernel_ok kernel1.
Proof. intros k [] s; [|done]. cbn. etrans; [apply take1_ok|]. etrans; [apply take1_ok|]. apply serve1_ok. Qed.
Definition no_errno (k : nat) (n : Z) : option Z := None.
Definition ring_of {A} (x : A) : Ring A := mkRing 0 0 None (replicate 4 x) 4.
Definition rings1 : UringShared := mkShared (ring_of (mkSqe 0 0 0 0 0 0)) (ring_of (mkCqe 0 0 0)) [] [].
Lemma ring_of_empty {A} (x : A) : holds (ring_of x) [].
Proof. constructor; [constructor; [by exists 2|done|done|done]|done|done|done]. Qed.
Lemma rings1_fresh r s : r = Ok rings1 -> r = Ok s -> fresh_rings s.
Proof. intros -> [= <-]. constructor; try apply ring_of_empty; done. Qed.
Definition cfg1 : UringConfig := mkUringConfig 4 2.
Lemma uring1 : exists d, uring_new (Ok rings1) 5 [116; 117; 110; 48] 1500 (fun _ => Ok [116; 117; 110; 48]) cfg1 = Ok ([116; 117; 110; 48], d).
Proof.
  destruct (tun_new_ok 5 [116; 117; 110; 48] 1500 (fun _ => Ok [116; 117; 110; 48]) [116; 117; 110; 48]) as (t & E & En); [done..|].
  unfold uring_new. rewrite E. cbn [obind c_str]. change (uring_validate cfg1) with (Ok tt). cbn [obind].
  unfold uring_from_tun, uring_from_parts. change (uring_validate cfg1) with (Ok tt). cbn [obind]. rewrite En. cbn [obind].
  eexists. reflexivity.
Qed.
Lemma uring_refines_device_witness :
  exists d (L : @DeviceLaws UringTunDevice (uring_device kernel1 no_errno)),
    uring_new (Ok rings1) 5 [116; 117; 110; 48] 1500 (fun _ => Ok [116; 117; 110; 48]) cfg1 = Ok ([116; 117; 110; 48], d)
    /\ @dev_inv _ _ L d [] /\ @dev_frame_size _ (uring_device kernel1 no_errno) d = 2048.
Proof.
  destruct uring1 as [d E].
  destruct (uring_refines_device kernel1 no_errno (Ok rings1) 5 [116; 117; 110; 48] 1500 (fun _ => Ok [116; 117; 110; 48]) cfg1 [116; 117; 110; 48] d kernel1_ok)
    as (L & I & _ & Ef & _); [intros s; by apply rings1_fresh|by cbn|exact E|].
  exists d, L. split; [exact E|]. split; [exact I|exact Ef].
Defined.
Lemma uring_exactly_once_witness :
  exists d out, rx_pending d + zlen (ud_ready d) <= uc_rx_depth (ud_cfg d) /\ zlen out <= 2
    /\ returns (uring_send kernel1 no_errno (d, out)).1.
Proof.
  destruct uring1 as [d0 E].
  assert (0 <= uc_rx_depth cfg1) as Hd0 by done.
  destruct (uring_new_inv _ _ _ _ _ _ _ _ (fun s => rings1_fresh _ s eq_refl) Hd0 E) as (I0 & _ & _).
  destruct (uring_recv_spec kernel1 no_errno kernel1_ok d0 [] 2 [] I0 ltac:(lia) ltac:(done)) as (r & d & out & Er & _ & _ & _ & _ & L & _).
  destruct (uring_exactly_once kernel1 no_errno (Ok rings1) 5 [116; 117; 110; 48] 1500 (fun _ => Ok [116; 117; 110; 48]) cfg1 [116; 117; 110; 48] d0 d (out ++ [])
    kernel1_ok) as (_ & _ & _ & _ & Hd & _ & _ & Hs); [intros s; by apply rings1_fresh|by cbn|exact E| |].
  - apply rtc_once. eapply (us_recv kernel1 no_errno 2 [] []); [lia|done|exact Er].
  - exists d, out. split; [exact Hd|]. split; [exact L|]. apply (Hs out []). done.
Defined.
(** One read outstanding and a packet with the application: the cancellation is interrupted
    once, then fails. *)
Definition parts1 : outcome UringTunDevice := uring_from_parts (Ok rings1) (build 5 32 4 (replicate 4 (replicate 32 0))) cfg1.
Definition cancel1 (k : nat) : option Z := match k with 0%nat => Some EINTR | _ => Some 110 end.
Lemma uring_teardown_safe_witness :
  exists d d' b p, parts1 = Ok d /\ uring_recv kernel1 no_errno 1 (d, []) = (Ok 1, (d', [b])) /\ as_slice b = [69; 7]
    /\ uring_teardown cancel1 2 d' = Ok p /\ pool_inv p [1; 0].
Proof.
  assert (exists d, parts1 = Ok d) as [d E] by (eexists; reflexivity).
  assert (uinv d [] []) as I.
  { eapply (uring_parts_inv (Ok rings1) (build 5 32 4 (replicate 4 (replicate 32 0))) cfg1); [| | | | |exact E].
    - intros s. by apply rings1_fresh.
    - apply build_inv; [lia|lia|done|]. by apply Forall_replicate.
    - apply (Forall_replicate bytes_ok 4), (bytes_zeros 32).
    - done.
    - by cbn. }
  destruct (uring_recv_spec kernel1 no_errno kernel1_ok d [] 1 [] I ltac:(lia) ltac:(done)) as (r & d' & out & Er & _ & _ & I' & _).
  destruct (uring_teardown_safe cancel1 2 d' _ I') as (e & p & Ec & Et & Ip); [by exists 1%nat; split; [lia|]|].
  injection E as <-. exists (match parts1 with Ok d => d | _ => d' end), d'.
  assert (exists d0 b0, uring_recv kernel1 no_errno 1 (match parts1 with Ok d => d | _ => d' end, []) = (Ok 1, (d0, [b0]))
    /\ as_slice b0 = [69; 7] /\ owned [b0] = [0] /\ owned (bufs (sh_pending (ud_shared d0))) = [1]) as (d0 & b0 & E0 & A0 & O0 & U0).
  { eexists _, _. split; [vm_compute; reflexivity|]. split_and!; vm_compute; reflexivity. }
  pose proof (eq_trans (eq_sym Er) E0) as Eq. injection Eq as -> -> ->.
  injection Ec as <-. exists b0, p. split; [done|]. split; [exact E0|]. split; [exact A0|]. split; [exact Et|].
  cbv iota in Ip. by rewrite U0, O0 in Ip.
Defined.
