(* ===== verification/Simulation.v ===== *)
(** * The simulated fabric ([src/simulation.rs], [src/simulation/access_point.rs])

    [Network] is a shared cell: its [SimState] and the frame pools, which handles refer to from
    anywhere, are one [Fabric].  A pool is an address in [pools]; a packet that travels keeps
    its frame, so the frames of a port's pool are found in the queues of other ports, with
    applications, or in another device altogether.  [SimDevice] and [AccessPoint] name the cell
    they belong to and, for a device, its port. *)
From Stdlib Require Import ZArith Lia Bool.
From stdpp Require Import base numbers option list gmap.
From S2P Require Import Prelude BufferPool Device Addr.
#[local] Open Scope Z_scope.

Record Link : Type := mkLink {
  lk_delay : Z; alternating_delay : Z; drop_every : Z; partitioned : bool; lk_mtu : Z
}.
Definition link_default : Link := mkLink 0 0 0 false 0.
Record FabricStats : Type := mkFabricStats {
  fs_delivered : Z; fault_drops : Z; queue_drops : Z; unroutable : Z; fs_backpressure : Z; disconnected_drops : Z
}.
#[export] Instance eta_FabricStats : Eta FabricStats := fun s =>
  mkFabricStats (fs_delivered s) (fault_drops s) (queue_drops s) (unroutable s) (fs_backpressure s) (disconnected_drops s).
Record InFlight : Type := mkInFlight { pe_at : Z; pe_source : nat; pe_frame : PacketBuf }.
Record SimPort : Type := mkSimPort {
  pt_pool : Z; pt_queue : list InFlight; pt_capacity : Z; pt_active : bool; online : bool
}.
#[export] Instance eta_SimPort : Eta SimPort := fun p =>
  mkSimPort (pt_pool p) (pt_queue p) (pt_capacity p) (pt_active p) (online p).
Record SimState : Type := mkSimState {
  ss_now : Z;
  ss_ports : list SimPort;
  ss_routes : gmap Z nat;
  ss_links : gmap (nat * nat) (Link * Z);
  ss_stats : FabricStats
}.
#[export] Instance eta_SimState : Eta SimState := fun s =>
  mkSimState (ss_now s) (ss_ports s) (ss_routes s) (ss_links s) (ss_stats s).
Definition state_default : SimState := mkSimState 0 [] ∅ ∅ (mkFabricStats 0 0 0 0 0 0).
Abbreviation Pools := (gmap Z PoolInner).
Record Fabric : Type := mkFabric { pools : Pools; net : SimState }.
#[export] Instance eta_Fabric : Eta Fabric := fun f => mkFabric (pools f) (net f).
Record SimDevice : Type := mkSimDevice { sd_network : Z; sd_id : nat }.
Implicit Types f : Fabric.

(** ** Frames *)
(** [Drop for PacketBuf]: a handle keeps its pool alive. *)
Definition pools_drop (b : PacketBuf) (h : Pools) : outcome Pools :=
  match buf_pool b with
  | None => Ok h
  | Some id => match h !! id with Some p => let* p := drop_packet p b in Ok (<[id := p]> h) | None => Panic end
  end.
Fixpoint drop_frames (bs : list PacketBuf) (h : Pools) : outcome Pools :=
  match bs with
  | [] => Ok h
  | b :: bs => let* h := pools_drop b h in drop_frames bs h
  end.
(** [pool.packet_buf(pool.alloc()?, 0)] on the pool of a port. *)
Definition pools_alloc (id : Z) (h : Pools) : outcome (option PacketBuf * Pools) :=
  match h !! id with
  | None => Panic
  | Some p => let* '(b, p) := alloc_packet p in Ok (b, <[id := p]> h)
  end.

(** ** Ports *)
Definition port_at (id : nat) f : outcome SimPort :=
  match ss_ports (net f) !! id with Some p => Ok p | None => Panic end.
Definition put_port (id : nat) (p : SimPort) f : Fabric :=
  f <| net ::= fun s => s <| ss_ports ::= <[id := p]> |> |>.
Definition fstat (g : FabricStats -> FabricStats) f : Fabric := f <| net ::= fun s => s <| ss_stats ::= g |> |>.

(** [State::disconnect]: the frames to and from the port are purged. *)
Definition stays (id target : nat) (p : InFlight) : bool :=
  negb (bool_decide (target = id)) && negb (bool_decide (pe_source p = id)).
Definition purge (id target : nat) (p : SimPort) : SimPort :=
  p <| pt_queue ::= filter (fun x => stays id target x = true) |>.
Definition purged (id target : nat) (p : SimPort) : list PacketBuf :=
  pe_frame <$> filter (fun x => stays id target x <> true) (pt_queue p).
Definition disconnect (id : nat) f : outcome Fabric :=
  let* p := port_at id f in
  let ports := <[id := p <| online := false |>]> (ss_ports (net f)) in
  let gone := concat (imap (purged id) ports) in
  let* h := drop_frames gone (pools f) in
  Ok (fstat (fun s => s <| disconnected_drops ::= count (zlen gone) |>)
        (mkFabric h (net f <| ss_ports := imap (purge id) ports |>))).

(** [Network::port]; [pool] is the address of the new frame pool. *)
Definition bad_address f (a : Z) : bool :=
  is_unspecified a || is_broadcast a || is_multicast a || bool_decide (is_Some (ss_routes (net f) !! a)).
Definition network_port (self : Z) (addresses : list Z) (frames queue pool : Z) f : outcome (SimDevice * Fabric) :=
  if (frames =? 0) || (queue =? 0) || bool_decide (addresses = []) || existsb (bad_address f) addresses
  then Err InvalidInput
  else
    let id := length (ss_ports (net f)) in
    let* p := pool_new pool frames 2048 in
    Ok (mkSimDevice self id,
        mkFabric (<[pool := p]> (pools f))
          (net f <| ss_ports ::= fun l => l ++ [mkSimPort pool [] queue true true] |>
                 <| ss_routes ::= fun m => foldl (fun m a => <[a := id]> m) m addresses |>)).
Definition set_link (self : Z) (from to : SimDevice) (link : Link) f : outcome Fabric :=
  if negb (self =? sd_network from) || negb (self =? sd_network to) then Err InvalidInput
  else Ok (f <| net ::= fun s => s <| ss_links ::= <[(sd_id from, sd_id to) := (link, 0)]> |> |>).
Definition network_advance (elapsed : Z) f : outcome Fabric :=
  let now := ss_now (net f) + elapsed in
  if DURATION_MAX <? now then Err InvalidInput else Ok (f <| net ::= fun s => s <| ss_now := now |> |>).
Definition is_online (d : SimDevice) f : outcome bool := let* p := port_at (sd_id d) f in Ok (online p).
Definition sim_queued (d : SimDevice) f : outcome Z := let* p := port_at (sd_id d) f in Ok (zlen (pt_queue p)).
(** [Drop for SimDevice] *)
Definition sim_device_drop (d : SimDevice) f : outcome Fabric :=
  let* f := disconnect (sd_id d) f in
  let* p := port_at (sd_id d) f in
  Ok (put_port (sd_id d) (p <| pt_active := false |>) f
        <| net ::= fun s => s <| ss_routes ::= filter (fun r => r.2 <> sd_id d) |> |>).

(** ** Receiving *)
(** The stable [sort_by_key]: an element goes before the later ones with the same key. *)
Fixpoint insert_by (x : InFlight) (l : list InFlight) : list InFlight :=
  match l with
  | [] => [x]
  | y :: l => if pe_at x <=? pe_at y then x :: y :: l else y :: insert_by x l
  end.
Definition sort_by_at (l : list InFlight) : list InFlight := foldr insert_by [] l.
(** [.take(max).take_while(|p| p.at <= now).count()] *)
Fixpoint ready (max : nat) (now : Z) (l : list InFlight) : nat :=
  match max, l with
  | S max, x :: l => if pe_at x <=? now then S (ready max now l) else O
  | _, _ => O
  end.
Definition sim_recv (id : nat) (max : Z) : ST (Fabric * list PacketBuf) Z := fun '(f, out) =>
  match
    (let* h := drop_frames out (pools f) in
     let f := f <| pools := h |> in
     let* p := port_at id f in
     let queue := sort_by_at (pt_queue p) in
     let n := ready (Z.to_nat max) (ss_now (net f)) queue in
     Ok (Z.of_nat n,
         (fstat (fun s => s <| fs_delivered ::= count (Z.of_nat n) |>) (put_port id (p <| pt_queue := drop n queue |>) f),
          pe_frame <$> take n queue)))
  with
  | Ok (n, s) => (Ok n, s)
  | r => (recast r, (f, out))
  end.

(** ** Sending *)
(** [links.entry(..).or_default()] with its sequence number advanced. *)
Definition next_sequence (from to : nat) f : Link * Z * Fabric :=
  let '(link, sequence) := default (link_default, 0) (ss_links (net f) !! (from, to)) in
  let sequence := (sequence + 1) mod W64 in
  (link, sequence, f <| net ::= fun s => s <| ss_links ::= <[(from, to) := (link, sequence)]> |> |>).
Definition faulty_link (link : Link) (sequence len : Z) : bool :=
  partitioned link || (negb (lk_mtu link =? 0) && (lk_mtu link <? len))
  || (negb (drop_every link =? 0) && (sequence mod drop_every link =? 0)).
Definition arrival (link : Link) (sequence now : Z) : Z :=
  dur_add now (dur_add (lk_delay link) (if sequence mod 2 =? 0 then alternating_delay link else 0)).
(** A copy of a broadcast into the queue of one port. *)
Definition copy_to (id target : nat) (at_ : Z) (packet : list Z) f : outcome Fabric :=
  let* p := port_at target f in
  if zlen (pt_queue p) =? pt_capacity p then Ok (fstat (fun s => s <| queue_drops ::= count 1 |>) f)
  else
    let* '(b, h) := pools_alloc (pt_pool p) (pools f) in
    match b with
    | None => Ok (fstat (fun s => s <| queue_drops ::= count 1 |>) (f <| pools := h |>))
    | Some b =>
        let* b := set_headroom b 0 in
        let* b := set_len b (zlen packet) in
        Ok (put_port target (p <| pt_queue ::= fun q => q ++ [mkInFlight at_ id (store_packet b packet)] |>)
              (f <| pools := h |>))
    end.
Definition skipped (id target : nat) (p : SimPort) : bool :=
  bool_decide (target = id) || negb (pt_active p) || negb (online p).
(** The loop over the targets of one packet. *)
Fixpoint fan_out (id : nat) (broadcast : bool) (packet : list Z) (targets : list nat)
    (delivery : option (nat * Z)) f : outcome (option (nat * Z) * Fabric) :=
  match targets with
  | [] => Ok (delivery, f)
  | target :: targets =>
      let* p := port_at target f in
      if broadcast && skipped id target p then fan_out id broadcast packet targets delivery f
      else
        let '(link, sequence, f) := next_sequence id target f in
        if faulty_link link sequence (zlen packet)
        then fan_out id broadcast packet targets delivery (fstat (fun s => s <| fault_drops ::= count 1 |>) f)
        else
          let at_ := arrival link sequence (ss_now (net f)) in
          if broadcast then
            let* f := copy_to id target at_ packet f in
            fan_out id broadcast packet targets delivery f
          else fan_out id broadcast packet targets (Some (target, at_)) f
  end.
(** The rest of the body of the send loop: whether the packet was taken. *)
Definition forward (id : nat) (broadcast : bool) (route : option nat) (b : PacketBuf) f : outcome (bool * Fabric) :=
  let targets := if broadcast then seq 0 (length (ss_ports (net f))) else option_list route in
  let* '(delivery, f) := fan_out id broadcast (as_slice b) targets None f in
  match delivery with
  | Some (target, at_) =>
      let* p := port_at target f in
      Ok (true, put_port target (p <| pt_queue ::= fun q => q ++ [mkInFlight at_ id b] |>) f)
  | None => let* h := pools_drop b (pools f) in Ok (true, f <| pools := h |>)
  end.
Definition send_one (id : nat) (b : PacketBuf) f : outcome (bool * Fabric) :=
  let* destination := read32 (as_slice b) 16 in
  let broadcast := is_broadcast destination in
  match ss_routes (net f) !! destination with
  | Some to =>
      if broadcast then forward id broadcast (Some to) b f
      else
        let* p := port_at to f in
        if negb (online p) then
          let* h := pools_drop b (pools f) in
          Ok (true, fstat (fun s => s <| disconnected_drops ::= count 1 |>) (f <| pools := h |>))
        else if zlen (pt_queue p) =? pt_capacity p
        then Ok (false, fstat (fun s => s <| fs_backpressure ::= count 1 |>) f)
        else forward id broadcast (Some to) b f
  | None =>
      forward id broadcast None b (if broadcast then f else fstat (fun s => s <| unroutable ::= count 1 |>) f)
  end.
Definition fabric_packet (packet : list Z) : bool :=
  negb ((zlen packet <? 20) || negb (Z.shiftr (nth 0 packet 0) 4 =? 4) || (2048 <? zlen packet)).
Fixpoint send_each (id : nat) (frames : list PacketBuf) (accepted : Z) f : outcome Z * (Fabric * list PacketBuf) :=
  match frames with
  | [] => (Ok accepted, (f, []))
  | b :: rest =>
      if negb (fabric_packet (as_slice b))
      then (if negb (accepted =? 0) then Ok accepted else Err InvalidInput, (f, frames))
      else
        match send_one id b f with
        | Ok (true, f) =>
            let '(r, (f, rest)) := send_each id rest (accepted + 1) f in (r, (f, packet_default :: rest))
        | Ok (false, f) => (Ok accepted, (f, frames))
        | r => (recast r, (f, frames))
        end
  end.
Definition sim_send (id : nat) : ST (Fabric * list PacketBuf) Z := fun '(f, frames) =>
  if bool_decide (frames = []) then (Ok 0, (f, frames))
  else
    match port_at id f with
    | Ok p => if negb (online p) then (Err NotConnected, (f, frames)) else send_each id frames 0 f
    | r => (recast r, (f, frames))
    end.
Definition sim_alloc (id : nat) : ST Fabric (option PacketBuf) := fun f =>
  match (let* p := port_at id f in pools_alloc (pt_pool p) (pools f)) with
  | Ok (b, h) => (Ok b, f <| pools := h |>)
  | r => (recast r, f)
  end.
Definition sim_drop (b : PacketBuf) : ST Fabric unit := fun f =>
  match pools_drop b (pools f) with
  | Ok h => (Ok tt, f <| pools := h |>)
  | r => (recast r, f)
  end.
Definition sim_device (id : nat) : Device Fabric := {|
  dev_poll_at := fun _ f => (Ok tt, f);
  dev_recv := sim_recv id;
  dev_send := sim_send id;
  dev_alloc := sim_alloc id;
  dev_drop := sim_drop;
  dev_frame_size := fun _ => 2048
|}.

(** ** The access point *)
Record AccessPoint : Type := mkAccessPoint { ap_network : Z; running : bool }.
#[export] Instance eta_AccessPoint : Eta AccessPoint := fun a => mkAccessPoint (ap_network a) (running a).
Definition ap_port (a : AccessPoint) (addresses : list Z) (frames queue pool : Z) f : outcome (SimDevice * Fabric) :=
  let* '(d, f) := network_port (ap_network a) addresses frames queue pool f in
  let* p := port_at (sd_id d) f in
  Ok (d, put_port (sd_id d) (p <| online := false |>) f).
Definition ap_start (a : AccessPoint) : AccessPoint := a <| running := true |>.
Definition ap_stop (a : AccessPoint) f : outcome (AccessPoint * Fabric) :=
  let gone := concat ((fun p => pe_frame <$> pt_queue p) <$> ss_ports (net f)) in
  let* h := drop_frames gone (pools f) in
  Ok (a <| running := false |>,
      fstat (fun s => s <| disconnected_drops ::= count (zlen gone) |>)
        (mkFabric h (net f <| ss_ports ::= fmap (fun p => p <| online := false |> <| pt_queue := [] |>) |>))).
Definition ap_check (a : AccessPoint) (d : SimDevice) : outcome unit :=
  if negb (ap_network a =? sd_network d) then Err InvalidInput else Ok tt.
Definition associate (a : AccessPoint) (d : SimDevice) f : outcome Fabric :=
  let* _ := ap_check a d in
  if negb (running a) then Err NotConnected
  else let* p := port_at (sd_id d) f in Ok (put_port (sd_id d) (p <| online := true |>) f).
Definition disassociate (a : AccessPoint) (d : SimDevice) f : outcome Fabric :=
  let* _ := ap_check a d in disconnect (sd_id d) f.
Definition ap_set_link (a : AccessPoint) : SimDevice -> SimDevice -> Link -> Fabric -> outcome Fabric := set_link (ap_network a).
(** [Drop for AccessPoint] *)
Definition ap_drop (a : AccessPoint) f : outcome Fabric := let* '(a, f) := ap_stop a f in Ok f.
