(* ===== verification/SimInv.v ===== *)
(** * Ownership, bounds and isolation in the simulated fabric

    [pools_ok h bs]: the handles [bs], wherever they are, are exactly the frames that the pools
    [h] have handed out.  [fabric_inv] adds the bounds of the queues and the isolation of
    endpoints that are offline. *)
From Stdlib Require Import ZArith Lia Bool.
From stdpp Require Import base numbers option list gmap sorting.
From S2P Require Import Prelude BufferPool Device Addr Simulation.
#[local] Open Scope Z_scope.
Implicit Types (h : Pools) (f : Fabric) (bs : list PacketBuf).

(** ** The pools *)
Definition frames_of (id : Z) bs : list Z :=
  bs ≫= fun b => if decide (buf_pool b = Some id) then [buf_idx b] else [].
Lemma frames_of_app id bs cs : frames_of id (bs ++ cs) = frames_of id bs ++ frames_of id cs.
Proof. apply bind_app. Qed.
#[export] Instance frames_of_perm id : Proper ((≡ₚ) ==> (≡ₚ)) (frames_of id).
Proof. intros bs cs E. unfold frames_of. by rewrite E. Qed.
Definition view h (b : PacketBuf) : Prop :=
  buf_wf b /\ bytes_ok (buf_mem b) /\
  match buf_pool b with Some id => exists p, h !! id = Some p /\ capacity b = frame_size p | None => True end.
Record pools_ok h bs : Prop := {
  po_pool id p : h !! id = Some p -> pool_id p = id /\ pool_inv p (frames_of id bs) /\ Forall bytes_ok (arena p);
  po_bufs : Forall (view h) bs
}.
#[export] Instance pools_ok_perm : Proper ((=) ==> (≡ₚ) ==> iff) pools_ok.
Proof.
  intros h _ <- bs cs E. split; intros [P F]; constructor.
  - intros id p Hp. destruct (P id p Hp) as (? & ? & ?). by rewrite <- E.
  - by rewrite <- E.
  - intros id p Hp. destruct (P id p Hp) as (? & ? & ?). by rewrite E.
  - by rewrite E.
Qed.
(** No operation changes the geometry of a pool. *)
Definition geometry h h' : Prop := forall id, frame_size <$> h' !! id = frame_size <$> h !! id.
#[export] Instance geometry_pre : PreOrder geometry.
Proof. split; [done|]. intros a b c H1 H2 id. by rewrite H2, H1. Qed.
Lemma view_geometry h h' b : geometry h h' -> view h b -> view h' b.
Proof.
  intros G (W & B & P). split; [done|]. split; [done|]. destruct (buf_pool b) as [id|]; [|done]. destruct P as (p & Hp & Hc).
  specialize (G id). rewrite Hp in G. cbn in G. apply fmap_Some in G as (p' & Hp' & E). exists p'. split; [done|congruence].
Qed.
Lemma geometry_insert h id p p' : h !! id = Some p -> frame_size p' = frame_size p -> geometry h (<[id := p']> h).
Proof.
  intros E Ef j. destruct (decide (j = id)) as [-> |N]; [|by rewrite lookup_insert_ne].
  rewrite lookup_insert_eq, E. cbn. by rewrite Ef.
Qed.
Lemma view_default h : view h packet_default.
Proof. destruct (handle_default 0 0) as (W & B & _). done. Qed.
Lemma pools_ok_none h b bs : buf_pool b = None -> pools_ok h (b :: bs) -> pools_ok h bs.
Proof.
  intros E [P F]. constructor; [|by apply Forall_cons in F as [_ F]]. intros id p Hp. destruct (P id p Hp) as (? & I & ?).
  cbn in I. rewrite E, decide_False in I by done. done.
Qed.
Lemma pools_ok_default h bs : pools_ok h bs -> pools_ok h (packet_default :: bs).
Proof. intros [P F]. constructor; [exact P|]. constructor; [apply view_default|done]. Qed.
(** One pool changes, with the handles that belong to it. *)
Lemma pools_ok_insert h id p p' bs bs' :
  h !! id = Some p -> pool_id p' = id -> frame_size p' = frame_size p -> pool_inv p' (frames_of id bs') ->
  Forall bytes_ok (arena p') -> (forall j, j <> id -> frames_of j bs' = frames_of j bs) -> Forall (view h) bs' ->
  pools_ok h bs -> pools_ok (<[id := p']> h) bs'.
Proof.
  intros Ep Ei Ef I B N F [P _]. constructor.
  - intros j q. destruct (decide (j = id)) as [-> |Nj].
    + rewrite lookup_insert_eq. intros [= <-]. done.
    + rewrite lookup_insert_ne, (N j Nj) by done. apply P.
  - eapply Forall_impl; [exact F|]. intros b. apply view_geometry. by eapply geometry_insert.
Qed.
Lemma pools_drop_spec h b bs :
  pools_ok h (b :: bs) -> exists h', pools_drop b h = Ok h' /\ pools_ok h' bs /\ geometry h h'.
Proof.
  intros O. pose proof O as [P F]. apply Forall_cons in F as [(W & B & V) F]. unfold pools_drop.
  destruct (buf_pool b) as [id|] eqn:E; [|exists h; split; [done|]; split; [by eapply pools_ok_none|done]].
  destruct V as (p & Hp & Hc). rewrite Hp. destruct (P id p Hp) as (Ei & I & Ba).
  cbn in I. rewrite E, decide_True in I by done. rewrite <- Ei in E.
  destruct (drop_packet_spec p _ (frames_of id bs) b I E Hc) as (p' & -> & I' & _ & Ei' & Ef & Ea); [done|]. cbn [obind].
  eexists. split; [done|]. split; [|by eapply geometry_insert].
  eapply (pools_ok_insert h id p p' (b :: bs)); try done; [congruence|rewrite Ea; by apply Forall_insert|].
  intros j Nj. cbn. rewrite E, Ei, decide_False by congruence. done.
Qed.
Lemma drop_frames_spec gone h bs :
  pools_ok h (gone ++ bs) -> exists h', drop_frames gone h = Ok h' /\ pools_ok h' bs /\ geometry h h'.
Proof.
  revert h. induction gone as [|b gone IH]; intros h O; cbn [drop_frames app] in *; [by exists h|].
  destruct (pools_drop_spec h b _ O) as (h1 & -> & O1 & G1). cbn [obind]. destruct (IH h1 O1) as (h2 & -> & O2 & G2).
  exists h2. split; [done|]. split; [done|]. by transitivity h1.
Qed.
Lemma pools_alloc_spec id h p bs :
  pools_ok h bs -> h !! id = Some p ->
  exists r h', pools_alloc id h = Ok (r, h') /\ geometry h h'
    /\ match r with
       | None => pools_ok h' bs
       | Some b => pools_ok h' (b :: bs) /\ buf_pool b = Some id /\ capacity b = frame_size p /\ buf_len b = 0
       end.
Proof.
  intros O Hp. unfold pools_alloc. rewrite Hp. destruct (po_pool _ _ O id p Hp) as (Ei & I & B).
  destruct (alloc_packet_spec p _ I) as [[-> _]|(b & p' & -> & I' & Sf & (L0 & Ep & Hc & Ho & Hm))]; cbn [obind].
  - eexists None, _. split; [done|]. rewrite insert_id by done. done.
  - destruct Sf as (S4 & S2 & S3 & S1). eexists (Some b), _. split; [done|]. split; [by eapply geometry_insert|].
    rewrite Ei in Ep. split; [|done]. eapply (pools_ok_insert h id p p' bs); try done; [congruence| |by rewrite S4| |].
    + cbn. by rewrite Ep, decide_True.
    + intros j Nj. cbn. by rewrite Ep, decide_False by congruence.
    + constructor; [|apply O]. rewrite Forall_forall in B. split; [|split; [by apply B|rewrite Ep; eauto]].
      unfold buf_wf. rewrite L0, Hc. lia.
Qed.

(** ** The ports *)
Definition queued (ports : list SimPort) : list PacketBuf := concat ((fun p => pe_frame <$> pt_queue p) <$> ports).
Arguments queued : simpl never.
Lemma queued_app ps qs : queued (ps ++ qs) = queued ps ++ queued qs.
Proof. unfold queued. by rewrite fmap_app, concat_app. Qed.
Lemma queued_at ports id p :
  ports !! id = Some p -> exists rest, queued ports ≡ₚ (pe_frame <$> pt_queue p) ++ rest
    /\ forall p', queued (<[id := p']> ports) ≡ₚ (pe_frame <$> pt_queue p') ++ rest.
Proof.
  intros E. exists (queued (take id ports) ++ queued (drop (S id) ports)).
  pose proof (lookup_lt_Some _ _ _ E). split.
  - rewrite <- (take_drop_middle _ _ _ E) at 1. rewrite queued_app. change (queued (p :: ?l)) with ((pe_frame <$> pt_queue p) ++ queued l).
    perm.
  - intros p'. rewrite insert_take_drop by done. rewrite queued_app.
    change (queued (p' :: drop (S id) ports)) with ((pe_frame <$> pt_queue p') ++ queued (drop (S id) ports)). perm.
Qed.
Record port_ok h (p : SimPort) : Prop := {
  pk_pool : exists q, h !! pt_pool p = Some q /\ frame_size q = 2048;
  pk_bound : zlen (pt_queue p) <= pt_capacity p;
  pk_active : pt_active p = false -> online p = false;
  pk_online : online p = false -> pt_queue p = []
}.
Lemma port_ok_geometry h h' p : geometry h h' -> port_ok h p -> port_ok h' p.
Proof.
  intros G []. constructor; try done. destruct pk_pool0 as (q & Eq & Ef). specialize (G (pt_pool p)). rewrite Eq in G.
  cbn in G. apply fmap_Some in G as (q' & Eq' & E). exists q'. split; [done|congruence].
Qed.
(** The sender of a packet in flight is online. *)
Definition from_online (ports : list SimPort) (x : InFlight) : Prop :=
  exists q, ports !! pe_source x = Some q /\ online q = true.
Definition link_ok (l : Link) : Prop :=
  0 <= lk_delay l <= DURATION_MAX /\ 0 <= alternating_delay l <= DURATION_MAX /\ 0 <= drop_every l /\ 0 <= lk_mtu l.
Record fabric_inv f (held : list PacketBuf) : Prop := {
  fi_pools : pools_ok (pools f) (queued (ss_ports (net f)) ++ held);
  fi_ports : Forall (port_ok (pools f)) (ss_ports (net f));
  fi_sources : Forall (fun p => Forall (from_online (ss_ports (net f))) (pt_queue p)) (ss_ports (net f));
  fi_routes : map_Forall (fun _ i => exists q, ss_ports (net f) !! i = Some q /\ pt_active q = true) (ss_routes (net f));
  fi_links : map_Forall (fun _ l => link_ok l.1) (ss_links (net f));
  fi_now : 0 <= ss_now (net f) <= DURATION_MAX
}.
Lemma fabric_inv_perm f bs cs : bs ≡ₚ cs -> fabric_inv f bs -> fabric_inv f cs.
Proof. intros E []. constructor; try done. by rewrite <- E. Qed.
Lemma fstat_inv g f held : fabric_inv f held -> fabric_inv (fstat g f) held.
Proof. intros []. by constructor. Qed.
(** The pools change under unchanged ports. *)
Lemma pools_inv f h held held' :
  fabric_inv f held -> geometry (pools f) h -> pools_ok h (queued (ss_ports (net f)) ++ held') -> fabric_inv (f <| pools := h |>) held'.
Proof.
  intros [] G O. constructor; try done. eapply Forall_impl; [exact fi_ports0|]. intros p. by apply port_ok_geometry.
Qed.
(** What a port keeps while packets come and go. *)
Definition same_port (p p' : SimPort) : Prop :=
  pt_pool p' = pt_pool p /\ pt_capacity p' = pt_capacity p /\ pt_active p' = pt_active p /\ online p' = online p.
#[export] Instance same_port_pre : PreOrder same_port.
Proof. unfold same_port. split; [done|]. intros p q r. intuition congruence. Qed.
Lemma same_ports_lookup ports ports' i p :
  Forall2 same_port ports ports' -> ports !! i = Some p -> exists p', ports' !! i = Some p' /\ same_port p p'.
Proof. intros F E. destruct (Forall2_lookup_l _ _ _ _ _ F E) as (p' & ? & ?). eauto. Qed.
Lemma same_ports_insert ports id p p' : ports !! id = Some p -> same_port p p' -> Forall2 same_port ports (<[id := p']> ports).
Proof.
  intros E S. apply Forall2_same_length_lookup. rewrite length_insert. split; [done|]. intros i q q' Hq Hq'.
  destruct (decide (i = id)) as [-> |N].
  - rewrite list_lookup_insert_eq in Hq' by (by eapply lookup_lt_Some). congruence.
  - rewrite list_lookup_insert_ne in Hq' by done. assert (q = q') as -> by congruence. done.
Qed.
Lemma from_online_same ports ports' x : Forall2 same_port ports ports' -> from_online ports x -> from_online ports' x.
Proof.
  intros F (q & E & O). destruct (same_ports_lookup _ _ _ _ F E) as (q' & E' & (_ & _ & _ & O')). exists q'. split; [done|congruence].
Qed.
Lemma put_port_inv f id p p' h held held' :
  fabric_inv f held -> ss_ports (net f) !! id = Some p -> same_port p p' -> geometry (pools f) h ->
  pools_ok h (queued (<[id := p']> (ss_ports (net f))) ++ held') -> zlen (pt_queue p') <= pt_capacity p ->
  (online p = false -> pt_queue p' = []) -> Forall (from_online (ss_ports (net f))) (pt_queue p') ->
  fabric_inv (put_port id p' (f <| pools := h |>)) held'.
Proof.
  intros [] E Sp G O Hb Ho Hs. pose proof (same_ports_insert _ _ _ _ E Sp) as F2. unfold put_port. constructor; cbn; try done.
  - apply Forall_insert; [eapply Forall_impl; [exact fi_ports0|]; intros q; by apply port_ok_geometry|].
    pose proof (proj1 (Forall_lookup _ _) fi_ports0 _ _ E) as K. apply (port_ok_geometry _ _ _ G) in K. destruct K, Sp as (S1 & S2 & S3 & S4).
    constructor; rewrite ?S1, ?S2, ?S3, ?S4; done.
  - assert (forall q, Forall (from_online (ss_ports (net f))) q -> Forall (from_online (<[id := p']> (ss_ports (net f)))) q) as X.
    { intros q Fq. eapply Forall_impl; [exact Fq|]. intros x. by apply from_online_same. }
    apply Forall_insert; [eapply Forall_impl; [exact fi_sources0|]; cbn; intros q; apply X|by apply X].
  - intros a i Hi. destruct (fi_routes0 a i Hi) as (q & Eq & Aq). destruct (same_ports_lookup _ _ _ _ F2 Eq) as (q' & Eq' & (_ & _ & A' & _)).
    exists q'. split; [done|congruence].
Qed.

(** ** Accounts *)
(** Every packet that entered the fabric is in a queue or counted once. *)
Definition tally f : Z :=
  let s := ss_stats (net f) in
  zlen (queued (ss_ports (net f))) + fs_delivered s + fault_drops s + queue_drops s + unroutable s + disconnected_drops s.
(** [k] more packets are accounted for; the counters wrap. *)
Definition tallies f f' (k : Z) : Prop := exists z, tally f' = tally f + k + z * W64.
Lemma count_wraps n x : exists z, count n x = x + n + z * W64.
Proof. exists (- ((x + n) / W64)). unfold count. pose proof (Z.div_mod (x + n) W64). unfold W64 in *. lia. Qed.
Lemma tallies_refl f : tallies f f 0.
Proof. exists 0. lia. Qed.
Lemma tallies_trans f g k i j : tallies f g i -> tallies g k j -> tallies f k (i + j).
Proof. intros [y E] [z E']. exists (y + z). lia. Qed.
Lemma tallies_mod f f' k : tallies f f' k -> tally f' mod W64 = (tally f + k) mod W64.
Proof. intros [z ->]. apply Z.mod_add. done. Qed.
(** What sending and receiving keep. *)
Record fstep f f' (k : Z) : Prop := {
  st_now : ss_now (net f') = ss_now (net f);
  st_routes : ss_routes (net f') = ss_routes (net f);
  st_ports : Forall2 same_port (ss_ports (net f)) (ss_ports (net f'));
  st_geometry : geometry (pools f) (pools f');
  st_tally : tallies f f' k
}.
Lemma fstep_refl f : fstep f f 0.
Proof. constructor; try done; apply tallies_refl. Qed.
Lemma fstep_trans f g k i j : fstep f g i -> fstep g k j -> fstep f k (i + j).
Proof.
  intros [] []. constructor; [congruence|congruence| | |by eapply tallies_trans]; by etransitivity.
Qed.
Lemma fstep_eq f g i j : i = j -> fstep f g i -> fstep f g j.
Proof. by intros ->. Qed.
(** A port gets a queue that is [n] longer. *)
Lemma put_port_step f id p p' h n :
  ss_ports (net f) !! id = Some p -> same_port p p' -> geometry (pools f) h -> zlen (pt_queue p') = zlen (pt_queue p) + n ->
  fstep f (put_port id p' (f <| pools := h |>)) n.
Proof.
  intros E Sp G L. constructor; try done; [by eapply same_ports_insert|]. exists 0. unfold tally, put_port. cbn.
  destruct (queued_at _ _ _ E) as (rest & E1 & E2). rewrite (E2 p'), E1, !zlen_app. unfold zlen in *. rewrite !length_fmap. lia.
Qed.

(** ** Receiving *)
Lemma insert_by_perm x l : insert_by x l ≡ₚ x :: l.
Proof.
  induction l as [|y l IH]; cbn; [done|]. destruct (_ <=? _); [done|]. rewrite IH. constructor.
Qed.
Lemma sort_perm l : sort_by_at l ≡ₚ l.
Proof. induction l as [|x l IH]; cbn; [done|]. by rewrite insert_by_perm, IH. Qed.
Definition earlier (x y : InFlight) : Prop := pe_at x <= pe_at y.
Lemma insert_by_sorted x l : StronglySorted earlier l -> StronglySorted earlier (insert_by x l).
Proof.
  induction 1 as [|y l Sl IH F]; cbn; [repeat constructor|]. destruct (_ <=? _) eqn:E; bools.
  - constructor; [by constructor|]. constructor; [done|]. eapply Forall_impl; [exact F|]. unfold earlier. intros; lia.
  - constructor; [done|]. rewrite insert_by_perm. constructor; [unfold earlier; lia|done].
Qed.
Lemma sort_sorted l : StronglySorted earlier (sort_by_at l).
Proof. induction l as [|x l IH]; cbn; [constructor|]. by apply insert_by_sorted. Qed.
(** Packets for the same instant keep their order. *)
Lemma insert_by_stable k x l :
  filter (fun y => pe_at y = k) (insert_by x l) = filter (fun y => pe_at y = k) (x :: l).
Proof.
  induction l as [|y l IH]; cbn [insert_by]; [done|]. destruct (_ <=? _) eqn:E; [done|]. bools. rewrite filter_cons, IH, !filter_cons.
  destruct (decide (pe_at y = k)), (decide (pe_at x = k)); try done. lia.
Qed.
Lemma sort_stable k l : filter (fun y => pe_at y = k) (sort_by_at l) = filter (fun y => pe_at y = k) l.
Proof. induction l as [|x l IH]; cbn [sort_by_at foldr]; [done|]. fold (sort_by_at l). by rewrite insert_by_stable, !filter_cons, IH. Qed.
Lemma ready_spec max now l :
  let n := ready max now l in
  (n <= max)%nat /\ (n <= length l)%nat /\ Forall (fun x => pe_at x <= now) (take n l)
  /\ ((n < max)%nat -> forall x, l !! n = Some x -> now < pe_at x).
Proof.
  revert l. induction max as [|max IH]; intros l; cbn [ready]; [cbn; split_and!; try lia; constructor|].
  destruct l as [|x l]; [cbn; split_and!; try lia; try done; constructor|].
  destruct (_ <=? _) eqn:E; bools; [|cbn; split_and!; [lia|lia|constructor|by intros _ y [= <-]]].
  destruct (IH l) as (H1 & H2 & H3 & H4). cbn. split_and!; [lia|lia|by constructor|]. intros Hn y Hy. apply H4; [lia|done].
Qed.
(** [recv] on a port: the packets that are due, in the order of their times, leave the queue. *)
Definition delivers (now max : Z) (before taken after : list InFlight) : Prop :=
  taken ++ after = sort_by_at before /\ zlen taken <= max /\ Forall (fun x => pe_at x <= now) taken
  /\ (zlen taken < max -> Forall (fun x => now < pe_at x) after).
Lemma sim_recv_spec id max f out held p :
  fabric_inv f (out ++ held) -> 0 <= max -> ss_ports (net f) !! id = Some p ->
  exists f' taken after, sim_recv id max (f, out) = (Ok (zlen taken), (f', pe_frame <$> taken))
    /\ fabric_inv f' ((pe_frame <$> taken) ++ held) /\ fstep f f' 0
    /\ ss_ports (net f') = <[id := p <| pt_queue := after |>]> (ss_ports (net f))
    /\ delivers (ss_now (net f)) max (pt_queue p) taken after.
Proof.
  intros I Hm E. unfold sim_recv. pose proof (fi_pools _ _ I) as O.
  destruct (drop_frames_spec out (pools f) (queued (ss_ports (net f)) ++ held)) as (h & -> & O1 & G1).
  { rewrite app_assoc, (Permutation_app_comm out). by rewrite <- app_assoc. }
  cbn [obind]. unfold port_at. cbn [net pools]. change (ss_ports (net (f <| pools := h |>))) with (ss_ports (net f)).
  rewrite E. cbn [obind]. change (ss_now (net (f <| pools := h |>))) with (ss_now (net f)).
  set (q := sort_by_at (pt_queue p)). set (n := ready _ _ q). destruct (ready_spec (Z.to_nat max) (ss_now (net f)) q) as (R1 & R2 & R3 & R4).
  fold n in R1, R2, R3, R4. assert (zlen (take n q) = Z.of_nat n) as Ln by (unfold zlen; rewrite length_take; lia).
  assert (take n q ++ drop n q ≡ₚ pt_queue p) as Pq by (rewrite take_drop; apply sort_perm).
  assert (zlen (pt_queue p) = zlen (take n q) + zlen (drop n q)) as Lq by (rewrite <- zlen_app, <- Pq; done).
  set (p' := p <| pt_queue := drop n q |>). exists (fstat (fun s => s <| fs_delivered ::= count (Z.of_nat n) |>) (put_port id p' (f <| pools := h |>))), (take n q), (drop n q).
  rewrite Ln. split; [done|]. split; [|split; [|split; [done|split; [apply take_drop|split; [lia|split; [done|]]]]]].
  - apply fstat_inv. pose proof (proj1 (Forall_lookup _ _) (fi_ports _ _ I) _ _ E) as K. pose proof (pk_bound _ _ K).
    pose proof (proj1 (Forall_lookup _ _) (fi_sources _ _ I) _ _ E) as Sr. cbn in Sr.
    eapply (put_port_inv f id p p' h (out ++ held)); try done; cbn.
    + destruct (queued_at _ _ _ E) as (rest & E1 & E2). rewrite (E2 p'). rewrite E1 in O1. cbn.
      rewrite <- Pq, fmap_app in O1. eapply pools_ok_perm; [done| |exact O1]. perm.
    + unfold zlen in *. lia.
    + intros Ho. pose proof (pk_online _ _ K Ho) as Eq. rewrite Eq in Pq. symmetry in Pq. apply Permutation_nil_l in Pq.
      symmetry in Pq. by apply app_eq_nil in Pq as [_ ->].
    + rewrite <- Pq, Forall_app in Sr. apply Sr.
  - destruct (put_port_step f id p p' h (- Z.of_nat n) E) as [? ? ? ? [z Ez]]; [done|done|cbn; lia|].
    constructor; try done. destruct (count_wraps (Z.of_nat n) (fs_delivered (ss_stats (net f)))) as [y Ey].
    exists (z + y). unfold tally in *. cbn in *. rewrite Ey. lia.
  - intros Hn. pose proof (sort_sorted (pt_queue p)) as Ss. fold q in Ss. apply Forall_forall. intros x Hx.
    destruct (drop n q) as [|y r] eqn:Ed; [by apply not_elem_of_nil in Hx|].
    assert (q !! n = Some y) as Hy by (rewrite <- (Nat.add_0_r n), <- lookup_drop, Ed; done).
    specialize (R4 ltac:(lia) y Hy). rewrite <- (take_drop n q), Ed in Ss. apply StronglySorted_app_1_r in Ss.
    apply elem_of_cons in Hx as [-> |Hx]; [done|]. apply StronglySorted_inv in Ss as [_ Fs]. rewrite Forall_forall in Fs.
    specialize (Fs x Hx). unfold earlier in Fs. lia.
Qed.

(** ** Sending *)
Lemma next_sequence_spec id to f held :
  fabric_inv f held ->
  let '(link, sequence, f') := next_sequence id to f in
  link_ok link /\ fabric_inv f' held /\ fstep f f' 0 /\ ss_ports (net f') = ss_ports (net f) /\ pools f' = pools f.
Proof.
  intros I. unfold next_sequence. set (cur := default (link_default, 0) (ss_links (net f) !! (id, to))).
  assert (link_ok cur.1) as Hl.
  { unfold cur. destruct (ss_links (net f) !! (id, to)) as [l|] eqn:El; [exact (fi_links _ _ I _ _ El)|].
    unfold link_ok, DURATION_MAX, U64MAX, SECOND. cbn. lia. }
  destruct cur as [link sequence]. split; [exact Hl|]. split; [|split; [|done]].
  - destruct I. constructor; try done. cbn. by apply map_Forall_insert_2.
  - constructor; try done. exists 0. unfold tally. cbn. lia.
Qed.
(** A counter goes up. *)
Lemma fstat_step f (g : FabricStats -> FabricStats) k :
  (forall s, exists z, fs_delivered (g s) + fault_drops (g s) + queue_drops (g s) + unroutable (g s) + disconnected_drops (g s)
      = fs_delivered s + fault_drops s + queue_drops s + unroutable s + disconnected_drops s + k + z * W64) ->
  fstep f (fstat g f) k.
Proof.
  intros H. constructor; try done. destruct (H (ss_stats (net f))) as [z E]. exists z. unfold tally, fstat. cbn. lia.
Qed.
Ltac counted := apply fstat_step; intros s; cbn;
  match goal with |- context [count ?n ?x] => destruct (count_wraps n x) as [z ->]; exists z; lia | _ => exists 0; lia end.
Lemma online_same f f' k id q : fstep f f' k -> ss_ports (net f) !! id = Some q -> online q = true ->
  exists q', ss_ports (net f') !! id = Some q' /\ online q' = true.
Proof. intros S E O. destruct (same_ports_lookup _ _ _ _ (st_ports _ _ _ S) E) as (q' & E' & (_ & _ & _ & O')). exists q'. split; [done|congruence]. Qed.
(** A packet enters the queue of a port. *)
Lemma flight_spec id target at_ b f held p q h :
  fabric_inv f held -> ss_ports (net f) !! id = Some q -> online q = true ->
  ss_ports (net f) !! target = Some p -> online p = true -> zlen (pt_queue p) < pt_capacity p ->
  geometry (pools f) h -> forall held', pools_ok h (b :: queued (ss_ports (net f)) ++ held') ->
  let f' := put_port target (p <| pt_queue ::= fun l => l ++ [mkInFlight at_ id b] |>) (f <| pools := h |>) in
  fabric_inv f' held' /\ fstep f f' 1.
Proof.
  intros I Eq Oq Ep Op Hc G held' O f'. subst f'. set (p' := p <| pt_queue ::= _ |>). split.
  - eapply (put_port_inv f target p p' h held); try done.
    + destruct (queued_at _ _ _ Ep) as (rest & E1 & E2). rewrite (E2 p'). rewrite E1 in O.
      subst p'. cbn [pt_queue]. eapply pools_ok_perm; [done| |exact O]. cbn. rewrite fmap_app. cbn. change (b :: ?l) with ([b] ++ l). perm.
    + subst p'. cbn. rewrite zlen_app. change (zlen [_]) with 1. lia.
    + intros Of. congruence.
    + subst p'. cbn. apply Forall_app. split; [exact (proj1 (Forall_lookup _ _) (fi_sources _ _ I) _ _ Ep)|].
      constructor; [|constructor]. exists q. done.
  - apply (put_port_step f target p p' h 1 Ep); [done|done|]. subst p'. cbn. rewrite zlen_app. done.
Qed.
Lemma copy_to_spec id target at_ packet f held p q :
  fabric_inv f held -> ss_ports (net f) !! id = Some q -> online q = true ->
  ss_ports (net f) !! target = Some p -> online p = true -> bytes_ok packet -> zlen packet <= 2048 ->
  exists f', copy_to id target at_ packet f = Ok f' /\ fabric_inv f' held /\ fstep f f' 1.
Proof.
  intros I Eq Oq Ep Op Hb Hl. unfold copy_to, port_at. rewrite Ep. cbn [obind].
  pose proof (proj1 (Forall_lookup _ _) (fi_ports _ _ I) _ _ Ep) as K. pose proof (pk_bound _ _ K).
  destruct (_ =? _) eqn:Ec; bools; [eexists; split; [done|]; split; [by apply fstat_inv|counted]|].
  destruct (pk_pool _ _ K) as (pl & Epl & Es).
  destruct (pools_alloc_spec (pt_pool p) (pools f) pl _ (fi_pools _ _ I) Epl) as (r & h & -> & G & R). cbn [obind].
  destruct r as [b|].
  2:{ eexists. split; [done|]. split; [apply fstat_inv; by eapply pools_inv|].
      apply (fstep_trans f (f <| pools := h |>) _ 0 1); [|counted]. constructor; try done. exists 0. unfold tally. cbn. lia. }
  destruct R as (O & Hp & Hc & L0). unfold set_headroom. rewrite Hc, Es, L0. cbn [Z.sub]. rewrite (proj2 (Z.leb_le _ _)) by lia. cbn [obind].
  set (b1 := b <| data_offset := 0 |>). assert (buf_wf b1) as W1 by (unfold buf_wf, b1, capacity in *; cbn; lia).
  destruct (set_len_spec b1 (zlen packet) W1) as [-> W2]; [unfold tail_capacity, b1, capacity in *; cbn; pose_zlen; lia|]. cbn [obind].
  set (b2 := b1 <| buf_len := zlen packet |>) in *. destruct (store_packet_spec b2 packet W2) as (W3 & _ & C3); [done|].
  eexists. split; [done|]. eapply flight_spec; try done; [lia|].
  pose proof (po_bufs _ _ O) as Fb. apply Forall_cons in Fb as [(_ & Bb & Vb) Fb]. rewrite Hp in Vb.
  constructor.
  - intros j pj Hj. destruct (po_pool _ _ O j pj Hj) as (? & Ij & ?). split; [done|]. split; [|done]. cbn in *. exact Ij.
  - constructor; [|done]. split; [done|]. split; [by apply store_packet_bytes|]. cbn [buf_pool store_packet]. 
    change (buf_pool (store_packet b2 packet)) with (buf_pool b). rewrite Hp, C3. exact Vb.
Qed.
(** The ports that hear a broadcast from [id]. *)
Definition hears (id : nat) (ports : list SimPort) (t : nat) : bool :=
  match ports !! t with Some p => negb (skipped id t p) | None => false end.
Lemma hears_same id ports ports' t : Forall2 same_port ports ports' -> hears id ports' t = hears id ports t.
Proof.
  intros F. unfold hears. destruct (ports !! t) as [p|] eqn:E.
  - destruct (same_ports_lookup _ _ _ _ F E) as (p' & -> & (_ & _ & A & O)). unfold skipped. by rewrite A, O.
  - apply lookup_ge_None in E. rewrite (Forall2_length _ _ _ F) in E. by rewrite (proj2 (lookup_ge_None _ _) E).
Qed.
Lemma fan_out_broadcast id packet targets d f held q :
  fabric_inv f held -> ss_ports (net f) !! id = Some q -> online q = true -> bytes_ok packet -> zlen packet <= 2048 ->
  Forall (fun t => (t < length (ss_ports (net f)))%nat) targets ->
  exists f', fan_out id true packet targets d f = Ok (d, f') /\ fabric_inv f' held
    /\ fstep f f' (zlen (filter (fun t => hears id (ss_ports (net f)) t = true) targets)).
Proof.
  intros I Eq Oq Hb Hl Ft. revert f q I Eq Oq Ft.
  induction targets as [|t targets IH]; intros f q I Eq Oq Ft; cbn [fan_out]; [exists f; split; [done|]; split; [done|apply fstep_refl]|].
  apply Forall_cons in Ft as [Ht Ft]. destruct (lookup_lt_is_Some_2 _ _ Ht) as [p Ep]. unfold port_at at 1. rewrite Ep. cbn [obind andb].
  assert (hears id (ss_ports (net f)) t = negb (skipped id t p)) as Eh by (unfold hears; by rewrite Ep).
  rewrite filter_cons. destruct (skipped id t p) eqn:Es; cbn [negb] in Eh.
  { rewrite decide_False by congruence. by eapply IH. }
  rewrite decide_True by done. rewrite zlen_cons. assert (online p = true) as Op.
  { unfold skipped in Es. rewrite !orb_false_iff, !negb_false_iff in Es. apply Es. }
  pose proof (next_sequence_spec id t f held I) as N. destruct (next_sequence id t f) as [[link sequence] f1]. destruct N as (_ & I1 & S1 & P1 & _).
  assert (exists f2, (if faulty_link link sequence (zlen packet) then fan_out id true packet targets d (fstat (fun s => s <| fault_drops ::= count 1 |>) f1)
     else let* f := copy_to id t (arrival link sequence (ss_now (net f1))) packet f1 in fan_out id true packet targets d f)
     = fan_out id true packet targets d f2 /\ fabric_inv f2 held /\ fstep f1 f2 1) as (f2 & -> & I2 & S2).
  { destruct (faulty_link _ _ _).
    - eexists. split; [done|]. split; [by apply fstat_inv|counted].
    - destruct (copy_to_spec id t (arrival link sequence (ss_now (net f1))) packet f1 held p q) as (f2 & -> & I2 & S2); rewrite ?P1; try done.
      exists f2. done. }
  pose proof (fstep_trans _ _ _ _ _ S1 S2) as S3. destruct (online_same _ _ _ _ _ S3 Eq Oq) as (q2 & Eq2 & Oq2).
  destruct (IH f2 q2 I2 Eq2 Oq2) as (f3 & -> & I3 & S4).
  { eapply Forall_impl; [exact Ft|]. cbn. intros t' Ht'. by rewrite <- (Forall2_length _ _ _ (st_ports _ _ _ S3)). }
  exists f3. split; [done|]. split; [done|]. eapply fstep_eq; [|exact (fstep_trans _ _ _ _ _ S3 S4)].
  assert (filter (fun t => hears id (ss_ports (net f2)) t = true) targets = filter (fun t => hears id (ss_ports (net f)) t = true) targets) as ->;
    [|lia]. apply list_filter_iff. intros t'. by rewrite (hears_same _ _ _ _ (st_ports _ _ _ S3)).
Qed.
Lemma fabric_packet_size packet : fabric_packet packet = true -> 20 <= zlen packet <= 2048.
Proof. unfold fabric_packet. rewrite negb_true_iff, !orb_false_iff. intros [[E1 _] E2]. bools. lia. Qed.
(** How many packets one packet from [id] is to the fabric: one per port that hears it. *)
Definition audience (id : nat) (ports : list SimPort) (b : PacketBuf) : Z :=
  match read32 (as_slice b) 16 with
  | Ok d => if is_broadcast d then zlen (filter (fun t => hears id ports t = true) (seq 0 (length ports))) else 1
  | _ => 0
  end.
Lemma audience_same id ports ports' b : Forall2 same_port ports ports' -> audience id ports' b = audience id ports b.
Proof.
  intros F. unfold audience. destruct (read32 _ _); try done. destruct (is_broadcast _); [|done]. f_equal.
  rewrite (Forall2_length _ _ _ F). apply list_filter_iff. intros t. by rewrite (hears_same _ _ _ _ F).
Qed.
Lemma drop_held f b held :
  fabric_inv f (b :: held) -> exists h, pools_drop b (pools f) = Ok h /\ fabric_inv (f <| pools := h |>) held /\ fstep f (f <| pools := h |>) 0.
Proof.
  intros I. destruct (pools_drop_spec (pools f) b (queued (ss_ports (net f)) ++ held)) as (h & -> & O & G).
  { eapply pools_ok_perm; [done| |exact (fi_pools _ _ I)]. change (b :: ?l) with ([b] ++ l). perm. }
  exists h. split; [done|]. split; [by eapply pools_inv|]. constructor; try done. exists 0. unfold tally. cbn. lia.
Qed.
Lemma enqueue_held id target at_ b f held p q :
  fabric_inv f (b :: held) -> ss_ports (net f) !! id = Some q -> online q = true ->
  ss_ports (net f) !! target = Some p -> online p = true -> zlen (pt_queue p) < pt_capacity p ->
  let f' := put_port target (p <| pt_queue ::= fun l => l ++ [mkInFlight at_ id b] |>) f in fabric_inv f' held /\ fstep f f' 1.
Proof.
  intros I Eq Oq Ep Op Hc. destruct f as [h s]. eapply (flight_spec id target at_ b (mkFabric h s)); try done.
  eapply pools_ok_perm; [done| |exact (fi_pools _ _ I)]. change (b :: ?l) with ([b] ++ l). perm.
Qed.
Lemma forward_spec id d b f held q :
  fabric_inv f (b :: held) -> ss_ports (net f) !! id = Some q -> online q = true -> fabric_packet (as_slice b) = true ->
  read32 (as_slice b) 16 = Ok d -> forall route,
  (if is_broadcast d then True else forall to, route = Some to -> exists p, ss_ports (net f) !! to = Some p /\ online p = true /\ zlen (pt_queue p) < pt_capacity p) ->
  exists f', forward id (is_broadcast d) route b f = Ok (true, f') /\ fabric_inv f' held
    /\ fstep f f' (if is_broadcast d then audience id (ss_ports (net f)) b else zlen (option_list route)).
Proof.
  intros I Eq Oq Hp Hd route Hr. pose proof (fabric_packet_size _ Hp) as Hs. unfold forward, audience. rewrite Hd.
  assert (bytes_ok (as_slice b)) as Bb.
  { pose proof (po_bufs _ _ (fi_pools _ _ I)) as Fb. apply Forall_app in Fb as [_ Fb]. apply Forall_cons in Fb as [(_ & Bm & _) _].
    unfold as_slice. eauto with net. }
  destruct (is_broadcast d).
  - destruct (fan_out_broadcast id (as_slice b) (seq 0 (length (ss_ports (net f)))) None f (b :: held) q) as (f1 & -> & I1 & S1); try done; [lia| |].
    { apply Forall_seq. intros; lia. }
    cbn [obind]. destruct (drop_held f1 b held I1) as (h & -> & I2 & S2). cbn [obind]. eexists. split; [done|]. split; [done|].
    eapply fstep_eq; [|exact (fstep_trans _ _ _ _ _ S1 S2)]. lia.
  - destruct route as [to|]; [change (option_list (Some to)) with [to]|change (option_list (@None nat)) with (@nil nat)]; cbn [fan_out].
    2:{ cbn [obind]. destruct (drop_held f b held I) as (h & -> & I2 & S2). cbn [obind]. eexists. done. }
    destruct (Hr to eq_refl) as (p & Ep & Op & Hc). unfold port_at at 1. rewrite Ep. cbn [obind andb].
    pose proof (next_sequence_spec id to f _ I) as N. destruct (next_sequence id to f) as [[link sequence] f1]. destruct N as (_ & I1 & S1 & P1 & _).
    destruct (faulty_link _ _ _); cbn [obind].
    + destruct (drop_held (fstat (fun s => s <| fault_drops ::= count 1 |>) f1) b held) as (h & -> & I2 & S2); [by apply fstat_inv|]. cbn [obind].
      eexists. split; [done|]. split; [done|]. eapply (fstep_trans f f1 _ 0 1); [done|]. eapply (fstep_trans _ _ _ 1 0); [|exact S2]. counted.
    + unfold port_at. rewrite P1, Ep. cbn [obind]. eexists. split; [done|].
      destruct (enqueue_held id to (arrival link sequence (ss_now (net f1))) b f1 held p q) as [I2 S2]; rewrite ?P1; try done.
      split; [done|]. exact (fstep_trans _ _ _ 0 1 S1 S2).
Qed.
Lemma sim_send_one_spec id b f held q :
  fabric_inv f (b :: held) -> ss_ports (net f) !! id = Some q -> online q = true -> fabric_packet (as_slice b) = true ->
  exists taken f', send_one id b f = Ok (taken, f')
    /\ (if taken : bool then fabric_inv f' held /\ fstep f f' (audience id (ss_ports (net f)) b)
        else fabric_inv f' (b :: held) /\ fstep f f' 0 /\ ss_ports (net f') = ss_ports (net f)).
Proof.
  intros I Eq Oq Hp. pose proof (fabric_packet_size _ Hp) as Hs. unfold send_one.
  pose proof (read32_ok (as_slice b) 16 ltac:(lia) ltac:(lia)) as Hd. set (d := de32 _ _ _ _) in Hd. rewrite Hd. cbn [obind].
  destruct (ss_routes (net f) !! d) as [to|] eqn:Er.
  - destruct (is_broadcast d) eqn:Eb.
    { destruct (forward_spec id d b f held q I Eq Oq Hp Hd (Some to)) as (f' & E & X); [by rewrite Eb|]. rewrite Eb in *. by exists true, f'. }
    destruct (fi_routes _ _ I _ _ Er) as (p & Ep & _). unfold port_at. rewrite Ep. cbn [obind].
    assert (audience id (ss_ports (net f)) b = 1) as Ea by (unfold audience; by rewrite Hd, Eb).
    destruct (online p) eqn:Op; cbn [negb].
    2:{ destruct (drop_held f b held I) as (h & -> & I2 & S2). cbn [obind]. eexists true, _. split; [done|]. split; [by apply fstat_inv|].
        rewrite Ea. apply (fstep_trans _ _ _ 0 1 S2). counted. }
    pose proof (pk_bound _ _ (proj1 (Forall_lookup _ _) (fi_ports _ _ I) _ _ Ep)) as Hbd.
    destruct (_ =? _) eqn:Ec; bools.
    + eexists false, _. split; [done|]. split; [by apply fstat_inv|]. split; [counted|done].
    + destruct (forward_spec id d b f held q I Eq Oq Hp Hd (Some to)) as (f' & E & X).
      { rewrite Eb. intros ? [= <-]. exists p. split; [done|]. split; [done|lia]. }
      rewrite Eb in *. exists true, f'. by rewrite Ea.
  - set (f1 := if is_broadcast d then f else _).
    assert (fabric_inv f1 (b :: held) /\ ss_ports (net f1) = ss_ports (net f) /\ fstep f f1 (if is_broadcast d then 0 else 1)) as (I1 & P1 & S1).
    { unfold f1. destruct (is_broadcast d); [split; [done|]; split; [done|apply fstep_refl]|]. split; [by apply fstat_inv|]. split; [done|counted]. }
    destruct (forward_spec id d b f1 held q I1 ltac:(by rewrite P1) Oq Hp Hd None) as (f' & E & I' & S').
    { by destruct (is_broadcast d). }
    exists true, f'. split; [done|]. split; [done|]. eapply fstep_eq; [|exact (fstep_trans _ _ _ _ _ S1 S')]. rewrite P1.
    unfold audience. rewrite Hd. change (zlen (option_list None)) with 0. destruct (is_broadcast d); lia.
Qed.
Definition audiences (id : nat) (ports : list SimPort) bs : Z := foldr (fun b z => audience id ports b + z) 0 bs.
Lemma audiences_same id ports ports' bs : Forall2 same_port ports ports' -> audiences id ports' bs = audiences id ports bs.
Proof. intros F. induction bs as [|b bs IH]; cbn [audiences foldr]; [done|]. fold (audiences id ports bs) (audiences id ports' bs).
  by rewrite IH, (audience_same _ _ _ _ F). Qed.
(** The first [n] frames were taken. *)
Definition took (n : nat) (frames frames' : list PacketBuf) : Prop :=
  frames' = replicate n packet_default ++ drop n frames /\ (n <= length frames)%nat
  /\ Forall (fun b => fabric_packet (as_slice b) = true) (take n frames).
Lemma send_each_spec id frames accepted f held q :
  fabric_inv f (frames ++ held) -> ss_ports (net f) !! id = Some q -> online q = true -> 0 <= accepted ->
  exists r f' frames' n, send_each id frames accepted f = (r, (f', frames')) /\ fabric_inv f' (frames' ++ held)
    /\ took n frames frames' /\ fstep f f' (audiences id (ss_ports (net f)) (take n frames))
    /\ match r with
       | Ok k => k = accepted + Z.of_nat n
       | Err e => e = InvalidInput /\ n = O /\ f' = f /\ accepted = 0
                  /\ exists b, head frames = Some b /\ fabric_packet (as_slice b) = false
       | _ => False
       end.
Proof.
  revert accepted f q. induction frames as [|b rest IH]; intros accepted f q I Eq Oq Ha; cbn [send_each].
  { eexists _, f, [], O. split; [done|]. split; [done|]. split; [done|]. split; [apply fstep_refl|lia]. }
  destruct (fabric_packet (as_slice b)) eqn:Hp; cbn [negb].
  2:{ eexists _, f, _, O. split; [done|]. split; [done|]. split; [split; [done|split; [cbn; lia|constructor]]|]. split; [apply fstep_refl|].
      destruct (accepted =? 0) eqn:E; bools; cbn [negb]; [|lia]. split_and!; try done. by exists b. }
  destruct (sim_send_one_spec id b f (rest ++ held) q I Eq Oq Hp) as (taken & f1 & -> & X). destruct taken.
  2:{ destruct X as (I1 & S1 & _). eexists _, f1, _, O. split; [done|]. split; [done|]. split; [split; [done|split; [cbn; lia|constructor]]|].
      split; [done|lia]. }
  destruct X as (I1 & S1). destruct (online_same _ _ _ _ _ S1 Eq Oq) as (q1 & Eq1 & Oq1).
  destruct (IH (accepted + 1) f1 q1 I1 Eq1 Oq1 ltac:(lia)) as (r & f2 & rest' & n & -> & I2 & (T1 & T2 & T3) & S2 & R).
  eexists _, f2, _, (S n). split; [done|]. split; [|split; [split; [by rewrite T1|split; [cbn; lia|by constructor]]|split]].
  - destruct I2. constructor; try done. eapply pools_ok_perm; [done| |apply pools_ok_default; eassumption].
    change (packet_default :: ?l) with ([packet_default] ++ l). perm.
  - eapply fstep_eq; [|exact (fstep_trans _ _ _ _ _ S1 S2)]. cbn [take audiences foldr]. by rewrite (audiences_same _ _ _ _ (st_ports _ _ _ S1)).
  - destruct r; try done; [lia|]. destruct R as (-> & _ & _ & R & _). lia.
Qed.
