(* ===== verification/SimProps.v ===== *)
(** * The simulated fabric: properties

    Every operation of the network, its devices and the access point against the invariant;
    sessions of any calls; delivery and isolation. *)
From Stdlib Require Import ZArith Lia Bool.
From stdpp Require Import base numbers option list gmap sorting relations.
From S2P Require Import Prelude BufferPool Device Addr Simulation SimInv.
#[local] Open Scope Z_scope.
Implicit Types (h : Pools) (f : Fabric) (bs : list PacketBuf).

(** ** Disconnecting *)
Lemma purge_split (keep : nat -> InFlight -> bool) ports :
  queued (imap (fun t p => p <| pt_queue ::= filter (fun x => keep t x = true) |>) ports)
    ++ concat (imap (fun t p => pe_frame <$> filter (fun x => keep t x <> true) (pt_queue p)) ports) ≡ₚ queued ports.
Proof.
  revert keep. induction ports as [|p ports IH]; intros keep; [done|]. rewrite !imap_cons. cbn [concat].
  change (queued (p :: ports)) with ((pe_frame <$> pt_queue p) ++ queued ports). rewrite <- (IH (fun t => keep (S t))).
  change (queued (?q :: ?l)) with ((pe_frame <$> pt_queue q) ++ queued l). cbn [pt_queue].
  assert (pe_frame <$> pt_queue p ≡ₚ (pe_frame <$> filter (fun x => keep O x = true) (pt_queue p))
    ++ (pe_frame <$> filter (fun x => keep O x <> true) (pt_queue p))) as ->
    by (rewrite <- fmap_app; by rewrite filter_app_complement).
  unfold compose. cbn. perm.
Qed.
Lemma stays_self id q : filter (fun x => stays id id x = true) q = [].
Proof. apply elem_of_nil_inv. intros x [Hx _]%list_elem_of_filter. unfold stays in Hx. by rewrite bool_decide_true in Hx. Qed.
Lemma purge_lookup id ports t p :
  imap (purge id) ports !! t = Some p -> exists p0, ports !! t = Some p0 /\ p = purge id t p0.
Proof. rewrite list_lookup_imap. intros (p0 & E & ->)%fmap_Some. eauto. Qed.
Lemma filter_zlen {A} (P : A -> Prop) `{forall x, Decision (P x)} (l : list A) : zlen (filter P l) <= zlen l.
Proof. unfold zlen. pose proof (length_filter P l). lia. Qed.
(** Nothing is in flight to or from a port. *)
Definition isolated f (id : nat) : Prop :=
  (forall p, ss_ports (net f) !! id = Some p -> pt_queue p = [])
  /\ (forall t p x, ss_ports (net f) !! t = Some p -> x ∈ pt_queue p -> pe_source x <> id).
Lemma disconnect_spec id f held p :
  fabric_inv f held -> ss_ports (net f) !! id = Some p ->
  exists f', disconnect id f = Ok f' /\ fabric_inv f' held /\ tallies f f' 0 /\ isolated f' id
    /\ ss_ports (net f') !! id = Some (p <| online := false |> <| pt_queue := [] |>)
    /\ ss_routes (net f') = ss_routes (net f) /\ geometry (pools f) (pools f').
Proof.
  intros I E. unfold disconnect, port_at. rewrite E. cbn [obind]. set (ports := <[id := p <| online := false |>]> (ss_ports (net f))).
  pose proof (lookup_lt_Some _ _ _ E) as Hid. pose proof (purge_split (stays id) ports) as Ps.
  assert (queued ports ≡ₚ queued (ss_ports (net f))) as Eq.
  { destruct (queued_at _ _ _ E) as (rest & -> & E2). unfold ports. by rewrite E2. }
  destruct (drop_frames_spec (concat (imap (purged id) ports)) (pools f) (queued (imap (purge id) ports) ++ held)) as (h & -> & O & G).
  { eapply pools_ok_perm; [done| |exact (fi_pools _ _ I)]. rewrite <- Eq, <- Ps. unfold purged, purge. perm. }
  cbn [obind]. eexists. split; [done|].
  assert (forall t p', imap (purge id) ports !! t = Some p' -> exists p0, ss_ports (net f) !! t = Some p0
    /\ p' = purge id t (if decide (t = id) then p0 <| online := false |> else p0)) as Lk.
  { intros t p' (p0 & E0 & ->)%purge_lookup. unfold ports in E0. destruct (decide (t = id)) as [-> |N].
    - rewrite list_lookup_insert_eq in E0 by done. injection E0 as <-. eauto.
    - rewrite list_lookup_insert_ne in E0 by done. eauto. }
  assert (forall t p' x, imap (purge id) ports !! t = Some p' -> x ∈ pt_queue p' -> t <> id /\ pe_source x <> id) as Gone.
  { intros t p' x (p0 & E0 & ->)%Lk Hx. unfold purge in Hx. cbn in Hx. apply list_elem_of_filter in Hx as [Hx _].
    unfold stays in Hx. apply andb_true_iff in Hx as [H1 H2]. rewrite negb_true_iff in H1, H2. split; [by apply bool_decide_eq_false in H1|by apply bool_decide_eq_false in H2]. }
  assert (imap (purge id) ports !! id = Some (p <| online := false |> <| pt_queue := [] |>)) as Eid.
  { rewrite list_lookup_imap. unfold ports. rewrite list_lookup_insert_eq by done. cbn. unfold purge. f_equal. cbn.
    by rewrite stays_self. }
  split; [apply fstat_inv; constructor; cbn|split; [|split; [split|split; [exact Eid|done]]]].
  - exact O.
  - apply Forall_lookup. intros t p' Ht. destruct (Lk t p' Ht) as (p0 & E0 & ->).
    pose proof (port_ok_geometry _ _ _ G (proj1 (Forall_lookup _ _) (fi_ports _ _ I) _ _ E0)) as [K1 K2 K3 K4].
    pose proof (filter_zlen (fun x => stays id t x = true) (pt_queue p0)) as Hz.
    destruct (decide (t = id)) as [-> |N]; constructor; cbn; try done; try lia.
    + intros _. apply stays_self.
    + intros Ho. by rewrite (K4 Ho).
  - apply Forall_lookup. intros t p' Ht. apply Forall_forall. intros x Hx. destruct (Gone t p' x Ht Hx) as [N1 N2].
    destruct (Lk t p' Ht) as (p0 & E0 & ->). unfold purge in Hx. cbn in Hx. apply list_elem_of_filter in Hx as [_ Hx].
    rewrite decide_False in Hx by done. pose proof (proj1 (Forall_lookup _ _) (fi_sources _ _ I) _ _ E0) as Sr. cbn in Sr.
    rewrite Forall_forall in Sr. destruct (Sr x Hx) as (q & Eqq & Oq). exists (purge id (pe_source x) q).
    split; [|done]. rewrite list_lookup_imap. unfold ports. by rewrite list_lookup_insert_ne, Eqq by done.
  - intros a i Hi. destruct (fi_routes _ _ I a i Hi) as (q & Eqq & Aq). rewrite list_lookup_imap. unfold ports.
    destruct (decide (i = id)) as [-> |N].
    + rewrite list_lookup_insert_eq by done. eexists. split; [done|]. cbn. congruence.
    + rewrite list_lookup_insert_ne, Eqq by done. eexists. split; [done|]. done.
  - apply I.
  - apply I.
  - destruct (count_wraps (zlen (concat (imap (purged id) ports))) (disconnected_drops (ss_stats (net f)))) as [z Ez].
    exists z. unfold tally. cbn. rewrite Ez. pose proof (f_equal Z.of_nat (Permutation_length Ps)) as L. rewrite length_app in L.
    pose proof (f_equal Z.of_nat (Permutation_length Eq)) as L2. unfold zlen, purge, purged in *. lia.
  - intros p' Hp'. cbn in Hp'. rewrite Eid in Hp'. by injection Hp' as <-.
  - intros t p' x Ht Hx. cbn in Ht. by destruct (Gone t p' x Ht Hx).
Qed.

(** ** Ports and devices *)
Lemma frames_of_unknown h id bs : Forall (view h) bs -> h !! id = None -> frames_of id bs = [].
Proof.
  intros F N. induction F as [|b bs (_ & _ & V) F IH]; [done|]. unfold frames_of in *. cbn. rewrite IH.
  destruct (decide (buf_pool b = Some id)) as [E|]; [|done]. rewrite E in V. destruct V as (p & Hp & _). congruence.
Qed.
Lemma pools_ok_new h id p bs :
  pools_ok h bs -> h !! id = None -> pool_id p = id -> pool_inv p [] -> Forall bytes_ok (arena p) -> pools_ok (<[id := p]> h) bs.
Proof.
  intros [P F] N Ei I B. constructor.
  - intros j q. destruct (decide (j = id)) as [-> |Nj].
    + rewrite lookup_insert_eq. intros [= <-]. by rewrite (frames_of_unknown h id bs F N).
    + rewrite lookup_insert_ne by done. apply P.
  - eapply Forall_impl; [exact F|]. intros b (W & Bm & V). split; [done|]. split; [done|]. destruct (buf_pool b) as [j|]; [|done].
    destruct V as (q & Hq & Hc). exists q. rewrite lookup_insert_ne by congruence. done.
Qed.
Lemma routes_all (P : nat -> Prop) addresses id (m : gmap Z nat) :
  map_Forall (fun _ i => P i) m -> P id -> map_Forall (fun _ i => P i) (foldl (fun m a => <[a := id]> m) m addresses).
Proof. revert m. induction addresses as [|a l IH]; intros m F Hp; cbn; [done|]. apply IH; [|done]. by apply map_Forall_insert_2. Qed.
(** The arguments of [port] are values of their types, and the pool is new. *)
Definition port_args f (frames queue pool : Z) : Prop :=
  0 <= frames /\ frames * 2048 <= U64MAX /\ 0 <= queue /\ pools f !! pool = None.
Lemma network_port_spec self addresses frames queue pool f held :
  fabric_inv f held -> port_args f frames queue pool ->
  network_port self addresses frames queue pool f = Err InvalidInput
  \/ exists d f', network_port self addresses frames queue pool f = Ok (d, f') /\ fabric_inv f' held
      /\ d = mkSimDevice self (length (ss_ports (net f)))
      /\ ss_ports (net f') = ss_ports (net f) ++ [mkSimPort pool [] queue true true].
Proof.
  intros I (Hf & Hs & Hq & Hn). unfold network_port. destruct (_ || _) eqn:E; [by left|right].
  rewrite !orb_false_iff in E. destruct E as [[[E1 E2] _] _]. bools.
  destruct (pool_new pool frames 2048) as [p| | |] eqn:Ep;
    try (unfold pool_new in Ep; rewrite !(proj2 (Z.ltb_lt _ _)), (proj2 (Z.leb_le _ _)) in Ep by lia; done).
  cbn [obind]. eexists _, _. split; [done|]. split; [|done]. pose proof (pool_new_inv _ _ _ _ Ep) as Ip.
  destruct (pool_new_zeroed _ _ _ _ Ep) as (Bp & Fs & Ei). destruct I. constructor; cbn; try done.
  - rewrite queued_app. change (queued [_]) with (@nil PacketBuf). rewrite app_nil_r. by apply pools_ok_new.
  - apply Forall_app. split.
    + eapply Forall_impl; [exact fi_ports|]. intros q []. constructor; try done. destruct pk_pool as (r & Hr & Er).
      exists r. rewrite lookup_insert_ne by congruence. done.
    + constructor; [|constructor]. constructor; cbn; try done. exists p. by rewrite lookup_insert_eq.
  - apply Forall_app. split; [|by repeat constructor]. eapply Forall_impl; [exact fi_sources|]. cbn. intros q Fq.
    eapply Forall_impl; [exact Fq|]. intros x (r & Hr & Or). exists r. split; [by apply lookup_app_l_Some|done].
  - apply routes_all.
    + intros a i Hi. destruct (fi_routes a i Hi) as (q & Hq' & Aq). exists q. split; [by apply lookup_app_l_Some|done].
    + eexists. rewrite list_lookup_middle by done. done.
Qed.
(** Only the flags of a port without packets in flight change. *)
Lemma flags_inv id p p' f held :
  fabric_inv f held -> ss_ports (net f) !! id = Some p -> pt_pool p' = pt_pool p -> pt_queue p' = pt_queue p -> pt_capacity p' = pt_capacity p ->
  (online p' = online p \/ online p' = true \/ isolated f id) -> (pt_active p' = false -> online p' = false) ->
  (online p' = false -> pt_queue p = []) ->
  (pt_active p' = pt_active p \/ map_Forall (fun _ i => i <> id) (ss_routes (net f))) -> fabric_inv (put_port id p' f) held.
Proof.
  intros [] E Ep Eq Ec Ho Ha Hq Hr. pose proof (lookup_lt_Some _ _ _ E) as Hid. unfold put_port. constructor; cbn; try done.
  - destruct (queued_at _ _ _ E) as (rest & E1 & E2). rewrite (E2 p'), Eq, <- E1. done.
  - apply Forall_insert; [done|]. pose proof (proj1 (Forall_lookup _ _) fi_ports _ _ E) as []. constructor; rewrite ?Ep, ?Eq, ?Ec; done.
  - assert (forall t q x, ss_ports (net f) !! t = Some q -> x ∈ pt_queue q -> from_online (<[id := p']> (ss_ports (net f))) x) as X.
    { intros t q x Ht Hx. pose proof (proj1 (Forall_lookup _ _) fi_sources _ _ Ht) as Sr. cbn in Sr. rewrite Forall_forall in Sr.
      destruct (Sr x Hx) as (r & Er & Or). unfold from_online. destruct (decide (pe_source x = id)) as [Es|Ns].
      - rewrite Es in *. exists p'. rewrite list_lookup_insert_eq by done. split; [done|].
        destruct Ho as [Ho|[Ho|[_ Ho]]]; [congruence|done|]. by destruct (Ho t q x Ht Hx).
      - exists r. by rewrite list_lookup_insert_ne. }
    apply Forall_insert; [|apply Forall_forall; intros x Hx; rewrite Eq in Hx; eauto].
    apply Forall_lookup. intros t q Ht. apply Forall_forall. intros x Hx. eauto.
  - intros a i Hi. destruct (fi_routes a i Hi) as (q & Hq' & Aq). destruct (decide (i = id)) as [-> |N].
    + exists p'. rewrite list_lookup_insert_eq by done. split; [done|]. destruct Hr as [Hr|Hr]; [congruence|]. by destruct (Hr a id Hi).
    + exists q. by rewrite list_lookup_insert_ne.
Qed.
Lemma sim_device_drop_spec d f held p :
  fabric_inv f held -> ss_ports (net f) !! sd_id d = Some p ->
  exists f', sim_device_drop d f = Ok f' /\ fabric_inv f' held /\ tallies f f' 0 /\ isolated f' (sd_id d)
    /\ map_Forall (fun _ i => i <> sd_id d) (ss_routes (net f')).
Proof.
  intros I E. unfold sim_device_drop. destruct (disconnect_spec _ _ _ _ I E) as (f1 & -> & I1 & T1 & Is & E1 & R1 & _). cbn [obind].
  unfold port_at. rewrite E1. cbn [obind]. set (p1 := p <| online := false |> <| pt_queue := [] |>) in *.
  set (f2 := f1 <| net ::= fun s => s <| ss_routes ::= filter (fun r => r.2 <> sd_id d) |> |>).
  assert (map_Forall (fun _ i => i <> sd_id d) (ss_routes (net f2))) as Rn.
  { intros a i Hi. cbn in Hi. by apply map_lookup_filter_Some in Hi as [_ Hi]. }
  assert (fabric_inv f2 held) as I2.
  { destruct I1. constructor; try done. cbn. intros a i Hi. apply map_lookup_filter_Some in Hi as [Hi _]. by apply (fi_routes a). }
  eexists. split; [done|]. split; [|split; [|split; [|exact Rn]]].
  - change (fabric_inv (put_port (sd_id d) (p1 <| pt_active := false |>) f2) held).
    apply (flags_inv (sd_id d) p1); try done; [by left|by right].
  - destruct T1 as [z Ez]. exists z. rewrite <- Ez. unfold tally, put_port. cbn. destruct (queued_at _ _ _ E1) as (rest & Q1 & Q2).
    by rewrite Q2, Q1.
  - destruct Is as [Is1 Is2]. pose proof (lookup_lt_Some _ _ _ E1). split; cbn.
    + intros q. rewrite list_lookup_insert_eq by done. by intros [= <-].
    + intros t q x. destruct (decide (t = sd_id d)) as [-> |N].
      * rewrite list_lookup_insert_eq by done. intros [= <-] Hx. by apply not_elem_of_nil in Hx.
      * rewrite list_lookup_insert_ne by done. apply Is2.
Qed.
Lemma ap_stop_spec a f held :
  fabric_inv f held ->
  exists f', ap_stop a f = Ok (a <| running := false |>, f') /\ fabric_inv f' held /\ tallies f f' 0
    /\ Forall (fun p => online p = false /\ pt_queue p = []) (ss_ports (net f')).
Proof.
  intros I. unfold ap_stop. fold (queued (ss_ports (net f))).
  destruct (drop_frames_spec (queued (ss_ports (net f))) (pools f) held (fi_pools _ _ I)) as (h & -> & O & G). cbn [obind].
  set (shut := fun p : SimPort => p <| online := false |> <| pt_queue := [] |>).
  assert (queued (shut <$> ss_ports (net f)) = []) as Eq by (induction (ss_ports (net f)); [done|]; by rewrite fmap_cons).
  assert (Forall (fun p => online p = false /\ pt_queue p = []) (shut <$> ss_ports (net f))) as Off.
  { apply Forall_fmap, Forall_true. done. }
  eexists. split; [done|]. split; [apply fstat_inv; destruct I; constructor; cbn; try done|split; [|exact Off]].
  - fold shut. by rewrite Eq.
  - fold shut. apply Forall_fmap. eapply Forall_impl; [exact fi_ports|]. intros p K. apply (port_ok_geometry _ _ _ G) in K as [].
    constructor; cbn; try done. pose proof (zlen_nonneg (pt_queue p)). change (zlen []) with 0. lia.
  - fold shut. apply Forall_fmap, Forall_true. constructor.
  - fold shut. intros ad i Hi. destruct (fi_routes ad i Hi) as (q & Eqq & Aq). exists (shut q). by rewrite list_lookup_fmap, Eqq.
  - destruct (count_wraps (zlen (queued (ss_ports (net f)))) (disconnected_drops (ss_stats (net f)))) as [z Ez].
    exists z. unfold tally. cbn. fold shut. rewrite Ez, Eq. change (zlen []) with 0. lia.
Qed.

(** ** Sessions *)
Record World : Type := mkWorld { w_fabric : Fabric; w_ap : AccessPoint; w_held : list PacketBuf }.
(** The device exists: its port is active. *)
Definition exists_ f (d : SimDevice) : Prop := exists p, ss_ports (net f) !! sd_id d = Some p /\ pt_active p = true.
Definition done_ {A} (m : outcome A) : outcome unit := let* _ := m in Ok tt.
Definition after {A} (m : outcome A) (g : A -> World) (w : World) : World := match m with Ok a => g a | _ => w end.
Definition mine (a : AccessPoint) f (d : SimDevice) : Prop := sd_network d = ap_network a -> exists_ f d.
(** One call of an application that holds some handles: the endpoint it associates, the result
    and what becomes of everything. *)
Inductive sim_step : World -> option nat -> outcome unit -> World -> Prop :=
| step_network_port addresses frames queue pool f a held :
    port_args f frames queue pool ->
    let m := network_port (ap_network a) addresses frames queue pool f in
    sim_step (mkWorld f a held) None (done_ m) (after m (fun x => mkWorld x.2 a held) (mkWorld f a held))
| step_ap_port addresses frames queue pool f a held :
    port_args f frames queue pool ->
    let m := ap_port a addresses frames queue pool f in
    sim_step (mkWorld f a held) None (done_ m) (after m (fun x => mkWorld x.2 a held) (mkWorld f a held))
| step_set_link from to link f a held :
    link_ok link ->
    let m := set_link (ap_network a) from to link f in
    sim_step (mkWorld f a held) None (done_ m) (after m (fun f => mkWorld f a held) (mkWorld f a held))
| step_advance elapsed f a held :
    0 <= elapsed ->
    let m := network_advance elapsed f in
    sim_step (mkWorld f a held) None (done_ m) (after m (fun f => mkWorld f a held) (mkWorld f a held))
| step_device_drop d f a held :
    exists_ f d ->
    let m := sim_device_drop d f in
    sim_step (mkWorld f a held) None (done_ m) (after m (fun f => mkWorld f a held) (mkWorld f a held))
| step_alloc d f a held :
    exists_ f d ->
    let s := sim_alloc (sd_id d) f in
    sim_step (mkWorld f a held) None (done_ s.1)
      (mkWorld s.2 a (match s.1 with Ok (Some b) => b :: held | _ => held end))
| step_recv d max out f a held rest :
    exists_ f d -> 0 <= max -> held ≡ₚ out ++ rest ->
    let s := sim_recv (sd_id d) max (f, out) in
    sim_step (mkWorld f a held) None (done_ s.1) (mkWorld s.2.1 a (s.2.2 ++ rest))
| step_send d frames f a held rest :
    exists_ f d -> held ≡ₚ frames ++ rest ->
    let s := sim_send (sd_id d) (f, frames) in
    sim_step (mkWorld f a held) None (done_ s.1) (mkWorld s.2.1 a (s.2.2 ++ rest))
| step_write b b' f a held rest :
    held ≡ₚ b :: rest -> buf_pool b' = buf_pool b -> buf_idx b' = buf_idx b -> view (pools f) b' ->
    sim_step (mkWorld f a held) None (Ok tt) (mkWorld f a (b' :: rest))
| step_drop b f a held rest :
    held ≡ₚ b :: rest ->
    let s := sim_drop b f in
    sim_step (mkWorld f a held) None s.1 (mkWorld s.2 a rest)
| step_start f a held : sim_step (mkWorld f a held) None (Ok tt) (mkWorld f (ap_start a) held)
| step_stop f a held :
    let m := ap_stop a f in
    sim_step (mkWorld f a held) None (done_ m) (after m (fun x => mkWorld x.2 x.1 held) (mkWorld f a held))
| step_associate d f a held :
    mine a f d ->
    let m := associate a d f in
    sim_step (mkWorld f a held) (Some (sd_id d)) (done_ m) (after m (fun f => mkWorld f a held) (mkWorld f a held))
| step_disassociate d f a held :
    mine a f d ->
    let m := disassociate a d f in
    sim_step (mkWorld f a held) None (done_ m) (after m (fun f => mkWorld f a held) (mkWorld f a held)).

(** An endpoint that is offline stays so. *)
Definition offline f (id : nat) : Prop := exists p, ss_ports (net f) !! id = Some p /\ online p = false.
Definition stays_offline f f' : Prop := forall id, offline f id -> offline f' id.
Lemma stays_offline_same f f' : Forall2 same_port (ss_ports (net f)) (ss_ports (net f')) -> stays_offline f f'.
Proof.
  intros F id (p & E & O). destruct (same_ports_lookup _ _ _ _ F E) as (p' & E' & (_ & _ & _ & O')). exists p'. split; [done|congruence].
Qed.
Lemma put_port_offline f id p p' :
  ss_ports (net f) !! id = Some p -> (online p = false -> online p' = false) -> stays_offline f (put_port id p' f).
Proof.
  intros E H t (q & Eq & Oq). unfold offline, put_port. cbn. destruct (decide (t = id)) as [-> |N].
  - exists p'. rewrite list_lookup_insert_eq by (by eapply lookup_lt_Some). split; [done|]. apply H. congruence.
  - exists q. by rewrite list_lookup_insert_ne.
Qed.
Lemma disconnect_offline id f f' : disconnect id f = Ok f' -> stays_offline f f'.
Proof.
  unfold disconnect. intros (p & E & (h & _ & X)%obind_Ok)%obind_Ok. injection X as <-. unfold port_at in E.
  destruct (ss_ports (net f) !! id) as [q|] eqn:Eq; [|done]. injection E as ->. intros t (r & Er & Or).
  unfold offline. cbn. rewrite list_lookup_imap. destruct (decide (t = id)) as [-> |N].
  - rewrite list_lookup_insert_eq by (by eapply lookup_lt_Some). eauto.
  - rewrite list_lookup_insert_ne, Er by done. eexists. split; [done|]. done.
Qed.
Definition sim_ok (w : World) : Prop := fabric_inv (w_fabric w) (w_held w).
Lemma port_at_some f d : exists_ f d -> exists p, ss_ports (net f) !! sd_id d = Some p /\ port_at (sd_id d) f = Ok p /\ pt_active p = true.
Proof. intros (p & E & A). exists p. unfold port_at. by rewrite E. Qed.
Lemma sim_alloc_spec id f held p :
  fabric_inv f held -> ss_ports (net f) !! id = Some p ->
  exists r f', sim_alloc id f = (Ok r, f') /\ fabric_inv f' (match r with Some b => b :: held | None => held end) /\ net f' = net f.
Proof.
  intros I E. unfold sim_alloc, port_at. rewrite E. cbn [obind].
  destruct (pk_pool _ _ (proj1 (Forall_lookup _ _) (fi_ports _ _ I) _ _ E)) as (q & Eq & _).
  destruct (pools_alloc_spec _ _ q _ (fi_pools _ _ I) Eq) as (r & h & -> & G & R). exists r, (f <| pools := h |>). split; [done|]. split; [|done].
  eapply pools_inv; [exact I|exact G|]. destruct r as [b|]; [|done]. destruct R as [O _]. eapply pools_ok_perm; [done| |exact O].
  change (b :: ?l) with ([b] ++ l). perm.
Qed.
Lemma sim_send_spec id frames f held p :
  fabric_inv f (frames ++ held) -> ss_ports (net f) !! id = Some p ->
  exists r f' frames' n, sim_send id (f, frames) = (r, (f', frames')) /\ fabric_inv f' (frames' ++ held)
    /\ took n frames frames' /\ fstep f f' (audiences id (ss_ports (net f)) (take n frames))
    /\ match r with
       | Ok k => k = Z.of_nat n
       | Err e => n = O /\ f' = f /\ frames <> [] /\ (e = NotConnected /\ online p = false
           \/ e = InvalidInput /\ exists b, head frames = Some b /\ fabric_packet (as_slice b) = false)
       | _ => False
       end.
Proof.
  intros I E. unfold sim_send, port_at. rewrite E. cbn [obind].
  assert (took 0 frames frames) as T0 by (split; [done|]; split; [lia|constructor]).
  case_bool_decide as Ef; [|destruct (online p) eqn:Eo; cbn [negb]].
  - eexists _, f, frames, O. split; [done|]. split; [done|]. split; [done|]. split; [apply fstep_refl|done].
  - destruct (send_each_spec id frames 0 f held p I E Eo ltac:(lia)) as (r & f' & frames' & n & -> & I' & T & S & R).
    eexists _, f', frames', n. split; [done|]. split; [done|]. split; [done|]. split; [done|].
    destruct r; try done. destruct R as (-> & -> & -> & _ & R). split_and!; try done. by right.
  - eexists _, f, frames, O. split; [done|]. split; [done|]. split; [done|]. split; [apply fstep_refl|]. split_and!; try done. by left.
Qed.
Definition keeps_offline (l : option nat) f f' : Prop := forall id, l <> Some id -> offline f id -> offline f' id.
Lemma keeps_same l f f' : ss_ports (net f') = ss_ports (net f) -> keeps_offline l f f'.
Proof. intros E id _ (p & Ep & Op). exists p. by rewrite E. Qed.
Lemma keeps_stays l f f' : stays_offline f f' -> keeps_offline l f f'.
Proof. intros S id _. apply S. Qed.
Lemma network_port_step self addresses frames queue pool f held :
  fabric_inv f held -> port_args f frames queue pool ->
  match network_port self addresses frames queue pool f with
  | Ok (d, f') => fabric_inv f' held /\ stays_offline f f' /\ isolated f' (sd_id d)
      /\ exists p, ss_ports (net f') !! sd_id d = Some p /\ pt_queue p = []
  | r => returns r
  end.
Proof.
  intros I A. destruct (network_port_spec self addresses frames queue pool f held I A) as [-> |(d & f' & -> & I' & -> & P)]; [done|].
  split; [done|]. cbn [sd_id]. assert (ss_ports (net f') !! length (ss_ports (net f)) = Some (mkSimPort pool [] queue true true)) as E
    by (rewrite P, list_lookup_middle; done).
  split; [|split; [split|eauto]].
  - intros id (p & Ep & Op). exists p. rewrite P. split; [by apply lookup_app_l_Some|done].
  - intros p. rewrite E. by intros [= <-].
  - intros t p x Ht Hx. rewrite P in Ht. apply lookup_app_Some in Ht as [Ht|[_ Ht]].
    + pose proof (proj1 (Forall_lookup _ _) (fi_sources _ _ I) _ _ Ht) as Sr. cbn in Sr. rewrite Forall_forall in Sr.
      destruct (Sr x Hx) as (q & Eq & _). apply lookup_lt_Some in Eq. lia.
    + apply list_lookup_singleton_Some in Ht as [_ <-]. by apply not_elem_of_nil in Hx.
Qed.
Lemma ap_port_step a addresses frames queue pool f held :
  fabric_inv f held -> port_args f frames queue pool ->
  match ap_port a addresses frames queue pool f with
  | Ok (d, f') => fabric_inv f' held /\ stays_offline f f' /\ offline f' (sd_id d)
  | r => returns r
  end.
Proof.
  intros I A. unfold ap_port. pose proof (network_port_step (ap_network a) addresses frames queue pool f held I A) as X.
  destruct (network_port _ _ _ _ _ _) as [[d f1]| | |]; try done. cbn [obind]. destruct X as (I1 & S1 & Is & p & E1 & Q1).
  unfold port_at. rewrite E1. cbn [obind]. set (p' := p <| online := false |>). split; [|split].
  - apply (flags_inv (sd_id d) p); try done; [by right; right|by left].
  - intros id Ho. apply (put_port_offline f1 (sd_id d) p p'); [done|done|]. by apply S1.
  - exists p'. unfold put_port. cbn. rewrite list_lookup_insert_eq by (by eapply lookup_lt_Some). done.
Qed.
Lemma associate_step a d f held :
  fabric_inv f held -> mine a f d ->
  match associate a d f with
  | Ok f' => fabric_inv f' held /\ keeps_offline (Some (sd_id d)) f f'
  | r => returns r
  end.
Proof.
  intros I M. unfold associate, ap_check. destruct (_ =? _) eqn:E; cbn [negb obind]; [|done]. bools.
  destruct (running a); cbn [negb]; [|done]. destruct (port_at_some f d) as (p & Ep & -> & Ap); [apply M; done|]. cbn [obind]. split.
  - apply (flags_inv (sd_id d) p); try done; [by right; left| |by left]. cbn. congruence.
  - intros id N (q & Eq & Oq). exists q. unfold put_port. cbn. rewrite list_lookup_insert_ne by congruence. done.
Qed.
Lemma device_drop_offline d f f' : sim_device_drop d f = Ok f' -> stays_offline f f'.
Proof.
  unfold sim_device_drop. intros (f1 & E1%disconnect_offline & (p & E2 & X)%obind_Ok)%obind_Ok. injection X as <-.
  unfold port_at in E2. destruct (ss_ports (net f1) !! sd_id d) as [q|] eqn:Eq; [|done]. injection E2 as ->.
  intros id Ho%E1. destruct (put_port_offline f1 (sd_id d) p (p <| pt_active := false |>) Eq) with (id := id) as (r & Er & Or); [done|done|].
  exists r. done.
Qed.
Ltac same_world := split; [done|]; split; [done|by apply keeps_same].
Lemma sim_step_spec w l r w' :
  sim_step w l r w' -> sim_ok w -> returns r /\ sim_ok w' /\ keeps_offline l (w_fabric w) (w_fabric w').
Proof.
  unfold sim_ok.
  intros [addresses frames queue pool f a held A m|addresses frames queue pool f a held A m|from to link f a held Hl m|elapsed f a held He m
    |d f a held Hd m|d f a held Hd s|d max out f a held rest Hd Hm P s|d frames f a held rest Hd P s|b b' f a held rest P Ep Ei V
    |b f a held rest P s|f a held|f a held m|d f a held Hd m|d f a held Hd m]; cbn [w_fabric w_held]; intros I.
  - pose proof (network_port_step (ap_network a) addresses frames queue pool f held I A) as X. subst m.
    destruct (network_port _ _ _ _ _ _) as [[d f']| | |]; try done; [|same_world]. destruct X as (I' & S & _). split; [done|]. split; [done|by apply keeps_stays].
  - pose proof (ap_port_step a addresses frames queue pool f held I A) as X. subst m.
    destruct (ap_port _ _ _ _ _ _) as [[d f']| | |]; try done; [|same_world]. destruct X as (I' & S & _). split; [done|]. split; [done|by apply keeps_stays].
  - subst m. unfold set_link. destruct (_ || _); cbn; [same_world|]. split; [done|]. split; [|by apply keeps_same].
    destruct I. constructor; try done. cbn. by apply map_Forall_insert_2.
  - subst m. unfold network_advance. destruct (_ <? _) eqn:E; cbn; [same_world|]. split; [done|]. split; [|by apply keeps_same]. bools.
    destruct I. constructor; try done. cbn. lia.
  - subst m. destruct Hd as (p & Ep & _). destruct (sim_device_drop_spec d f held p I Ep) as (f' & E & I' & _). rewrite E. split; [done|].
    split; [done|]. by apply keeps_stays, (device_drop_offline d).
  - destruct Hd as (p & Ep & _). destruct (sim_alloc_spec (sd_id d) f held p I Ep) as (o & f' & E & I' & En). subst s. rewrite E. cbn.
    split; [done|]. split; [by destruct o|]. apply keeps_same. by rewrite En.
  - destruct Hd as (p & Ep & _). destruct (sim_recv_spec (sd_id d) max f out rest p) as (f' & taken & af & E & I' & S & _); [|done|done|].
    { by eapply fabric_inv_perm. }
    subst s. rewrite E. split; [done|]. split; [done|]. apply keeps_stays, stays_offline_same, S.
  - destruct Hd as (p & Ep & _). destruct (sim_send_spec (sd_id d) frames f rest p) as (r0 & f' & frames' & n & E & I' & T & S & R); [|done|].
    { by eapply fabric_inv_perm. }
    subst s. rewrite E. split; [by destruct r0|]. split; [done|]. apply keeps_stays, stays_offline_same, S.
  - split; [done|]. split; [|by apply keeps_same]. apply (fabric_inv_perm _ _ _ P) in I. destruct I. constructor; try done.
    destruct fi_pools as [O1 O2]. constructor.
    + intros id q Hq. destruct (O1 id q Hq) as (? & Iq & ?). split; [done|]. split; [|done]. rewrite frames_of_app in *. cbn in *. by rewrite Ep, Ei.
    + apply Forall_app in O2 as [O2 O3]. apply Forall_cons in O3 as [_ O3]. apply Forall_app. split; [done|]. by constructor.
  - apply (fabric_inv_perm _ _ _ P) in I. destruct (drop_held f b rest I) as (h & E & I' & _). subst s. unfold sim_drop. rewrite E.
    split; [done|]. split; [done|]. by apply keeps_same.
  - split; [done|]. split; [done|]. by apply keeps_same.
  - destruct (ap_stop_spec a f held I) as (f' & E & I' & _ & Off). subst m. rewrite E. split; [done|]. split; [done|]. apply keeps_stays.
    intros id (p & Ep & _). unfold ap_stop in E. apply obind_Ok in E as (h & _ & [= <-]). cbn in *. unfold offline. cbn.
    rewrite list_lookup_fmap, Ep. eexists. split; [done|done].
  - pose proof (associate_step a d f held I Hd) as X. subst m. destruct (associate a d f); try done; same_world.
  - subst m. unfold disassociate, ap_check. destruct (_ =? _) eqn:E; cbn [negb obind]; [|same_world]. bools.
    destruct (Hd ltac:(done)) as (p & Ep & _). destruct (disconnect_spec _ _ _ _ I Ep) as (f' & Ed & I' & _). rewrite Ed. split; [done|].
    split; [done|]. by apply keeps_stays, (disconnect_offline (sd_id d)).
Qed.
Definition sim_next (w w' : World) : Prop := exists l r, sim_step w l r w'.
(** An empty network and a stopped access point, beside pools that other devices may own. *)
Definition sim_start h (self : Z) bs : World := mkWorld (mkFabric h state_default) (mkAccessPoint self false) bs.
Lemma sim_reach h self held w : pools_ok h held -> rtc sim_next (sim_start h self held) w -> sim_ok w.
Proof.
  intros O R. remember (sim_start h self held) as w0 eqn:E. assert (sim_ok w0) as I0.
  { subst. constructor; cbn; try done; try constructor. }
  clear E. induction R as [w0|w0 w1 w2 (l & r & S) _ IH]; [done|]. apply IH. by apply (sim_step_spec _ _ _ _ S).
Qed.
Lemma offline_isolated f held id : fabric_inv f held -> offline f id -> isolated f id.
Proof.
  intros I (p & E & O). split.
  - intros q Eq. assert (q = p) as -> by congruence. exact (pk_online _ _ (proj1 (Forall_lookup _ _) (fi_ports _ _ I) _ _ E) O).
  - intros t q x Ht Hx Es. pose proof (proj1 (Forall_lookup _ _) (fi_sources _ _ I) _ _ Ht) as Sr. cbn in Sr.
    rewrite Forall_forall in Sr. destruct (Sr x Hx) as (s & Ess & Os). rewrite Es in Ess. congruence.
Qed.
(** A handle has one place. *)
Lemma held_unique f b held own : fabric_inv f (b :: held) -> buf_pool b = Some own -> b ∉ queued (ss_ports (net f)).
Proof.
  intros I Ep Hb. apply list_elem_of_split in Hb as (l1 & l2 & E). pose proof (fi_pools _ _ I) as [P F].
  apply Forall_app in F as [_ F]. apply Forall_cons in F as [(_ & _ & V) _]. rewrite Ep in V. destruct V as (p & Hp & _).
  destruct (P own p Hp) as (_ & Ip & _). pose proof (inv_nodup _ _ Ip) as N. rewrite E in N.
  assert (frames_of own ((l1 ++ b :: l2) ++ b :: held) ≡ₚ frames_of own [b; b] ++ frames_of own (l1 ++ l2 ++ held)) as Pm.
  { rewrite <- frames_of_app. apply frames_of_perm. change (b :: ?l) with ([b] ++ l). perm. }
  rewrite Pm in N. cbn in N. rewrite Ep, decide_True in N by done. apply NoDup_app in N as (_ & _ & N).
  apply NoDup_cons in N as [N _]. apply N. left.
Qed.

(** C34. Whatever applications call in whatever order on a network and its access point, every
    call returns, no queue exceeds its capacity, and every frame of every pool is free, in
    flight or with an application, exactly once, wherever packets have carried it. *)
Theorem fabric_sessions h self held w :
  pools_ok h held -> rtc sim_next (sim_start h self held) w ->
  let f := w_fabric w in
  (forall l r w', sim_step w l r w' -> returns r)
  /\ Forall (fun p => zlen (pt_queue p) <= pt_capacity p) (ss_ports (net f))
  /\ (forall id p, pools f !! id = Some p ->
        take (Z.to_nat (free_count p)) (free_list p) ++ frames_of id (queued (ss_ports (net f)) ++ w_held w)
        ≡ₚ indices (num_frames p)).
Proof.
  intros O R. pose proof (sim_reach _ _ _ _ O R) as I. split; [|split].
  - intros l r w' S. by apply (sim_step_spec _ _ _ _ S).
  - eapply Forall_impl; [exact (fi_ports _ _ I)|]. intros p K. apply K.
  - intros id p Hp. destruct (po_pool _ _ (fi_pools _ _ I) id p Hp) as (_ & Ip & _). apply (inv_part _ _ Ip).
Qed.

(** Nothing is in flight to or from an endpoint that is offline, whether it was never
    associated, left, was dropped or the access point stopped; and no call but its own
    association brings it back. *)
Theorem offline_isolation h self held w id :
  pools_ok h held -> rtc sim_next (sim_start h self held) w -> offline (w_fabric w) id ->
  isolated (w_fabric w) id
  /\ (forall l r w', sim_step w l r w' -> l <> Some id -> offline (w_fabric w') id).
Proof.
  intros O R Ho. pose proof (sim_reach _ _ _ _ O R) as I. split; [by eapply offline_isolated|].
  intros l r w' S N. destruct (sim_step_spec _ _ _ _ S I) as (_ & _ & K). by apply K.
Qed.

(** [recv] hands out packets whose time has come, earliest first and those of one instant
    in the order they were sent, as many as asked for or all that are due; the others stay
    queued in that order. *)
Theorem sim_recv_delivers id max f out held p :
  fabric_inv f (out ++ held) -> 0 <= max -> ss_ports (net f) !! id = Some p ->
  exists f' taken rest, sim_recv id max (f, out) = (Ok (zlen taken), (f', pe_frame <$> taken))
    /\ fabric_inv f' ((pe_frame <$> taken) ++ held)
    /\ ss_ports (net f') = <[id := p <| pt_queue := rest |>]> (ss_ports (net f))
    /\ taken ++ rest ≡ₚ pt_queue p /\ StronglySorted earlier (taken ++ rest)
    /\ (forall k, filter (fun x => pe_at x = k) (taken ++ rest) = filter (fun x => pe_at x = k) (pt_queue p))
    /\ zlen taken <= max /\ Forall (fun x => pe_at x <= ss_now (net f)) taken
    /\ (zlen taken < max -> Forall (fun x => ss_now (net f) < pe_at x) rest).
Proof.
  intros I Hm E. destruct (sim_recv_spec id max f out held p I Hm E) as (f' & taken & rest & Er & I' & _ & P & (Es & Hl & Hd & Hr)).
  exists f', taken, rest. split; [done|]. split; [done|]. split; [done|]. rewrite Es.
  split; [apply sort_perm|]. split; [apply sort_sorted|]. split; [intros k; apply sort_stable|]. done.
Qed.

(** [send] takes a prefix of the frames in order and leaves the others as they were; an
    error takes nothing and changes nothing.  Every packet it takes is accounted for: the
    packets queued and the counters together grow by one for each receiver of each packet. *)
Theorem sim_send_accounts id frames f held p :
  fabric_inv f (frames ++ held) -> ss_ports (net f) !! id = Some p ->
  exists r f' frames' n, sim_send id (f, frames) = (r, (f', frames')) /\ fabric_inv f' (frames' ++ held)
    /\ frames' = replicate n packet_default ++ drop n frames /\ (n <= length frames)%nat
    /\ tally f' mod W64 = (tally f + audiences id (ss_ports (net f)) (take n frames)) mod W64
    /\ match r with
       | Ok k => k = Z.of_nat n
       | Err e => n = O /\ f' = f /\ (e = NotConnected /\ online p = false
           \/ e = InvalidInput /\ exists b, head frames = Some b /\ fabric_packet (as_slice b) = false)
       | _ => False
       end.
Proof.
  intros I E. destruct (sim_send_spec id frames f held p I E) as (r & f' & frames' & n & Er & I' & (T1 & T2 & _) & S & R).
  exists r, f', frames', n. split; [done|]. split; [done|]. split; [done|]. split; [done|]. split; [apply tallies_mod, S|].
  destruct r; try done. destruct R as (-> & -> & _ & R). done.
Qed.

(** C35. A packet to a routed address over a link without a fault arrives exactly when its delay
    has passed: the receiver gets the very frame that was sent, and not before. *)
Theorem sim_unicast id to b own d f held p q link sequence elapsed max :
  fabric_inv f (b :: held) -> buf_pool b = Some own -> fabric_packet (as_slice b) = true ->
  ss_ports (net f) !! id = Some q -> online q = true ->
  read32 (as_slice b) 16 = Ok d -> is_broadcast d = false -> ss_routes (net f) !! d = Some to ->
  ss_ports (net f) !! to = Some p -> online p = true -> zlen (pt_queue p) < pt_capacity p < max ->
  default (link_default, 0) (ss_links (net f) !! (id, to)) = (link, sequence) ->
  faulty_link link ((sequence + 1) mod W64) (zlen (as_slice b)) = false ->
  0 <= elapsed -> ss_now (net f) + elapsed <= DURATION_MAX ->
  exists f1 f2 f3 out, sim_send id (f, [b]) = (Ok 1, (f1, [packet_default])) /\ network_advance elapsed f1 = Ok f2
    /\ sim_recv to max (f2, []) = (Ok (zlen out), (f3, out))
    /\ (b ∈ out <-> arrival link ((sequence + 1) mod W64) (ss_now (net f)) <= ss_now (net f) + elapsed).
Proof.
  intros I Ep Hf Eq Oq Hd Hb Er Et Ot Hc El Hn He Ha.
  set (at_ := arrival link ((sequence + 1) mod W64) (ss_now (net f))).
  set (f0 := (next_sequence id to f).2). set (p1 := p <| pt_queue ::= fun l => l ++ [mkInFlight at_ id b] |>).
  assert (send_one id b f = Ok (true, put_port to p1 f0)) as Es.
  { unfold send_one, forward, port_at. rewrite Hd. cbn [obind]. rewrite Er, Hb. cbn [obind]. rewrite Et. cbn [obind]. rewrite Ot. cbn [negb].
    rewrite (proj2 (Z.eqb_neq _ _)) by lia. change (option_list (Some to)) with [to]. cbn [fan_out]. unfold port_at. rewrite Et. cbn [obind andb].
    unfold f0, next_sequence. rewrite El. cbn [obind fst snd]. rewrite Hn. cbn. rewrite Et. cbn. done. }
  assert (fabric_inv (put_port to p1 f0) held /\ ss_now (net f0) = ss_now (net f) /\ ss_ports (net f0) = ss_ports (net f)) as (I1 & N0 & P0).
  { destruct (sim_send_one_spec id b f held q I Eq Oq Hf) as (tk & f1 & E1 & X). rewrite Es in E1. injection E1 as <- <-.
    destruct X as [X _]. split; [done|]. unfold f0, next_sequence. rewrite El. done. }
  set (f1 := put_port to p1 f0) in *. set (f2 := f1 <| net ::= fun s => s <| ss_now := ss_now (net f) + elapsed |> |>).
  assert (fabric_inv f2 held) as I2 by (pose proof (fi_now _ _ I); destruct I1; constructor; try done; cbn; lia).
  assert (ss_ports (net f2) !! to = Some p1) as E2.
  { cbn. rewrite P0. apply list_lookup_insert_eq. by eapply lookup_lt_Some. }
  destruct (sim_recv_spec to max f2 [] held p1 I2 ltac:(pose_zlen; lia) E2) as (f3 & taken & rest & E3 & _ & _ & _ & (Ts & Tl & Td & Tr)).
  exists f1, f2, f3, (pe_frame <$> taken). split; [|split; [|split]].
  - unfold sim_send. rewrite bool_decide_false by done. unfold port_at. rewrite Eq, Oq. cbn [negb send_each]. by rewrite Hf, Es.
  - unfold network_advance. change (ss_now (net f1)) with (ss_now (net f0)). rewrite N0, (proj2 (Z.ltb_ge _ _)) by lia. done.
  - rewrite E3. unfold zlen. by rewrite length_fmap.
  - pose proof (sort_perm (pt_queue p1)) as Sp. rewrite <- Ts in Sp. change (pt_queue p1) with (pt_queue p ++ [mkInFlight at_ id b]) in Sp.
    assert (zlen taken < max) as Lt.
    { apply Permutation_length in Sp. rewrite !length_app in Sp. cbn in Sp. unfold zlen in *. lia. }
    specialize (Tr Lt). split.
    + intros (x & -> & Hx)%list_elem_of_fmap. rewrite Forall_forall in Td.
      assert (x ∈ pt_queue p ++ [mkInFlight at_ id (pe_frame x)]) as Hq by (rewrite <- Sp; apply elem_of_app; by left).
      apply elem_of_app in Hq as [Hq|Hq].
      * exfalso. apply (held_unique f (pe_frame x) held own I Ep). destruct (queued_at _ _ _ Et) as (r & -> & _).
        apply elem_of_app. left. by apply list_elem_of_fmap_2.
      * apply list_elem_of_singleton in Hq. rewrite Hq in Hx. exact (Td _ Hx).
    + intros Hat. assert (mkInFlight at_ id b ∈ taken ++ rest) as Hin by (rewrite Sp; apply elem_of_app; right; left).
      apply elem_of_app in Hin as [Hin|Hin]; [exact (list_elem_of_fmap_2 pe_frame _ _ Hin)|].
      rewrite Forall_forall in Tr. specialize (Tr _ Hin). cbn in Tr. lia.
Qed.

(** ** A small network *)
Definition ann : Z := 167772161.
Definition ben : Z := 167772162.
Definition fab_of (m : outcome (SimDevice * Fabric)) : Fabric :=
  match m with Ok x => x.2 | _ => mkFabric ∅ state_default end.
Definition ap7 : AccessPoint := mkAccessPoint 7 false.
Definition fab0 : Fabric := mkFabric ∅ state_default.
Definition fab1 : Fabric := fab_of (network_port 7 [ann] 2 4 1 fab0).
Definition fab2 : Fabric := fab_of (network_port 7 [ben] 2 4 2 fab1).
Definition slow : Link := mkLink 1000 0 0 false 0.
Definition fab3 : Fabric := fab2 <| net ::= fun s => s <| ss_links ::= <[(0%nat, 1%nat) := (slow, 0)]> |> |>.
Definition buf0 : PacketBuf := match (sim_alloc 0 fab3).1 with Ok (Some b) => b | _ => packet_default end.
Definition fab4 : Fabric := (sim_alloc 0 fab3).2.
Definition letter : list Z := [69; 0; 0; 20; 0; 0; 0; 0; 64; 17; 0; 0; 10; 0; 0; 1; 10; 0; 0; 2].
Definition buf1 : PacketBuf := store_packet (buf0 <| buf_len := 20 |>) letter.
Lemma pools_ok_empty : pools_ok ∅ [].
Proof. constructor; [intros id p Hp; by rewrite lookup_empty in Hp|constructor]. Qed.
Lemma fab1_built : network_port 7 [ann] 2 4 1 fab0 = Ok (mkSimDevice 7 0, fab1).
Proof. vm_compute. reflexivity. Qed.
Lemma fab2_built : network_port 7 [ben] 2 4 2 fab1 = Ok (mkSimDevice 7 1, fab2).
Proof. vm_compute. reflexivity. Qed.
Lemma fab4_built : sim_alloc 0 fab3 = (Ok (Some buf0), fab4).
Proof. vm_compute. reflexivity. Qed.
Lemma buf1_view : view (pools fab4) buf1.
Proof.
  split; [vm_compute; repeat split; discriminate|]. split.
  - apply (Forall_impl (fun b => 0 <= b < 256)); [|done]. apply (bool_decide_eq_true_1 _). vm_compute. reflexivity.
  - change (buf_pool buf1) with (Some 1). destruct (pools fab4 !! 1) as [p|] eqn:E; [|vm_compute in E; discriminate].
    exists p. split; [done|]. assert (Some (frame_size p) = Some 2048) as [= ->]; [|vm_compute; reflexivity].
    rewrite <- (fmap_Some_2 frame_size _ _ E). vm_compute. reflexivity.
Qed.
Lemma reach1 : rtc sim_next (sim_start ∅ 7 []) (mkWorld fab1 ap7 []).
Proof.
  apply rtc_once. eexists None, _. pose proof (step_network_port [ann] 2 4 1 fab0 ap7 []) as S. cbv zeta in S.
  change (ap_network ap7) with 7 in S. rewrite fab1_built in S. apply S. by split_and!; vm_compute.
Qed.
Lemma reach2 : rtc sim_next (sim_start ∅ 7 []) (mkWorld fab2 ap7 []).
Proof.
  eapply rtc_r; [exact reach1|]. eexists None, _. pose proof (step_network_port [ben] 2 4 2 fab1 ap7 []) as S. cbv zeta in S.
  change (ap_network ap7) with 7 in S. rewrite fab2_built in S. apply S. by split_and!; vm_compute.
Qed.
Lemma reach3 : rtc sim_next (sim_start ∅ 7 []) (mkWorld fab3 ap7 []).
Proof.
  eapply rtc_r; [exact reach2|]. eexists None, _. apply (step_set_link (mkSimDevice 7 0) (mkSimDevice 7 1) slow fab2 ap7 []).
  unfold link_ok, DURATION_MAX, U64MAX, SECOND. cbn. lia.
Qed.
Lemma reach4 : rtc sim_next (sim_start ∅ 7 []) (mkWorld fab4 ap7 [buf1]).
Proof.
  eapply rtc_r; [eapply rtc_r; [exact reach3|]|].
  - eexists None, _. pose proof (step_alloc (mkSimDevice 7 0) fab3 ap7 []) as S. cbv zeta in S. cbn [sd_id] in S. rewrite fab4_built in S.
    apply S. eexists. split; [vm_compute; reflexivity|reflexivity].
  - eexists None, _. apply (step_write buf0 buf1 fab4 ap7 [buf0] []); [done|reflexivity|reflexivity|exact buf1_view].
Qed.
Lemma fab4_ok : fabric_inv fab4 [buf1].
Proof. exact (sim_reach ∅ 7 [] _ pools_ok_empty reach4). Qed.
Definition fab5 : Fabric := (sim_send 0 (fab4, [buf1])).2.1.
Lemma fab5_sent : sim_send 0 (fab4, [buf1]) = (Ok 1, (fab5, [packet_default])).
Proof. vm_compute. reflexivity. Qed.
Lemma fab5_ok : fabric_inv fab5 ([packet_default] ++ []).
Proof.
  destruct (sim_send_spec 0 [buf1] fab4 [] _ fab4_ok eq_refl) as (r & f' & frames' & n & E & I & _). rewrite fab5_sent in E.
  injection E as _ <- <-. exact I.
Qed.
(** The packet is in flight, due after the delay of the link. *)
Example fab5_flight : (fun p => (fun x => (pe_at x, pe_source x, as_slice (pe_frame x))) <$> pt_queue p) <$> ss_ports (net fab5)
  = [[]; [(1000, 0%nat, letter)]].
Proof. vm_compute. reflexivity. Qed.

Lemma fabric_sessions_witness : Forall (fun p => zlen (pt_queue p) <= pt_capacity p) (ss_ports (net fab4)).
Proof. exact (proj1 (proj2 (fabric_sessions ∅ 7 [] _ pools_ok_empty reach4))). Defined.
Definition fab_ap : Fabric := fab_of (ap_port ap7 [ann] 2 4 1 fab0).
Lemma fab_ap_built : ap_port ap7 [ann] 2 4 1 fab0 = Ok (mkSimDevice 7 0, fab_ap).
Proof. vm_compute. reflexivity. Qed.
Lemma reach_ap : rtc sim_next (sim_start ∅ 7 []) (mkWorld fab_ap ap7 []).
Proof.
  apply rtc_once. eexists None, _. pose proof (step_ap_port [ann] 2 4 1 fab0 ap7 []) as S. cbv zeta in S.
  rewrite fab_ap_built in S. apply S. by split_and!; vm_compute.
Qed.
Lemma offline_isolation_witness : isolated fab_ap 0.
Proof.
  apply (offline_isolation ∅ 7 [] _ 0 pools_ok_empty reach_ap). eexists. split; [vm_compute; reflexivity|reflexivity].
Defined.
Lemma sim_recv_delivers_witness : exists f' taken,
  sim_recv 1 3 (fab5, [packet_default]) = (Ok (zlen taken), (f', pe_frame <$> taken)) /\ zlen taken <= 3.
Proof.
  destruct (sim_recv_delivers 1 3 fab5 [packet_default] [] _ fab5_ok ltac:(lia) eq_refl) as (f' & taken & rest & E & _ & _ & _ & _ & _ & L & _).
  exists f', taken. exact (conj E L).
Defined.
Lemma sim_send_accounts_witness : exists r f' frames' n, sim_send 0 (fab4, [buf1]) = (r, (f', frames'))
  /\ tally f' mod W64 = (tally fab4 + audiences 0 (ss_ports (net fab4)) (take n [buf1])) mod W64.
Proof.
  destruct (sim_send_accounts 0 [buf1] fab4 [] _ fab4_ok eq_refl) as (r & f' & frames' & n & E & _ & _ & _ & T & _).
  exists r, f', frames', n. exact (conj E T).
Defined.
Lemma sim_unicast_witness : exists f1 f2 f3 out, sim_send 0 (fab4, [buf1]) = (Ok 1, (f1, [packet_default]))
  /\ network_advance 999 f1 = Ok f2 /\ sim_recv 1 9 (f2, []) = (Ok (zlen out), (f3, out)) /\ (buf1 ∈ out <-> 1000 <= 999).
Proof.
  exact (sim_unicast 0 1 buf1 1 ben fab4 [] _ _ slow 0 999 9 fab4_ok eq_refl eq_refl eq_refl eq_refl eq_refl eq_refl eq_refl
    eq_refl eq_refl (conj eq_refl eq_refl) eq_refl eq_refl ltac:(lia) ltac:(vm_compute; discriminate)).
Defined.
