(* ===== verification/Telemetry.v ===== *)
(** * Telemetry ([src/telemetry.rs]) and its collector ([scripts/telemetry-client.py])

    One application thread and one exporter thread share [Shared]; a state of both is a
    [Telemetry_], and the threads interleave at every access to shared memory.  The exporter's
    position in [export] is its [Phase].  [try_lock .. push .. unlock] of the producer is one
    step, since the exporter, which would wait for the lock, cannot see its parts; the
    exporter's own critical section is not, so that [try_lock] can fail.  The clock and the
    result of the socket are arguments of the exporter's steps; [tl_sent] lists the datagrams
    handed to the socket and [tl_results] whether it took each of them; a datagram that it does not take is not sent
    again.  [tl_accepted] and [tl_refused] record what [record] answered. *)
From Stdlib Require Import ZArith Lia Bool String.
From stdpp Require Import base numbers option list strings.
From S2P Require Import Prelude Addr TcpTypes.
#[local] Open Scope Z_scope.

Definition HEADER : Z := 56.
Definition RECORD : Z := 112.
Definition BATCH : Z := 10.

(** ** Configuration *)
Inductive IpAddr : Type := V4 (a : Z) | V6 (a : Z).
Record SocketAddr : Type := mkSocketAddr { sa_ip : IpAddr; sa_port : Z }.
Definition is_ipv4 (s : SocketAddr) : bool := match sa_ip s with V4 _ => true | V6 _ => false end.
Definition ip_unspecified (i : IpAddr) : bool := match i with V4 a => is_unspecified a | V6 a => a =? 0 end.
Definition ip_multicast (i : IpAddr) : bool := match i with V4 a => is_multicast a | V6 a => Z.shiftr a 120 =? 255 end.
Record TelemetryConfig : Type := mkTelemetryConfig {
  client : SocketAddr; tc_bind : SocketAddr; tc_capacity : Z; export_interval : Z; heartbeat_interval : Z
}.
Definition telemetry_config_new (c : SocketAddr) : TelemetryConfig :=
  mkTelemetryConfig c (mkSocketAddr (if is_ipv4 c then V4 0 else V6 0) 0) 1024 (10 * MILLI) SECOND.
Definition telemetry_valid (c : TelemetryConfig) : bool :=
  negb ((tc_capacity c =? 0) || (1048576 <? tc_capacity c) || (export_interval c =? 0) || (heartbeat_interval c =? 0)
        || (heartbeat_interval c <? export_interval c) || negb (eqb (is_ipv4 (tc_bind c)) (is_ipv4 (client c)))
        || (sa_port (client c) =? 0) || ip_unspecified (sa_ip (client c)) || ip_multicast (sa_ip (client c))).

(** ** The datagram *)
Definition be64 (v : Z) : list Z := be32 (v / W32) ++ be32 (v mod W32).
Definition put (bytes : list Z) (offset value : Z) : outcome (list Z) := copy_at bytes offset (be64 value).
Definition micros (duration : Z) : Z := Z.min (duration / 1000) U64MAX.
Definition state_code (s : TcpState) : Z :=
  match s with
  | SynSent => 0 | SynReceived => 1 | Established => 2 | FinWait1 => 3 | FinWait2 => 4 | CloseWait => 5
  | Closing => 6 | LastAck => 7 | TimeWait => 8 | Closed => 9 | Reset_ => 10 | TimedOut_ => 11 | Failed => 12
  end.
Definition wait_code (w : TcpWait) : Z :=
  match w with
  | Application => 0 | Acknowledgment => 1 | PeerWindow => 2 | CongestionWindow => 3 | FlightLimit => 4
  | WaitDevice => 5 | Handshake => 6 | WaitClosing => 7 | Terminal => 8 | Ready => 9
  end.
Definition metrics (e : TcpEvent) : list Z :=
  let s := ev_status e in
  let f := flow s in
  [cs_send_buffered s; receive_buffered s; congestion_window f; slow_start_threshold f; fs_bytes_in_flight f;
   outstanding_segments f; micros (retransmission_timeout f); fs_timeout_retransmissions f;
   fs_advertised_window f; fs_peer_window f].
(** The loop [put(record, 32 + i * 8, value)], from the [i]-th value on. *)
Fixpoint put_metrics (record : list Z) (i : Z) (values : list Z) : outcome (list Z) :=
  match values with
  | [] => Ok record
  | v :: values => let* record := put record (32 + i * 8) v in put_metrics record (i + 1) values
  end.
Definition encode_record (record : list Z) (e : TcpEvent) : outcome (list Z) :=
  let s := ev_status e in
  let* record := put record 0 (micros (ev_at e)) in
  let* record := put record 8 (ev_connection e) in
  let* record := set_at record 16 (state_code (cs_state s)) in
  let* record := set_at record 17 (wait_code (wait (flow s))) in
  let* record := copy_at record 20 (octets (ip (cs_local s))) in
  let* record := copy_at record 24 (octets (ip (cs_remote s))) in
  let* record := copy_at record 28 (be16 (port (cs_local s))) in
  let* record := copy_at record 30 (be16 (port (cs_remote s))) in
  put_metrics record 0 (metrics e).
(** The loop over the events, from the [index]-th on: each writes its part of [bytes]. *)
Fixpoint encode_records (bytes : list Z) (index : Z) (events : list TcpEvent) : outcome (list Z) :=
  match events with
  | [] => Ok bytes
  | e :: events =>
      let from := HEADER + index * RECORD in
      let* record := slice bytes from (HEADER + (index + 1) * RECORD) in
      let* record := encode_record record e in
      let* bytes := copy_at bytes from record in
      encode_records bytes (index + 1) events
  end.
Record Counters : Type := mkCounters { c_progress : Z; c_dropped : Z; c_errors : Z; c_overwrites : Z }.
(** The bytes that [send] hands to the socket. *)
Definition encode (session : list Z) (sequence : Z) (c : Counters) (events : list TcpEvent) : outcome (list Z) :=
  let bytes := replicate (Z.to_nat (HEADER + RECORD * BATCH)) 0 in
  let* bytes := copy_at bytes 0 [78; 83; 84; 76] in
  let* bytes := set_at bytes 4 1 in
  let* bytes := copy_at bytes 6 (be16 (zlen events)) in
  let* bytes := copy_at bytes 8 session in
  let* bytes := put bytes 16 sequence in
  let* bytes := put bytes 24 (c_progress c) in
  let* bytes := put bytes 32 (c_dropped c) in
  let* bytes := put bytes 40 (c_errors c) in
  let* bytes := put bytes 48 (c_overwrites c) in
  let* bytes := encode_records bytes 0 events in
  slice bytes 0 (HEADER + RECORD * zlen events).

(** ** The threads *)
Record Shared : Type := mkShared {
  tl_records : list TcpEvent; tl_locked : bool; tl_stopped : bool; tl_progress : Z; tl_dropped : Z;
  send_errors : Z; source_overwrites : Z
}.
#[export] Instance eta_Shared : Eta Shared := fun s =>
  mkShared (tl_records s) (tl_locked s) (tl_stopped s) (tl_progress s) (tl_dropped s) (send_errors s) (source_overwrites s).
(** Where the exporter is: before loading [stopped], before taking the lock, before and after
    the swap, before the next of the datagrams that are left, within [send] with the counters
    loaded so far, parked, or gone. *)
Inductive Phase : Type :=
| Looping
| Locking (stopping : bool)
| Holding (stopping : bool)
| Swapped (stopping : bool)
| Batching (stopping : bool) (todo : list (list TcpEvent))
| Sending (stopping : bool) (batch : list TcpEvent) (number : Z) (loaded : list Z) (todo : list (list TcpEvent))
| Parked
| Finished.
Record Telemetry_ : Type := mkTelemetry {
  tl_shared : Shared; tl_phase : Phase; tl_pending : list TcpEvent; tl_sequence : Z; tl_heartbeat : Z;
  tl_sent : list (list Z); tl_results : list bool; tl_accepted : list TcpEvent; tl_refused : Z
}.
#[export] Instance eta_Telemetry : Eta Telemetry_ := fun t =>
  mkTelemetry (tl_shared t) (tl_phase t) (tl_pending t) (tl_sequence t) (tl_heartbeat t) (tl_sent t) (tl_results t)
    (tl_accepted t) (tl_refused t).
Implicit Types t : Telemetry_.

(** [now] is the exporter's first look at the clock. *)
Definition telemetry_start (c : TelemetryConfig) (system : outcome (list Z)) (now : Z) : outcome (list Z * Telemetry_) :=
  if negb (telemetry_valid c) then Err InvalidInput
  else
    let* session := system in
    Ok (session, mkTelemetry (mkShared [] false false 0 0 0 0) Looping [] 0 now [] [] [] 0).

(** *** The producer *)
Definition tl_record (capacity : Z) (e : TcpEvent) (s : Shared) : bool * Shared :=
  if negb (tl_locked s) && (zlen (tl_records s) <? capacity) then (true, s <| tl_records ::= fun l => l ++ [e] |>)
  else (false, s <| tl_dropped ::= count 1 |>).
Definition do_record (capacity : Z) (e : TcpEvent) t : Telemetry_ :=
  let '(r, s) := tl_record capacity e (tl_shared t) in
  if r then t <| tl_shared := s |> <| tl_accepted ::= fun l => l ++ [e] |>
  else t <| tl_shared := s |> <| tl_refused ::= Z.succ |>.
(** [progress]: two accesses to shared memory. *)
Definition progress_count t : Telemetry_ := t <| tl_shared ::= fun s => s <| tl_progress ::= count 1 |> |>.
Definition progress_store (overwrites : Z) t : Telemetry_ := t <| tl_shared ::= fun s => s <| source_overwrites := overwrites |> |>.
(** [shutdown] and [Drop]. *)
Definition tl_stop t : Telemetry_ := t <| tl_shared ::= fun s => s <| tl_stopped := true |> |>.
Definition exporter_finished t : bool := match tl_phase t with Finished => true | _ => false end.

(** *** The exporter *)
Fixpoint chunks_loop (fuel : nat) (n : nat) (l : list TcpEvent) : list (list TcpEvent) :=
  match fuel, l with
  | S fuel, _ :: _ => take n l :: chunks_loop fuel n (drop n l)
  | _, _ => []
  end.
(** [l.chunks(n)] *)
Definition chunks (n : Z) (l : list TcpEvent) : list (list TcpEvent) := chunks_loop (length l) (Z.to_nat n) l.
Definition load_next (loaded : list Z) (s : Shared) : Z :=
  match length loaded with
  | O => tl_progress s | 1%nat => tl_dropped s | 2%nat => send_errors s | _ => source_overwrites s
  end.
(** One access of [export] to shared memory, the socket or the clock; [ok] says whether the
    socket takes the whole datagram. *)
Definition export_step (c : TelemetryConfig) (session : list Z) (now : Z) (ok : bool) t : outcome Telemetry_ :=
  let s := tl_shared t in
  match tl_phase t with
  | Looping => Ok (t <| tl_phase := Locking (tl_stopped s) |>)
  | Locking stopping => Ok (t <| tl_phase := Holding stopping |> <| tl_shared := s <| tl_locked := true |> |>)
  | Holding stopping =>
      Ok (t <| tl_phase := Swapped stopping |> <| tl_pending := tl_records s |>
            <| tl_shared := s <| tl_records := tl_pending t |> <| tl_locked := false |> |>)
  | Swapped stopping =>
      let beat := bool_decide (tl_pending t = []) && ((tl_heartbeat t <=? now) || stopping) in
      Ok (t <| tl_phase := Batching stopping ((if beat then [[]] else []) ++ chunks BATCH (tl_pending t)) |>)
  | Batching stopping (batch :: todo) =>
      Ok (t <| tl_phase := Sending stopping batch (tl_sequence t) [] todo |>
            <| tl_sequence ::= fun n => (n + 1) mod W64 |>)
  | Batching stopping [] => Ok (t <| tl_pending := [] |> <| tl_phase := if stopping then Finished else Parked |>)
  | Sending stopping batch number ([progress; dropped; errors; overwrites] as loaded) todo =>
      let* bytes := encode session number (mkCounters progress dropped errors overwrites) batch in
      Ok (t <| tl_phase := Batching stopping todo |> <| tl_heartbeat := now + heartbeat_interval c |>
            <| tl_sent ::= fun l => l ++ [bytes] |> <| tl_results ::= fun l => l ++ [ok] |>
            <| tl_shared := if ok then s else s <| send_errors ::= count 1 |> |>)
  | Sending stopping batch number loaded todo =>
      Ok (t <| tl_phase := Sending stopping batch number (loaded ++ [load_next loaded s]) todo |>)
  | Parked => Ok (t <| tl_phase := Looping |>)
  | Finished => Ok t
  end.

(** ** The collector *)
Definition STATES : list TcpState :=
  [SynSent; SynReceived; Established; FinWait1; FinWait2; CloseWait; Closing; LastAck; TimeWait; Closed; Reset_; TimedOut_; Failed].
Definition WAITS : list TcpWait :=
  [Application; Acknowledgment; PeerWindow; CongestionWindow; FlightLimit; WaitDevice; Handshake; WaitClosing; Terminal; Ready].
Definition METRICS : list string :=
  ["send_buffered"; "receive_buffered"; "cwnd"; "ssthresh"; "bytes_in_flight"; "outstanding_segments"; "rto_us";
   "timeout_retransmissions"; "receive_window"; "peer_window"]%string.
(** Big-endian [struct.unpack_from]; the caller has checked the length. *)
Definition unpack (size : nat) (data : list Z) (offset : Z) : Z :=
  foldl (fun v b => v * 256 + b) 0 (take size (drop (Z.to_nat offset) data)).
Record ClientRecord : Type := mkClientRecord {
  cr_timestamp : Z; cr_connection : Z; cr_state : TcpState; cr_wait : TcpWait;
  cr_local : SocketAddrV4; cr_remote : SocketAddrV4; cr_metrics : list (string * Z)
}.
Definition decode_record (r : list Z) : option ClientRecord :=
  match STATES !! Z.to_nat (unpack 1 r 16), WAITS !! Z.to_nat (unpack 1 r 17) with
  | Some s, Some w =>
      Some (mkClientRecord (unpack 8 r 0) (unpack 8 r 8) s w
              (mkSock (unpack 4 r 20) (unpack 2 r 28)) (mkSock (unpack 4 r 24) (unpack 2 r 30))
              (zip METRICS ((fun i => unpack 8 r (32 + 8 * Z.of_nat i)) <$> seq 0 10)))
  | _, _ => None
  end.
Record ClientPacket : Type := mkClientPacket {
  cp_session : Z; cp_sequence : Z; cp_counters : Counters; cp_records : list ClientRecord
}.
Definition client_decode (data : list Z) : option ClientPacket :=
  if (zlen data <? 56) || negb (list_eqb (take 6 data) [78; 83; 84; 76; 1; 0]) then None
  else
    let n := unpack 2 data 6 in
    if (10 <? n) || negb (zlen data =? 56 + n * 112) then None
    else
      records ← mapM (fun i => decode_record (take 112 (drop (Z.to_nat (56 + Z.of_nat i * 112)) data))) (seq 0 (Z.to_nat n));
      Some (mkClientPacket (unpack 8 data 8) (unpack 8 data 16)
              (mkCounters (unpack 8 data 24) (unpack 8 data 32) (unpack 8 data 40) (unpack 8 data 48)) records).
