(* ===== verification/TelemetryProps.v ===== *)
(** * Telemetry: properties

    The datagram against the collector's decoder, and the two threads in every interleaving. *)
From Stdlib Require Import ZArith Lia Bool String.
From stdpp Require Import base numbers option list strings relations.
From S2P Require Import Prelude Addr TcpTypes Telemetry.
#[local] Open Scope Z_scope.

(** ** What the writes produce *)
Lemma zlen_be64 v : zlen (be64 v) = 8.
Proof. done. Qed.
Lemma copy_next l a src (m n : nat) :
  a = zlen l -> length src = m -> copy_at (l ++ replicate (m + n) 0) a src = Ok ((l ++ src) ++ replicate n 0).
Proof.
  intros -> <-. rewrite copy_at_ok by (unfold zlen; rewrite ?length_app, ?length_replicate; lia). f_equal. rewrite take_app_length' by (unfold zlen; lia).
  rewrite drop_app_ge by (unfold zlen; lia). rewrite drop_replicate, <- app_assoc. do 3 f_equal. unfold zlen. lia.
Qed.
Lemma set_next l a v (n : nat) : a = zlen l -> set_at (l ++ replicate (1 + n) 0) a v = Ok ((l ++ [v]) ++ replicate n 0).
Proof.
  intros ->. rewrite set_at_ok by (unfold zlen; rewrite ?length_app, ?length_replicate; lia). f_equal. rewrite insert_app_r_alt by (unfold zlen; lia).
  replace (Z.to_nat (zlen l) - length l)%nat with O by (unfold zlen; lia). by rewrite <- app_assoc.
Qed.
Lemma put_metrics_spec l i values n :
  zlen l = 32 + i * 8 ->
  put_metrics (l ++ replicate (8 * length values + n) 0) i values = Ok ((l ++ concat (be64 <$> values)) ++ replicate n 0).
Proof.
  revert l i. induction values as [|v values IH]; intros l i L; cbn [put_metrics]; [change (concat _) with (@nil Z); by rewrite app_nil_r|].
  unfold put. replace (8 * length (v :: values) + n)%nat with (8 + (8 * length values + n))%nat by (cbn [length]; lia).
  rewrite copy_next by done. cbn [obind]. rewrite IH by (rewrite zlen_app, zlen_be64; lia). rewrite fmap_cons. cbn [concat]. by rewrite !app_assoc.
Qed.
Definition record_pieces (e : TcpEvent) : list (list Z) :=
  let s := ev_status e in
  [be64 (micros (ev_at e)); be64 (ev_connection e); [state_code (cs_state s)]; [wait_code (wait (flow s))]; [0; 0];
   octets (ip (cs_local s)); octets (ip (cs_remote s)); be16 (port (cs_local s)); be16 (port (cs_remote s))]
  ++ (be64 <$> metrics e).
Ltac next m n :=
  match goal with |- context [?l ++ replicate ?k 0] => change (replicate k 0) with (replicate (m + n) 0) end;
  first [rewrite (copy_next _ _ _ m n) by done | rewrite (set_next _ _ _ n) by done]; cbn [obind].
Lemma encode_record_spec e : encode_record (replicate 112 0) e = Ok (concat (record_pieces e)).
Proof.
  unfold encode_record, put. change (replicate 112 0) with ([] ++ replicate 112 0).
  next 8%nat 104%nat. next 8%nat 96%nat. next 1%nat 95%nat. next 1%nat 94%nat.
  match goal with |- context [?l ++ replicate 94 0] => replace (l ++ replicate 94 0) with ((l ++ [0; 0]) ++ replicate 92 0) by (by rewrite <- app_assoc) end.
  next 4%nat 88%nat. next 4%nat 84%nat. next 2%nat 82%nat. next 2%nat 80%nat.
  change 80%nat with (8 * length (metrics e) + 0)%nat. rewrite put_metrics_spec by done. cbn [replicate]. rewrite app_nil_r.
  reflexivity.
Qed.
Lemma record_size e : length (concat (record_pieces e)) = 112%nat.
Proof. done. Qed.
Definition record_bytes (e : TcpEvent) : list Z := concat (record_pieces e).
Lemma encode_records_spec l index events n :
  zlen l = HEADER + index * RECORD -> 0 <= index ->
  encode_records (l ++ replicate (112 * length events + n) 0) index events
  = Ok ((l ++ concat (record_bytes <$> events)) ++ replicate n 0).
Proof.
  revert l index. induction events as [|e events IH]; intros l index L Hi; cbn [encode_records]; [change (concat _) with (@nil Z); by rewrite app_nil_r|].
  replace (112 * length (e :: events) + n)%nat with (112 + (112 * length events + n))%nat by (cbn [length]; lia).
  unfold HEADER, RECORD in *. rewrite slice_ok by (autorewrite with zlen; pose_zlen; lia). cbn [obind].
  rewrite drop_app_length' by (unfold zlen in L; lia). rewrite take_replicate.
  replace (Z.to_nat (56 + (index + 1) * 112 - (56 + index * 112)) `min` (112 + (112 * length events + n)))%nat with 112%nat by lia.
  rewrite encode_record_spec. cbn [obind]. rewrite copy_next by (lia || done). cbn [obind].
  rewrite IH by (try rewrite zlen_app; unfold zlen in *; rewrite ?record_size; lia). rewrite fmap_cons. cbn [concat]. unfold record_bytes. by rewrite !app_assoc.
Qed.
Lemma records_size events : length (concat (record_bytes <$> events)) = (112 * length events)%nat.
Proof.
  induction events as [|e l IH]; [done|]. rewrite fmap_cons. cbn [concat]. rewrite length_app, IH. unfold record_bytes.
  rewrite record_size. cbn [length]. lia.
Qed.
Definition header_pieces (session : list Z) (sequence : Z) (c : Counters) (n : Z) : list (list Z) :=
  [[78; 83; 84; 76; 1; 0]; be16 n; session; be64 sequence; be64 (c_progress c); be64 (c_dropped c); be64 (c_errors c); be64 (c_overwrites c)].
Ltac next_at E k n :=
  change (replicate k 0) with (replicate (8 + n) 0); rewrite copy_next by (unfold zlen; rewrite ?length_app, ?E; done); cbn [obind].
Lemma encode_spec session sequence c events :
  length session = 8%nat -> zlen events <= BATCH ->
  encode session sequence c events
  = Ok (concat (header_pieces session sequence c (zlen events)) ++ concat (record_bytes <$> events)).
Proof.
  intros Ls Le. unfold BATCH in Le. unfold encode, put. cbv zeta. change (Z.to_nat (HEADER + RECORD * BATCH)) with 1176%nat.
  change (replicate 1176 0) with ([] ++ replicate (4 + 1172) 0). rewrite copy_next by done. cbn [obind].
  change (replicate 1172 0) with (replicate (1 + 1171) 0). rewrite set_next by done. cbn [obind].
  replace ((([] ++ [78; 83; 84; 76]) ++ [1]) ++ replicate 1171 0) with ([78; 83; 84; 76; 1; 0] ++ replicate (2 + 1168) 0) by done.
  rewrite copy_next by done. cbn [obind]. change (replicate 1168 0) with (replicate (8 + 1160) 0). rewrite copy_next by done. cbn [obind].
  next_at Ls 1160%nat 1152%nat. next_at Ls 1152%nat 1144%nat. next_at Ls 1144%nat 1136%nat. next_at Ls 1136%nat 1128%nat. next_at Ls 1128%nat 1120%nat.
  replace 1120%nat with (112 * length events + (1120 - 112 * length events))%nat by (unfold zlen in Le; lia).
  rewrite encode_records_spec by (unfold zlen, HEADER; rewrite ?length_app, ?Ls; done). cbn [obind].
  set (bs := concat (record_bytes <$> events)). assert (length bs = (112 * length events)%nat) as Lb by apply records_size.
  rewrite slice_ok by (unfold zlen, HEADER, RECORD in *; rewrite ?length_app, ?length_replicate, ?Ls, ?Lb; cbn [length be16 be64 be32 app]; lia).
  f_equal. change (Z.to_nat 0) with O. rewrite drop_0, take_app_length'.
  - unfold header_pieces. cbn [concat]. by rewrite <- !app_assoc, ?app_nil_r.
  - unfold zlen, HEADER, RECORD. rewrite ?length_app, ?Ls, ?Lb. cbn [length be16 be64 be32 app]. lia.
Qed.

(** ** What the collector reads *)
Definition value (l : list Z) : Z := foldl (fun v b => v * 256 + b) 0 l.
Lemma value_be16 v : 0 <= v < W16 -> value (be16 v) = v.
Proof. intros H. unfold value. cbn. rewrite Z.add_0_l. exact (de16_be16 v H). Qed.
Lemma value_be32 v : 0 <= v < W32 -> value (be32 v) = v.
Proof. intros H. exact (de32_be32 v H). Qed.
Lemma value_app l k : value (l ++ k) = value l * 256 ^ zlen k + value k.
Proof.
  revert k. apply rev_ind; [rewrite app_nil_r; change (zlen []) with 0; cbn; lia|]. intros b k IH.
  rewrite app_assoc. unfold value in *. rewrite !foldl_snoc, IH, zlen_app. change (zlen [b]) with 1. rewrite Z.pow_add_r by (pose_zlen; lia). lia.
Qed.
Lemma value_be64 v : 0 <= v < W64 -> value (be64 v) = v.
Proof.
  intros H. unfold be64. rewrite value_app. change (zlen (be32 (v mod W32))) with 4. unfold W64, W32 in *.
  rewrite !value_be32; [|apply Z.mod_pos_bound; done|split; [apply Z.div_pos; lia|apply Z.div_lt_upper_bound; unfold W32; lia]].
  change (256 ^ 4) with 4294967296. pose proof (Z.div_mod v 4294967296). lia.
Qed.
(** A field of a message that is made of pieces. *)
Lemma piece_at (pieces : list (list Z)) rest i p :
  pieces !! i = Some p -> take (length p) (drop (length (concat (take i pieces))) (concat pieces ++ rest)) = p.
Proof.
  intros E. rewrite <- (take_drop_middle _ _ _ E) at 2. rewrite concat_app. cbn [concat].
  rewrite <- !app_assoc, drop_app_length. by rewrite take_app_length.
Qed.
Lemma unpack_piece (pieces : list (list Z)) rest i p off size :
  pieces !! i = Some p -> off = zlen (concat (take i pieces)) -> size = length p ->
  unpack size (concat pieces ++ rest) off = value p.
Proof. intros E -> ->. unfold unpack, zlen. rewrite Nat2Z.id, (piece_at _ _ _ _ E). done. Qed.
Record event_ok (e : TcpEvent) : Prop := {
  eo_at : 0 <= ev_at e;
  eo_connection : 0 <= ev_connection e < W64;
  eo_local : sock_ok (cs_local (ev_status e));
  eo_remote : sock_ok (cs_remote (ev_status e));
  eo_metrics : Forall (fun v => 0 <= v < W64) (metrics e)
}.
(** What the collector should report of an event. *)
Definition client_view (e : TcpEvent) : ClientRecord :=
  let s := ev_status e in
  mkClientRecord (micros (ev_at e)) (ev_connection e) (cs_state s) (wait (flow s)) (cs_local s) (cs_remote s)
    [("send_buffered", cs_send_buffered s); ("receive_buffered", receive_buffered s); ("cwnd", congestion_window (flow s));
     ("ssthresh", slow_start_threshold (flow s)); ("bytes_in_flight", fs_bytes_in_flight (flow s));
     ("outstanding_segments", outstanding_segments (flow s)); ("rto_us", micros (retransmission_timeout (flow s)));
     ("timeout_retransmissions", fs_timeout_retransmissions (flow s)); ("receive_window", fs_advertised_window (flow s));
     ("peer_window", fs_peer_window (flow s))]%string.
Lemma micros_range d : 0 <= d -> 0 <= micros d < W64.
Proof. intros H. unfold micros, U64MAX, W64. pose proof (Z.div_pos d 1000 H). lia. Qed.
Lemma states_code s : STATES !! Z.to_nat (state_code s) = Some s.
Proof. by destruct s. Qed.
Lemma waits_code w : WAITS !! Z.to_nat (wait_code w) = Some w.
Proof. by destruct w. Qed.
Lemma decode_record_spec e : event_ok e -> decode_record (record_bytes e) = Some (client_view e).
Proof.
  intros [H1 H2 H3 H4 H5]. unfold decode_record, record_bytes. rewrite <- (app_nil_r (concat (record_pieces e))).
  rewrite (unpack_piece (record_pieces e) [] 2 [state_code (cs_state (ev_status e))] 16 1) by done.
  rewrite (unpack_piece (record_pieces e) [] 3 [wait_code (wait (flow (ev_status e)))] 17 1) by done.
  change (value [?v]) with (0 * 256 + v). rewrite !Z.add_0_l, states_code, waits_code. unfold client_view. f_equal.
  rewrite (unpack_piece (record_pieces e) [] 0 (be64 (micros (ev_at e))) 0 8), value_be64 by (done || by apply micros_range).
  rewrite (unpack_piece (record_pieces e) [] 1 (be64 (ev_connection e)) 8 8), value_be64 by done.
  rewrite (unpack_piece (record_pieces e) [] 5 (octets (ip (cs_local (ev_status e)))) 20 4) by done.
  rewrite (unpack_piece (record_pieces e) [] 6 (octets (ip (cs_remote (ev_status e)))) 24 4) by done.
  rewrite (unpack_piece (record_pieces e) [] 7 (be16 (port (cs_local (ev_status e)))) 28 2) by done.
  rewrite (unpack_piece (record_pieces e) [] 8 (be16 (port (cs_remote (ev_status e)))) 30 2) by done.
  unfold octets. rewrite !value_be32, !value_be16 by (apply H3 || apply H4). f_equal; [by destruct (cs_local _)|by destruct (cs_remote _)|].
  change (zip METRICS ((fun i => unpack 8 (concat (record_pieces e) ++ []) (32 + 8 * Z.of_nat i)) <$> seq 0 10)
    = zip METRICS ((fun i => nth i (metrics e) 0) <$> seq 0 10)). f_equal. apply list_fmap_ext. intros k i Hk. apply lookup_seq in Hk as [-> Hk].
  destruct (lookup_lt_is_Some_2 (metrics e) k Hk) as [v Hv]. rewrite (unpack_piece (record_pieces e) [] (9 + k) (be64 v)); [| | |done].
  - rewrite Nat.add_0_l, (nth_lookup_Some _ _ _ _ Hv). apply value_be64. rewrite Forall_lookup in H5. eauto.
  - unfold record_pieces. rewrite lookup_app_r by (cbn; lia). rewrite list_lookup_fmap. cbn [length]. rewrite Nat.add_comm, Nat.add_sub, Hv. done.
  - do 10 (destruct k as [|k]; [done|]). lia.
Qed.

Record sent_ok (session : list Z) (sequence : Z) (c : Counters) (events : list TcpEvent) : Prop := {
  se_session : length session = 8%nat;
  se_sequence : 0 <= sequence < W64;
  se_counters : Forall (fun v => 0 <= v < W64) [c_progress c; c_dropped c; c_errors c; c_overwrites c];
  se_events : Forall event_ok events;
  se_batch : zlen events <= BATCH
}.
Lemma client_decode_spec session sequence c events :
  sent_ok session sequence c events ->
  client_decode (concat (header_pieces session sequence c (zlen events)) ++ concat (record_bytes <$> events))
  = Some (mkClientPacket (value session) sequence c (client_view <$> events)).
Proof.
  intros [Hs Hq Hc He Hb]. set (hp := header_pieces session sequence c (zlen events)). set (rs := concat (record_bytes <$> events)).
  assert (length (concat hp) = 56%nat) as Lh.
  { unfold hp, header_pieces. cbn [concat]. rewrite !length_app, Hs. done. }
  assert (zlen (concat hp ++ rs) = 56 + zlen events * 112) as L.
  { unfold zlen. rewrite length_app, Lh. unfold rs. rewrite records_size. lia. }
  unfold client_decode. unfold BATCH in Hb. pose proof (zlen_nonneg events) as Hn. rewrite L, (proj2 (Z.ltb_ge _ _)) by lia.
  change (take 6 (concat hp ++ rs)) with [78; 83; 84; 76; 1; 0]. cbn [list_eqb negb orb Z.eqb].
  assert (forall i p off size, hp !! i = Some p -> off = zlen (concat (take i hp)) -> size = length p -> unpack size (concat hp ++ rs) off = value p) as U
    by (intros; by eapply unpack_piece).
  rewrite (U 1%nat (be16 (zlen events)) 6 2%nat), value_be16 by (done || (unfold W16; lia)).
  rewrite (proj2 (Z.ltb_ge _ _)), Z.eqb_refl by lia. cbn [orb negb].
  assert (mapM (fun i => decode_record (take 112 (drop (Z.to_nat (56 + Z.of_nat i * 112)) (concat hp ++ rs)))) (seq 0 (Z.to_nat (zlen events)))
    = Some (client_view <$> events)) as ->.
  { apply mapM_Some. apply Forall2_same_length_lookup. unfold zlen. rewrite length_seq, length_fmap. split; [lia|].
    intros i k v Hk Hv. apply lookup_seq in Hk as [-> Hk]. rewrite list_lookup_fmap in Hv. apply fmap_Some in Hv as (e & Ee & ->).
    rewrite <- (decode_record_spec e) by (rewrite Forall_lookup in He; eauto). f_equal.
    pose proof (piece_at (concat hp :: (record_bytes <$> events)) [] (S i) (record_bytes e)) as P.
    change ((concat hp :: (record_bytes <$> events)) !! S i) with ((record_bytes <$> events) !! i) in P.
    rewrite list_lookup_fmap, Ee in P. specialize (P eq_refl). rewrite app_nil_r in P.
    cbn [firstn concat] in P. rewrite length_app, Lh, <- fmap_take, records_size, length_take in P.
    change (length (record_bytes e)) with 112%nat in P. rewrite <- P. unfold rs. f_equal. f_equal. apply lookup_lt_Some in Ee. lia. }
  unfold mbind, option_bind. rewrite (U 2%nat session 8 8%nat) by done.
  assert (forall i v off, hp !! i = Some (be64 v) -> off = zlen (concat (take i hp)) -> 0 <= v < W64 -> unpack 8 (concat hp ++ rs) off = v) as V.
  { intros i v off E1 E2 E3. rewrite (U i (be64 v) off 8%nat) by done. by apply value_be64. }
  repeat (apply Forall_cons in Hc as [? Hc]).
  rewrite (V 3%nat sequence 16), (V 4%nat (c_progress c) 24), (V 5%nat (c_dropped c) 32), (V 6%nat (c_errors c) 40), (V 7%nat (c_overwrites c) 48);
    try done; try (unfold hp, header_pieces; cbn [take concat]; unfold zlen; rewrite ?length_app, ?Hs; done).
  by destruct c.
Qed.

(** ** The threads *)
Lemma chunks_spec n l : 0 < n ->
  concat (chunks n l) = l /\ Forall (fun b => zlen b <= n) (chunks n l) /\ (length (chunks n l) <= length l)%nat.
Proof.
  intros Hn. unfold chunks. assert (forall fuel l, (length l <= fuel)%nat ->
    concat (chunks_loop fuel (Z.to_nat n) l) = l /\ Forall (fun b => zlen b <= n) (chunks_loop fuel (Z.to_nat n) l)
    /\ (length (chunks_loop fuel (Z.to_nat n) l) <= length l)%nat) as H; [|by apply H].
  clear l. induction fuel as [|fuel IH]; intros l Hl; [by destruct l; [|cbn in Hl; lia]|].
  destruct l as [|x l]; [done|]. cbn [chunks_loop]. destruct (IH (drop (Z.to_nat n) (x :: l))) as (E & F & L).
  { rewrite length_drop. cbn [length] in *. lia. }
  split; [cbn [concat]; rewrite E; apply take_drop|]. split; [constructor; [rewrite zlen_take; lia|done]|].
  rewrite length_drop in L. cbn [length] in *. lia.
Qed.
Section Threads.
Context (c : TelemetryConfig) (session : list Z).
Hypothesis Hcap : 0 <= tc_capacity c.
Hypothesis Hsession : length session = 8%nat.
Implicit Types t : Telemetry_.

(** One step of either thread. *)
Inductive producer_step : Telemetry_ -> Telemetry_ -> Prop :=
| ps_record e t : event_ok e -> producer_step t (do_record (tc_capacity c) e t)
| ps_count t : producer_step t (progress_count t)
| ps_store v t : 0 <= v < W64 -> producer_step t (progress_store v t)
| ps_stop t : producer_step t (tl_stop t).
(** [n] steps of the exporter among any steps of the producer. *)
Inductive tl_run : nat -> Telemetry_ -> Telemetry_ -> Prop :=
| run_refl t : tl_run 0 t t
| run_produce n t t1 t2 : tl_run n t t1 -> producer_step t1 t2 -> tl_run n t t2
| run_export n t t1 t2 now ok : tl_run n t t1 -> export_step c session now ok t1 = Ok t2 -> tl_run (S n) t t2.

(** The events that left the buffer and are not in a datagram yet. *)
Definition in_hand t : list TcpEvent :=
  match tl_phase t with
  | Swapped _ => tl_pending t
  | Batching _ todo => concat todo
  | Sending _ batch _ _ todo => batch ++ concat todo
  | _ => []
  end.
Definition in_u64 (v : Z) : Prop := 0 <= v < W64.
(** The most datagrams of one round. *)
Definition rounds : nat := S (Z.to_nat (tc_capacity c)).
Definition phase_ok t : Prop :=
  let n := Z.of_nat (length (tl_sent t)) in
  match tl_phase t with
  | Swapped _ => zlen (tl_pending t) <= tc_capacity c /\ tl_sequence t = n mod W64
  | Batching _ todo => Forall (fun b => zlen b <= BATCH) todo /\ (length todo <= rounds)%nat /\ tl_sequence t = n mod W64
  | Sending _ batch number loaded todo =>
      zlen batch <= BATCH /\ Forall (fun b => zlen b <= BATCH) todo /\ (S (length todo) <= rounds)%nat
      /\ number = n mod W64 /\ tl_sequence t = (n + 1) mod W64 /\ (length loaded <= 4)%nat /\ Forall in_u64 loaded
  | _ => tl_pending t = [] /\ tl_sequence t = n mod W64
  end.
(** The [i]-th datagram carries the batch [b]. *)
Definition carries (i : nat) (bytes : list Z) (b : list TcpEvent) : Prop :=
  exists cs, sent_ok session (Z.of_nat i mod W64) cs b /\ encode session (Z.of_nat i mod W64) cs b = Ok bytes.
Definition logged t (batches : list (list TcpEvent)) : Prop :=
  length batches = length (tl_sent t)
  /\ forall i b bytes, batches !! i = Some b -> tl_sent t !! i = Some bytes -> carries i bytes b.
Record tl_inv t : Prop := {
  ti_log : exists batches, logged t batches /\ concat batches ++ in_hand t ++ tl_records (tl_shared t) = tl_accepted t;
  ti_events : Forall event_ok (tl_accepted t);
  ti_bound : zlen (tl_records (tl_shared t)) <= tc_capacity c;
  ti_dropped : tl_dropped (tl_shared t) = tl_refused t mod W64;
  ti_counters : Forall in_u64 [tl_progress (tl_shared t); tl_dropped (tl_shared t); send_errors (tl_shared t); source_overwrites (tl_shared t)];
  ti_lock : tl_locked (tl_shared t) = match tl_phase t with Holding _ => true | _ => false end;
  ti_phase : phase_ok t;
  ti_results : length (tl_results t) = length (tl_sent t);
  ti_errors : send_errors (tl_shared t) = zlen (List.filter negb (tl_results t)) mod W64
}.
Lemma count_u64 n v : in_u64 (count n v).
Proof. unfold in_u64, count. apply Z.mod_pos_bound. done. Qed.
Lemma producer_inv t t' : producer_step t t' -> tl_inv t -> tl_inv t'.
Proof.
  intros [e u He|u|v u Hv|u] [L E B D C K P T X].
  - unfold do_record, tl_record. destruct (negb (tl_locked (tl_shared u)) && (zlen (tl_records (tl_shared u)) <? tc_capacity c)) eqn:Er.
    + apply andb_true_iff in Er as [_ Er]. bools. constructor; try done; cbn.
      * destruct L as (bs & Lg & Eq). exists bs. split; [done|]. by rewrite <- Eq, <- !app_assoc.
      * apply Forall_app. split; [done|]. constructor; [done|constructor].
      * rewrite zlen_app. change (zlen [e]) with 1. lia.
    + constructor; try done; cbn.
      * rewrite D. unfold count. by rewrite Zplus_mod_idemp_l.
      * repeat (apply Forall_cons in C as [? C]). repeat (constructor; [done || apply count_u64|]); constructor.
  - constructor; try done. cbn. repeat (apply Forall_cons in C as [? C]). repeat (constructor; [done || apply count_u64|]); constructor.
  - constructor; try done. cbn. repeat (apply Forall_cons in C as [? C]). repeat (constructor; [done|]). constructor.
  - by constructor.
Qed.
Lemma logged_snoc t t' bs b bytes :
  logged t bs -> tl_sent t' = tl_sent t ++ [bytes] -> carries (length (tl_sent t)) bytes b -> logged t' (bs ++ [b]).
Proof.
  intros [L H] E Hc. split; [rewrite E, !length_app, L; done|]. intros i b' bytes' Hb Hs. rewrite E in Hs.
  apply lookup_snoc_Some in Hb as [[Hi Hb]|[-> <-]]; apply lookup_snoc_Some in Hs as [[Hj Hs]|[Ej <-]]; try lia; [by eapply H|]. by rewrite L.
Qed.
Lemma succ_mod n : (n mod W64 + 1) mod W64 = (n + 1) mod W64.
Proof. apply Zplus_mod_idemp_l. Qed.
Lemma load_next_u64 loaded s :
  Forall in_u64 [tl_progress s; tl_dropped s; send_errors s; source_overwrites s] -> in_u64 (load_next loaded s).
Proof. intros C. repeat (apply Forall_cons in C as [? C]). unfold load_next. by destruct (length loaded) as [|[|[|]]]. Qed.
(** The exporter never stops short, and its steps keep the invariant. *)
Lemma export_inv now ok t : tl_inv t -> exists t', export_step c session now ok t = Ok t' /\ tl_inv t'.
Proof.
  intros [L E B D C K P T X]. unfold export_step, phase_ok, in_hand in *.
  destruct (tl_phase t) as [|st|st|st|st todo|st batch number loaded todo| |] eqn:Ep.
  - eexists. split; [done|]. constructor; try done; exact L.
  - eexists. split; [done|]. constructor; try done; exact L.
  - destruct P as [P1 P2]. eexists. split; [done|]. constructor; try done; cbn.
    + destruct L as (bs & Lg & Eq). exists bs. split; [done|]. rewrite P1, app_nil_r. exact Eq.
    + rewrite P1. exact Hcap.
  - destruct P as [P1 P2]. eexists. split; [done|]. destruct (chunks_spec BATCH (tl_pending t)) as (X1 & X2 & X3); [done|].
    set (beat := bool_decide _ && _). constructor; try done; cbn.
    + destruct L as (bs & Lg & Eq). exists bs. split; [done|]. rewrite <- Eq. unfold in_hand. cbn. rewrite concat_app, X1.
      by destruct beat.
    + split; [apply Forall_app; split; [|done]; destruct beat; [constructor; [done|]|]; constructor|]. split; [|done].
      rewrite length_app. unfold rounds, zlen in *. destruct beat; cbn [length]; lia.
  - destruct todo as [|batch todo].
    + eexists. split; [done|]. destruct P as (_ & _ & P3). constructor; try done; cbn; unfold in_hand, phase_ok; cbn; destruct st; done.
    + destruct P as (P1 & P2 & P3). apply Forall_cons in P1 as [P0 P1]. eexists. split; [done|]. constructor; try done; cbn.
      split_and!; try done; [rewrite P3; apply succ_mod|lia].
  - destruct P as (P1 & P2 & P3 & P4 & P5 & P6 & P7).
    assert ((length loaded < 4)%nat ->
      exists t', Ok (t <| tl_phase := Sending st batch number (loaded ++ [load_next loaded (tl_shared t)]) todo |>) = Ok t' /\ tl_inv t') as More.
    { intros Hl. eexists. split; [done|]. constructor; try done. cbn. split_and!; try done; [rewrite length_app; cbn; lia|].
      apply Forall_app. split; [done|]. constructor; [by apply load_next_u64|constructor]. }
    destruct loaded as [|a [|b [|d [|e [|]]]]]; try (apply More; cbn; lia); [|cbn in P6; lia].
    assert (Forall event_ok batch) as Fb.
    { destruct L as (bs & _ & Eq). rewrite <- Eq in E. rewrite !Forall_app in E. apply E. }
    assert (sent_ok session number (mkCounters a b d e) batch) as So.
    { constructor; try done. subst number. apply Z.mod_pos_bound. done. }
    pose proof (encode_spec session number (mkCounters a b d e) batch Hsession P1) as En. rewrite En. cbn [obind].
    set (bytes := concat _ ++ concat _) in *. eexists. split; [done|]. constructor; cbn.
    + destruct L as (bs & Lg & Eq). exists (bs ++ [batch]). split.
      * eapply (logged_snoc t); [done|done|]. exists (mkCounters a b d e). rewrite <- P4. done.
      * rewrite <- Eq, concat_app. cbn [concat]. unfold in_hand. cbn. rewrite app_nil_r, <- !app_assoc. by destruct ok.
    + done.
    + by destruct ok.
    + by destruct ok.
    + destruct ok; [done|]. cbn. repeat (apply Forall_cons in C as [? C]). repeat (constructor; [done || apply count_u64|]); constructor.
    + by destruct ok.
    + split_and!; [done|lia|]. rewrite length_app. cbn. rewrite P5. f_equal. lia.
    + by rewrite !length_app, T.
    + rewrite List.filter_app, zlen_app. destruct ok; cbn.
      * change (zlen []) with 0. by rewrite Z.add_0_r.
      * rewrite X. unfold count. by rewrite Zplus_mod_idemp_l.
  - eexists. split; [done|]. constructor; try done; exact L.
  - eexists. split; [done|]. constructor; try done; unfold in_hand, phase_ok; by rewrite Ep.
Qed.

Lemma tl_run_inv n t t' : tl_run n t t' -> tl_inv t -> tl_inv t'.
Proof.
  induction 1 as [|n t t1 t2 _ IH S|n t t1 t2 now ok _ IH S]; intros I; [done|by eapply producer_inv; [|apply IH]|].
  destruct (export_inv now ok t1 (IH I)) as (t3 & E & I3). congruence.
Qed.
Lemma start_inv now t : telemetry_start c (Ok session) now = Ok (session, t) -> tl_inv t.
Proof.
  unfold telemetry_start. destruct (negb _); [done|]. intros [= <-]. constructor; try done.
  - exists []. split; [|done]. split; [done|]. intros i b bytes Hb. by rewrite lookup_nil in Hb.
  - repeat (constructor; [done|]). constructor.
Qed.

(** *** Shutting down *)
Definition stopping t : option bool :=
  match tl_phase t with
  | Locking b | Holding b | Swapped b | Batching b _ | Sending b _ _ _ _ => Some b
  | Finished => Some true
  | _ => None
  end.
(** The last round has taken the records. *)
Definition taken t : bool :=
  match tl_phase t with Swapped true | Batching true _ | Sending true _ _ _ _ | Finished => true | _ => false end.
(** How many steps the exporter has left once it is told to stop. *)
Definition round (b : bool) : nat := if b then 0 else 6 + 6 * rounds.
Definition work t : nat :=
  match tl_phase t with
  | Parked => 6 + 6 * rounds
  | Looping => 5 + 6 * rounds
  | Locking b => 4 + 6 * rounds + round b
  | Holding b => 3 + 6 * rounds + round b
  | Swapped b => 2 + 6 * rounds + round b
  | Batching b todo => 1 + 6 * length todo + round b
  | Sending b _ _ loaded todo => 6 + 6 * length todo - length loaded + round b
  | Finished => 0
  end.
Lemma work_decreases now ok t t' :
  tl_inv t -> tl_stopped (tl_shared t) = true -> export_step c session now ok t = Ok t' ->
  (work t' <= work t - 1)%nat /\ tl_stopped (tl_shared t') = true.
Proof.
  intros [_ _ _ _ _ _ P _ _] Hs. unfold export_step, phase_ok in *. unfold work at 2.
  destruct (tl_phase t) as [|st|st|st|st todo|st batch number loaded todo| |] eqn:Ep.
  - intros [= <-]. cbn. rewrite Hs. cbn. split; [lia|done].
  - intros [= <-]. cbn. split; [lia|done].
  - intros [= <-]. cbn. split; [lia|done].
  - intros [= <-]. destruct P as [P _]. cbn [work tl_phase setter]. split; [|done]. destruct (chunks_spec BATCH (tl_pending t)) as (_ & _ & L); [done|].
    unfold work. cbn. rewrite length_app. unfold rounds, zlen in *. destruct (_ && _); cbn [length]; lia.
  - destruct todo as [|batch todo]; intros [= <-]; cbn; [destruct st; cbn; split; (lia || done)|split; [lia|done]].
  - destruct P as (_ & _ & _ & _ & _ & P & _).
    destruct loaded as [|a [|b [|d [|e [|]]]]]; try (intros [= <-]; cbn; split; [lia|done]); [|cbn in P; lia].
    intros (bytes & _ & [= <-])%obind_Ok. cbn. split; [lia|by destruct ok].
  - intros [= <-]. cbn. split; [lia|done].
  - intros [= <-]. unfold work. rewrite Ep. split; [lia|done].
Qed.
Lemma producer_work t t' : producer_step t t' -> work t' = work t /\ (tl_stopped (tl_shared t) = true -> tl_stopped (tl_shared t') = true).
Proof. intros [e u He|u|v u Hv|u]; try done. unfold do_record, tl_record. by destruct (_ && _). Qed.
Lemma run_work n t t' :
  tl_run n t t' -> tl_inv t -> tl_stopped (tl_shared t) = true -> (work t' <= work t - n)%nat /\ tl_stopped (tl_shared t') = true.
Proof.
  intros R I Hs. induction R as [|n t t1 t2 R IH S|n t t1 t2 now ok R IH S]; [split; [lia|done]| |].
  - destruct (IH I Hs) as [W1 S1]. destruct (producer_work _ _ S) as [-> K]. auto.
  - destruct (IH I Hs) as [W1 S1]. destruct (work_decreases now ok t1 t2 (tl_run_inv _ _ _ R I) S1 S) as [W2 S2]. split; [lia|done].
Qed.
Lemma work_bound t : tl_inv t -> (work t <= 12 * rounds + 11)%nat.
Proof.
  intros [_ _ _ _ _ _ P _ _]. unfold work, phase_ok, round in *. destruct (tl_phase t); repeat destruct (_ : bool); try lia;
    unfold rounds in *; destruct P as (? & ? & ?); try lia.
Qed.
Lemma work_zero t : tl_inv t -> work t = 0%nat -> tl_phase t = Finished.
Proof.
  intros [_ _ _ _ _ _ P _ _]. unfold work, phase_ok in *. intros W. destruct (tl_phase t); try done; destruct P as (_ & P); lia.
Qed.

(** *** What was accepted before the stop *)
Definition stop_seen t : Prop := stopping t = Some true -> tl_stopped (tl_shared t) = true.
Lemma producer_phase t t' : producer_step t t' -> tl_phase t' = tl_phase t /\ exists new, tl_accepted t' = tl_accepted t ++ new
  /\ tl_records (tl_shared t') = tl_records (tl_shared t) ++ new.
Proof.
  intros [e u He|u|v u Hv|u]; try (split; [done|]; exists []; by rewrite !app_nil_r).
  unfold do_record, tl_record. destruct (_ && _); (split; [done|]); [by exists [e]|exists []; by rewrite !app_nil_r].
Qed.
Lemma seen_step now ok t t' : stop_seen t -> export_step c session now ok t = Ok t' -> stop_seen t'.
Proof.
  intros H. unfold export_step, stop_seen, stopping in *.
  destruct (tl_phase t) as [|st|st|st|st todo|st batch number loaded todo| |] eqn:Ep; try (intros [= <-]; cbn; (exact H || congruence)).
  - destruct todo as [|batch todo]; intros [= <-]; cbn; [|done]. destruct st; [by intros _; apply H|done].
  - destruct loaded as [|a [|b [|d [|e [|]]]]]; try (intros [= <-]; done).
    intros (bytes & _ & [= <-])%obind_Ok. cbn. by destruct ok.
  - intros [= <-]. rewrite Ep. exact H.
Qed.
Lemma seen_run n t t' : tl_run n t t' -> stop_seen t -> stop_seen t'.
Proof.
  induction 1 as [|n t t1 t2 _ IH S|n t t1 t2 now ok _ IH S]; intros H; [done| |by eapply seen_step; [apply IH|]].
  destruct (producer_phase _ _ S) as [Ep _]. destruct (producer_work _ _ S) as [_ K]. unfold stop_seen, stopping in *. rewrite Ep. auto.
Qed.
(** Once the last round has taken the records, those accepted before the stop are among them. *)
Definition covers (old : list TcpEvent) t : Prop :=
  old `prefix_of` tl_accepted t
  /\ (taken t = true -> (length old + length (tl_records (tl_shared t)) <= length (tl_accepted t))%nat).
Lemma covers_producer old t t' : producer_step t t' -> covers old t -> covers old t'.
Proof.
  intros S [P K]. destruct (producer_phase _ _ S) as (Ep & new & Ea & Er). split; [rewrite Ea; by apply prefix_app_r|].
  unfold taken in *. rewrite Ep, Ea, Er, !length_app. intros T. specialize (K T). lia.
Qed.
Lemma covers_export old now ok t t' :
  tl_inv t -> export_step c session now ok t = Ok t' -> covers old t -> covers old t'.
Proof.
  intros I S [P K]. pose proof (prefix_length _ _ P) as Lp. pose proof (ti_phase _ I) as Ph. unfold export_step, covers, taken, phase_ok in *.
  destruct (tl_phase t) as [|st|st|st|st todo|st batch number loaded todo| |] eqn:Ep;
    try (injection S as <-; cbn; split; [done|]; intros; try discriminate; auto; fail).
  - injection S as <-. cbn. destruct Ph as [-> _]. split; [done|]. cbn. intros _. lia.
  - destruct todo as [|batch todo]; injection S as <-; cbn; (split; [done|]); [|done]. by destruct st.
  - destruct loaded as [|a [|b [|d [|e [|]]]]]; try (injection S as <-; done).
    apply obind_Ok in S as (bytes & _ & [= <-]). cbn. split; [done|]. by destruct ok.
Qed.
Lemma covers_run n t t' old : tl_run n t t' -> tl_inv t -> covers old t -> covers old t'.
Proof.
  induction 1 as [|n t t1 t2 _ IH S|n t t1 t2 now ok R IH S]; intros I H; [done|by eapply covers_producer; [|apply IH]|].
  eapply covers_export; [|exact S|by apply IH]. by eapply tl_run_inv.
Qed.
End Threads.

(** ** Properties *)
Lemma carries_decodes session i bytes b :
  carries session i bytes b ->
  exists p, client_decode bytes = Some p /\ cp_records p = client_view <$> b /\ cp_sequence p = Z.of_nat i mod W64.
Proof.
  intros (cs & So & E). pose proof (encode_spec session (Z.of_nat i mod W64) cs b (se_session _ _ _ _ So) (se_batch _ _ _ _ So)) as E'.
  rewrite E in E'. injection E' as ->. eexists. split; [by apply client_decode_spec|done].
Qed.
(** The collector reads the events of the batches, in datagrams numbered from zero. *)
Definition collected (sent : list (list Z)) (batches : list (list TcpEvent)) : Prop :=
  length sent = length batches
  /\ forall i bytes b, sent !! i = Some bytes -> batches !! i = Some b ->
     exists p, client_decode bytes = Some p /\ cp_records p = client_view <$> b /\ cp_sequence p = Z.of_nat i mod W64.
Lemma logged_collected session t bs : logged session t bs -> collected (tl_sent t) bs.
Proof. intros [L H]. split; [done|]. intros i bytes b Hs Hb. eapply carries_decodes, H; done. Qed.
Lemma run_exists c session n t :
  0 <= tc_capacity c -> length session = 8%nat -> tl_inv c session t -> exists t', tl_run c session n t t'.
Proof.
  intros Hc Hs I. induction n as [|n (t1 & R)]; [exists t; constructor|]. destruct (export_inv c session Hc Hs 0 true t1) as (t2 & E & _).
  { by eapply tl_run_inv. }
  exists t2. by econstructor.
Qed.
Lemma prefix_shorter {A} (l k m : list A) : l `prefix_of` m -> k `prefix_of` m -> (length l <= length k)%nat -> l `prefix_of` k.
Proof.
  intros P Q H. destruct (prefix_weak_total _ _ _ P Q) as [|R]; [done|]. apply prefix_length_eq in R; [by subst|done].
Qed.

(** C38. The collector's decoder reads from every datagram exactly what the exporter put into
    it: the session, the sequence number, the counters and every field of every event; and no
    datagram is longer than 1176 bytes. *)
Theorem telemetry_roundtrip session sequence c events :
  sent_ok session sequence c events ->
  exists bytes, encode session sequence c events = Ok bytes /\ zlen bytes = HEADER + RECORD * zlen events /\ zlen bytes <= 1176
    /\ client_decode bytes = Some (mkClientPacket (value session) sequence c (client_view <$> events)).
Proof.
  intros So. pose proof So as [Hs _ _ _ Hb]. rewrite (encode_spec _ _ _ _ Hs Hb). eexists. split; [done|].
  assert (length (concat (header_pieces session sequence c (zlen events))) = 56%nat) as Lh.
  { unfold header_pieces. cbn [concat]. rewrite !length_app, Hs. done. }
  assert (zlen (concat (header_pieces session sequence c (zlen events)) ++ concat (record_bytes <$> events)) = HEADER + RECORD * zlen events) as ->.
  { unfold zlen, HEADER, RECORD. rewrite length_app, records_size. unfold zlen in Lh. rewrite Lh. lia. }
  split; [done|]. split; [unfold HEADER, RECORD, BATCH in *; lia|]. by apply client_decode_spec.
Qed.

(** What belongs to the datagrams that the socket took. *)
Fixpoint of_taken {A} (results : list bool) (l : list A) : list A :=
  match results, l with
  | ok :: results, x :: l => if ok then x :: of_taken results l else of_taken results l
  | _, _ => []
  end.
Definition numbered (k : nat) (sent : list (list Z)) (batches : list (list TcpEvent)) : Prop :=
  Forall2 (fun '(i, bytes) b => exists p, client_decode bytes = Some p /\ cp_records p = client_view <$> b
    /\ cp_sequence p = Z.of_nat i mod W64) (zip (seq k (length sent)) sent) batches.
Lemma collected_numbered sent batches : collected sent batches -> numbered 0 sent batches.
Proof.
  intros [L H]. apply Forall2_same_length_lookup. split; [rewrite length_zip_with, length_seq, L; lia|].
  intros i [n bytes] b Hz Hb. apply lookup_zip_with_Some in Hz as (x & y & [= -> ->] & Hx & Hy).
  apply lookup_seq in Hx as [-> _]. by eapply H.
Qed.
Lemma taken_decode k results sent batches :
  numbered k sent batches ->
  exists packets, mapM client_decode (of_taken results sent) = Some packets
    /\ cp_sequence <$> packets = (fun i => Z.of_nat i mod W64) <$> of_taken results (seq k (length sent))
    /\ concat (cp_records <$> packets) = client_view <$> concat (of_taken results batches).
Proof.
  revert k sent batches. induction results as [|ok results IH]; intros k sent batches H; [by exists []|].
  destruct sent as [|bytes sent]; [apply Forall2_nil_inv_l in H as ->; by exists []|].
  apply Forall2_cons_inv_l in H as (b & batches' & (p & E & Er & Es) & H & ->).
  destruct (IH (S k) sent batches' H) as (packets & E1 & E2 & E3). cbn [of_taken length seq]. destruct ok; [|by exists packets].
  exists (p :: packets). cbn [mapM]. rewrite E. cbn. rewrite E1. split; [done|]. split; [by rewrite Es, E2|].
  change (cp_records p ++ concat (cp_records <$> packets) = client_view <$> (b ++ concat (of_taken results batches'))).
  by rewrite Er, E3, fmap_app.
Qed.

(** C36. In every interleaving of the two threads, and whatever the socket does, the events that
    [record] accepted are, in order and each exactly once, those in the datagrams handed to the socket, those the
    exporter has in hand and those in the buffer.  From the datagrams that the socket took, the collector reads exactly
    their events, in order and each once, under the numbers of those datagrams.  The datagrams that it did not take
    are never sent again and their events are lost: the error counter counts these datagrams, and their
    numbers are missing from the sequence.  The buffer is within its capacity, and the events that were not accepted are
    counted as dropped. *)
Theorem telemetry_exactly_once c session now t0 n t :
  0 <= tc_capacity c -> length session = 8%nat -> telemetry_start c (Ok session) now = Ok (session, t0) ->
  tl_run c session n t0 t ->
  exists batches packets, collected (tl_sent t) batches /\ length (tl_results t) = length batches
    /\ tl_accepted t = concat batches ++ in_hand t ++ tl_records (tl_shared t)
    /\ mapM client_decode (of_taken (tl_results t) (tl_sent t)) = Some packets
    /\ concat (cp_records <$> packets) = client_view <$> concat (of_taken (tl_results t) batches)
    /\ cp_sequence <$> packets = (fun i => Z.of_nat i mod W64) <$> of_taken (tl_results t) (seq 0 (length batches))
    /\ send_errors (tl_shared t) = zlen (List.filter negb (tl_results t)) mod W64
    /\ zlen (tl_records (tl_shared t)) <= tc_capacity c /\ tl_dropped (tl_shared t) = tl_refused t mod W64.
Proof.
  intros Hc Hs E R. pose proof (start_inv c session Hc now t0 E) as I0. pose proof (tl_run_inv c session Hc Hs n t0 t R I0) as I.
  destruct (ti_log _ _ _ I) as (bs & Lg & Eq). pose proof (logged_collected _ _ _ Lg) as Cl.
  destruct (taken_decode 0 (tl_results t) (tl_sent t) bs (collected_numbered _ _ Cl)) as (packets & E1 & E2 & E3).
  exists bs, packets. rewrite (ti_results _ _ _ I). rewrite (proj1 Cl) in E2 |- *. split; [done|]. split; [done|]. split; [done|].
  do 3 (split; [done|]). split; [|split]; apply I.
Qed.

(** C37. Once told to stop, the exporter ends after a bounded number of its own steps, whatever
    the producer does meanwhile, and everything accepted before the stop has been handed to the socket by
    then, in datagrams that the collector can read. *)
Theorem telemetry_shutdown c session now t0 n0 t1 n t :
  0 <= tc_capacity c -> length session = 8%nat -> telemetry_start c (Ok session) now = Ok (session, t0) ->
  tl_run c session n0 t0 t1 -> tl_stopped (tl_shared t1) = false ->
  tl_run c session n (tl_stop t1) t -> 12 * (tc_capacity c + 1) + 11 <= Z.of_nat n ->
  exporter_finished t = true
  /\ exists batches, collected (tl_sent t) batches /\ tl_accepted t1 `prefix_of` concat batches.
Proof.
  intros Hc Hs E R Hf R' Hn. pose proof (tl_run_inv c session Hc Hs n0 t0 t1 R (start_inv c session Hc now t0 E)) as I1.
  assert (tl_inv c session (tl_stop t1)) as I2 by (eapply producer_inv; [done|constructor|done]).
  pose proof (tl_run_inv c session Hc Hs n _ t R' I2) as I. destruct (run_work c session Hc Hs n _ t R' I2 eq_refl) as [W _].
  pose proof (work_bound c session Hs _ I2) as Wb. assert (tl_phase t = Finished) as Ep.
  { apply (work_zero c session Hs t I). unfold rounds in Wb. lia. }
  split; [unfold exporter_finished; by rewrite Ep|]. destruct (ti_log _ _ _ I) as (bs & Lg & Eq). exists bs. split; [by eapply logged_collected|].
  assert (stop_seen t1) as Sn.
  { eapply seen_run; [exact R|]. unfold telemetry_start in E. destruct (negb _); [done|]. by injection E as <-. }
  assert (covers (tl_accepted t1) (tl_stop t1)) as C0.
  { split; [done|]. intros T. assert (stopping t1 = Some true) as St; [|apply Sn in St; congruence].
    unfold taken, stopping in *. cbn in T. by destruct (tl_phase t1) as [|?|?|[]|[] ?|[] ? ? ? ?| |]. }
  destruct (covers_run c session Hc Hs n _ t _ R' I2 C0) as [P K]. unfold taken, in_hand in *. rewrite Ep in K, Eq. specialize (K eq_refl).
  rewrite <- Eq in K, P. cbn [app] in *. rewrite length_app in K. eapply prefix_shorter; [exact P|by apply prefix_app_r|lia].
Qed.

(** ** A small session *)
Definition tel_cfg : TelemetryConfig := mkTelemetryConfig (mkSocketAddr (V4 3232235786) 9900) (mkSocketAddr (V4 0) 0) 2 (10 * MILLI) SECOND.
Definition tel_session : list Z := [1; 2; 3; 4; 5; 6; 7; 8].
Definition tel_event : TcpEvent :=
  mkTcpEvent 1500000 7 (mkConnectionStatus (mkSock 167772161 80) (mkSock 167772162 4000) Established 10 20
    (mkFlowStatus 65535 65535 14600 65535 0 0 SECOND 0 Ready) None).
Definition tel_start : Telemetry_ := mkTelemetry (mkShared [] false false 0 0 0 0) Looping [] 0 0 [] [] [] 0.
Lemma tel_event_ok : event_ok tel_event.
Proof. constructor; [done|done|done|done|]. cbn. repeat (constructor; [done|]). constructor. Qed.
Lemma tel_started : telemetry_start tel_cfg (Ok tel_session) 0 = Ok (tel_session, tel_start).
Proof. reflexivity. Qed.
Definition tel_recorded : Telemetry_ := do_record 2 tel_event tel_start.
Lemma tel_run1 : tl_run tel_cfg tel_session 0 tel_start tel_recorded.
Proof. eapply run_produce; [constructor|]. apply (ps_record tel_cfg tel_event tel_start tel_event_ok). Qed.
Lemma telemetry_roundtrip_witness : exists bytes, encode tel_session 5 (mkCounters 1 2 3 4) [tel_event] = Ok bytes
  /\ client_decode bytes = Some (mkClientPacket 72623859790382856 5 (mkCounters 1 2 3 4) [client_view tel_event]).
Proof.
  destruct (telemetry_roundtrip tel_session 5 (mkCounters 1 2 3 4) [tel_event]) as (bytes & E & _ & _ & D).
  - constructor; [done|done|repeat (constructor; [done|]); constructor|constructor; [exact tel_event_ok|constructor]|done].
  - exists bytes. exact (conj E D).
Defined.
(** Two events in two datagrams, of which the socket takes the second only. *)
Fixpoint exports (n : nat) (ok : bool) (t : Telemetry_) : outcome Telemetry_ :=
  match n with
  | O => Ok t
  | S n => let* t := export_step tel_cfg tel_session 0 ok t in exports n ok t
  end.
Lemma exports_run n ok m t0 t t' : tl_run tel_cfg tel_session m t0 t -> exports n ok t = Ok t' -> exists k, tl_run tel_cfg tel_session k t0 t'.
Proof.
  revert m t. induction n as [|n IH]; intros m t R E; [injection E as <-; by exists m|]. cbn [exports] in E.
  apply obind_Ok in E as (t1 & E1 & E). eapply IH; [|exact E]. by eapply run_export.
Qed.
Definition tel_event2 : TcpEvent := mkTcpEvent 2500000 8 (ev_status tel_event).
Lemma tel_lost_run t1 t :
  exports 12 false tel_recorded = Ok t1 -> exports 12 true (do_record (tc_capacity tel_cfg) tel_event2 t1) = Ok t ->
  exists k, tl_run tel_cfg tel_session k tel_start t.
Proof.
  intros E1 E2. destruct (exports_run 12 false _ _ _ _ tel_run1 E1) as (k & R1).
  assert (event_ok tel_event2) as Ho by (destruct tel_event_ok; by constructor).
  exact (exports_run 12 true _ _ _ _ (run_produce _ _ _ _ _ _ R1 (ps_record tel_cfg _ t1 Ho)) E2).
Qed.
Lemma tel_lost_results :
  match exports 12 false tel_recorded with
  | Ok t1 => match exports 12 true (do_record (tc_capacity tel_cfg) tel_event2 t1) with Ok t => tl_results t | _ => [] end
  | _ => []
  end = [false; true].
Proof. vm_compute. reflexivity. Qed.
Lemma telemetry_exactly_once_witness : exists t batches packets, tl_results t = [false; true] /\ length batches = 2%nat
  /\ mapM client_decode (of_taken [false; true] (tl_sent t)) = Some packets /\ cp_sequence <$> packets = [1]
  /\ concat (cp_records <$> packets) = client_view <$> concat (of_taken [false; true] batches)
  /\ send_errors (tl_shared t) = 1.
Proof.
  pose proof tel_lost_results as Er. destruct (exports 12 false tel_recorded) as [t1| | |] eqn:E1; try discriminate Er.
  destruct (exports 12 true _) as [t| | |] eqn:E2; try discriminate Er. destruct (tel_lost_run t1 t E1 E2) as (k & R).
  destruct (telemetry_exactly_once tel_cfg tel_session 0 tel_start k t ltac:(cbn; lia) eq_refl tel_started R) as (bs & ps & _ & L & _ & D & V & Sq & Se & _).
  rewrite Er in *. cbn [length] in L. exists t, bs, ps. split; [exact Er|]. split; [symmetry; exact L|]. split; [exact D|].
  rewrite <- L in Sq. split; [exact Sq|]. split; [exact V|exact Se].
Defined.
Lemma tel_recorded_inv : tl_inv tel_cfg tel_session (tl_stop tel_recorded).
Proof.
  eapply producer_inv; [done|constructor|]. eapply tl_run_inv; [cbn; lia|done|exact tel_run1|]. eapply start_inv; [cbn; lia|exact tel_started].
Qed.
Lemma telemetry_shutdown_witness : exists t, exporter_finished t = true
  /\ exists batches, collected (tl_sent t) batches /\ [tel_event] `prefix_of` concat batches.
Proof.
  destruct (run_exists tel_cfg tel_session 47 (tl_stop tel_recorded) ltac:(cbn; lia) eq_refl tel_recorded_inv) as (t & R).
  exists t. exact (telemetry_shutdown tel_cfg tel_session 0 tel_start 0 tel_recorded 47 t ltac:(cbn; lia) eq_refl tel_started tel_run1
    eq_refl R ltac:(cbn; lia)).
Defined.
