(* ===== verification/VhostMemory.v ===== *)
(** * Guest memory of the vhost-user backend ([examples/support/vhost_user/memory.rs])

    QEMU shares its RAM as regions of files that the backend maps.  A region is known by guest
    physical addresses and by QEMU's own virtual addresses; with an IOMMU, addresses in
    descriptors are I/O virtual and go through a cache of translations ([entries]).  A [Span] is a
    range of mapped memory, with the host pointer as a number.

    An access gives a fault (a translation that is missing, or an invalid access), a value, or
    panics where the code's arithmetic would overflow. *)
From Stdlib Require Import ZArith Lia Bool.
From stdpp Require Import base numbers option list.
From S2P Require Import Prelude.
#[local] Open Scope Z_scope.

Inductive Fault : Type := Missing (address permission : Z) | Invalid.
#[export] Instance Fault_eq_dec : EqDecision Fault.
Proof. solve_decision. Defined.
Abbreviation Access A := (outcome (Fault + A)).
Definition abind {A B} (m : Access A) (f : A -> Access B) : Access B :=
  match m with
  | Ok (inr a) => f a
  | Ok (inl e) => Ok (inl e)
  | Err k => Err k
  | Panic => Panic
  | OutOfFuel => OutOfFuel
  end.
Notation "'let?' x ':=' m 'in' f" := (abind m (fun x => f))
  (at level 10, x name, m at level 100, f at level 200) : outcome_scope.
Definition invalid {A} : Access A := Ok (inl Invalid).
Definition bad {A} : outcome A := Err InvalidData.
(** [a.checked_add(b)] on [u64], and [a + b] with overflow checks. *)
Definition checked_add64 (a b : Z) : option Z := if a + b <? W64 then Some (a + b) else None.
Definition add64 (a b : Z) : outcome Z := if a + b <? W64 then Ok (a + b) else Panic.

Record Span : Type := mkSpan { sp_ptr : Z; sp_len : Z; sp_gpa : Z }.
Definition span_slice (s : Span) (offset len : Z) : outcome Span :=
  if (offset <=? sp_len s) && (len <=? sp_len s - offset)
  then Ok (mkSpan (sp_ptr s + offset) len (sp_gpa s + offset)) else Panic.
Definition overlaps (s t : Span) : bool :=
  (sp_gpa s <? sp_gpa t + sp_len t) && (sp_gpa t <? sp_gpa s + sp_len s).

(** [rg_ptr] is the host address of the region's first byte, [base + delta]. *)
Record Region : Type := mkRegion { rg_guest : Z; rg_user : Z; rg_size : Z; rg_ptr : Z }.
(** [Region::new]; [file_len] and [page] are what the system reports and [mmap len offset] the
    address that it maps, if it does. *)
Definition region_new (file_len page : Z) (mmap : Z -> Z -> option Z) (guest user size offset : Z) : outcome Region :=
  if (size =? 0) || bool_decide (checked_add64 guest size = None) || bool_decide (checked_add64 user size = None) then bad
  else if match checked_add64 offset size with Some e => file_len <? e | None => true end then bad
  else if page <=? 0 then bad
  else
    let start := offset / page * page in
    let delta := offset - start in
    match checked_add64 size delta with
    | None => bad
    | Some map_len =>
        if 9223372036854775807 <? start then bad
        else
          match mmap map_len start with
          | None => Err OtherError
          | Some ptr => if ptr =? 0 then bad else Ok (mkRegion guest user size (ptr + delta))
          end
    end.
Definition region_span (r : Region) (offset len : Z) : Span := mkSpan (rg_ptr r + offset) len (rg_guest r + offset).

Record Entry : Type := mkEntry { en_iova : Z; en_size : Z; en_user : Z; en_permission : Z }.
Record Memory : Type := mkMemory { regions : list Region; entries : list Entry; iommu : bool }.
#[export] Instance eta_Memory : Eta Memory := fun m => mkMemory (regions m) (entries m) (iommu m).
Definition memory_default : Memory := mkMemory [] [] false.
Implicit Types m : Memory.

(** The subtraction avoids the overflow of a range that ends at the top. *)
Definition overlap (a size_a b size_b : Z) : bool := if a <=? b then b - a <? size_a else a - b <? size_b.

(** [replace]: [seen] are the regions before. *)
Fixpoint regions_overlap (seen l : list Region) : bool :=
  match l with
  | [] => false
  | a :: l =>
      existsb (fun b => overlap (rg_guest a) (rg_size a) (rg_guest b) (rg_size b)
                        || overlap (rg_user a) (rg_size a) (rg_user b) (rg_size b)) seen
      || regions_overlap (seen ++ [a]) l
  end.
Definition replace_regions (l : list Region) m : outcome Memory :=
  if regions_overlap [] l then bad else Ok (m <| regions := l |> <| entries := [] |>).
Definition invalidate (address size : Z) m : outcome Memory :=
  if size =? 0 then bad
  else Ok (m <| entries ::= filter (fun e => overlap address size (en_iova e) (en_size e) = false) |>).

(** [region]: the span of a guest or QEMU address range. *)
Definition inside (address len base size : Z) : bool :=
  (base <=? address) && (address - base <? size) && (len <=? size - (address - base)).
Fixpoint find_region (address len : Z) (guest : bool) (l : list Region) : option Span :=
  match l with
  | [] => None
  | r :: l =>
      let base := if guest then rg_guest r else rg_user r in
      if inside address len base (rg_size r) then Some (region_span r (address - base) len)
      else find_region address len guest l
  end.
Definition region (address len : Z) (guest : bool) m : Access Span :=
  if (len =? 0) || bool_decide (checked_add64 address len = None) then invalid
  else match find_region address len guest (regions m) with Some s => Ok (inr s) | None => invalid end.
Definition by_user (address len : Z) m : Access Span := region address len false m.

Definition iotlb_update (address size user permission : Z) m : outcome Memory :=
  if (size =? 0) || bool_decide (checked_add64 address size = None) || negb ((1 <=? permission) && (permission <=? 3)) then bad
  else
    match by_user user size m with
    | Ok (inr _) =>
        let* m := invalidate address size m in
        let m := if zlen (entries m) =? 4096 then m <| entries ::= drop 1024 |> else m in
        Ok (m <| entries ::= fun l => l ++ [mkEntry address size user permission] |>)
    | Ok (inl _) => bad
    | r => let* s := r in bad
    end.

(** The entry that translates one address. *)
Definition entry_covers (current permission : Z) (e : Entry) : bool :=
  (en_iova e <=? current) && (current - en_iova e <? en_size e) && (Z.land (en_permission e) permission =? permission).
(** The loop of [translate]: the user address of the first byte. *)
Fixpoint translate_loop (fuel : nat) (address len permission done first_user : Z) m : Access Z :=
  if done <? len then
    match fuel with
    | O => OutOfFuel
    | S fuel =>
        let current := address + done in
        match List.find (entry_covers current permission) (entries m) with
        | None => Ok (inl (Missing current permission))
        | Some e =>
            let* sum := add64 (en_user e) current in
            let user := sum - en_iova e in
            let next := done + Z.min (en_size e - (current - en_iova e)) (len - done) in
            if done =? 0 then translate_loop fuel address len permission next user m
            else if bool_decide (checked_add64 first_user done = Some user)
            then translate_loop fuel address len permission next first_user m
            else invalid
        end
    end
  else Ok (inr first_user).
Definition translate (address len permission : Z) (ring : bool) m : Access Span :=
  if negb (iommu m) then region address len (negb ring) m
  else if (len =? 0) || bool_decide (checked_add64 address len = None) then invalid
  else
    let? first_user := translate_loop (Z.to_nat len) address len permission 0 0 m in
    by_user first_user len m.
