(* ===== verification/VhostMemoryProps.v ===== *)
(** * Address translation of the vhost-user backend is sound and coherent

    Every span that a translation yields lies in one mapped region, byte for byte at the
    address that the cache of translations gives, and the cache holds at most one
    translation per address: a translation that was replaced or invalidated is never used. *)
From Stdlib Require Import ZArith Lia Bool.
From stdpp Require Import base numbers option list.
From S2P Require Import Prelude VhostMemory.
#[local] Open Scope Z_scope.
Implicit Types m : Memory.

(** ** Ordered pairs of a list *)
Section Pairs.
Context {A : Type} (R : A -> A -> Prop).
Lemma pairs_app l k : ForallOrdPairs R (l ++ k) <-> ForallOrdPairs R l /\ ForallOrdPairs R k /\ Forall (fun x => Forall (R x) k) l.
Proof.
  induction l as [|x l IH]; cbn.
  - split; [|tauto]. intros H. split_and!; [constructor|done|constructor].
  - split.
    + intros H. inversion H as [|? ? F P]; subst. apply Forall_app in F as [F1 F2]. apply IH in P as (P1 & P2 & P3). split_and!; try done; by constructor.
    + intros (H1 & H2 & H3). inversion H1 as [|? ? F P]; subst. apply Forall_cons in H3 as [F3 H3]. constructor; [by apply Forall_app|]. by apply IH.
Qed.
Lemma pairs_sublist l k : k `sublist_of` l -> ForallOrdPairs R l -> ForallOrdPairs R k.
Proof.
  induction 1 as [|x k l S IH|x k l S IH]; intros H; [done| |]; inversion H as [|? ? F P]; subst; [|by apply IH].
  constructor; [|by apply IH]. by eapply sublist_Forall.
Qed.
Lemma pairs_lookup l i j x y : ForallOrdPairs R l -> (i < j)%nat -> l !! i = Some x -> l !! j = Some y -> R x y.
Proof.
  intros H. revert i j. induction H as [|z l F H IH]; intros i j L Hi Hj; [done|]. destruct j as [|j]; [lia|]. cbn in Hj.
  destruct i as [|i]; cbn in Hi; [|by eapply (IH i j); [lia| |]]. injection Hi as <-. rewrite Forall_forall in F. apply F. by eapply list_elem_of_lookup_2.
Qed.
End Pairs.

(** ** Ranges *)
Lemma overlap_false a sa b sb : 0 < sa -> 0 < sb -> overlap a sa b sb = false <-> a + sa <= b \/ b + sb <= a.
Proof. unfold overlap. intros Ha Hb. destruct (a <=? b) eqn:E; bools; lia. Qed.
Lemma checked_add64_none a b : checked_add64 a b = None <-> W64 <= a + b.
Proof. unfold checked_add64. destruct (a + b <? W64) eqn:E; bools; split; intros; try done; lia. Qed.
Lemma checked_add64_some a b c : checked_add64 a b = Some c <-> c = a + b /\ a + b < W64.
Proof. unfold checked_add64. destruct (a + b <? W64) eqn:E; bools; split; [intros [= <-]; lia|intros [-> _]; done|done|lia]. Qed.

Definition region_ok (r : Region) : Prop :=
  0 < rg_size r /\ 0 <= rg_guest r /\ rg_guest r + rg_size r < W64 /\ 0 <= rg_user r /\ rg_user r + rg_size r < W64.
Definition apart (a b : Region) : Prop :=
  overlap (rg_guest b) (rg_size b) (rg_guest a) (rg_size a) = false /\ overlap (rg_user b) (rg_size b) (rg_user a) (rg_size a) = false.
Definition iotlb_entry_ok (e : Entry) : Prop := 0 <= en_iova e /\ 0 < en_size e /\ en_iova e + en_size e < W64 /\ 0 <= en_user e
  /\ en_user e + en_size e < W64.
Definition unshared (e f : Entry) : Prop := overlap (en_iova f) (en_size f) (en_iova e) (en_size e) = false.
Record mem_ok m : Prop := {
  mo_regions : Forall region_ok (regions m);
  mo_apart : ForallOrdPairs apart (regions m);
  mo_entries : Forall iotlb_entry_ok (entries m);
  mo_unshared : ForallOrdPairs unshared (entries m);
  mo_bound : zlen (entries m) <= 4096
}.
(** A span within one mapped region. *)
Definition span_in m (s : Span) : Prop :=
  exists r off, r ∈ regions m /\ 0 <= off /\ 0 < sp_len s /\ off + sp_len s <= rg_size r /\ s = region_span r off (sp_len s).

(** ** Construction and updates *)
Lemma region_new_ok file_len page mmap guest user size offset r :
  0 <= guest -> 0 <= user -> 0 <= size -> region_new file_len page mmap guest user size offset = Ok r -> region_ok r.
Proof.
  intros Hg Hu Hs. unfold region_new. destruct (_ || _) eqn:E; [done|]. bools. destruct E as [[E1 E2] E3].
  apply bool_decide_eq_false in E2, E3. rewrite checked_add64_none in E2, E3. destruct (match _ with Some _ => _ | None => _ end); [done|].
  destruct (_ <=? _); [done|]. destruct (checked_add64 size _); [|done]. destruct (_ <? _); [done|]. destruct (mmap _ _); [|done].
  destruct (_ =? 0); [done|]. intros [= <-]. unfold region_ok. cbn. lia.
Qed.
Lemma regions_overlap_spec seen l :
  ForallOrdPairs apart seen -> regions_overlap seen l = false -> ForallOrdPairs apart (seen ++ l).
Proof.
  revert seen. induction l as [|a l IH]; intros seen H; cbn [regions_overlap]; [by rewrite app_nil_r|]. intros E. bools.
  destruct E as [E1 E2]. replace (seen ++ a :: l) with ((seen ++ [a]) ++ l) by (by rewrite <- app_assoc). apply IH; [|done].
  apply pairs_app. split_and!; [done|by repeat constructor|]. apply Forall_forall. intros b Hb. apply Forall_singleton.
  assert (overlap (rg_guest a) (rg_size a) (rg_guest b) (rg_size b) || overlap (rg_user a) (rg_size a) (rg_user b) (rg_size b) = false) as Eb.
  { apply not_true_iff_false. intros Et. apply not_true_iff_false in E1. apply E1, existsb_exists. exists b. split; [by apply list_elem_of_In|done]. }
  bools. by destruct Eb.
Qed.
Lemma replace_regions_ok l m m' : Forall region_ok l -> replace_regions l m = Ok m' -> mem_ok m'.
Proof.
  intros F. unfold replace_regions. destruct (regions_overlap [] l) eqn:E; [done|]. intros [= <-].
  constructor; cbn; [done| |by apply Forall_nil|constructor|done]. apply (regions_overlap_spec [] l); [constructor|done].
Qed.
Lemma memory_default_ok : mem_ok memory_default.
Proof. constructor; cbn; [by apply Forall_nil|constructor|by apply Forall_nil|constructor|done]. Qed.
Lemma invalidate_ok a size m m' : mem_ok m -> invalidate a size m = Ok m' -> mem_ok m' /\ zlen (entries m') <= zlen (entries m).
Proof.
  intros [R P E U B]. unfold invalidate. destruct (size =? 0); [done|]. intros [= <-].
  set (keep := filter _ (entries m)). assert (keep `sublist_of` entries m) as S by apply sublist_filter.
  assert (zlen keep <= zlen (entries m)) as L by (unfold zlen; apply sublist_length in S; lia).
  split; [|exact L]. constructor; cbn; fold keep; try done; [by eapply sublist_Forall|by eapply pairs_sublist|lia].
Qed.
Lemma find_region_in a len guest l s :
  find_region a len guest l = Some s -> 0 < len -> Forall region_ok l ->
  exists r, r ∈ l /\ let base := if guest then rg_guest r else rg_user r in
    base <= a /\ a + len <= base + rg_size r /\ s = region_span r (a - base) len.
Proof.
  intros E Hl F. induction l as [|r l IH]; [done|]. cbn [find_region] in E. apply Forall_cons in F as [Hr F].
  destruct (inside _ _ _ _) eqn:Ei.
  - injection E as <-. exists r. split; [by left|]. unfold inside in Ei. bools. cbv zeta. destruct guest; (split_and!; [lia|lia|done]).
  - destruct (IH E F) as (r' & Hr' & H'). exists r'. split; [by right|done].
Qed.
(** The span of a range: in one region, or a fault. *)
Lemma region_spec a len guest m :
  Forall region_ok (regions m) -> 0 <= len ->
  match region a len guest m with
  | Ok (inr s) => span_in m s /\ sp_len s = len /\ 0 < len /\ (guest = true -> sp_gpa s = a)
  | Ok (inl f) => f = Invalid
  | _ => False
  end.
Proof.
  intros F Hl. unfold region. destruct (_ || _) eqn:E; [done|]. bools. destruct E as [E1 E2].
  destruct (find_region a len guest (regions m)) as [s|] eqn:Ef; [|done].
  destruct (find_region_in _ _ _ _ _ Ef ltac:(lia) F) as (r & Hr & H1 & H2 & ->). cbv zeta in *.
  split; [|split; [done|split; [lia|]]].
  - exists r, (a - (if guest then rg_guest r else rg_user r)). cbn. split_and!; try done; lia.
  - intros ->. cbn. lia.
Qed.
Lemma update_ok a size user perm m m' :
  mem_ok m -> 0 <= a -> 0 <= size -> 0 <= user -> iotlb_update a size user perm m = Ok m' -> mem_ok m'.
Proof.
  intros I Ha Hs Hu. unfold iotlb_update. destruct (_ || _) eqn:E; [done|]. bools. destruct E as [[E1 E2] _].
  apply bool_decide_eq_false in E2. rewrite checked_add64_none in E2.
  assert (forall s, by_user user size m = Ok (inr s) -> user + size < W64) as Bu.
  { intros s. unfold by_user, region. destruct (_ || _) eqn:Eb; [done|]. bools. destruct Eb as [_ Eb]. apply bool_decide_eq_false in Eb.
    rewrite checked_add64_none in Eb. lia. }
  destruct (by_user user size m) as [[f|s]| | |]; try done. specialize (Bu s eq_refl). cbn [obind]. intros Eu. apply obind_Ok in Eu as (m1 & E3 & [= <-]).
  destruct (invalidate_ok _ _ _ _ I E3) as [[R P En U B] L]. pose proof (mo_bound _ I) as B0.
  match goal with |- context [if zlen (entries m1) =? 4096 then ?x else m1] => set (m2 := if zlen (entries m1) =? 4096 then x else m1) end.
  assert (entries m2 `sublist_of` entries m1 /\ regions m2 = regions m1 /\ zlen (entries m2) < 4096) as (S2 & Er & L2).
  { unfold m2. destruct (_ =? 4096) eqn:E4; bools.
    - cbn. split; [apply sublist_drop|]. split; [done|]. unfold zlen in *. rewrite length_drop. lia.
    - split; [done|]. split; [done|lia]. }
  clearbody m2. constructor; cbn; rewrite ?Er; try done.
  - apply Forall_app. split; [by eapply sublist_Forall|]. apply Forall_singleton. unfold iotlb_entry_ok. cbn. lia.
  - apply pairs_app. split_and!; [by eapply pairs_sublist|by repeat constructor|]. eapply (sublist_Forall _ _ _ S2).
    unfold invalidate in E3. destruct (size =? 0); [done|]. injection E3 as <-. cbn.
    apply Forall_forall. intros e He. apply list_elem_of_filter in He as [He _]. by apply Forall_singleton.
  - rewrite zlen_app. change (zlen [_]) with 1. lia.
Qed.

(** ** The cache of translations as a function of the address *)
Definition resolve m (i permission : Z) : option Z :=
  e ← List.find (entry_covers i permission) (entries m); Some (en_user e + (i - en_iova e)).
Definition in_entry (i : Z) (e : Entry) : Prop := en_iova e <= i < en_iova e + en_size e.
Lemma covers_in i p e : entry_covers i p e = true <-> in_entry i e /\ Z.land (en_permission e) p = p.
Proof. unfold entry_covers, in_entry. rewrite !andb_true_iff, Z.leb_le, Z.ltb_lt, Z.eqb_eq. intuition lia. Qed.
Lemma find_in {A} (f : A -> bool) l x : List.find f l = Some x -> x ∈ l /\ f x = true.
Proof. intros E. apply List.find_some in E as [Hi Hf]. split; [by apply list_elem_of_In|done]. Qed.
Lemma entry_unique m i e f : mem_ok m -> e ∈ entries m -> f ∈ entries m -> in_entry i e -> in_entry i f -> e = f.
Proof.
  intros [_ _ E U _] He Hf Ie If. pose proof (proj1 (Forall_forall _ _) E) as Ok_. destruct (Ok_ e He) as (_ & Se & _). destruct (Ok_ f Hf) as (_ & Sf & _).
  apply list_elem_of_lookup in He as [a Ea]. apply list_elem_of_lookup in Hf as [b Eb].
  destruct (decide (a = b)) as [-> |N]; [congruence|]. exfalso. unfold in_entry in *.
  destruct (decide (a < b)%nat) as [L|L].
  - pose proof (pairs_lookup _ _ _ _ _ _ U L Ea Eb) as H. unfold unshared in H. rewrite overlap_false in H by done. lia.
  - assert (b < a)%nat as L' by lia. pose proof (pairs_lookup _ _ _ _ _ _ U L' Eb Ea) as H. unfold unshared in H. rewrite overlap_false in H by done. lia.
Qed.
Lemma find_covers m i p e : mem_ok m -> e ∈ entries m -> entry_covers i p e = true -> List.find (entry_covers i p) (entries m) = Some e.
Proof.
  intros I He Ce. destruct (List.find (entry_covers i p) (entries m)) as [f|] eqn:E.
  - apply find_in in E as [Hf Cf]. apply covers_in in Ce as [Ce _]. apply covers_in in Cf as [Cf _]. f_equal. by eapply entry_unique.
  - exfalso. pose proof (List.find_none _ _ E e ltac:(by apply list_elem_of_In)). congruence.
Qed.
Lemma resolve_entry m i p e : mem_ok m -> e ∈ entries m -> entry_covers i p e = true -> resolve m i p = Some (en_user e + (i - en_iova e)).
Proof. intros I He Ce. unfold resolve. by rewrite (find_covers m i p e). Qed.
Lemma resolve_some m i p u : resolve m i p = Some u -> exists e, e ∈ entries m /\ entry_covers i p e = true /\ u = en_user e + (i - en_iova e).
Proof.
  unfold resolve. destruct (List.find _ _) as [e|] eqn:E; [|done]. intros [= <-]. apply find_in in E as [He Ce]. eauto.
Qed.
Lemma resolve_sub m m' i p :
  mem_ok m -> mem_ok m' -> (forall e, e ∈ entries m' -> e ∈ entries m) -> resolve m' i p = None \/ resolve m' i p = resolve m i p.
Proof.
  intros I I' S. destruct (resolve m' i p) as [u|] eqn:E; [|by left]. right. apply resolve_some in E as (e & He & Ce & ->).
  symmetry. apply resolve_entry; auto.
Qed.
(** All bytes of a range translate to consecutive addresses. *)
Definition translates m (address len permission user : Z) : Prop :=
  forall i, 0 <= i < len -> resolve m (address + i) permission = Some (user + i).
Lemma translate_loop_spec m a len p fuel done first :
  mem_ok m -> 0 <= done <= len -> len - done <= Z.of_nat fuel -> translates m a done p first ->
  match translate_loop fuel a len p done first m with
  | Ok (inr u) => translates m a len p u
  | Ok (inl (Missing x q)) => q = p /\ a <= x < a + len /\ resolve m x p = None
  | Ok (inl Invalid) => ~ exists u, translates m a len p u
  | Panic => exists e, e ∈ entries m /\ W64 <= en_user e + en_iova e + en_size e
  | _ => False
  end.
Proof.
  intros I. revert done first. induction fuel as [|fuel IH]; intros done first Hd Hf T; cbn [translate_loop].
  { rewrite (proj2 (Z.ltb_ge _ _)) by lia. by replace len with done by lia. }
  destruct (done <? len) eqn:El; bools; [|by replace len with done by lia].
  destruct (List.find _ _) as [e|] eqn:E.
  2: { split_and!; [done|lia|lia|]. unfold resolve. by rewrite E. }
  apply find_in in E as [He Ce]. pose proof (proj1 (Forall_forall _ _) (mo_entries _ I) e He) as (Ei & Es & Ew & Eu & Ex).
  pose proof Ce as Ce'. apply covers_in in Ce' as [Ci Cp]. unfold in_entry in Ci.
  unfold add64. destruct (_ <? W64) eqn:Eo; bools; [|exists e; split; [done|lia]]. cbn [obind].
  set (step := Z.min _ _). assert (0 < step <= len - done) as Hs by (unfold step; lia).
  assert (forall i, 0 <= i < step -> resolve m (a + (done + i)) p = Some (en_user e + (a + (done + i) - en_iova e))) as Run.
  { intros i Hi. apply resolve_entry; [done|done|]. apply covers_in. split; [unfold in_entry, step in *; lia|done]. }
  destruct (done =? 0) eqn:E0; bools.
  - apply IH; [lia|lia|]. intros i Hi. subst done. specialize (Run i ltac:(lia)). rewrite Z.add_0_l in Run. rewrite Run. f_equal. lia.
  - destruct (bool_decide _) eqn:Eb.
    + apply bool_decide_eq_true, checked_add64_some in Eb as [Eb _]. apply IH; [lia|lia|]. intros i Hi.
      destruct (decide (i < done)); [apply T; lia|]. specialize (Run (i - done) ltac:(lia)).
      replace (done + (i - done)) with i in Run by lia. rewrite Run. f_equal. lia.
    + apply bool_decide_eq_false in Eb. intros [u Tu]. apply Eb, checked_add64_some.
      pose proof (T 0 ltac:(lia)) as T0. rewrite (Tu 0) in T0 by lia. injection T0 as T0.
      pose proof (Run 0 ltac:(lia)) as R0. rewrite Z.add_0_r, (Tu done) in R0 by lia. injection R0 as R0. unfold step in *. lia.
Qed.

(** Addresses small enough that the sum in [translate] cannot overflow. *)
Definition low m : Prop := Forall (fun e => en_user e + en_iova e + en_size e < W64) (entries m).
Lemma not_low m e : e ∈ entries m -> W64 <= en_user e + en_iova e + en_size e -> ~ low m.
Proof. intros He Ho Lw. pose proof (proj1 (Forall_forall _ _) Lw e He) as Hw. cbv beta in Hw. lia. Qed.
(** What the users of a translation rely on. *)
Lemma translate_in m a len p ring :
  mem_ok m -> 0 <= len ->
  match translate a len p ring m with
  | Ok (inr s) => span_in m s /\ sp_len s = len
  | Ok (inl (Missing _ q)) => q = p
  | Ok (inl Invalid) => True
  | Panic => ~ low m
  | _ => False
  end.
Proof.
  intros I Hl. unfold translate. destruct (iommu m); cbn [negb].
  - destruct (_ || _) eqn:E; [done|]. bools. destruct E as [E _].
    pose proof (translate_loop_spec m a len p (Z.to_nat len) 0 0 I ltac:(lia) ltac:(lia)) as T.
    specialize (T ltac:(intros i Hi; lia)).
    destruct (translate_loop _ _ _ _ _ _ m) as [[[x q|]|u]| | |]; cbn [abind]; try done.
    + tauto.
    + pose proof (region_spec u len false m (mo_regions _ I) Hl) as R. unfold by_user.
      destruct (region u len false m) as [[f|s]| | |]; try done; [by subst f|tauto].
    + destruct T as (e & He & Ho). by eapply not_low.
  - pose proof (region_spec a len (negb ring) m (mo_regions _ I) Hl) as R.
    destruct (region _ _ _ m) as [[f|s]| | |]; try done; [by subst f|tauto].
Qed.

(** With an IOMMU a translated access is exactly what the cache says and lies in shared
    memory: the span has the length that was asked for, lies in one mapped region, and byte
    [i] of it is the memory at the address to which the cache translates [address + i] with the
    permission; a missing translation is reported at an address of the range that has none;
    otherwise the range is refused only when it is empty, wraps, is not mapped to
    consecutive addresses, or leaves the shared regions.  The only arithmetic that can overflow is
    the sum of a user address and an I/O address of one cached translation. *)
Theorem translate_sound m a len p ring :
  mem_ok m -> iommu m = true -> 0 <= a -> 0 <= len ->
  match translate a len p ring m with
  | Ok (inr s) =>
      span_in m s /\ sp_len s = len /\ exists u, translates m a len p u /\ by_user u len m = Ok (inr s)
  | Ok (inl (Missing x q)) => q = p /\ a <= x < a + len /\ resolve m x p = None
  | Ok (inl Invalid) =>
      len = 0 \/ W64 <= a + len \/ (~ exists u, translates m a len p u)
      \/ exists u, translates m a len p u /\ by_user u len m = Ok (inl Invalid)
  | Panic => exists e, e ∈ entries m /\ W64 <= en_user e + en_iova e + en_size e
  | _ => False
  end.
Proof.
  intros I Em Ha Hl. unfold translate. rewrite Em. cbn [negb]. destruct (_ || _) eqn:E; bools.
  { destruct E as [E|E]; [by left|]. apply bool_decide_eq_true, checked_add64_none in E. right. by left. }
  destruct E as [E _].
  assert (translates m a 0 p 0) as T0 by (intros i Hi; lia).
  pose proof (translate_loop_spec m a len p (Z.to_nat len) 0 0 I ltac:(lia) ltac:(lia) T0) as T.
  destruct (translate_loop _ _ _ _ _ _ m) as [[[x q|]|u]| | |]; cbn [abind]; try done; [right; right; by left|].
  pose proof (region_spec u len false m (mo_regions _ I) Hl) as R. unfold by_user in *.
  destruct (region u len false m) as [[f|s]| | |] eqn:Er; try done; [subst f; eauto 10|]. destruct R as (R1 & R2 & _). eauto 10.
Qed.

(** The cache is coherent: after an invalidation no address of the range has a translation
    and all other translations are unchanged or gone; after an update every address of the range
    translates by the new entry and only with its permission, and no address is ever translated
    by an entry that was replaced.  The cache never exceeds its bound. *)
Theorem iotlb_coherent m address size user permission m' :
  mem_ok m -> 0 <= address -> 0 <= size -> 0 <= user ->
  (invalidate address size m = Ok m' ->
     mem_ok m' /\ forall i p, if decide (address <= i < address + size) then resolve m' i p = None
                             else resolve m' i p = None \/ resolve m' i p = resolve m i p)
  /\ (iotlb_update address size user permission m = Ok m' ->
     mem_ok m' /\ forall i p, if decide (address <= i < address + size)
       then resolve m' i p = if decide (Z.land permission p = p) then Some (user + (i - address)) else None
       else resolve m' i p = None \/ resolve m' i p = resolve m i p).
Proof.
  intros I Ha Hs Hu. split; intros E.
  - destruct (invalidate_ok _ _ _ _ I E) as [I' _]. split; [done|]. unfold invalidate in E. destruct (size =? 0) eqn:E0; [done|]. bools.
    injection E as <-. intros i p. destruct (decide _) as [Hi|Hi].
    + destruct (resolve _ i p) as [u|] eqn:Er; [|done]. exfalso. apply resolve_some in Er as (e & He & Ce & _). cbn in He.
      apply list_elem_of_filter in He as [Ho He]. apply covers_in in Ce as [Ce _].
      destruct (proj1 (Forall_forall _ _) (mo_entries _ I) e He) as (_ & Se & _). rewrite overlap_false in Ho by lia. unfold in_entry in Ce. lia.
    + apply resolve_sub; [done|done|]. intros e. cbn. intros He. by apply list_elem_of_filter in He as [_ He].
  - pose proof (update_ok _ _ _ _ _ _ I Ha Hs Hu E) as I'. split; [done|].
    assert (exists l, entries m' = l ++ [mkEntry address size user permission] /\ 0 < size /\ forall e, e ∈ l -> e ∈ entries m) as (l & El & Sp & Hl).
    { unfold iotlb_update in E. destruct (_ || _) eqn:E0; [done|]. bools. destruct (by_user user size m) as [[f|s]| | |]; try done.
      apply obind_Ok in E as (m1 & E1 & [= <-]). unfold invalidate in E1. destruct (size =? 0) eqn:E2; [done|]. injection E1 as <-. bools.
      eexists. split; [reflexivity|]. split; [lia|]. intros e He. destruct (_ =? 4096); cbn in He.
      - apply (subseteq_drop 1024) in He. by apply list_elem_of_filter in He as [_ He].
      - by apply list_elem_of_filter in He as [_ He]. }
    set (n := mkEntry address size user permission) in *. assert (n ∈ entries m') as Hn by (rewrite El; apply elem_of_app; right; by left).
    intros i p. destruct (decide (address <= i < address + size)) as [Hi|Hi].
    + destruct (decide (Z.land permission p = p)) as [Hp|Hp].
      * rewrite (resolve_entry m' i p n I' Hn); [done|]. apply covers_in. done.
      * destruct (resolve m' i p) as [u|] eqn:Er; [|done]. exfalso. apply resolve_some in Er as (e & He & Ce & _). apply covers_in in Ce as [Ce Cp].
        assert (e = n) as -> by (by eapply entry_unique). done.
    + destruct (resolve m' i p) as [u|] eqn:Er; [|by left]. right. apply resolve_some in Er as (e & He & Ce & ->). rewrite El, elem_of_app in He.
      destruct He as [He|He]; [symmetry; apply resolve_entry; auto|]. apply list_elem_of_singleton in He as ->.
      apply covers_in in Ce as [Ce _]. done.
Qed.

(** ** Examples *)
Definition ram1 : list Region := [mkRegion 0 140737488355328 8192 1000000; mkRegion 65536 140737488420864 4096 2000000].
Definition mem1 : Memory := mkMemory ram1 [] true.
Lemma mem1_ok : mem_ok mem1.
Proof.
  constructor; cbn; [|by repeat constructor|by apply Forall_nil|constructor|done].
  repeat apply Forall_cons_2; [| |apply Forall_nil_2]; unfold region_ok, W64; cbn; lia.
Qed.
(** Two adjacent pages that are adjacent in QEMU's memory too, the second one read-only. *)
Definition mem2 : Memory :=
  mkMemory ram1 [mkEntry 4096 4096 140737488355328 3; mkEntry 8192 4096 140737488359424 1] true.
Lemma mem2_ok : mem_ok mem2.
Proof.
  constructor; cbn; [apply mem1_ok|by repeat constructor| |by repeat constructor|done].
  repeat apply Forall_cons_2; [| |apply Forall_nil_2]; unfold iotlb_entry_ok, W64; cbn; lia.
Qed.
Lemma translate_sound_witness :
  (exists u, translates mem2 8000 400 1 u) /\ translate 8000 400 1 false mem2 = Ok (inr (mkSpan 1003904 400 3904))
  /\ translate 8000 400 2 false mem2 = Ok (inl (Missing 8192 2)) /\ resolve mem2 8192 2 = None.
Proof.
  pose proof (translate_sound mem2 8000 400 1 false mem2_ok eq_refl ltac:(lia) ltac:(lia)) as T1.
  pose proof (translate_sound mem2 8000 400 2 false mem2_ok eq_refl ltac:(lia) ltac:(lia)) as T2.
  assert (translate 8000 400 1 false mem2 = Ok (inr (mkSpan 1003904 400 3904))) as E1 by (vm_compute; reflexivity).
  assert (translate 8000 400 2 false mem2 = Ok (inl (Missing 8192 2))) as E2 by (vm_compute; reflexivity).
  rewrite E1 in T1. rewrite E2 in T2. destruct T1 as (_ & _ & u & Tu & _). destruct T2 as (_ & _ & T2). eauto.
Defined.
Lemma iotlb_coherent_witness :
  exists m', iotlb_update 8192 4096 140737488420864 2 mem2 = Ok m' /\ resolve m' 8200 2 = Some 140737488420872 /\ resolve m' 8200 1 = None
    /\ mem_ok m'.
Proof.
  destruct (iotlb_coherent mem2 8192 4096 140737488420864 2
    (mkMemory ram1 [mkEntry 4096 4096 140737488355328 3; mkEntry 8192 4096 140737488420864 2] true) mem2_ok ltac:(lia) ltac:(lia) ltac:(lia)) as [_ Hu].
  destruct Hu as [I Hr]; [vm_compute; reflexivity|]. eexists. split; [vm_compute; reflexivity|].
  pose proof (Hr 8200 2) as R2. pose proof (Hr 8200 1) as R1. rewrite decide_True in R1, R2 by lia. split; [exact R2|]. split; [exact R1|exact I].
Defined.
(** The sum of the user and I/O addresses of an accepted translation can exceed 64 bits, although
    its difference to the start of the translation does not: a build with overflow checks stops. *)
Definition mem3 : Memory := mkMemory [mkRegion 0 9223372036854775808 4096 1000000] [] true.
Lemma translate_overflow :
  mem_ok mem3 /\ exists m, iotlb_update 9223372036854775808 4096 9223372036854775808 3 mem3 = Ok m
    /\ translate 9223372036854775808 64 1 false m = Panic
    /\ resolve m 9223372036854775808 1 = Some 9223372036854775808.
Proof.
  split.
  - constructor; cbn; [|by repeat constructor|by apply Forall_nil|constructor|done].
    apply Forall_cons_2; [unfold region_ok, W64; cbn; lia|apply Forall_nil_2].
  - eexists. split; [vm_compute; reflexivity|]. split; vm_compute; reflexivity.
Qed.
