(* ===== verification/VhostQueue.v ===== *)
(** * Virtqueues of the vhost-user backend ([examples/support/vhost_user/queue.rs])

    The guest runs while the backend looks at its memory.  [guest k a] is the byte at host address [a] when the
    backend makes its [k]-th access to the outside world; nothing relates the bytes of two accesses,
    so that every interleaving with the guest's processors is covered.  [sys k] is what a
    system call gives that is the [k]-th access: its return value and [errno].  The [World]
    counts the accesses and lists the stores that the backend has made, with their host
    address, in the order in which they were made.  Integers in guest memory are little endian. *)
From Stdlib Require Import ZArith Lia Bool.
From stdpp Require Import base numbers option list.
From S2P Require Import Prelude VhostMemory.
#[local] Open Scope Z_scope.

(** ** Little-endian integers *)
Fixpoint to_le (n : nat) (v : Z) : list Z :=
  match n with
  | O => []
  | S n => v mod 256 :: to_le n (v / 256)
  end.
Fixpoint from_le (l : list Z) : Z :=
  match l with
  | [] => 0
  | x :: l => x + 256 * from_le l
  end.

Record VWorld : Type := mkVWorld { w_tick : nat; w_stores : list (Z * list Z) }.
#[export] Instance eta_World : Eta VWorld := fun w => mkVWorld (w_tick w) (w_stores w).
Definition world_tick (w : VWorld) : VWorld := w <| w_tick ::= S |>.
Definition store_bytes (ptr : Z) (bytes : list Z) (w : VWorld) : VWorld := w <| w_stores ::= fun l => l ++ [(ptr, bytes)] |>.

Record Queue : Type := mkQueue {
  num : Z; q_desc : Z; q_avail : Z; q_used : Z; configured : bool; enabled : bool; started : bool;
  last_avail : Z; last_used : option Z; kick : option Z; call : option Z; q_error : option Z;
  notifications : Z; notification_full : Z
}.
#[export] Instance eta_Queue : Eta Queue := fun q =>
  mkQueue (num q) (q_desc q) (q_avail q) (q_used q) (configured q) (enabled q) (started q) (last_avail q) (last_used q)
    (kick q) (call q) (q_error q) (notifications q) (notification_full q).
Definition queue_default : Queue := mkQueue 0 0 0 0 false false false 0 None None None None 0 0.
Record VRings : Type := mkVRings { r_desc : Span; r_avail : Span; r_used : Span }.

Definition running (q : Queue) : bool := configured q && negb (num q =? 0) && started q.
Definition q_stop (q : Queue) : Z * Queue :=
  let q := q <| started := false |> <| kick := None |> <| last_used := None |> in (last_avail q, q).

Section Queue.
Context (guest : nat -> Z -> Z) (sys : nat -> Z * ErrorKind) (patience : nat).
Implicit Types (q : Queue) (w : VWorld) (m : Memory) (r : VRings).

(** One access that reads [n] bytes. *)
Definition load (ptr : Z) (n : nat) w : list Z * VWorld := (map (fun i => guest (w_tick w) (ptr + Z.of_nat i)) (seq 0 n), world_tick w).
Definition span_copy_out (s : Span) (n : nat) w : outcome (list Z * VWorld) :=
  if Z.of_nat n <=? sp_len s then Ok (load (sp_ptr s) n w) else Panic.
Definition span_copy_in (s : Span) (bytes : list Z) w : outcome VWorld :=
  if zlen bytes <=? sp_len s then Ok (store_bytes (sp_ptr s) bytes w) else Panic.
Definition load_index (s : Span) w : Z * VWorld := let '(b, w) := load (sp_ptr s + 2) 2 w in (from_le b, w).

(** [Queue::map]. *)
Definition q_map m q w : outcome ((Fault + VRings) * Queue * VWorld) :=
  let n := num q in
  let mapped : Access VRings :=
    let? desc := translate (q_desc q) (n * 16) 1 true m in
    let? avail := translate (q_avail q) (4 + n * 2) 1 true m in
    let? used := translate (q_used q) (4 + n * 8) 3 true m in
    Ok (inr (mkVRings desc avail used)) in
  let* r := mapped in
  match r with
  | inl f => Ok (inl f, q, w)
  | inr r =>
      if negb (Z.land (sp_ptr (r_desc r)) 15 =? 0) || negb (Z.land (sp_ptr (r_avail r)) 1 =? 0)
         || negb (Z.land (sp_ptr (r_used r)) 3 =? 0) || overlaps (r_desc r) (r_avail r) || overlaps (r_desc r) (r_used r)
         || overlaps (r_avail r) (r_used r)
      then Ok (inl Invalid, q, w)
      else
        match last_used q with
        | Some _ => Ok (inr r, q, w)
        | None =>
            let '(used, w) := load_index (r_used r) w in
            if negb (used =? last_avail q) then Ok (inl Invalid, q, w)
            else Ok (inr r, q <| last_used := Some used |>, store_bytes (sp_ptr (r_used r)) [0; 0] w)
        end
  end.

(** The loop of [peek] over the descriptors of a chain; [spans] are those before. *)
Fixpoint desc_chain (fuel : nat) m q r (write : bool) (index : Z) (visited : list Z) (total : Z) (spans : list Span) w
  : outcome ((Fault + unit) * list Span * VWorld) :=
  match fuel with
  | O => OutOfFuel
  | S fuel =>
      if (num q <=? index) || (64 <=? zlen spans) then Ok (inl Invalid, spans, w)
      else
        let word := index / 64 in
        let bit := Z.shiftl 1 (Z.land index 63) in
        let* v := get visited word in
        if negb (Z.land v bit =? 0) then Ok (inl Invalid, spans, w)
        else
          let* visited := set_at visited word (Z.lor v bit) in
          let* s := span_slice (r_desc r) (index * 16) 16 in
          let* '(d, w) := span_copy_out s 16 w in
          let address := from_le (take 8 d) in
          let len := from_le (take 4 (drop 8 d)) in
          let flags := from_le (take 2 (drop 12 d)) in
          if negb (Z.land flags 65532 =? 0) || negb (Bool.eqb (negb (Z.land flags 2 =? 0)) write) || (len =? 0)
          then Ok (inl Invalid, spans, w)
          else
            match checked_add64 total len with
            | None => Ok (inl Invalid, spans, w)
            | Some total =>
                if 65536 <? total then Ok (inl Invalid, spans, w)
                else
                  let* t := translate address len (if write then 2 else 1) false m in
                  match t with
                  | inl f => Ok (inl f, spans, w)
                  | inr span =>
                      if overlaps span (r_desc r) || overlaps span (r_avail r) || overlaps span (r_used r)
                         || existsb (overlaps span) spans
                      then Ok (inl Invalid, spans, w)
                      else
                        let spans := spans ++ [span] in
                        if Z.land flags 1 =? 0 then Ok (inr tt, spans, w)
                        else desc_chain fuel m q r write (from_le (take 2 (drop 14 d))) visited total spans w
                  end
            end
  end.
(** [Queue::peek]: the head of the next chain, if there is one, and its buffers. *)
Definition peek m q r (write : bool) w : outcome ((Fault + option Z) * list Span * VWorld) :=
  let '(i, w) := load_index (r_avail r) w in
  let pending := u16 (i - last_avail q) in
  if pending =? 0 then Ok (inr None, [], w)
  else if num q <? pending then Ok (inl Invalid, [], w)
  else
    let slot := Z.land (last_avail q) (num q - 1) in
    let '(b, w) := load (sp_ptr (r_avail r) + 4 + slot * 2) 2 w in
    let head := from_le b in
    let* '(res, spans, w) := desc_chain 65 m q r write head (replicate 16 0) 0 [] w in
    match res with
    | inl f => Ok (inl f, spans, w)
    | inr _ => Ok (inr (Some head), spans, w)
    end.

(** [Queue::complete]: the used entry; both indices advance. *)
Definition complete r (head len : Z) q w : outcome (Queue * VWorld) :=
  match last_used q with
  | None => Panic
  | Some used =>
      let slot := Z.land used (num q - 1) in
      let entry := to_le 4 head ++ to_le 4 len in
      let* s := span_slice (r_used r) (4 + slot * 8) 8 in
      let* w := span_copy_in s entry w in
      Ok (q <| last_used := Some (u16 (used + 1)) |> <| last_avail := u16 (last_avail q + 1) |>, w)
  end.

(** The loop that writes to the call descriptor. *)
Fixpoint notify (fuel : nat) q w : outcome (Queue * VWorld) :=
  match fuel with
  | O => OutOfFuel
  | S fuel =>
      let '(n, e) := sys (w_tick w) in
      let w := world_tick w in
      if n =? 8 then Ok (q <| notifications ::= count 1 |>, w)
      else match e with
           | Interrupted => notify fuel q w
           | WouldBlock => Ok (q <| notification_full ::= count 1 |>, w)
           | e => Err e
           end
  end.
(** [Queue::publish]: the used index, then a notification unless the driver has suppressed it. *)
Definition vq_publish r q w : outcome (Queue * VWorld) :=
  match last_used q with
  | None => Panic
  | Some used =>
      let w := store_bytes (sp_ptr (r_used r) + 2) (to_le 2 used) w in
      let '(b, w) := load (sp_ptr (r_avail r)) 2 w in
      if Z.land (from_le b) 1 =? 0
      then match call q with Some _ => notify patience q w | None => Ok (q, w) end
      else Ok (q, w)
  end.

Definition nonblocking (fd : Z) w : outcome VWorld :=
  let '(old, e) := sys (w_tick w) in
  let w := world_tick w in
  if old <? 0 then Err e
  else
    let '(n, e) := sys (w_tick w) in
    let w := world_tick w in
    if n <? 0 then Err e else Ok w.
(** The tokens of a kick descriptor; [n] rounds are left. *)
Fixpoint drain_kick_loop (n : nat) w : outcome VWorld :=
  match n with
  | O => Ok w
  | S n =>
      let '(got, e) := sys (w_tick w) in
      let w := world_tick w in
      if got =? 0 then bad
      else if got <? 0 then
        match e with
        | WouldBlock => Ok w
        | Interrupted => drain_kick_loop n w
        | e => Err e
        end
      else if negb (got =? 8) then bad
      else drain_kick_loop n w
  end.
Definition drain_kick (fd : Z) w : outcome VWorld := drain_kick_loop 64 w.

(** [read_scatter]: [out] is filled from the bytes of the spans after the first [skip]. *)
Fixpoint scatter (spans : list Span) (skip done : Z) (out : list Z) w : outcome (bool * list Z * VWorld) :=
  match spans with
  | [] => Ok (false, out, w)
  | s :: spans =>
      if sp_len s <=? skip then scatter spans (skip - sp_len s) done out w
      else
        let n := Z.min (sp_len s - skip) (zlen out - done) in
        let* t := span_slice s skip n in
        let* '(b, w) := span_copy_out t (Z.to_nat n) w in
        let* out := copy_at out done b in
        let done := done + n in
        if done =? zlen out then Ok (true, out, w) else scatter spans 0 done out w
  end.
Definition read_scatter (spans : list Span) (skip : Z) (out : list Z) w : outcome (bool * list Z * VWorld) :=
  scatter spans skip 0 out w.
End Queue.
