(* ===== verification/VhostQueueProps.v ===== *)
(** * The virtqueues of the vhost-user backend are safe for every guest

    Whatever the guest writes into its rings and when, a chain that [peek] accepts consists of
    buffers that lie in shared memory, apart from each other and from the rings, in the right direction and
    of bounded length; the backend completes chains in the order in which they were offered. *)
From Stdlib Require Import ZArith Lia Bool.
From stdpp Require Import base numbers option list.
From S2P Require Import Prelude VhostMemory VhostMemoryProps VhostQueue.
#[local] Open Scope Z_scope.
Implicit Types (q : Queue) (w : VWorld) (m : Memory) (r : VRings).

(** ** Little-endian integers *)
Lemma from_le_range l : bytes_ok l -> 0 <= from_le l < 256 ^ zlen l.
Proof.
  induction 1 as [|x l Hx F IH]; [done|]. cbn [from_le]. unfold zlen in *. cbn [length]. unfold is_byte in Hx.
  rewrite Nat2Z.inj_succ, Z.pow_succ_r by lia. lia.
Qed.
Lemma from_to_le n v : from_le (to_le n v) = v mod 256 ^ Z.of_nat n.
Proof.
  revert v. induction n as [|n IH]; intros v; cbn [to_le from_le]; [by rewrite Z.mod_1_r|]. rewrite IH, Nat2Z.inj_succ, Z.pow_succ_r by lia.
  rewrite Z.rem_mul_r by lia. lia.
Qed.
Lemma to_le_length n v : zlen (to_le n v) = Z.of_nat n.
Proof. revert v. induction n as [|n IH]; intros v; [done|]. cbn [to_le]. rewrite zlen_cons, IH. lia. Qed.
Lemma to_le_bytes n v : bytes_ok (to_le n v).
Proof. revert v. induction n as [|n IH]; intros v; cbn; constructor; [|apply IH]. unfold is_byte. apply Z.mod_pos_bound. lia. Qed.

(** ** Spans *)
Lemma span_in_range m s : mem_ok m -> span_in m s -> 0 < sp_len s /\ 0 <= sp_gpa s /\ sp_gpa s + sp_len s < W64.
Proof.
  intros I (r & off & Hr & Ho & Hl & Hb & ->). cbn [sp_len sp_gpa region_span].
  destruct (proj1 (Forall_forall _ _) (mo_regions _ I) r Hr) as (R1 & R2 & R3 & _). lia.
Qed.
Definition span_apart (s t : Span) : Prop := overlaps t s = false.
Lemma span_slice_ok s off len : 0 <= off -> 0 <= len -> off + len <= sp_len s ->
  span_slice s off len = Ok (mkSpan (sp_ptr s + off) len (sp_gpa s + off)).
Proof. intros. unfold span_slice. replace (_ && _) with true; [done|]. symmetry. bools. lia. Qed.

(** ** The state of a queue *)
Definition num_ok (n : Z) : Prop := exists k, 1 <= k <= 10 /\ n = 2 ^ k.
Lemma num_range n : num_ok n -> 2 <= n <= 1024.
Proof.
  intros (k & Hk & ->). split; [change 2 with (2 ^ 1) at 1|change 1024 with (2 ^ 10)]; apply Z.pow_le_mono_r; lia.
Qed.
Record queue_ok q : Prop := {
  qo_num : num q = 0 \/ num_ok (num q);
  qo_last : 0 <= last_avail q < W16;
  qo_inorder : forall u, last_used q = Some u -> u = last_avail q
}.
Record vrings_ok m q r : Prop := {
  ro_num : num_ok (num q);
  ro_desc : span_in m (r_desc r);
  ro_desc_len : sp_len (r_desc r) = num q * 16;
  ro_avail : span_in m (r_avail r);
  ro_avail_len : sp_len (r_avail r) = 4 + num q * 2;
  ro_used : span_in m (r_used r);
  ro_used_len : sp_len (r_used r) = 4 + num q * 8;
  ro_apart : overlaps (r_desc r) (r_avail r) = false /\ overlaps (r_desc r) (r_used r) = false /\ overlaps (r_avail r) (r_used r) = false;
  ro_started : last_used q = Some (last_avail q)
}.
Lemma vq_slot_range n x : num_ok n -> 0 <= x -> 0 <= Z.land x (n - 1) < n.
Proof.
  intros (k & Hk & ->) Hx. rewrite Z.sub_1_r, <- Z.ones_equiv, Z.land_ones by lia. apply Z.mod_pos_bound. lia.
Qed.

(** The sum of the lengths of spans. *)
Definition lens (l : list Span) : Z := foldr (fun s n => sp_len s + n) 0 l.
Lemma lens_app l k : lens (l ++ k) = lens l + lens k.
Proof. unfold lens. induction l as [|s l IH]; [done|]. cbn [app foldr]. rewrite IH. lia. Qed.
Lemma lens_nonneg l : Forall (fun s => 0 < sp_len s) l -> 0 <= lens l.
Proof. induction 1 as [|s l Hs F IH]; [done|]. change (lens (s :: l)) with (sp_len s + lens l). lia. Qed.
(** The buffers of a chain, which the backend may write or only read. *)
Record spans_ok (write : bool) m r (spans : list Span) : Prop := {
  so_in : Forall (span_in m) spans;
  so_permission : Forall (fun s => exists a, translate a (sp_len s) (if write then 2 else 1) false m = Ok (inr s)) spans;
  so_apart : ForallOrdPairs span_apart spans;
  so_rings : Forall (fun s => overlaps s (r_desc r) = false /\ overlaps s (r_avail r) = false /\ overlaps s (r_used r) = false) spans;
  so_total : lens spans <= 65536;
  so_count : zlen spans <= 64
}.
Lemma spans_nil write m r : spans_ok write m r [].
Proof. constructor; try done; constructor. Qed.
Lemma spans_snoc write m r l s a :
  spans_ok write m r l -> span_in m s -> translate a (sp_len s) (if write then 2 else 1) false m = Ok (inr s) -> overlaps s (r_desc r) = false -> overlaps s (r_avail r) = false -> overlaps s (r_used r) = false ->
  existsb (overlaps s) l = false -> lens l + sp_len s <= 65536 -> zlen l < 64 -> spans_ok write m r (l ++ [s]).
Proof.
  intros [S1 Sp S2 S3 S4 S5] Hs Tr O1 O2 O3 Oe Ht Hl. constructor.
  - apply Forall_app. split; [done|]. by apply Forall_cons.
  - apply Forall_app. split; [done|]. apply Forall_cons. eauto.
  - apply pairs_app. split_and!; [done|by repeat constructor|]. apply Forall_forall. intros t Ht'. apply Forall_cons. split; [|done].
    unfold span_apart. apply not_true_iff_false. intros E. apply not_true_iff_false in Oe. apply Oe, existsb_exists. exists t.
    split; [by apply list_elem_of_In|done].
  - apply Forall_app. split; [done|]. by apply Forall_cons.
  - rewrite lens_app. cbn. lia.
  - rewrite zlen_app. change (zlen [s]) with 1. lia.
Qed.

Section Guest.
Context (guest : nat -> Z -> Z) (Hguest : forall k a, is_byte (guest k a)).
Lemma load_spec ptr n w : bytes_ok (load guest ptr n w).1 /\ zlen (load guest ptr n w).1 = Z.of_nat n
  /\ w_stores (load guest ptr n w).2 = w_stores w.
Proof.
  unfold load. cbn [fst snd]. split; [|split; [|done]].
  - apply Forall_fmap, Forall_forall. intros i _. apply Hguest.
  - unfold zlen. by rewrite length_map, length_seq.
Qed.
Lemma load_index_spec s w : 0 <= (load_index guest s w).1 < W16 /\ w_stores (load_index guest s w).2 = w_stores w.
Proof.
  unfold load_index. destruct (load_spec (sp_ptr s + 2) 2 w) as (B & L & E). destruct (load guest _ 2 w) as [b w'].
  cbn [fst snd] in *. split; [|done]. pose proof (from_le_range b B) as R. rewrite L in R. exact R.
Qed.
Lemma copy_out_spec s n w : Z.of_nat n <= sp_len s ->
  exists b w', span_copy_out guest s n w = Ok (b, w') /\ bytes_ok b /\ zlen b = Z.of_nat n /\ w_stores w' = w_stores w.
Proof.
  intros L. unfold span_copy_out. rewrite (proj2 (Z.leb_le _ _)) by done. destruct (load_spec (sp_ptr s) n w) as (B & Lb & E).
  destruct (load guest (sp_ptr s) n w) as [b w']. exists b, w'. done.
Qed.
(** An integer in a descriptor. *)
Lemma field_range d off n : bytes_ok d -> 0 <= from_le (take n (drop off d)).
Proof. intros B. apply from_le_range. by apply Forall_take, Forall_drop. Qed.

(** ** A chain of descriptors *)
Lemma desc_chain_spec m q r write fuel index visited total spans w :
  mem_ok m -> vrings_ok m q r -> 0 <= index -> zlen visited = 16 -> total = lens spans -> spans_ok write m r spans ->
  65 <= Z.of_nat fuel + zlen spans ->
  match desc_chain guest fuel m q r write index visited total spans w with
  | Ok (inr _, spans', w') =>
      index < num q /\ spans' <> [] /\ spans_ok write m r spans' /\ w_stores w' = w_stores w
  | Ok (inl f, _, w') => w_stores w' = w_stores w /\ match f with Missing _ p => p = if write then 2 else 1 | Invalid => True end
  | Panic => ~ low m
  | _ => False
  end.
Proof.
  intros I R. revert index visited total spans w. induction fuel as [|fuel IH]; intros index visited total spans w Hi Hv -> So Hf.
  { exfalso. pose proof (so_count _ _ _ _ So). lia. }
  pose proof (num_range _ (ro_num _ _ _ R)) as Hn. cbn [desc_chain]. destruct (_ || _) eqn:E; [done|]. bools. destruct E as [E1 E2].
  assert (0 <= index / 64 < 16) as Hw by (split; [apply Z.div_pos; lia|apply Z.div_lt_upper_bound; lia]).
  rewrite get_ok by lia. cbn [obind]. destruct (negb _); [done|]. rewrite set_at_ok by lia. cbn [obind].
  rewrite span_slice_ok by (rewrite ?(ro_desc_len _ _ _ R); lia). cbn [obind].
  set (cell := mkSpan _ _ _). destruct (copy_out_spec cell 16 w) as (d & w1 & -> & Bd & Ld & Ew); [done|]. cbn [obind].
  set (v' := <[_ := _]> visited). assert (zlen v' = 16) as Hv' by (unfold v', zlen in *; by rewrite length_insert). clearbody v'.
  destruct (_ || (_ =? 0)) eqn:Eflags; [done|]. bools. destruct Eflags as [_ Elen].
  set (len := from_le (take 4 (drop 8 d))) in *. assert (0 <= len) as Hlen by (by apply field_range).
  destruct (checked_add64 _ len) as [total'|] eqn:Et; [|done]. apply checked_add64_some in Et as [-> _].
  destruct (65536 <? _) eqn:E64; [done|]. bools.
  pose proof (translate_in m (from_le (take 8 d)) len (if write then 2 else 1) false I ltac:(lia)) as T.
  destruct (translate _ len _ false m) as [[[x p|]|s]| | |] eqn:Tr; cbn [obind]; try done. destruct T as [Si Sl].
  destruct (_ || _) eqn:Eo; [done|]. bools. destruct Eo as [[[O1 O2] O3] O4].
  assert (spans_ok write m r (spans ++ [s])) as So' by (rewrite <- Sl in Tr; eapply spans_snoc; try done; lia).
  destruct (_ =? 0); [split_and!; [lia|by destruct spans|done|done]|].
  assert (0 <= from_le (take 2 (drop 14 d))) as Hnext by (by apply field_range).
  specialize (IH _ v' (lens spans + len) (spans ++ [s]) w1 Hnext Hv' ltac:(rewrite lens_app; cbn; lia) So' ltac:(zl)).
  destruct (desc_chain _ fuel m q r write _ v' _ _ w1) as [[[[f|u] spans'] w']| | |]; try done.
  - destruct IH as [IH1 IH2]. split; [congruence|done].
  - destruct IH as (_ & N & So1 & Es). split_and!; [lia|done|done|congruence].
Qed.

(** What [peek] promises. *)
Lemma peek_spec m q r write w :
  mem_ok m -> queue_ok q -> vrings_ok m q r ->
  match peek guest m q r write w with
  | Ok (inr None, spans, w') => spans = [] /\ w_stores w' = w_stores w
  | Ok (inr (Some head), spans, w') =>
      0 <= head < num q /\ spans <> [] /\ spans_ok write m r spans /\ w_stores w' = w_stores w
  | Ok (inl f, _, w') => w_stores w' = w_stores w /\ match f with Missing _ p => p = if write then 2 else 1 | Invalid => True end
  | Panic => ~ low m
  | _ => False
  end.
Proof.
  intros I Q R. unfold peek. destruct (load_index_spec (r_avail r) w) as [Hi E1]. destruct (load_index guest (r_avail r) w) as [i w1].
  cbn [fst snd] in *. destruct (_ =? 0); [done|]. destruct (_ <? _); [done|].
  match goal with |- context [load guest ?p 2 w1] => destruct (load_spec p 2 w1) as (B & L & E2); destruct (load guest p 2 w1) as [b w2] end.
  cbn [fst snd] in *. pose proof (from_le_range b B) as Hb.
  pose proof (desc_chain_spec m q r write 65 (from_le b) (replicate 16 0) 0 [] w2 I R ltac:(lia) eq_refl eq_refl (spans_nil _ _ _) ltac:(done)) as C.
  destruct (desc_chain _ 65 m q r write _ _ _ _ w2) as [[[[f|u] spans] w3]| | |]; cbn [obind]; try done.
  - destruct C as [C1 C2]. split; [congruence|done].
  - destruct C as (C1 & C2 & C3 & C4). split_and!; [lia|lia|done|done|congruence].
Qed.

(** ** What the guest offers *)
(** [n] bytes at [p], as access [k] finds them. *)
Definition guest_bytes (k : nat) (p : Z) (n : nat) : list Z := map (fun i => guest k (p + Z.of_nat i)) (seq 0 n).
(** The chain that starts with descriptor [index], when its descriptors are read by the accesses
    from [k] on: each gives the address, the length, the flags and the next index; [k'] is the
    access after the last. *)
Inductive chain_at m r (write : bool) : nat -> Z -> list Span -> nat -> Prop :=
| chain_last k index d span :
    d = guest_bytes k (sp_ptr (r_desc r) + index * 16) 16 ->
    translate (from_le (take 8 d)) (from_le (take 4 (drop 8 d))) (if write then 2 else 1) false m = Ok (inr span) ->
    Z.land (from_le (take 2 (drop 12 d))) 1 = 0 -> chain_at m r write k index [span] (S k)
| chain_next k index d span spans k' :
    d = guest_bytes k (sp_ptr (r_desc r) + index * 16) 16 ->
    translate (from_le (take 8 d)) (from_le (take 4 (drop 8 d))) (if write then 2 else 1) false m = Ok (inr span) ->
    Z.land (from_le (take 2 (drop 12 d))) 1 <> 0 ->
    chain_at m r write (S k) (from_le (take 2 (drop 14 d))) spans k' -> chain_at m r write k index (span :: spans) k'.
Definition avail_index r (k : nat) : Z := from_le (guest_bytes k (sp_ptr (r_avail r) + 2) 2).
(** The chain number [la] of the available ring of [n] entries: access [k] finds that the
    guest has offered it, the next access finds its head. *)
Definition offered m r (write : bool) (n la : Z) (k : nat) (head : Z) (spans : list Span) (k' : nat) : Prop :=
  0 < u16 (avail_index r k - la) <= n
  /\ head = from_le (guest_bytes (S k) (sp_ptr (r_avail r) + 4 + Z.land la (n - 1) * 2) 2)
  /\ chain_at m r write (S (S k)) head spans k'.
Lemma desc_chain_at m q r write fuel index visited total spans w u spans' w' :
  desc_chain guest fuel m q r write index visited total spans w = Ok (inr u, spans', w') ->
  exists new, spans' = spans ++ new /\ chain_at m r write (w_tick w) index new (w_tick w').
Proof.
  revert index visited total spans w. induction fuel as [|fuel IH]; intros index visited total spans w E; [done|].
  cbn [desc_chain] in E. destruct (_ || _); [done|]. apply obind_Ok in E as (v & _ & E). destruct (negb _); [done|].
  apply obind_Ok in E as (visited' & _ & E). apply obind_Ok in E as (cell & Ec & E). apply obind_Ok in E as ([d w1] & Ed & E).
  unfold span_slice in Ec. destruct (_ && _); [|done]. injection Ec as <-. unfold span_copy_out in Ed.
  destruct (_ <=? _); [|done]. injection Ed as Ed <-. cbn [sp_ptr] in Ed. fold (guest_bytes (w_tick w) (sp_ptr (r_desc r) + index * 16) 16) in Ed.
  destruct (_ || (_ =? 0)); [done|]. destruct (checked_add64 _ _) as [total'|]; [|done]. destruct (65536 <? _); [done|].
  apply obind_Ok in E as ([f|span] & Et & E); [done|]. destruct (_ || _); [done|]. destruct (Z.land _ 1 =? 0) eqn:E1; bools.
  - injection E as _ <- <-. exists [span]. split; [done|]. by eapply chain_last.
  - apply IH in E as (new & -> & C). exists (span :: new). rewrite <- app_assoc. split; [done|]. by eapply chain_next.
Qed.
Lemma peek_offered m q r write w head spans w' :
  peek guest m q r write w = Ok (inr (Some head), spans, w') ->
  offered m r write (num q) (last_avail q) (w_tick w) head spans (w_tick w').
Proof.
  unfold peek, load_index, load. cbn [w_tick]. fold (guest_bytes (w_tick w) (sp_ptr (r_avail r) + 2) 2).
  fold (avail_index r (w_tick w)). destruct (_ =? 0) eqn:E0; [done|]. destruct (_ <? _) eqn:E1; [done|]. bools.
  intros E. apply obind_Ok in E as ([[res sp] w1] & Ec & E). destruct res as [f|u]; [done|]. injection E as <- <- <-.
  apply desc_chain_at in Ec as (new & -> & C). cbn [app]. split; [|done].
  pose proof (Z.mod_pos_bound (avail_index r (w_tick w) - last_avail q) W16 eq_refl). unfold u16 in *. lia.
Qed.
Lemma peek_empty m q r write w spans w' :
  0 <= last_avail q < W16 -> peek guest m q r write w = Ok (inr None, spans, w') -> avail_index r (w_tick w) = last_avail q.
Proof.
  intros Hq. pose proof (load_index_spec (r_avail r) w) as [Hi _]. revert Hi. unfold peek, load_index, load. cbn [w_tick fst].
  fold (guest_bytes (w_tick w) (sp_ptr (r_avail r) + 2) 2). fold (avail_index r (w_tick w)). intros Hi.
  destruct (_ =? 0) eqn:E0; bools.
  - intros _. unfold u16 in E0. apply Z.mod_divide in E0 as [x Hx]; [|done]. unfold W16 in *. assert (x = 0) by lia. lia.
  - destruct (_ <? _); [done|]. intros E. apply obind_Ok in E as ([[[f|u] sp] w1] & _ & E); done.
Qed.

(** ** Rings *)
(** The rings at the addresses that the frontend configured. *)
Definition rings_of m q r : Prop :=
  translate (q_desc q) (num q * 16) 1 true m = Ok (inr (r_desc r))
  /\ translate (q_avail q) (4 + num q * 2) 1 true m = Ok (inr (r_avail r))
  /\ translate (q_used q) (4 + num q * 8) 3 true m = Ok (inr (r_used r)).
Lemma q_map_rings m q w r q' w' : q_map guest m q w = Ok (inr r, q', w') -> rings_of m q r.
Proof.
  unfold q_map, rings_of. destruct (translate (q_desc q) _ _ _ _) as [[f|desc]| | |]; cbn [abind obind]; try done.
  destruct (translate (q_avail q) _ _ _ _) as [[f|avail]| | |]; cbn [abind obind]; try done.
  destruct (translate (q_used q) _ _ _ _) as [[f|used]| | |]; cbn [abind obind]; try done.
  destruct (_ || _); [done|]. destruct (last_used q); [by intros [= <- _ _]|]. destruct (load_index _ _ _) as [u w1].
  destruct (negb _); [done|]. by intros [= <- _ _].
Qed.
Lemma q_map_spec m q w :
  mem_ok m -> queue_ok q -> num_ok (num q) ->
  match q_map guest m q w with
  | Ok (inr r, q', w') =>
      vrings_ok m q' r /\ queue_ok q' /\ q' = q <| last_used := Some (last_avail q) |>
      /\ w_stores w' = w_stores w ++ (if last_used q then [] else [(sp_ptr (r_used r), [0; 0])])
  | Ok (inl f, q', w') => q' = q /\ w_stores w' = w_stores w
  | Panic => ~ low m
  | _ => False
  end.
Proof.
  intros I Q Hn. pose proof (num_range _ Hn) as Hr. unfold q_map.
  pose proof (translate_in m (q_desc q) (num q * 16) 1 true I ltac:(lia)) as T1.
  destruct (translate (q_desc q) _ _ _ _) as [[f|desc]| | |]; cbn [abind obind]; try done. destruct T1 as [D1 D2].
  pose proof (translate_in m (q_avail q) (4 + num q * 2) 1 true I ltac:(lia)) as T2.
  destruct (translate (q_avail q) _ _ _ _) as [[f|avail]| | |]; cbn [abind obind]; try done. destruct T2 as [A1 A2].
  pose proof (translate_in m (q_used q) (4 + num q * 8) 3 true I ltac:(lia)) as T3.
  destruct (translate (q_used q) _ _ _ _) as [[f|used]| | |]; cbn [abind obind]; try done. destruct T3 as [U1 U2].
  cbn [r_desc r_avail r_used]. destruct (_ || _) eqn:E; [done|]. bools. destruct E as [[[_ O1] O2] O3].
  destruct (last_used q) as [u|] eqn:El.
  - assert (q <| last_used := Some (last_avail q) |> = q) as Eq.
    { rewrite (qo_inorder _ Q u El) in El. destruct q. cbn in *. by rewrite El. }
    rewrite Eq. split_and!; [|done|done|by rewrite app_nil_r]. constructor; try done. by rewrite El, (qo_inorder _ Q u El).
  - destruct (load_index_spec used w) as [Hu E2]. destruct (load_index guest used w) as [u w1]. cbn [fst snd] in *.
    destruct (negb _) eqn:En; [done|]. bools. subst u. destruct Q as [Q1 Q2 Q3]. split_and!.
    + by constructor.
    + constructor; [done|done|]. cbn. congruence.
    + done.
    + unfold store_bytes. cbn. by rewrite E2.
Qed.
Lemma complete_spec m q r head len w :
  queue_ok q -> vrings_ok m q r ->
  exists q' w', complete r head len q w = Ok (q', w')
    /\ q' = q <| last_used := Some (u16 (last_avail q + 1)) |> <| last_avail := u16 (last_avail q + 1) |>
    /\ queue_ok q' /\ vrings_ok m q' r
    /\ w_stores w' = w_stores w ++ [(sp_ptr (r_used r) + (4 + Z.land (last_avail q) (num q - 1) * 8), to_le 4 head ++ to_le 4 len)].
Proof.
  intros [Q1 Q2 Q3] R. unfold complete. rewrite (ro_started _ _ _ R). pose proof (vq_slot_range _ (last_avail q) (ro_num _ _ _ R) ltac:(lia)) as Hs.
  rewrite span_slice_ok by (rewrite ?(ro_used_len _ _ _ R); lia). cbn [obind]. unfold span_copy_in.
  rewrite (proj2 (Z.leb_le _ _)) by (cbn [sp_len]; rewrite zlen_app, !to_le_length; lia). cbn [obind].
  eexists _, _. split; [reflexivity|]. split; [done|]. assert (0 <= u16 (last_avail q + 1) < W16) as Hu by (apply Z.mod_pos_bound; done).
  split; [|split; [|done]].
  - constructor; [done|done|]. cbn. congruence.
  - destruct R. by constructor.
Qed.
End Guest.

(** ** Notifications *)
Section Calls.
Context (guest : nat -> Z -> Z) (sys : nat -> Z * ErrorKind) (patience : nat).
Definition interrupted (x : Z * ErrorKind) : Prop := x.1 <> 8 /\ x.2 = Interrupted.
(** A system call is not interrupted [patience] times in a row. *)
Definition awake : Prop := forall k, exists j, (j < patience)%nat /\ ~ interrupted (sys (k + j)).
Lemma notify_spec fuel q w :
  (exists j, (j < fuel)%nat /\ ~ interrupted (sys (w_tick w + j))) ->
  match notify sys fuel q w with
  | Ok (q', w') => w_stores w' = w_stores w /\ exists a b, q' = q <| notifications := a |> <| notification_full := b |>
  | Err _ => True
  | _ => False
  end.
Proof.
  revert w. induction fuel as [|fuel IH]; intros w (j & Hj & Ni); [lia|]. cbn [notify]. destruct (sys (w_tick w)) as [n e] eqn:E.
  destruct (n =? 8) eqn:E8; bools; [split; [done|]; exists (count 1 (notifications q)), (notification_full q); by destruct q|].
  destruct e; try done; [split; [done|]; exists (notifications q), (count 1 (notification_full q)); by destruct q|].
  destruct j as [|j]; [rewrite Nat.add_0_r, E in Ni; exfalso; by apply Ni|].
  assert (exists j, (j < fuel)%nat /\ ~ interrupted (sys (w_tick (world_tick w) + j))) as Hj'.
  { exists j. split; [lia|]. cbn. by rewrite <- plus_n_Sm in Ni. }
  specialize (IH (world_tick w) Hj'). by destruct (notify sys fuel q (world_tick w)) as [[q' w']| | |].
Qed.
Lemma vq_publish_spec m q r w :
  awake -> vrings_ok m q r ->
  match vq_publish guest sys patience r q w with
  | Ok (q', w') =>
      w_stores w' = w_stores w ++ [(sp_ptr (r_used r) + 2, to_le 2 (last_avail q))]
      /\ exists a b, q' = q <| notifications := a |> <| notification_full := b |>
  | Err _ => True
  | _ => False
  end.
Proof.
  intros A R. unfold vq_publish. rewrite (ro_started _ _ _ R). cbn [load].
  set (w1 := world_tick (store_bytes _ _ w)).
  assert (forall x y, (x, y) = (q, w1) -> w_stores y = w_stores w ++ [(sp_ptr (r_used r) + 2, to_le 2 (last_avail q))]
    /\ exists a b, x = q <| notifications := a |> <| notification_full := b |>) as Same.
  { intros x y [= -> ->]. split; [done|]. exists (notifications q), (notification_full q). by destruct q. }
  destruct (_ =? 0); [|by apply Same]. destruct (call q); [|by apply Same].
  pose proof (notify_spec patience q w1 (A (w_tick w1))) as N. destruct (notify sys patience q w1) as [[q' w']| | |]; done.
Qed.
End Calls.
