(* ===== verification/VhostWire.v ===== *)
(** * Framing of the vhost-user control socket ([examples/support/vhost_user/wire.rs])

    A control message is a header of twelve bytes and a body; file descriptors travel beside the bytes.
    The socket is nonblocking and takes and gives bytes in pieces.  [recvmsg k fd room] and [sock_write k fd data] are
    what these system calls give when they are the [k]-th access to the outside world, and [sys k] what [fcntl] gives.
    [wi_taken] and [wi_rights] are the bytes and descriptors that were taken off the socket, [wi_given] the
    bytes that it has accepted: the code does not keep them.  Integers have the order of bytes of the host, little endian. *)
From Stdlib Require Import ZArith Lia Bool.
From stdpp Require Import base numbers option list.
From S2P Require Import Prelude VhostMemory VhostQueue.
#[local] Open Scope Z_scope.

Record Message : Type := mkMessage { m_request : Z; m_flags : Z; m_body : list Z; m_fds : list Z }.
Definition check (m : Message) (bytes fds : Z) : outcome unit :=
  if negb (zlen (m_body m) =? bytes) || negb (zlen (m_fds m) =? fds) then bad else Ok tt.
Definition u32_at (b : list Z) (n : Z) : outcome Z := let* s := slice b n (n + 4) in Ok (from_le s).
Definition u64_at (b : list Z) (n : Z) : outcome Z := let* s := slice b n (n + 8) in Ok (from_le s).

Record Wire : Type := mkWire {
  wi_stream : Z; wi_header : list Z; header_have : Z; wi_body : list Z; body_have : Z; wi_fds : list Z;
  outgoing : list (list Z); sent : Z; eof : bool;
  wi_taken : list Z; wi_rights : list Z; wi_given : list Z
}.
#[export] Instance eta_Wire : Eta Wire := fun x =>
  mkWire (wi_stream x) (wi_header x) (header_have x) (wi_body x) (body_have x) (wi_fds x) (outgoing x) (sent x) (eof x)
    (wi_taken x) (wi_rights x) (wi_given x).

(** The parts of a control message beside the data: descriptors, descriptors whose length is
    malformed, or something else. *)
Inductive Control : Type := Rights (fds : list Z) | BadRights | OtherControl.
Record Received : Type := mkReceived { rc_data : list Z; rc_controls : list Control; rc_truncated : bool }.

Section Wire.
Context (recvmsg : nat -> Z -> Z -> ErrorKind + Received) (sock_write : nat -> Z -> list Z -> ErrorKind + Z)
  (sys : nat -> Z * ErrorKind) (patience : nat).
Implicit Types (x : Wire) (k : nat).

(** [Wire::new]; the first system call makes the stream nonblocking. *)
Definition wire_new (stream : Z) k : outcome (Wire * nat) :=
  let '(n, e) := sys k in
  if n <? 0 then Err e else Ok (mkWire stream (replicate 12 0) 0 [] 0 [] [] 0 false [] [] [], S k).
Definition wants_write x : bool := negb (bool_decide (outgoing x = [])).

Fixpoint wire_flush_loop (fuel : nat) x k : outcome (Wire * nat) :=
  match outgoing x with
  | [] => Ok (x, k)
  | bytes :: rest =>
      match fuel with
      | O => OutOfFuel
      | S fuel =>
          let* data := slice bytes (sent x) (zlen bytes) in
          match sock_write k (wi_stream x) data with
          | inr n =>
              if n =? 0 then bad
              else
                let x := x <| sent ::= Z.add n |> <| wi_given ::= fun l => l ++ take (Z.to_nat n) data |> in
                let x := if sent x =? zlen bytes then x <| outgoing := rest |> <| sent := 0 |> else x in
                wire_flush_loop fuel x (S k)
          | inl WouldBlock => Ok (x, S k)
          | inl Interrupted => wire_flush_loop fuel x (S k)
          | inl e => Err e
          end
      end
  end.
(** Every pass but the interrupted ones gives a byte. *)
Definition flush_fuel x : nat := S (length (concat (outgoing x))) * patience.
Definition wire_flush x k : outcome (Wire * nat) := wire_flush_loop (flush_fuel x) x k.

Definition wire_send (request : Z) (reply : bool) (body : list Z) x k : outcome (Wire * nat) :=
  if (4096 <? zlen body) || (64 <=? zlen (outgoing x)) then bad
  else
    let bytes := to_le 4 request ++ to_le 4 (if reply then 5 else 1) ++ to_le 4 (u32 (zlen body)) ++ body in
    wire_flush (x <| outgoing ::= fun l => l ++ [bytes] |>) k.

(** The descriptors that came with one read; [None] when their length is malformed. *)
Fixpoint controls (l : list Control) (fds : list Z) (unexpected : bool) : option (list Z * bool) :=
  match l with
  | [] => Some (fds, unexpected)
  | Rights f :: l => controls l (fds ++ f) unexpected
  | BadRights :: l => None
  | OtherControl :: l => controls l fds true
  end.
(** [FD_CLOEXEC] on each descriptor. *)
Fixpoint cloexec (fds : list Z) k : outcome nat :=
  match fds with
  | [] => Ok k
  | _ :: fds => let '(n, e) := sys k in if n <? 0 then Err e else cloexec fds (S k)
  end.
Fixpoint wire_receive_loop (fuel : nat) x k : outcome (option Message * Wire * nat) :=
  match fuel with
  | O => OutOfFuel
  | S fuel =>
      if (header_have x =? 12) && (body_have x =? zlen (wi_body x)) then
        let* request := u32_at (wi_header x) 0 in
        let* flags := u32_at (wi_header x) 4 in
        if negb (Z.land flags (U32MAX - 9) =? 0) || negb (Z.land flags 3 =? 1) then bad
        else
          Ok (Some (mkMessage request flags (wi_body x) (wi_fds x)),
              x <| header_have := 0 |> <| body_have := 0 |> <| wi_body := [] |> <| wi_fds := [] |>, k)
      else
        let header := header_have x <? 12 in
        let room := if header then zlen (wi_header x) - header_have x else zlen (wi_body x) - body_have x in
        match recvmsg k (wi_stream x) room with
        | inl WouldBlock => Ok (None, x, S k)
        | inl Interrupted => wire_receive_loop fuel x (S k)
        | inl e => Err e
        | inr rc =>
            match controls (rc_controls rc) [] false with
            | None => bad
            | Some (fds, unexpected) =>
                let x := x <| wi_fds ::= fun l => l ++ fds |> <| wi_rights ::= fun l => l ++ fds |>
                           <| wi_taken ::= fun l => l ++ rc_data rc |> in
                if unexpected || rc_truncated rc || (8 <? zlen (wi_fds x)) then bad
                else
                  let* k := cloexec (wi_fds x) (S k) in
                  let n := zlen (rc_data rc) in
                  if n =? 0 then
                    let x := x <| eof := true |> in
                    if negb (header_have x =? 0) || negb (body_have x =? 0) || negb (bool_decide (wi_fds x = [])) then bad
                    else Ok (None, x, k)
                  else if header then
                    let* h := copy_at (wi_header x) (header_have x) (rc_data rc) in
                    let x := x <| wi_header := h |> <| header_have ::= Z.add n |> in
                    if header_have x =? 12 then
                      let* size := u32_at (wi_header x) 8 in
                      if 4096 <? size then bad
                      else
                        (* [body.resize(size, 0)] *)
                        let l := take (Z.to_nat size) (wi_body x) in
                        wire_receive_loop fuel (x <| wi_body := l ++ replicate (Z.to_nat size - length l) 0 |>) k
                    else wire_receive_loop fuel x k
                  else
                    let* b := copy_at (wi_body x) (body_have x) (rc_data rc) in
                    wire_receive_loop fuel (x <| wi_body := b |> <| body_have ::= Z.add n |>) k
            end
        end
  end.
(** A message has at most 4108 bytes. *)
Definition wire_receive x k : outcome (option Message * Wire * nat) := wire_receive_loop (4109 * patience) x k.
End Wire.
