(* ===== verification/VhostWireProps.v ===== *)
(** * The control socket of the vhost-user backend carries messages whole and in order

    However the socket cuts the stream, the messages that are received are, with their descriptors, a parse of the
    bytes that were taken off it, and the bytes that are sent are the frames of the messages in order. *)
From Stdlib Require Import ZArith Lia Bool.
From stdpp Require Import base numbers option list.
From S2P Require Import Prelude VhostMemory VhostQueue VhostQueueProps VhostWire.
#[local] Open Scope Z_scope.
Implicit Types (x : Wire) (k : nat).

(** The frame of a message. *)
Definition encode_message (request flags : Z) (body : list Z) : list Z := to_le 4 request ++ to_le 4 flags ++ to_le 4 (zlen body) ++ body.
Definition frame_of (msg : Message) : list Z := encode_message (m_request msg) (m_flags msg) (m_body msg).
#[local] Arguments frame_of : simpl never.
(** A message that the code accepts: version one, at most the reply flag, and bounded. *)
Record message_ok (msg : Message) : Prop := {
  me_request : 0 <= m_request msg < W32;
  me_flags : m_flags msg = 1 \/ m_flags msg = 9;
  me_body : bytes_ok (m_body msg);
  me_size : zlen (m_body msg) <= 4096;
  me_fds : zlen (m_fds msg) <= 8
}.
Definition wire_pending x : list Z := take (Z.to_nat (header_have x)) (wi_header x) ++ take (Z.to_nat (body_have x)) (wi_body x).
Record wire_ok (taken rights : list Z) x : Prop := {
  wo_header : zlen (wi_header x) = 12;
  wo_header_bytes : bytes_ok (wi_header x);
  wo_have : 0 <= header_have x <= 12;
  wo_body_bytes : bytes_ok (wi_body x);
  wo_body : 0 <= body_have x <= zlen (wi_body x);
  wo_size : zlen (wi_body x) <= 4096;
  wo_none : header_have x < 12 -> wi_body x = [];
  wo_some : header_have x = 12 -> zlen (wi_body x) = from_le (drop 8 (wi_header x));
  wo_taken : wi_taken x = taken ++ wire_pending x;
  wo_rights : wi_rights x = rights ++ wi_fds x;
  wo_fds : zlen (wi_fds x) <= 8
}.
(** The part of the wire that sends. *)
Definition sending x : Z * list (list Z) * Z * list Z := (wi_stream x, outgoing x, sent x, wi_given x).

Lemma to_from_le l : bytes_ok l -> to_le (length l) (from_le l) = l.
Proof.
  induction 1 as [|b l Hb F IH]; [done|]. cbn [length to_le from_le]. unfold is_byte in Hb.
  rewrite (Z.mul_comm 256), Z.mod_add, Z.mod_small, Z.div_add, Z.div_small, Z.add_0_l, IH by lia. done.
Qed.
#[local] Arguments to_le : simpl never.
Lemma u32_at_ok b n : 0 <= n -> n + 4 <= zlen b -> u32_at b n = Ok (from_le (take 4 (drop (Z.to_nat n) b))).
Proof. intros. unfold u32_at. rewrite slice_ok by lia. cbn [obind]. by replace (Z.to_nat (n + 4 - n)) with 4%nat by lia. Qed.
Lemma flags_valid f : 0 <= f < W32 -> Z.land f (U32MAX - 9) = 0 -> Z.land f 3 = 1 -> f = 1 \/ f = 9.
Proof.
  intros Hf H1 H3.
  assert (f = Z.land f 9) as E.
  { transitivity (Z.land f U32MAX); [change U32MAX with (Z.ones 32); rewrite Z.land_ones by lia; symmetry; by apply Z.mod_small|].
    change U32MAX with (Z.lor (U32MAX - 9) 9). by rewrite Z.land_lor_distr_r, H1. }
  assert (0 <= f < 16) as Hr.
  { rewrite E. replace 9 with (Z.land 9 (Z.ones 4)) by done. rewrite Z.land_assoc, Z.land_ones by lia. apply Z.mod_pos_bound. lia. }
  assert (f ∈ seqZ 0 16) as Hin by (apply elem_of_seqZ; lia). revert H3 E. clear -Hin. cbn in Hin.
  repeat (apply elem_of_cons in Hin as [-> |Hin]; [vm_compute; intros; by auto|]). by apply elem_of_nil in Hin.
Qed.
Lemma controls_app l fds u fds' u' : controls l fds u = Some (fds', u') -> exists more, fds' = fds ++ more.
Proof.
  revert fds u. induction l as [|[f| |] l IH]; intros fds u; cbn [controls].
  - intros [= <- _]. exists []. by rewrite app_nil_r.
  - intros E. apply IH in E as [more ->]. exists (f ++ more). by rewrite app_assoc.
  - done.
  - apply IH.
Qed.
(** A copy at the end of what was filled extends it. *)
Lemma take_copied l n src l' : copy_at l n src = Ok l' -> take (Z.to_nat (zlen src + n)) l' = take (Z.to_nat n) l ++ src.
Proof.
  intros E. pose proof (copy_at_inv _ _ _ _ E) as (_ & Hn & Hl). rewrite copy_at_ok in E by done. injection E as <-.
  rewrite app_assoc. apply take_app_length'. rewrite length_app, length_take. unfold zlen in *. lia.
Qed.

Section Receive.
Context (recvmsg : nat -> Z -> Z -> ErrorKind + Received) (sys : nat -> Z * ErrorKind) (patience : nat).
(** A read gives at most what there is room for, and is not interrupted forever. *)
Record recv_ok : Prop := {
  ro_room : forall k fd room rc, recvmsg k fd room = inr rc -> zlen (rc_data rc) <= room /\ bytes_ok (rc_data rc);
  ro_awake : forall k fd room, exists j, (j < patience)%nat /\ recvmsg (k + j) fd room <> inl Interrupted
}.
Lemma cloexec_spec fds k : match cloexec sys fds k with Ok _ | Err _ => True | _ => False end.
Proof. revert k. induction fds as [|f fds IH]; intros k; [done|]. cbn [cloexec]. destruct (sys k) as [n e]. destruct (n <? 0); [done|apply IH]. Qed.

Definition missing x : Z := if header_have x <? 12 then 12 - header_have x + 4096 else zlen (wi_body x) - body_have x.
Definition complete_message x : bool := (header_have x =? 12) && (body_have x =? zlen (wi_body x)).
Definition received_post (P R : list Z) (x0 : Wire) (res : outcome (option Message * Wire * nat)) : Prop :=
  match res with
  | Ok (Some msg, x', _) =>
      message_ok msg /\ wire_ok (P ++ frame_of msg) (R ++ m_fds msg) x' /\ wire_pending x' = [] /\ sending x' = sending x0
  | Ok (None, x', _) => wire_ok P R x' /\ complete_message x' = false /\ sending x' = sending x0
  | Err _ => True
  | _ => False
  end.
(** A complete message is delivered. *)
Lemma deliver_spec P R x k :
  wire_ok P R x -> complete_message x = true ->
  received_post P R x
    (let* request := u32_at (wi_header x) 0 in
     let* flags := u32_at (wi_header x) 4 in
     if negb (Z.land flags (U32MAX - 9) =? 0) || negb (Z.land flags 3 =? 1) then bad
     else Ok (Some (mkMessage request flags (wi_body x) (wi_fds x)),
              x <| header_have := 0 |> <| body_have := 0 |> <| wi_body := [] |> <| wi_fds := [] |>, k)).
Proof.
  intros [W1 W2 W3 W4 W5 W6 W7 W8 W9 W10 W11] C. unfold complete_message in C. bools. destruct C as [C1 C2].
  specialize (W8 C1). rewrite !u32_at_ok by lia. cbn [obind]. destruct (_ || _) eqn:E; [done|]. bools. destruct E as [E1 E2].
  change (Z.to_nat 0) with 0%nat in *. change (Z.to_nat 4) with 4%nat in *. rewrite drop_0 in *.
  set (h := wi_header x) in *.
  assert (length h = 12%nat) as Lh by (unfold zlen in W1; lia).
  assert (forall l, bytes_ok l -> length l = 4%nat -> 0 <= from_le l < W32) as R4.
  { intros l Bl Ll. pose proof (from_le_range l Bl) as R4. unfold zlen in R4. by rewrite Ll in R4. }
  set (a := take 4 h) in *. set (b := take 4 (drop 4 h)) in *.
  assert (bytes_ok a /\ length a = 4%nat) as [Ba La] by (unfold a; split; [by apply bytes_take|rewrite length_take; lia]).
  assert (bytes_ok b /\ length b = 4%nat) as [Bb Lb] by (unfold b; split; [by apply bytes_take, bytes_drop|rewrite length_take, length_drop; lia]).
  assert (bytes_ok (drop 8 h) /\ length (drop 8 h) = 4%nat) as [Bc Lc] by (split; [by apply bytes_drop|rewrite length_drop; lia]).
  assert (h = a ++ b ++ drop 8 h) as Eh.
  { unfold a, b. rewrite <- (take_drop 4 h) at 1. f_equal. rewrite <- (take_drop 4 (drop 4 h)) at 1. by rewrite drop_drop. }
  assert (wire_pending x = encode_message (from_le a) (from_le b) (wi_body x)) as Ep.
  { unfold wire_pending, encode_message. fold h. rewrite C1, C2. change (Z.to_nat 12) with 12%nat. rewrite <- Lh, firstn_all.
    unfold zlen at 1. rewrite Nat2Z.id, firstn_all, W8. rewrite <- La at 1. rewrite to_from_le by done.
    rewrite <- Lb at 1. rewrite to_from_le by done. rewrite <- Lc at 1. rewrite to_from_le by done.
    rewrite Eh at 1. by rewrite <- !app_assoc. }
  split_and!; [| |done|done].
  - constructor; cbn; try done; [by apply R4|]. apply flags_valid; [by apply R4|done|done].
  - constructor; cbn; fold h; try done.
    + constructor.
    + rewrite W9, Ep. by rewrite app_nil_r.
    + by rewrite app_nil_r.
Qed.
(** Bytes and descriptors that have arrived, not yet stored. *)
Definition arrived (data fds : list Z) x : Wire :=
  x <| wi_fds ::= fun l => l ++ fds |> <| wi_rights ::= fun l => l ++ fds |> <| wi_taken ::= fun l => l ++ data |>.
Lemma header_part P R x data fds h :
  wire_ok P R x -> header_have x < 12 -> zlen (wi_fds (arrived data fds x)) <= 8 -> bytes_ok data ->
  copy_at (wi_header x) (header_have x) data = Ok h -> zlen data + header_have x < 12 ->
  wire_ok P R (arrived data fds x <| wi_header := h |> <| header_have ::= Z.add (zlen data) |>).
Proof.
  intros [W1 W2 W3 W4 W5 W6 W7 W8 W9 W10 W11] Hh Hf Bd Ec Hn. pose proof (copy_at_inv _ _ _ _ Ec) as (Lh & _).
  specialize (W7 Hh). pose proof (zlen_nonneg data). unfold arrived. constructor; cbn; try done; try lia.
  - by eapply copy_at_bytes.
  - rewrite W9. unfold wire_pending. cbn. rewrite (take_copied _ _ _ _ Ec), W7, !take_nil, !app_nil_r. by rewrite app_assoc.
  - by rewrite W10, app_assoc.
Qed.
Lemma header_whole P R x data fds h :
  wire_ok P R x -> header_have x < 12 -> zlen (wi_fds (arrived data fds x)) <= 8 -> bytes_ok data ->
  copy_at (wi_header x) (header_have x) data = Ok h -> zlen data + header_have x = 12 ->
  let size := from_le (drop 8 h) in size <= 4096 ->
  wire_ok P R (arrived data fds x <| wi_header := h |> <| header_have ::= Z.add (zlen data) |> <| wi_body := replicate (Z.to_nat size) 0 |>).
Proof.
  intros [W1 W2 W3 W4 W5 W6 W7 W8 W9 W10 W11] Hh Hf Bd Ec Hn size Hs. pose proof (copy_at_inv _ _ _ _ Ec) as (Lh & _).
  specialize (W7 Hh). pose proof (copy_at_bytes _ _ _ _ Ec W2 Bd) as Bh.
  assert (0 <= size) as Hs0 by (apply from_le_range; by apply bytes_drop). rewrite W7 in W5. change (zlen []) with 0 in W5.
  unfold arrived. constructor; cbn; rewrite ?zlen_replicate; try done; try lia.
  - apply bytes_zeros.
  - rewrite W9. unfold wire_pending. cbn. replace (body_have x) with 0 by lia. rewrite (take_copied _ _ _ _ Ec), take_0, !app_nil_r. by rewrite app_assoc.
  - by rewrite W10, app_assoc.
Qed.
Lemma body_part P R x data fds b :
  wire_ok P R x -> header_have x = 12 -> zlen (wi_fds (arrived data fds x)) <= 8 -> bytes_ok data ->
  copy_at (wi_body x) (body_have x) data = Ok b -> zlen data + body_have x <= zlen (wi_body x) ->
  wire_ok P R (arrived data fds x <| wi_body := b |> <| body_have ::= Z.add (zlen data) |>).
Proof.
  intros [W1 W2 W3 W4 W5 W6 W7 W8 W9 W10 W11] Hh Hf Bd Ec Hn. pose proof (copy_at_inv _ _ _ _ Ec) as (Lb & _).
  pose proof (zlen_nonneg data). specialize (W8 Hh). unfold arrived. constructor; cbn; try done; try lia.
  - by eapply copy_at_bytes.
  - rewrite W9. unfold wire_pending. cbn. rewrite (take_copied _ _ _ _ Ec). by rewrite !app_assoc.
  - by rewrite W10, app_assoc.
Qed.
(** One read into the header, respectively into the body; [loop] is the rest of the loop. *)
Lemma header_step P R x0 x data fds loop :
  wire_ok P R x -> header_have x < 12 -> zlen (wi_fds (arrived data fds x)) <= 8 -> bytes_ok data ->
  0 < zlen data <= 12 - header_have x ->
  (forall x', wire_ok P R x' -> sending x' = sending x -> missing x' <= missing x - 1 -> received_post P R x0 (loop x')) ->
  received_post P R x0
    (let* h := copy_at (wi_header x) (header_have x) data in
     let x := arrived data fds x <| wi_header := h |> <| header_have ::= Z.add (zlen data) |> in
     if header_have x =? 12 then
       let* size := u32_at (wi_header x) 8 in
       if 4096 <? size then bad
       else
         let l := take (Z.to_nat size) (wi_body x) in
         loop (x <| wi_body := l ++ replicate (Z.to_nat size - length l) 0 |>)
     else loop x).
Proof.
  intros W Hh Hfds Br Hd Next. pose proof W as [W1 _ W3 _ W5 _ W7 _ _ _ _]. specialize (W7 Hh). unfold missing in Next.
  rewrite (proj2 (Z.ltb_lt (header_have x) 12)) in Next by done.
  destruct (copy_at (wi_header x) (header_have x) data) as [h| | |] eqn:Ec; cbn [obind];
    try (unfold copy_at in Ec; replace (_ && _) with true in Ec by (symmetry; bools; lia); done).
  pose proof (copy_at_inv _ _ _ _ Ec) as (Lh & _). cbv zeta.
  destruct (_ =? 12) eqn:E12; bools; cbn in E12.
  - rewrite u32_at_ok by (cbn; lia). cbn [obind]. change (Z.to_nat 8) with 8%nat. cbn [wi_header].
    rewrite (take_ge (drop 8 h)) by (rewrite length_drop; unfold zlen in *; lia).
    destruct (4096 <? _) eqn:E4; [done|]. bools.
    change (wi_body (arrived data fds x <| wi_header := h |> <| header_have ::= Z.add (zlen data) |>)) with (wi_body x).
    rewrite W7, take_nil, Nat.sub_0_r. cbn [app].
    pose proof (header_whole P R x data fds h W Hh Hfds Br Ec E12 E4) as W'. apply Next; [exact W'|done|].
    cbn [header_have]. rewrite (proj2 (Z.ltb_ge _ 12)) by (cbn; lia). destruct W' as [_ _ _ _ W5' W6' _ _ _ _ _].
    cbn in W5', W6' |- *. lia.
  - pose proof (header_part P R x data fds h W Hh Hfds Br Ec ltac:(cbn in *; lia)) as W'. apply Next; [exact W'|done|].
    rewrite (proj2 (Z.ltb_lt _ 12)) by (cbn in *; lia). cbn. lia.
Qed.
Lemma body_step P R x0 x data fds loop :
  wire_ok P R x -> header_have x = 12 -> zlen (wi_fds (arrived data fds x)) <= 8 -> bytes_ok data ->
  0 < zlen data <= zlen (wi_body x) - body_have x ->
  (forall x', wire_ok P R x' -> sending x' = sending x -> missing x' <= missing x - 1 -> received_post P R x0 (loop x')) ->
  received_post P R x0
    (let* b := copy_at (wi_body x) (body_have x) data in
     loop (arrived data fds x <| wi_body := b |> <| body_have ::= Z.add (zlen data) |>)).
Proof.
  intros W Hh Hfds Br Hd Next. pose proof W as [_ _ _ _ W5 _ _ _ _ _ _]. unfold missing in Next.
  rewrite (proj2 (Z.ltb_ge (header_have x) 12)) in Next by lia.
  destruct (copy_at (wi_body x) (body_have x) data) as [b| | |] eqn:Ec; cbn [obind];
    try (unfold copy_at in Ec; replace (_ && _) with true in Ec by (symmetry; bools; lia); done).
  pose proof (copy_at_inv _ _ _ _ Ec) as (Lb & _).
  pose proof (body_part P R x data fds b W ltac:(lia) Hfds Br Ec ltac:(lia)) as W'. apply Next; [exact W'|done|].
  rewrite (proj2 (Z.ltb_ge _ 12)) by (cbn; lia). cbn. lia.
Qed.
Definition wire_room x : Z := if header_have x <? 12 then zlen (wi_header x) - header_have x else zlen (wi_body x) - body_have x.
(** [j] more reads are interrupted, at most [missing x] of the others are needed. *)
Lemma wire_receive_loop_spec P R x0 fuel x k j :
  recv_ok -> wire_ok P R x -> sending x = sending x0 ->
  (j < patience)%nat -> recvmsg (k + j) (wi_stream x) (wire_room x) <> inl Interrupted ->
  missing x * Z.of_nat patience + Z.of_nat j < Z.of_nat fuel ->
  received_post P R x0 (wire_receive_loop recvmsg sys fuel x k).
Proof.
  intros Hr. revert x k j. induction fuel as [|fuel IH]; intros x k j W Es Hj Ha Hf.
  { exfalso. assert (0 <= missing x) by (unfold missing; destruct W; destruct (_ <? _) eqn:E; bools; lia). lia. }
  assert (forall k' x', wire_ok P R x' -> sending x' = sending x -> missing x' <= missing x - 1 ->
    received_post P R x0 (wire_receive_loop recvmsg sys fuel x' k')) as Next.
  { intros k' x' W' Es' M. destruct (ro_awake Hr k' (wi_stream x') (wire_room x')) as (j' & Hj' & A').
    apply (IH x' k' j' W' ltac:(congruence) Hj' A').
    assert (missing x' * Z.of_nat patience <= (missing x - 1) * Z.of_nat patience) by (apply Z.mul_le_mono_nonneg_r; lia). lia. }
  cbn [wire_receive_loop]. change (_ && _) with (complete_message x). destruct (complete_message x) eqn:C.
  { pose proof (deliver_spec P R x k W C) as D. unfold received_post in *. by rewrite <- Es. }
  change (if header_have x <? 12 then zlen _ - _ else _) with (wire_room x).
  destruct (recvmsg k (wi_stream x) (wire_room x)) as [e|rc] eqn:Er.
  { destruct e; try done. destruct j as [|j]; [by rewrite Nat.add_0_r, Er in Ha|].
    apply (IH x (S k) j); try done; [lia| |lia]. by rewrite <- plus_n_Sm in Ha. }
  clear Ha. destruct (ro_room Hr _ _ _ _ Er) as [Lr Br]. destruct (controls _ _ _) as [[fds u]|]; [|done].
  set (data := rc_data rc) in *. change (x <| wi_fds ::= _ |> <| wi_rights ::= _ |> <| wi_taken ::= _ |>) with (arrived data fds x).
  destruct (_ || _) eqn:Eu; [done|]. bools. destruct Eu as [_ Hfds]. pose proof (cloexec_spec (wi_fds (arrived data fds x)) (S k)) as Hc.
  destruct (cloexec _ _ _) as [k1| | |]; cbn [obind]; try done. destruct (zlen data =? 0) eqn:En.
  { bools. apply zlen_zero_nil in En. destruct (_ || _) eqn:E0; [done|]. bools. destruct E0 as [[E1 E2] E3]. cbn in E1, E2.
    apply bool_decide_eq_true in E3. cbn in E3. apply app_eq_nil in E3 as [E3 ->]. split_and!; [|exact C|exact Es].
    destruct W. constructor; cbn; rewrite ?En, ?app_nil_r; done. }
  bools. pose proof (zlen_nonneg data). pose proof W as [W1 _ W3 _ _ _ _ _ _ _ _]. unfold wire_room in Lr.
  destruct (header_have x <? 12) eqn:Eh; bools.
  - apply (header_step P R x0 x data fds (fun x => wire_receive_loop recvmsg sys fuel x k1)); [done|done|done|done|lia|apply Next].
  - apply (body_step P R x0 x data fds (fun x => wire_receive_loop recvmsg sys fuel x k1)); [done|lia|done|done|lia|apply Next].
Qed.
Lemma wire_receive_spec P R x k : recv_ok -> wire_ok P R x -> received_post P R x (wire_receive recvmsg sys patience x k).
Proof.
  intros Hr W. destruct (ro_awake Hr k (wi_stream x) (wire_room x)) as (j & Hj & A). apply (wire_receive_loop_spec P R x _ x k j); try done.
  assert (missing x <= 4108) as M by (unfold missing; destruct W; destruct (_ <? _) eqn:E; bools; lia). rewrite Nat2Z.inj_mul.
  pose proof (Z.mul_le_mono_nonneg_r (missing x) 4108 (Z.of_nat patience) ltac:(lia) M). change (Z.of_nat 4109) with 4109. lia.
Qed.
End Receive.

(** ** Sending *)
Section Send.
Context (sock_write : nat -> Z -> list Z -> ErrorKind + Z) (patience : nat).
(** A write takes at most what it is given, and is not interrupted forever. *)
Record write_ok : Prop := {
  wr_taken : forall k fd data n, sock_write k fd data = inr n -> 0 <= n <= zlen data;
  wr_awake : forall k fd data, exists j, (j < patience)%nat /\ sock_write (k + j) fd data <> inl Interrupted
}.
Record send_ok x : Prop := {
  se_frames : Forall (fun f : list Z => 0 < zlen f) (outgoing x);
  se_sent : match outgoing x with [] => sent x = 0 | f :: _ => 0 <= sent x < zlen f end;
  se_bound : zlen (outgoing x) <= 64
}.
(** The bytes that are still to be given to the socket. *)
Definition wire_queued x : list Z := drop (Z.to_nat (sent x)) (concat (outgoing x)).
(** The part of the wire that receives. *)
Definition receiving x : list Z * Z * list Z * Z * list Z * bool * list Z * list Z :=
  (wi_header x, header_have x, wi_body x, body_have x, wi_fds x, eof x, wi_taken x, wi_rights x).
Definition flushed_post x0 (all : list Z) (res : outcome (Wire * nat)) : Prop :=
  match res with
  | Ok (x', _) => send_ok x' /\ wi_given x' ++ wire_queued x' = all /\ receiving x' = receiving x0 /\ wi_stream x' = wi_stream x0
  | Err _ => True
  | _ => False
  end.
Lemma flush_step x n f rest :
  send_ok x -> outgoing x = f :: rest -> 0 < n <= zlen f - sent x ->
  let data := drop (Z.to_nat (sent x)) f in
  let x1 := x <| sent ::= Z.add n |> <| wi_given ::= fun l => l ++ take (Z.to_nat n) data |> in
  let x2 := if sent x1 =? zlen f then x1 <| outgoing := rest |> <| sent := 0 |> else x1 in
  send_ok x2 /\ wi_given x2 ++ wire_queued x2 = wi_given x ++ wire_queued x /\ zlen (wire_queued x2) = zlen (wire_queued x) - n
  /\ receiving x2 = receiving x /\ wi_stream x2 = wi_stream x.
Proof.
  intros [S1 S2 S3] Eo Hn data. cbv zeta. rewrite Eo in *. apply Forall_cons in S1 as [F1 S1]. rewrite zlen_cons in S3.
  change (sent (x <| sent ::= Z.add n |> <| wi_given ::= fun l => l ++ take (Z.to_nat n) data |>)) with (n + sent x).
  assert (wire_queued x = data ++ concat rest) as Eq.
  { unfold wire_queued, data. rewrite Eo. cbn [concat]. apply drop_app_le. unfold zlen in *. lia. }
  assert (zlen data = zlen f - sent x) as Ld by (unfold data; rewrite zlen_drop; lia).
  match goal with |- context [if n + sent x =? zlen f then ?a else ?b] => set (x2 := if n + sent x =? zlen f then a else b) end.
  assert (wire_queued x2 = drop (Z.to_nat n) data ++ concat rest /\ send_ok x2 /\ wi_given x2 = wi_given x ++ take (Z.to_nat n) data
    /\ receiving x2 = receiving x /\ wi_stream x2 = wi_stream x) as (Eq2 & So & Eg & Er & Est).
  { unfold x2. destruct (_ =? zlen f) eqn:E; bools; split_and!; try done.
    - unfold wire_queued. cbn. rewrite (drop_ge data) by (unfold zlen in *; lia). done.
    - constructor; cbn; [done| |lia]. destruct rest as [|g rest]; [done|]. apply Forall_cons in S1 as [G1 _]. lia.
    - unfold wire_queued. cbn. rewrite Eo. cbn [concat]. rewrite drop_app_le by (unfold zlen in *; lia). f_equal. unfold data.
      rewrite drop_drop. f_equal. lia.
    - constructor; cbn; rewrite Eo; [by constructor|lia|rewrite zlen_cons; lia]. }
  rewrite Eq2, Eg, Eq. split_and!; try done.
  - rewrite <- app_assoc, (app_assoc (take _ _)), take_drop. done.
  - rewrite !zlen_app, zlen_drop. lia.
Qed.
Lemma wire_flush_loop_spec fuel x x0 k j :
  write_ok -> send_ok x -> receiving x = receiving x0 -> wi_stream x = wi_stream x0 -> (j < patience)%nat ->
  (forall f rest, outgoing x = f :: rest -> sock_write (k + j) (wi_stream x) (drop (Z.to_nat (sent x)) f) <> inl Interrupted) ->
  zlen (wire_queued x) * Z.of_nat patience + Z.of_nat j < Z.of_nat fuel ->
  flushed_post x0 (wi_given x ++ wire_queued x) (wire_flush_loop sock_write fuel x k).
Proof.
  intros Hw. revert x k j. induction fuel as [|fuel IH]; intros x k j So Er Es Hj Ha Hf; [pose proof (zlen_nonneg (wire_queued x)); lia|].
  cbn [wire_flush_loop]. destruct (outgoing x) as [|f rest] eqn:Eo; [done|]. pose proof (se_sent _ So) as Ss. rewrite Eo in Ss.
  rewrite slice_ok by lia. cbn [obind]. rewrite take_ge by (rewrite length_drop; unfold zlen in *; lia).
  set (data := drop _ f) in *. destruct (sock_write k (wi_stream x) data) as [e|n] eqn:Ew.
  { destruct e; try done. destruct j as [|j]; [specialize (Ha _ _ eq_refl); by rewrite Nat.add_0_r in Ha|].
    apply (IH x (S k) j); try done; [lia| |lia]. intros f' rest' Ef. rewrite Eo in Ef. injection Ef as <- <-.
    specialize (Ha _ _ eq_refl). by rewrite <- plus_n_Sm in Ha. }
  pose proof (wr_taken Hw _ _ _ _ Ew) as Hn. assert (zlen data = zlen f - sent x) as Ld by (unfold data; rewrite zlen_drop; lia).
  destruct (n =? 0) eqn:E0; [done|]. bools.
  destruct (flush_step x n f rest So Eo ltac:(lia)) as (So2 & E2 & L2 & R2 & T2). fold data in So2, E2, L2, R2, T2. cbv zeta.
  match goal with |- context [wire_flush_loop _ fuel ?a (S k)] => set (x2 := a) in * end. rewrite <- E2.
  assert (exists j', (j' < patience)%nat /\ forall f rest, outgoing x2 = f :: rest -> sock_write (S k + j') (wi_stream x2) (drop (Z.to_nat (sent x2)) f) <> inl Interrupted)
    as (j' & Hj' & A').
  { destruct (outgoing x2) as [|g r2]; [by exists j|]. destruct (wr_awake Hw (S k) (wi_stream x2) (drop (Z.to_nat (sent x2)) g)) as (j' & Hj' & A').
    exists j'. split; [done|]. by intros ? ? [= <- _]. }
  apply (IH x2 (S k) j'); try done; [congruence|congruence|]. rewrite L2.
  pose proof (Z.mul_le_mono_nonneg_r (zlen (wire_queued x) - n) (zlen (wire_queued x) - 1) (Z.of_nat patience) ltac:(lia) ltac:(lia)). lia.
Qed.
Lemma wire_flush_spec x k : write_ok -> send_ok x -> flushed_post x (wi_given x ++ wire_queued x) (wire_flush sock_write patience x k).
Proof.
  intros Hw So.
  assert (exists j, (j < patience)%nat /\ forall f rest, outgoing x = f :: rest -> sock_write (k + j) (wi_stream x) (drop (Z.to_nat (sent x)) f) <> inl Interrupted)
    as (j & Hj & A).
  { destruct (wr_awake Hw k (wi_stream x) (drop (Z.to_nat (sent x)) (hd [] (outgoing x)))) as (j & Hj & A). exists j. split; [done|].
    intros f rest E. by rewrite E in A. }
  apply (wire_flush_loop_spec _ x x k j); try done. unfold flush_fuel, wire_queued. rewrite Nat2Z.inj_mul, Nat2Z.inj_succ.
  assert (zlen (drop (Z.to_nat (sent x)) (concat (outgoing x))) <= Z.of_nat (length (concat (outgoing x)))) as L by (unfold zlen; rewrite length_drop; lia).
  pose proof (Z.mul_le_mono_nonneg_r _ _ (Z.of_nat patience) ltac:(lia) L). lia.
Qed.
Lemma wire_send_spec request (reply : bool) body x k :
  write_ok -> send_ok x ->
  flushed_post x (wi_given x ++ wire_queued x ++ encode_message request (if reply then 5 else 1) body) (wire_send sock_write patience request reply body x k).
Proof.
  intros Hw [S1 S2 S3]. unfold wire_send. destruct (_ || _) eqn:E; [done|]. bools. destruct E as [E1 E2].
  assert (u32 (zlen body) = zlen body) as -> by (apply Z.mod_small; pose proof (zlen_nonneg body); unfold W32; lia). fold (encode_message request (if reply then 5 else 1) body).
  set (fr := encode_message _ _ _). assert (0 < zlen fr) as Lf by (unfold fr, encode_message; rewrite !zlen_app, !to_le_length; pose proof (zlen_nonneg body); lia).
  match goal with |- context [wire_flush _ _ ?a k] => set (x1 := a) end.
  assert (send_ok x1) as So1.
  { constructor; cbn.
    - apply Forall_app. split; [done|]. by apply Forall_cons.
    - destruct (outgoing x) as [|g r]; cbn; [|done]. rewrite S2. lia.
    - rewrite zlen_app. change (zlen [fr]) with 1. lia. }
  pose proof (wire_flush_spec x1 k Hw So1) as F. replace (wi_given x ++ wire_queued x ++ fr) with (wi_given x1 ++ wire_queued x1); [exact F|].
  cbn. f_equal. unfold wire_queued. cbn. rewrite concat_app. cbn. rewrite app_nil_r. apply drop_app_le.
  destruct (outgoing x) as [|g r]; [cbn; rewrite S2; done|]. cbn [concat]. rewrite length_app. unfold zlen in *. lia.
Qed.
End Send.

(** ** From one end of a socket to the other *)
Definition sent_frame (op : option (Z * bool * list Z)) : list Z :=
  match op with Some (request, reply, body) => encode_message request (if reply then 5 else 1) body | None => [] end.
Definition op_ok (op : option (Z * bool * list Z)) : Prop :=
  match op with Some (request, _, body) => 0 <= request < W32 /\ zlen body < W32 | None => True end.
Definition fields (msg : Message) : Z * Z * list Z := (m_request msg, m_flags msg, m_body msg).
Definition op_fields (op : option (Z * bool * list Z)) : list (Z * Z * list Z) :=
  match op with Some (request, reply, body) => [(request, if reply then 5 else 1, body)] | None => [] end.
Definition frame3 (f : Z * Z * list Z) : list Z := encode_message f.1.1 f.1.2 f.2.
Definition fields_ok (f : Z * Z * list Z) : Prop := 0 <= f.1.1 < W32 /\ 0 <= f.1.2 < W32 /\ zlen f.2 < W32.

Lemma to_le4_inj a b : 0 <= a < W32 -> 0 <= b < W32 -> to_le 4 a = to_le 4 b -> a = b.
Proof.
  intros Ha Hb E. apply (f_equal from_le) in E. rewrite !from_to_le in E. change (256 ^ Z.of_nat 4) with W32 in E. by rewrite !Z.mod_small in E.
Qed.
Lemma frame3_inj f g u v : fields_ok f -> fields_ok g -> frame3 f ++ u = frame3 g ++ v -> f = g /\ u = v.
Proof.
  destruct f as [[r fl] b], g as [[r' fl'] b']. unfold fields_ok, frame3, encode_message. cbn [fst snd]. intros (F1 & F2 & F3) (G1 & G2 & G3) E.
  rewrite <- !app_assoc in E. pose proof (zlen_nonneg b). pose proof (zlen_nonneg b').
  apply app_inj_1 in E as [E1 E]; [|done]. apply app_inj_1 in E as [E2 E]; [|done]. apply app_inj_1 in E as [E3 E]; [|done].
  apply to_le4_inj in E1, E2, E3; try done. apply app_inj_1 in E as [-> ->]; [|unfold zlen in *; lia]. by subst.
Qed.
Lemma frame3_length f : zlen (frame3 f) = 12 + zlen f.2.
Proof. unfold frame3, encode_message. rewrite !zlen_app, !to_le_length. lia. Qed.
(** A stream of frames has one reading. *)
Lemma frames_prefix ds ms u v :
  Forall fields_ok ds -> Forall fields_ok ms -> concat (map frame3 ds) ++ u = concat (map frame3 ms) ++ v ->
  zlen v < 12 -> exists rest, ms = ds ++ rest /\ u = concat (map frame3 rest) ++ v.
Proof.
  intros Fd. revert ms. induction Fd as [|d ds Hd Fd IH]; intros ms Fm E Lv; [by exists ms|]. destruct Fm as [|m ms Hm Fm].
  - exfalso. apply (f_equal zlen) in E. cbn in E. rewrite !zlen_app, frame3_length in E. pose_zlen. change (zlen []) with 0 in E. lia.
  - cbn [map concat] in E. rewrite <- !app_assoc in E. apply frame3_inj in E as [-> E]; try done.
    destruct (IH ms Fm E Lv) as (rest & -> & ->). by exists rest.
Qed.
(** What is pending of an incomplete message is less than a frame. *)
Lemma pending_incomplete P R x f u :
  wire_ok P R x -> complete_message x = false -> fields_ok f -> wire_pending x <> frame3 f ++ u.
Proof.
  intros [W1 W2 W3 W4 W5 W6 W7 W8 _ _ _] C Hf E. unfold complete_message in C.
  assert (zlen (wire_pending x) = header_have x + body_have x) as L.
  { unfold wire_pending. rewrite zlen_app, !zlen_take. rewrite !Z2Nat.id by lia. lia. }
  pose proof (f_equal zlen E) as L2. rewrite zlen_app, frame3_length, L in L2. pose_zlen.
  destruct (decide (header_have x < 12)) as [Hh|Hh]; [rewrite (W7 Hh) in W5; change (zlen []) with 0 in W5; lia|].
  assert (header_have x = 12) as Eh by lia. specialize (W8 Eh). rewrite Eh in C. cbn [Z.eqb Pos.eqb andb] in C. bools.
  enough (zlen (wi_body x) = zlen f.2) by lia. rewrite W8.
  unfold wire_pending in E. rewrite Eh, take_ge in E by (unfold zlen in *; lia).
  apply (f_equal (fun l => take 4 (drop 8 l))) in E.
  rewrite (drop_app_le _ _ 8), take_app_le in E by (rewrite ?length_drop; unfold zlen in *; lia).
  rewrite (take_ge (drop 8 _)) in E by (rewrite length_drop; unfold zlen in *; lia). rewrite E.
  destruct f as [[r fl] b]. unfold frame3, encode_message. cbn [fst snd]. change 8%nat with (4 + 4)%nat. rewrite <- drop_drop, <- !app_assoc.
  rewrite (drop_app_length' (to_le 4 r)), (drop_app_length' (to_le 4 fl)), take_app_length' by done. rewrite from_to_le. apply Z.mod_small.
  destruct Hf as (_ & _ & Hf). cbn in Hf. exact (conj (zlen_nonneg b) Hf).
Qed.

Section Socket.
Context (recvmsg : nat -> Z -> Z -> ErrorKind + Received) (sock_write : nat -> Z -> list Z -> ErrorKind + Z)
  (sys : nat -> Z * ErrorKind) (patience : nat).
(** Messages that one end sends, [None] being a [flush]. *)
Fixpoint run_sends (ops : list (option (Z * bool * list Z))) x k : outcome (Wire * nat) :=
  match ops with
  | [] => Ok (x, k)
  | op :: ops =>
      let* '(x, k) := match op with
                      | Some (request, reply, body) => wire_send sock_write patience request reply body x k
                      | None => wire_flush sock_write patience x k
                      end in
      run_sends ops x k
  end.
(** What [n] calls give at the other, and whether the last one found no message. *)
Fixpoint run_receives (n : nat) (idle : bool) x k : outcome (list Message * bool * Wire * nat) :=
  match n with
  | O => Ok ([], idle, x, k)
  | S n =>
      let* '(msg, x, k) := wire_receive recvmsg sys patience x k in
      let* '(ms, idle, x, k) := run_receives n (bool_decide (msg = None)) x k in
      Ok (option_list msg ++ ms, idle, x, k)
  end.
Lemma run_sends_spec ops x k x' k' :
  write_ok sock_write patience -> send_ok x -> run_sends ops x k = Ok (x', k') ->
  send_ok x' /\ wi_given x' ++ wire_queued x' = wi_given x ++ wire_queued x ++ concat (map frame3 (concat (map op_fields ops))).
Proof.
  intros Hw. revert x k. induction ops as [|op ops IH]; intros x k So; cbn [run_sends].
  { intros [= <- <-]. split; [done|]. by rewrite !app_nil_r. }
  intros E. apply obind_Ok in E as ([x1 k1] & E1 & E).
  assert (send_ok x1 /\ wi_given x1 ++ wire_queued x1 = wi_given x ++ wire_queued x ++ concat (map frame3 (op_fields op))) as [So1 G1].
  { destruct op as [[[r rp] b]|].
    - pose proof (wire_send_spec sock_write patience r rp b x k Hw So) as F. rewrite E1 in F. destruct F as (F1 & F2 & _). cbn. by rewrite app_nil_r.
    - pose proof (wire_flush_spec sock_write patience x k Hw So) as F. rewrite E1 in F. destruct F as (F1 & F2 & _). cbn. by rewrite app_nil_r. }
  destruct (IH _ _ So1 E) as [So' G']. split; [done|]. rewrite G', app_assoc, G1. cbn [map concat]. by rewrite map_app, concat_app, <- !app_assoc.
Qed.
Lemma run_receives_spec n idle x k ms idle' x' k' P R :
  recv_ok recvmsg patience -> wire_ok P R x -> (idle = true -> complete_message x = false) ->
  run_receives n idle x k = Ok (ms, idle', x', k') ->
  wire_ok (P ++ concat (map frame_of ms)) (R ++ concat (map m_fds ms)) x' /\ Forall message_ok ms /\ (idle' = true -> complete_message x' = false).
Proof.
  intros Hr. revert idle x k ms P R. induction n as [|n IH]; intros idle x k ms P R W Hi; cbn [run_receives].
  { intros [= <- <- <- <-]. cbn. by rewrite !app_nil_r. }
  intros E. apply obind_Ok in E as ([[msg x1] k1] & E1 & E). apply obind_Ok in E as ([[[ms1 i1] x2] k2] & E2 & [= <- <- <- <-]).
  pose proof (wire_receive_spec recvmsg sys patience P R x k Hr W) as S1. rewrite E1 in S1. destruct msg as [msg|].
  - destruct S1 as (Mo & W1 & _ & _). apply (IH _ _ _ _ _ _ W1) in E2 as (W2 & F2 & I2); [|done]. cbn [option_list app map concat].
    rewrite <- !app_assoc in W2. split_and!; [done|by constructor|done].
  - destruct S1 as (W1 & C1 & _). by apply (IH _ _ _ _ _ _ W1) in E2.
Qed.
Lemma message_fields msg : message_ok msg -> fields_ok (fields msg).
Proof.
  intros [M1 M2 M3 M4 M5]. unfold fields_ok, fields. cbn [fst snd]. split_and!; try tauto; unfold W32; lia.
Qed.

Lemma wire_new_ok fd k x k' : wire_new sys fd k = Ok (x, k') -> send_ok x /\ wi_given x = [] /\ wire_queued x = [] /\ wire_ok [] [] x.
Proof.
  unfold wire_new. destruct (sys k) as [v e]. destruct (v <? 0); [done|]. intros [= <- _]. split_and!; try done.
  constructor; try done; [change (bytes_ok (replicate 12 0)); apply bytes_zeros|apply Forall_nil_2].
Qed.

(** C31. Control messages survive the socket: whatever the sizes of the pieces in which the socket takes and gives bytes,
    and however the calls of the two ends interleave, the messages that [receive] has delivered are the first
    of those that [send] was given, each with its request, flags and body, and their descriptors are the descriptors that arrived, in order;
    once every byte has been given and taken and [receive] finds no message, all were delivered. *)
Theorem wire_roundtrip ops n s ks ms idle r kr x0 y0 fd fd' :
  recv_ok recvmsg patience -> write_ok sock_write patience -> Forall op_ok ops ->
  wire_new sys fd 0 = Ok (x0, 1%nat) -> wire_new sys fd' 0 = Ok (y0, 1%nat) ->
  run_sends ops x0 1 = Ok (s, ks) -> run_receives n false y0 1 = Ok (ms, idle, r, kr) ->
  wi_taken r `prefix_of` wi_given s ->
  map fields ms `prefix_of` concat (map op_fields ops)
  /\ Forall message_ok ms
  /\ wi_rights r = concat (map m_fds ms) ++ wi_fds r
  /\ (idle = true -> wi_taken r = wi_given s -> outgoing s = [] -> map fields ms = concat (map op_fields ops)).
Proof.
  intros Hr Hw Ho Ex Ey Es Er [more Hp].
  destruct (wire_new_ok _ _ _ _ Ex) as (So & G0 & Q0 & _). destruct (wire_new_ok _ _ _ _ Ey) as (_ & _ & _ & W0).
  apply run_sends_spec in Es as [Ss Gs]; try done. apply (run_receives_spec _ _ _ _ _ _ _ _ [] []) in Er as (Wr & Fm & Ci); try done.
  rewrite G0, Q0, !app_nil_l in *. set (all := concat (map op_fields ops)) in *.
  assert (Forall fields_ok all) as Fa.
  { apply Forall_concat, Forall_fmap. eapply Forall_impl; [exact Ho|]. intros [[[rq rp] b]|] Hop; cbn; [|by apply Forall_nil].
    apply Forall_cons. split; [|by apply Forall_nil]. destruct Hop. unfold fields_ok; cbn; destruct rp; unfold W32 in *; lia. }
  assert (Forall fields_ok (map fields ms)) as Ff by (apply Forall_fmap; eapply Forall_impl; [exact Fm|apply message_fields]).
  assert (map frame_of ms = map frame3 (map fields ms)) as Ef by (by rewrite map_map).
  pose proof (wo_taken _ _ _ Wr) as T. rewrite Ef in T. rewrite Hp, T, <- !app_assoc in Gs. rewrite <- (app_nil_r (concat (map frame3 all))) in Gs.
  destruct (frames_prefix _ all _ [] Ff Fa Gs) as (rest & Ea & Eu); [done|]. split_and!.
  - by exists rest.
  - done.
  - exact (wo_rights _ _ _ Wr).
  - intros Hi Ht Hq. destruct rest as [|m rest]; [by rewrite Ea, app_nil_r|]. exfalso.
    assert (more = []) as -> by (apply (app_inv_head (wi_given s)); rewrite app_nil_r; congruence).
    unfold wire_queued in Eu. rewrite Hq in Eu. cbn [concat map] in Eu. rewrite drop_nil, !app_nil_r in Eu.
    apply (pending_incomplete _ _ _ m _ Wr (Ci Hi)) in Eu; [done|]. rewrite Ea in Fa. by apply Forall_app in Fa as [_ [? _]%Forall_cons].
Qed.
End Socket.

(** ** Example *)
(** A request of fifteen bytes with a descriptor, in pieces, with interruptions. *)
Definition piece (k : nat) : ErrorKind + (list Z * list Z) :=
  match k with
  | 1%nat => inr ([7; 0; 0; 0; 1], [40])
  | 3%nat => inl Interrupted
  | 4%nat => inr ([0; 0; 0; 3; 0; 0; 0], [])
  | 6%nat => inr ([1; 2], [])
  | 8%nat => inr ([3], [])
  | _ => inl WouldBlock
  end.
Definition recv1 (k : nat) (fd room : Z) : ErrorKind + Received :=
  match piece k with
  | inr (data, fds) => if zlen data <=? room then inr (mkReceived data (if fds then [] else [Rights fds]) false) else inl WouldBlock
  | inl e => inl e
  end.
Definition write1 (k : nat) (fd : Z) (data : list Z) : ErrorKind + Z := if Nat.eqb k 2 then inl Interrupted else inr (Z.min 6 (zlen data)).
Definition sys1 (k : nat) : Z * ErrorKind := (0, OtherError).
Lemma recv1_ok : recv_ok recv1 2.
Proof.
  split.
  - intros k fd room rc. unfold recv1. destruct (piece k) as [e|[data fds]] eqn:E; [done|]. destruct (_ <=? _) eqn:L; [|done]. bools.
    intros [= <-]. split; [done|]. cbn. unfold piece in E. repeat (destruct k as [|k]; try done); injection E as <- <-;
      repeat (apply Forall_cons_2; [unfold is_byte; lia|]); apply Forall_nil_2.
  - intros k fd room. destruct (decide (k = 3)%nat) as [-> |N].
    + exists 1%nat. split; [lia|]. unfold recv1. cbn. by destruct (_ <=? _).
    + exists 0%nat. split; [lia|]. rewrite Nat.add_0_r. unfold recv1. destruct (piece k) as [e|[data fds]] eqn:E; [|by destruct (_ <=? _)].
      intros [= ->]. unfold piece in E. by repeat (destruct k as [|k]; try done).
Qed.
Lemma write1_ok : write_ok write1 2.
Proof.
  split.
  - intros k fd data n. unfold write1. destruct (Nat.eqb k 2); [done|]. intros [= <-]. pose proof (zlen_nonneg data). lia.
  - intros k fd data. destruct (decide (k = 2)%nat) as [-> |N]; [exists 1%nat; split; [lia|done]|]. exists 0%nat. split; [lia|]. unfold write1. rewrite Nat.add_0_r.
    by rewrite (proj2 (Nat.eqb_neq k 2) N).
Qed.
Definition wire_a (fd : Z) : Wire := mkWire fd (replicate 12 0) 0 [] 0 [] [] 0 false [] [] [].
Definition wire_b : Wire := mkWire 3 (replicate 12 0) 0 [] 0 [] [] 0 false [] [] (encode_message 7 1 [1; 2; 3]).
Definition wire_c : Wire := mkWire 4 [7; 0; 0; 0; 1; 0; 0; 0; 3; 0; 0; 0] 0 [] 0 [] [] 0 false (encode_message 7 1 [1; 2; 3]) [40] [].
Lemma wire_roundtrip_witness :
  exists ms, run_receives recv1 sys1 2 2 false (wire_a 4) 1 = Ok (ms, true, wire_c, 11%nat)
    /\ map fields ms = [(7, 1, [1; 2; 3])] /\ map m_fds ms = [[40]].
Proof.
  eexists. split; [vm_compute; reflexivity|]. split; [|reflexivity].
  pose proof (wire_roundtrip recv1 write1 sys1 2 [Some (7, false, [1; 2; 3]); None] 2 wire_b 5
    [mkMessage 7 1 [1; 2; 3] [40]] true wire_c 11 (wire_a 3) (wire_a 4) 3 4
    recv1_ok write1_ok) as H.
  assert (Forall op_ok [Some (7, false, [1; 2; 3]); None]) as Ho by (repeat (apply Forall_cons_2; [vm_compute; done|]); apply Forall_nil_2).
  specialize (H Ho eq_refl eq_refl ltac:(vm_compute; reflexivity) ltac:(vm_compute; reflexivity) ltac:(by exists [])).
  destruct H as (_ & _ & _ & H). by apply H.
Defined.
