(* ===== verification/Vhost.v ===== *)
(** * The vhost-user backend ([examples/support/vhost_user/mod.rs], [examples/support/vm_packet.rs])

    The backend serves two virtqueues of a guest: requests on the control socket configure
    memory, features and queues; the guest starts a session with a packet on the transmit
    queue, and the backend then generates frames directly into the buffers of the receive queue,
    at a bounded rate.  An [Env] is all that the backend observes: the
    guest's memory, the results of system calls, the mappings, the clock, which of the descriptors it waits for
    [poll] reports, when the process is asked to stop, and the product of a rate and a time that the code computes in floating point. *)
From Stdlib Require Import ZArith Lia Bool.
From stdpp Require Import base numbers option list.
From S2P Require Import Prelude VhostMemory VhostQueue VhostWire.
#[local] Open Scope Z_scope.

Record Env : Type := mkEnv {
  guest : nat -> Z -> Z;
  sys : nat -> Z * ErrorKind;
  recvmsg : nat -> Z -> Z -> ErrorKind + Received;
  sock_write : nat -> Z -> list Z -> ErrorKind + Z;
  patience : nat;
  file_len : Z -> Z;
  page : Z;
  mmap : nat -> Z -> Z -> Z -> option Z;
  clock : nat -> Z;
  paced : Z -> Z -> Z;
  readable : nat -> list (Z * Z) -> Z -> Z -> bool;
  stop_asked : nat -> bool
}.

(** ** Packets of the experiment *)
Definition VM_HEADER : Z := 48.
Definition VM_MAC : list Z := [2; 0; 0; 0; 0; 2].
Definition VM_PEER : list Z := [2; 0; 0; 0; 0; 1].
Definition vm_header (kind : list Z) (sequence gpa_or_count size session : Z) : outcome (list Z) :=
  let h := replicate (Z.to_nat VM_HEADER) 0 in
  let* h := copy_at h 0 VM_MAC in
  let* h := copy_at h 6 VM_PEER in
  let* h := copy_at h 12 [136; 181] in
  let* h := copy_at h 14 kind in
  let* h := copy_at h 16 (to_le 8 sequence) in
  let* h := copy_at h 24 (to_le 8 gpa_or_count) in
  let* h := copy_at h 32 (to_le 4 (u32 size)) in
  copy_at h 40 (to_le 8 session).
Definition vm_u64_at (bytes : list Z) (offset : Z) : outcome Z := let* s := slice bytes offset (offset + 8) in Ok (from_le s).
Definition rotate_right (v n : Z) : Z := Z.lor (Z.shiftr v n) (Z.shiftl v (64 - n) mod W64).
Definition payload_byte (sequence offset : Z) : Z :=
  Z.lxor (rotate_right sequence (Z.land offset 7 * 8) mod 256) (offset / 8 mod 256).
Definition identify (bytes kind : list Z) : bool :=
  (VM_HEADER <=? zlen bytes) && list_eqb (take 2 (drop 12 bytes)) [136; 181] && list_eqb (take 2 (drop 14 bytes)) kind.
(** "VS" starts a session, "VE" ends it, "VD" is a frame of it. *)
Definition VS : list Z := [86; 83].
Definition VE : list Z := [86; 69].
Definition VD : list Z := [86; 68].

(** ** State *)
Definition FEATURES : Z := 2 ^ 27 + 2 ^ 30 + 2 ^ 32 + 2 ^ 33 + 2 ^ 40.
Definition PROTOCOL : Z := 2 ^ 3 + 2 ^ 5 + 2 ^ 13.
Record Args : Type := mkArgs { a_size : Z; a_batch : Z; a_pps : Z; a_max_packets : Z; a_samples : Z }.
Record Session : Type := mkSession { s_id : Z; s_target : Z; s_generated : Z; s_start : Z }.
#[export] Instance eta_Session : Eta Session := fun s => mkSession (s_id s) (s_target s) (s_generated s) (s_start s).
Record Backend : Type := mkBackend {
  memory : Memory; queues : Queue * Queue; features : Z; protocol : Z; owner : bool; channel : option Wire;
  pending_miss : option (Z * Z * Z); session : option Session; previous_session : option Z;
  tx_completed : Z; rx_completed : Z; iotlb_updates : Z; iotlb_invalidations : Z; queue_stops : Z; b_spans : list Span
}.
#[export] Instance eta_Backend : Eta Backend := fun b =>
  mkBackend (memory b) (queues b) (features b) (protocol b) (owner b) (channel b) (pending_miss b) (session b) (previous_session b)
    (tx_completed b) (rx_completed b) (iotlb_updates b) (iotlb_invalidations b) (queue_stops b) (b_spans b).
Definition backend_new : Backend :=
  mkBackend memory_default (queue_default, queue_default) 0 0 false None None None None 0 0 0 0 0 [].
Definition get_queue (i : Z) (b : Backend) : outcome Queue := if i =? 0 then Ok (queues b).1 else if i =? 1 then Ok (queues b).2 else bad.
Definition set_queue (i : Z) (q : Queue) (b : Backend) : Backend :=
  if i =? 0 then b <| queues := (q, (queues b).2) |> else b <| queues := ((queues b).1, q) |>.

Section Backend.
Context (E : Env).
Implicit Types (b : Backend) (w : VWorld) (m : Message) (a : Args).

(** ** Requests: the reply, if there is one *)
Definition reset_device (all : bool) b : Backend :=
  let b := b <| queues := (queue_default, queue_default) |> <| session := None |> <| pending_miss := None |> in
  if all then b <| owner := false |> <| memory := memory_default |> <| features := 0 |> else b.
Definition set_features m b : outcome Backend :=
  let* _ := check m 8 0 in
  let* f := u64_at (m_body m) 0 in
  if negb (owner b) || negb (Z.ldiff f FEATURES =? 0) || (Z.land f (2 ^ 32) =? 0) then bad
  else
    let b := b <| features := f |> <| memory ::= fun x => x <| iommu := negb (Z.land f (2 ^ 33) =? 0) |> |> in
    Ok (if Z.land f (2 ^ 30) =? 0
        then b <| queues ::= fun '(p, q) => (p <| enabled := true |>, q <| enabled := true |>) |> else b).
Fixpoint map_regions (fds : list Z) (i : Z) (body : list Z) w : outcome (list Region * VWorld) :=
  match fds with
  | [] => Ok ([], w)
  | fd :: fds =>
      let p := 8 + i * 32 in
      let* guest := u64_at body p in
      let* user := u64_at body (p + 16) in
      let* size := u64_at body (p + 8) in
      let* offset := u64_at body (p + 24) in
      let* r := region_new (file_len E fd) (page E) (mmap E (w_tick w) fd) guest user size offset in
      let* '(l, w) := map_regions fds (i + 1) body (world_tick w) in
      Ok (r :: l, w)
  end.
Definition set_mem_table m b w : outcome (Backend * VWorld) :=
  if zlen (m_body m) <? 8 then bad
  else
    let* n := u32_at (m_body m) 0 in
    let* pad := u32_at (m_body m) 4 in
    if (n =? 0) || (8 <? n) || negb (pad =? 0) then bad
    else
      let* _ := check m (8 + n * 32) n in
      let* '(l, w) := map_regions (m_fds m) 0 (m_body m) w in
      let* mem := replace_regions l (memory b) in
      Ok (b <| memory := mem |> <| pending_miss := None |>, w).
Definition u32_is_power_of_two (v : Z) : bool := (0 <? v) && (Z.land v (v - 1) =? 0).
(** SET_VRING_NUM, SET_VRING_BASE, GET_VRING_BASE, SET_VRING_ENABLE. *)
Definition set_vring m b : outcome (option (list Z) * Backend) :=
  let* _ := check m 8 0 in
  let* index := u32_at (m_body m) 0 in
  let* value := u32_at (m_body m) 4 in
  let* q := get_queue index b in
  let r := m_request m in
  if r =? 8 then
    if negb ((2 <=? value) && (value <=? 1024)) || negb (u32_is_power_of_two value) then bad
    else Ok (None, set_queue index (q <| num := u16 value |> <| last_used := None |>) b)
  else if r =? 10 then
    if U16MAX <? value then bad else Ok (None, set_queue index (q <| last_avail := u16 value |> <| last_used := None |>) b)
  else if r =? 11 then
    let '(base, q) := q_stop q in
    Ok (Some (to_le 4 index ++ to_le 4 base), set_queue index q b <| queue_stops ::= count 1 |>)
  else
    if 1 <? value then bad else Ok (None, set_queue index (q <| enabled := negb (value =? 0) |>) b).
Definition set_vring_addr m b : outcome Backend :=
  let* _ := check m 40 0 in
  let* flags := u32_at (m_body m) 4 in
  if negb (flags =? 0) then bad
  else
    let* index := u32_at (m_body m) 0 in
    let* q := get_queue index b in
    let* desc := u64_at (m_body m) 8 in
    let* used := u64_at (m_body m) 16 in
    let* avail := u64_at (m_body m) 24 in
    Ok (set_queue index (q <| q_desc := desc |> <| q_used := used |> <| q_avail := avail |> <| configured := true |> <| last_used := None |>) b).
(** [Vec::pop]. *)
Definition pop (l : list Z) : option Z := last l.
Definition set_vring_fd m b w : outcome (Backend * VWorld) :=
  if negb (zlen (m_body m) =? 8) then bad
  else
    let* value := u64_at (m_body m) 0 in
    if negb (Z.ldiff value 511 =? 0) then bad
    else
      let nofd := negb (Z.land value 256 =? 0) in
      let* _ := check m 8 (if nofd then 0 else 1) in
      let* q := get_queue (Z.land value 255) b in
      let fd := pop (m_fds m) in
      let* w := match fd with Some f => nonblocking (sys E) f w | None => Ok w end in
      let q := if m_request m =? 12 then q <| kick := fd |> <| started := true |>
               else if m_request m =? 13 then q <| call := fd |> else q <| q_error := fd |> in
      Ok (set_queue (Z.land value 255) q b, w).
Definition set_backend_req_fd m b w : outcome (Backend * VWorld) :=
  let* _ := check m 0 1 in
  match pop (m_fds m) with
  | None => Panic
  | Some fd =>
      let* '(x, k) := wire_new (sys E) fd (w_tick w) in
      Ok (b <| channel := Some x |>, w <| w_tick := k |>)
  end.
Definition iotlb_msg m b : outcome Backend :=
  let* _ := check m 32 0 in
  let* address := u64_at (m_body m) 0 in
  let* size := u64_at (m_body m) 8 in
  let* kind := get (m_body m) 25 in
  let* b :=
    if kind =? 2 then
      let* user := u64_at (m_body m) 16 in
      let* permission := get (m_body m) 24 in
      let* mem := iotlb_update address size user permission (memory b) in
      Ok (b <| memory := mem |> <| iotlb_updates ::= count 1 |>)
    else if kind =? 3 then
      let* mem := invalidate address size (memory b) in
      Ok (b <| memory := mem |> <| iotlb_invalidations ::= count 1 |>)
    else bad in
  Ok (b <| pending_miss := None |>).
(** The [match] of [handle]. *)
Definition request m b w : outcome (option (list Z) * Backend * VWorld) :=
  let r := m_request m in
  if r =? 1 then let* _ := check m 0 0 in Ok (Some (to_le 8 FEATURES), b, w)
  else if r =? 15 then let* _ := check m 0 0 in Ok (Some (to_le 8 PROTOCOL), b, w)
  else if r =? 17 then let* _ := check m 0 0 in Ok (Some (to_le 8 1), b, w)
  else if r =? 3 then let* _ := check m 0 0 in Ok (None, b <| owner := true |>, w)
  else if (r =? 4) || (r =? 34) then let* _ := check m 0 0 in Ok (None, reset_device (r =? 4) b, w)
  else if r =? 16 then
    let* _ := check m 8 0 in
    let* f := u64_at (m_body m) 0 in
    if negb (Z.ldiff f PROTOCOL =? 0) then bad else Ok (None, b <| protocol := f |>, w)
  else if r =? 2 then let* b := set_features m b in Ok (None, b, w)
  else if r =? 5 then let* '(b, w) := set_mem_table m b w in Ok (None, b, w)
  else if (r =? 8) || (r =? 10) || (r =? 11) || (r =? 18) then let* '(reply, b) := set_vring m b in Ok (reply, b, w)
  else if r =? 9 then let* b := set_vring_addr m b in Ok (None, b, w)
  else if (12 <=? r) && (r <=? 14) then let* '(b, w) := set_vring_fd m b w in Ok (None, b, w)
  else if r =? 21 then let* '(b, w) := set_backend_req_fd m b w in Ok (None, b, w)
  else if r =? 22 then let* b := iotlb_msg m b in Ok (None, b, w)
  else bad.
Definition reply_to (m : Message) (reply : option (list Z)) (x : Wire) (w : VWorld) : outcome (Wire * VWorld) :=
  let send body := let* '(x, k) := wire_send (sock_write E) (patience E) (m_request m) true body x (w_tick w) in Ok (x, w <| w_tick := k |>) in
  match reply with
  | Some body => send body
  | None => if negb (Z.land (m_flags m) 8 =? 0) then send (to_le 8 0) else Ok (x, w)
  end.
Definition handle_message m b (x : Wire) w : outcome (Backend * Wire * VWorld) :=
  let* '(reply, b, w) := request m b w in
  let* '(x, w) := reply_to m reply x w in
  Ok (b, x, w).

(** ** Faults *)
Definition handle_fault (f : Fault) b w : outcome (Backend * VWorld) :=
  match f with
  | Invalid => bad
  | Missing address permission =>
      match pending_miss b with
      | Some (_, _, since) => if 10 * SECOND <? dur_sub (clock E (w_tick w)) since then bad else Ok (b, world_tick w)
      | None =>
          if negb (Z.land (Z.land (protocol b) PROTOCOL) 40 =? 40) then bad
          else
            let* body := copy_at (replicate 32 0) 0 (to_le 8 address) in
            let* body := set_at body 24 permission in
            let* body := set_at body 25 1 in
            match channel b with
            | None => bad
            | Some x =>
                let* '(x, k) := wire_send (sock_write E) (patience E) 1 false body x (w_tick w) in
                let w := w <| w_tick := k |> in
                Ok (b <| channel := Some x |> <| pending_miss := Some (address, permission, clock E (w_tick w)) |>, world_tick w)
            end
      end
  end.

(** ** The transmit queue *)
(** One packet of the guest; [now] is read when a session starts. *)
Definition tx_packet a (h : list Z) b w : outcome (Backend * VWorld) :=
  let q := (queues b).2 in
  let* id := vm_u64_at h 40 in
  if enabled q && identify h VS && negb (bool_decide (previous_session b = Some id)) then
    let* n := vm_u64_at h 24 in
    if (n =? 0) || (a_max_packets a <? n) then bad
    else Ok (b <| previous_session := Some id |> <| session := Some (mkSession id n 0 (clock E (w_tick w))) |>, world_tick w)
  else if enabled q && identify h VE && bool_decide (s_id <$> session b = Some id)
  then Ok (b <| session := None |>, w)
  else Ok (b, w).
Fixpoint tx_loop (n : nat) a r (completed : Z) b w : outcome (Z * option Fault * Backend * VWorld) :=
  match n with
  | O => Ok (completed, None, b, w)
  | S n =>
      let* '(res, spans, w) := peek (guest E) (memory b) (queues b).2 r false w in
      let b := b <| b_spans := spans |> in
      match res with
      | inl f => Ok (completed, Some f, b, w)
      | inr None => Ok (completed, None, b, w)
      | inr (Some head) =>
          let* '(whole, h, w) := read_scatter (guest E) spans 12 (replicate (Z.to_nat VM_HEADER) 0) w in
          let* '(b, w) := if whole : bool then tx_packet a h b w else Ok (b, w) in
          let* '(q, w) := complete r head 0 (queues b).2 w in
          tx_loop n a r (completed + 1) (set_queue 1 q b) w
      end
  end.
(** The end of [tx] and [rx]: publish what was completed, report the fault. *)
Definition settle (i : Z) r (completed : Z) (f : option Fault) (counted : Backend -> Backend) b w : outcome (Backend * VWorld) :=
  let* '(b, w) :=
    if completed =? 0 then Ok (b, w)
    else
      let* '(q, w) := vq_publish (guest E) (sys E) (patience E) r (if i =? 0 then (queues b).1 else (queues b).2) w in
      Ok (counted (set_queue i q b), w) in
  match f with Some f => handle_fault f b w | None => Ok (b, w) end.
Definition tx a b w : outcome (Z * Backend * VWorld) :=
  let q := (queues b).2 in
  if negb (running q) then Ok (0, b, w)
  else
    let* '(res, q, w) := q_map (guest E) (memory b) q w in
    let b := set_queue 1 q b in
    match res with
    | inl f => let* '(b, w) := handle_fault f b w in Ok (0, b, w)
    | inr r =>
        let* '(completed, f, b, w) := tx_loop (Z.to_nat (a_batch a)) a r 0 b w in
        let* '(b, w) := settle 1 r completed f (fun b => b <| tx_completed ::= count completed |>) b w in
        Ok (completed, b, w)
    end.

(** ** The receive queue *)
(** The guest physical address of the frame, behind the virtio header. *)
Fixpoint frame_gpa_loop (spans : list Span) (skip : Z) : option Z :=
  match spans with
  | [] => None
  | s :: spans => if skip <? sp_len s then Some (sp_gpa s + skip) else frame_gpa_loop spans (skip - sp_len s)
  end.
Definition frame_gpa (spans : list Span) : option Z := frame_gpa_loop spans 12.
(** The byte at position [p] of a generated packet. *)
Definition frame_byte (header : list Z) (sequence p : Z) : outcome Z :=
  if p <? 12 then Ok 0
  else if p <? 12 + VM_HEADER then get header (p - 12)
  else Ok (payload_byte sequence (p - 12 - VM_HEADER)).
(** [n] more bytes of one span, from its byte [i]. *)
Fixpoint generate_span (n : nat) (header : list Z) (sequence ptr offset i : Z) w : outcome VWorld :=
  match n with
  | O => Ok w
  | S n =>
      let* byte := frame_byte header sequence (offset + i) in
      generate_span n header sequence ptr offset (i + 1) (store_bytes (ptr + i) [byte] w)
  end.
Fixpoint generate_loop (spans : list Span) (header : list Z) (sequence size offset : Z) w : outcome VWorld :=
  match spans with
  | [] => Ok w
  | s :: spans =>
      let n := Z.min (sp_len s) (size + 12 - offset) in
      let* w := generate_span (Z.to_nat n) header sequence (sp_ptr s) offset 0 w in
      let offset := offset + n in
      if offset =? size + 12 then Ok w else generate_loop spans header sequence size offset w
  end.
Definition generate (spans : list Span) (header : list Z) (sequence size : Z) w : outcome VWorld :=
  generate_loop spans header sequence size 0 w.
Definition spans_len (spans : list Span) : Z := foldr (fun s n => sp_len s + n) 0 spans.

Fixpoint rx_loop (n : nat) a r (allowed completed : Z) b w : outcome (Z * option Fault * Backend * VWorld) :=
  match n with
  | O => Ok (completed, None, b, w)
  | S n =>
      match session b with
      | None => Panic
      | Some s =>
          if allowed <=? s_generated s then Ok (completed, None, b, w)
          else
            let* '(res, spans, w) := peek (guest E) (memory b) (queues b).1 r true w in
            let b := b <| b_spans := spans |> in
            match res with
            | inl f => Ok (completed, Some f, b, w)
            | inr None => Ok (completed, None, b, w)
            | inr (Some head) =>
                if spans_len spans <? a_size a + 12 then bad
                else
                  match frame_gpa spans with
                  | None => bad
                  | Some gpa =>
                      let* header := vm_header VD (s_generated s) gpa (a_size a) (s_id s) in
                      let* w := generate spans header (s_generated s) (a_size a) w in
                      let* '(q, w) := complete r head (u32 (a_size a + 12)) (queues b).1 w in
                      let* generated := add64 (s_generated s) 1 in
                      rx_loop n a r allowed (completed + 1) (set_queue 0 q b <| session := Some (s <| s_generated := generated |>) |>) w
                  end
            end
      end
  end.
(** How many frames the rate allows so far. *)
Definition allowance a (s : Session) w : outcome Z :=
  if a_pps a =? 0 then Ok (s_target s)
  else let* n := add64 (paced E (dur_sub (clock E (w_tick w)) (s_start s)) (a_pps a)) 1 in Ok (Z.min n (s_target s)).
Definition finish_session b : Backend :=
  match session b with
  | Some s => if s_generated s =? s_target s then b <| session := None |> else b
  | None => b
  end.
Definition rx a b w : outcome (Z * Backend * VWorld) :=
  let q := (queues b).1 in
  match session b with
  | None => Ok (0, b, w)
  | Some s =>
      if negb (running q) || negb (enabled q) then Ok (0, b, w)
      else
        let* allowed := allowance a s w in
        let w := world_tick w in
        if allowed <=? s_generated s then Ok (0, b, w)
        else
          let* '(res, q, w) := q_map (guest E) (memory b) q w in
          let b := set_queue 0 q b in
          match res with
          | inl f => let* '(b, w) := handle_fault f b w in Ok (0, b, w)
          | inr r =>
              let* '(completed, f, b, w) := rx_loop (Z.to_nat (a_batch a)) a r allowed 0 b w in
              let* '(b, w) := settle 0 r completed f (fun b => b <| rx_completed ::= count completed |>) b w in
              Ok (completed, finish_session b, w)
          end
  end.

(** ** The main loop *)
Definition args_ok a : bool :=
  (64 <=? a_size a) && (a_size a <=? 1514) && (1 <=? a_batch a) && (a_batch a <=? 256) && (a_samples a <=? 64)
  && negb (a_max_packets a =? 0) && (a_pps a <=? 100000000).
(** At most [n] requests. *)
Fixpoint serve (n : nat) b (x : Wire) w : outcome (Backend * Wire * VWorld) :=
  match n with
  | O => Ok (b, x, w)
  | S n =>
      let* '(msg, x, k) := wire_receive (recvmsg E) (sys E) (patience E) x (w_tick w) in
      let w := w <| w_tick := k |> in
      match msg with
      | Some m => let* '(b, x, w) := handle_message m b x w in serve n b x w
      | None => Ok (b, x, w)
      end
  end.
Definition flush_channel b w : outcome (Backend * VWorld) :=
  match channel b with
  | None => Ok (b, w)
  | Some c =>
      let* '(c, k) := wire_flush (sock_write E) (patience E) c (w_tick w) in
      Ok (b <| channel := Some c |>, w <| w_tick := k |>)
  end.
(** The descriptors that [poll] waits for with their events, and how long it waits. *)
Definition POLLIN : Z := 1.
Definition POLLOUT : Z := 4.
Definition poll_set b (x : Wire) : list (Z * Z) :=
  [(wi_stream x, Z.lor POLLIN (if wants_write x then POLLOUT else 0))]
  ++ match channel b with Some c => [(wi_stream c, if wants_write c then POLLOUT else 0)] | None => [] end
  ++ omap (fun q => (fun k => (k, POLLIN)) <$> kick q) [(queues b).1; (queues b).2].
Definition poll_timeout a (work : Z) b : Z :=
  if (0 <? work) || (bool_decide (is_Some (session b)) && (a_pps a =? 0)) then 0
  else if bool_decide (is_Some (session b)) then 1 else 50.
(** The kick descriptors that [poll] reports are drained. *)
Definition poll_kicks a (work : Z) b (x : Wire) w : outcome VWorld :=
  let '(n, e) := sys E (w_tick w) in
  let reported := readable E (w_tick w) (poll_set b x) (poll_timeout a work b) in
  let w := world_tick w in
  if (n <? 0) && negb (bool_decide (e = Interrupted)) then Err e
  else
    let drain q w := match kick q with
                     | Some fd => if reported fd then drain_kick (sys E) fd w else Ok w
                     | None => Ok w
                     end in
    let* w := drain (queues b).1 w in
    drain (queues b).2 w.
(** One pass of the [while] loop; [false] when the loop has ended. *)
Definition pass a b (x : Wire) w : outcome (bool * Backend * Wire * VWorld) :=
  if stop_asked E (w_tick w) || eof x then Ok (false, b, x, w)
  else
    let* '(x, k) := wire_flush (sock_write E) (patience E) x (w_tick w) in
    let* '(b, x, w) := serve 32 b x (w <| w_tick := k |>) in
    if eof x then Ok (false, b, x, w)
    else
      let* '(b, w) := flush_channel b w in
      let* '(sent, b, w) := tx a b w in
      let* '(received, b, w) := rx a b w in
      let* w := poll_kicks a (sent + received) b x w in
      Ok (true, b, x, w).
End Backend.
