(* ===== verification/VhostInv.v ===== *)
(** * The state of the vhost-user backend and the requests on it

    No request of the frontend, of whatever content, makes the backend panic or breaks the
    invariant: mappings and translations are consistent, queues have a valid size and complete in order, a session has frames
    left to generate and no more than the limit. *)
From Stdlib Require Import ZArith Lia Bool.
From stdpp Require Import base numbers option list.
From S2P Require Import Prelude VhostMemory VhostMemoryProps VhostQueue VhostQueueProps VhostWire VhostWireProps Vhost.
#[local] Open Scope Z_scope.
Implicit Types (b : Backend) (w : VWorld) (m : Message) (a : Args).

(** What the backend relies on of its environment: bytes are bytes, system calls are not interrupted forever, sockets
    behave as sockets, and the product of time and rate does not reach the largest integer. *)
Record env_ok (E : Env) : Prop := {
  eo_guest : forall k x, is_byte (guest E k x);
  eo_sys : awake (sys E) (patience E);
  eo_recv : recv_ok (recvmsg E) (patience E);
  eo_write : write_ok (sock_write E) (patience E);
  eo_paced : forall t r, 0 <= paced E t r < U64MAX
}.
Definition session_ok a (s : Session) : Prop :=
  0 <= s_generated s < s_target s /\ s_target s <= a_max_packets a /\ s_target s < W64.
Record backend_ok a b : Prop := {
  bo_memory : mem_ok (memory b);
  bo_rx : queue_ok (queues b).1;
  bo_tx : queue_ok (queues b).2;
  bo_channel : match channel b with Some x => send_ok x | None => True end;
  bo_session : match session b with Some s => session_ok a s /\ previous_session b = Some (s_id s) | None => True end
}.
Lemma queue_default_ok : queue_ok queue_default.
Proof. constructor; cbn; [by left|done|done]. Qed.
Lemma backend_new_ok a : backend_ok a backend_new.
Proof. constructor; cbn; try done; [apply memory_default_ok|apply queue_default_ok|apply queue_default_ok]. Qed.

(** ** Reading messages *)
Lemma u64_at_ok l n : 0 <= n -> n + 8 <= zlen l -> bytes_ok l -> exists v, u64_at l n = Ok v /\ 0 <= v < W64.
Proof.
  intros Hn Hl B. unfold u64_at. rewrite slice_ok by lia. cbn [obind]. eexists. split; [reflexivity|].
  assert (bytes_ok (take (Z.to_nat (n + 8 - n)) (drop (Z.to_nat n) l))) as B' by (by apply bytes_take, bytes_drop).
  pose proof (from_le_range _ B') as R. rewrite zlen_take, zlen_drop in R. replace (Z.min _ _) with 8 in R by lia. exact R.
Qed.
Lemma u32_at_range l n : 0 <= n -> n + 4 <= zlen l -> bytes_ok l -> exists v, u32_at l n = Ok v /\ 0 <= v < W32.
Proof.
  intros Hn Hl B. rewrite u32_at_ok by lia. eexists. split; [reflexivity|].
  assert (bytes_ok (take 4 (drop (Z.to_nat n) l))) as B' by (by apply bytes_take, bytes_drop).
  pose proof (from_le_range _ B') as R. rewrite zlen_take, zlen_drop in R. replace (Z.min _ _) with 4 in R by lia. exact R.
Qed.
Lemma check_ok m bytes fds : check m bytes fds = Ok tt \/ check m bytes fds = bad.
Proof. unfold check. destruct (_ || _); auto. Qed.
Lemma check_inv m bytes fds : check m bytes fds = Ok tt -> zlen (m_body m) = bytes /\ zlen (m_fds m) = fds.
Proof. unfold check. destruct (_ || _) eqn:E; [done|]. bools. tauto. Qed.
(** [checked H m n k] runs the check of a message. *)
Ltac checked H m n k :=
  let C := fresh in destruct (check_ok m n k) as [C|C]; rewrite C; cbn [obind bad]; [|done]; apply check_inv in C as H.
(** [field v H] runs the next read of an integer. *)
Ltac read_at f l n :=
  lazymatch f with u64_at => constr:(u64_at_ok l n) | u32_at => constr:(u32_at_range l n) end.
Ltac field v H :=
  match goal with
  | |- context [obind (?f ?l ?n) _] =>
      let t := read_at f l n in
      let E := fresh in destruct t as (v & E & H); [lia|lia|assumption|]; rewrite E; clear E; cbn [obind]
  end.

(** ** Queues *)
Lemma queue_cases i b : (exists q, get_queue i b = Ok q /\ (i = 0 /\ q = (queues b).1 \/ i = 1 /\ q = (queues b).2)) \/ get_queue i b = bad.
Proof. unfold get_queue. destruct (i =? 0) eqn:E0; bools; [eauto 10|]. destruct (i =? 1) eqn:E1; bools; eauto 10. Qed.
Lemma set_queue_ok a i q b : backend_ok a b -> queue_ok q -> backend_ok a (set_queue i q b).
Proof. intros [B1 B2 B3 B4 B5] Q. unfold set_queue. destruct (i =? 0); by constructor. Qed.
Lemma get_queue_ok a i b q : backend_ok a b -> (i = 0 /\ q = (queues b).1 \/ i = 1 /\ q = (queues b).2) -> queue_ok q.
Proof. intros [B1 B2 B3 B4 B5] [[_ ->]|[_ ->]]; done. Qed.
Lemma vring_power v : 2 <= v <= 1024 -> u32_is_power_of_two v = true -> num_ok v.
Proof.
  intros Hv Hp.
  assert (Forall (fun v => u32_is_power_of_two v = true -> v = 2 ^ Z.log2 v) (seqZ 2 1023)) as F.
  { apply (bool_decide_unpack _). vm_compute. exact I. }
  rewrite Forall_forall in F. specialize (F v ltac:(apply elem_of_seqZ; lia) Hp). exists (Z.log2 v). split; [|done].
  split; [change 1 with (Z.log2 2); apply Z.log2_le_mono; lia|change 10 with (Z.log2 1024); apply Z.log2_le_mono; lia].
Qed.
(** Queues that differ only in what the invariant does not mention. *)
Lemma queue_reset q q' : queue_ok q -> num q' = num q -> last_avail q' = last_avail q -> (last_used q' = last_used q \/ last_used q' = None) -> queue_ok q'.
Proof. intros [Q1 Q2 Q3] E1 E2 [E3|E3]; constructor; rewrite ?E1, ?E2, ?E3; done. Qed.

(** ** Requests *)
Section Requests.
Context (E : Env) (a : Args) (HE : env_ok E) (Ha : 0 <= a_max_packets a < W64).

(** A result that keeps the invariant, with the stores to guest memory unchanged. *)
Definition kept w (res : outcome (Backend * VWorld)) : Prop :=
  match res with Ok (b', w') => backend_ok a b' /\ w_stores w' = w_stores w | Err _ => True | _ => False end.
Lemma reset_device_ok all b : backend_ok a b -> backend_ok a (reset_device all b).
Proof.
  intros [B1 B2 B3 B4 B5]. unfold reset_device. pose proof queue_default_ok. pose proof memory_default_ok. destruct all; by constructor.
Qed.
Lemma set_features_ok m b : bytes_ok (m_body m) -> backend_ok a b ->
  match set_features m b with Ok b' => backend_ok a b' | Err _ => True | _ => False end.
Proof.
  intros Bm [B1 B2 B3 B4 B5]. unfold set_features. checked H m 8 0. field f Hf. destruct (_ || _); [done|].
  assert (forall v, mem_ok (memory b <| iommu := v |>)) as Mv by (intros v; destruct B1; by constructor).
  destruct (queues b) as [p q] eqn:Eq. cbn [fst snd] in *.
  destruct (_ =? 0); (constructor; cbn; rewrite ?Eq; cbn; try done; try apply Mv); [apply (queue_reset p)|apply (queue_reset q)]; auto.
Qed.
Lemma map_regions_ok fds i body w :
  bytes_ok body -> 0 <= i -> zlen body = 8 + (i + zlen fds) * 32 ->
  match map_regions E fds i body w with Ok (l, w') => Forall region_ok l /\ w_stores w' = w_stores w | Err _ => True | _ => False end.
Proof.
  intros B. revert i w. induction fds as [|fd fds IH]; intros i w Hi Hl; cbn [map_regions].
  { split; [by apply Forall_nil|done]. }
  rewrite zlen_cons in Hl. pose proof (zlen_nonneg fds). field g Hg. field u Hu. field s Hs. field o Ho.
  pose proof (region_new_ok (file_len E fd) (page E) (mmap E (w_tick w) fd) g u s o) as Rn.
  assert (forall res, res = region_new (file_len E fd) (page E) (mmap E (w_tick w) fd) g u s o ->
    match res with Ok _ | Err _ => True | _ => False end) as Ret.
  { intros res ->. unfold region_new, bad. repeat (case_match; try done). }
  specialize (Ret _ eq_refl). destruct (region_new _ _ _ _ _ _ _) as [r| | |]; cbn [obind]; try done.
  specialize (Rn r ltac:(lia) ltac:(lia) ltac:(lia) eq_refl). specialize (IH (i + 1) (world_tick w) ltac:(lia) ltac:(lia)).
  destruct (map_regions _ _ _ _ _) as [[l w']| | |]; cbn [obind]; try done. destruct IH as [F Es]. split; [by constructor|done].
Qed.
Lemma set_mem_table_ok m b w : bytes_ok (m_body m) -> backend_ok a b -> kept w (set_mem_table E m b w).
Proof.
  intros Bm [B1 B2 B3 B4 B5]. unfold set_mem_table. destruct (_ <? 8) eqn:E8; [done|]. bools. field n Hn. field pad Hp.
  destruct (_ || _) eqn:Eb; [done|]. bools. checked H m (8 + n * 32) n. destruct H as [L1 L2].
  pose proof (map_regions_ok (m_fds m) 0 (m_body m) w Bm ltac:(lia) ltac:(lia)) as M.
  destruct (map_regions _ _ _ _ _) as [[l w']| | |]; cbn [obind]; try done. destruct M as [F Es].
  destruct (replace_regions l (memory b)) as [mem| | |] eqn:Er; cbn [obind]; try done;
    try (unfold replace_regions in Er; destruct (regions_overlap _ _); done).
  split; [|done]. pose proof (replace_regions_ok _ _ _ F Er). by constructor.
Qed.
Lemma set_vring_ok m b : bytes_ok (m_body m) -> backend_ok a b ->
  match set_vring m b with Ok (_, b') => backend_ok a b' | Err _ => True | _ => False end.
Proof.
  intros Bm B. unfold set_vring. checked H m 8 0. field index Hi. field val Hv.
  destruct (queue_cases index b) as [(q & -> & Eq)| ->]; cbn [obind]; [|done]. pose proof (get_queue_ok a index b q B Eq) as Q.
  destruct (_ =? 8).
  { destruct (_ || _) eqn:En; [done|]. bools. destruct En as [En Ep]. apply set_queue_ok; [done|]. destruct Q as [Q1 Q2 Q3].
    constructor; cbn; try done. right. unfold u16. rewrite Z.mod_small by (unfold W16; lia). apply vring_power; [lia|done]. }
  destruct (_ =? 10).
  { destruct (_ <? _) eqn:En; [done|]. bools. apply set_queue_ok; [done|]. destruct Q as [Q1 Q2 Q3].
    constructor; cbn; try done. apply Z.mod_pos_bound. done. }
  destruct (_ =? 11).
  { cbn [q_stop]. pose proof (set_queue_ok a index (q <| started := false |> <| kick := None |> <| last_used := None |>) b B) as S.
    destruct S as [S1 S2 S3 S4 S5]; [eapply queue_reset; [exact Q|..]; auto|]. by constructor. }
  destruct (1 <? val); [done|]. apply set_queue_ok; [done|]. eapply queue_reset; [exact Q|..]; auto.
Qed.
Lemma set_vring_addr_ok m b : bytes_ok (m_body m) -> backend_ok a b ->
  match set_vring_addr m b with Ok b' => backend_ok a b' | Err _ => True | _ => False end.
Proof.
  intros Bm B. unfold set_vring_addr. checked H m 40 0. field flags Hf. destruct (negb _); [done|]. field index Hi.
  destruct (queue_cases index b) as [(q & -> & Eq)| ->]; cbn [obind]; [|done]. pose proof (get_queue_ok a index b q B Eq) as Q.
  field d Hd. field u Hu. field v Hv. apply set_queue_ok; [done|]. eapply queue_reset; [exact Q|..]; auto.
Qed.
Lemma nonblocking_ok fd w : match nonblocking (sys E) fd w with Ok w' => w_stores w' = w_stores w | Err _ => True | _ => False end.
Proof.
  unfold nonblocking. destruct (sys E _) as [n e]. destruct (_ <? 0); [done|]. destruct (sys E _) as [n' e']. by destruct (_ <? 0).
Qed.
Lemma set_vring_fd_ok m b w : bytes_ok (m_body m) -> backend_ok a b -> kept w (set_vring_fd E m b w).
Proof.
  intros Bm B. unfold set_vring_fd. destruct (negb _) eqn:E8; [done|]. bools. field val Hv. destruct (negb _); [done|].
  destruct (check_ok m 8 (if negb (Z.land val 256 =? 0) then 0 else 1)) as [-> | ->]; cbn [obind bad]; [|done].
  destruct (queue_cases (Z.land val 255) b) as [(q & -> & Eq)| ->]; cbn [obind]; [|done]. pose proof (get_queue_ok a _ b q B Eq) as Q.
  match goal with |- context [obind ?x _] => assert (match x with Ok w' => w_stores w' = w_stores w | Err _ => True | _ => False end) as N; [|destruct x as [w'| | |]] end;
    cbn [obind]; try done.
  { destruct (pop _) as [f|]; [apply nonblocking_ok|done]. }
  split; [|done]. apply set_queue_ok; [done|]. destruct (_ =? 12); [|destruct (_ =? 13)]; (eapply queue_reset; [exact Q|..]; auto).
Qed.
Lemma set_backend_req_fd_ok m b w : backend_ok a b -> kept w (set_backend_req_fd E m b w).
Proof.
  intros B. unfold set_backend_req_fd. checked H m 0 1. destruct H as [_ L].
  destruct (pop (m_fds m)) as [fd|] eqn:Ep.
  2: { exfalso. apply last_None in Ep. rewrite Ep in L. done. }
  destruct (wire_new (sys E) fd (w_tick w)) as [[x k]| | |] eqn:Ex; cbn [obind]; try done;
    try (unfold wire_new in Ex; destruct (sys E _) as [n e]; destruct (n <? 0); done).
  apply wire_new_ok in Ex as (So & _). split; [|done]. destruct B. by constructor.
Qed.
Lemma iotlb_msg_ok m b : bytes_ok (m_body m) -> backend_ok a b ->
  match iotlb_msg m b with Ok b' => backend_ok a b' | Err _ => True | _ => False end.
Proof.
  intros Bm [B1 B2 B3 B4 B5]. unfold iotlb_msg. checked H m 32 0. field address Hd. field sz Hs. rewrite get_ok by lia. cbn [obind].
  destruct (_ =? 2); [|destruct (_ =? 3)]; cbn [obind bad]; try done.
  - field user Hu. rewrite get_ok by lia. cbn [obind]. set (p := nth _ _ _).
    destruct (iotlb_update address sz user p (memory b)) as [mem| | |] eqn:Eu; cbn [obind]; try done.
    + pose proof (update_ok address sz user p (memory b) mem B1 ltac:(lia) ltac:(lia) ltac:(lia) Eu). by constructor.
    + exfalso. revert Eu. unfold iotlb_update, by_user, region, invalidate, invalid, bad. cbn [obind]. repeat (case_match; cbn [obind]; try done).
    + exfalso. revert Eu. unfold iotlb_update, by_user, region, invalidate, invalid, bad. cbn [obind]. repeat (case_match; cbn [obind]; try done).
  - destruct (invalidate address sz (memory b)) as [mem| | |] eqn:Eu; cbn [obind]; try done;
      try (unfold invalidate in Eu; destruct (_ =? 0); done).
    pose proof (invalidate_ok _ _ _ _ B1 Eu) as [M _]. by constructor.
Qed.
Lemma request_ok m b w : bytes_ok (m_body m) -> backend_ok a b ->
  match request E m b w with Ok (_, b', w') => backend_ok a b' /\ w_stores w' = w_stores w | Err _ => True | _ => False end.
Proof.
  intros Bm B. pose proof B as [B1 B2 B3 B4 B5]. unfold request.
  destruct (_ =? 1); [by checked H m 0 0|]. destruct (_ =? 15); [by checked H m 0 0|]. destruct (_ =? 17); [by checked H m 0 0|].
  destruct (_ =? 3); [checked H m 0 0; split; [by constructor|done]|].
  destruct (_ || _); [checked H m 0 0; split; [by apply reset_device_ok|done]|].
  destruct (_ =? 16); [checked H m 8 0; field f Hf; destruct (negb _); [done|]; split; [by constructor|done]|].
  destruct (_ =? 2); [pose proof (set_features_ok m b Bm B) as R; by destruct (set_features m b)|].
  destruct (_ =? 5); [pose proof (set_mem_table_ok m b w Bm B) as R; by destruct (set_mem_table E m b w) as [[b' w']| | |]|].
  destruct (_ || _); [pose proof (set_vring_ok m b Bm B) as R; by destruct (set_vring m b) as [[reply b']| | |]|].
  destruct (_ =? 9); [pose proof (set_vring_addr_ok m b Bm B) as R; by destruct (set_vring_addr m b)|].
  destruct (_ && _); [pose proof (set_vring_fd_ok m b w Bm B) as R; by destruct (set_vring_fd E m b w) as [[b' w']| | |]|].
  destruct (_ =? 21); [pose proof (set_backend_req_fd_ok m b w B) as R; by destruct (set_backend_req_fd E m b w) as [[b' w']| | |]|].
  destruct (_ =? 22); [pose proof (iotlb_msg_ok m b Bm B) as R; by destruct (iotlb_msg m b)|done].
Qed.
(** A reply, and what it leaves of the control socket. *)
Lemma reply_to_ok m reply x w : send_ok x ->
  match reply_to E m reply x w with
  | Ok (x', w') => send_ok x' /\ receiving x' = receiving x /\ w_stores w' = w_stores w
  | Err _ => True
  | _ => False
  end.
Proof.
  intros So. unfold reply_to.
  assert (forall body, match (let* '(x, k) := wire_send (sock_write E) (patience E) (m_request m) true body x (w_tick w) in Ok (x, w <| w_tick := k |>)) with
    | Ok (x', w') => send_ok x' /\ receiving x' = receiving x /\ w_stores w' = w_stores w | Err _ => True | _ => False end) as Send.
  { intros body. pose proof (wire_send_spec (sock_write E) (patience E) (m_request m) true body x (w_tick w) (eo_write _ HE) So) as F.
    destruct (wire_send _ _ _ _ _ _ _) as [[x' k']| | |]; cbn [obind]; try done. destruct F as (F1 & _ & F3 & _). done. }
  destruct reply as [body|]; [apply Send|]. destruct (negb _); [apply Send|done].
Qed.
Lemma handle_message_ok m b x w : bytes_ok (m_body m) -> backend_ok a b -> send_ok x ->
  match handle_message E m b x w with
  | Ok (b', x', w') => backend_ok a b' /\ send_ok x' /\ receiving x' = receiving x /\ w_stores w' = w_stores w
  | Err _ => True
  | _ => False
  end.
Proof.
  intros Bm B So. unfold handle_message. pose proof (request_ok m b w Bm B) as R.
  destruct (request E m b w) as [[[reply b'] w1]| | |]; cbn [obind]; try done. destruct R as [R1 R2].
  pose proof (reply_to_ok m reply x w1 So) as S. destruct (reply_to E m reply x w1) as [[x' w2]| | |]; cbn [obind]; try done.
  destruct S as (S1 & S2 & S3). split_and!; try done. congruence.
Qed.

(** ** Faults *)
Definition same_but_channel b b' : Prop :=
  memory b' = memory b /\ queues b' = queues b /\ session b' = session b /\ previous_session b' = previous_session b.
Definition channel_ok b : Prop := match channel b with Some x => send_ok x | None => True end.
Lemma handle_fault_spec f b w : channel_ok b ->
  match handle_fault E f b w with
  | Ok (b', w') => channel_ok b' /\ w_stores w' = w_stores w /\ same_but_channel b b'
  | Err _ => True
  | _ => False
  end.
Proof.
  intros B4. unfold handle_fault. destruct f as [address p|]; [|done].
  destruct (pending_miss b) as [[[old op] since]|]; [by destruct (_ <? _)|].
  destruct (negb _); [done|]. rewrite copy_at_ok by (rewrite ?to_le_length, ?zlen_replicate; lia). cbn [obind].
  set (body := _ ++ _). assert (zlen body = 32) as L by (unfold body; done). clearbody body.
  rewrite set_at_ok by lia. cbn [obind]. rewrite set_at_ok by (unfold zlen in *; rewrite length_insert; lia). cbn [obind].
  unfold channel_ok in B4. destruct (channel b) as [x|] eqn:Ec; [|done].
  match goal with |- context [wire_send ?s ?p ?r ?rp ?bd x ?k] => pose proof (wire_send_spec s p r rp bd x k (eo_write _ HE) B4) as F; destruct (wire_send s p r rp bd x k) as [[x' k']| | |] end;
    cbn [obind]; try done. destruct F as (F1 & _). split_and!; done.
Qed.
End Requests.
