(* ===== verification/VhostData.v ===== *)
(** * What the vhost-user backend writes into the guest

    The stores of a pass over a queue are exactly the bytes of the generated packets in the buffers of their chains, the used
    entry of each chain behind its packet, and the used index behind all of them. *)
From Stdlib Require Import ZArith Lia Bool.
From stdpp Require Import base numbers option list.
From S2P Require Import Prelude VhostMemory VhostMemoryProps VhostQueue VhostQueueProps VhostWire VhostWireProps Vhost VhostInv.
#[local] Open Scope Z_scope.
Implicit Types (b : Backend) (w : VWorld) (m : Message) (a : Args) (r : VRings).

(** ** Packets *)
Definition vm_bytes (kind : list Z) (sequence gpa_or_count size session : Z) : list Z :=
  VM_MAC ++ VM_PEER ++ [136; 181] ++ kind ++ to_le 8 sequence ++ to_le 8 gpa_or_count ++ to_le 4 (u32 size) ++ [0; 0; 0; 0] ++ to_le 8 session.
Lemma vm_header_ok x y sequence gpa size session :
  vm_header [x; y] sequence gpa size session = Ok (vm_bytes [x; y] sequence gpa size session).
Proof. unfold vm_header, vm_bytes, VM_HEADER. lazy -[Z.modulo Z.div u32]. reflexivity. Qed.
(** The bytes of a packet: the virtio header, the header and the payload. *)
Definition packet (header : list Z) (sequence size : Z) : list Z :=
  replicate 12 0 ++ header ++ map (fun i => payload_byte sequence (Z.of_nat i)) (seq 0 (Z.to_nat (size - VM_HEADER))).
Lemma packet_length header sequence size : zlen header = 48 -> 48 <= size -> zlen (packet header sequence size) = size + 12.
Proof. intros H L. unfold packet, VM_HEADER, zlen in *. rewrite !length_app, length_map, length_seq, length_replicate. lia. Qed.
Lemma frame_byte_ok header sequence size p :
  zlen header = 48 -> 48 <= size -> 0 <= p < size + 12 ->
  exists x, frame_byte header sequence p = Ok x /\ packet header sequence size !! Z.to_nat p = Some x.
Proof.
  intros Lh Ls Hp. unfold frame_byte, packet, VM_HEADER in *. unfold zlen in Lh.
  destruct (p <? 12) eqn:E1; bools.
  { exists 0. split; [done|]. rewrite lookup_app_l by (rewrite length_replicate; lia). apply lookup_replicate. lia. }
  rewrite lookup_app_r by (rewrite length_replicate; lia). rewrite length_replicate. destruct (p <? 12 + 48) eqn:E2; bools.
  - rewrite get_ok by (unfold zlen; lia). eexists. split; [reflexivity|]. rewrite lookup_app_l by lia.
    replace (Z.to_nat p - 12)%nat with (Z.to_nat (p - 12)) by lia. rewrite nth_lookup.
    destruct (header !! Z.to_nat (p - 12)) eqn:E; [done|]. apply lookup_ge_None in E. lia.
  - eexists. split; [reflexivity|]. rewrite lookup_app_r by lia.
    apply list_lookup_fmap_Some. exists (Z.to_nat p - 12 - length header)%nat. split; [by replace (Z.of_nat _) with (p - 12 - 48) by lia|].
    apply lookup_seq. lia.
Qed.

(** ** Buffers *)
Definition span_addresses (s : Span) : list Z := map (fun i => sp_ptr s + Z.of_nat i) (seq 0 (Z.to_nat (sp_len s))).
(** The addresses of the bytes of a chain, in order. *)
Definition addresses (spans : list Span) : list Z := concat (map span_addresses spans).
(** Bytes stored one by one. *)
Definition put_bytes (addrs bytes : list Z) : list (Z * list Z) := zip addrs (map (fun x => [x]) bytes).
Lemma put_app l1 l2 k1 k2 : length l1 = length k1 -> put_bytes (l1 ++ l2) (k1 ++ k2) = put_bytes l1 k1 ++ put_bytes l2 k2.
Proof. intros L. unfold put_bytes. rewrite map_app. apply zip_with_app. by rewrite length_map. Qed.
Lemma generate_span_ok header sequence size ptr offset n i w :
  zlen header = 48 -> 48 <= size -> 0 <= offset -> 0 <= i -> offset + i + Z.of_nat n <= size + 12 ->
  exists w', generate_span n header sequence ptr offset i w = Ok w'
    /\ w_stores w' = w_stores w ++ put_bytes (map (fun j => ptr + i + Z.of_nat j) (seq 0 n)) (take n (drop (Z.to_nat (offset + i)) (packet header sequence size))).
Proof.
  intros Lh Ls Ho. revert i w. induction n as [|n IH]; intros i w Hi Hn; cbn [generate_span].
  { exists w. split; [done|]. by rewrite take_0, app_nil_r. }
  destruct (frame_byte_ok header sequence size (offset + i) Lh Ls ltac:(lia)) as (x & -> & Ex). cbn [obind].
  destruct (IH (i + 1) (store_bytes (ptr + i) [x] w) ltac:(lia) ltac:(lia)) as (w' & -> & Ew). exists w'. split; [done|].
  rewrite Ew. cbn [store_bytes w_stores]. unfold store_bytes. cbn [w_stores]. change (w_stores (w <| w_stores ::= _ |>)) with (w_stores w ++ [(ptr + i, [x])]).
  rewrite <- app_assoc. f_equal. apply drop_S in Ex. rewrite Ex. cbn [take seq map]. unfold put_bytes. cbn [map zip_with app].
  change (Z.of_nat 0) with 0. rewrite Z.add_0_r. f_equal. f_equal.
  - rewrite <- seq_shift, map_map. apply map_ext. intros j. lia.
  - do 3 f_equal. lia.
Qed.
Lemma addresses_cons s l : addresses (s :: l) = span_addresses s ++ addresses l.
Proof. done. Qed.
Lemma span_addresses_length s : 0 <= sp_len s -> length (span_addresses s) = Z.to_nat (sp_len s).
Proof. intros. unfold span_addresses. by rewrite length_map, length_seq. Qed.
Lemma span_addresses_take s n : take n (span_addresses s) = map (fun j => sp_ptr s + Z.of_nat j) (seq 0 (n `min` Z.to_nat (sp_len s))).
Proof.
  unfold span_addresses. by rewrite firstn_map, take_seq.
Qed.
Lemma generate_loop_ok spans header sequence size offset w :
  zlen header = 48 -> 48 <= size -> 0 <= offset < size + 12 -> Forall (fun s => 0 < sp_len s) spans -> size + 12 - offset <= lens spans ->
  exists w', generate_loop spans header sequence size offset w = Ok w'
    /\ w_stores w' = w_stores w ++ put_bytes (take (Z.to_nat (size + 12 - offset)) (addresses spans)) (drop (Z.to_nat offset) (packet header sequence size)).
Proof.
  intros Lh Ls. revert offset w. induction spans as [|s spans IH]; intros offset w Ho F Hl; [cbn in Hl; lia|].
  apply Forall_cons in F as [Fs F]. cbn [generate_loop]. change (lens (s :: spans)) with (sp_len s + lens spans) in Hl.
  set (n := Z.min _ _). pose proof (packet_length header sequence size Lh Ls) as Lp. unfold zlen in Lp.
  destruct (generate_span_ok header sequence size (sp_ptr s) offset (Z.to_nat n) 0 w Lh Ls ltac:(lia) ltac:(lia) ltac:(lia)) as (w1 & -> & E1).
  cbn [obind]. rewrite !Z.add_0_r in E1. rewrite addresses_cons, take_app, span_addresses_length by lia.
  rewrite span_addresses_take. replace (Z.to_nat (size + 12 - offset) `min` Z.to_nat (sp_len s))%nat with (Z.to_nat n) by lia.
  destruct (_ =? _) eqn:E; bools.
  - exists w1. split; [done|]. rewrite E1. f_equal. replace (Z.to_nat (size + 12 - offset) - Z.to_nat (sp_len s))%nat with 0%nat by lia.
    rewrite take_0, app_nil_r. f_equal. apply take_ge. rewrite length_drop. lia.
  - destruct (IH (offset + n) w1 ltac:(lia) F ltac:(lia)) as (w' & -> & E'). exists w'. split; [done|]. rewrite E', E1, <- app_assoc. f_equal.
    rewrite <- (take_drop (Z.to_nat n) (drop (Z.to_nat offset) (packet header sequence size))) at 2. rewrite put_app.
    + rewrite drop_drop. replace (Z.to_nat offset + Z.to_nat n)%nat with (Z.to_nat (offset + n)) by lia.
      by replace (Z.to_nat (size + 12 - offset) - Z.to_nat (sp_len s))%nat with (Z.to_nat (size + 12 - (offset + n))) by lia.
    + rewrite length_map, length_seq, length_take, length_drop. lia.
Qed.

Lemma generate_span_tick n header sequence ptr offset i w w' :
  generate_span n header sequence ptr offset i w = Ok w' -> w_tick w' = w_tick w.
Proof.
  revert i w. induction n as [|n IH]; intros i w E; [by injection E as <-|]. cbn [generate_span] in E.
  apply obind_Ok in E as (x & _ & E). by apply IH in E.
Qed.
Lemma generate_loop_tick spans header sequence size offset w w' :
  generate_loop spans header sequence size offset w = Ok w' -> w_tick w' = w_tick w.
Proof.
  revert offset w. induction spans as [|s spans IH]; intros offset w E; [by injection E as <-|]. cbn [generate_loop] in E.
  apply obind_Ok in E as (w1 & E1 & E). apply generate_span_tick in E1. destruct (_ =? _); [by injection E as <-|].
  apply IH in E. congruence.
Qed.
Lemma complete_tick r head len q w q' w' : complete r head len q w = Ok (q', w') -> w_tick w' = w_tick w.
Proof.
  unfold complete, span_copy_in. destruct (last_used q); [|done]. intros E. apply obind_Ok in E as (s & _ & E).
  destruct (_ <=? _); [|done]. cbn [obind] in E. by injection E as _ <-.
Qed.

(** ** Queues that q_advance *)
Definition q_advance (k : Z) (q : Queue) : Queue :=
  q <| last_used := Some (u16 (last_avail q + k)) |> <| last_avail := u16 (last_avail q + k) |>.
Lemma advance_zero q : queue_ok q -> last_used q = Some (last_avail q) -> q_advance 0 q = q.
Proof.
  intros [_ Q _] E. unfold q_advance, u16. rewrite Z.add_0_r, Z.mod_small by done. rewrite <- E. by destruct q.
Qed.
Lemma advance_more k q : q_advance k (q_advance 1 q) = q_advance (1 + k) q.
Proof.
  unfold q_advance. cbn. unfold u16. rewrite Zplus_mod_idemp_l. by replace (last_avail q + 1 + k) with (last_avail q + (1 + k)) by lia.
Qed.
Definition used_entry r (n la head len : Z) : Z * list Z :=
  (sp_ptr (r_used r) + (4 + Z.land la (n - 1) * 8), to_le 4 head ++ to_le 4 len).
(** The stores for the chains [done], the first of which was offered as number [la]: received frames with their number in the session, and
    transmitted packets. *)
Fixpoint rx_stores r (n la size id sequence : Z) (done : list (Z * list Span)) : list (Z * list Z) :=
  match done with
  | [] => []
  | (head, spans) :: done =>
      let header := vm_bytes VD sequence (default 0 (frame_gpa spans)) size id in
      put_bytes (take (Z.to_nat (size + 12)) (addresses spans)) (packet header sequence size)
      ++ used_entry r n la head (u32 (size + 12)) :: rx_stores r n (u16 (la + 1)) size id (sequence + 1) done
  end.
(** The chains [frames] of the receive queue are those that the guest offered from number [la] on,
    one after the other, each found by the accesses after those for the one before it. *)
Fixpoint offers (guest : nat -> Z -> Z) (mem : Memory) r (n la : Z) (k : nat) (frames : list (Z * list Span)) (k' : nat) : Prop :=
  match frames with
  | [] => k' = k
  | (head, spans) :: frames =>
      exists k1, offered guest mem r true n la k head spans k1 /\ offers guest mem r n (u16 (la + 1)) k1 frames k'
  end.
Fixpoint tx_stores r (n la : Z) (heads : list Z) : list (Z * list Z) :=
  match heads with
  | [] => []
  | head :: heads => used_entry r n la head 0 :: tx_stores r n (u16 (la + 1)) heads
  end.

Lemma lens_spans_len l : spans_len l = lens l.
Proof. done. Qed.
Lemma frame_gpa_some spans k : Forall (fun s => 0 < sp_len s) spans -> 0 <= k < lens spans -> exists g, frame_gpa_loop spans k = Some g.
Proof.
  revert k. induction spans as [|s l IH]; intros k F Hk; [cbn in Hk; lia|]. apply Forall_cons in F as [Fs F].
  change (lens (s :: l)) with (sp_len s + lens l) in Hk. cbn [frame_gpa_loop]. destruct (_ <? _) eqn:E; bools; [eauto|]. apply IH; [done|lia].
Qed.
Lemma spans_positive write mem r l : mem_ok mem -> spans_ok write mem r l -> Forall (fun s => 0 < sp_len s) l.
Proof.
  intros I S. eapply Forall_impl; [exact (so_in _ _ _ _ S)|]. intros s Hs. by destruct (span_in_range _ _ I Hs).
Qed.
(** One frame: generated into the chain, then completed. *)
Section Data.
Context (E : Env) (a : Args) (HE : env_ok E) (Ha : args_ok a = true).
Lemma size_ok : 64 <= a_size a <= 1514 /\ 1 <= a_batch a <= 256.
Proof. unfold args_ok in Ha. bools. lia. Qed.
Definition frame_done b (s : Session) (done : list (Z * list Span)) (sp : list Span) : Backend :=
  b <| queues := (q_advance (zlen done) (queues b).1, (queues b).2) |>
    <| session := Some (s <| s_generated := s_generated s + zlen done |>) |> <| b_spans := sp |>.
(** Why no frame follows the frames [done]: the batch is complete, the rate or the session allows no
    more, access [k] finds that the guest offers no further chain, or the next one faults. *)
Definition stops r (batch allowed : Z) b (s : Session) (done : list (Z * list Span)) (k : nat) (f : option Fault) : Prop :=
  match f with
  | None => zlen done = batch \/ s_generated s + zlen done = allowed
      \/ avail_index (guest E) r k = u16 (last_avail (queues b).1 + zlen done)
  | Some f => exists w sp w', w_tick w = k
      /\ peek (guest E) (memory b) (q_advance (zlen done) (queues b).1) r true w = Ok (inl f, sp, w')
  end.
(** A chain that is too short for a frame. *)
Definition too_short r b (done : list (Z * list Span)) (k : nat) : Prop :=
  exists head spans k', offered (guest E) (memory b) r true (num (queues b).1) (u16 (last_avail (queues b).1 + zlen done)) k head spans k'
    /\ lens spans < a_size a + 12.
Definition rx_post r (allowed completed : Z) b (s : Session) (n : nat) w (res : outcome (Z * option Fault * Backend * VWorld)) : Prop :=
  match res with
  | Ok (completed', f, b', w') => exists done sp k,
      completed' = completed + zlen done /\ zlen done <= Z.of_nat n /\ s_generated s + zlen done <= allowed
      /\ Forall (fun '(head, spans) => 0 <= head < num (queues b).1 /\ spans_ok true (memory b) r spans /\ a_size a + 12 <= lens spans) done
      /\ w_stores w' = w_stores w ++ rx_stores r (num (queues b).1) (last_avail (queues b).1) (a_size a) (s_id s) (s_generated s) done
      /\ b' = frame_done b s done sp
      /\ offers (guest E) (memory b) r (num (queues b).1) (last_avail (queues b).1) (w_tick w) done k
      /\ stops r (Z.of_nat n) allowed b s done k f
  | Err _ => exists done k,
      offers (guest E) (memory b) r (num (queues b).1) (last_avail (queues b).1) (w_tick w) done k /\ too_short r b done k
  | Panic => ~ low (memory b)
  | OutOfFuel => False
  end.
Lemma advance_ok mem q r k : 0 <= k -> queue_ok q -> vrings_ok mem q r -> queue_ok (q_advance k q) /\ vrings_ok mem (q_advance k q) r.
Proof.
  intros Hk [Q1 Q2 Q3] R. assert (0 <= u16 (last_avail q + k) < W16) as Hu by (apply Z.mod_pos_bound; done). split.
  - constructor; cbn; [done|done|congruence].
  - destruct R. by constructor.
Qed.
(** No chain was completed. *)
Lemma rx_post_nil r allowed completed b s n w f sp w' :
  queue_ok (queues b).1 -> vrings_ok (memory b) (queues b).1 r -> session b = Some s -> s_generated s <= allowed ->
  w_stores w' = w_stores w -> stops r (Z.of_nat n) allowed b s [] (w_tick w) f ->
  rx_post r allowed completed b s n w (Ok (completed, f, b <| b_spans := sp |>, w')).
Proof.
  intros Q R S Hg Ew St. exists [], sp, (w_tick w). cbn [rx_stores]. rewrite app_nil_r. change (zlen []) with 0. split_and!; try done; try lia.
  unfold frame_done. change (zlen []) with 0. rewrite advance_zero, Z.add_0_r by (done || apply (ro_started _ _ _ R)).
  replace (s <| s_generated := s_generated s |>) with s by (by destruct s). rewrite <- S. by destruct b as [? [? ?]].
Qed.
Lemma advance_u16 la k : u16 (u16 (la + 1) + k) = u16 (la + (1 + k)).
Proof. unfold u16. rewrite Zplus_mod_idemp_l. f_equal. lia. Qed.
(** The rest of the loop after one frame. *)
Lemma rx_post_cons r allowed completed b s n w w3 head spans res :
  0 <= head < num (queues b).1 -> spans_ok true (memory b) r spans -> a_size a + 12 <= lens spans ->
  w_stores w3 = w_stores w ++ rx_stores r (num (queues b).1) (last_avail (queues b).1) (a_size a) (s_id s) (s_generated s) [(head, spans)] ->
  offered (guest E) (memory b) r true (num (queues b).1) (last_avail (queues b).1) (w_tick w) head spans (w_tick w3) ->
  rx_post r allowed (completed + 1) (frame_done b s [(head, spans)] spans) (s <| s_generated := s_generated s + 1 |>) n w3 res ->
  rx_post r allowed completed b s (S n) w res.
Proof.
  intros Hh So Hl Ew Of P. destruct res as [[[[c f] b'] w']| | |]; try done.
  2:{ destruct P as (done & k1 & Po & h & sp & k2 & Ps & Pl). exists ((head, spans) :: done), k1. split; [by exists (w_tick w3)|].
      exists h, sp, k2. split; [|done]. cbn in Ps. rewrite advance_u16 in Ps. by rewrite zlen_cons. }
  destruct P as (done & sp & k & -> & Pn & Pg & Pf & Pw & -> & Po & Pt). exists ((head, spans) :: done), sp, k. rewrite zlen_cons.
  change (zlen [(head, spans)]) with 1 in *. cbn in Pg, Pf. split_and!; [lia|lia|lia|by constructor| | |by exists (w_tick w3)|].
  3:{ destruct f as [f|]; cbn [stops] in *.
      - destruct Pt as (w4 & sp4 & w5 & Ek & Ep). exists w4, sp4, w5. split; [done|]. change (queues (frame_done b s [(head, spans)] spans)).1 with (q_advance 1 (queues b).1) in Ep. rewrite advance_more in Ep. by rewrite zlen_cons.
      - cbn in Pt. rewrite zlen_cons. rewrite advance_u16 in Pt. destruct Pt as [Pt|[Pt|Pt]]; [left; lia|right; left; lia|by right; right]. }
  - rewrite Pw, Ew, <- app_assoc. f_equal. cbn [rx_stores]. rewrite <- app_assoc. f_equal.
  - unfold frame_done. cbn. rewrite advance_more, (zlen_cons (head, spans) done). by rewrite Z.add_assoc.
Qed.
Lemma rx_loop_spec r allowed completed b s n w :
  mem_ok (memory b) -> queue_ok (queues b).1 -> vrings_ok (memory b) (queues b).1 r -> session b = Some s ->
  s_generated s <= allowed -> allowed < W64 -> rx_post r allowed completed b s n w (rx_loop E n a r allowed completed b w).
Proof.
  pose proof size_ok as [Hs _]. assert (forall b, b = b <| b_spans := b_spans b |>) as Same by (by intros []).
  revert completed b s w. induction n as [|n IH]; intros completed b s w I Q R S Hg Hal; cbn [rx_loop].
  { rewrite (Same b) at 2. apply rx_post_nil; try done. by left. }
  rewrite S. destruct (_ <=? _) eqn:Eg; bools.
  { rewrite (Same b) at 2. apply rx_post_nil; try done. right. left. change (zlen []) with 0. lia. }
  pose proof (peek_spec (guest E) (eo_guest _ HE) (memory b) (queues b).1 r true w I Q R) as P.
  destruct (peek _ _ _ _ _ _) as [[[[f|[head|]] spans] w1]| | |] eqn:Epk; cbn [obind]; try done.
  { destruct P as [P1 P2]. apply rx_post_nil; try done. exists w, spans, w1. split; [done|].
    by rewrite advance_zero by (done || apply (ro_started _ _ _ R)). }
  2: { destruct P as [-> P2]. apply rx_post_nil; try done. right. right. change (zlen []) with 0. rewrite Z.add_0_r.
       apply peek_empty in Epk; [|exact (eo_guest _ HE)|apply Q]. unfold u16. rewrite Z.mod_small by apply Q. exact Epk. }
  destruct P as (Hh & Ne & So & Ew1). pose proof (peek_offered _ _ _ _ _ _ _ _ _ Epk) as Of. rewrite lens_spans_len. destruct (_ <? _) eqn:El; bools.
  { exists [], (w_tick w). split; [done|]. exists head, spans, (w_tick w1). change (zlen []) with 0.
    rewrite Z.add_0_r. unfold u16. by rewrite Z.mod_small by apply Q. }
  pose proof (spans_positive _ _ _ _ I So) as Pos. destruct (frame_gpa_some spans 12 Pos ltac:(lia)) as [g Eg'].
  fold (frame_gpa spans) in Eg'. rewrite Eg'. rewrite (vm_header_ok 86 68 : forall x y z t, vm_header VD x y z t = _). cbn [obind].
  set (header := vm_bytes _ _ _ _ _). unfold generate.
  destruct (generate_loop_ok spans header (s_generated s) (a_size a) 0 w1 eq_refl ltac:(lia) ltac:(lia) Pos ltac:(lia)) as (w2 & Eg2 & Ew2).
  rewrite Eg2. apply generate_loop_tick in Eg2. cbn [obind]. change (queues (b <| b_spans := spans |>)) with (queues b).
  destruct (complete_spec (memory b) (queues b).1 r head (u32 (a_size a + 12)) w2 Q R) as (q' & w3 & Ec3 & Eq & Q' & R' & Ew3).
  rewrite Ec3. apply complete_tick in Ec3. cbn [obind].
  unfold add64. rewrite (proj2 (Z.ltb_lt _ _)) by lia. cbn [obind]. change (q' = q_advance 1 (queues b).1) in Eq. subst q'.
  apply (rx_post_cons r allowed completed b s n w w3 head spans); [done|done|lia| |by rewrite Ec3, Eg2|].
  - rewrite Ew3, Ew2, Ew1, <- app_assoc. cbn [rx_stores]. rewrite Eg', Z.sub_0_r. done.
  - apply (IH (completed + 1) (frame_done b s [(head, spans)] spans)); try done. cbn. lia.
Qed.

(** ** The transmit queue *)
Lemma scatter_spec spans skip pos out w :
  Forall (fun s => 0 < sp_len s) spans -> 0 <= skip -> 0 <= pos < zlen out -> bytes_ok out ->
  exists whole out' w', scatter (guest E) spans skip pos out w = Ok (whole, out', w') /\ zlen out' = zlen out /\ bytes_ok out'
    /\ w_stores w' = w_stores w.
Proof.
  intros F. revert skip pos out w. induction F as [|s spans Fs F IH]; intros skip pos out w Hs Hd Bo; cbn [scatter]; [by eexists _, _, _|].
  destruct (_ <=? _) eqn:E1; bools; [apply IH; try done; lia|]. set (n := Z.min _ _). rewrite span_slice_ok by lia. cbn [obind].
  set (t := mkSpan _ _ _). destruct (copy_out_spec (guest E) (eo_guest _ HE) t (Z.to_nat n) w) as (d & w1 & -> & Bd & Ld & Ew); [cbn; lia|]. cbn [obind].
  destruct (copy_at out pos d) as [o| | |] eqn:Ec; cbn [obind]; try (rewrite copy_at_ok in Ec by lia; done).
  pose proof (copy_at_inv _ _ _ _ Ec) as (Lo & _). pose proof (copy_at_bytes _ _ _ _ Ec Bo Bd) as Bo'. rewrite Lo.
  destruct (_ =? _) eqn:E2; bools; [eexists _, _, _; split; [reflexivity|done]|].
  destruct (IH 0 (pos + n) o w1 ltac:(lia) ltac:(lia) Bo') as (wh & o' & w' & -> & L' & B' & W'). exists wh, o', w'. split_and!; try done; congruence.
Qed.
Definition session_state b : Prop :=
  match session b with Some s => session_ok a s /\ previous_session b = Some (s_id s) | None => True end.
Definition with_session (se : option Session) (prev : option Z) b : Backend := b <| session := se |> <| previous_session := prev |>.
Lemma tx_packet_spec h b w :
  zlen h = 48 -> bytes_ok h -> session_state b ->
  match tx_packet E a h b w with
  | Ok (b', w') => exists se prev, b' = with_session se prev b /\ session_state b' /\ w_stores w' = w_stores w
  | Err _ => True
  | _ => False
  end.
Proof.
  intros L B S. unfold tx_packet. destruct (u64_at_ok h 40 ltac:(lia) ltac:(lia) B) as (id & Ei & _).
  change (vm_u64_at h 40) with (u64_at h 40). rewrite Ei. cbn [obind]. destruct (_ && _ && _).
  - destruct (u64_at_ok h 24 ltac:(lia) ltac:(lia) B) as (n & En & Hn). change (vm_u64_at h 24) with (u64_at h 24). rewrite En. cbn [obind].
    destruct (_ || _) eqn:Eo; [done|]. bools. eexists _, _. split; [reflexivity|]. split; [|done]. unfold session_state, session_ok. cbn. split; [lia|done].
  - destruct (_ && _); eexists _, _; (split; [|split; [|done]]); [reflexivity|done| |exact S].
    instantiate (1 := previous_session b). instantiate (1 := session b). by destruct b.
Qed.
Definition tx_post r (completed : Z) b (n : nat) w (res : outcome (Z * option Fault * Backend * VWorld)) : Prop :=
  match res with
  | Ok (completed', f, b', w') => exists heads se prev sp,
      completed' = completed + zlen heads /\ zlen heads <= Z.of_nat n
      /\ Forall (fun head => 0 <= head < num (queues b).2) heads
      /\ w_stores w' = w_stores w ++ tx_stores r (num (queues b).2) (last_avail (queues b).2) heads
      /\ b' = with_session se prev b <| queues := ((queues b).1, q_advance (zlen heads) (queues b).2) |> <| b_spans := sp |>
      /\ session_state b'
  | Err _ => True
  | Panic => ~ low (memory b)
  | OutOfFuel => False
  end.
Lemma tx_post_nil r completed b n w f sp w' :
  queue_ok (queues b).2 -> vrings_ok (memory b) (queues b).2 r -> session_state b ->
  w_stores w' = w_stores w -> tx_post r completed b n w (Ok (completed, f, b <| b_spans := sp |>, w')).
Proof.
  intros Q R S Ew. exists [], (session b), (previous_session b), sp. cbn [tx_stores]. rewrite app_nil_r. change (zlen []) with 0.
  split_and!; try done; try lia. rewrite advance_zero by (done || apply (ro_started _ _ _ R)). by destruct b as [? [? ?]].
Qed.
Lemma tx_post_cons r completed b b1 n w w3 head se prev sp0 res :
  0 <= head < num (queues b).2 -> b1 = with_session se prev b <| queues := ((queues b).1, q_advance 1 (queues b).2) |> <| b_spans := sp0 |> ->
  w_stores w3 = w_stores w ++ [used_entry r (num (queues b).2) (last_avail (queues b).2) head 0] ->
  tx_post r (completed + 1) b1 n w3 res -> tx_post r completed b (S n) w res.
Proof.
  intros Hh -> Ew P. destruct res as [[[[c f] b'] w']| | |]; try done.
  destruct P as (heads & se' & prev' & sp & -> & Pn & Pf & Pw & Eb & Ps). exists (head :: heads), se', prev', sp. rewrite (zlen_cons head heads).
  cbn in Pf. split_and!; [lia|lia|by constructor| | |done].
  - rewrite Pw, Ew, <- app_assoc. done.
  - rewrite Eb. unfold with_session. cbn. by rewrite advance_more.
Qed.
Lemma tx_loop_spec r completed b n w :
  mem_ok (memory b) -> queue_ok (queues b).2 -> vrings_ok (memory b) (queues b).2 r -> session_state b ->
  tx_post r completed b n w (tx_loop E n a r completed b w).
Proof.
  assert (forall b, b = b <| b_spans := b_spans b |>) as Same by (by intros []).
  revert completed b w. induction n as [|n IH]; intros completed b w I Q R S; cbn [tx_loop].
  { rewrite (Same b) at 2. by apply tx_post_nil. }
  pose proof (peek_spec (guest E) (eo_guest _ HE) (memory b) (queues b).2 r false w I Q R) as P.
  destruct (peek _ _ _ _ _ _) as [[[[f|[head|]] spans] w1]| | |]; cbn [obind]; try done.
  { destruct P as [P1 P2]. by apply tx_post_nil. }
  2: { destruct P as [-> P2]. by apply tx_post_nil. }
  destruct P as (Hh & Ne & So & Ew1). unfold read_scatter.
  destruct (scatter_spec spans 12 0 (replicate (Z.to_nat VM_HEADER) 0) w1 (spans_positive _ _ _ _ I So) ltac:(lia) ltac:(done) (bytes_zeros _))
    as (whole & h & w2 & -> & Lh & Bh & Ew2). cbn [obind].
  match goal with |- context [obind ?x _] => assert (match x with
    | Ok (b', w') => exists se prev, b' = with_session se prev b <| b_spans := spans |> /\ session_state b' /\ w_stores w' = w_stores w2
    | Err _ => True | _ => False end) as T; [|destruct x as [[b2 w3]| | |]; cbn [obind]; try done] end.
  { destruct whole; [|exists (session b), (previous_session b); split_and!; try done; by destruct b].
    cbv iota. match goal with |- context [tx_packet E a h ?x w2] => exact (tx_packet_spec h x w2 Lh Bh S) end. }
  destruct T as (se & prev & -> & S2 & Ew3). change (queues (with_session se prev b <| b_spans := spans |>)) with (queues b).
  destruct (complete_spec (memory b) (queues b).2 r head 0 w3 Q R) as (q' & w4 & -> & Eq & Q' & R' & Ew4). cbn [obind].
  change (q' = q_advance 1 (queues b).2) in Eq. subst q'.
  apply (tx_post_cons r completed b (set_queue 1 (q_advance 1 (queues b).2) (with_session se prev b <| b_spans := spans |>)) n w w4 head se prev spans);
    [done|done| |by apply IH]. rewrite Ew4, Ew3, Ew2, Ew1. done.
Qed.
End Data.
