(* ===== verification/VhostProps.v ===== *)
(** * The vhost-user backend is safe for every guest and frontend

    The guest changes its memory at any time and the frontend sends any bytes; the backend keeps its
    invariant, writes only what it promises and where it promises, and returns. *)
From Stdlib Require Import ZArith Lia Bool.
From stdpp Require Import base numbers option list relations.
From S2P Require Import Prelude VhostMemory VhostMemoryProps VhostQueue VhostQueueProps VhostWire VhostWireProps Vhost VhostInv VhostData.
#[local] Open Scope Z_scope.
Implicit Types (b : Backend) (w : VWorld) (m : Message) (a : Args) (r : VRings).

(** ** Buffers in host memory *)
(** The mappings of two regions do not overlap, as mappings of [mmap] do not. *)
Definition hosts_apart (mem : Memory) : Prop :=
  ForallOrdPairs (fun x y => rg_ptr x + rg_size x <= rg_ptr y \/ rg_ptr y + rg_size y <= rg_ptr x) (regions mem).
Definition in_span (p : Z) (s : Span) : Prop := sp_ptr s <= p < sp_ptr s + sp_len s.
Lemma apart_host mem s t p : mem_ok mem -> hosts_apart mem -> span_in mem s -> span_in mem t -> overlaps s t = false ->
  in_span p s -> in_span p t -> False.
Proof.
  intros I H (x & i & Hx & Hi & Li & Bi & Es) (y & j & Hy & Hj & Lj & Bj & Et) O Ps Pt. unfold in_span in *.
  rewrite Es in Ps, O. rewrite Et in Pt, O. cbn in Ps, Pt. unfold overlaps in O. cbn in O. bools.
  apply list_elem_of_lookup in Hx as [k Ek]. apply list_elem_of_lookup in Hy as [l El].
  destruct (decide (k = l)) as [-> |N]; [rewrite Ek in El; injection El as <-; lia|].
  destruct (decide (k < l)%nat) as [L|L].
  - pose proof (pairs_lookup _ _ _ _ _ _ H L Ek El) as D. cbv beta in D. lia.
  - assert (l < k)%nat as L' by lia. pose proof (pairs_lookup _ _ _ _ _ _ H L' El Ek) as D. cbv beta in D. lia.
Qed.
Lemma elem_span_addresses p s : p ∈ span_addresses s <-> in_span p s.
Proof.
  unfold span_addresses, in_span. rewrite list_elem_of_fmap. setoid_rewrite elem_of_seq. split.
  - intros (i & -> & Hi). lia.
  - intros Hp. exists (Z.to_nat (p - sp_ptr s)). lia.
Qed.
Lemma elem_addresses p l : p ∈ addresses l <-> exists s, s ∈ l /\ in_span p s.
Proof.
  induction l as [|s l IH]; [split; [by intros ?%elem_of_nil|intros (s & ?%elem_of_nil & _); done]|].
  rewrite addresses_cons, elem_of_app, IH, elem_span_addresses. setoid_rewrite elem_of_cons. naive_solver.
Qed.
Lemma addresses_length l : Forall (fun s => 0 < sp_len s) l -> length (addresses l) = Z.to_nat (lens l).
Proof.
  induction 1 as [|s l Hs F IH]; [done|]. rewrite addresses_cons, length_app, IH, span_addresses_length by lia.
  change (lens (s :: l)) with (sp_len s + lens l). pose proof (lens_nonneg l F). lia.
Qed.
Lemma addresses_nodup write mem r l : mem_ok mem -> hosts_apart mem -> spans_ok write mem r l -> NoDup (addresses l).
Proof.
  intros I H [S1 _ S2 _ _ _]. induction S2 as [|s l F S2 IH]; [constructor|]. apply Forall_cons in S1 as [Hs S1].
  rewrite addresses_cons. apply NoDup_app. split_and!; [|intros p Hp Hq|by apply IH].
  - unfold span_addresses. apply NoDup_fmap_2_strong; [|apply NoDup_seq]. intros. lia.
  - apply elem_span_addresses in Hp. apply elem_addresses in Hq as (t & Ht & Pt).
    rewrite Forall_forall in F, S1. apply (apart_host mem t s p I H (S1 t Ht) Hs (F t Ht) Pt Hp).
Qed.
(** No buffer of a chain touches a ring. *)
Lemma addresses_rings write mem q r l p : mem_ok mem -> hosts_apart mem -> vrings_ok mem q r -> spans_ok write mem r l -> p ∈ addresses l ->
  ~ in_span p (r_desc r) /\ ~ in_span p (r_avail r) /\ ~ in_span p (r_used r).
Proof.
  intros I H R S (s & Hs & Ps)%elem_addresses. pose proof (proj1 (Forall_forall _ _) (so_in _ _ _ _ S) s Hs) as Is.
  pose proof (proj1 (Forall_forall _ _) (so_rings _ _ _ _ S) s Hs) as (O1 & O2 & O3). cbv beta in *.
  split_and!; intros Pr; [eapply (apart_host mem s (r_desc r))|eapply (apart_host mem s (r_avail r))|eapply (apart_host mem s (r_used r))]; eauto; apply R.
Qed.

(** C29. A descriptor chain that is accepted is safe, whatever the guest writes into its rings while they are read: the walk ends after at
    most 64 descriptors, reads only the rings and writes nothing; the buffers are at most
    64 KiB in all, each lies in shared memory that is mapped with the permission that the queue
    needs, no two bytes of the chain have the same host address and none lies in a ring.  A missing translation is asked for with that
    permission.  The code does not panic unless the sum in the translation overflows. *)
Theorem vhost_peek_safe guest mem q r write w :
  (forall k x, is_byte (guest k x)) -> mem_ok mem -> hosts_apart mem -> queue_ok q -> vrings_ok mem q r ->
  match peek guest mem q r write w with
  | Ok (inr None, spans, w') => spans = [] /\ w_stores w' = w_stores w
  | Ok (inr (Some head), spans, w') =>
      0 <= head < num q /\ 0 < zlen spans <= 64 /\ 0 < lens spans <= 65536
      /\ Forall (fun s => span_in mem s /\ exists x, translate x (sp_len s) (if write then 2 else 1) false mem = Ok (inr s)) spans
      /\ NoDup (addresses spans)
      /\ (forall p, p ∈ addresses spans -> ~ in_span p (r_desc r) /\ ~ in_span p (r_avail r) /\ ~ in_span p (r_used r))
      /\ w_stores w' = w_stores w
  | Ok (inl f, _, w') => w_stores w' = w_stores w /\ match f with Missing _ p => p = if write then 2 else 1 | Invalid => True end
  | Panic => ~ low mem
  | _ => False
  end.
Proof.
  intros Hg I H Q R. pose proof (peek_spec guest Hg mem q r write w I Q R) as P.
  destruct (peek guest mem q r write w) as [[[[f|[head|]] spans] w']| | |]; try done. destruct P as (Hh & Ne & S & Ew).
  pose proof (spans_positive _ _ _ _ I S) as Pos. destruct spans as [|s l]; [done|]. apply Forall_cons in Pos as [Ps Pl].
  pose proof (lens_nonneg l Pl) as Ll. pose proof (so_total _ _ _ _ S) as St. change (lens (s :: l)) with (sp_len s + lens l) in *.
  pose proof (so_count _ _ _ _ S) as Sc. pose proof (zlen_nonneg l). rewrite zlen_cons in *. split_and!; try done; try lia.
  - apply Forall_and. split; apply S.
  - by eapply addresses_nodup.
  - intros p Hp. by eapply addresses_rings.
Qed.

(** ** One pass over a queue *)
Section Passes.
Context (E : Env) (a : Args) (HE : env_ok E) (Ha : args_ok a = true).
(** [counted] changes a statistic. *)
Definition counts (counted : Backend -> Backend) : Prop := forall b,
  memory (counted b) = memory b /\ queues (counted b) = queues b /\ session (counted b) = session b
  /\ previous_session (counted b) = previous_session b /\ channel (counted b) = channel b.
(** Equal but for the counters of notifications. *)
Definition notified q q' : Prop := exists x y, q' = q <| notifications := x |> <| notification_full := y |>.
Lemma notified_refl q : notified q q.
Proof. exists (notifications q), (notification_full q). by destruct q. Qed.
Definition queue_at (i : Z) b : Queue := if i =? 0 then (queues b).1 else (queues b).2.
(** What the end of a pass over queue [i] keeps. *)
Definition pass_kept (i : Z) b b' : Prop :=
  channel_ok b' /\ memory b' = memory b /\ session b' = session b /\ previous_session b' = previous_session b
  /\ notified (queue_at i b) (queue_at i b') /\ queue_at (1 - i) b' = queue_at (1 - i) b.
Lemma kept_fault i f b b1 w :
  pass_kept i b b1 ->
  match handle_fault E f b1 w with
  | Ok (b', w') => pass_kept i b b' /\ w_stores w' = w_stores w
  | Err _ => True
  | _ => False
  end.
Proof.
  intros (K1 & K2 & K3 & K4 & K5 & K6). pose proof (handle_fault_spec E HE f b1 w K1) as F.
  destruct (handle_fault E f b1 w) as [[b' w']| | |]; try done. destruct F as (F1 & F2 & F3 & F4 & F5 & F6). split; [|done].
  unfold pass_kept, queue_at in *. rewrite F3, F4, F5, F6. done.
Qed.
Lemma settle_spec i r mem completed f counted b w :
  i = 0 \/ i = 1 -> counts counted -> channel_ok b -> vrings_ok mem (queue_at i b) r ->
  match settle E i r completed f counted b w with
  | Ok (b', w') => pass_kept i b b'
      /\ w_stores w' = w_stores w ++ (if completed =? 0 then [] else [(sp_ptr (r_used r) + 2, to_le 2 (last_avail (queue_at i b)))])
  | Err _ => True
  | _ => False
  end.
Proof.
  intros Hi Hc K R. unfold settle. fold (queue_at i b).
  assert (forall b1 w1, pass_kept i b b1 -> match (match f with Some f => handle_fault E f b1 w1 | None => Ok (b1, w1) end) with
    | Ok (b', w') => pass_kept i b b' /\ w_stores w' = w_stores w1 | Err _ => True | _ => False end) as Fin.
  { intros b1 w1 K1. destruct f as [f|]; [by apply kept_fault|done]. }
  destruct (completed =? 0); cbn [obind].
  { rewrite app_nil_r. apply Fin. unfold pass_kept. split_and!; try done. apply notified_refl. }
  pose proof (vq_publish_spec (guest E) (sys E) (patience E) mem (queue_at i b) r w (eo_sys _ HE) R) as P.
  destruct (vq_publish _ _ _ _ _ _) as [[q' w1]| | |]; cbn [obind]; try done. destruct P as [Ew Eq].
  destruct (Hc (set_queue i q' b)) as (C1 & C2 & C3 & C4 & C5).
  assert (pass_kept i b (counted (set_queue i q' b))) as K1.
  { unfold pass_kept, channel_ok, queue_at in *. rewrite C1, C2, C3, C4, C5. destruct Hi as [-> | ->]; cbn; split_and!; try done. }
  specialize (Fin _ w1 K1). destruct (match f with Some _ => _ | None => _ end) as [[b' w']| | |]; try done. destruct Fin as [Fa Fb].
  split; [done|congruence].
Qed.
Lemma notified_ok q q' : notified q q' -> queue_ok q -> queue_ok q'.
Proof. intros (x & y & ->) [Q1 Q2 Q3]. by constructor. Qed.
Lemma running_num q : queue_ok q -> running q = true -> num_ok (num q).
Proof. intros [[Q|Q] _ _] Hr; [|done]. unfold running in Hr. bools. lia. Qed.
(** The stores that start the use of a ring. *)
Definition ring_start q r : list (Z * list Z) := if last_used q then [] else [(sp_ptr (r_used r), [0; 0])].
Definition used_index r (la n : Z) : list (Z * list Z) := if n =? 0 then [] else [(sp_ptr (r_used r) + 2, to_le 2 (u16 (la + n)))].
Lemma mapped_advance q k : q_advance k (q <| last_used := Some (last_avail q) |>) = q_advance k q.
Proof. done. Qed.

(** ** Receiving *)
(** The fault of a translation that the frontend has not given yet. *)
Definition untranslated (f : Fault) : Prop := exists address permission, f = Missing address permission.
Lemma fault_missing f b w b' w' : handle_fault E f b w = Ok (b', w') -> untranslated f.
Proof. destruct f as [address permission|]; [by exists address, permission|done]. Qed.
Lemma settle_missing i r completed f counted b w b' w' x :
  settle E i r completed f counted b w = Ok (b', w') -> f = Some x -> untranslated x.
Proof. unfold settle. intros Es ->. apply obind_Ok in Es as ([b1 w1] & _ & Es). by eapply fault_missing. Qed.
(** What makes the end of a pass fail: a fault, or the notification. *)
Lemma settle_err i r completed f counted b w e :
  settle E i r completed f counted b w = Err e -> is_Some f \/ completed <> 0 /\ is_Some (call (queue_at i b)).
Proof.
  unfold settle. fold (queue_at i b). destruct f as [f|]; [by left; exists f|]. intros Es. right.
  destruct (completed =? 0) eqn:Ec; bools; [done|]. split; [done|]. unfold vq_publish in Es.
  destruct (last_used _); [|done]. destruct (load _ _ _ _) as [x w1]. destruct (_ =? 0); [|done].
  by destruct (call (queue_at i b)).
Qed.
(** A pass that sends nothing. *)
Definition rx_quiet b (s : Session) (n : Z) w b' w' : Prop :=
  n = 0 /\ session b' = Some s /\ last_avail (queues b').1 = last_avail (queues b).1 /\ w_stores w' = w_stores w.
(** A pass over the rings [r] from access [k0] on: the chains that the guest offers get the next frames
    of the session, until [stops] says why it ends; the stores are those of the frames and of the used ring. *)
Record rx_frames (P : Z -> Z -> list Span -> Prop) b (s : Session) r (allowed : Z) (k0 : nat) (n : Z) w b' w' frames k f : Prop := {
  rf_count : n = zlen frames;
  rf_batch : n <= a_batch a;
  rf_allowed : s_generated s + n <= allowed;
  rf_offers : offers (guest E) (memory b) r (num (queues b).1) (last_avail (queues b).1) k0 frames k;
  rf_stops : stops E r (a_batch a) allowed b s frames k f;
  rf_fault x : f = Some x -> untranslated x;
  rf_frames i head spans : frames !! i = Some (head, spans) -> P (Z.of_nat i) head spans;
  rf_stores : w_stores w' = w_stores w ++ ring_start (queues b).1 r
    ++ rx_stores r (num (queues b).1) (last_avail (queues b).1) (a_size a) (s_id s) (s_generated s) frames
    ++ used_index r (last_avail (queues b).1) n;
  rf_avail : last_avail (queues b').1 = u16 (last_avail (queues b).1 + n);
  rf_session : session b' = if s_generated s + n =? s_target s then None else Some (s <| s_generated := s_generated s + n |>)
}.
(** A pass sends frames if the queue runs and is enabled and the rate allows one; the rings are those that
    the queue maps to. *)
Definition rx_result (P : VRings -> Z -> Z -> list Span -> Prop) b (s : Session) (n : Z) w b' w' : Prop :=
  exists allowed, allowance E a s w = Ok allowed /\ allowed <= s_target s
    /\ if running (queues b).1 && enabled (queues b).1 && (s_generated s <? allowed)
       then exists res q1 w1, q_map (guest E) (memory b) (queues b).1 (world_tick w) = Ok (res, q1, w1)
              /\ match res with
                 | inl f => untranslated f /\ rx_quiet b s n w b' w'
                 | inr r => rings_of (memory b) (queues b).1 r
                     /\ exists frames k f, rx_frames (P r) b s r allowed (w_tick w1) n w b' w' frames k f
                 end
       else rx_quiet b s n w b' w'.
(** A pass fails when the rings or a chain fault, when a chain is too short for a frame, or when the guest cannot be notified. *)
Definition rx_error b (s : Session) w : Prop :=
  exists allowed res q1 w1, allowance E a s w = Ok allowed /\ running (queues b).1 = true /\ enabled (queues b).1 = true
    /\ s_generated s < allowed /\ q_map (guest E) (memory b) (queues b).1 (world_tick w) = Ok (res, q1, w1)
    /\ match res with
       | inl _ => True
       | inr r => exists frames k,
           offers (guest E) (memory b) r (num (queues b).1) (last_avail (queues b).1) (w_tick w1) frames k
           /\ (too_short E a r b frames k
               \/ exists f, stops E r (a_batch a) allowed b s frames k f /\ (is_Some f \/ frames <> [] /\ is_Some (call (queues b).1)))
       end.
Definition frame_fits b r (i head : Z) (spans : list Span) : Prop :=
  0 <= head < num (queues b).1 /\ spans_ok true (memory b) r spans /\ a_size a + 12 <= lens spans.
Lemma rx_result_impl (P P' : VRings -> Z -> Z -> list Span -> Prop) b s n w b' w' :
  (forall r i head spans, P r i head spans -> P' r i head spans) -> rx_result P b s n w b' w' -> rx_result P' b s n w b' w'.
Proof.
  intros H (al & E1 & E2 & X). exists al. split; [done|]. split; [done|]. destruct (_ && _); [|done].
  destruct X as (res & q1 & w1 & Em & X). exists res, q1, w1. split; [done|]. destruct res as [f|r]; [done|].
  destruct X as (Hr & frames & k & f & []). split; [done|]. exists frames, k, f. constructor; eauto.
Qed.
Lemma allowance_ok s w : session_ok a s ->
  exists allowed, allowance E a s w = Ok allowed /\ allowed <= s_target s.
Proof.
  intros (S1 & S2 & S3). unfold allowance. destruct (_ =? 0); [eexists; split; [reflexivity|lia]|].
  pose proof (eo_paced _ HE (dur_sub (clock E (w_tick w)) (s_start s)) (a_pps a)) as Hp. unfold add64.
  rewrite (proj2 (Z.ltb_lt _ _)) by (unfold U64MAX, W64 in *; lia). cbn [obind]. eexists. split; [reflexivity|lia].
Qed.
(** After the loop: publish, report and finish. *)
Lemma rx_settled b s r done sp k0 k f w w1 w2 allowed :
  backend_ok a b -> session b = Some s -> allowed <= s_target s ->
  vrings_ok (memory b) (q_advance 0 (queues b).1) r ->
  w_stores w1 = w_stores w ++ ring_start (queues b).1 r ->
  zlen done <= a_batch a -> s_generated s + zlen done <= allowed ->
  Forall (fun '(head, spans) => 0 <= head < num (queues b).1 /\ spans_ok true (memory b) r spans /\ a_size a + 12 <= lens spans) done ->
  w_stores w2 = w_stores w1 ++ rx_stores r (num (queues b).1) (last_avail (queues b).1) (a_size a) (s_id s) (s_generated s) done ->
  offers (guest E) (memory b) r (num (queues b).1) (last_avail (queues b).1) k0 done k ->
  stops E r (a_batch a) allowed b s done k f ->
  match settle E 0 r (zlen done) f (fun b => b <| rx_completed ::= count (zlen done) |>) (frame_done b s done sp) w2 with
  | Ok (b', w') => backend_ok a (finish_session b') /\ memory b' = memory b /\ (queues b').2 = (queues b).2
      /\ rx_frames (frame_fits b r) b s r allowed k0 (zlen done) w (finish_session b') w' done k f
  | Err _ => is_Some f \/ done <> [] /\ is_Some (call (queues b).1)
  | _ => False
  end.
Proof.
  intros [B1 B2 B3 B4 B5] S At R Ew1 Ln Lg F Ew2 Of St'. rewrite S in B5. destruct B5 as [(Sg & St & Sw) Sp].
  pose proof (zlen_nonneg done) as Nd. assert (0 <= last_avail (queues b).1 < W16) as La by apply B2.
  assert (vrings_ok (memory b) (q_advance (zlen done) (queues b).1) r) as R'.
  { destruct R. by constructor. }
  pose proof (settle_spec 0 r (memory b) (zlen done) f (fun b => b <| rx_completed ::= count (zlen done) |>) (frame_done b s done sp) w2
    (or_introl eq_refl) ltac:(done) B4 R') as P.
  destruct (settle _ _ _ _ _ _ _ _) as [[b' w']|e| |] eqn:Es; try done.
  2:{ apply settle_err in Es as [Es|[Es1 Es2]]; [by left|right]. split; [by intros ->|done]. }
  pose proof (fun x => settle_missing _ _ _ _ _ _ _ _ _ x Es) as Ms. clear Es.
  destruct P as [(K1 & K2 & K3 & K4 & K5 & K6) Ew3].
  cbn in K2, K3, K4. change ((queues b').2 = (queues b).2) in K6. change (notified (q_advance (zlen done) (queues b).1) (queues b').1) in K5.
  assert (queue_ok (queues b').1) as Q'.
  { eapply notified_ok; [exact K5|]. constructor; cbn; [apply B2|apply Z.mod_pos_bound; done|congruence]. }
  assert (last_avail (queues b').1 = u16 (last_avail (queues b).1 + zlen done)) as La' by (by destruct K5 as (x & y & ->)).
  assert (forall b2, memory b2 = memory b' -> queues b2 = queues b' -> channel b2 = channel b' -> previous_session b2 = previous_session b' ->
    session b2 = (if s_generated s + zlen done =? s_target s then None else Some (s <| s_generated := s_generated s + zlen done |>)) ->
    backend_ok a b2 /\ memory b' = memory b /\ (queues b').2 = (queues b).2
    /\ rx_frames (frame_fits b r) b s r allowed k0 (zlen done) w b2 w' done k f) as Fin.
  { intros b2 E1 E2 E3 E4 E5. split; [|split; [done|split; [done|]]].
    - constructor; rewrite ?E1, ?E2, ?E3, ?E4, ?E5; try done; [by rewrite K2|by rewrite K6|].
      destruct (s_generated s + zlen done =? s_target s) eqn:Ee; bools; [exact Logic.I|]. rewrite K4. split; [|done]. unfold session_ok. cbn. lia.
    - constructor; try done; [|by rewrite Ew3, Ew2, Ew1, <- !app_assoc|by rewrite E2].
      intros i head spans Hi. exact (Forall_lookup_1 _ _ _ _ F Hi). }
  unfold finish_session. rewrite K3. cbn [s_generated s_target]. destruct (s_generated s + zlen done =? s_target s) eqn:Ee; apply Fin; try done.
Qed.
Lemma rx_spec b w : backend_ok a b ->
  match rx E a b w with
  | Ok (n, b', w') => backend_ok a b' /\ memory b' = memory b /\ (queues b').2 = (queues b).2
      /\ match session b with None => n = 0 /\ b' = b /\ w' = w | Some s => rx_result (frame_fits b) b s n w b' w' end
  | Err _ => match session b with None => False | Some s => rx_error b s w end
  | Panic => ~ low (memory b)
  | OutOfFuel => False
  end.
Proof.
  intros B. pose proof B as [B1 B2 B3 B4 B5]. unfold rx. destruct (session b) as [s|] eqn:S; [|done]. destruct B5 as [So Sp].
  destruct (allowance_ok s w So) as (allowed & Eal & Hal).
  destruct (_ || _) eqn:Er.
  { split_and!; try done. exists allowed. split; [done|]. split; [done|]. assert (running (queues b).1 && enabled (queues b).1 = false) as -> by (by destruct (running _), (enabled _)).
    done. }
  bools. destruct Er as [Er Een]. rewrite Eal. cbn [obind].
  destruct (_ <=? _) eqn:Eg; bools.
  { split_and!; try done. exists allowed. split; [done|]. split; [done|]. rewrite (proj2 (Z.ltb_ge _ _)), andb_false_r by lia. done. }
  assert (running (queues b).1 && enabled (queues b).1 && (s_generated s <? allowed) = true) as Go by (rewrite Er, Een; bools; lia).
  pose proof (q_map_spec (guest E) (eo_guest _ HE) (memory b) (queues b).1 (world_tick w) B1 B2 (running_num _ B2 Er)) as M.
  destruct (q_map _ _ _ _) as [[[[f|r] q'] w1]| | |] eqn:Em; cbn [obind]; try done.
  - destruct M as [-> Ew]. assert (set_queue 0 (queues b).1 b = b) as -> by (by destruct b as [? [? ?]]).
    assert (pass_kept 0 b b) as K by (unfold pass_kept; split_and!; try done; apply notified_refl).
    pose proof (kept_fault 0 f b b w1 K) as F. destruct (handle_fault E f b w1) as [[b' w']| | |] eqn:Eh; cbn [obind]; try done.
    2:{ exists allowed, (inl f), (queues b).1, w1. done. }
    destruct F as [(K1 & K2 & K3 & K4 & K5 & K6) Ew']. change (notified (queues b).1 (queues b').1) in K5.
    change ((queues b').2 = (queues b).2) in K6. split_and!; try done.
    + constructor; [by rewrite K2|by eapply notified_ok|by rewrite K6|done|by rewrite K3, K4, S].
    + exists allowed. split; [done|]. split; [done|]. rewrite Go. exists (inl f), (queues b).1, w1. split; [done|].
      split; [by eapply fault_missing|]. split_and!; [done|by rewrite K3|by destruct K5 as (x & y & ->)|by rewrite Ew', Ew].
  - destruct M as (R & Q' & -> & Ew). set (q1 := (queues b).1 <| last_used := _ |>) in *.
    pose proof (q_map_rings _ _ _ _ _ _ _ Em) as Rm. pose proof (size_ok a Ha) as [_ Hb].
    pose proof (rx_loop_spec E a HE Ha r allowed 0 (set_queue 0 q1 b) s (Z.to_nat (a_batch a)) w1 B1 Q' R S ltac:(lia) ltac:(destruct So; lia)) as L.
    destruct (rx_loop _ _ _ _ _ _ _ _) as [[[[c f] b2] w2]| | |]; cbn [obind]; try done.
    2:{ destruct L as (done & k1 & Lo & Lt). exists allowed, (inr r), q1, w1. split_and!; try done. exists done, k1. split; [exact Lo|by left]. }
    destruct L as (done & sp & k & -> & L2 & L3 & L4 & L5 & -> & L6 & L7). rewrite Z.add_0_l.
    assert (q_advance 0 (queues b).1 = q1) as Eq1.
    { unfold q_advance, q1, u16. rewrite Z.add_0_r, Z.mod_small by apply B2. by destruct (queues b).1. }
    assert (frame_done (set_queue 0 q1 b) s done sp = frame_done b s done sp) as Eb by done. rewrite Eb. cbn in L4, L5, L6.
    assert (stops E r (a_batch a) allowed b s done k f) as Ls by (rewrite Z2Nat.id in L7 by lia; exact L7).
    pose proof (rx_settled b s r done sp (w_tick w1) k f w w1 w2 allowed B S Hal ltac:(by rewrite Eq1) Ew ltac:(lia) L3 L4 L5 L6 Ls) as P.
    destruct (settle _ _ _ _ _ _ _ _) as [[b' w']|e| |]; cbn [obind]; try done.
    2:{ exists allowed, (inr r), q1, w1. split_and!; try done. exists done, k. split; [exact L6|]. right. by exists f. }
    destruct P as (P1 & P2 & P3 & P4).
    assert (memory (finish_session b') = memory b' /\ queues (finish_session b') = queues b') as [Em' Eqs].
    { unfold finish_session. destruct (session b'); [|done]. by destruct (_ =? _). }
    rewrite Em', Eqs. split_and!; try done. exists allowed. split; [done|]. split; [done|]. rewrite Go. exists (inr r), q1, w1. split; [done|].
    split; [done|]. by exists done, k, f.
Qed.

(** ** Transmitting *)
Definition tx_packets b (n : Z) w w' : Prop :=
  exists r heads, n = zlen heads /\ n <= a_batch a /\ Forall (fun head => 0 <= head < num (queues b).2) heads
    /\ exists start, (start = [] \/ start = ring_start (queues b).2 r)
       /\ w_stores w' = w_stores w ++ start ++ tx_stores r (num (queues b).2) (last_avail (queues b).2) heads
            ++ used_index r (last_avail (queues b).2) n.
Lemma tx_packets_nil b w w' : w_stores w' = w_stores w -> tx_packets b 0 w w'.
Proof.
  intros Ew. pose proof (size_ok a Ha) as [_ Hb]. exists (mkVRings (mkSpan 0 0 0) (mkSpan 0 0 0) (mkSpan 0 0 0)), []. split_and!; try done; try lia.
  exists []. split; [by left|]. by rewrite !app_nil_r.
Qed.
Lemma tx_settled b r heads se prev sp f w w1 w2 :
  backend_ok a b -> vrings_ok (memory b) (q_advance 0 (queues b).2) r ->
  w_stores w1 = w_stores w ++ ring_start (queues b).2 r -> zlen heads <= a_batch a -> Forall (fun head => 0 <= head < num (queues b).2) heads ->
  w_stores w2 = w_stores w1 ++ tx_stores r (num (queues b).2) (last_avail (queues b).2) heads ->
  let b2 := with_session se prev b <| queues := ((queues b).1, q_advance (zlen heads) (queues b).2) |> <| b_spans := sp |> in
  session_state a b2 ->
  match settle E 1 r (zlen heads) f (fun b => b <| tx_completed ::= count (zlen heads) |>) b2 w2 with
  | Ok (b', w') => backend_ok a b' /\ memory b' = memory b /\ (queues b').1 = (queues b).1 /\ tx_packets b (zlen heads) w w'
  | Err _ => True
  | _ => False
  end.
Proof.
  intros [B1 B2 B3 B4 B5] R Ew1 Ln F Ew2 b2 S2. pose proof (zlen_nonneg heads) as Nd.
  assert (vrings_ok (memory b) (q_advance (zlen heads) (queues b).2) r) as R' by (destruct R; by constructor).
  pose proof (settle_spec 1 r (memory b) (zlen heads) f (fun b => b <| tx_completed ::= count (zlen heads) |>) b2 w2
    (or_intror eq_refl) ltac:(done) B4 R') as P.
  destruct (settle _ _ _ _ _ _ _ _) as [[b' w']| | |]; try done. destruct P as [(K1 & K2 & K3 & K4 & K5 & K6) Ew3].
  change (memory b' = memory b) in K2. change ((queues b').1 = (queues b).1) in K6. change (notified (q_advance (zlen heads) (queues b).2) (queues b').2) in K5.
  split_and!; try done.
  - constructor; try done; [by rewrite K2|by rewrite K6| |].
    + eapply notified_ok; [exact K5|]. constructor; cbn; [apply B3|apply Z.mod_pos_bound; done|congruence].
    + unfold session_state in S2. by rewrite K3, K4.
  - exists r, heads. split_and!; try done. exists (ring_start (queues b).2 r). split; [by right|]. rewrite Ew3, Ew2, Ew1, <- !app_assoc. done.
Qed.
Lemma tx_spec b w : backend_ok a b ->
  match tx E a b w with
  | Ok (n, b', w') => backend_ok a b' /\ memory b' = memory b /\ (queues b').1 = (queues b).1 /\ tx_packets b n w w'
  | Err _ => True
  | Panic => ~ low (memory b)
  | OutOfFuel => False
  end.
Proof.
  intros B. pose proof B as [B1 B2 B3 B4 B5]. unfold tx. destruct (negb _) eqn:Er. { split_and!; try done. by apply tx_packets_nil. }
  bools. pose proof (q_map_spec (guest E) (eo_guest _ HE) (memory b) (queues b).2 w B1 B3 (running_num _ B3 Er)) as M.
  destruct (q_map _ _ _ _) as [[[[f|r] q'] w1]| | |]; cbn [obind]; try done.
  - destruct M as [-> Ew]. assert (set_queue 1 (queues b).2 b = b) as -> by (by destruct b as [? [? ?]]).
    assert (pass_kept 1 b b) as K by (unfold pass_kept; split_and!; try done; apply notified_refl).
    pose proof (kept_fault 1 f b b w1 K) as F. destruct (handle_fault E f b w1) as [[b' w']| | |]; cbn [obind]; try done.
    destruct F as [(K1 & K2 & K3 & K4 & K5 & K6) Ew']. change (notified (queues b).2 (queues b').2) in K5.
    change ((queues b').1 = (queues b).1) in K6. split_and!; try done.
    + constructor; [by rewrite K2|by rewrite K6|by eapply notified_ok|done|by rewrite K3, K4].
    + apply tx_packets_nil. by rewrite Ew', Ew.
  - destruct M as (R & Q' & -> & Ew). set (q1 := (queues b).2 <| last_used := _ |>) in *.
    pose proof (tx_loop_spec E a HE r 0 (set_queue 1 q1 b) (Z.to_nat (a_batch a)) w1 B1 Q' R B5) as L.
    destruct (tx_loop _ _ _ _ _ _ _) as [[[[c f] b2] w2]| | |]; cbn [obind]; try done.
    destruct L as (heads & se & prev & sp & -> & L2 & L3 & L4 & -> & L5). pose proof (size_ok a Ha) as [_ Hb]. rewrite Z.add_0_l.
    assert (q_advance 0 (queues b).2 = q1) as Eq1.
    { unfold q_advance, q1, u16. rewrite Z.add_0_r, Z.mod_small by apply B3. by destruct (queues b).2. }
    pose proof (tx_settled b r heads se prev sp f w w1 w2 B ltac:(by rewrite Eq1) Ew ltac:(lia) L3 L4 L5) as P. cbv zeta in P.
    match goal with |- context [obind ?x _] => change (match x with
      | Ok (b', w') => backend_ok a b' /\ memory b' = memory b /\ (queues b').1 = (queues b).1 /\ tx_packets b (zlen heads) w w'
      | Err _ => True | _ => False end) in P; destruct x as [[b' w']| | |] end; cbn [obind]; done.
Qed.
End Passes.

(** ** The guest reads what was stored *)
(** Memory [f] after the stores of [l], in order. *)
Definition store_one (f : Z -> Z) (st : Z * list Z) : Z -> Z := fun q => if st.1 <=? q then default (f q) (st.2 !! Z.to_nat (q - st.1)) else f q.
Definition apply_stores (l : list (Z * list Z)) (f : Z -> Z) : Z -> Z := foldl store_one f l.
Lemma store_one_byte f p x q : store_one f (p, [x]) q = if decide (q = p) then x else f q.
Proof.
  unfold store_one. cbn [fst snd]. destruct (p <=? q) eqn:E; bools; [|by rewrite decide_False by lia]. destruct (decide (q = p)) as [-> |N].
  - by rewrite Z.sub_diag.
  - rewrite lookup_ge_None_2; [done|]. cbn. lia.
Qed.
Lemma put_other addrs bytes f q : q ∉ addrs -> apply_stores (put_bytes addrs bytes) f q = f q.
Proof.
  unfold apply_stores, put_bytes. revert bytes f. induction addrs as [|p addrs IH]; intros [|x bytes] f Hq; try done. cbn [map zip_with foldl].
  apply not_elem_of_cons in Hq as [N Hq]. rewrite IH, store_one_byte by done. by rewrite decide_False.
Qed.
Lemma put_readback addrs bytes f : NoDup addrs -> length addrs = length bytes -> map (apply_stores (put_bytes addrs bytes) f) addrs = bytes.
Proof.
  intros N. revert bytes f. induction N as [|p addrs Hp N IH]; intros [|x bytes] f L; try done. cbn [length] in L.
  cbn [map]. unfold put_bytes. cbn [map zip_with]. fold (put_bytes addrs bytes). cbn [apply_stores foldl]. change (foldl store_one (store_one f (p, [x])) (put_bytes addrs bytes))
    with (apply_stores (put_bytes addrs bytes) (store_one f (p, [x]))). f_equal; [|apply IH; lia].
  rewrite put_other by done. rewrite store_one_byte. by rewrite decide_True.
Qed.
Section Receiving.
Context (E : Env) (a : Args).
(** The packet of a frame of the session, and the addresses that it is written to. *)
Definition session_packet (s : Session) (i : Z) (spans : list Span) : list Z :=
  packet (vm_bytes VD (s_generated s + i) (default 0 (frame_gpa spans)) (a_size a) (s_id s)) (s_generated s + i) (a_size a).
Definition frame_addresses (spans : list Span) : list Z := take (Z.to_nat (a_size a + 12)) (addresses spans).

(** The guest finds frame [i] of the pass in the chain [spans]: whatever memory was before, after the
    stores of the frame its addresses hold the whole packet, with its number. *)
Definition frame_arrives b (s : Session) (i head : Z) (spans : list Span) : Prop :=
  0 <= head < num (queues b).1 /\ Forall (span_in (memory b)) spans /\ a_size a + 12 <= lens spans
  /\ forall f, map (apply_stores (put_bytes (frame_addresses spans) (session_packet s i spans)) f) (frame_addresses spans)
               = session_packet s i spans.
Lemma fits_arrives b s r i head spans :
  args_ok a = true -> mem_ok (memory b) -> hosts_apart (memory b) -> frame_fits a b r i head spans -> frame_arrives b s i head spans.
Proof.
  intros Ha I H (Hh & So & Hl). pose proof (size_ok a Ha) as [Hs _]. split; [done|]. split; [apply So|]. split; [done|].
  intros f. apply put_readback.
  - eapply sublist_NoDup; [|apply sublist_take]. by eapply addresses_nodup.
  - unfold frame_addresses, session_packet. rewrite length_take.
    pose proof (packet_length (vm_bytes VD (s_generated s + i) (default 0 (frame_gpa spans)) (a_size a) (s_id s))
      (s_generated s + i) (a_size a) eq_refl ltac:(lia)) as Lp. rewrite (addresses_length spans); [unfold zlen in Lp; lia|].
    by eapply spans_positive.
Qed.

(** C30. One pass over the receive queue serves the guest.  When the queue runs and is enabled and the rate allows a frame, the rings are
    those at the addresses configured for the queue, and the chains that the guest has offered in the available
    ring, taken in order from the first not yet used, each read from the descriptor table, get the next frames of the session, one
    each.  The pass ends only when the batch is complete, the rate and the session allow no more, the
    guest offers no further chain, or the next one needs a translation that is missing.  The stores are exactly, for each frame,
    its bytes in the buffers of its chain and the used entry of that chain in the next slot, and after all frames the used
    index; the guest finds each whole packet, with its number, in shared memory.  The session ends with its last frame.  Otherwise the
    pass does nothing.  It fails only if the rings or a chain fault, a chain is too short for a frame, or the guest cannot be notified. *)
Theorem vhost_rx_delivers b s w :
  env_ok E -> args_ok a = true -> backend_ok a b -> hosts_apart (memory b) -> session b = Some s ->
  match rx E a b w with
  | Ok (n, b', w') => backend_ok a b' /\ memory b' = memory b /\ (queues b').2 = (queues b).2
      /\ rx_result E a (fun _ => frame_arrives b s) b s n w b' w'
  | Err _ => rx_error E a b s w
  | Panic => ~ low (memory b)
  | OutOfFuel => False
  end.
Proof.
  intros HE Ha B H S. pose proof (rx_spec E a HE Ha b w B) as R. rewrite S in R.
  destruct (rx E a b w) as [[[n b'] w']| | |]; try done. destruct R as (R1 & R2 & R3 & R4). split_and!; try done.
  eapply rx_result_impl; [|exact R4]. intros r i head spans. apply fits_arrives; [done|apply B|done].
Qed.
End Receiving.

(** ** Sessions *)
Lemma wire_ok_receiving P R x x' : receiving x' = receiving x -> wire_ok P R x -> wire_ok P R x'.
Proof.
  intros [= E1 E2 E3 E4 E5 E6 E7 E8] [W1 W2 W3 W4 W5 W6 W7 W8 W9 W10 W11].
  constructor; unfold wire_pending; rewrite ?E1, ?E2, ?E3, ?E4, ?E5, ?E6, ?E7, ?E8; done.
Qed.
Lemma send_ok_sending x x' : sending x' = sending x -> send_ok x -> send_ok x'.
Proof. intros [= E1 E2 E3 E4] [S1 S2 S3]. constructor; by rewrite ?E2, ?E3. Qed.

Section Sessions.
Context (E : Env) (a : Args) (HE : env_ok E) (Ha : args_ok a = true).
(** The backend, the control socket and the world. *)
Notation state := (Backend * Wire * VWorld)%type.
Definition state_ok (st : state) : Prop :=
  let '(b, x, w) := st in backend_ok a b /\ send_ok x /\ exists P R, wire_ok P R x.
(** What a pass of the main loop consists of. *)
Inductive vstep : state -> state -> Prop :=
| v_flush b x w x' k : wire_flush (sock_write E) (patience E) x (w_tick w) = Ok (x', k) -> vstep (b, x, w) (b, x', w <| w_tick := k |>)
| v_idle b x w x' k : wire_receive (recvmsg E) (sys E) (patience E) x (w_tick w) = Ok (None, x', k) -> vstep (b, x, w) (b, x', w <| w_tick := k |>)
| v_request b x w m x1 k b' x' w' :
    wire_receive (recvmsg E) (sys E) (patience E) x (w_tick w) = Ok (Some m, x1, k) ->
    handle_message E m b x1 (w <| w_tick := k |>) = Ok (b', x', w') -> vstep (b, x, w) (b', x', w')
| v_channel b x w b' w' : flush_channel E b w = Ok (b', w') -> vstep (b, x, w) (b', x, w')
| v_tx b x w n b' w' : tx E a b w = Ok (n, b', w') -> vstep (b, x, w) (b', x, w')
| v_rx b x w n b' w' : rx E a b w = Ok (n, b', w') -> vstep (b, x, w) (b', x, w')
| v_poll work b x w w' : poll_kicks E a work b x w = Ok w' -> vstep (b, x, w) (b, x, w').
Lemma receive_state b x w : state_ok (b, x, w) ->
  match wire_receive (recvmsg E) (sys E) (patience E) x (w_tick w) with
  | Ok (msg, x', k) => send_ok x' /\ (exists P R, wire_ok P R x') /\ match msg with Some m => bytes_ok (m_body m) | None => True end
  | Err _ => True
  | _ => False
  end.
Proof.
  intros (_ & So & P & R & W). pose proof (wire_receive_spec (recvmsg E) (sys E) (patience E) P R x (w_tick w) (eo_recv _ HE) W) as S.
  destruct (wire_receive _ _ _ _ _) as [[[[m|] x'] k]| | |]; try done.
  - destruct S as (S1 & S2 & _ & S4). split_and!; [by eapply send_ok_sending|eauto|apply S1].
  - destruct S as (S1 & _ & S4). split_and!; [by eapply send_ok_sending|eauto|done].
Qed.
Lemma flush_channel_ok b w : backend_ok a b ->
  match flush_channel E b w with Ok (b', w') => backend_ok a b' | Err _ => True | _ => False end.
Proof.
  intros B. pose proof B as [B1 B2 B3 B4 B5]. unfold flush_channel. destruct (channel b) as [c|] eqn:Ec; [|done].
  pose proof (wire_flush_spec (sock_write E) (patience E) c (w_tick w) (eo_write _ HE) B4) as F.
  destruct (wire_flush _ _ _ _) as [[c' k]| | |]; cbn [obind]; try done. destruct F as (F1 & _). by constructor.
Qed.
Lemma vstep_ok st st' : state_ok st -> vstep st st' -> state_ok st'.
Proof.
  intros I St. destruct St as [b x w x' k Ef|b x w x' k Ef|b x w m x1 k b' x' w' Er Eh|b x w b' w' Ef|b x w n b' w' Et|b x w n b' w' Er|work b x w w' Ep].
  - destruct I as (B & So & P & R & W). pose proof (wire_flush_spec (sock_write E) (patience E) x (w_tick w) (eo_write _ HE) So) as F. rewrite Ef in F.
    destruct F as (F1 & _ & F3 & _). split_and!; try done. exists P, R. by eapply wire_ok_receiving.
  - pose proof (receive_state b x w I) as R. rewrite Ef in R. destruct R as (R1 & R2 & _). by destruct I.
  - pose proof (receive_state b x w I) as R. rewrite Er in R. destruct R as (R1 & (P & Q & W) & Bm). destruct I as (B & _).
    match type of Eh with handle_message _ _ _ _ ?w1 = _ => pose proof (handle_message_ok E a HE m b x1 w1 Bm B R1) as H end. rewrite Eh in H. destruct H as (H1 & H2 & H3 & _).
    split_and!; try done. exists P, Q. by eapply wire_ok_receiving.
  - destruct I as (B & So & W). pose proof (flush_channel_ok b w B) as F. by rewrite Ef in F.
  - destruct I as (B & So & W). pose proof (tx_spec E a HE Ha b w B) as F. rewrite Et in F. by destruct F as (F & _).
  - destruct I as (B & So & W). pose proof (rx_spec E a HE Ha b w B) as F. rewrite Er in F. by destruct F as (F & _).
  - done.
Qed.
Lemma steps_ok st st' : state_ok st -> rtc vstep st st' -> state_ok st'.
Proof. intros I R. induction R as [|st st1 st2 S R IH]; [done|]. apply IH. by eapply vstep_ok. Qed.
(** The state that the backend reaches, or the one that it panics in, is reached by steps. *)
Definition vreached (st : state) {A} (get : A -> state) (res : outcome A) : Prop :=
  match res with
  | Ok r => rtc vstep st (get r)
  | Err _ => True
  | Panic => exists st', rtc vstep st st' /\ ~ low (memory st'.1.1)
  | OutOfFuel => False
  end.
Lemma reached_from st st1 {A} (get : A -> state) res : rtc vstep st st1 -> vreached st1 get res -> vreached st get res.
Proof.
  intros R. destruct res; cbn; try done; [by etrans|]. intros (st' & R' & L). exists st'. split; [by etrans|done].
Qed.
Lemma serve_reached n b x w : state_ok (b, x, w) -> vreached (b, x, w) (fun st => st) (serve E n b x w).
Proof.
  revert b x w. induction n as [|n IH]; intros b x w I; cbn [serve]; [apply rtc_refl|].
  pose proof (receive_state b x w I) as R. destruct (wire_receive _ _ _ _ _) as [[[[m|] x1] k]| | |] eqn:Er; cbn [obind]; try done.
  - destruct R as (R1 & W & Bm). pose proof I as (B & _).
    match goal with |- context [handle_message E m b x1 ?w1] => pose proof (handle_message_ok E a HE m b x1 w1 Bm B R1) as H end.
    destruct (handle_message E m b x1 _) as [[[b' x'] w']| | |] eqn:Eh; cbn [obind]; try done.
    assert (vstep (b, x, w) (b', x', w')) as St by (by eapply v_request).
    apply (reached_from _ (b', x', w')); [by apply rtc_once|]. apply IH. by eapply vstep_ok.
  - apply rtc_once. by apply v_idle.
Qed.
Lemma poll_kicks_ok work b x w : match poll_kicks E a work b x w with Ok _ | Err _ => True | _ => False end.
Proof.
  unfold poll_kicks. destruct (sys E _) as [n e]. destruct (_ && _); [done|].
  assert (forall k w, match drain_kick_loop (sys E) k w with Ok _ | Err _ => True | _ => False end) as D.
  { intros k. induction k as [|k IH]; intros w'; [done|]. cbn [drain_kick_loop]. destruct (sys E _) as [g e']. destruct (_ =? 0); [done|].
    destruct (_ <? 0); [destruct e'; try done; apply IH|]. destruct (negb _); [done|apply IH]. }
  match goal with |- match obind ?x _ with _ => _ end => assert (match x with Ok _ | Err _ => True | _ => False end) as X; [|destruct x; cbn [obind]; try done] end.
  - destruct (kick _); [|done]. destruct (readable _ _ _ _ _); [apply D|done].
  - destruct (kick _); [|done]. destruct (readable _ _ _ _ _); [apply D|done].
Qed.
Lemma pass_reached b x w : state_ok (b, x, w) -> vreached (b, x, w) (fun st => (st.1.1.2, st.1.2, st.2)) (pass E a b x w).
Proof.
  intros I. unfold pass. destruct (_ || _); [apply rtc_refl|]. pose proof I as (B & So & _).
  pose proof (wire_flush_spec (sock_write E) (patience E) x (w_tick w) (eo_write _ HE) So) as F.
  destruct (wire_flush _ _ _ _) as [[x1 k1]| | |] eqn:Ef; cbn [obind]; try done.
  assert (rtc vstep (b, x, w) (b, x1, w <| w_tick := k1 |>)) as R1 by (apply rtc_once; by constructor).
  pose proof (serve_reached 32 _ _ _ (steps_ok _ _ I R1)) as S. destruct (serve E 32 b x1 _) as [[[b2 x2] w2]| | |]; cbn [obind]; try done.
  2: { destruct S as (st' & S & L). exists st'. split; [by etrans|done]. }
  assert (rtc vstep (b, x, w) (b2, x2, w2)) as R2 by (by etrans). destruct (eof x2); [exact R2|].
  pose proof (steps_ok _ _ I R2) as (B2 & _). pose proof (flush_channel_ok b2 w2 B2) as C.
  destruct (flush_channel E b2 w2) as [[b3 w3]| | |] eqn:Ec; cbn [obind]; try done.
  assert (rtc vstep (b, x, w) (b3, x2, w3)) as R3 by (etrans; [exact R2|]; apply rtc_once; by constructor).
  pose proof (tx_spec E a HE Ha b3 w3 C) as T. destruct (tx E a b3 w3) as [[[n b4] w4]| | |] eqn:Et; cbn [obind]; try done; [|by exists (b3, x2, w3)].
  assert (rtc vstep (b, x, w) (b4, x2, w4)) as R4 by (etrans; [exact R3|]; apply rtc_once; by econstructor).
  destruct T as (B4 & _). pose proof (rx_spec E a HE Ha b4 w4 B4) as X.
  destruct (rx E a b4 w4) as [[[n' b5] w5]| | |] eqn:Ex; cbn [obind]; try done; [|by exists (b4, x2, w4)].
  assert (rtc vstep (b, x, w) (b5, x2, w5)) as R5 by (etrans; [exact R4|]; apply rtc_once; by econstructor).
  pose proof (poll_kicks_ok (n + n') b5 x2 w5) as K. destruct (poll_kicks E a (n + n') b5 x2 w5) as [w6| | |] eqn:Ep; cbn [obind]; try done.
  cbn. etrans; [exact R5|]. apply rtc_once. by econstructor.
Qed.
(** The main loop: passes until the loop ends, at most [n]. *)
Fixpoint run_backend (n : nat) b x w : outcome (bool * Backend * Wire * VWorld) :=
  match n with
  | O => Ok (true, b, x, w)
  | S n =>
      let* '(more, b, x, w) := pass E a b x w in
      if more : bool then run_backend n b x w else Ok (false, b, x, w)
  end.

(** C28. No frontend and no guest can break the backend: for every content of the control socket, every guest memory at every access,
    every result of the system calls, and any number of passes of the main loop from the start, the
    loop returns (all its loops end) and its state satisfies the invariant: regions and cached translations are well formed and do not overlap, queue
    sizes are powers of two up to 1024 and used and available positions agree, the session has frames left and is within the
    limit, and at most 64 replies are queued; a panic happens only in a state that is vreached with a cached
    translation whose addresses overflow when they are added. *)
Theorem vhost_sessions fd x k n :
  wire_new (sys E) fd 0 = Ok (x, k) ->
  match run_backend n backend_new x (mkVWorld k []) with
  | Ok (_, b', x', w') => state_ok (b', x', w')
  | Err _ => True
  | Panic => exists st, rtc vstep (backend_new, x, mkVWorld k []) st /\ ~ low (memory st.1.1)
  | OutOfFuel => False
  end.
Proof.
  intros Ex. apply wire_new_ok in Ex as (So & _ & _ & W).
  assert (state_ok (backend_new, x, mkVWorld k [])) as I by (split_and!; [apply backend_new_ok|done|by exists [], []]).
  assert (forall b x w, state_ok (b, x, w) -> vreached (b, x, w) (fun st => (st.1.1.2, st.1.2, st.2)) (run_backend n b x w)) as R.
  { clear -HE Ha. induction n as [|n IH]; intros b x w I; cbn [run_backend]; [apply rtc_refl|].
    pose proof (pass_reached b x w I) as P. destruct (pass E a b x w) as [[[[more b1] x1] w1]| | |]; cbn [obind]; try done. cbn in P.
    destruct more; [|exact P]. apply (reached_from _ (b1, x1, w1)); [done|]. apply IH. by eapply steps_ok. }
  specialize (R _ _ _ I). destruct (run_backend _ _ _ _) as [[[[more b'] x'] w']| | |]; try done. cbn in R. by eapply steps_ok.
Qed.
End Sessions.

(** ** Examples *)
Definition cells : list Z :=
  (to_le 8 4096 ++ to_le 4 2048 ++ to_le 2 2 ++ to_le 2 0) ++ replicate 48 0 ++ [0; 0; 1; 0; 0; 0; 0; 0].
(** One descriptor of 2048 bytes that the device may write, offered once. *)
Definition guest1 (k : nat) (x : Z) : Z := nth (Z.to_nat (x - 1048576)) cells 0.
Definition recv2 (k : nat) (fd room : Z) : ErrorKind + Received :=
  if Nat.eqb k 1 && (12 <=? room) then inr (mkReceived (encode_message 3 9 []) [] false) else inl WouldBlock.
Definition env1 : Env :=
  mkEnv guest1 (fun _ => (8, OtherError)) recv2 (fun _ _ data => inr (zlen data)) 1 (fun _ => 1048576) 4096 (fun _ _ _ _ => Some 1048576)
    (fun k => Z.of_nat k) (fun _ _ => 5) (fun _ _ _ _ => false) (fun _ => false).
Definition args1 : Args := mkArgs 64 4 1000 100 8.
Lemma env1_ok : env_ok env1.
Proof.
  constructor.
  - intros k x. change (is_byte (nth (Z.to_nat (x - 1048576)) cells 0)). apply bytes_nth. unfold cells. rewrite !bytes_app. split_and!; try apply to_le_bytes; [apply bytes_zeros|].
    repeat (apply Forall_cons_2; [unfold is_byte; lia|]). apply Forall_nil_2.
  - intros k. exists 0%nat. split; [cbn; lia|]. unfold interrupted. cbn. intros [H _]. done.
  - split.
    + intros k fd room rc. change (recvmsg env1) with recv2. unfold recv2. destruct (_ && _) eqn:E; [|done]. bools. intros [= <-]. split; [change (12 <= room); tauto|].
      cbn [rc_data]. unfold encode_message. rewrite !bytes_app. split_and!; try apply to_le_bytes. apply Forall_nil_2.
    + intros k fd room. exists 0%nat. split; [cbn; lia|]. change (recvmsg env1) with recv2. unfold recv2. by destruct (_ && _).
  - split.
    + cbn. intros k fd data n [= <-]. pose proof (zlen_nonneg data). lia.
    + intros k fd data. exists 0%nat. split; [cbn; lia|done].
  - intros t v. cbn. unfold U64MAX. lia.
Qed.
Definition ram2 : Memory := mkMemory [mkRegion 0 65536 16384 1048576] [] false.
Lemma ram2_ok : mem_ok ram2 /\ hosts_apart ram2 /\ low ram2.
Proof.
  split; [|split; [repeat constructor|apply Forall_nil_2]].
  constructor; cbn; [|by repeat constructor|by apply Forall_nil|constructor|done].
  apply Forall_cons_2; [unfold region_ok, W64; cbn; lia|apply Forall_nil_2].
Qed.
Definition queue1 : Queue :=
  queue_default <| num := 2 |> <| q_desc := 65536 |> <| q_avail := 65600 |> <| q_used := 65664 |> <| configured := true |>
    <| enabled := true |> <| started := true |>.
Lemma queue1_ok : queue_ok queue1.
Proof. constructor; cbn; [right; exists 1; split; [lia|done]|unfold W16; lia|done]. Qed.
Definition rings1 : VRings := mkVRings (mkSpan 1048576 32 0) (mkSpan 1048640 8 64) (mkSpan 1048704 20 128).
Lemma rings1_ok : vrings_ok ram2 (q_advance 0 queue1) rings1.
Proof.
  constructor; try done; try (exists 1; split; [lia|done]).
  - exists (mkRegion 0 65536 16384 1048576), 0. cbn. split_and!; try done; [by left].
  - exists (mkRegion 0 65536 16384 1048576), 64. cbn. split_and!; try done; [by left].
  - exists (mkRegion 0 65536 16384 1048576), 128. cbn. split_and!; try done; [by left].
Qed.
Definition backend1 : Backend :=
  backend_new <| memory := ram2 |> <| queues := (queue1, queue_default) |> <| session := Some (mkSession 7 3 0 0) |> <| previous_session := Some 7 |>.
Lemma backend1_ok : backend_ok args1 backend1.
Proof.
  constructor; [apply ram2_ok|apply queue1_ok|apply queue_default_ok|done|]. split; [|done]. unfold session_ok, W64. cbn. lia.
Qed.
Lemma vhost_peek_safe_witness :
  match peek guest1 ram2 (q_advance 0 queue1) rings1 true (mkVWorld 0 []) with
  | Ok (inr (Some head), spans, w') => head = 0 /\ spans = [mkSpan 1052672 2048 4096] /\ NoDup (addresses spans)
  | _ => False
  end.
Proof.
  destruct ram2_ok as (I & H & _).
  assert (queue_ok (q_advance 0 queue1)) as Q by (constructor; cbn; [right; exists 1; split; [lia|done]|vm_compute; split; [discriminate|reflexivity]|congruence]).
  pose proof (vhost_peek_safe guest1 ram2 (q_advance 0 queue1) rings1 true (mkVWorld 0 []) (eo_guest _ env1_ok) I H Q rings1_ok) as P.
  assert (peek guest1 ram2 (q_advance 0 queue1) rings1 true (mkVWorld 0 []) = Ok (inr (Some 0), [mkSpan 1052672 2048 4096], mkVWorld 3 [])) as Ep
    by (vm_compute; reflexivity).
  rewrite Ep in P |- *. split; [done|]. split; [done|]. apply P.
Defined.
(** The guest has offered one chain: it gets the first of the three frames of the session. *)
Lemma vhost_rx_delivers_witness :
  exists b' w' r k0 frames k f,
    rx env1 args1 backend1 (mkVWorld 0 []) = Ok (1, b', w') /\ rings_of ram2 queue1 r /\ zlen frames = 1
    /\ rx_frames env1 args1 (frame_arrives args1 backend1 (mkSession 7 3 0 0)) backend1 (mkSession 7 3 0 0) r 3 k0 1 (mkVWorld 0 []) b' w' frames k f
    /\ session b' = Some (mkSession 7 3 1 0) /\ length (w_stores w') = 79%nat.
Proof.
  destruct ram2_ok as (I & H & _).
  pose proof (vhost_rx_delivers env1 args1 backend1 (mkSession 7 3 0 0) (mkVWorld 0 []) env1_ok eq_refl backend1_ok H eq_refl) as D.
  destruct (rx env1 args1 backend1 (mkVWorld 0 [])) as [[[n b'] w']| | |] eqn:Ex; [|vm_compute in Ex; discriminate Ex..].
  assert (n = 1) as -> by (vm_compute in Ex; congruence).
  destruct D as (_ & _ & _ & allowed & Ea & _ & D). assert (allowed = 3) as -> by (vm_compute in Ea; congruence).
  change (running (queues backend1).1 && enabled (queues backend1).1 && (s_generated (mkSession 7 3 0 0) <? 3)) with true in D.
  destruct D as (res & q1 & w1 & Em & D). destruct res as [fault|r]; [destruct D as (_ & En & _); discriminate En|].
  destruct D as (Hr & frames & k & f & D). exists b', w', r, (w_tick w1), frames, k, f. split; [reflexivity|]. split; [exact Hr|].
  split; [symmetry; apply D|]. split; [exact D|]. split; [apply D|].
  vm_compute in Ex. injection Ex as <- <-. vm_compute. reflexivity.
Defined.
Lemma vhost_sessions_witness :
  exists b' x' w', run_backend env1 args1 2 backend_new (wire_a 5) (mkVWorld 1 []) = Ok (true, b', x', w')
    /\ owner b' = true /\ wi_given x' = encode_message 3 5 (to_le 8 0) /\ state_ok args1 (b', x', w').
Proof.
  pose proof (vhost_sessions env1 args1 env1_ok eq_refl 5 (wire_a 5) 1 2 eq_refl) as S.
  destruct (run_backend env1 args1 2 backend_new (wire_a 5) (mkVWorld 1 [])) as [[[[more b'] x'] w']| | |] eqn:Er; [|vm_compute in Er; discriminate Er..].
  exists b', x', w'. assert (more = true /\ owner b' = true /\ wi_given x' = encode_message 3 5 (to_le 8 0)) as (-> & Eo & Eg).
  { vm_compute in Er. injection Er as <- <- <- <-. split; [reflexivity|]. split; vm_compute; reflexivity. }
  split; [reflexivity|]. split; [exact Eo|]. split; [exact Eg|exact S].
Defined.
