(* ===== verification/ShmNic.v ===== *)
(** * A NIC between two processes over shared memory ([examples/support/shm_nic.rs])

    The host process generates frames into the slots of a ring, the guest process verifies them; two counters and
    a handshake of phases are all that orders them.  Each process is a machine that makes at most one access to
    the shared memory in a step, and a run is any interleaving of the steps of the two.  A plain write is
    not atomic: it first leaves arbitrary content ([i_torn], [i_torn_desc]) and then the final one.
    [Input] is what the system gives to a step: the clock, processor times and the results of the calls on the notification pipe. *)
From Stdlib Require Import ZArith Lia Bool.
From stdpp Require Import base numbers option list.
From S2P Require Import Prelude VhostMemory VhostQueue.
#[local] Open Scope Z_scope.

Inductive Mode : Type := Direct | HostCopy | GuestCopy | BothCopy.
Definition host_copy (m : Mode) : bool := match m with HostCopy | BothCopy => true | _ => false end.
Definition guest_copy (m : Mode) : bool := match m with GuestCopy | BothCopy => true | _ => false end.
Inductive Wait : Type := Spin | Pipe.
Record ShmArgs : Type := mkShmArgs {
  sa_mode : Mode; sa_wait : Wait; sa_packets : Z; sa_warmup : Z; sa_size : Z; sa_ring : Z; sa_batch : Z; sa_stride : Z;
  sa_full : bool; sa_timeout : Z
}.
Record Descriptor : Type := mkDescriptor { d_offset : Z; d_sequence : Z; d_len : Z; d_reserved : Z }.
Record ShmStats : Type := mkShmStats {
  st_packets : Z; st_batches : Z; st_empty_polls : Z; st_notifications : Z; st_notification_full : Z; st_poll_calls : Z;
  st_read_calls : Z; st_wall_ns : Z; st_user_ns : Z; st_system_ns : Z
}.
#[export] Instance eta_ShmStats : Eta ShmStats := fun s =>
  mkShmStats (st_packets s) (st_batches s) (st_empty_polls s) (st_notifications s) (st_notification_full s) (st_poll_calls s)
    (st_read_calls s) (st_wall_ns s) (st_user_ns s) (st_system_ns s).
Definition shm_stats_default : ShmStats := mkShmStats 0 0 0 0 0 0 0 0 0 0.

(** ** The layout of the mapping *)
Record ShmLayout : Type := mkShmLayout { ly_ring : Z; ly_stride : Z; ly_payload : Z; ly_bytes : Z }.
Definition DESCRIPTORS : Z := 4096.
Definition REPORT : Z := 1024.
Definition DESCRIPTOR_SIZE : Z := 24.
Definition usize_is_power_of_two (n : Z) : bool := (0 <? n) && (Z.land n (n - 1) =? 0).
Definition checked_mul64 (a b : Z) : option Z := if a * b <? W64 then Some (a * b) else None.
Definition layout_new (a : ShmArgs) : option ShmLayout :=
  if negb (usize_is_power_of_two (sa_ring a)) || (65536 <? sa_ring a) || (sa_ring a <? 2) then None
  else if (sa_batch a =? 0) || (sa_ring a <? sa_batch a) || negb ((64 <=? sa_size a) && (sa_size a <=? 9000)) then None
  else if (sa_packets a =? 0) || bool_decide (checked_mul64 (sa_packets a) (sa_size a * 2) = None)
          || match checked_add64 (sa_packets a) (sa_warmup a) with Some n => U64MAX / 2 <? n | None => true end
          || (sa_timeout a =? 0) || (3600 <? sa_timeout a) then None
  else
    let stride := if sa_stride a =? 0 then Z.land (sa_size a + 127) (Z.lnot 127) else sa_stride a in
    if (stride <? sa_size a) || (65536 <? stride) || negb (stride mod 128 =? 0) then None
    else
      let payload := Z.land (DESCRIPTORS + sa_ring a * DESCRIPTOR_SIZE + 4095) (Z.lnot 4095) in
      let total := n ← checked_mul64 (sa_ring a) stride; checked_add64 payload n in
      match total with
      | None => None
      | Some bytes => if 512 * 1024 * 1024 <? bytes then None else Some (mkShmLayout (sa_ring a) stride payload bytes)
      end.
Definition ly_index (l : ShmLayout) (sequence : Z) : Z := Z.land sequence (ly_ring l - 1).
Definition ly_offset (l : ShmLayout) (sequence : Z) : Z := ly_payload l + ly_index l sequence * ly_stride l.
Definition ly_validate (l : ShmLayout) (d : Descriptor) (sequence size : Z) : bool :=
  (d_sequence d =? sequence) && (d_len d =? size) && (d_reserved d =? 0) && (d_offset d =? ly_offset l sequence).

(** ** Frames *)
Definition SHM_PREFIX : list Z := [2; 0; 0; 0; 0; 2; 2; 0; 0; 0; 0; 1; 136; 181; 83; 77].
Definition shm_byte (sequence : Z) (i : nat) : Z := (Z.of_nat i mod 256 + sequence mod 256) mod 256.
Definition shm_generate (frame : list Z) (sequence : Z) : outcome (list Z) :=
  let* body := slice frame 32 (zlen frame) in
  let* frame := copy_at frame 32 (imap (fun i _ => shm_byte sequence i) body) in
  let* frame := copy_at frame 0 SHM_PREFIX in
  let* frame := copy_at frame 16 (to_le 8 sequence) in
  let* frame := copy_at frame 24 (to_le 4 (u32 (zlen frame))) in
  fill0 frame 28 32.
(** [copy_packet], which panics when the lengths differ. *)
Definition copy_packet (from to : list Z) : outcome (list Z) := if zlen from =? zlen to then Ok from else Panic.
Definition validate_frame (frame : list Z) (sequence : Z) (full : bool) : bool :=
  (32 <=? zlen frame) && list_eqb (take 16 frame) SHM_PREFIX && list_eqb (take 8 (drop 16 frame)) (to_le 8 sequence)
  && list_eqb (take 4 (drop 24 frame)) (to_le 4 (u32 (zlen frame))) && list_eqb (take 4 (drop 28 frame)) [0; 0; 0; 0]
  && (negb full || list_eqb (drop 32 frame) (imap (fun i _ => shm_byte sequence i) (drop 32 frame))).

(** ** Shared memory: the counters, and the slots of the ring by their index *)
Record Shm : Type := mkShm {
  c_published : Z; c_completed : Z; c_ready : Z; c_phase : Z; c_phase_done : Z; c_armed : Z;
  m_descs : list Descriptor; m_frames : list (list Z); m_report : ShmStats
}.
#[export] Instance eta_Shm : Eta Shm := fun m =>
  mkShm (c_published m) (c_completed m) (c_ready m) (c_phase m) (c_phase_done m) (c_armed m) (m_descs m) (m_frames m) (m_report m).
(** The zeroed mapping. *)
Definition shm_init (a : ShmArgs) : Shm :=
  let n := Z.to_nat (sa_ring a) in
  mkShm 0 0 0 0 0 0 (replicate n (mkDescriptor 0 0 0 0)) (replicate n (replicate (Z.to_nat (sa_size a)) 0)) shm_stats_default.

(** ** Processes *)
Inductive Failure : Type := TimedOutPeer | BadIndex | BadDescriptor | Corrupt | PipeClosed | Os (e : ErrorKind).
Inductive Pc : Type :=
| WaitReady | SignalReady
| WaitArmed | Arm | WaitPhase | StartPhase
| Top
| Fill (i n : Z) | Filled (i n : Z) | Describe (i n : Z) | Described (i n : Z)
| ReadDesc (i n : Z) | Verify (i n : Z)
| Release (n : Z) | Notify | Drain | Finish
| WaitDone | SignalDone | WriteReport | ReadReport
| Exited | Failed (f : Failure).
Record Proc : Type := mkProc {
  p_pc : Pc; p_phase : Z; p_cursor : Z; p_end : Z; p_peer : Z; p_scratch : list Z; p_stats : ShmStats; p_stall : option Z;
  p_closed : bool; p_cpu : Z * Z; p_time : Z; p_report : ShmStats; p_log : list Z
}.
#[export] Instance eta_Proc : Eta Proc := fun p =>
  mkProc (p_pc p) (p_phase p) (p_cursor p) (p_end p) (p_peer p) (p_scratch p) (p_stats p) (p_stall p) (p_closed p) (p_cpu p)
    (p_time p) (p_report p) (p_log p).
Record Input : Type := mkInput {
  i_now : Z; i_cpu : ErrorKind + (Z * Z); i_write : Z * ErrorKind; i_poll : Z * ErrorKind; i_read : Z * ErrorKind;
  i_torn : list Z; i_torn_desc : Descriptor; i_child : bool
}.

Section Process.
Context (a : ShmArgs) (l : ShmLayout) (producer : bool).
Implicit Types (p : Proc) (m : Shm) (inp : Input).
Definition goto (pc : Pc) p : Proc := p <| p_pc := pc |>.
Definition proc_failed (f : Failure) p : Proc := goto (Failed f) p.
Definition proc_stat (f : ShmStats -> ShmStats) p : Proc := p <| p_stats ::= f |>.

(** [Stall::check]: [None] when there was no progress for too long. *)
Definition stall_check inp p : option Proc :=
  let since := default (i_now inp) (p_stall p) in
  if sa_timeout a * SECOND <=? dur_sub (i_now inp) since then None else Some (p <| p_stall := Some since |>).
Definition stall_progress p : Proc := p <| p_stall := None |>.

(** [Doorbell::notify]; an interrupted write is tried again in the next step. *)
Definition bell_notify inp p : Proc :=
  match sa_wait a with
  | Spin => goto Top p
  | Pipe =>
      if p_closed p then proc_failed PipeClosed p
      else if (i_write inp).1 =? 8 then goto Top (proc_stat (fun s => s <| st_notifications ::= count 1 |>) p)
      else match (i_write inp).2 with
           | Interrupted => p
           | WouldBlock => goto Top (proc_stat (fun s => s <| st_notification_full ::= count 1 |>) p)
           | e => proc_failed (Os e) p
           end
  end.
(** [Doorbell::idle]. *)
Definition bell_idle inp p : Proc :=
  let p := proc_stat (fun s => s <| st_empty_polls ::= count 1 |>) p in
  match sa_wait a with
  | Spin => p
  | Pipe =>
      if p_closed p then proc_failed PipeClosed p
      else
        let p := proc_stat (fun s => s <| st_poll_calls ::= count 1 |>) p in
        let '(n, e) := i_poll inp in
        if n <? 0 then if bool_decide (e = Interrupted) then p else proc_failed (Os e) p
        else if 0 <? n then
          let p := proc_stat (fun s => s <| st_read_calls ::= count 1 |>) p in
          let '(r, e) := i_read inp in
          if r =? 0 then p <| p_closed := true |>
          else if r <? 0 then if bool_decide (e = WouldBlock) || bool_decide (e = Interrupted) then p else proc_failed (Os e) p
          else p
        else p
  end.
(** Waiting in a loop of [run]. *)
Definition wait_idle inp p : Proc :=
  match stall_check inp p with None => proc_failed TimedOutPeer p | Some p => bell_idle inp p end.
(** A loop that only watches a counter: [wait_counter], and the consumer's wait for its phase. *)
Definition wait_for inp (seen value : Z) (next : Proc -> Proc) p : Proc :=
  if seen =? value then next (stall_progress p)
  else match stall_check inp p with None => proc_failed TimedOutPeer p | Some p => p end.

(** [run] for a phase, up to its first wait. *)
Definition copying : bool := if producer then host_copy (sa_mode a) else guest_copy (sa_mode a).
Definition start_run (phase first last : Z) p : Proc :=
  p <| p_pc := if producer then WaitArmed else Arm |> <| p_phase := phase |> <| p_cursor := first |> <| p_end := last |> <| p_peer := first |>
    <| p_scratch := replicate (if copying then Z.to_nat (sa_batch a * sa_size a) else 0) 0 |>
    <| p_stats := shm_stats_default |> <| p_stall := None |>.
(** The processor times and the clock when the measurement starts. *)
Definition clocked inp (next : Proc -> Proc) p : Proc :=
  match i_cpu inp with inl e => proc_failed (Os e) p | inr c => next (p <| p_cpu := c |> <| p_time := i_now inp |>) end.
Definition proc_available p (peer : Z) : Z := if producer then sa_ring a - (p_cursor p - peer) else peer - p_cursor p.
Definition bad_peer p (peer : Z) : bool :=
  if producer then (p_cursor p <? peer) || (sa_ring a <? p_cursor p - peer)
  else (peer <? p_cursor p) || (sa_ring a <? peer - p_cursor p) || (p_end p <? peer).
(** The head of the loop: how many packets can be handled now. *)
Definition loop_top inp p m : Proc :=
  if p_cursor p <? p_end p then
    let reload := proc_available p (p_peer p) <? sa_batch a in
    let peer := if reload then (if producer then c_completed m else c_published m) else p_peer p in
    if reload && bad_peer p peer then proc_failed BadIndex p
    else
      let p := p <| p_peer := peer |> in
      let n := Z.min (Z.min (proc_available p peer) (sa_batch a)) (p_end p - p_cursor p) in
      if n =? 0 then wait_idle inp p
      else goto (if producer then Fill 0 n else ReadDesc 0 n) (stall_progress p)
  else goto (if producer then Drain else Finish) p.
Definition slot p (i : Z) : Z := ly_index l (p_cursor p + i).
(** The frame that the producer writes, over the content [old] of its slot. *)
Definition produced p (i : Z) (old : list Z) : outcome (list Z * Proc) :=
  let seq := p_cursor p + i in
  if copying then
    let* staging := slice (p_scratch p) (i * sa_size a) ((i + 1) * sa_size a) in
    let* staging := shm_generate staging seq in
    let* scratch := copy_at (p_scratch p) (i * sa_size a) staging in
    let* frame := copy_packet staging old in
    Ok (frame, p <| p_scratch := scratch |>)
  else let* frame := shm_generate old seq in Ok (frame, p).
(** What the consumer looks at. *)
Definition consumed p (i : Z) (frame : list Z) : outcome (list Z * Proc) :=
  if copying then
    let* staging := slice (p_scratch p) (i * sa_size a) ((i + 1) * sa_size a) in
    let* staging := copy_packet frame staging in
    let* scratch := copy_at (p_scratch p) (i * sa_size a) staging in
    Ok (staging, p <| p_scratch := scratch |>)
  else Ok (frame, p).
Definition next_slot (i n : Z) : Pc := if i + 1 <? n then (if producer then Fill (i + 1) n else ReadDesc (i + 1) n) else Release n.
(** The end of a batch. *)
Definition release_batch (n : Z) p m : Proc * Shm :=
  let p := p <| p_cursor ::= Z.add n |> in
  let p := proc_stat (fun s => s <| st_packets ::= count n |> <| st_batches ::= count 1 |>) p in
  (goto Notify p, if producer then m <| c_published := p_cursor p |> else m <| c_completed := p_cursor p |>).
Definition finish_stats inp p : Proc :=
  match i_cpu inp with
  | inl e => proc_failed (Os e) p
  | inr (u, s) =>
      goto (if producer then WaitDone else if p_phase p =? 1 then SignalDone else WriteReport)
        (proc_stat (fun st => st <| st_wall_ns := dur_sub (i_now inp) (p_time p) mod W64 |> <| st_user_ns := Z.max 0 (u - (p_cpu p).1) |>
                            <| st_system_ns := Z.max 0 (s - (p_cpu p).2) |>) p <| p_stall := None |>)
  end.

(** One step of the process. *)
Definition proc_step inp p m : outcome (Proc * Shm) :=
  match p_pc p with
  | WaitReady => Ok (wait_for inp (c_ready m) 1 (start_run 1 0 (sa_warmup a)) p, m)
  | SignalReady => Ok (start_run 1 0 (sa_warmup a) p, m <| c_ready := 1 |>)
  | WaitArmed => Ok (wait_for inp (c_armed m) (p_phase p) (goto StartPhase) p, m)
  | Arm => Ok (goto WaitPhase p, m <| c_armed := p_phase p |>)
  | WaitPhase => Ok (wait_for inp (c_phase m) (p_phase p) (clocked inp (goto Top)) p, m)
  | StartPhase =>
      match i_cpu inp with
      | inl e => Ok (proc_failed (Os e) p, m)
      | inr _ => Ok (clocked inp (goto Top) p, m <| c_phase := p_phase p |>)
      end
  | Top => Ok (loop_top inp p m, m)
  | Fill i n =>
      let* frames := set_at (m_frames m) (slot p i) (i_torn inp) in
      Ok (goto (Filled i n) p, m <| m_frames := frames |>)
  | Filled i n =>
      let* old := get_at (m_frames m) (slot p i) in
      let* '(frame, p') := produced p i old in
      let* frames := set_at (m_frames m) (slot p i) frame in
      Ok (goto (Describe i n) p', m <| m_frames := frames |>)
  | Describe i n =>
      let* descs := set_at (m_descs m) (slot p i) (i_torn_desc inp) in
      Ok (goto (Described i n) p, m <| m_descs := descs |>)
  | Described i n =>
      let seq := p_cursor p + i in
      let* descs := set_at (m_descs m) (slot p i) (mkDescriptor (ly_offset l seq) seq (u32 (sa_size a)) 0) in
      Ok (goto (next_slot i n) p, m <| m_descs := descs |>)
  | ReadDesc i n =>
      let* d := get_at (m_descs m) (slot p i) in
      if ly_validate l d (p_cursor p + i) (sa_size a) then Ok (goto (Verify i n) p, m) else Ok (proc_failed BadDescriptor p, m)
  | Verify i n =>
      let* frame := get_at (m_frames m) (slot p i) in
      let* '(input, p') := consumed p i frame in
      if validate_frame input (p_cursor p + i) (sa_full a)
      then Ok (goto (next_slot i n) p' <| p_log ::= fun k => k ++ [p_cursor p + i] |>, m)
      else Ok (proc_failed Corrupt p', m)
  | Release n => Ok (release_batch n p m)
  | Notify => Ok (bell_notify inp p, m)
  | Drain => Ok (if c_completed m =? p_end p then goto Finish p else wait_idle inp p, m)
  | Finish => Ok (finish_stats inp p, m)
  | WaitDone =>
      Ok (wait_for inp (c_phase_done m) (p_phase p)
            (fun p => if p_phase p =? 1 then start_run 2 (sa_warmup a) (sa_warmup a + sa_packets a) p else goto ReadReport p) p, m)
  | SignalDone =>
      Ok (if p_phase p =? 1 then start_run 2 (sa_warmup a) (sa_warmup a + sa_packets a) p else goto Exited p, m <| c_phase_done := p_phase p |>)
  | WriteReport => Ok (goto SignalDone p, m <| m_report := p_stats p |>)
  | ReadReport => Ok (if i_child inp then goto Exited (p <| p_report := m_report m |>) else proc_failed (Os OtherError) p, m)
  | Exited | Failed _ => Ok (p, m)
  end.
End Process.

(** ** The two processes *)
Definition proc_start (pc : Pc) : Proc :=
  mkProc pc 0 0 0 0 [] shm_stats_default None false (0, 0) 0 shm_stats_default [].
Record Lab : Type := mkLab { lab_host : Proc; lab_guest : Proc; lab_shm : Shm }.
#[export] Instance eta_Lab : Eta Lab := fun s => mkLab (lab_host s) (lab_guest s) (lab_shm s).
Definition lab_start (a : ShmArgs) : Lab := mkLab (proc_start WaitReady) (proc_start SignalReady) (shm_init a).
(** A step of the host ([true]) or of the guest. *)
Definition lab_step (a : ShmArgs) (l : ShmLayout) (side : bool) (inp : Input) (s : Lab) : outcome Lab :=
  if side then let* '(p, m) := proc_step a l true inp (lab_host s) (lab_shm s) in Ok (s <| lab_host := p |> <| lab_shm := m |>)
  else let* '(p, m) := proc_step a l false inp (lab_guest s) (lab_shm s) in Ok (s <| lab_guest := p |> <| lab_shm := m |>).
Fixpoint lab_run (a : ShmArgs) (l : ShmLayout) (sched : list (bool * Input)) (s : Lab) : outcome Lab :=
  match sched with
  | [] => Ok s
  | (side, inp) :: sched => let* s := lab_step a l side inp s in lab_run a l sched s
  end.
