(* ===== verification/ShmNicInv.v ===== *)
(** * The shared-memory NIC: layout, frames and the invariant of the two processes

    Between the two counters every slot of the ring holds its frame and its descriptor; the producer
    writes only slots behind the published counter and within the ring, the consumer reads only slots between the two. *)
From Stdlib Require Import ZArith Lia Bool.
From stdpp Require Import base numbers option list.
From S2P Require Import Prelude VhostMemory VhostMemoryProps VhostQueue VhostQueueProps ShmNic.
#[local] Open Scope Z_scope.

(** ** Layout *)
Record typed_args (a : ShmArgs) : Prop := {
  ta_packets : 0 <= sa_packets a; ta_warmup : 0 <= sa_warmup a; ta_size : 0 <= sa_size a; ta_ring : 0 <= sa_ring a; ta_batch : 0 <= sa_batch a;
  ta_stride : 0 <= sa_stride a
}.
Record layout_ok (a : ShmArgs) (l : ShmLayout) : Prop := {
  lo_ring : exists k, 1 <= k <= 16 /\ sa_ring a = 2 ^ k;
  lo_ring_eq : ly_ring l = sa_ring a;
  lo_batch : 1 <= sa_batch a <= sa_ring a;
  lo_size : 64 <= sa_size a <= 9000;
  lo_packets : 0 < sa_packets a;
  lo_warmup : 0 <= sa_warmup a;
  lo_total : sa_warmup a + sa_packets a <= U64MAX / 2;
  lo_stride : sa_size a <= ly_stride l;
  lo_payload : DESCRIPTORS + sa_ring a * DESCRIPTOR_SIZE <= ly_payload l;
  lo_bytes : ly_payload l + sa_ring a * ly_stride l = ly_bytes l
}.
Lemma land_power n : 0 < n -> Z.land n (n - 1) = 0 -> n = 2 ^ Z.log2 n.
Proof.
  intros Hn Hz. pose proof (Z.log2_spec n Hn) as [Hl Hu]. set (k := Z.log2 n) in *. pose proof (Z.log2_nonneg n) as Hk. fold k in Hk.
  destruct (decide (n = 2 ^ k)) as [E|N]; [done|]. exfalso.
  assert (Z.testbit (Z.land n (n - 1)) k = true) as T.
  { rewrite Z.land_spec. apply andb_true_iff. split; [by apply Z.bit_log2|]. rewrite Z.testbit_true by lia.
    replace ((n - 1) / 2 ^ k) with 1; [done|]. rewrite Z.pow_succ_r in Hu by lia. apply (Z.div_unique _ _ _ (n - 1 - 2 ^ k)); lia. }
  by rewrite Hz, Z.bits_0 in T.
Qed.
(** Rounding up to a multiple of a power of two. *)
Lemma round_up x k : 0 <= k -> x <= Z.land (x + (2 ^ k - 1)) (Z.lnot (2 ^ k - 1)).
Proof.
  intros Hk. rewrite <- Z.ldiff_land, Z.sub_1_r, <- Z.ones_equiv, Z.ldiff_ones_r, Z.shiftr_div_pow2, Z.shiftl_mul_pow2, Z.ones_equiv by lia.
  pose proof (Z.div_mod (x + Z.pred (2 ^ k)) (2 ^ k)) as D. pose proof (Z.mod_pos_bound (x + Z.pred (2 ^ k)) (2 ^ k)) as M.
  pose proof (Z.pow_pos_nonneg 2 k). lia.
Qed.
Lemma layout_new_ok a l : typed_args a -> layout_new a = Some l -> layout_ok a l.
Proof.
  intros [T1 T2 T3 T4 T5 T6]. unfold layout_new.
  match goal with |- (if ?c then _ else _) = _ -> _ => destruct c eqn:E1; cbv iota; [done|] end.
  match goal with |- (if ?c then _ else _) = _ -> _ => destruct c eqn:E2; cbv iota; [done|] end.
  match goal with |- (if ?c then _ else _) = _ -> _ => destruct c eqn:E3; cbv iota; [done|] end. bools. destruct E1 as [[E1 E1b] E1c]. destruct E2 as [[E2a E2b] [E2c E2d]].
  destruct E3 as [[[[E3a _] E3b] _] _]. cbv zeta. set (stride := if sa_stride a =? 0 then _ else _). set (payload := Z.land _ _).
  match goal with |- (if ?c then _ else _) = _ -> _ => destruct c eqn:E4; cbv iota; [done|] end. bools. destruct E4 as [[E4a E4b] _].
  assert (0 <= sa_ring a * stride) as Hm by (apply Z.mul_nonneg_nonneg; lia).
  unfold checked_mul64. destruct (_ <? W64) eqn:E5; [|done]. cbn [mbind option_bind]. destruct (checked_add64 payload _) as [bytes|] eqn:E6; [|done].
  apply checked_add64_some in E6 as [-> E6]. destruct (512 * 1024 * 1024 <? _) eqn:E7; [done|]. intros [= <-].
  unfold usize_is_power_of_two in E1. bools. destruct E1 as [E1 E1d]. apply land_power in E1d; [|lia].
  destruct (checked_add64 (sa_packets a) (sa_warmup a)) as [t|] eqn:E8; [|done]. apply checked_add64_some in E8 as [-> _]. bools.
  constructor; cbn; try done; try lia.
  - exists (Z.log2 (sa_ring a)). split; [|done].
    split; [change 1 with (Z.log2 2)|change 16 with (Z.log2 65536)]; apply Z.log2_le_mono; lia.
  - apply (round_up (DESCRIPTORS + sa_ring a * DESCRIPTOR_SIZE) 12). lia.
Qed.
Section Layout.
Context (a : ShmArgs) (l : ShmLayout) (L : layout_ok a l).
Lemma ring_pos : 2 <= sa_ring a.
Proof. destruct (lo_ring _ _ L) as (k & Hk & ->). change 2 with (2 ^ 1) at 1. apply Z.pow_le_mono_r; lia. Qed.
Lemma ly_index_mod s : ly_index l s = s mod sa_ring a.
Proof.
  unfold ly_index. rewrite (lo_ring_eq _ _ L). destruct (lo_ring _ _ L) as (k & Hk & ->). rewrite Z.sub_1_r, <- Z.ones_equiv. apply Z.land_ones. lia.
Qed.
Lemma ly_index_range s : 0 <= ly_index l s < sa_ring a.
Proof. rewrite ly_index_mod. apply Z.mod_pos_bound. pose proof ring_pos. lia. Qed.
(** Sequence numbers within one turn of the ring have slots of their own. *)
Lemma ly_index_inj s t : ly_index l s = ly_index l t -> Z.abs (s - t) < sa_ring a -> s = t.
Proof.
  rewrite !ly_index_mod. intros E H. pose proof ring_pos. assert ((s - t) mod sa_ring a = 0) as D.
  { rewrite Zminus_mod, E, Z.sub_diag. apply Z.mod_0_l. lia. }
  apply Z.mod_divide in D as [q D]; [|lia]. assert (q = 0) by nia. lia.
Qed.

(** The frames of slots lie in the mapping, behind the descriptors, and apart from each other. *)
Lemma shm_slots_apart s t :
  DESCRIPTORS + sa_ring a * DESCRIPTOR_SIZE <= ly_offset l s /\ ly_offset l s + sa_size a <= ly_bytes l
  /\ (ly_index l s <> ly_index l t -> ly_offset l s + sa_size a <= ly_offset l t \/ ly_offset l t + sa_size a <= ly_offset l s).
Proof.
  pose proof (ly_index_range s). pose proof (ly_index_range t). pose proof L as [_ _ _ L1 _ _ _ L2 L3 L4]. unfold ly_offset. split_and!; [nia|nia|]. intros N.
  destruct (decide (ly_index l s < ly_index l t)); [left|right]; nia.
Qed.
End Layout.

(** ** Frames *)
Lemma copy_mid p q r src : zlen q = zlen src -> copy_at (p ++ q ++ r) (zlen p) src = Ok (p ++ src ++ r).
Proof.
  intros E. rewrite copy_at_ok by zl. unfold zlen in *. rewrite Nat2Z.id, take_app_length. do 3 f_equal.
  rewrite app_assoc. apply drop_app_length'. rewrite length_app. lia.
Qed.
Definition gen (size sequence : Z) : list Z :=
  SHM_PREFIX ++ to_le 8 sequence ++ to_le 4 (u32 size) ++ [0; 0; 0; 0] ++ map (shm_byte sequence) (seq 0 (Z.to_nat (size - 32))).
Lemma gen_length size sequence : 32 <= size -> zlen (gen size sequence) = size.
Proof. intros H. unfold gen. rewrite !zlen_app, !to_le_length. unfold zlen. rewrite length_map, length_seq. cbn [length SHM_PREFIX]. lia. Qed.
Lemma shm_generate_ok frame size sequence : zlen frame = size -> 32 <= size -> shm_generate frame sequence = Ok (gen size sequence).
Proof.
  intros Hl Hs. unfold shm_generate. rewrite slice_ok by lia. cbn [obind]. rewrite take_ge by (rewrite length_drop; unfold zlen in *; lia).
  change (Z.to_nat 32) with 32%nat. set (r := drop 32 frame).
  assert (imap (fun i _ => shm_byte sequence i) r = map (shm_byte sequence) (seq 0 (Z.to_nat (size - 32)))) as Er.
  { assert (length r = Z.to_nat (size - 32)) as Lr by (unfold r; rewrite length_drop; unfold zlen in *; lia). rewrite <- Lr.
    apply list_eq. intros i. rewrite list_lookup_imap, list_lookup_fmap. destruct (decide (i < length r)%nat) as [Hi|Hi].
    - rewrite lookup_seq_lt by done. destruct (r !! i) eqn:E; [done|]. apply lookup_ge_None in E. lia.
    - rewrite (lookup_ge_None_2 r), lookup_seq_ge by lia. done. }
  rewrite Er. remember (map (shm_byte sequence) (seq 0 (Z.to_nat (size - 32)))) as body eqn:Eb. assert (zlen body = size - 32) as Lb by (rewrite Eb; unfold zlen; rewrite length_map, length_seq; lia).
  assert (exists p1 p2 p3 p4, frame = p1 ++ p2 ++ p3 ++ p4 ++ r /\ zlen p1 = 16 /\ zlen p2 = 8 /\ zlen p3 = 4 /\ zlen p4 = 4) as (p1 & p2 & p3 & p4 & Ef & L1 & L2 & L3 & L4).
  { exists (take 16 frame), (take 8 (drop 16 frame)), (take 4 (drop 24 frame)), (take 4 (drop 28 frame)).
    split; [|rewrite !zlen_take, !zlen_drop; lia]. unfold r.
    rewrite <- (take_drop 16 frame) at 1. f_equal. rewrite <- (take_drop 8 (drop 16 frame)) at 1. f_equal. rewrite drop_drop.
    rewrite <- (take_drop 4 (drop (16 + 8) frame)) at 1. f_equal. rewrite drop_drop. rewrite <- (take_drop 4 (drop (16 + 8 + 4) frame)) at 1. f_equal. by rewrite drop_drop. }
  assert (zlen r = size - 32) as Lr by (unfold r; rewrite zlen_drop; lia). clearbody r. subst frame.
  replace (p1 ++ p2 ++ p3 ++ p4 ++ r) with ((p1 ++ p2 ++ p3 ++ p4) ++ r ++ []) by (by rewrite app_nil_r, <- !app_assoc).
  replace 32 with (zlen (p1 ++ p2 ++ p3 ++ p4)) at 1 by (rewrite !zlen_app; lia). rewrite copy_mid by lia. cbn [obind]. rewrite app_nil_r, <- !app_assoc.
  pose proof (copy_mid [] p1 (p2 ++ p3 ++ p4 ++ body) SHM_PREFIX L1) as C0. change (zlen []) with 0 in C0. rewrite !app_nil_l in C0. rewrite C0. cbn [obind].
  replace 16 with (zlen SHM_PREFIX) at 1 by done. rewrite copy_mid by (rewrite to_le_length; lia). cbn [obind].
  replace (zlen (SHM_PREFIX ++ to_le 8 sequence ++ p3 ++ p4 ++ body)) with size by (rewrite !zlen_app, to_le_length; change (zlen SHM_PREFIX) with 16; lia).
  rewrite (app_assoc SHM_PREFIX). replace 24 with (zlen (SHM_PREFIX ++ to_le 8 sequence)) at 1 by done. rewrite copy_mid by (rewrite to_le_length; lia). cbn [obind].
  rewrite fill0_ok by (rewrite ?zlen_app, ?to_le_length; change (zlen SHM_PREFIX) with 16; lia). f_equal. unfold gen. rewrite <- Eb.
  replace ((SHM_PREFIX ++ to_le 8 sequence) ++ to_le 4 (u32 size) ++ p4 ++ body) with ((SHM_PREFIX ++ to_le 8 sequence ++ to_le 4 (u32 size)) ++ p4 ++ body) by (by rewrite <- !app_assoc).
  set (h := SHM_PREFIX ++ to_le 8 sequence ++ to_le 4 (u32 size)). assert (length h = 28%nat) as Lh by done.
  rewrite take_app_length' by done. rewrite (app_assoc h p4 body), drop_app_length' by (rewrite length_app, Lh; unfold zlen in L4; lia).
  unfold h. by rewrite <- !app_assoc.
Qed.
Lemma imap_bytes sequence n : imap (fun i (_ : Z) => shm_byte sequence i) (map (shm_byte sequence) (seq 0 n)) = map (shm_byte sequence) (seq 0 n).
Proof.
  apply list_eq. intros i. rewrite list_lookup_imap, !list_lookup_fmap. destruct (decide (i < n)%nat); [by rewrite lookup_seq_lt|by rewrite lookup_seq_ge by lia].
Qed.
Lemma validate_gen size sequence full : 32 <= size -> validate_frame (gen size sequence) sequence full = true.
Proof.
  intros Hs. unfold validate_frame. rewrite gen_length by done. rewrite (proj2 (Z.leb_le _ _)) by done.
  assert (drop 32 (gen size sequence) = map (shm_byte sequence) (seq 0 (Z.to_nat (size - 32)))) as -> by done.
  rewrite imap_bytes, (list_eqb_refl (map _ _)), orb_true_r, !andb_true_iff. split_and!; try done; apply list_eqb_refl.
Qed.
(** A frame of another number is not taken for it. *)
Lemma validate_stale size s t full : 32 <= size -> 0 <= s < W64 -> 0 <= t < W64 -> validate_frame (gen size s) t full = true -> s = t.
Proof.
  intros Hs H1 H2 V. unfold validate_frame in V. rewrite !andb_true_iff in V. destruct V as [[[[[_ _] V] _] _] _]. apply list_eqb_eq in V.
  change (take 8 (drop 16 (gen size s))) with (to_le 8 s) in V. apply (f_equal from_le) in V. rewrite !from_to_le in V.
  change (256 ^ Z.of_nat 8) with W64 in V. by rewrite !Z.mod_small in V.
Qed.

(** ** The invariant of a process *)
Definition batch_of (pc : Pc) : option (Z * Z) :=
  match pc with
  | Fill i n | Filled i n | Describe i n | Described i n | ReadDesc i n | Verify i n => Some (i, n)
  | Release n => Some (n, n)
  | _ => None
  end.
Definition progress_of (pc : Pc) : Z := match batch_of pc with Some (i, _) => i | None => 0 end.
Definition environmental (f : Failure) : Prop := match f with TimedOutPeer | PipeClosed | Os _ => True | _ => False end.
Definition side_pc (producer : bool) (pc : Pc) : Prop :=
  match pc with
  | WaitReady | WaitArmed | StartPhase | Fill _ _ | Filled _ _ | Describe _ _ | Described _ _ | Drain | WaitDone | ReadReport => producer = true
  | SignalReady | Arm | WaitPhase | ReadDesc _ _ | Verify _ _ | SignalDone | WriteReport => producer = false
  | Failed f => environmental f
  | _ => True
  end.
(** Before, at the start, in the loop, and after the loop of a phase. *)
Definition stage (pc : Pc) : Z :=
  match pc with
  | WaitReady | SignalReady => 0
  | WaitArmed | Arm | WaitPhase | StartPhase => 1
  | Top | Fill _ _ | Filled _ _ | Describe _ _ | Described _ _ | ReadDesc _ _ | Verify _ _ | Release _ | Notify => 2
  | Drain | Finish | WaitDone | SignalDone | WriteReport | ReadReport | Exited => 3
  | Failed _ => 4
  end.
Section Inv.
Context (a : ShmArgs) (l : ShmLayout).
Definition first_of (phase : Z) : Z := if phase =? 2 then sa_warmup a else 0.
Definition last_of (phase : Z) : Z := if phase =? 2 then sa_warmup a + sa_packets a else if phase =? 1 then sa_warmup a else 0.
Record proc_inv (producer : bool) (p : Proc) : Prop := {
  pi_pc : side_pc producer (p_pc p);
  pi_phase : p_phase p = 0 \/ p_phase p = 1 \/ p_phase p = 2;
  pi_before : stage (p_pc p) = 0 -> p_phase p = 0;
  pi_after : 1 <= stage (p_pc p) <= 3 -> p_phase p <> 0;
  pi_end : p_end p = last_of (p_phase p);
  pi_range : first_of (p_phase p) <= p_cursor p <= p_end p;
  pi_begin : stage (p_pc p) = 1 -> p_cursor p = first_of (p_phase p);
  pi_ended : stage (p_pc p) = 3 -> p_cursor p = p_end p;
  pi_last : p_pc p = WriteReport \/ p_pc p = ReadReport \/ p_pc p = Exited -> p_phase p = 2;
  pi_peer : 0 <= p_peer p;
  pi_batch : match batch_of (p_pc p) with
             | Some (i, n) => 0 <= i <= n /\ 1 <= n <= sa_batch a /\ p_cursor p + n <= p_end p /\ (p_pc p = Release n \/ i < n)
             | None => True
             end;
  pi_scratch : 1 <= p_phase p -> zlen (p_scratch p) = if copying a producer then sa_batch a * sa_size a else 0;
  pi_stats : st_packets (p_stats p) = p_cursor p - first_of (p_phase p)
}.
(** The slot of a packet that is ready to be read. *)
Definition framed_slot (m : Shm) (s : Z) : Prop := m_frames m !! Z.to_nat (ly_index l s) = Some (gen (sa_size a) s).
Definition intact (m : Shm) (s : Z) : Prop :=
  framed_slot m s /\ m_descs m !! Z.to_nat (ly_index l s) = Some (mkDescriptor (ly_offset l s) s (sa_size a) 0).
Record lab_inv (s : Lab) : Prop := {
  li_host : proc_inv true (lab_host s);
  li_guest : proc_inv false (lab_guest s);
  li_published : c_published (lab_shm s) = p_cursor (lab_host s);
  li_completed : c_completed (lab_shm s) = p_cursor (lab_guest s);
  li_order : p_cursor (lab_guest s) <= p_cursor (lab_host s) <= p_cursor (lab_guest s) + sa_ring a;
  li_host_peer : p_peer (lab_host s) <= p_cursor (lab_guest s) /\ p_peer (lab_host s) <= p_cursor (lab_host s) <= p_peer (lab_host s) + sa_ring a;
  li_guest_peer : p_cursor (lab_guest s) <= p_peer (lab_guest s) <= p_cursor (lab_host s);
  li_host_batch : match batch_of (p_pc (lab_host s)) with Some (_, n) => p_cursor (lab_host s) + n <= p_peer (lab_host s) + sa_ring a | None => True end;
  li_guest_batch : match batch_of (p_pc (lab_guest s)) with Some (_, n) => p_cursor (lab_guest s) + n <= p_peer (lab_guest s) | None => True end;
  li_frames : zlen (m_frames (lab_shm s)) = sa_ring a /\ Forall (fun f => zlen f = sa_size a) (m_frames (lab_shm s));
  li_descs : zlen (m_descs (lab_shm s)) = sa_ring a;
  li_intact : forall q, p_cursor (lab_guest s) <= q < p_cursor (lab_host s) + progress_of (p_pc (lab_host s)) -> intact (lab_shm s) q;
  li_filled : match p_pc (lab_host s) with Describe i _ | Described i _ => framed_slot (lab_shm s) (p_cursor (lab_host s) + i) | _ => True end;
  li_phases : p_phase (lab_host s) = 2 -> p_phase (lab_guest s) = 2;
  li_done : c_phase_done (lab_shm s) = (match p_pc (lab_guest s) with Exited => 2 | _ => if p_phase (lab_guest s) =? 2 then 1 else 0 end);
  li_drained : match p_pc (lab_host s) with Finish | WaitDone | ReadReport | Exited => p_cursor (lab_guest s) = p_cursor (lab_host s) | _ => True end;
  li_joined : match p_pc (lab_host s) with ReadReport | Exited => p_pc (lab_guest s) = Exited | _ => True end;
  li_log : p_log (lab_guest s) = seqZ 0 (p_cursor (lab_guest s) + progress_of (p_pc (lab_guest s)));
  li_report : match p_pc (lab_guest s) with
              | Exited => st_packets (m_report (lab_shm s)) = sa_packets a
              | SignalDone => p_phase (lab_guest s) = 2 -> st_packets (m_report (lab_shm s)) = sa_packets a
              | _ => True
              end;
  li_result : p_pc (lab_host s) = Exited -> st_packets (p_report (lab_host s)) = sa_packets a
}.

(** ** Steps without effect on the ring *)
Definition idles (p p' : Proc) : Prop :=
  (p_pc p' = p_pc p \/ exists f, environmental f /\ p_pc p' = Failed f) /\ p_phase p' = p_phase p /\ p_cursor p' = p_cursor p /\ p_end p' = p_end p
  /\ p_peer p' = p_peer p /\ p_scratch p' = p_scratch p /\ st_packets (p_stats p') = st_packets (p_stats p) /\ p_report p' = p_report p /\ p_log p' = p_log p.
Lemma idles_refl p : idles p p.
Proof. unfold idles. tauto. Qed.
Lemma idles_failed f p : environmental f -> idles p (proc_failed f p).
Proof. intros F. unfold idles. split_and!; try done. right. by exists f. Qed.
Lemma stall_check_idles inp p p' : stall_check a inp p = Some p' -> idles p p'.
Proof. unfold stall_check. destruct (_ <=? _); [done|]. intros [= <-]. unfold idles. split_and!; try done. by left. Qed.
Lemma idles_trans p q r : idles p q -> p_pc q = p_pc p -> idles q r -> idles p r.
Proof.
  unfold idles. intros (A1 & A2 & A3 & A4 & A5 & A6 & A7 & A8 & A9) E (B1 & B2 & B3 & B4 & B5 & B6 & B7 & B8 & B9).
  rewrite <- E. split_and!; congruence || done.
Qed.
Lemma bell_idle_idles inp p : idles p (bell_idle a inp p).
Proof.
  assert (forall f q, environmental f -> p_phase q = p_phase p -> idles p q -> idles p (proc_failed f q)) as Fl.
  { intros f q F _ (A1 & A). split; [right; by exists f|exact A]. }
  unfold bell_idle. destruct (sa_wait a); [unfold idles; split_and!; try done; by left|]. cbn [p_closed proc_stat].
  assert (idles p (proc_stat (fun s => s <| st_empty_polls ::= count 1 |>) p)) as A by (unfold idles; split_and!; try done; by left).
  destruct (p_closed _); [by apply Fl|]. destruct (i_poll inp) as [n e].
  set (q := proc_stat _ (proc_stat _ p)). assert (idles p q) as Aq by (unfold idles; split_and!; try done; by left). clearbody q.
  destruct (n <? 0); [destruct (bool_decide _); [done|]; apply Fl; [done|apply Aq|done]|]. destruct (0 <? n); [|done]. destruct (i_read inp) as [r e'].
  assert (idles p (proc_stat (fun s => s <| st_read_calls ::= count 1 |>) q)) as Ar by exact Aq. set (q' := proc_stat _ q) in *. clearbody q'.
  destruct (r =? 0); [exact Ar|]. destruct (r <? 0); [|done]. destruct (_ || _); [done|]. apply Fl; [done|apply Ar|done].
Qed.
Lemma wait_idle_idles inp p : idles p (wait_idle a inp p).
Proof.
  unfold wait_idle. destruct (stall_check a inp p) as [q|] eqn:E; [|by apply idles_failed]. pose proof (stall_check_idles _ _ _ E) as A.
  apply (idles_trans p q); [done| |apply bell_idle_idles]. unfold stall_check in E. destruct (_ <=? _); [done|]. by injection E as <-.
Qed.
Lemma wait_for_cases inp seen value next p :
  (seen = value /\ wait_for a inp seen value next p = next (stall_progress p)) \/ idles p (wait_for a inp seen value next p).
Proof.
  unfold wait_for. destruct (seen =? value) eqn:E; bools; [by left|]. right. destruct (stall_check a inp p) as [q|] eqn:Es; [by eapply stall_check_idles|].
  by apply idles_failed.
Qed.
Lemma proc_inv_idles side p p' : proc_inv side p -> idles p p' -> batch_of (p_pc p) = None -> proc_inv side p'.
Proof.
  intros [] (A1 & A2 & A3 & A4 & A5 & A6 & A7 & A8 & A9) Hb. destruct A1 as [A1|(f & F & A1)]; constructor; rewrite ?A1, ?A2, ?A3, ?A4, ?A5, ?A6, ?A7; try done; cbn; try lia.
  intros [?|[?|?]]; done.
Qed.
End Inv.
