(* ===== verification/ShmNicStep.v ===== *)
(** * The shared-memory NIC: every step of either process keeps the invariant *)
From Stdlib Require Import ZArith Lia Bool.
From stdpp Require Import base numbers option list.
From S2P Require Import Prelude VhostMemory VhostMemoryProps VhostQueue VhostQueueProps ShmNic ShmNicInv.
#[local] Open Scope Z_scope.

(** Proves the invariant of a process whose place in the program has changed. *)
Ltac pinv := constructor; cbn; try done; try lia; try (intros [?|[?|?]]; done); try (intros; lia);
  try (split_and!; try done; try lia; first [by left|by right]).
Section Steps.
Context (a : ShmArgs) (l : ShmLayout) (L : layout_ok a l).
Abbreviation inv h g m := (lab_inv a l (mkLab h g m)).
Implicit Types (h g p : Proc) (m : Shm) (inp : Input).

Lemma host_idles h g m h' : inv h g m -> idles h h' -> batch_of (p_pc h) = None -> inv h' g m.
Proof.
  intros [] A Hb. pose proof (proc_inv_idles a true h h' li_host A Hb) as Ph. cbn in *. destruct A as (A1 & A2 & A3 & A4 & A5 & A6 & A7 & A8 & A9).
  unfold progress_of in *. rewrite Hb in *.
  destruct A1 as [A1|(f & F & A1)]; constructor; cbn; unfold progress_of; rewrite ?A1, ?A2, ?A3, ?A5, ?A8, ?Hb; cbn; try done.
Qed.
Lemma guest_idles h g m g' : inv h g m -> idles g g' -> batch_of (p_pc g) = None -> p_pc g <> Exited -> inv h g' m.
Proof.
  intros [] A Hb N. pose proof (proc_inv_idles a false g g' li_guest A Hb) as Pg. cbn in *. destruct A as (A1 & A2 & A3 & A4 & A5 & A6 & A7 & A8 & A9).
  unfold progress_of in *. rewrite Hb in *.
  destruct A1 as [A1|(f & F & A1)]; constructor; cbn; unfold progress_of; rewrite ?A1, ?A2, ?A3, ?A5, ?A9, ?Hb; cbn; try done.
  - rewrite li_done. by destruct (p_pc g).
  - destruct (p_pc h); done.
Qed.

(** ** Scratch buffers *)
Lemma scratch_slice (sc : list Z) i n : 0 <= i < n -> n <= sa_batch a -> zlen sc = sa_batch a * sa_size a ->
  exists st, slice sc (i * sa_size a) ((i + 1) * sa_size a) = Ok st /\ zlen st = sa_size a
    /\ forall st', zlen st' = sa_size a -> exists sc', copy_at sc (i * sa_size a) st' = Ok sc' /\ zlen sc' = zlen sc.
Proof.
  intros Hi Hn Hs. pose proof (lo_size _ _ L) as Sz. assert ((i + 1) * sa_size a <= sa_batch a * sa_size a) as B by nia.
  rewrite slice_ok by lia. eexists. split; [reflexivity|]. split; [rewrite zlen_take, zlen_drop; lia|]. intros st' Hst.
  destruct (copy_at sc (i * sa_size a) st') as [sc'| | |] eqn:E; try (rewrite copy_at_ok in E by lia; done). exists sc'. split; [done|].
  by apply copy_at_inv in E as (E & _).
Qed.
Lemma produced_ok p i n old : 0 <= i < n -> n <= sa_batch a -> zlen old = sa_size a ->
  zlen (p_scratch p) = (if copying a true then sa_batch a * sa_size a else 0) ->
  exists sc, produced a true p i old = Ok (gen (sa_size a) (p_cursor p + i), p <| p_scratch := sc |>) /\ zlen sc = zlen (p_scratch p).
Proof.
  intros Hi Hn Ho Hs. pose proof (lo_size _ _ L) as Sz. unfold produced. destruct (copying a true).
  - destruct (scratch_slice _ i n Hi Hn Hs) as (st & -> & Ls & C). cbn [obind]. rewrite (shm_generate_ok st (sa_size a)) by (done || lia). cbn [obind].
    destruct (C (gen (sa_size a) (p_cursor p + i)) ltac:(apply gen_length; lia)) as (sc & -> & Lc). cbn [obind]. unfold copy_packet.
    rewrite gen_length, Ho, Z.eqb_refl by lia. cbn [obind]. by exists sc.
  - rewrite (shm_generate_ok old (sa_size a)) by (done || lia). exists (p_scratch p). cbn [obind]. split; [|done]. by destruct p.
Qed.
Lemma consumed_ok p i n frame : 0 <= i < n -> n <= sa_batch a -> zlen frame = sa_size a ->
  zlen (p_scratch p) = (if copying a false then sa_batch a * sa_size a else 0) ->
  exists sc, consumed a false p i frame = Ok (frame, p <| p_scratch := sc |>) /\ zlen sc = zlen (p_scratch p).
Proof.
  intros Hi Hn Ho Hs. unfold consumed. destruct (copying a false).
  - destruct (scratch_slice _ i n Hi Hn Hs) as (st & -> & Ls & C). cbn [obind]. unfold copy_packet. rewrite Ls, Ho, Z.eqb_refl. cbn [obind].
    destruct (C frame Ho) as (sc & -> & Lc). cbn [obind]. by exists sc.
  - exists (p_scratch p). split; [|done]. by destruct p.
Qed.

(** ** Runs *)
Lemma start_run_inv side phase p : phase = 1 \/ phase = 2 -> proc_inv a side (start_run a side phase (first_of a phase) (last_of a phase) p).
Proof.
  intros Hp. pose proof L as [_ _ L1 L2 L3 L4 _ _ _ _]. unfold start_run.
  constructor; cbn; try done; try lia; try (rewrite zlen_replicate; destruct (copying a side); lia);
    destruct Hp as [-> | ->]; destruct side; cbn; try done; try lia; try (intros [?|[?|?]]; done); try (by right; left); try (by right; right).
Qed.

(** A frame that was torn has the length of a frame. *)
Definition input_ok inp : Prop := zlen (i_torn inp) = sa_size a.
(** ** The host *)
Definition host_moves h g m (res : outcome (Proc * Shm)) : Prop := exists h' m', res = Ok (h', m') /\ inv h' g m'.
Lemma host_stays h g m h' : inv h g m -> idles h h' -> batch_of (p_pc h) = None -> host_moves h g m (Ok (h', m)).
Proof. intros. exists h', m. split; [done|]. by eapply host_idles. Qed.
(** The host goes on to another place of its program, with the ring unchanged. *)
Lemma host_goes h g m h' :
  inv h g m -> proc_inv a true h' -> p_phase h' = p_phase h -> p_cursor h' = p_cursor h -> progress_of (p_pc h') = progress_of (p_pc h) ->
  p_peer h' <= p_cursor g /\ p_peer h' <= p_cursor h <= p_peer h' + sa_ring a ->
  match batch_of (p_pc h') with Some (_, n) => p_cursor h + n <= p_peer h' + sa_ring a | None => True end ->
  match p_pc h' with Describe _ _ | Described _ _ | ReadReport | Exited => False | Finish | WaitDone => p_cursor g = p_cursor h | _ => True end ->
  inv h' g m.
Proof.
  intros [] P E1 E2 E3 E4 E5 E6. cbn in *. constructor; cbn; rewrite ?E1, ?E2, ?E3; try done; try (by destruct (p_pc h')).
Qed.
Lemma host_wait_ready inp h g m : inv h g m -> p_pc h = WaitReady -> host_moves h g m (proc_step a l true inp h m).
Proof.
  intros I Hp. unfold proc_step. rewrite Hp. destruct (wait_for_cases a inp (c_ready m) 1 (start_run a true 1 0 (sa_warmup a)) h) as [[_ ->]|A];
    [|by apply host_stays; rewrite ?Hp].
  eexists _, _. split; [reflexivity|]. pose proof (start_run_inv true 1 (stall_progress h) (or_introl eq_refl)) as P. cbn [first_of last_of Z.eqb Pos.eqb] in P.
  pose proof I as []. cbn in *. destruct li_host. rewrite Hp in *. cbn in *. specialize (pi_before eq_refl).
  assert (p_cursor h = 0) as C0 by (unfold first_of, last_of in *; rewrite pi_before in *; cbn in *; lia). pose proof (ring_pos a l L).
  pose proof li_guest as [_ _ _ _ _ [Gr _] _ _ _ _ _ _ _]. assert (0 <= p_cursor g) by (unfold first_of in Gr; pose proof (lo_warmup _ _ L); destruct (_ =? 2); lia).
  constructor; cbn; unfold progress_of in *; cbn in *; try done; try lia.
Qed.
Lemma host_wait_armed inp h g m : inv h g m -> p_pc h = WaitArmed -> host_moves h g m (proc_step a l true inp h m).
Proof.
  intros I Hp. unfold proc_step. rewrite Hp. destruct (wait_for_cases a inp (c_armed m) (p_phase h) (goto StartPhase) h) as [[_ ->]|A];
    [|by apply host_stays; rewrite ?Hp].
  eexists _, _. split; [reflexivity|]. pose proof I as []. cbn in *. apply (host_goes h); try done; [|by rewrite Hp].
  destruct li_host. rewrite Hp in *. cbn in *. specialize (pi_after ltac:(lia)). pinv.
Qed.
Lemma host_start_phase inp h g m : inv h g m -> p_pc h = StartPhase -> host_moves h g m (proc_step a l true inp h m).
Proof.
  intros I Hp. unfold proc_step, clocked. rewrite Hp. destruct (i_cpu inp) as [e|c] eqn:Ec.
  { apply host_stays; [done|by apply idles_failed|by rewrite Hp]. }
  eexists _, _. split; [reflexivity|]. pose proof I as []. cbn in *.
  assert (inv (goto Top (h <| p_cpu := c |> <| p_time := i_now inp |>)) g m) as J.
  { apply (host_goes h); try done; [|by rewrite Hp]. destruct li_host. rewrite Hp in *. cbn in *. specialize (pi_after ltac:(lia)). pinv. }
  destruct J. cbn in *. by constructor.
Qed.
Lemma batch_size n avail rest : n = Z.min (Z.min avail (sa_batch a)) rest -> 0 <= avail -> 0 < rest -> n <> 0 -> 1 <= n <= sa_batch a /\ n <= avail /\ n <= rest.
Proof. intros -> Ha Hr N. pose proof (lo_batch _ _ L). lia. Qed.
Lemma host_top inp h g m : inv h g m -> p_pc h = Top -> host_moves h g m (proc_step a l true inp h m).
Proof.
  intros I Hp. unfold proc_step, loop_top. rewrite Hp. pose proof I as []. cbn in * |- . pose proof li_host as []. rewrite Hp in * |- . cbn in * |- . specialize (pi_after ltac:(lia)).
  destruct (p_cursor h <? p_end h) eqn:Ec; bools.
  2: { eexists _, _. split; [reflexivity|]. apply (host_goes h); try done; [|by rewrite Hp].
       pinv. }
  set (reload := _ <? sa_batch a). set (peer := if reload then _ else _).
  assert (0 <= peer <= p_cursor g /\ peer <= p_cursor h <= peer + sa_ring a) as Hpeer.
  { unfold peer. pose proof li_guest as []. destruct reload; [rewrite li_completed|]; lia. }
  assert (reload && bad_peer a true h peer = false) as ->.
  { apply andb_false_iff. right. unfold bad_peer. bools. lia. }
  set (n := Z.min _ _). set (h1 := h <| p_peer := peer |>).
  assert (inv h1 g m) as I1.
  { apply (host_goes h); cbn; rewrite ?Hp; try done; [|lia]. unfold h1. constructor; cbn; rewrite ?Hp; cbn; done || lia. }
  destruct (n =? 0) eqn:En; bools.
  { destruct (host_stays h1 g m (wait_idle a inp h1) I1 (wait_idle_idles a inp h1) ltac:(cbn; by rewrite Hp)) as (h' & m' & E & J). by exists h', m'. }
  destruct (batch_size n (proc_available a true h1 peer) (p_end h1 - p_cursor h1) eq_refl) as (N1 & N2 & N3); [unfold proc_available; cbn; lia|cbn; lia|done|].
  unfold proc_available in N2. cbn in N2, N3. eexists _, _. split; [reflexivity|].
  apply (host_goes h); cbn; rewrite ?Hp; try done; try lia. pinv.
Qed.
(** The slot that the host writes is not one that the guest may read. *)
Lemma write_slot h g m i n q :
  inv h g m -> batch_of (p_pc h) = Some (i, n) -> i < n -> p_cursor g <= q < p_cursor h + i -> ly_index l q <> ly_index l (p_cursor h + i).
Proof.
  intros [] Hb Hi Hq E. cbn in *. rewrite Hb in *. apply (ly_index_inj a l L) in E; lia.
Qed.
Lemma insert_slot {A} (xs : list A) s t x : 0 <= s -> 0 <= t -> s <> t -> <[Z.to_nat t := x]> xs !! Z.to_nat s = xs !! Z.to_nat s.
Proof. intros. apply list_lookup_insert_ne. lia. Qed.
Lemma host_frame h g m i n f :
  inv h g m -> batch_of (p_pc h) = Some (i, n) -> i < n -> zlen f = sa_size a ->
  exists frames, set_at (m_frames m) (slot l h i) f = Ok frames
    /\ frames !! Z.to_nat (slot l h i) = Some f /\ zlen frames = sa_ring a /\ Forall (fun f => zlen f = sa_size a) frames
    /\ forall q, p_cursor g <= q < p_cursor h + i -> intact a l (m <| m_frames := frames |>) q.
Proof.
  intros I Hb Hi Hf. pose proof I as []. cbn in *. destruct li_frames as [F1 F2]. pose proof (ly_index_range a l L (p_cursor h + i)) as R.
  unfold slot. rewrite set_at_ok by lia. eexists. split; [reflexivity|]. split_and!.
  - apply list_lookup_insert_eq. unfold zlen in *. lia.
  - unfold zlen in *. by rewrite length_insert.
  - by apply Forall_insert.
  - intros q Hq. unfold progress_of in li_intact. rewrite Hb in li_intact. destruct (li_intact q ltac:(lia)) as [Q1 Q2]. split; [|done].
    unfold framed_slot. cbn. pose proof (ly_index_range a l L q). pose proof (write_slot h g m i n q I Hb Hi Hq) as N. rewrite insert_slot by (lia || done). exact Q1.
Qed.
(** The host is still in the same batch and has written a slot. *)
Lemma host_writes h g m h' m' i n i' :
  inv h g m -> proc_inv a true h' -> p_phase h' = p_phase h -> p_cursor h' = p_cursor h -> p_peer h' = p_peer h ->
  batch_of (p_pc h) = Some (i, n) -> batch_of (p_pc h') = Some (i', n) ->
  c_published m' = c_published m -> c_completed m' = c_completed m -> c_phase_done m' = c_phase_done m -> m_report m' = m_report m ->
  zlen (m_frames m') = sa_ring a /\ Forall (fun f => zlen f = sa_size a) (m_frames m') -> zlen (m_descs m') = sa_ring a ->
  (forall q, p_cursor g <= q < p_cursor h + i' -> intact a l m' q) ->
  match p_pc h' with Describe i _ | Described i _ => framed_slot a l m' (p_cursor h + i) | _ => True end ->
  inv h' g m'.
Proof.
  intros [] P E1 E2 E3 Hb Hb' M1 M2 M3 M4 F D Hi Hf. cbn in *. rewrite Hb in *.
  constructor; cbn; unfold progress_of; rewrite ?E1, ?E2, ?E3, ?Hb', ?M1, ?M2, ?M3, ?M4; try done; by destruct (p_pc h').
Qed.
Lemma host_fill inp h g m i n : input_ok inp -> inv h g m -> p_pc h = Fill i n -> host_moves h g m (proc_step a l true inp h m).
Proof.
  intros Hi I Hp. unfold proc_step. rewrite Hp. assert (batch_of (p_pc h) = Some (i, n)) as Hb by (by rewrite Hp).
  pose proof I as []. cbn in * |- . pose proof li_host as []. rewrite Hp in * |- . cbn in * |- . destruct pi_batch as (B1 & B2 & B3 & [?|B4]); [done|].
  destruct (host_frame h g m i n (i_torn inp) I ltac:(by rewrite Hp) B4 Hi) as (frames & -> & F1 & F2 & F3 & F4). cbn [obind].
  specialize (pi_after ltac:(lia)). eexists _, _. split; [reflexivity|]. apply (host_writes h g m _ _ i n i); rewrite ?Hp; try done. pinv.
Qed.
Lemma host_filled inp h g m i n : inv h g m -> p_pc h = Filled i n -> host_moves h g m (proc_step a l true inp h m).
Proof.
  intros I Hp. unfold proc_step. rewrite Hp. pose proof I as []. cbn in * |- . pose proof li_host as []. rewrite Hp in * |- . cbn in * |- .
  destruct pi_batch as (B1 & B2 & B3 & [?|B4]); [done|]. specialize (pi_after ltac:(lia)). pose proof (ly_index_range a l L (p_cursor h + i)) as Ri.
  destruct li_frames as [Fl Ff]. destruct (lookup_lt_is_Some_2 (m_frames m) (Z.to_nat (slot l h i))) as [old Eo]; [unfold slot, zlen in *; lia|].
  rewrite (get_at_ok _ _ old) by (done || (unfold slot; lia)). cbn [obind].
  destruct (produced_ok h i n old ltac:(lia) ltac:(lia) ltac:(by eapply (Forall_lookup_1 _ _ _ _ Ff Eo)) ltac:(apply pi_scratch; lia)) as (sc & -> & Ls). cbn [obind].
  destruct (host_frame h g m i n (gen (sa_size a) (p_cursor h + i)) I ltac:(by rewrite Hp) B4 ltac:(apply gen_length; pose proof (lo_size _ _ L); lia)) as (frames & -> & F1 & F2 & F3 & F4).
  cbn [obind]. eexists _, _. split; [reflexivity|]. apply (host_writes h g m _ _ i n i); rewrite ?Hp; try done.
  pinv.
Qed.
Lemma host_desc h g m i n d :
  inv h g m -> batch_of (p_pc h) = Some (i, n) -> i < n ->
  exists descs, set_at (m_descs m) (slot l h i) d = Ok descs
    /\ descs !! Z.to_nat (slot l h i) = Some d /\ zlen descs = sa_ring a
    /\ forall q, p_cursor g <= q < p_cursor h + i -> intact a l (m <| m_descs := descs |>) q.
Proof.
  intros I Hb Hi. pose proof I as []. cbn in *. pose proof (ly_index_range a l L (p_cursor h + i)) as R.
  unfold slot. rewrite set_at_ok by lia. eexists. split; [reflexivity|]. split_and!.
  - apply list_lookup_insert_eq. unfold zlen in *. lia.
  - unfold zlen in *. by rewrite length_insert.
  - intros q Hq. unfold progress_of in li_intact. rewrite Hb in li_intact. destruct (li_intact q ltac:(lia)) as [Q1 Q2]. split; [done|].
    cbn. pose proof (ly_index_range a l L q). pose proof (write_slot h g m i n q I Hb Hi Hq) as N. rewrite insert_slot by (lia || done). exact Q2.
Qed.
Lemma host_describe inp h g m i n : inv h g m -> p_pc h = Describe i n -> host_moves h g m (proc_step a l true inp h m).
Proof.
  intros I Hp. unfold proc_step. rewrite Hp. pose proof I as []. cbn in * |- . pose proof li_host as []. rewrite Hp in * |- . cbn in * |- .
  destruct pi_batch as (B1 & B2 & B3 & [?|B4]); [done|]. specialize (pi_after ltac:(lia)).
  destruct (host_desc h g m i n (i_torn_desc inp) I ltac:(by rewrite Hp) B4) as (descs & -> & F1 & F2 & F3). cbn [obind].
  eexists _, _. split; [reflexivity|]. apply (host_writes h g m _ _ i n i); rewrite ?Hp; try done. pinv.
Qed.
Lemma host_described inp h g m i n : inv h g m -> p_pc h = Described i n -> host_moves h g m (proc_step a l true inp h m).
Proof.
  intros I Hp. unfold proc_step. rewrite Hp. pose proof I as []. cbn in * |- . pose proof li_host as []. rewrite Hp in * |- . cbn in * |- .
  destruct pi_batch as (B1 & B2 & B3 & [?|B4]); [done|]. specialize (pi_after ltac:(lia)). pose proof (lo_size _ _ L) as Sz.
  destruct (host_desc h g m i n (mkDescriptor (ly_offset l (p_cursor h + i)) (p_cursor h + i) (u32 (sa_size a)) 0) I ltac:(by rewrite Hp) B4) as (descs & -> & F1 & F2 & F3).
  cbn [obind]. eexists _, _. split; [reflexivity|]. unfold u32 in F1. rewrite Z.mod_small in F1 by (unfold W32; lia).
  assert (forall q, p_cursor g <= q < p_cursor h + (i + 1) -> intact a l (m <| m_descs := descs |>) q) as Hin.
  { intros q Hq. destruct (decide (q = p_cursor h + i)) as [-> |N]; [|apply F3; lia]. split; [exact li_filled|exact F1]. }
  unfold next_slot. destruct (i + 1 <? n) eqn:En; bools.
  - apply (host_writes h g m _ _ i n (i + 1)); rewrite ?Hp; try done. pinv.
  - replace (i + 1) with n in Hin by lia. apply (host_writes h g m _ _ i n n); rewrite ?Hp; try done. pinv.
Qed.
Lemma shm_count_small n x : 0 <= x + n < W64 -> count n x = x + n.
Proof. intros. unfold count. by apply Z.mod_small. Qed.
Lemma total_small : sa_warmup a + sa_packets a < W64.
Proof. pose proof (lo_total _ _ L) as T. unfold U64MAX, W64 in *. Z.div_mod_to_equations. lia. Qed.
Lemma last_range phase : 0 <= first_of a phase /\ last_of a phase <= sa_warmup a + sa_packets a.
Proof. pose proof L as [_ _ _ _ L1 L2 _ _ _ _]. unfold first_of, last_of. destruct (phase =? 2), (phase =? 1); lia. Qed.
(** The end of a batch: its packets are counted. *)
Lemma shm_release_inv side p n : proc_inv a side p -> p_pc p = Release n ->
  proc_inv a side (goto Notify (proc_stat (fun s => s <| st_packets ::= count n |> <| st_batches ::= count 1 |>) (p <| p_cursor ::= Z.add n |>))).
Proof.
  intros [] Hp. rewrite Hp in *. cbn in *. specialize (pi_after ltac:(lia)). destruct pi_batch as (B1 & B2 & B3 & _).
  pose proof total_small. pose proof (last_range (p_phase p)) as [R1 R2]. pinv. rewrite shm_count_small; lia.
Qed.
Lemma host_release inp h g m n : inv h g m -> p_pc h = Release n -> host_moves h g m (proc_step a l true inp h m).
Proof.
  intros I Hp. unfold proc_step, release_batch. rewrite Hp. pose proof I as []. cbn in * |- . eexists _, _. split; [reflexivity|].
  pose proof (shm_release_inv true h n li_host Hp) as P. pose proof li_host as []. rewrite Hp in * |- . cbn in * |- . unfold progress_of in *. cbn in *.
  destruct pi_batch as (B1 & B2 & B3 & _). constructor; cbn; unfold progress_of; cbn; try done; try lia. intros q Hq. apply li_intact. lia.
Qed.
Lemma notify_cases inp p : p_pc p = Notify ->
  idles p (bell_notify a inp p) \/ (p_pc (bell_notify a inp p) = Top /\ idles p (goto Notify (bell_notify a inp p))).
Proof.
  intros Hp. unfold bell_notify. destruct (sa_wait a).
  { right. split; [done|]. unfold idles. split_and!; try done. left. by rewrite Hp. }
  destruct (p_closed p); [left; by apply idles_failed|]. destruct (_ =? 8).
  { right. split; [done|]. unfold idles. split_and!; try done. left. by rewrite Hp. }
  destruct (i_write inp).2; try (left; by apply idles_failed); [|left; apply idles_refl].
  right. split; [done|]. unfold idles. split_and!; try done. left. by rewrite Hp.
Qed.
Lemma top_inv side p : proc_inv a side p -> p_pc p = Notify -> proc_inv a side (goto Top p).
Proof. intros [] Hp. rewrite Hp in *. cbn in *. specialize (pi_after ltac:(lia)). pinv. Qed.
Lemma goto_goto pc p : p_pc p = pc -> goto pc p = p.
Proof. intros <-. by destruct p. Qed.
Lemma host_notify inp h g m : inv h g m -> p_pc h = Notify -> host_moves h g m (proc_step a l true inp h m).
Proof.
  intros I Hp. unfold proc_step. rewrite Hp. destruct (notify_cases inp h Hp) as [A|[E A]]; [by apply host_stays; rewrite ?Hp|].
  eexists _, _. split; [reflexivity|]. pose proof (host_idles h g m _ I A ltac:(by rewrite Hp)) as J. set (h' := bell_notify a inp h) in *. clearbody h'.
  pose proof J as []. cbn in *. pose proof (top_inv true _ li_host eq_refl) as P. rewrite <- (goto_goto Top h' E).
  apply (host_goes (goto Notify h')); try done.
Qed.
Lemma host_drain inp h g m : inv h g m -> p_pc h = Drain -> host_moves h g m (proc_step a l true inp h m).
Proof.
  intros I Hp. unfold proc_step. rewrite Hp. pose proof I as []. cbn in * |- . pose proof li_host as []. rewrite Hp in * |- . cbn in * |- .
  specialize (pi_after ltac:(lia)). specialize (pi_ended eq_refl). destruct (_ =? p_end h) eqn:E; bools.
  2: { apply host_stays; [done|apply wait_idle_idles|by rewrite Hp]. }
  eexists _, _. split; [reflexivity|]. apply (host_goes h); cbn; rewrite ?Hp; try done; [|lia]. pinv.
Qed.
Lemma host_finish inp h g m : inv h g m -> p_pc h = Finish -> host_moves h g m (proc_step a l true inp h m).
Proof.
  intros I Hp. unfold proc_step, finish_stats. rewrite Hp. pose proof I as []. cbn in * |- . pose proof li_host as []. rewrite Hp in * |- . cbn in * |- .
  specialize (pi_after ltac:(lia)). destruct (i_cpu inp) as [e|[u t]]; [apply host_stays; [done|by apply idles_failed|by rewrite Hp]|].
  eexists _, _. split; [reflexivity|]. apply (host_goes h); cbn; rewrite ?Hp; try done. pinv.
Qed.
Lemma host_wait_done inp h g m : inv h g m -> p_pc h = WaitDone -> host_moves h g m (proc_step a l true inp h m).
Proof.
  intros I Hp. unfold proc_step. rewrite Hp.
  match goal with |- context [wait_for a inp ?x ?y ?n h] => destruct (wait_for_cases a inp x y n h) as [[Ed ->]|A] end; [|by apply host_stays; rewrite ?Hp].
  pose proof I as []. cbn in * |- . pose proof li_host as []. rewrite Hp in * |- . cbn in * |- . specialize (pi_after ltac:(lia)). specialize (pi_ended eq_refl).
  eexists _, _. split; [reflexivity|]. rewrite li_done in Ed. cbn [p_phase stall_progress]. change (p_phase (stall_progress h)) with (p_phase h).
  pose proof (ring_pos a l L) as Rp. destruct (p_phase h =? 1) eqn:E1; bools.
  - assert (p_phase g = 2) as G2 by (destruct (p_pc g), (p_phase g =? 2) eqn:E2; bools; lia).
    pose proof (start_run_inv true 2 (stall_progress h) (or_intror eq_refl)) as P. cbn [first_of last_of Z.eqb Pos.eqb] in P.
    assert (p_cursor h = sa_warmup a) as C by (rewrite pi_ended, pi_end, E1; done).
    constructor; cbn; unfold progress_of in *; rewrite ?Hp in *; cbn in *; try done; try lia.
  - assert (p_phase h = 2) as H2 by lia. assert (p_pc g = Exited) as Gx by (destruct (p_pc g), (p_phase g =? 2) eqn:E2; bools; lia || done).
    constructor; cbn; unfold progress_of in *; rewrite ?Hp in *; cbn in *; try done; try lia.
Qed.
Lemma host_read_report inp h g m : inv h g m -> p_pc h = ReadReport -> host_moves h g m (proc_step a l true inp h m).
Proof.
  intros I Hp. unfold proc_step. rewrite Hp. destruct (i_child inp); [|apply host_stays; [done|by apply idles_failed|by rewrite Hp]].
  pose proof I as []. cbn in * |- . pose proof li_host as []. rewrite Hp in * |- . cbn in * |- . specialize (pi_after ltac:(lia)).
  eexists _, _. split; [reflexivity|]. rewrite li_joined in *. constructor; cbn; unfold progress_of in *; rewrite ?Hp, ?li_joined in *; cbn in *; try done; try lia. pinv.
  intros _. apply pi_last. by right; left.
Qed.
Lemma host_step_ok inp h g m : input_ok inp -> inv h g m -> host_moves h g m (proc_step a l true inp h m).
Proof.
  intros Hi I. pose proof (pi_pc _ _ _ (li_host _ _ _ I)) as S. cbn in S. destruct (p_pc h) as [| | | | | | |i n|i n|i n|i n|i n|i n|n| | | | | | | | |f] eqn:Hp; try done.
  - by apply host_wait_ready.
  - by apply host_wait_armed.
  - by apply host_start_phase.
  - by apply host_top.
  - by eapply host_fill.
  - by eapply host_filled.
  - by eapply host_describe.
  - by eapply host_described.
  - by eapply host_release.
  - by apply host_notify.
  - by apply host_drain.
  - by apply host_finish.
  - by apply host_wait_done.
  - by apply host_read_report.
  - unfold proc_step. rewrite Hp. by exists h, m.
  - unfold proc_step. rewrite Hp. by exists h, m.
Qed.

(** ** The guest *)
Definition guest_moves h g m (res : outcome (Proc * Shm)) : Prop := exists g' m', res = Ok (g', m') /\ inv h g' m'.
Lemma guest_stays h g m g' : inv h g m -> idles g g' -> batch_of (p_pc g) = None -> p_pc g <> Exited -> guest_moves h g m (Ok (g', m)).
Proof. intros. exists g', m. split; [done|]. by eapply guest_idles. Qed.
Lemma host_not_joined h g m : inv h g m -> p_pc g <> Exited -> match p_pc h with ReadReport | Exited => False | _ => True end.
Proof. intros [] N. cbn in *. by destruct (p_pc h). Qed.
(** The guest goes on, with the ring unchanged. *)
Lemma guest_goes h g m g' m' :
  inv h g m -> proc_inv a false g' -> p_pc g <> Exited -> p_phase g' = p_phase g -> p_cursor g' = p_cursor g ->
  m_frames m' = m_frames m -> m_descs m' = m_descs m -> c_published m' = c_published m -> c_completed m' = c_completed m -> c_phase_done m' = c_phase_done m ->
  p_cursor g <= p_peer g' <= p_cursor h ->
  match batch_of (p_pc g') with Some (_, n) => p_cursor g + n <= p_peer g' | None => True end ->
  p_log g' = seqZ 0 (p_cursor g + progress_of (p_pc g')) ->
  match p_pc g' with Exited => False | SignalDone => p_phase g = 2 -> st_packets (m_report m') = sa_packets a | _ => True end ->
  inv h g' m'.
Proof.
  intros I P N E1 E2 M1 M2 M3 M4 M5 E3 E4 E5 E6. pose proof (host_not_joined h g m I N) as J. destruct I. cbn in *.
  constructor; cbn; rewrite ?E1, ?E2, ?E5, ?M1, ?M2, ?M3, ?M4, ?M5; try done.
  - intros q Hq. destruct (li_intact q Hq) as [Q1 Q2]. unfold intact, framed_slot. by rewrite M1, M2.
  - unfold framed_slot. by rewrite M1.
  - rewrite li_done. destruct (p_pc g'); try done; by destruct (p_pc g).
  - by destruct (p_pc h).
  - by destruct (p_pc g').
Qed.
Lemma guest_signal_ready inp h g m : inv h g m -> p_pc g = SignalReady -> guest_moves h g m (proc_step a l false inp g m).
Proof.
  intros I Hp. unfold proc_step. rewrite Hp. eexists _, _. split; [reflexivity|].
  pose proof (start_run_inv false 1 g (or_introl eq_refl)) as P. cbn [first_of last_of Z.eqb Pos.eqb] in P.
  pose proof (host_not_joined h g m I ltac:(by rewrite Hp)) as J. pose proof I as []. cbn in * |- . pose proof li_guest as []. rewrite Hp in * |- . cbn in * |- .
  specialize (pi_before eq_refl). assert (p_cursor g = 0) as C0 by (unfold first_of, last_of in *; rewrite pi_before in *; cbn in *; lia).
  assert (p_phase h <> 2) as Nh by (intros E2; specialize (li_phases E2); lia). unfold progress_of in *. rewrite ?Hp in *. cbn in *.
  constructor; cbn; unfold progress_of; cbn; rewrite ?C0 in *; try done; try lia.
  - by rewrite li_done, pi_before.
  - by destruct (p_pc h).
Qed.
Lemma guest_arm inp h g m : inv h g m -> p_pc g = Arm -> guest_moves h g m (proc_step a l false inp g m).
Proof.
  intros I Hp. unfold proc_step. rewrite Hp. eexists _, _. split; [reflexivity|]. pose proof I as []. cbn in * |- . pose proof li_guest as []. rewrite Hp in * |- . cbn in * |- .
  specialize (pi_after ltac:(lia)). apply (guest_goes h g m); rewrite ?Hp; try done. pinv.
Qed.
Lemma guest_wait_phase inp h g m : inv h g m -> p_pc g = WaitPhase -> guest_moves h g m (proc_step a l false inp g m).
Proof.
  intros I Hp. unfold proc_step. rewrite Hp.
  match goal with |- context [wait_for a inp ?x ?y ?n g] => destruct (wait_for_cases a inp x y n g) as [[Ed ->]|A] end; [|by apply guest_stays; rewrite ?Hp].
  unfold clocked. destruct (i_cpu inp) as [e|c].
  { apply guest_stays; rewrite ?Hp; try done. unfold idles. split_and!; try done. right. by exists (Os e). }
  eexists _, _. split; [reflexivity|]. pose proof I as []. cbn in * |- . pose proof li_guest as []. rewrite Hp in * |- . cbn in * |- .
  specialize (pi_after ltac:(lia)). apply (guest_goes h g m); rewrite ?Hp; try done. pinv.
Qed.
(** What the host has published never exceeds the end of the guest's phase. *)
Lemma published_bound h g m : inv h g m -> 1 <= p_phase g -> p_cursor h <= last_of a (p_phase g).
Proof.
  intros [] Hg. cbn in *. destruct li_host as [_ Hp _ _ He [_ Hr] _ _ _ _ _ _ _]. rewrite He in Hr. pose proof L as [_ _ _ _ L1 L2 _ _ _ _].
  destruct li_guest as [_ Gp _ _ _ _ _ _ _ _ _ _ _]. unfold last_of in *. destruct Hp as [Hp|[Hp|Hp]]; rewrite Hp in *; cbn in Hr;
    [| |rewrite (li_phases eq_refl); cbn; lia]; destruct Gp as [Gp|[Gp|Gp]]; rewrite ?Gp in *; cbn; lia.
Qed.
Lemma guest_top inp h g m : inv h g m -> p_pc g = Top -> guest_moves h g m (proc_step a l false inp g m).
Proof.
  intros I Hp. unfold proc_step, loop_top. rewrite Hp. pose proof I as []. cbn in * |- . pose proof li_guest as []. rewrite Hp in * |- . cbn in * |- .
  specialize (pi_after ltac:(lia)). assert (1 <= p_phase g) as G1 by lia. pose proof (published_bound h g m I G1) as Pb. rewrite <- pi_end in Pb.
  unfold progress_of in li_log. cbn in li_log. pose proof (last_range (p_phase g)) as [Fr _].
  destruct (p_cursor g <? p_end g) eqn:Ec; bools.
  2: { eexists _, _. split; [reflexivity|]. apply (guest_goes h g m); rewrite ?Hp; try done. pinv. }
  set (reload := _ <? sa_batch a). set (peer := if reload then _ else _).
  assert (p_cursor g <= peer <= p_cursor h) as Hpeer by (unfold peer; destruct reload; [rewrite li_published|]; lia).
  assert (reload && bad_peer a false g peer = false) as ->.
  { apply andb_false_iff. right. unfold bad_peer. bools. lia. }
  set (n := Z.min _ _). set (g1 := g <| p_peer := peer |>).
  assert (inv h g1 m) as I1.
  { apply (guest_goes h g m); cbn; unfold progress_of; rewrite ?Hp; cbn; try done. unfold g1. constructor; cbn; rewrite ?Hp; cbn; done || lia. }
  destruct (n =? 0) eqn:En; bools.
  { destruct (guest_stays h g1 m (wait_idle a inp g1) I1 (wait_idle_idles a inp g1) ltac:(cbn; by rewrite Hp) ltac:(cbn; by rewrite Hp)) as (g' & m' & E & J). by exists g', m'. }
  destruct (batch_size n (proc_available a false g1 peer) (p_end g1 - p_cursor g1) eq_refl) as (N1 & N2 & N3); [unfold proc_available; cbn; lia|cbn; lia|done|].
  unfold proc_available in N2. cbn in N2, N3. eexists _, _. split; [reflexivity|].
  apply (guest_goes h g m); cbn; rewrite ?Hp; try done; try lia. pinv.
Qed.
(** What the guest reads is intact. *)
Lemma guest_slot h g m i n : inv h g m -> batch_of (p_pc g) = Some (i, n) -> i < n -> intact a l m (p_cursor g + i).
Proof.
  intros [] Hb Hi. cbn in *. destruct li_guest as [_ _ _ _ _ _ _ _ _ _ Bg _ _]. destruct li_host as [_ _ _ _ _ _ _ _ _ _ Bh _ _]. rewrite Hb in *.
  apply li_intact. unfold progress_of. destruct (batch_of (p_pc h)) as [[j k]|]; lia.
Qed.
Lemma guest_read_desc inp h g m i n : inv h g m -> p_pc g = ReadDesc i n -> guest_moves h g m (proc_step a l false inp g m).
Proof.
  intros I Hp. unfold proc_step. rewrite Hp. pose proof I as []. cbn in * |- . pose proof li_guest as []. rewrite Hp in * |- . cbn in * |- .
  destruct pi_batch as (B1 & B2 & B3 & [?|B4]); [done|]. specialize (pi_after ltac:(lia)). pose proof (ly_index_range a l L (p_cursor g + i)) as Ri.
  destruct (guest_slot h g m i n I ltac:(by rewrite Hp) B4) as [_ D]. unfold slot. rewrite (get_at_ok _ _ _ (proj1 Ri) D). cbn [obind].
  unfold ly_validate. cbn [d_sequence d_len d_reserved d_offset]. rewrite !Z.eqb_refl. cbn [andb].
  eexists _, _. split; [reflexivity|]. apply (guest_goes h g m); rewrite ?Hp; try done. pinv.
Qed.
Lemma seqZ_snoc k : 0 <= k -> seqZ 0 k ++ [k] = seqZ 0 (k + 1).
Proof. intros. rewrite seqZ_app by lia. by rewrite Z.add_0_l. Qed.
Lemma guest_verify inp h g m i n : inv h g m -> p_pc g = Verify i n -> guest_moves h g m (proc_step a l false inp g m).
Proof.
  intros I Hp. unfold proc_step. rewrite Hp. pose proof I as []. cbn in * |- . pose proof li_guest as []. rewrite Hp in * |- . cbn in * |- .
  destruct pi_batch as (B1 & B2 & B3 & [?|B4]); [done|]. specialize (pi_after ltac:(lia)). pose proof (ly_index_range a l L (p_cursor g + i)) as Ri.
  pose proof (lo_size _ _ L) as Sz. pose proof (last_range (p_phase g)) as [Fr _].
  destruct (guest_slot h g m i n I ltac:(by rewrite Hp) B4) as [F _]. unfold slot. rewrite (get_at_ok _ _ _ (proj1 Ri) F). cbn [obind].
  destruct (consumed_ok g i n (gen (sa_size a) (p_cursor g + i)) ltac:(lia) ltac:(lia) ltac:(apply gen_length; lia) ltac:(apply pi_scratch; lia)) as (sc & -> & Ls).
  cbn [obind]. rewrite validate_gen by lia. eexists _, _. split; [reflexivity|].
  assert (p_log g ++ [p_cursor g + i] = seqZ 0 (p_cursor g + (i + 1))) as Lg.
  { rewrite li_log. unfold progress_of. cbn. rewrite seqZ_snoc by lia. f_equal. lia. }
  assert (zlen sc = if copying a false then sa_batch a * sa_size a else 0) as Lsc by (rewrite Ls; apply pi_scratch; lia).
  unfold next_slot. destruct (i + 1 <? n) eqn:En; bools.
  - apply (guest_goes h g m); rewrite ?Hp; try done. pinv.
  - replace (i + 1) with n in Lg by lia. apply (guest_goes h g m); rewrite ?Hp; try done. pinv.
Qed.
Lemma guest_release inp h g m n : inv h g m -> p_pc g = Release n -> guest_moves h g m (proc_step a l false inp g m).
Proof.
  intros I Hp. unfold proc_step, release_batch. rewrite Hp. pose proof (host_not_joined h g m I ltac:(by rewrite Hp)) as J. pose proof I as []. cbn in * |- .
  eexists _, _. split; [reflexivity|]. pose proof (shm_release_inv false g n li_guest Hp) as P. pose proof li_guest as []. rewrite Hp in * |- . cbn in * |- .
  unfold progress_of in *. cbn in *. destruct pi_batch as (B1 & B2 & B3 & _). pose proof li_host as [_ _ _ _ _ _ _ _ _ _ Bh _ _].
  constructor; cbn; unfold progress_of; cbn; try done; try lia.
  - intros q Hq. apply li_intact. lia.
  - destruct (p_pc h); done || lia.
  - by destruct (p_pc h).
  - rewrite li_log, Z.add_0_r. f_equal. lia.
Qed.
Lemma guest_notify inp h g m : inv h g m -> p_pc g = Notify -> guest_moves h g m (proc_step a l false inp g m).
Proof.
  intros I Hp. unfold proc_step. rewrite Hp. destruct (notify_cases inp g Hp) as [A|[E A]]; [by apply guest_stays; rewrite ?Hp|].
  eexists _, _. split; [reflexivity|]. pose proof (guest_idles h g m _ I A ltac:(by rewrite Hp) ltac:(by rewrite Hp)) as J. set (g' := bell_notify a inp g) in *. clearbody g'.
  pose proof J as []. cbn in *. pose proof (top_inv false _ li_guest eq_refl) as P. rewrite <- (goto_goto Top g' E).
  apply (guest_goes h (goto Notify g') m); try done.
Qed.
Lemma guest_finish inp h g m : inv h g m -> p_pc g = Finish -> guest_moves h g m (proc_step a l false inp g m).
Proof.
  intros I Hp. unfold proc_step, finish_stats. rewrite Hp. pose proof I as []. cbn in * |- . pose proof li_guest as []. rewrite Hp in * |- . cbn in * |- .
  specialize (pi_after ltac:(lia)). destruct (i_cpu inp) as [e|[u t]]; [apply guest_stays; rewrite ?Hp; try done; by apply idles_failed|].
  eexists _, _. split; [reflexivity|]. destruct (p_phase g =? 1) eqn:E1; bools; apply (guest_goes h g m); rewrite ?Hp; try done; [pinv|cbn; intros; lia|pinv].
Qed.
Lemma guest_write_report inp h g m : inv h g m -> p_pc g = WriteReport -> guest_moves h g m (proc_step a l false inp g m).
Proof.
  intros I Hp. unfold proc_step. rewrite Hp. pose proof I as []. cbn in * |- . pose proof li_guest as []. rewrite Hp in * |- . cbn in * |- .
  specialize (pi_after ltac:(lia)). specialize (pi_ended eq_refl). assert (p_phase g = 2) as G2 by (apply pi_last; by left).
  eexists _, _. split; [reflexivity|]. apply (guest_goes h g m); rewrite ?Hp; try done.
  cbn. intros _. rewrite pi_stats, pi_ended, pi_end, G2. unfold first_of, last_of. cbn. lia.
Qed.
Lemma guest_signal_done inp h g m : inv h g m -> p_pc g = SignalDone -> guest_moves h g m (proc_step a l false inp g m).
Proof.
  intros I Hp. unfold proc_step. rewrite Hp. pose proof (host_not_joined h g m I ltac:(by rewrite Hp)) as J. pose proof I as []. cbn in * |- .
  pose proof li_guest as []. rewrite Hp in * |- . cbn in * |- . specialize (pi_after ltac:(lia)). specialize (pi_ended eq_refl).
  eexists _, _. split; [reflexivity|]. unfold progress_of in *. cbn in *. destruct (p_phase g =? 1) eqn:E1; bools.
  - pose proof (start_run_inv false 2 g (or_intror eq_refl)) as P. cbn [first_of last_of Z.eqb Pos.eqb] in P.
    assert (p_cursor g = sa_warmup a) as C by (rewrite pi_ended, pi_end, E1; done).
    constructor; cbn; unfold progress_of; cbn; rewrite ?C in *; try done; try lia. by destruct (p_pc h).
  - assert (p_phase g = 2) as G2 by lia. constructor; cbn; unfold progress_of; cbn; try done; try (by apply li_report). by destruct (p_pc h).
Qed.
Lemma guest_step_ok inp h g m : inv h g m -> guest_moves h g m (proc_step a l false inp g m).
Proof.
  intros I. pose proof (pi_pc _ _ _ (li_guest _ _ _ I)) as S. cbn in S. destruct (p_pc g) as [| | | | | | |i n|i n|i n|i n|i n|i n|n| | | | | | | | |f] eqn:Hp; try done.
  - by apply guest_signal_ready.
  - by apply guest_arm.
  - by apply guest_wait_phase.
  - by apply guest_top.
  - by eapply guest_read_desc.
  - by eapply guest_verify.
  - by eapply guest_release.
  - by apply guest_notify.
  - by apply guest_finish.
  - by apply guest_signal_done.
  - by apply guest_write_report.
  - unfold proc_step. rewrite Hp. by exists g, m.
  - unfold proc_step. rewrite Hp. by exists g, m.
Qed.
End Steps.
