(* ===== verification/ShmNicLive.v ===== *)
(** * The shared-memory NIC: runs, and why they come to an end

    Every run keeps the invariant, under every interleaving.  The work that is left for the two processes is a number that
    every step lowers, unless the step waits; the handshake excludes that both processes wait. *)
From Stdlib Require Import ZArith Lia Bool.
From stdpp Require Import base numbers option list.
From S2P Require Import Prelude VhostMemory VhostMemoryProps VhostQueue VhostQueueProps ShmNic ShmNicInv ShmNicStep.
#[local] Open Scope Z_scope.

Definition lab_failed (s : Lab) : Prop := (exists f, p_pc (lab_host s) = Failed f) \/ (exists f, p_pc (lab_guest s) = Failed f).
Definition lab_done (s : Lab) : Prop := p_pc (lab_host s) = Exited /\ p_pc (lab_guest s) = Exited.
(** The slot that a process is accessing. *)
Definition accessing (l : ShmLayout) (p : Proc) : option Z :=
  match p_pc p with
  | Fill i _ | Filled i _ | Describe i _ | Described i _ | ReadDesc i _ | Verify i _ => Some (slot l p i)
  | _ => None
  end.
Section Runs.
Context (a : ShmArgs) (l : ShmLayout) (L : layout_ok a l).
Lemma lab_start_inv : lab_inv a l (lab_start a).
Proof.
  pose proof L as [_ _ L1 L2 L3 L4 _ _ _ _]. pose proof (ring_pos a l L) as R.
  constructor; cbn; try done; try lia; try (constructor; cbn; try done; try lia; try (by left); intros [?|[?|?]]; done).
  - split; [rewrite zlen_replicate; lia|]. apply Forall_replicate. rewrite zlen_replicate. lia.
  - rewrite zlen_replicate. lia.
Qed.
Lemma lab_step_ok side inp s : input_ok a inp -> lab_inv a l s -> exists s', lab_step a l side inp s = Ok s' /\ lab_inv a l s'.
Proof.
  intros Hi I. destruct s as [h g m]. unfold lab_step. cbn [lab_host lab_guest lab_shm]. destruct side.
  - destruct (host_step_ok a l L inp h g m Hi I) as (h' & m' & -> & J). cbn. by eexists.
  - destruct (guest_step_ok a l L inp h g m I) as (g' & m' & -> & J). cbn. by eexists.
Qed.
Lemma lab_run_ok sched s : Forall (fun e => input_ok a e.2) sched -> lab_inv a l s -> exists s', lab_run a l sched s = Ok s' /\ lab_inv a l s'.
Proof.
  intros F. revert s. induction F as [|[side inp] sched Hi F IH]; intros s I; cbn; [by exists s|].
  destruct (lab_step_ok side inp s Hi I) as (s1 & -> & I1). cbn. by apply IH.
Qed.
(** The host writes slots outside of what the guest may read. *)
Lemma accesses_apart s i j : lab_inv a l s -> accessing l (lab_host s) = Some i -> accessing l (lab_guest s) = Some j -> i <> j.
Proof.
  intros [] Hi Hj. destruct li_host as [Sh _ _ _ _ _ _ _ _ _ Bh _ _]. destruct li_guest as [Sg _ _ _ _ _ _ _ _ _ Bg _ _]. unfold accessing in *.
  assert (exists x n, batch_of (p_pc (lab_host s)) = Some (x, n) /\ i = slot l (lab_host s) x /\ x < n) as (x & n & Eh & -> & Hx).
  { destruct (p_pc (lab_host s)); try done; injection Hi as <-; cbn in Bh; destruct Bh as (_ & _ & _ & [?|?]); try done; by eexists _, _. }
  assert (exists y k, batch_of (p_pc (lab_guest s)) = Some (y, k) /\ j = slot l (lab_guest s) y /\ y < k) as (y & k & Eg & -> & Hy).
  { destruct (p_pc (lab_guest s)); try done; injection Hj as <-; cbn in Bg; destruct Bg as (_ & _ & _ & [?|?]); try done; by eexists _, _. }
  rewrite Eh, Eg in *. intros E. apply (ly_index_inj a l L) in E; lia.
Qed.
Lemma lab_done_result s : lab_inv a l s -> p_pc (lab_host s) = Exited ->
  p_log (lab_guest s) = seqZ 0 (sa_warmup a + sa_packets a) /\ st_packets (p_report (lab_host s)) = sa_packets a.
Proof.
  intros [] E. rewrite E in *. split; [|by apply li_result]. destruct li_host as [_ _ _ _ He _ _ Hd Hl _ _ _ _]. rewrite E in *.
  rewrite li_log. unfold progress_of. rewrite li_joined. cbn. rewrite Z.add_0_r. f_equal. rewrite li_drained, Hd, He, Hl by (done || by right; right). done.
Qed.
End Runs.

(** ** Handshake *)
Record hand_inv (s : Lab) : Prop := {
  hi_ready : c_ready (lab_shm s) = if p_phase (lab_guest s) =? 0 then 0 else 1;
  hi_ahead : p_phase (lab_host s) <= p_phase (lab_guest s);
  hi_armed : c_armed (lab_shm s) = match p_pc (lab_guest s) with Arm => p_phase (lab_guest s) - 1 | _ => p_phase (lab_guest s) end;
  hi_starting : stage (p_pc (lab_host s)) = 1 -> c_phase (lab_shm s) = p_phase (lab_host s) - 1;
  hi_started : stage (p_pc (lab_host s)) = 0 \/ stage (p_pc (lab_host s)) = 2 \/ stage (p_pc (lab_host s)) = 3 -> c_phase (lab_shm s) = p_phase (lab_host s);
  hi_phase : 0 <= c_phase (lab_shm s);
  hi_behind : p_phase (lab_guest s) - 1 <= c_phase (lab_shm s);
  hi_running : stage (p_pc (lab_guest s)) = 2 \/ stage (p_pc (lab_guest s)) = 3 -> p_phase (lab_guest s) <= c_phase (lab_shm s)
}.
(** What is left to do for a process. *)
Definition pc_work (pc : Pc) : Z :=
  match pc with
  | WaitReady | SignalReady | WaitArmed | Arm => 13
  | WaitPhase | StartPhase => 12
  | Notify => 11
  | Top => 10
  | Fill i _ | ReadDesc i _ => 9 - 4 * i
  | Filled i _ | Verify i _ => 8 - 4 * i
  | Describe i _ => 7 - 4 * i
  | Described i _ => 6 - 4 * i
  | Release n => 9 - 4 * n
  | Drain => 9
  | Finish => 8
  | WaitDone | WriteReport => 7
  | ReadReport | SignalDone => 6
  | Exited => 5
  | Failed _ => 0
  end.
Definition uninterrupted (inp : Input) : Prop := (i_write inp).1 = 8 \/ (i_write inp).2 <> Interrupted.
(** A process that waits for the other one. *)
Definition waits (a : ShmArgs) (side : bool) (p : Proc) (m : Shm) : Prop :=
  match p_pc p with
  | WaitReady => c_ready m <> 1
  | WaitArmed => c_armed m <> p_phase p
  | WaitPhase => c_phase m <> p_phase p
  | Top => p_cursor p < p_end p /\ if side then p_cursor p = c_completed m + sa_ring a else c_published m = p_cursor p
  | Drain => c_completed m <> p_end p
  | WaitDone => c_phase_done m <> p_phase p
  | Exited => True
  | _ => False
  end.
Section Live.
Context (a : ShmArgs) (l : ShmLayout) (L : layout_ok a l).
Definition work (p : Proc) : Z := 16 * (sa_warmup a + sa_packets a - p_cursor p) + 10 * (2 - p_phase p) + pc_work (p_pc p).
Definition holds_still (p p' : Proc) : Prop := p_pc p' = p_pc p /\ p_phase p' = p_phase p /\ p_cursor p' = p_cursor p /\ p_end p' = p_end p.
(** A step fails, or does some of the work, or waits. *)
Definition advances (side : bool) (p p' : Proc) (m m' : Shm) : Prop :=
  (exists f, p_pc p' = Failed f) \/ work p' < work p \/ (holds_still p p' /\ m' = m /\ waits a side p m).

Lemma idles_advances side p p' m : idles p p' -> waits a side p m -> advances side p p' m m.
Proof. intros ([A|(f & _ & A)] & A2 & A3 & A4 & _) W; [right; right; done|left; by exists f]. Qed.
Lemma wait_for_advances side inp seen value next p m :
  (seen <> value -> waits a side p m) -> (seen = value -> advances side p (next (stall_progress p)) m m) ->
  advances side p (wait_for a inp seen value next p) m m.
Proof.
  intros W N. destruct (decide (seen = value)) as [E|E].
  - unfold wait_for. rewrite (proj2 (Z.eqb_eq _ _) E). by apply N.
  - apply idles_advances; [|by apply W]. destruct (wait_for_cases a inp seen value next p) as [[? _]|A]; done.
Qed.
(** The staging buffer is all that a frame changes. *)
Lemma produced_still side p i old frame p' : produced a side p i old = Ok (frame, p') -> exists sc, p' = p <| p_scratch := sc |>.
Proof.
  unfold produced. destruct (copying a side).
  - destruct (slice _ _ _) as [st| | |]; try done. cbn. destruct (shm_generate _ _) as [st'| | |]; try done. cbn.
    destruct (copy_at _ _ _) as [sc| | |]; try done. cbn. destruct (copy_packet _ _) as [fr| | |]; try done. cbn. intros [= <- <-]. by exists sc.
  - destruct (shm_generate _ _) as [fr| | |]; try done. cbn. intros [= <- <-]. exists (p_scratch p). by destruct p.
Qed.
Lemma consumed_still side p i frame input p' : consumed a side p i frame = Ok (input, p') -> exists sc, p' = p <| p_scratch := sc |>.
Proof.
  unfold consumed. destruct (copying a side); [|intros [= <- <-]; exists (p_scratch p); by destruct p].
  destruct (slice _ _ _) as [st| | |]; try done. cbn. destruct (copy_packet _ _) as [fr| | |]; try done. cbn.
  destruct (copy_at _ _ _) as [sc| | |]; try done. cbn. intros [= <- <-]. by exists sc.
Qed.
Lemma notify_advances side inp p m : p_pc p = Notify -> uninterrupted inp -> advances side p (bell_notify a inp p) m m.
Proof.
  intros Hp U. assert (forall q, p_phase q = p_phase p -> p_cursor q = p_cursor p -> p_pc q = Top -> advances side p q m m) as Go.
  { intros q E1 E2 E3. right; left. unfold work. rewrite E1, E2, E3, Hp. cbn. lia. }
  unfold bell_notify. destruct (sa_wait a); [by apply Go|]. destruct (p_closed p); [left; by eexists|].
  destruct (_ =? 8) eqn:E8; [by apply Go|]. bools. destruct U as [U|U]; [done|].
  destruct ((i_write inp).2); try done; first [by apply Go|left; by eexists].
Qed.
Lemma top_advances side inp p m : p_pc p = Top -> advances side p (loop_top a side inp p m) m m.
Proof.
  intros Hp. pose proof (lo_batch _ _ L) as Bt. unfold loop_top. destruct (p_cursor p <? p_end p) eqn:Ec; bools.
  2: { right; left. unfold work. rewrite Hp. destruct side; cbn; lia. }
  set (reload := _ <? sa_batch a). set (peer := if reload then _ else _). destruct (reload && _); [left; by eexists|].
  set (p1 := p <| p_peer := peer |>). set (n := Z.min _ _). destruct (n =? 0) eqn:En; bools.
  - assert (waits a side p m) as W.
    { unfold waits. rewrite Hp. split; [done|]. assert (proc_available a side p1 peer = 0) as A by (unfold n in En; cbn in En; lia).
      unfold peer, reload, proc_available in *. cbn in A. destruct side, (_ <? sa_batch a) eqn:Er; bools; lia. }
    pose proof (wait_idle_idles a inp p1) as Q. destruct Q as ([A|(f & _ & A)] & A2 & A3 & A4 & _); [right; right; done|left; by exists f].
  - right; left. unfold work. rewrite Hp. destruct side; cbn; lia.
Qed.
Lemma next_slot_work side i n : i < n -> 0 <= i -> pc_work (next_slot side i n) <= 5 - 4 * i.
Proof. intros. unfold next_slot. destruct (i + 1 <? n) eqn:E; bools; [destruct side|]; cbn; lia. Qed.
Lemma start_run_work side p : p_phase p = 0 -> p_cursor p = 0 -> pc_work (p_pc p) = 13 -> work (start_run a side 1 0 (sa_warmup a) p) < work p.
Proof. intros E1 E2 E3. unfold work. rewrite E1, E2, E3. destruct side; cbn; lia. Qed.
Lemma next_run_work side p : p_phase p = 1 -> p_cursor p = sa_warmup a -> 6 <= pc_work (p_pc p) ->
  work (start_run a side 2 (sa_warmup a) (sa_warmup a + sa_packets a) p) < work p.
Proof. intros E1 E2 E3. unfold work. rewrite E1, E2. destruct side; cbn; lia. Qed.
Lemma still_work p q : p_phase q = p_phase p -> p_cursor q = p_cursor p -> pc_work (p_pc q) < pc_work (p_pc p) -> work q < work p.
Proof. unfold work. intros -> -> ?. lia. Qed.
Lemma clocked_advances side inp p m m' : pc_work (p_pc p) = 12 -> advances side p (clocked inp (goto Top) p) m m'.
Proof. intros E. unfold clocked. destruct (i_cpu inp); [left; by eexists|]. right; left. apply still_work; cbn; done || lia. Qed.
(** The steps of a batch. *)
Lemma batch_advances side inp p m p' m' i n :
  batch_of (p_pc p) = Some (i, n) -> proc_inv a side p -> proc_step a l side inp p m = Ok (p', m') -> advances side p p' m m'.
Proof.
  intros Hb P. pose proof P as [_ _ _ _ _ _ _ _ _ _ Bt _ _]. rewrite Hb in Bt. destruct Bt as (B1 & B2 & B3 & B4). unfold proc_step.
  destruct (p_pc p) as [| | | | | | |i' n'|i' n'|i' n'|i' n'|i' n'|i' n'|n'| | | | | | | | |f] eqn:Hp; try done; injection Hb as -> ->;
    try (destruct B4 as [B4|B4]; [done|]; pose proof (next_slot_work side i n B4 ltac:(lia)) as Nw).
  - destruct (set_at _ _ _); try done. cbn. intros [= <- <-]. right; left. apply still_work; rewrite ?Hp; cbn; done || lia.
  - destruct (get_at _ _) as [old| | |]; try done. cbn. destruct (produced a side p i old) as [[fr q]| | |] eqn:Ep; try done. cbn.
    apply produced_still in Ep as [sc ->]. destruct (set_at _ _ _); try done. cbn. intros [= <- <-]. right; left.
    apply still_work; rewrite ?Hp; cbn; done || lia.
  - destruct (set_at _ _ _); try done. cbn. intros [= <- <-]. right; left. apply still_work; rewrite ?Hp; cbn; done || lia.
  - destruct (set_at _ _ _); try done. cbn. intros [= <- <-]. right; left. apply still_work; rewrite ?Hp; cbn; done || lia.
  - destruct (get_at _ _) as [d| | |]; try done. cbn. destruct (ly_validate _ _ _ _); intros [= <- <-]; [|left; by eexists].
    right; left. apply still_work; rewrite ?Hp; cbn; done || lia.
  - destruct (get_at _ _) as [fr| | |]; try done. cbn. destruct (consumed a side p i fr) as [[input q]| | |] eqn:Ep; try done. cbn.
    apply consumed_still in Ep as [sc ->]. destruct (validate_frame _ _ _); intros [= <- <-]; [|left; by eexists].
    right; left. apply still_work; rewrite ?Hp; cbn; done || lia.
  - intros [= <- <-]. right; left. unfold work. rewrite Hp. cbn. lia.
Qed.
Lemma proc_advances side inp p m p' m' :
  proc_inv a side p -> uninterrupted inp -> proc_step a l side inp p m = Ok (p', m') -> advances side p p' m m'.
Proof.
  intros P U. destruct (batch_of (p_pc p)) as [[x y]|] eqn:Hb; [by eapply batch_advances|].
  pose proof P as [_ Pp Pb Pa Pe Pr _ Pd Pl _ _ _ _]. unfold proc_step.
  assert (p_phase p = 0 -> p_cursor p = 0) as C0 by (intros E; rewrite E in *; unfold first_of, last_of in *; cbn in *; lia).
  assert (stage (p_pc p) = 3 -> p_phase p = 1 -> p_cursor p = sa_warmup a) as C1 by (intros E1 E2; rewrite (Pd E1), Pe, E2; done).
  destruct (p_pc p) as [| | | | | | |i n|i n|i n|i n|i n|i n|n| | | | | | | | |f] eqn:Hp; cbn in Pb, Pa, Pd, C1; try done; try (specialize (Pb eq_refl)).
  - intros [= <- <-]. apply wait_for_advances; [by unfold waits; rewrite Hp|]. intros _. right; left. apply (start_run_work side (stall_progress p)); cbn; rewrite ?Hp; auto.
  - intros [= <- <-]. right; left. apply start_run_work; rewrite ?Hp; auto.
  - intros [= <- <-]. apply wait_for_advances; [by unfold waits; rewrite Hp|]. intros _. right; left. apply still_work; rewrite ?Hp; done.
  - intros [= <- <-]. right; left. apply still_work; rewrite ?Hp; done.
  - intros [= <- <-]. apply wait_for_advances; [by unfold waits; rewrite Hp|]. intros _.
    refine (clocked_advances side inp (stall_progress p) m m _). cbn. by rewrite Hp.
  - destruct (i_cpu inp) eqn:Ei; intros [= <- <-]; [left; by eexists|]. apply clocked_advances. by rewrite Hp.
  - intros [= <- <-]. by apply top_advances.
  - intros [= <- <-]. by apply notify_advances.
  - intros [= <- <-]. destruct (c_completed m =? p_end p) eqn:E; bools; [right; left; apply still_work; rewrite ?Hp; done|].
    apply idles_advances; [apply wait_idle_idles|]. unfold waits. by rewrite Hp.
  - intros [= <- <-]. unfold finish_stats. destruct (i_cpu inp) as [e|[u t]]; [left; by eexists|]. right; left.
    apply still_work; cbn; rewrite ?Hp; try done. destruct side, (p_phase p =? 1); cbn; lia.
  - intros [= <- <-]. apply wait_for_advances; [by unfold waits; rewrite Hp|]. intros _. right; left. cbn. destruct (p_phase p =? 1) eqn:E; bools.
    + apply (next_run_work side (stall_progress p)); cbn; rewrite ?Hp; cbn; auto. lia.
    + apply still_work; rewrite ?Hp; done.
  - intros [= <- <-]. right; left. destruct (p_phase p =? 1) eqn:E; bools; [apply next_run_work; rewrite ?Hp; cbn; auto; lia|apply still_work; rewrite ?Hp; done].
  - intros [= <- <-]. right; left. apply still_work; rewrite ?Hp; done.
  - destruct (i_child inp); intros [= <- <-]; [right; left; apply still_work; rewrite ?Hp; done|left; by eexists].
  - intros [= <- <-]. right; right. unfold waits. by rewrite Hp.
  - intros [= <- <-]. left. by eexists.
Qed.
(** ** The handshake holds *)
Definition is_failed (p : Proc) : Prop := exists f, p_pc p = Failed f.
Definition kept (m m' : Shm) : Prop := c_ready m' = c_ready m /\ c_armed m' = c_armed m /\ c_phase m' = c_phase m.
(** Steps within a phase, and the steps of the handshake. *)
Definition within (p p' : Proc) : Prop :=
  p_phase p' = p_phase p /\ p_pc p <> Arm /\ p_pc p' <> Arm
  /\ (is_failed p' \/ stage (p_pc p') = stage (p_pc p) \/ (stage (p_pc p) = 2 /\ stage (p_pc p') = 3)).
Definition handshake (p p' : Proc) (m m' : Shm) : Prop :=
  match p_pc p with
  | WaitReady => kept m m' /\ c_ready m = 1 /\ p_pc p' = WaitArmed /\ p_phase p' = 1
  | StartPhase => c_ready m' = c_ready m /\ c_armed m' = c_armed m /\ c_phase m' = p_phase p /\ p_pc p' = Top /\ p_phase p' = p_phase p
  | WaitDone => kept m m' /\ p_phase p = 1 /\ c_phase_done m = 1 /\ p_pc p' = WaitArmed /\ p_phase p' = 2
  | SignalReady => c_ready m' = 1 /\ c_armed m' = c_armed m /\ c_phase m' = c_phase m /\ p_pc p' = Arm /\ p_phase p' = 1
  | Arm => c_ready m' = c_ready m /\ c_armed m' = p_phase p /\ c_phase m' = c_phase m /\ p_pc p' = WaitPhase /\ p_phase p' = p_phase p
  | WaitPhase => kept m m' /\ c_phase m = p_phase p /\ p_pc p' = Top /\ p_phase p' = p_phase p
  | SignalDone => kept m m' /\ p_phase p = 1 /\ p_pc p' = Arm /\ p_phase p' = 2
  | _ => False
  end.
Definition hands (p p' : Proc) (m m' : Shm) : Prop := (kept m m' /\ within p p') \/ handshake p p' m m'.

Lemma hand_host h g m h' m' :
  lab_inv a l (mkLab h g m) -> hand_inv (mkLab h g m) -> hands h h' m m' -> hand_inv (mkLab h' g m').
Proof.
  intros [Ih Ig _ _ _ _ _ _ _ _ _ _ _ _ Id _ _ _ _ _] [Hr Ha Hm Hs Ht Hc Hb Hu] H. cbn in *. pose proof Ih as [Sh Ph Pb _ _ _ _ _ _ _ _ _ _]. pose proof Ig as [_ Pg _ _ _ _ _ _ _ _ _ _ _].
  destruct H as [[(K1 & K2 & K3) (W1 & _ & _ & W)]|H].
  - constructor; cbn; rewrite ?K1, ?K2, ?K3, ?W1; try done; destruct W as [[f W]|[W|[W W']]]; rewrite ?W, ?W'; cbn; try done; try lia.
  - unfold handshake in H. destruct (p_pc h) eqn:Hp; try done; cbn in Sh; try done; cbn in *.
    + destruct H as ((K1 & K2 & K3) & R & Q1 & Q2). specialize (Pb eq_refl). destruct (_ =? 0) eqn:E0 in Hr; bools; [lia|].
      constructor; cbn; rewrite ?K1, ?K2, ?K3, ?Q1, ?Q2; cbn; try done; try lia. by rewrite (proj2 (Z.eqb_neq _ _) E0).
    + destruct H as (K1 & K2 & K3 & Q1 & Q2). specialize (Hs eq_refl). constructor; cbn; rewrite ?K1, ?K2, ?K3, ?Q1, ?Q2; cbn; try done; lia.
    + destruct H as ((K1 & K2 & K3) & P1 & D & Q1 & Q2). assert (p_phase g = 2) as G2 by (rewrite D in Id; destruct (p_pc g), (p_phase g =? 2) eqn:E2; bools; lia || done).
      constructor; cbn; rewrite ?K1, ?K2, ?K3, ?Q1, ?Q2; cbn; try done; lia.
Qed.
Lemma hand_guest h g m g' m' :
  lab_inv a l (mkLab h g m) -> hand_inv (mkLab h g m) -> hands g g' m m' -> hand_inv (mkLab h g' m').
Proof.
  intros [_ Ig _ _ _ _ _ _ _ _ _ _ _ _ _ _ _ _ _ _] [Hr Ha Hm Hs Ht Hc Hb Hu] H. cbn in *. pose proof Ig as [Sg Pg Pb _ _ _ _ _ _ _ _ _ _].
  destruct H as [[(K1 & K2 & K3) (W1 & W2 & W3 & W)]|H].
  - constructor; cbn; rewrite ?K1, ?K2, ?K3, ?W1; try done.
    + rewrite Hm. by destruct (p_pc g), (p_pc g').
    + destruct W as [[f W]|[W|[W W']]]; rewrite ?W, ?W'; cbn; try done; try lia; intros _; apply Hu; by left.
  - unfold handshake in H. destruct (p_pc g) eqn:Hp; try done; cbn in Sg; try done; cbn in *.
    + destruct H as (K1 & K2 & K3 & Q1 & Q2). specialize (Pb eq_refl). rewrite Pb in *. constructor; cbn; rewrite ?K1, ?K2, ?K3, ?Q1, ?Q2; cbn; try done; lia.
    + destruct H as (K1 & K2 & K3 & Q1 & Q2). constructor; cbn; rewrite ?K1, ?K2, ?K3, ?Q1, ?Q2; cbn; try done; lia.
    + destruct H as ((K1 & K2 & K3) & P1 & Q1 & Q2). constructor; cbn; rewrite ?K1, ?K2, ?K3, ?Q1, ?Q2; cbn; try done; lia.
    + destruct H as ((K1 & K2 & K3) & P1 & Q1 & Q2). rewrite P1 in *. specialize (Hu (or_intror eq_refl)).
      constructor; cbn; rewrite ?K1, ?K2, ?K3, ?Q1, ?Q2; cbn; try done; lia.
Qed.
Lemma idles_hands p p' m : idles p p' -> p_pc p <> Arm -> hands p p' m m.
Proof.
  intros (A & A2 & _) N. left. split; [done|]. split; [done|]. destruct A as [A|(f & _ & A)]; rewrite A; split_and!; try done; [by right; left|left; by exists f].
Qed.
Lemma moves_hands p p' m m' : kept m m' -> p_phase p' = p_phase p -> p_pc p <> Arm -> p_pc p' <> Arm ->
  stage (p_pc p') = stage (p_pc p) \/ (stage (p_pc p) = 2 /\ stage (p_pc p') = 3) -> hands p p' m m'.
Proof. intros. left. split; [done|]. split_and!; try done. by right. Qed.
Lemma wait_for_hands inp seen value next p m : p_pc p <> Arm ->
  (seen = value -> hands p (next (stall_progress p)) m m) -> hands p (wait_for a inp seen value next p) m m.
Proof. intros A N. destruct (wait_for_cases a inp seen value next p) as [[E ->]|I]; [by apply N|by apply idles_hands]. Qed.
Lemma next_slot_stage side i n : stage (next_slot side i n) = 2 /\ next_slot side i n <> Arm.
Proof. unfold next_slot. by destruct (i + 1 <? n), side. Qed.
Lemma batch_hands side inp p m p' m' i n : batch_of (p_pc p) = Some (i, n) -> proc_step a l side inp p m = Ok (p', m') -> hands p p' m m'.
Proof.
  intros Hb. unfold proc_step.
  destruct (p_pc p) as [| | | | | | |i' n'|i' n'|i' n'|i' n'|i' n'|i' n'|n'| | | | | | | | |f] eqn:Hp; try done; injection Hb as -> ->;
    try (pose proof (next_slot_stage side i n) as [Ns Na]).
  - destruct (set_at _ _ _); try done. cbn. intros [= <- <-]. apply moves_hands; rewrite ?Hp; try done. by left.
  - destruct (get_at _ _) as [old| | |]; try done. cbn. destruct (produced a side p i old) as [[fr q]| | |] eqn:Ep; try done. cbn.
    apply produced_still in Ep as [sc ->]. destruct (set_at _ _ _); try done. cbn. intros [= <- <-]. apply moves_hands; rewrite ?Hp; try done. by left.
  - destruct (set_at _ _ _); try done. cbn. intros [= <- <-]. apply moves_hands; rewrite ?Hp; try done. by left.
  - destruct (set_at _ _ _); try done. cbn. intros [= <- <-]. apply moves_hands; rewrite ?Hp; try done. by left.
  - destruct (get_at _ _) as [d| | |]; try done. cbn. destruct (ly_validate _ _ _ _); intros [= <- <-].
    + apply moves_hands; rewrite ?Hp; try done. by left.
    + left. split; [done|]. unfold within. rewrite Hp. split_and!; try done. left. by eexists.
  - destruct (get_at _ _) as [fr| | |]; try done. cbn. destruct (consumed a side p i fr) as [[input q]| | |] eqn:Ep; try done. cbn.
    apply consumed_still in Ep as [sc ->]. destruct (validate_frame _ _ _); intros [= <- <-].
    + apply moves_hands; rewrite ?Hp; try done. by left.
    + left. split; [done|]. unfold within. rewrite Hp. split_and!; try done. left. by eexists.
  - intros [= <- <-]. apply moves_hands; rewrite ?Hp; try done; [by destruct side|by left].
Qed.
Lemma fails_hands f p p' m : p_pc p <> Arm -> p_phase p' = p_phase p -> p_pc p' = Failed f -> hands p p' m m.
Proof. intros N E F. left. split; [done|]. unfold within. rewrite F. split_and!; try done. left. by exists f. Qed.
Lemma top_hands side inp p m : p_pc p = Top -> hands p (loop_top a side inp p m) m m.
Proof.
  intros Hp. unfold loop_top. destruct (_ <? _); [|apply moves_hands; rewrite ?Hp; destruct side; cbn; try done; by right].
  destruct (_ && _); [by eapply fails_hands; rewrite ?Hp|]. cbv zeta. destruct (_ =? 0).
  - match goal with |- hands p (wait_idle a inp ?q) m m => destruct (wait_idle_idles a inp q) as (A & A2 & _) end.
    destruct A as [A|(f & _ & A)]; [|by eapply fails_hands; rewrite ?Hp]. apply moves_hands; rewrite ?A; try exact A2; cbn; rewrite ?Hp; try done. by left.
  - apply moves_hands; rewrite ?Hp; destruct side; cbn; try done; by left.
Qed.
Lemma proc_hands side inp p m p' m' : side_pc side (p_pc p) -> proc_step a l side inp p m = Ok (p', m') -> hands p p' m m'.
Proof.
  intros S. destruct (batch_of (p_pc p)) as [[x y]|] eqn:Hb; [by eapply batch_hands|]. unfold proc_step.
  destruct (p_pc p) as [| | | | | | |i n|i n|i n|i n|i n|i n|n| | | | | | | | |f] eqn:Hp; try done; cbn in S; try rewrite S in *.
  - intros [= <- <-]. apply wait_for_hands; rewrite ?Hp; [done|]. intros E. right. unfold handshake. by rewrite Hp.
  - intros [= <- <-]. right. unfold handshake. by rewrite Hp.
  - intros [= <- <-]. apply wait_for_hands; rewrite ?Hp; [done|]. intros E. apply moves_hands; rewrite ?Hp; try done. by left.
  - intros [= <- <-]. right. unfold handshake. by rewrite Hp.
  - intros [= <- <-]. apply wait_for_hands; rewrite ?Hp; [done|]. intros E. unfold clocked. destruct (i_cpu inp); [by eapply fails_hands; rewrite ?Hp|].
    right. unfold handshake. by rewrite Hp.
  - unfold clocked. destruct (i_cpu inp); intros [= <- <-]; [by eapply fails_hands; rewrite ?Hp|]. right. unfold handshake. by rewrite Hp.
  - intros [= <- <-]. by apply top_hands.
  - intros [= <- <-]. destruct (notify_cases a inp p Hp) as [I|[E (_ & I & _)]]; [apply idles_hands; by rewrite ?Hp|].
    apply moves_hands; rewrite ?Hp, ?E; try done. by left.
  - intros [= <- <-]. destruct (_ =? _); [apply moves_hands; rewrite ?Hp; try done; by left|]. apply idles_hands; [apply wait_idle_idles|by rewrite Hp].
  - intros [= <- <-]. unfold finish_stats. destruct (i_cpu inp) as [e|[u t]]; [by eapply fails_hands; rewrite ?Hp|].
    apply moves_hands; rewrite ?Hp; destruct side, (p_phase p =? 1); try done; by left.
  - intros [= <- <-]. apply wait_for_hands; rewrite ?Hp; [done|]. intros E. cbn. destruct (p_phase p =? 1) eqn:E1; bools.
    + right. unfold handshake. rewrite Hp. split_and!; try done. lia.
    + apply moves_hands; rewrite ?Hp; try done. by left.
  - intros [= <- <-]. destruct (p_phase p =? 1) eqn:E1; bools.
    + right. unfold handshake. by rewrite Hp.
    + apply moves_hands; rewrite ?Hp; try done. by left.
  - intros [= <- <-]. apply moves_hands; rewrite ?Hp; try done. by left.
  - destruct (i_child inp); intros [= <- <-]; [apply moves_hands; rewrite ?Hp; try done; by left|by eapply fails_hands; rewrite ?Hp].
  - intros [= <- <-]. apply moves_hands; rewrite ?Hp; try done. by left.
  - intros [= <- <-]. by eapply fails_hands; rewrite ?Hp.
Qed.
(** ** Runs to the end *)
Definition lab_work (s : Lab) : Z := work (lab_host s) + work (lab_guest s).
Definition lab_still (s s' : Lab) : Prop := holds_still (lab_host s) (lab_host s') /\ holds_still (lab_guest s) (lab_guest s') /\ lab_shm s' = lab_shm s.
Definition lab_waits (side : bool) (s : Lab) : Prop := waits a side (if side then lab_host s else lab_guest s) (lab_shm s).
Definition lab_live (s : Lab) : Prop := lab_inv a l s /\ hand_inv s.
Definition lab_advances (sides : bool -> Prop) (s s' : Lab) : Prop :=
  lab_failed s' \/ lab_work s' < lab_work s \/ (lab_still s s' /\ forall side, sides side -> lab_waits side s).

Lemma lab_step_advances side inp s : input_ok a inp -> uninterrupted inp -> lab_live s ->
  exists s', lab_step a l side inp s = Ok s' /\ lab_live s' /\ lab_advances (eq side) s s'.
Proof.
  intros Hi U [I H]. destruct s as [h g m]. unfold lab_step. cbn [lab_host lab_guest lab_shm]. pose proof (li_host _ _ _ I) as Ph. pose proof (li_guest _ _ _ I) as Pg.
  cbn in Ph, Pg. destruct side.
  - destruct (host_step_ok a l L inp h g m Hi I) as (h' & m' & E & J). rewrite E. eexists. split; [reflexivity|]. cbn.
    split; [split; [done|]; apply (hand_host h g m h' m' I H); eapply proc_hands; [apply Ph|exact E]|].
    destruct (proc_advances true inp h m h' m' Ph U E) as [F|[W|(S & -> & W)]]; [left; by left|right; left; unfold lab_work; cbn; lia|].
    right; right. split; [done|]. by intros ? <-.
  - destruct (guest_step_ok a l L inp h g m I) as (g' & m' & E & J). rewrite E. eexists. split; [reflexivity|]. cbn.
    split; [split; [done|]; apply (hand_guest h g m g' m' I H); eapply proc_hands; [apply Pg|exact E]|].
    destruct (proc_advances false inp g m g' m' Pg U E) as [F|[W|(S & -> & W)]]; [left; by right|right; left; unfold lab_work; cbn; lia|].
    right; right. split; [done|]. by intros ? <-.
Qed.
Lemma failed_step side inp s s' : lab_failed s -> lab_step a l side inp s = Ok s' -> lab_failed s'.
Proof.
  unfold lab_step, lab_failed. intros F. destruct side.
  - destruct (proc_step a l true inp _ _) as [[h m]| | |] eqn:E; try done. cbn. intros [= <-]. cbn. destruct F as [[f F]|F]; [|by right].
    unfold proc_step in E. rewrite F in E. injection E as <- <-. left. by exists f.
  - destruct (proc_step a l false inp _ _) as [[g m]| | |] eqn:E; try done. cbn. intros [= <-]. cbn. destruct F as [F|[f F]]; [by left|].
    unfold proc_step in E. rewrite F in E. injection E as <- <-. right. by exists f.
Qed.
Lemma failed_run sched s s' : lab_failed s -> lab_run a l sched s = Ok s' -> lab_failed s'.
Proof.
  revert s. induction sched as [|[side inp] sched IH]; intros s F; cbn; [by intros [= <-]|].
  destruct (lab_step a l side inp s) as [s1| | |] eqn:E; try done. cbn. apply IH. by eapply failed_step.
Qed.
Lemma still_waits side s s' : lab_still s s' -> lab_waits side s' -> lab_waits side s.
Proof.
  intros ((A1 & A2 & A3 & A4) & (B1 & B2 & B3 & B4) & E). unfold lab_waits, waits. destruct side; rewrite E.
  - by rewrite A1, A2, A3, A4.
  - by rewrite B1, B2, B3, B4.
Qed.
Lemma still_lab_work s s' : lab_still s s' -> lab_work s' = lab_work s.
Proof. intros ((A1 & A2 & A3 & A4) & (B1 & B2 & B3 & B4) & E). unfold lab_work, work. by rewrite A1, A2, A3, B1, B2, B3. Qed.
Lemma still_trans s t u : lab_still s t -> lab_still t u -> lab_still s u.
Proof. unfold lab_still, holds_still. intros ((A1 & A2 & A3 & A4) & (B1 & B2 & B3 & B4) & E) ((C1 & C2 & C3 & C4) & (D1 & D2 & D3 & D4) & F). split_and!; congruence. Qed.
Definition fit (e : bool * Input) : Prop := input_ok a e.2 /\ uninterrupted e.2.
Lemma run_advances sched s : Forall fit sched -> lab_live s ->
  exists s', lab_run a l sched s = Ok s' /\ lab_live s' /\ lab_advances (fun side => side ∈ sched.*1) s s'.
Proof.
  intros F. revert s. induction F as [|[side inp] sched [Hi U] F IH]; intros s I; cbn.
  { exists s. split_and!; try done. right; right. split; [done|]. intros side E. by apply elem_of_nil in E. }
  destruct (lab_step_advances side inp s Hi U I) as (s1 & -> & I1 & A). cbn. destruct (IH s1 I1) as (s' & E & I' & A').
  exists s'. split; [done|]. split; [done|]. destruct A as [A|A]; [left; by eapply failed_run|].
  destruct A' as [A'|A']; [by left|]. right. destruct A as [A|[S W]], A' as [A'|[S' W']].
  - left. lia.
  - left. rewrite (still_lab_work _ _ S'). lia.
  - left. by rewrite <- (still_lab_work _ _ S).
  - right. split; [by eapply still_trans|]. intros x [->|Hx]%elem_of_cons; [by apply W|]. eapply still_waits; [done|]. by apply W'.
Qed.

(** Not both processes wait, unless they are done. *)
Lemma no_deadlock s : lab_live s -> lab_waits true s -> lab_waits false s -> lab_done s.
Proof.
  destruct s as [h g m]. intros [I H] Wh Wg. pose proof I as [Ih Ig Ip Ic Io _ _ _ _ _ _ _ _ Ix Id Ir Ij _ _ _]. pose proof H as [Hr Ha Hm Hs Ht Hc Hb Hu].
  pose proof Ih as [Sh Ph Pb Pa Pe Pr Pf Pd Pl _ _ _ _]. pose proof Ig as [Sg Qh Qb Qa Qe Qr Qf Qd Ql _ _ _ _]. pose proof (ring_pos a l L) as Rp.
  unfold lab_waits, waits, lab_done in *. cbn in *.
  pose proof (lo_packets _ _ L) as Lp. pose proof (lo_warmup _ _ L) as Lw. unfold first_of, last_of in *.
  destruct (p_pc g) eqn:Eg; try done; destruct (p_pc h) eqn:Eh; try done; cbn in * |-; exfalso;
    destruct Ph as [P|[P|P]], Qh as [Q|[Q|Q]]; rewrite P, Q in * |-; cbn in * |-; first [lia|discriminate (Ql (or_intror (or_intror eq_refl)))].
Qed.
Lemma work_low side p : proc_inv a side p -> is_failed p \/ 5 <= work p.
Proof.
  intros [_ Pp _ _ Pe Pr _ _ _ _ Bt _ _]. destruct (decide (pc_work (p_pc p) < 5)) as [Hw|Hw].
  - destruct (p_pc p) eqn:Hp; cbn in Hw, Bt; try lia; try (left; by eexists); right; unfold work; rewrite Hp; cbn.
    all: pose proof (lo_packets _ _ L); pose proof (lo_warmup _ _ L); unfold first_of, last_of in *;
      destruct Pp as [Pp|[Pp|Pp]]; rewrite Pp in *; cbn in *; lia.
  - right. unfold work. pose proof (lo_packets _ _ L); pose proof (lo_warmup _ _ L); unfold first_of, last_of in *.
    destruct Pp as [Pp|[Pp|Pp]]; rewrite Pp in *; cbn in *; lia.
Qed.
Lemma done_run sched s s' : lab_done s -> lab_run a l sched s = Ok s' -> lab_done s'.
Proof.
  intros [Dh Dg]. revert s Dh Dg. induction sched as [|[side inp] sched IH]; intros s Dh Dg; cbn; [by intros [= <-]|].
  unfold lab_step, proc_step. destruct side; [rewrite Dh|rewrite Dg]; cbn; apply IH; by cbn.
Qed.
Lemma lab_run_app r1 r2 s : lab_run a l (r1 ++ r2) s = (let* s := lab_run a l r1 s in lab_run a l r2 s).
Proof. revert s. induction r1 as [|[side inp] r1 IH]; intros s; cbn; [done|]. destruct (lab_step a l side inp s); cbn; [apply IH|done..]. Qed.
Definition both (r : list (bool * Input)) : Prop := true ∈ r.*1 /\ false ∈ r.*1.
Lemma rounds_end rounds s : Forall (Forall fit) rounds -> Forall both rounds -> lab_live s -> lab_work s <= 9 + zlen rounds ->
  exists s', lab_run a l (concat rounds) s = Ok s' /\ lab_live s' /\ (lab_failed s' \/ lab_done s').
Proof.
  intros F. revert s. induction F as [|r rounds Fr F IH]; intros s B I W; cbn [concat].
  - exists s. split; [done|]. split; [done|]. left. destruct I as [I _]. change (zlen []) with 0 in W. unfold lab_work in W.
    destruct (work_low _ _ (li_host _ _ _ I)) as [X|X]; [by left|]. destruct (work_low _ _ (li_guest _ _ _ I)) as [Y|Y]; [by right|]. lia.
  - apply Forall_cons in B as [[B1 B2] B]. rewrite lab_run_app. destruct (run_advances r s Fr I) as (s1 & -> & I1 & A). cbn [obind].
    assert (Forall fit (concat rounds)) as Fc by (by apply Forall_concat).
    destruct A as [A|[A|[S A]]].
    + destruct (run_advances (concat rounds) s1 Fc I1) as (s' & E & I' & _). exists s'. split_and!; try done. left. by eapply failed_run.
    + apply IH; try done. rewrite zlen_cons in W. lia.
    + pose proof (no_deadlock s I (A true B1) (A false B2)) as [D1 D2].
      assert (lab_done s1) as D by (destruct S as ((S1 & _) & (S2 & _) & _); unfold lab_done; by rewrite S1, S2).
      destruct (run_advances (concat rounds) s1 Fc I1) as (s' & E & I' & _). exists s'. split_and!; try done. right. by eapply done_run.
Qed.
Lemma start_live : lab_live (lab_start a).
Proof. split; [by apply lab_start_inv|]. constructor; cbn; try done; lia. Qed.

(** ** A calm environment: no error, and the run within the time allowed for a wait *)
Definition calm (t0 : Z) (inp : Input) : Prop :=
  t0 <= i_now inp < t0 + sa_timeout a * SECOND /\ (exists c, i_cpu inp = inr c) /\ (i_write inp).1 = 8 /\ 0 <= (i_poll inp).1 /\ 0 < (i_read inp).1
  /\ i_child inp = true.
Definition quiet (t0 : Z) (p : Proc) : Prop := p_closed p = false /\ match p_stall p with Some s => t0 <= s | None => True end.
Definition calmly (t0 : Z) (p p' : Proc) : Prop := quiet t0 p' /\ forall f, p_pc p' = Failed f -> environmental f -> p_pc p = Failed f.
Section Calm.
Context (t0 : Z) (inp : Input) (C : calm t0 inp).
Lemma calm_stall p : quiet t0 p -> exists p', stall_check a inp p = Some p' /\ quiet t0 p' /\ p_pc p' = p_pc p.
Proof.
  destruct C as (C1 & _). intros [Q1 Q2]. unfold stall_check. destruct (_ <=? _) eqn:E; bools.
  - exfalso. unfold dur_sub in E. destruct (p_stall p); cbn in E; lia.
  - eexists. split; [reflexivity|]. split; [|done]. split; [done|]. cbn. destruct (p_stall p); cbn; lia.
Qed.
Lemma calm_bell_idle p : quiet t0 p -> quiet t0 (bell_idle a inp p) /\ p_pc (bell_idle a inp p) = p_pc p.
Proof.
  destruct C as (_ & _ & _ & C1 & C2 & _). intros [Q1 Q2]. unfold bell_idle. destruct (sa_wait a); [done|]. cbn [p_closed proc_stat].
  unfold proc_stat. cbn. rewrite Q1. destruct (i_poll inp) as [n e]. cbn in C1. rewrite (proj2 (Z.ltb_ge _ _)) by lia.
  destruct (0 <? n); [|done]. destruct (i_read inp) as [r e']. cbn in C2. rewrite (proj2 (Z.eqb_neq _ _)) by lia. by rewrite (proj2 (Z.ltb_ge _ _)) by lia.
Qed.
Lemma calm_same p p' : quiet t0 p' -> p_pc p' = p_pc p -> calmly t0 p p'.
Proof. intros Q E. split; [done|]. intros f F _. by rewrite <- E. Qed.
Lemma calm_goto p p' : quiet t0 p' -> (forall f, p_pc p' <> Failed f) -> calmly t0 p p'.
Proof. intros Q N. split; [done|]. intros f F. by apply N in F. Qed.
Lemma calm_wait_idle p p0 : quiet t0 p -> p_pc p = p_pc p0 -> calmly t0 p0 (wait_idle a inp p).
Proof.
  intros Q E. unfold wait_idle. destruct (calm_stall p Q) as (p1 & -> & Q1 & E1). destruct (calm_bell_idle p1 Q1) as [Q2 E2]. apply calm_same; congruence.
Qed.
Lemma calm_wait_for seen value next p : quiet t0 p -> calmly t0 p (next (stall_progress p)) -> calmly t0 p (wait_for a inp seen value next p).
Proof.
  intros Q N. unfold wait_for. destruct (_ =? _); [done|]. destruct (calm_stall p Q) as (p1 & -> & Q1 & E1). by apply calm_same.
Qed.
Lemma calm_top side p m : quiet t0 p -> p_pc p = Top -> calmly t0 p (loop_top a side inp p m).
Proof.
  intros Q Hp. unfold loop_top. destruct (_ <? _); [|by apply calm_goto; [|destruct side]].
  destruct (_ && _); [split; [done|]; by intros ? [= <-]|]. cbv zeta. destruct (_ =? 0); [by apply calm_wait_idle|apply calm_goto; [by destruct Q|by destruct side]].
Qed.
Lemma calm_notify p : quiet t0 p -> calmly t0 p (bell_notify a inp p).
Proof.
  destruct C as (_ & _ & C1 & _). intros Q. unfold bell_notify. destruct (sa_wait a); [by apply calm_goto|]. rewrite (proj1 Q), C1. by apply calm_goto.
Qed.
Lemma calm_batch side p m p' m' i n : quiet t0 p -> batch_of (p_pc p) = Some (i, n) -> proc_step a l side inp p m = Ok (p', m') -> calmly t0 p p'.
Proof.
  intros Q Hb. unfold proc_step.
  destruct (p_pc p) as [| | | | | | |i' n'|i' n'|i' n'|i' n'|i' n'|i' n'|n'| | | | | | | | |f] eqn:Hp; try done; injection Hb as -> ->;
    try (assert (forall f, next_slot side i n <> Failed f) as Ns by (unfold next_slot; by destruct (i + 1 <? n), side)).
  - destruct (set_at _ _ _); try done. intros [= <- <-]. by apply calm_goto.
  - destruct (get_at _ _) as [old| | |]; try done. cbn. destruct (produced a side p i old) as [[fr q]| | |] eqn:Ep; try done. cbn.
    apply produced_still in Ep as [sc ->]. destruct (set_at _ _ _); try done. intros [= <- <-]. by apply calm_goto.
  - destruct (set_at _ _ _); try done. intros [= <- <-]. by apply calm_goto.
  - destruct (set_at _ _ _); try done. intros [= <- <-]. by apply calm_goto.
  - destruct (get_at _ _) as [d| | |]; try done. cbn. destruct (ly_validate _ _ _ _); intros [= <- <-]; [by apply calm_goto|split; [done|]; by intros ? [= <-] []].
  - destruct (get_at _ _) as [fr| | |]; try done. cbn. destruct (consumed a side p i fr) as [[input q]| | |] eqn:Ep; try done. cbn.
    apply consumed_still in Ep as [sc ->]. destruct (validate_frame _ _ _); intros [= <- <-]; [by apply calm_goto|split; [done|]; by intros ? [= <-] []].
  - intros [= <- <-]. by apply calm_goto.
Qed.
Lemma calm_start_run side phase first last p p0 : quiet t0 p -> calmly t0 p0 (start_run a side phase first last p).
Proof. intros [Q _]. by apply calm_goto; [|destruct side]. Qed.
Lemma calm_step side p m p' m' : quiet t0 p -> proc_step a l side inp p m = Ok (p', m') -> calmly t0 p p'.
Proof.
  intros Q. destruct (batch_of (p_pc p)) as [[x y]|] eqn:Hb; [by eapply calm_batch|]. assert (quiet t0 (stall_progress p)) as Qs by (by destruct Q).
  pose proof C as (_ & [c Ec] & _ & _ & _ & Ech). unfold proc_step.
  destruct (p_pc p) as [| | | | | | |i n|i n|i n|i n|i n|i n|n| | | | | | | | |f] eqn:Hp; try done; intros E.
  - injection E as <- <-. apply calm_wait_for; [done|]. by apply calm_start_run.
  - injection E as <- <-. by apply calm_start_run.
  - injection E as <- <-. apply calm_wait_for; [done|]. by apply calm_goto.
  - injection E as <- <-. by apply calm_goto.
  - injection E as <- <-. apply calm_wait_for; [done|]. unfold clocked. rewrite Ec. by apply calm_goto.
  - unfold clocked in E. rewrite Ec in E. injection E as <- <-. by apply calm_goto.
  - injection E as <- <-. by apply calm_top.
  - injection E as <- <-. by apply calm_notify.
  - injection E as <- <-. destruct (_ =? _); [by apply calm_goto|by apply calm_wait_idle].
  - injection E as <- <-. unfold finish_stats. rewrite Ec. destruct c as [u t]. apply calm_goto; [by destruct Q|]. by destruct side, (p_phase p =? 1).
  - injection E as <- <-. apply calm_wait_for; [done|]. destruct (_ =? 1); [by apply calm_start_run|by apply calm_goto].
  - injection E as <- <-. destruct (_ =? 1); [by apply calm_start_run|by apply calm_goto].
  - injection E as <- <-. by apply calm_goto.
  - rewrite Ech in E. injection E as <- <-. by apply calm_goto.
  - injection E as <- <-. by apply calm_same.
  - injection E as <- <-. by apply calm_same.
Qed.
End Calm.
Definition lab_quiet (t0 : Z) (s : Lab) : Prop := quiet t0 (lab_host s) /\ quiet t0 (lab_guest s) /\ ~ lab_failed s.
Lemma calm_lab_step t0 side inp s s' : calm t0 inp -> lab_quiet t0 s -> lab_inv a l s' -> lab_step a l side inp s = Ok s' -> lab_quiet t0 s'.
Proof.
  intros C (Qh & Qg & N) I E. unfold lab_step in E. destruct side.
  - destruct (proc_step a l true inp _ _) as [[h m]| | |] eqn:Ep; try done. cbn in E. injection E as <-.
    destruct (calm_step t0 inp C true _ _ _ _ Qh Ep) as [Q F]. split_and!; try done. intros [[f X]|X]; apply N; [|by right].
    left. exists f. apply F; [done|]. pose proof (pi_pc _ _ _ (li_host _ _ _ I)) as P. cbn in P, X. by rewrite X in P.
  - destruct (proc_step a l false inp _ _) as [[g m]| | |] eqn:Ep; try done. cbn in E. injection E as <-.
    destruct (calm_step t0 inp C false _ _ _ _ Qg Ep) as [Q F]. split_and!; try done. intros [X|[f X]]; apply N; [by left|].
    right. exists f. apply F; [done|]. pose proof (pi_pc _ _ _ (li_guest _ _ _ I)) as P. cbn in P, X. by rewrite X in P.
Qed.
Lemma calm_run t0 sched s s' : Forall fit sched -> Forall (fun e => calm t0 e.2) sched -> lab_quiet t0 s -> lab_inv a l s ->
  lab_run a l sched s = Ok s' -> lab_quiet t0 s'.
Proof.
  intros F. revert s. induction F as [|[side inp] sched [Hi _] F IH]; intros s C Q I; cbn; [by intros [= <-]|]. apply Forall_cons in C as [C Cs].
  destruct (lab_step_ok a l L side inp s Hi I) as (s1 & E1 & I1). rewrite E1. cbn. apply IH; try done. by eapply calm_lab_step.
Qed.
End Live.
