(* ===== verification/ShmNicProps.v ===== *)
(** * The shared-memory NIC: exactly once, in order, and to the end

    Runs of the two processes under every interleaving: what the guest verifies, that the processes never touch a
    slot at the same time, that they fail only for reasons of their environment, and that they do not wait for each other. *)
From Stdlib Require Import ZArith Lia Bool.
From stdpp Require Import base numbers option list.
From S2P Require Import Prelude VhostMemory VhostMemoryProps VhostQueue VhostQueueProps ShmNic ShmNicInv ShmNicStep ShmNicLive.
#[local] Open Scope Z_scope.

(** C32. For every configuration that is accepted and every interleaving of the two processes: no access is out of range, the two
    never access the same slot at once, at most a ring of packets is outstanding, the guest has verified the packets of a
    prefix of the sequence, each exactly once and in order, and what a process can fail with is a timeout, a closed pipe or an
    error of the operating system, never a bad index, a bad descriptor or a corrupt packet.  When the
    host exits, every packet of the warmup and of the measurement was verified and the report counts the measured ones. *)
Theorem shm_exactly_once a l sched :
  typed_args a -> layout_new a = Some l -> Forall (fun e => input_ok a e.2) sched ->
  exists s, lab_run a l sched (lab_start a) = Ok s
    /\ (exists k, p_log (lab_guest s) = seqZ 0 k /\ 0 <= k <= sa_warmup a + sa_packets a)
    /\ c_completed (lab_shm s) <= c_published (lab_shm s) <= c_completed (lab_shm s) + sa_ring a
    /\ (forall i j, accessing l (lab_host s) = Some i -> accessing l (lab_guest s) = Some j -> i <> j)
    /\ (forall f, p_pc (lab_host s) = Failed f \/ p_pc (lab_guest s) = Failed f -> environmental f)
    /\ (p_pc (lab_host s) = Exited ->
        p_log (lab_guest s) = seqZ 0 (sa_warmup a + sa_packets a) /\ st_packets (p_report (lab_host s)) = sa_packets a).
Proof.
  intros T H F. pose proof (layout_new_ok a l T H) as L. destruct (lab_run_ok a l L sched (lab_start a) F (lab_start_inv a l L)) as (s & E & I).
  exists s. split; [done|]. pose proof I as []. split_and!; try (rewrite li_published, li_completed; lia).
  - eexists. split; [exact li_log|]. pose proof li_guest as [_ Gp _ _ Ge Gr _ _ _ _ Gb _ _].
    assert (0 <= first_of a (p_phase (lab_guest s)) /\ last_of a (p_phase (lab_guest s)) <= sa_warmup a + sa_packets a) as B.
    { pose proof (lo_packets _ _ L). pose proof (lo_warmup _ _ L). unfold first_of, last_of. destruct Gp as [-> |[-> | ->]]; cbn; lia. }
    unfold progress_of. destruct (batch_of (p_pc (lab_guest s))) as [[x n]|]; lia.
  - intros x y. by apply (accesses_apart a l L).
  - pose proof (pi_pc _ _ _ li_host) as Ph. pose proof (pi_pc _ _ _ li_guest) as Pg. intros f [Ef|Ef]; [by rewrite Ef in Ph|by rewrite Ef in Pg].
  - by apply (lab_done_result a l).
Qed.

(** C33. The two processes do not wait for each other for ever: under every schedule of enough rounds, in which each
    process makes a step in every round and no notification is interrupted, both processes come to their end with every packet
    delivered and counted, or one of them has failed for a reason of its environment; and in a calm environment (no error
    of a system call, the whole run shorter than the time allowed for one wait) none fails.  A round is any sequence of steps with at least one of each process. *)
Theorem shm_completes a l rounds :
  typed_args a -> layout_new a = Some l -> Forall (Forall (fit a)) rounds -> Forall both rounds ->
  32 * (sa_warmup a + sa_packets a) + 66 <= zlen rounds ->
  exists s, lab_run a l (concat rounds) (lab_start a) = Ok s
    /\ (lab_failed s \/ lab_done s)
    /\ (forall t0, Forall (fun e => calm a t0 e.2) (concat rounds) -> ~ lab_failed s)
    /\ (lab_done s -> p_log (lab_guest s) = seqZ 0 (sa_warmup a + sa_packets a) /\ st_packets (p_report (lab_host s)) = sa_packets a).
Proof.
  intros T H F B N. pose proof (layout_new_ok a l T H) as L.
  destruct (rounds_end a l L rounds (lab_start a) F B (start_live a l L)) as (s & E & I & D).
  { unfold lab_work, work. cbn. lia. }
  exists s. split; [done|]. split; [done|]. split.
  - intros t0 C X. eapply (calm_run a l L t0 (concat rounds) (lab_start a) s); try done; [by apply Forall_concat| |by apply lab_start_inv].
    split_and!; try done. by intros [[f Y]|[f Y]].
  - intros [X _]. by apply (lab_done_result a l); [apply I|].
Qed.

(** ** A small laboratory *)
Definition shm_args (w : Wait) : ShmArgs := mkShmArgs BothCopy w 2 1 64 2 1 0 true 30.
Definition shm_input (r : Z) : Input :=
  mkInput 0 (inr (0, 0)) (r, OtherError) (1, OtherError) (8, OtherError) (replicate 64 7) (mkDescriptor 1 1 1 1) true.
Definition shm_round : list (bool * Input) := [(false, shm_input 8); (true, shm_input 8)].
Definition shm_layout : ShmLayout := mkShmLayout 2 128 8192 8448.
Lemma shm_args_typed w : typed_args (shm_args w).
Proof. constructor; cbn; lia. Qed.
Lemma shm_fit w side r : (r = 8 \/ r = -1) -> fit (shm_args w) (side, shm_input r).
Proof. intros R. split; [reflexivity|]. right. done. Qed.

Lemma shm_calm w : calm (shm_args w) 0 (shm_input 8).
Proof. split_and!; try (vm_compute; done). by eexists. Qed.

(** The laboratory runs to its end: one packet of warmup and two measured ones. *)
Lemma shm_exactly_once_witness :
  exists s, lab_run (shm_args Spin) shm_layout (concat (replicate 60 shm_round)) (lab_start (shm_args Spin)) = Ok s
    /\ p_pc (lab_host s) = Exited /\ p_log (lab_guest s) = [0; 1; 2] /\ st_packets (p_report (lab_host s)) = 2.
Proof.
  destruct (shm_exactly_once (shm_args Spin) shm_layout (concat (replicate 60 shm_round)) (shm_args_typed Spin) eq_refl) as (s & E & _ & _ & _ & _ & D).
  { apply Forall_concat, Forall_replicate. by repeat constructor. }
  exists s. split; [done|]. assert (p_pc (lab_host s) = Exited) as X.
  { assert (p_pc (lab_host s) = match lab_run (shm_args Spin) shm_layout (concat (replicate 60 shm_round)) (lab_start (shm_args Spin)) with Ok s => p_pc (lab_host s) | _ => Top end) as ->
      by (by rewrite E). vm_compute. reflexivity. }
  split; [done|]. destruct (D X) as [-> ->]. by split.
Defined.
Lemma shm_completes_witness :
  exists s, lab_run (shm_args Pipe) shm_layout (concat (replicate 170 shm_round)) (lab_start (shm_args Pipe)) = Ok s
    /\ lab_done s /\ p_log (lab_guest s) = [0; 1; 2].
Proof.
  destruct (shm_completes (shm_args Pipe) shm_layout (replicate 170 shm_round) (shm_args_typed Pipe) eq_refl) as (s & E & D & C & R).
  - apply Forall_replicate. constructor; [by apply shm_fit; left|]. constructor; [by apply shm_fit; left|constructor].
  - apply Forall_replicate. split; cbn; [right; left|left].
  - vm_compute. discriminate.
  - assert (lab_done s) as Ds.
    { destruct D as [F|D]; [|done]. destruct (C 0); [|done]. apply Forall_concat, Forall_replicate.
      constructor; [apply shm_calm|]. constructor; [apply shm_calm|constructor]. }
    exists s. split; [done|]. split; [done|]. by destruct (R Ds) as [-> _].
Defined.
(** The last notification of the host can come after the guest, having delivered everything, has exited and closed its
    pipe: the write fails, and with it the host, although nothing is left to be notified of. *)
Example shm_late_notification :
  match lab_run (shm_args Pipe) shm_layout (concat (replicate 32 shm_round) ++ replicate 30 (false, shm_input 8) ++ [(true, shm_input (-1))])
          (lab_start (shm_args Pipe)) with
  | Ok s => p_pc (lab_host s) = Failed (Os OtherError) /\ p_pc (lab_guest s) = Exited /\ p_log (lab_guest s) = [0; 1; 2]
  | _ => False
  end.
Proof. vm_compute. done. Qed.
